(* ===== verification/_CoqProject ===== *)
-Q . S2P
Prelude.v
UtilBit.v
UtilBitmap.v
UtilTagList.v
IoFileDesc.v
StlString.v
StlContainer.v
IoPath.v
ThreadSched.v
ThreadSpec.v
ThreadSync.v
UtilBlockQueue.v
IoKeyboard.v
MemPage.v
MemPool.v
MemMap.v
MemPages.v
MemSpace.v
MemHeap.v
Desc.v
Intr.v
IntrPic.v
SysCall.v
IoDisk.v
UtilFormat.v
IoVideo.v
IoConsole.v
FsBase.v
IoPart.v
FsData.v
FsFormat.v
FsPart.v
FsFile.v
FsWrite.v
FsOpen.v
FsDir.v
FsDirMap.v
FsDirDel.v
FsInit.v
FsBoot.v
Proc.v
ProcCopy.v
ProcFork.v
KrnlHeap.v
KrnlSched.v
KrnlEntry.v
