(* ===== verification/Prelude.v ===== *)
(** * Tiny x86 OS: verification development (root)

    The library models the C++ kernel of src/ (headers in src/include/kernel/,
    code in src/src/kernel/) in pure definitions and proves what its parts
    promise. Definitions keep the names of the source; a comment says so where
    Rocq does not allow it ([Set_], [mem_]). This file holds what all others
    share: the outcomes of kernel code, machine words, loops with fuel, and the
    tactics that evaluate them.

    ** How code is modelled

    - A value of a machine type of [w] bits is a [Z]; the operations of 32 bits
      wrap around ([+w], [-w], [*w]) wherever the code's do. Bytes are numbers
      below 256, arrays and buffers are lists, structures are records.
    - Code that can stop returns [res]: [Panic] is an assertion of
      [dbg::Assert] that failed, [Fault] an access outside an object (undefined
      in C++), [NoFuel] a loop that was given too little fuel, which no theorem
      about the code allows.
    - Code that changes state takes and returns it: an explicit kernel state for
      threads, a store of tags for lists, a machine with memory and page tables
      for paging, and the monad [M] of FsBase for the file system. Shared objects
      are entries of a store at their addresses where aliasing matters (tags of
      lists, page tables, open index nodes, directories, files).
    - Devices and libraries the kernel only talks to are classes: the ATA device
      ([AtaDevice] with the laws [AtaLaws], one block of data at a time), the pages
      under the heap ([PageAllocator], [PageLaws]), sectors and heap under the file
      system ([Store], [StoreLaws], [Heap], [HeapLaws]), and what the assembly of
      the scheduler does ([Platform]). IoDisk gives [AtaLaws] a simulated drive,
      and says with [Prompt] that a drive is ready for the next sector at once,
      which the driver takes for granted in commands of several sectors. MemHeap
      gives [PageLaws] the kernel's pages, FsBase gives [StoreLaws] the disk driver
      on a prompt drive, and KrnlHeap gives [HeapLaws] the kernel's heap; a store
      and a heap in memory (FsBase, Ram) serve as witnesses.

    ** The parts

    Utilities. UtilBit: util/bit.h and util/metric.h. UtilBitmap: util/bitmap.
    UtilTagList: util/tag_list, intrusive lists with their sentinels, as a
    refinement of sequences. UtilFormat: util/format. UtilBlockQueue:
    util/block_queue.h. StlString: stl/cstring and stl/string_view.h.
    StlContainer: stl/array.h, stl/span.h and their iterators.

    Threads. ThreadSched: thread/thd (creation, Schedule, Block, Unblock, Yield,
    the clock handler). ThreadSpec: an abstract scheduler that these operations
    refine, with fairness and the length of a time slice. ThreadSync: semaphores
    and mutexes of thread/sync, cut where the processor can change hands, and
    all their interleavings as a step relation.

    Memory. MemPage: entries and virtual addresses of memory/page. MemPool: the
    pools of memory/pool and their set-up (InitMem). MemMap: the two-level
    translation, the kernel's view of its own page tables through the last slot
    of the page directory, and the mapping of pages. MemPages: what AllocPages
    and FreePages promise. MemSpace: several page directories in one memory,
    with an owner for every frame. MemHeap: arenas and free lists, Allocate and
    Free.

    Processes. Proc: process/proc, with the frame StartProcess enters user mode
    with; the state is the scheduler's, the memory, the process objects and the
    open files. ProcCopy: CopyMemTo between two address spaces. ProcFork: Fork.

    Processor and devices. Desc: selector/, descriptor/ and process/tss. Intr:
    interrupt/intr and the flags of io/io.h. IntrPic: interrupt/pic and the
    programming of the timer of io/timer. IoKeyboard: io/keyboard. IoVideo:
    io/video/print, with its assembly, and debug/assert. IoConsole:
    io/video/console. IoDisk: io/disk/ide and the transfers of io/disk/disk. SysCall: syscall/call and the
    user library of src/include/user/ and src/src/user/.

    File system. IoPath: io/file/path. IoFileDesc: io/file/file.h and the
    descriptor table of thread/thd.h. FsBase: the monad, packed structures and
    the interfaces to sectors and memory. IoPart: partitions and ScanParts of
    io/disk/disk. FsData: the structures of io/disk/file/ and their bytes.
    FsFormat: FormatPart of io/disk/part.cpp and io/disk/file/super_block.cpp.
    FsPart: mounting, bitmaps and index nodes of io/disk/part.cpp. FsFile: open
    files, ReadFile, WriteFile, SeekFile, and the wrappers of io/file/file.cpp.
    FsWrite: what WriteFile does to files of direct blocks. FsOpen: the tables
    of open nodes and files over time. FsDir: directories, paths, creation and
    deletion. FsDirMap: a directory as a map from names to entries, and SyncDirEntry
    on it. FsDirDel: DeleteDirEntry on it. FsInit: InitFileSys. FsBoot: InitDisk of
    io/disk/disk.cpp, with what it prints of each disk.

    Kernel entry. KrnlHeap: Allocate and Free as the file system calls them, on
    the kernel's pages. KrnlSched: what happens to the scheduler while the kernel
    starts and in the loop of main, as runs of events. KrnlEntry: InitKernel of
    krnl.cpp, main and the idle thread. The model runs: evaluated on the machine of
    its witness, it prints what the kernel prints when it starts.

    The parts meet where the kernel's do: the semaphores run on the scheduler,
    the queue on the semaphores, the keyboard on the queue, the console on a
    mutex and the screen; the heap runs on the
    mapped pages, these on the pools, the pools on the bitmaps; InitFileSys runs
    FormatPart, LoadSuperBlock and OpenNode, which run on the driver of the disk;
    Fork runs AllocPages, AllocPageAtAddr and FreePages on the memory, the Fork
    of threads on the scheduler and that of descriptors on the file system;
    InitKernel runs the initializers of all parts, on one table of handlers and
    one heap.

    ** What the theorems show

    - Data structures: Alloc of a bitmap finds the first free run and marks
      exactly it; the pointers of a tag list are those of the sequence the
      operations compute; a bounded queue is a FIFO; strings are never written
      past their size; Visit, Join and Parse of paths work on components.
    - Threads: every sequence of scheduler calls follows the abstract scheduler
      and never fails an assertion; a ready thread runs after as many turns as
      there are threads before it; a mutex excludes, a semaphore loses no
      wake-up, and neither gets stuck, in every interleaving.
    - Memory: pools, mappings and the heap hand out what nothing else uses and
      get it back; InitMem lays them out disjointly.
    - Processes: Fork returns; the child has the parent's pages at the same
      addresses with the same contents, in frames that were free, the kernel's
      part of the address space is shared, the child's thread is ready and
      returns 0, and the parent and every other address space are as before.
    - Devices: the interrupt tables, the interrupt controllers and the timer are
      programmed as meant, the user library reaches the handler of the same
      name, the keyboard handler returns on every code, and WriteSectors and
      ReadSectors round trip: one sector on every device that keeps its
      specification, several on those that are prompt. The
      text screen is a window on everything typed, Printf prints its format with
      the arguments, and what a thread prints on the console comes out whole.
    - File system: ScanParts finds the partitions of a disk; FormatPart creates
      an empty file system and InitFileSys mounts it with its root directory;
      a node saved is the node loaded, and nothing else on the disk changes;
      ReadFile returns the bytes of a file, WriteFile appends to one; SyncDirEntry
      inserts an entry into a directory and DeleteDirEntry takes one out, and
      SearchDirEntry finds the others as before; open files count their nodes and
      never write the same one twice.
    - The whole: InitDisk finds the partition that InitFileSys then formats and
      mounts; InitKernel, from the page tables the boot loader leaves to the
      mounted file system, meets every assertion of its ten calls and establishes
      the invariants on which the theorems above rest (of the kernel's pages and
      heap, of the scheduler, of the mounted partition), whatever the waits for the
      disks and the clock do to the scheduler, and main then runs for ever.

    Where a theorem has a hypothesis that the code does not test, the comment
    says so; where the code does something else than it means to, an Example or
    the comment of the definition says that.

    ** Fuel and bounds

    Loops over a structure recur on it. Other loops take fuel, and the theorem
    that a loop returns shows that it is enough: a bitmap scan has one step for
    each bit and one to leave, ConvertUInt one for each digit of a number of 32
    bits, BusyWait one for each 10 ms of the 30 s it waits, a transfer of sectors
    one for each sector and one to leave, ScanParts ten nested records (the
    master record, one for each of eight logical partitions, and one more), and
    a read or write of a file one for each of its 140 blocks and three more. Fork
    takes 27 pages of the kernel's heap (the objects of process and thread, 23
    for the bitmap of addresses, the page directory, the buffer). The heap of KrnlHeap
    keeps 77 pages, those of the largest buffer of the file system, for every request
    it has promised, and twice as many addresses. A disk has at most 80 megabytes (Disk::max_lba), which keeps the sums of
    sector numbers below 2 ^ 32.

    ** What is not modelled

    The boot loader and the entry and switch routines are assembly; where the
    kernel calls them they are parameters, except the text screen, and the page
    tables the loader leaves are a hypothesis (Loaded of KrnlEntry), and so is that
    the entries it does not write are clear. What the
    initializers print is in KrnlEntry and FsBoot, except InitFileSys's messages. Locks that
    are held during the whole of an operation (of the memory pools, of a disk's
    channel) are not part of its data, and the guards that disable interrupts
    make the operations atomic. What a page of a process or thread object holds
    is the object, not words of the memory. What InitDisk and InitFileSys compute is
    followed as one thread, next to any run of the scheduler: the only other thread
    is the idle one, which touches neither disks nor memory. Keys pressed meanwhile
    are not part of these runs: no thread waits for them.
    Paths in the file system, Process::Create and WriteFile for files with an
    indirect table have definitions and no theorem: SearchPath and CreateFile do
    not do what they mean to (see the findings), and the others repeat what is
    shown of Fork and of files of direct blocks. *)
From Stdlib Require Export ZArith Lia Bool Btauto.
From stdpp Require Export base tactics numbers option list gmap.

#[global] Open Scope Z_scope.

(** ** Outcomes

    Kernel code either returns, stops in [dbg::Assert] (the kernel spins in
    [PanicSpin]), or touches memory outside the object it was given, which C++
    leaves undefined. [NoFuel] is not a behaviour of the code: it says that the
    bound given to a loop was too small, and every theorem that a loop returns
    excludes it. *)
Inductive res (A : Type) : Type :=
| Ok (a : A)
| Panic
| Fault
| NoFuel.
Arguments Ok {A} a.
Arguments Panic {A}.
Arguments Fault {A}.
Arguments NoFuel {A}.

#[export] Instance res_ret : MRet res := @Ok.
#[export] Instance res_bind : MBind res := fun A B k m =>
  match m with
  | Ok a => k a
  | Panic => Panic
  | Fault => Fault
  | NoFuel => NoFuel
  end.

(** [dbg::Assert] of src/src/kernel/debug/assert.cpp, in a debug build. *)
Definition Assert (cond : bool) : res unit :=
  if cond then Ok tt else Panic.

(** A read or a write whose address may be outside the object. *)
Definition of_option {A} (o : option A) : res A :=
  match o with
  | Some a => Ok a
  | None => Fault
  end.

Definition is_ok {A} (r : res A) : bool :=
  match r with
  | Ok _ => true
  | _ => false
  end.

Lemma res_bind_ok {A B} (k : A → res B) (a : A) : (Ok a ≫= k) = k a.
Proof. reflexivity. Qed.

Lemma res_bind_inv {A B} (m : res A) (k : A → res B) (b : B) :
  (m ≫= k) = Ok b → ∃ a, m = Ok a ∧ k a = Ok b.
Proof. destruct m; simpl; try discriminate. eauto. Qed.

Lemma Assert_true (c : bool) : c = true → Assert c = Ok tt.
Proof. by intros ->. Qed.

Lemma Assert_inv (c : bool) : Assert c = Ok tt → c = true.
Proof. by destruct c. Qed.

Lemma of_option_inv {A} (o : option A) (a : A) : of_option o = Ok a → o = Some a.
Proof. destruct o; simpl; congruence. Qed.

(** ** Machine integers

    An unsigned integer of [w] bits is a [Z] in [0 .. 2^w - 1]; every
    arithmetic operation wraps. *)
Definition wrap (w x : Z) : Z := x mod 2 ^ w.
Definition u8 : Z → Z := wrap 8.
Definition u16 : Z → Z := wrap 16.
Definition u32 : Z → Z := wrap 32.
Definition u64 : Z → Z := wrap 64.

(** The two's complement reading of a 32-bit word, [stl::int32_t]. *)
Definition s32 (x : Z) : Z :=
  let y := u32 x in if y <? 2 ^ 31 then y else y - 2 ^ 32.

Declare Scope cpp_scope.
Delimit Scope cpp_scope with cpp.
Notation "a +w b" := (u32 (a + b)) (at level 50, left associativity) : cpp_scope.
Notation "a -w b" := (u32 (a - b)) (at level 50, left associativity) : cpp_scope.
Notation "a *w b" := (u32 (a * b)) (at level 40, left associativity) : cpp_scope.
#[global] Open Scope cpp_scope.

Definition in_u (w x : Z) : Prop := 0 ≤ x < 2 ^ w.

Lemma wrap_range w x : 0 ≤ w → in_u w (wrap w x).
Proof. intros. apply Z.mod_pos_bound. by apply Z.pow_pos_nonneg. Qed.

Lemma wrap_small w x : in_u w x → wrap w x = x.
Proof. apply Z.mod_small. Qed.

Lemma wrap_idemp w x : wrap w (wrap w x) = wrap w x.
Proof. unfold wrap. by rewrite Zmod_mod. Qed.

Lemma u32_range x : 0 ≤ u32 x < 2 ^ 32.
Proof. by apply wrap_range. Qed.

Lemma u32_small x : 0 ≤ x < 2 ^ 32 → u32 x = x.
Proof. apply wrap_small. Qed.

(** Add [n] modulo [2^32] in two steps. *)
Lemma u32_add_l a b : u32 (u32 a + b) = u32 (a + b).
Proof. unfold u32, wrap. by rewrite Zplus_mod_idemp_l. Qed.

Lemma u32_sub_l a b : u32 (u32 a - b) = u32 (a - b).
Proof. unfold u32, wrap. by rewrite Zminus_mod_idemp_l. Qed.

Lemma u32_idemp x : u32 (u32 x) = u32 x.
Proof. apply wrap_idemp. Qed.

Create HintDb kernel.
Create Rewrite HintDb kernel.
#[export] Hint Resolve wrap_range u32_range : kernel.
#[export] Hint Rewrite u32_add_l u32_sub_l wrap_idemp : kernel.

(** ** Loops *)

(** [for (i = begin; i != begin + n; ++i) body]: the indices a source loop
    visits never wrap where this is used. *)
Fixpoint for_range {S} (n : nat) (i : Z) (body : Z → S → res S) (s : S) : res S :=
  match n with
  | O => Ok s
  | Datatypes.S n' => s' ← body i s; for_range n' (i + 1) body s'
  end.

(** A loop whose body either continues with a new state or leaves with a
    result; [fuel] bounds the number of iterations. *)
Fixpoint loop {S A} (fuel : nat) (body : S → res (S + A)) (s : S) : res A :=
  match fuel with
  | O => NoFuel
  | Datatypes.S fuel' =>
      r ← body s;
      match r with
      | inl s' => loop fuel' body s'
      | inr a => Ok a
      end
  end.

(** The invariant rule of a counted loop, with success. *)
Lemma for_range_inv {S} (I : Z → S → Prop) n i (body : Z → S → res S) s :
  I i s →
  (∀ k s, i ≤ k < i + Z.of_nat n → I k s → ∃ s', body k s = Ok s' ∧ I (k + 1) s') →
  ∃ s', for_range n i body s = Ok s' ∧ I (i + Z.of_nat n) s'.
Proof.
  revert i s. induction n as [|n IH]; intros i s H0 Hstep; simpl.
  { exists s. by rewrite Z.add_0_r. }
  destruct (Hstep i s) as (s1 & -> & H1); [lia|done|]. simpl.
  destruct (IH (i + 1) s1 H1) as (s2 & -> & H2).
  { intros k t Hk. apply Hstep. lia. }
  exists s2. split; [done|]. by replace (i + Z.of_nat (Datatypes.S n))
    with (i + 1 + Z.of_nat n) by lia.
Qed.

(** The invariant rule of an open-ended loop, with termination: a measure that
    decreases while the loop continues bounds the fuel. *)
Lemma loop_inv {S A} (I : S → Prop) (m : S → nat) (Q : A → Prop) (body : S → res (S + A)) :
  (∀ s, I s →
    (∃ s', body s = Ok (inl s') ∧ I s' ∧ (m s' < m s)%nat) ∨
    (∃ a, body s = Ok (inr a) ∧ Q a)) →
  ∀ fuel s, I s → (m s < fuel)%nat → ∃ a, loop fuel body s = Ok a ∧ Q a.
Proof.
  intros Hstep. induction fuel as [|fuel IH]; intros s HI Hm; [lia|]. simpl.
  destruct (Hstep s HI) as [(s' & -> & HI' & Hlt)|(a & -> & HQ)]; simpl; [|eauto].
  apply IH; [done|lia].
Qed.

Lemma loop_S {S A} fuel (body : S → res (S + A)) s :
  loop (Datatypes.S fuel) body s
  = (r ← body s; match r with inl s' => loop fuel body s' | inr a => Ok a end).
Proof. reflexivity. Qed.

#[global] Arguments loop {S A} fuel body s : simpl never.
#[global] Arguments for_range {S} n i body s : simpl never.

(** ** Automation *)

(** Decompose a successful run into its steps. *)
Ltac res_inv :=
  repeat match goal with
    | H : Ok _ = Ok _ |- _ => injection H; clear H; intros; subst
    | H : Panic = Ok _ |- _ => discriminate H
    | H : Fault = Ok _ |- _ => discriminate H
    | H : NoFuel = Ok _ |- _ => discriminate H
    | H : mret _ = Ok _ |- _ => unfold mret, res_ret in H
    | H : (_ ≫= _) = Ok _ |- _ =>
        let a := fresh "v" in let E := fresh "E" in
        apply res_bind_inv in H; destruct H as (a & E & H)
    | H : Assert _ = Ok ?u |- _ => destruct u; apply Assert_inv in H
    | H : of_option _ = Ok _ |- _ => apply of_option_inv in H
    | H : (if ?c then _ else _) = Ok _ |- _ => destruct c eqn:?
    end.

(** Turn boolean tests into propositions. *)
Ltac to_prop :=
  repeat match goal with
    | H : _ && _ = true |- _ => apply andb_true_iff in H; destruct H
    | H : _ || _ = false |- _ => apply orb_false_iff in H; destruct H
    | H : negb _ = true |- _ => apply negb_true_iff in H
    | H : negb _ = false |- _ => apply negb_false_iff in H
    | H : (_ <? _) = true |- _ => apply Z.ltb_lt in H
    | H : (_ <? _) = false |- _ => apply Z.ltb_ge in H
    | H : (_ <=? _) = true |- _ => apply Z.leb_le in H
    | H : (_ <=? _) = false |- _ => apply Z.leb_gt in H
    | H : (_ =? _) = true |- _ => apply Z.eqb_eq in H
    | H : (_ =? _) = false |- _ => apply Z.eqb_neq in H
    end.

(** Linear arithmetic with divisions and remainders by constants. *)
Ltac div_lia := Z.to_euclidean_division_equations; lia.

(** Removing an element of a list without duplicates. *)
Lemma filter_ne_id (a : Z) (l : list Z) : a ∉ l → filter (.≠ a) l = l.
Proof.
  induction l as [|x l IH]; intros Ha; [done|]. rewrite filter_cons, decide_True, IH; [done|..].
  - intros Hin. apply Ha. by constructor.
  - intros ->. apply Ha. by constructor.
Qed.

Lemma length_filter_ne (a : Z) (l : list Z) : NoDup l → a ∈ l → length l = S (length (filter (.≠ a) l)).
Proof.
  induction 1 as [|x l Hx Hnd IH]; intros Ha; [by apply elem_of_nil in Ha|].
  rewrite filter_cons. destruct (decide (x = a)) as [->|Hne].
  - rewrite decide_False by auto. simpl. by rewrite filter_ne_id.
  - rewrite decide_True by done. simpl. f_equal. apply IH. by apply elem_of_cons in Ha as [|].
Qed.
