(* ===== verification/UtilBit.v ===== *)
(** * Bit manipulation and metrics

    [bit] models src/include/kernel/util/bit.h: every template takes the width
    [w] of its type parameter [T] in bits. [metric] models
    src/include/kernel/util/metric.h on [stl::size_t], 32 bits wide. *)
From S2P Require Import Prelude.

(** ** Reasoning bit by bit *)

Lemma testbit_wrap w x i :
  0 ≤ w → Z.testbit (wrap w x) i = (i <? w) && Z.testbit x i.
Proof.
  intros Hw. unfold wrap. destruct (decide (i < 0)).
  { by rewrite !Z.testbit_neg_r, andb_false_r by lia. }
  rewrite Z.testbit_mod_pow2 by lia. done.
Qed.

Lemma testbit_ones n i :
  0 ≤ n → Z.testbit (Z.ones n) i = (0 <=? i) && (i <? n).
Proof.
  intros Hn. destruct (Z.leb_spec 0 i); [|by rewrite Z.testbit_neg_r by lia].
  destruct (Z.ltb_spec i n); [by rewrite Z.ones_spec_low by lia|].
  by rewrite Z.ones_spec_high by lia.
Qed.

Lemma testbit_pow2 n i : 0 ≤ n → Z.testbit (2 ^ n) i = (i =? n).
Proof.
  intros Hn. destruct (Z.eqb_spec i n) as [->|].
  - by rewrite Z.pow2_bits_true.
  - by rewrite Z.pow2_bits_false by done.
Qed.

(** A word has no bit at or above its width. *)
Lemma testbit_high w x i : in_u w x → w ≤ i → Z.testbit x i = false.
Proof.
  intros [H0 H1] Hi. destruct (decide (w < 0)) as [|].
  { rewrite Z.pow_neg_r in H1 by lia. lia. }
  rewrite <- (Z.mod_small x (2 ^ w)) by lia.
  apply Z.mod_pow2_bits_high. lia.
Qed.

Lemma wrap_of_bits w x :
  0 ≤ w → (∀ i, w ≤ i → Z.testbit x i = false) → 0 ≤ x → in_u w x.
Proof.
  intros Hw Hx H0. assert (x = wrap w x) as ->; [|by apply wrap_range].
  apply Z.bits_inj'; intros i Hi. rewrite testbit_wrap by done.
  destruct (Z.ltb_spec i w); [done|]. by rewrite Hx.
Qed.

Create Rewrite HintDb bits.
#[export] Hint Rewrite Z.land_spec Z.lor_spec : bits.
#[export] Hint Rewrite Z.shiftr_spec Z.shiftl_spec Z.lnot_spec testbit_wrap
  testbit_ones testbit_pow2 using lia : bits.
#[export] Hint Rewrite Z.bits_0 andb_false_r andb_false_l andb_true_r andb_true_l
  orb_false_r orb_false_l orb_true_r orb_true_l : bits.

(** Case analysis on the comparisons of the goal, closed by arithmetic. *)
Ltac bits_cases :=
  repeat match goal with
    | |- context [?a <? ?b] => destruct (Z.ltb_spec a b); try lia
    | |- context [?a <=? ?b] => destruct (Z.leb_spec a b); try lia
    | |- context [?a =? ?b] => destruct (Z.eqb_spec a b); try lia
    end.

Ltac bits_fin :=
  autorewrite with bits; bits_cases; autorewrite with bits;
  try (done || btauto || (f_equal; lia)).

Module bit.

(** The number of bits in a byte. *)
Definition byte_len : Z := 8.

(** The width in which an expression over [T] is computed: operands narrower
    than [int] are promoted to it. *)
Definition promoted (w : Z) : Z := Z.max w 32.

(** [((static_cast<T>(1) << count) - 1) << begin] *)
Definition mask (w begin count : Z) : Z :=
  let p := promoted w in
  wrap p (Z.shiftl (wrap p (wrap p (Z.shiftl 1 count) - 1)) begin).

Definition GetBits (w val begin count : Z) : Z :=
  if count <? w then
    wrap w (Z.shiftr (Z.land val (mask w begin count)) begin)
  else val.

Definition ResetBits (w val begin count : Z) : Z :=
  if count <? w then
    wrap w (Z.land val (Z.lnot (mask w begin count)))
  else 0.

Definition SetBits (w val bits begin count : Z) : Z :=
  if count <? w then
    let cleared := ResetBits w val begin count in
    wrap w (Z.lor cleared
      (Z.land (wrap (promoted w) (Z.shiftl (wrap w bits) begin)) (mask w begin count)))
  else wrap w bits.

Definition IsBitSet (w val idx : Z) : bool :=
  negb (Z.land val (wrap (promoted w) (Z.shiftl 1 idx)) =? 0).

Definition SetBit (w val idx : Z) : Z :=
  wrap w (Z.lor val (wrap (promoted w) (Z.shiftl 1 idx))).

Definition ResetBit (w val idx : Z) : Z :=
  wrap w (Z.land val (Z.lnot (wrap (promoted w) (Z.shiftl 1 idx)))).

Definition GetByte (w val begin : Z) : Z := u8 (GetBits w val begin (1 * byte_len)).
Definition GetWord (w val begin : Z) : Z := u16 (GetBits w val begin (2 * byte_len)).
Definition GetDword (w val begin : Z) : Z := u32 (GetBits w val begin (4 * byte_len)).

(** The count of [SetBits] defaults to the size of the bits' type. *)
Definition SetByte (w val byte begin : Z) : Z := SetBits w val byte begin (1 * byte_len).
Definition SetWord (w val word begin : Z) : Z := SetBits w val word begin (2 * byte_len).
Definition SetDword (w val dword begin : Z) : Z := SetBits w val dword begin (4 * byte_len).

(** [CombineBits<T>(high, low)], [T] of [w] bits and [Bits] of [wb] bits. *)
Definition CombineBits (w wb high low : Z) : Z :=
  wrap w (wrap (promoted w) (wrap (promoted w) (Z.shiftl (wrap w high) wb) + low)).

Definition CombineBytes (high low : Z) : Z := CombineBits 16 8 high low.
Definition CombineWords (high low : Z) : Z := CombineBits 32 16 high low.
Definition CombineDwords (high low : Z) : Z := CombineBits 64 32 high low.

Definition GetLowByte (val : Z) : Z := GetByte 16 val 0.
Definition GetLowWord (val : Z) : Z := GetWord 32 val 0.
Definition GetLowDword (val : Z) : Z := GetDword 64 val 0.
Definition GetHighByte (val : Z) : Z := GetByte 16 val (1 * byte_len).
Definition GetHighWord (val : Z) : Z := GetWord 32 val (2 * byte_len).
Definition GetHighDword (val : Z) : Z := GetDword 64 val (4 * byte_len).

Definition SetLowByte (val byte : Z) : Z := SetByte 16 val byte 0.
Definition SetLowWord (val word : Z) : Z := SetWord 32 val word 0.
Definition SetLowDword (val dword : Z) : Z := SetDword 64 val dword 0.
Definition SetHighByte (val byte : Z) : Z := SetByte 16 val byte (1 * byte_len).
Definition SetHighWord (val word : Z) : Z := SetWord 32 val word (2 * byte_len).
Definition SetHighDword (val dword : Z) : Z := SetDword 64 val dword (4 * byte_len).

(** [bit::Flags<E, stl::uint32_t>]; a flag of [E] is its underlying value. *)
Module Flags.
Definition IsSet (flags flag : Z) : bool := negb (Z.land flags flag =? 0).
Definition Set_ (flags flag : Z) : Z := u32 (Z.lor flags flag).
End Flags.

(** ** What the templates compute *)

Lemma testbit_mask w begin count i :
  0 < w → 0 ≤ begin → 0 ≤ count < w →
  Z.testbit (mask w begin count) i
  = (begin <=? i) && (i <? begin + count) && (i <? promoted w).
Proof.
  intros Hw Hb Hc. unfold mask. set (p := promoted w).
  assert (Hp : w ≤ p) by (unfold p, promoted; lia).
  assert (Hone : wrap p (wrap p (Z.shiftl 1 count) - 1) = Z.ones count).
  { rewrite Z.shiftl_1_l, (wrap_small p (2 ^ count)).
    - rewrite Z.ones_equiv, Z.sub_1_r. apply wrap_small.
      assert (2 ^ count < 2 ^ p) by (apply Z.pow_lt_mono_r; lia).
      assert (0 < 2 ^ count) by (apply Z.pow_pos_nonneg; lia).
      unfold in_u; lia.
    - assert (2 ^ count < 2 ^ p) by (apply Z.pow_lt_mono_r; lia).
      assert (0 < 2 ^ count) by (apply Z.pow_pos_nonneg; lia).
      unfold in_u; lia. }
  rewrite Hone, testbit_wrap by lia.
  destruct (Z.leb_spec begin i).
  - rewrite Z.shiftl_spec, testbit_ones by lia. bits_fin.
  - destruct (decide (i < 0)); [rewrite Z.testbit_neg_r by lia; bits_fin|].
    rewrite Z.shiftl_spec, testbit_ones by lia. bits_fin.
Qed.
#[export] Hint Rewrite testbit_mask using (unfold promoted in *; lia) : bits.

Lemma promoted_ge w : w ≤ promoted w.
Proof. unfold promoted. lia. Qed.

Section fields.
Context (w : Z) (Hw : 0 < w).

(** The bits [GetBits] returns. *)
Lemma testbit_GetBits val begin count i :
  0 ≤ begin → 0 ≤ count → begin + count ≤ w → count < w → 0 ≤ i →
  Z.testbit (GetBits w val begin count) i
  = (i <? count) && Z.testbit val (i + begin).
Proof.
  intros. pose proof (promoted_ge w). unfold GetBits.
  destruct (Z.ltb_spec count w); [|lia].
  rewrite testbit_wrap, Z.shiftr_spec, Z.land_spec, testbit_mask by lia.
  bits_fin.
Qed.

Lemma testbit_ResetBits val begin count i :
  in_u w val → 0 ≤ begin → 0 ≤ count → begin + count ≤ w → count < w → 0 ≤ i →
  Z.testbit (ResetBits w val begin count) i
  = negb ((begin <=? i) && (i <? begin + count)) && Z.testbit val i.
Proof.
  intros Hv **. pose proof (promoted_ge w). unfold ResetBits.
  destruct (Z.ltb_spec count w); [|lia].
  rewrite testbit_wrap, Z.land_spec, Z.lnot_spec, testbit_mask by lia.
  destruct (Z.ltb_spec i w).
  - bits_fin.
  - rewrite (testbit_high w val) by (done || lia). bits_fin.
Qed.

(** [SetBits] writes the low [count] bits at [begin] and keeps the rest. *)
Lemma testbit_SetBits val bits begin count i :
  in_u w val → 0 ≤ begin → 0 ≤ count → begin + count ≤ w → count < w → 0 ≤ i →
  Z.testbit (SetBits w val bits begin count) i
  = if (begin <=? i) && (i <? begin + count) then Z.testbit bits (i - begin)
    else Z.testbit val i.
Proof.
  intros Hv **. pose proof (promoted_ge w). unfold SetBits.
  destruct (Z.ltb_spec count w); [|lia].
  rewrite testbit_wrap, Z.lor_spec, testbit_ResetBits, Z.land_spec, testbit_mask,
    testbit_wrap by lia || done.
  rewrite Z.shiftl_spec, testbit_wrap by lia.
  destruct (Z.ltb_spec i w).
  - bits_fin.
  - rewrite (testbit_high w val) by (done || lia). bits_fin.
Qed.

Lemma GetBits_range val begin count :
  0 ≤ begin → 0 ≤ count → begin + count ≤ w → count < w →
  in_u count (GetBits w val begin count).
Proof.
  intros. apply wrap_of_bits; [done| |].
  - intros. rewrite testbit_GetBits by lia. bits_fin.
  - unfold GetBits. destruct (Z.ltb_spec count w); [|lia]. apply wrap_range. lia.
Qed.

Lemma SetBits_range val bits begin count : in_u w (SetBits w val bits begin count).
Proof. unfold SetBits. case_match; apply wrap_range; lia. Qed.

(** As arithmetic: a field is a quotient modulo a power of two. *)
Lemma GetBits_div_mod val begin count :
  0 ≤ begin → 0 ≤ count → begin + count ≤ w → count < w →
  GetBits w val begin count = (val / 2 ^ begin) mod 2 ^ count.
Proof.
  intros. change ((val / 2 ^ begin) mod 2 ^ count) with (wrap count (val / 2 ^ begin)).
  rewrite <- Z.shiftr_div_pow2 by done. apply Z.bits_inj'; intros i Hi.
  rewrite testbit_GetBits, testbit_wrap, Z.shiftr_spec by lia. done.
Qed.

(** Reading the field that was written. *)
Lemma GetBits_SetBits val bits begin count :
  in_u w val → 0 ≤ begin → 0 ≤ count → begin + count ≤ w → count < w →
  GetBits w (SetBits w val bits begin count) begin count = wrap count bits.
Proof.
  intros. apply Z.bits_inj'; intros i Hi.
  rewrite testbit_GetBits, testbit_SetBits, testbit_wrap by lia || done.
  bits_cases; simpl; try done. f_equal; lia.
Qed.

(** Reading a field that does not overlap the one written. *)
Lemma GetBits_SetBits_other val bits b1 c1 b2 c2 :
  in_u w val → 0 ≤ b1 → 0 ≤ c1 → b1 + c1 ≤ w → c1 < w →
  0 ≤ b2 → 0 ≤ c2 → b2 + c2 ≤ w → c2 < w → b1 + c1 ≤ b2 ∨ b2 + c2 ≤ b1 →
  GetBits w (SetBits w val bits b1 c1) b2 c2 = GetBits w val b2 c2.
Proof.
  intros. apply Z.bits_inj'; intros i Hi.
  rewrite !testbit_GetBits, testbit_SetBits by lia || done.
  bits_cases; done.
Qed.

Lemma SetBits_GetBits val begin count :
  in_u w val → 0 ≤ begin → 0 ≤ count → begin + count ≤ w → count < w →
  SetBits w val (GetBits w val begin count) begin count = val.
Proof.
  intros. apply Z.bits_inj'; intros i Hi.
  rewrite testbit_SetBits by lia || done.
  bits_cases; simpl; try done.
  rewrite testbit_GetBits by lia. bits_cases; simpl. f_equal; lia.
Qed.

Lemma IsBitSet_testbit val idx :
  0 ≤ idx < w → IsBitSet w val idx = Z.testbit val idx.
Proof.
  intros. unfold IsBitSet. pose proof (promoted_ge w).
  rewrite Z.shiftl_1_l, (wrap_small (promoted w) (2 ^ idx)).
  2:{ assert (2 ^ idx < 2 ^ promoted w) by (apply Z.pow_lt_mono_r; lia).
      assert (0 < 2 ^ idx) by (apply Z.pow_pos_nonneg; lia). unfold in_u; lia. }
  assert (Hl : Z.land val (2 ^ idx) = if Z.testbit val idx then 2 ^ idx else 0).
  { apply Z.bits_inj'; intros i Hi. rewrite Z.land_spec, testbit_pow2 by lia.
    destruct (Z.eqb_spec i idx) as [->|].
    - destruct (Z.testbit val idx); simpl; [|by rewrite Z.bits_0].
      by rewrite Z.pow2_bits_true by lia.
    - rewrite andb_false_r. destruct (Z.testbit val idx); [|by rewrite Z.bits_0].
      by rewrite Z.pow2_bits_false by done. }
  rewrite Hl. destruct (Z.testbit val idx); [|done].
  destruct (Z.eqb_spec (2 ^ idx) 0) as [E|]; [|done].
  assert (0 < 2 ^ idx) by (apply Z.pow_pos_nonneg; lia). lia.
Qed.

Lemma testbit_SetBit val idx i :
  in_u w val → 0 ≤ idx < w → 0 ≤ i →
  Z.testbit (SetBit w val idx) i = (i =? idx) || Z.testbit val i.
Proof.
  intros. pose proof (promoted_ge w). unfold SetBit.
  rewrite Z.shiftl_1_l, testbit_wrap, Z.lor_spec, testbit_wrap, testbit_pow2 by lia.
  destruct (Z.ltb_spec i w).
  - bits_fin.
  - rewrite (testbit_high w val) by (done || lia). bits_fin.
Qed.

Lemma testbit_ResetBit val idx i :
  in_u w val → 0 ≤ idx < w → 0 ≤ i →
  Z.testbit (ResetBit w val idx) i = negb (i =? idx) && Z.testbit val i.
Proof.
  intros. pose proof (promoted_ge w). unfold ResetBit.
  rewrite Z.shiftl_1_l, testbit_wrap, Z.land_spec, Z.lnot_spec, testbit_wrap,
    testbit_pow2 by lia.
  destruct (Z.ltb_spec i w).
  - bits_fin.
  - rewrite (testbit_high w val) by (done || lia). bits_fin.
Qed.

Lemma SetBit_range val idx : in_u w (SetBit w val idx).
Proof. apply wrap_range. lia. Qed.
Lemma ResetBit_range val idx : in_u w (ResetBit w val idx).
Proof. apply wrap_range. lia. Qed.
End fields.

#[export] Hint Resolve SetBits_range SetBit_range ResetBit_range : kernel.
End bit.

Module metric.

(** [static_cast<stl::size_t>(-1)] *)
Definition npos : Z := u32 (-1).

Definition KB (size : Z) : Z := size *w 1024.
Definition MB (size : Z) : Z := size *w KB 1024.
(** The factor 2014 is the source's. *)
Definition GB (size : Z) : Z := size *w MB 2014.
Definition SecondsToMilliseconds (seconds : Z) : Z := seconds *w 1000.

Definition RoundUpDivide (dividend divisor : Z) : Z := (dividend +w divisor -w 1) / divisor.
Definition BackwardAlign (val align : Z) : Z := val -w (val mod align).
Definition ForwardAlign (val align : Z) : Z := RoundUpDivide val align *w align.

Lemma npos_eq : npos = 2 ^ 32 - 1.
Proof. reflexivity. Qed.

(** Without overflow the division rounds up. *)
Lemma RoundUpDivide_spec a d :
  0 ≤ a → 0 < d → a + d ≤ 2 ^ 32 →
  (RoundUpDivide a d - 1) * d < a ≤ RoundUpDivide a d * d.
Proof.
  intros. unfold RoundUpDivide. rewrite u32_sub_l, u32_small by lia.
  pose proof (Z.div_mod (a + d - 1) d). pose proof (Z.mod_pos_bound (a + d - 1) d). lia.
Qed.

Lemma BackwardAlign_spec a d :
  0 ≤ a < 2 ^ 32 → 0 < d →
  BackwardAlign a d mod d = 0 ∧ BackwardAlign a d ≤ a < BackwardAlign a d + d
  ∧ 0 ≤ BackwardAlign a d.
Proof.
  intros. unfold BackwardAlign. pose proof (Z.mod_pos_bound a d).
  pose proof (Z.div_mod a d). pose proof (Z.mod_le a d).
  rewrite u32_small by lia. split_and!; try lia.
  replace (a - a mod d) with (a / d * d) by lia. apply Z.mod_mul. lia.
Qed.

Lemma ForwardAlign_spec a d :
  0 ≤ a → 0 < d → a + d ≤ 2 ^ 32 →
  ForwardAlign a d mod d = 0 ∧ a ≤ ForwardAlign a d < a + d.
Proof.
  intros. unfold ForwardAlign. pose proof (RoundUpDivide_spec a d).
  rewrite u32_small by nia. split; [apply Z.mod_mul; lia|lia].
Qed.
End metric.
