(* ===== verification/UtilBitmap.v ===== *)
(** * The bitmap

    [Bitmap] models src/include/kernel/util/bitmap.h and
    src/src/kernel/util/bitmap.cpp: a bit buffer with first-fit allocation. *)
From S2P Require Import Prelude.
From S2P Require Import UtilBit.
Import bit metric.

Module Bitmap.

(** [bits_] is the buffer the pointer designates, [None] for [nullptr]. *)
Record t := mk { byte_len_ : Z; bits_ : option (list Z) }.

Definition default : t := mk 0 None.

Definition zeros (n : Z) : list Z := replicate (Z.to_nat n) 0.

(** [stl::memset(bits_, 0, byte_len_)] on a buffer of at least that size. *)
Definition Clear (b : t) : res t :=
  match bits_ b with
  | None => Panic
  | Some l =>
      if Z.of_nat (length l) <? byte_len_ b then Fault
      else Ok (mk (byte_len_ b) (Some (zeros (byte_len_ b) ++ drop (Z.to_nat (byte_len_ b)) l)))
  end.

Definition Init (bits : option (list Z)) (byte_len : Z) (clear : bool) : res t :=
  Assert (bool_decide (is_Some bits) && (0 <? byte_len));;
  let b := mk byte_len bits in
  if clear then Clear b else Ok b.

(** [operator=(Bitmap&& o)]: the swap gives [o]'s buffer to the target, then
    [o] is emptied. *)
Definition Move (self o : t) : t * t := (o, default).

Definition GetCapacity (b : t) : Z := byte_len_ b *w byte_len.
Definition GetByteLen (b : t) : Z := byte_len_ b.
Definition GetBits (b : t) : option (list Z) := bits_ b.

(** The byte at [idx], and its update. *)
Definition read_byte (b : t) (idx : Z) : res Z :=
  match bits_ b with
  | None => Panic
  | Some l => of_option (l !! Z.to_nat idx)
  end.

Definition IsAlloc (b : t) (idx : Z) : res bool :=
  Assert (bool_decide (is_Some (bits_ b)));;
  let byte_idx := idx / byte_len in
  let bit_idx := idx mod byte_len in
  Assert (byte_idx <? byte_len_ b);;
  v ← read_byte b byte_idx;
  Ok (IsBitSet 8 v bit_idx).

Definition SetBit (b : t) (idx : Z) (val : bool) : res t :=
  Assert (bool_decide (is_Some (bits_ b)));;
  let byte_idx := idx / byte_len in
  let bit_idx := idx mod byte_len in
  Assert (byte_idx <? byte_len_ b);;
  v ← read_byte b byte_idx;
  let v' := if val then bit.SetBit 8 v bit_idx else bit.ResetBit 8 v bit_idx in
  Ok (mk (byte_len_ b) (<[Z.to_nat byte_idx := v']> <$> bits_ b)).

Definition Set_ (b : t) (begin count : Z) : res t :=
  Assert (bool_decide (is_Some (bits_ b)));;
  Assert (0 <? count);;
  for_range (Z.to_nat count) 0 (fun i b => SetBit b (i +w begin) true) b.

Definition Reset (b : t) (begin count : Z) : res t :=
  Assert (bool_decide (is_Some (bits_ b)));;
  Assert (0 <? count);;
  for_range (Z.to_nat count) 0 (fun i b => SetBit b (i +w begin) false) b.

Definition Free (b : t) (begin count : Z) : res t := Reset b begin count.

Definition ForceAlloc (b : t) (begin count : Z) : res t :=
  if 0 <? count then Set_ b begin count else Ok b.

(** [while (byte_idx != byte_len_ && bits_[byte_idx] == 0xFF) ++byte_idx;] *)
Definition skip_full_body (b : t) (byte_idx : Z) : res (Z + Z) :=
  if byte_idx =? byte_len_ b then Ok (inr byte_idx)
  else v ← read_byte b byte_idx;
       Ok (if v =? 255 then inl (byte_idx + 1) else inr byte_idx).

(** [while (bit_idx != bit::byte_len && IsBitSet(bits_[byte_idx], bit_idx)) ++bit_idx;] *)
Definition skip_set_body (v : Z) (bit_idx : Z) : res (Z + Z) :=
  Ok (if negb (bit_idx =? byte_len) && IsBitSet 8 v bit_idx then inl (bit_idx + 1)
      else inr bit_idx).

(** The scan for [count] consecutive free bits from [bit_idx]; the state is
    [i] and [found_count]. *)
Definition scan_body (b : t) (count : Z) (s : Z * Z) : res ((Z * Z) + (t * Z)) :=
  let '(i, found_count) := s in
  if i =? byte_len_ b *w byte_len then Ok (inr (b, npos))
  else
    a ← IsAlloc b i;
    if negb a then
      if found_count + 1 =? count then
        let begin := i -w count +w 1 in
        b' ← Set_ b begin count;
        Ok (inr (b', begin))
      else Ok (inl (i + 1, found_count + 1))
    else Ok (inl (i + 1, 0)).

(** The bound on every loop of [Alloc]: one iteration per bit, and one more to
    leave. *)
Definition fuel (b : t) : nat := S (Z.to_nat (byte_len_ b * byte_len)).

Definition Alloc (b : t) (count : Z) : res (t * Z) :=
  Assert (bool_decide (is_Some (bits_ b)) && (0 <? count));;
  byte_idx ← loop (fuel b) (skip_full_body b) 0;
  if byte_idx =? byte_len_ b then Ok (b, npos)
  else
    v ← read_byte b byte_idx;
    bit_idx ← loop (S (Z.to_nat byte_len)) (skip_set_body v) 0;
    Assert (bit_idx <? byte_len);;
    let start := bit_idx +w (byte_idx *w byte_len) in
    loop (fuel b) (scan_body b count) (start, 0).

(** ** Specification

    A bitmap is the set of its allocated indices, seen as a predicate. *)

Definition alloc_at (b : t) (i : Z) : bool :=
  match bits_ b with
  | None => false
  | Some l =>
      match l !! Z.to_nat (i / byte_len) with
      | Some v => Z.testbit v (i mod byte_len)
      | None => false
      end
  end.

Definition cap (b : t) : Z := byte_len_ b * byte_len.

(** The buffer has the length the bitmap records, holds bytes, and the number
    of bits fits [stl::size_t]. *)
Record wf (b : t) : Prop := {
  wf_bits : ∃ l, bits_ b = Some l ∧ Z.of_nat (length l) = byte_len_ b ∧ Forall (in_u 8) l;
  wf_len : 0 < byte_len_ b;
  wf_cap : cap b < npos;
}.

(** [n] consecutive free bits from [s]. *)
Definition free_run (b : t) (s n : Z) : Prop :=
  0 ≤ s ∧ s + n ≤ cap b ∧ ∀ i, s ≤ i < s + n → alloc_at b i = false.

(** [b'] is [b] with the indices of [begin, begin + count) set to [v]. *)
Definition updated (b b' : t) (begin count : Z) (v : bool) : Prop :=
  wf b' ∧ byte_len_ b' = byte_len_ b ∧
  ∀ i, 0 ≤ i → alloc_at b' i =
    if (begin <=? i) && (i <? begin + count) then v else alloc_at b i.

Lemma cap_u32 b : wf b → 0 < cap b < 2 ^ 32 ∧ byte_len_ b *w byte_len = cap b.
Proof.
  intros [_ Hl Hc]. unfold cap, byte_len in *. rewrite npos_eq in Hc.
  split; [lia|]. apply u32_small. lia.
Qed.

(** The byte holding bit [i], in a well-formed bitmap. *)
Lemma read_byte_ok b k :
  wf b → 0 ≤ k < byte_len_ b →
  ∃ l v, bits_ b = Some l ∧ l !! Z.to_nat k = Some v ∧ in_u 8 v ∧ read_byte b k = Ok v.
Proof.
  intros [(l & Hl & Hlen & Hb) ? ?] Hk. unfold read_byte. rewrite Hl.
  destruct (lookup_lt_is_Some_2 l (Z.to_nat k)) as [v Hv]; [lia|].
  rewrite Hv. exists l, v. split_and!; try done. by eapply Forall_lookup_1.
Qed.

Lemma idx_byte b i : wf b → 0 ≤ i < cap b → 0 ≤ i / byte_len < byte_len_ b.
Proof.
  unfold cap, byte_len. intros _ ?. split; [apply Z.div_pos; lia|].
  apply Z.div_lt_upper_bound; lia.
Qed.

Lemma IsAlloc_ok b i : wf b → 0 ≤ i < cap b → IsAlloc b i = Ok (alloc_at b i).
Proof.
  intros Hwf Hi. pose proof (idx_byte b i Hwf Hi) as Hk.
  destruct (read_byte_ok b _ Hwf Hk) as (l & v & Hl & Hv & Hr & Hread).
  unfold IsAlloc, alloc_at. rewrite Hl, Hv, Hread.
  rewrite bool_decide_eq_true_2 by eauto. simpl.
  destruct (Z.ltb_spec (i / byte_len) (byte_len_ b)); [|lia]. simpl.
  rewrite IsBitSet_testbit; [done|lia|]. unfold byte_len. apply Z.mod_pos_bound. lia.
Qed.

Lemma SetBit_ok b i val :
  wf b → 0 ≤ i < cap b → ∃ b', SetBit b i val = Ok b' ∧ updated b b' i 1 val.
Proof.
  intros Hwf Hi. pose proof (idx_byte b i Hwf Hi) as Hk.
  destruct (read_byte_ok b _ Hwf Hk) as (l & v & Hl & Hv & Hr & Hread).
  destruct Hwf as [(l' & Hl' & Hlen & Hb) H0 Hc].
  rewrite Hl in Hl'. injection Hl' as <-.
  assert (Hm : 0 ≤ i mod byte_len < 8) by (unfold byte_len; apply Z.mod_pos_bound; lia).
  unfold SetBit. rewrite bool_decide_eq_true_2 by eauto. rewrite Hread. simpl.
  destruct (Z.ltb_spec (i / byte_len) (byte_len_ b)); [|lia]. simpl.
  eexists; split; [done|]. set (v' := if val then _ else _).
  split_and!; [split; simpl| |].
  - eexists. rewrite Hl. split_and!; [done|by rewrite length_insert|].
    apply Forall_insert; [done|]. unfold v'. case_match; [apply SetBit_range|apply ResetBit_range]; lia.
  - done.
  - done.
  - done.
  - intros j Hj. unfold alloc_at. simpl. rewrite Hl. simpl.
    destruct (Z.eqb_spec (j / byte_len) (i / byte_len)) as [E|E].
    + rewrite E, list_lookup_insert_eq by (apply lookup_lt_Some in Hv; lia).
      rewrite Hv. assert (Hj' : 0 ≤ j mod byte_len < 8)
        by (unfold byte_len; apply Z.mod_pos_bound; lia).
      assert (Hiff : i ≤ j < i + 1 ↔ j mod byte_len = i mod byte_len).
      { pose proof (Z.div_mod i byte_len). pose proof (Z.div_mod j byte_len).
        unfold byte_len in *. lia. }
      unfold v'. destruct val.
      * rewrite testbit_SetBit by (done || lia).
        destruct (Z.eqb_spec (j mod byte_len) (i mod byte_len)); bits_cases; done.
      * rewrite testbit_ResetBit by (done || lia).
        destruct (Z.eqb_spec (j mod byte_len) (i mod byte_len)); bits_cases; done.
    + rewrite list_lookup_insert_ne.
      * bits_cases; try done. exfalso. apply E. f_equal. lia.
      * intros F. apply E. apply Z2Nat.inj in F; [done|lia|].
        unfold byte_len. apply Z.div_pos; lia.
Qed.

Lemma updated_refl b i v : wf b → updated b b i 0 v.
Proof. intros. split_and!; [done|done|]. intros. bits_cases; done. Qed.

(** Setting or resetting a range, bit by bit. *)
Lemma set_range_ok b begin count val :
  wf b → 0 ≤ begin → 0 < count → begin + count ≤ cap b →
  ∃ b', for_range (Z.to_nat count) 0 (fun i b => SetBit b (i +w begin) val) b = Ok b'
    ∧ updated b b' begin count val.
Proof.
  intros Hwf H0 Hc Hle. pose proof (cap_u32 b Hwf) as [Hcap _].
  edestruct (for_range_inv (fun k b' => updated b b' begin k val)) as (b' & Hb' & Hu).
  3:{ exists b'. split; [exact Hb'|]. by replace (0 + Z.of_nat (Z.to_nat count)) with count in Hu by lia. }
  { by apply updated_refl. }
  intros k b1 Hk (Hwf1 & Hlen & Hat). simpl.
  rewrite u32_small by lia.
  destruct (SetBit_ok b1 (k + begin) val Hwf1) as (b2 & -> & Hwf2 & Hlen2 & Hat2).
  { unfold cap in *. rewrite Hlen. lia. }
  exists b2. split; [done|]. split_and!; [done|congruence|].
  intros i Hi. rewrite Hat2, Hat by done. bits_cases; done.
Qed.

Lemma Set_ok b begin count :
  wf b → 0 ≤ begin → 0 < count → begin + count ≤ cap b →
  ∃ b', Set_ b begin count = Ok b' ∧ updated b b' begin count true.
Proof.
  intros Hwf H0 Hc Hle. destruct (set_range_ok b begin count true) as (b' & Hr & Hu); try done.
  exists b'. split; [|done]. unfold Set_.
  destruct Hwf as [(l & -> & _) _ _]. rewrite bool_decide_eq_true_2 by eauto. simpl.
  destruct (Z.ltb_spec 0 count); [|lia]. simpl. exact Hr.
Qed.

Lemma Free_ok b begin count :
  wf b → 0 ≤ begin → 0 < count → begin + count ≤ cap b →
  ∃ b', Free b begin count = Ok b' ∧ updated b b' begin count false.
Proof.
  intros Hwf H0 Hc Hle. destruct (set_range_ok b begin count false) as (b' & Hr & Hu); try done.
  exists b'. split; [|done]. unfold Free, Reset.
  destruct Hwf as [(l & -> & _) _ _]. rewrite bool_decide_eq_true_2 by eauto. simpl.
  destruct (Z.ltb_spec 0 count); [|lia]. simpl. exact Hr.
Qed.

(** ** First-fit allocation *)

Lemma full_byte v : in_u 8 v → (∀ m, 0 ≤ m < 8 → Z.testbit v m = true) → v = 255.
Proof.
  intros Hv Hm. change 255 with (Z.ones 8). apply Z.bits_inj'; intros i Hi.
  rewrite testbit_ones by lia. bits_cases; [by rewrite Hm by lia|].
  by rewrite (testbit_high 8) by (done || lia).
Qed.

Lemma full_byte_bits m : 0 ≤ m < 8 → Z.testbit 255 m = true.
Proof. intros. change 255 with (Z.ones 8). rewrite testbit_ones by lia. bits_cases; done. Qed.

Lemma alloc_at_byte b k v m :
  (∃ l, bits_ b = Some l ∧ l !! Z.to_nat k = Some v) → 0 ≤ m < 8 →
  alloc_at b (k * byte_len + m) = Z.testbit v m.
Proof.
  intros (l & Hl & Hv) Hm. unfold alloc_at. rewrite Hl. unfold byte_len.
  rewrite Z.div_add_l, (Z.div_small m), Z.add_0_r, Hv by lia.
  by rewrite Z.add_comm, Z.mod_add, Z.mod_small by lia.
Qed.

(** Every index below [k] is allocated. *)
Definition full_below (b : t) (k : Z) : Prop := ∀ i, 0 ≤ i < k → alloc_at b i = true.

Lemma full_below_byte b k :
  full_below b (k * byte_len) → (∀ m, 0 ≤ m < 8 → alloc_at b (k * byte_len + m) = true) →
  full_below b ((k + 1) * byte_len).
Proof.
  intros H1 H2 i Hi. unfold byte_len in *. destruct (decide (i < k * 8)); [apply H1; lia|].
  replace i with (k * 8 + (i - k * 8)) by lia. apply H2. lia.
Qed.

Lemma skip_full_ok b :
  wf b →
  ∃ k, loop (fuel b) (skip_full_body b) 0 = Ok k ∧ 0 ≤ k ≤ byte_len_ b
    ∧ full_below b (k * byte_len)
    ∧ (k = byte_len_ b ∨ k < byte_len_ b ∧ read_byte b k ≠ Ok 255).
Proof.
  intros Hwf. pose proof (wf_len b Hwf) as Hpos.
  apply (loop_inv (λ k, 0 ≤ k ≤ byte_len_ b ∧ full_below b (k * byte_len))
           (λ k, Z.to_nat (byte_len_ b - k))).
  2:{ split; [lia|]. intros i ?. unfold byte_len in *. lia. }
  2:{ unfold fuel, byte_len. lia. }
  intros k [Hk Hfull]. unfold skip_full_body.
  destruct (Z.eqb_spec k (byte_len_ b)) as [->|Hne].
  { right. eexists. split_and!; try done; lia || auto. }
  destruct (read_byte_ok b k) as (l & v & Hl & Hv & Hr & Hread); [done|lia|].
  rewrite Hread. simpl.
  destruct (Z.eqb_spec v 255) as [->|Hv'].
  - left. eexists. split_and!; [done|lia|lia| |lia].
    apply full_below_byte; [done|]. intros m Hm.
    rewrite (alloc_at_byte b k 255 m) by (eauto || done). by apply full_byte_bits.
  - right. eexists. split_and!; try done; [lia..|]. right. split; [lia|]. congruence.
Qed.

Lemma skip_set_ok v :
  in_u 8 v → v ≠ 255 →
  ∃ j, loop (S (Z.to_nat byte_len)) (skip_set_body v) 0 = Ok j ∧ 0 ≤ j < byte_len
    ∧ (∀ m, 0 ≤ m < j → Z.testbit v m = true) ∧ Z.testbit v j = false.
Proof.
  intros Hv Hne. unfold byte_len in *.
  apply (loop_inv (λ j, 0 ≤ j ≤ 8 ∧ ∀ m, 0 ≤ m < j → Z.testbit v m = true)
           (λ j, Z.to_nat (8 - j))); [|split; intros; lia|simpl; lia].
  intros j [Hj Hall]. unfold skip_set_body, byte_len.
  destruct (Z.eqb_spec j 8) as [->|Hj8]; simpl.
  { destruct Hne. by apply full_byte. }
  rewrite IsBitSet_testbit by lia. destruct (Z.testbit v j) eqn:E.
  - left. eexists. split_and!; [done|lia|lia| |lia].
    intros m Hm. destruct (decide (m = j)) as [->|]; [done|apply Hall; lia].
  - right. eexists. split_and!; [done|lia|lia|done|done].
Qed.

(** What [Alloc] promises: the first run of [count] free bits, all of them
    allocated afterwards, or [npos] when there is none. *)
Definition alloc_post (b : t) (count : Z) (r : t * Z) : Prop :=
  let '(b', begin) := r in
  (begin = npos ∧ b' = b ∧ ∀ s, ¬ free_run b s count) ∨
  (begin ≠ npos ∧ free_run b begin count ∧ (∀ s, s < begin → ¬ free_run b s count)
   ∧ updated b b' begin count true).

(** [found] bits before [i] are free and the bit before them, if any, is not. *)
Definition scan_inv (b : t) (count : Z) (s : Z * Z) : Prop :=
  let '(i, found) := s in
  0 ≤ found ≤ i ∧ i ≤ cap b ∧ found < count
  ∧ (∀ j, i - found ≤ j < i → alloc_at b j = false)
  ∧ (i = found ∨ alloc_at b (i - found - 1) = true).

(** Under the invariant no run of [count] bits ends at or before [i]. *)
Definition no_run_below (b : t) (count i : Z) : Prop :=
  ∀ s, s + count ≤ i → ¬ free_run b s count.

Lemma no_run_step b count i :
  0 < count → no_run_below b count i → alloc_at b i = true → no_run_below b count (i + 1).
Proof.
  intros Hc Hno Hset s Hs Hrun.
  destruct (decide (s + count ≤ i)) as [|]; [by apply (Hno s)|].
  destruct Hrun as (H0 & H1 & Hrun). rewrite Hrun in Hset by lia. done.
Qed.

Lemma no_run_full b count i :
  0 < count → full_below b i → no_run_below b count i.
Proof.
  intros Hc Hfull s Hs (H0 & H1 & Hrun). specialize (Hrun s). rewrite Hfull in Hrun by lia.
  discriminate Hrun. lia.
Qed.

Lemma scan_ok b count s :
  wf b → 0 < count → scan_inv b count s → no_run_below b count (fst s) →
  ∃ r, loop (fuel b) (scan_body b count) s = Ok r ∧ alloc_post b count r.
Proof.
  intros Hwf Hc HI Hno. pose proof (cap_u32 b Hwf) as [Hcap Heq].
  pose proof (wf_cap b Hwf) as Hnpos. pose proof npos_eq as Hnp.
  apply (loop_inv (λ s, scan_inv b count s ∧ no_run_below b count (fst s))
           (λ s, Z.to_nat (cap b - fst s))); [|done|].
  2:{ destruct s as [i f]; cbn [fst]. destruct HI as (? & ? & _).
      unfold fuel. fold (cap b). lia. }
  clear s HI Hno. intros [i found] [(Hf & Hi & Hlt & Hfree & Hb) Hno]. unfold scan_body.
  cbn [fst] in *. rewrite Heq. destruct (Z.eqb_spec i (cap b)) as [->|Hne].
  { right. eexists. split; [done|]. left. split_and!; [done..|].
    intros s Hs. apply (Hno s); [|done]. destruct Hs as (? & ? & _). lia. }
  rewrite IsAlloc_ok by (done || lia). simpl. destruct (alloc_at b i) eqn:Ei; simpl.
  - left. eexists. split; [done|]. split; [|cbn [fst]; lia]. split; [|by apply no_run_step].
    split_and!; try lia. right.
    by replace (i + 1 - 0 - 1) with i by lia.
  - assert (Hfree' : ∀ j, i - found ≤ j < i + 1 → alloc_at b j = false).
    { intros j Hj. destruct (decide (j = i)) as [->|]; [done|]. apply Hfree. lia. }
    destruct (Z.eqb_spec (found + 1) count) as [Hfc|Hfc].
    + right. assert (Hbeg : i -w count +w 1 = i - found).
      { rewrite u32_add_l, u32_small by lia. lia. }
      rewrite Hbeg. destruct (Set_ok b (i - found) count) as (b' & -> & Hu); try done; try lia.
      simpl. eexists. split; [done|]. right. split_and!; try done; try lia.
      * split_and!; try lia. intros j Hj. apply Hfree'. lia.
      * intros s Hs. apply (Hno s). lia.
    + left. eexists. split; [done|]. split; [|cbn [fst]; lia]. split; [split_and!; try lia|].
      * intros j Hj. apply Hfree'. lia.
      * destruct Hb as [->|Hb]; [left; lia|right].
        by replace (i + 1 - (found + 1) - 1) with (i - found - 1) by lia.
      * intros s Hs (H0 & H1 & Hrun).
        destruct (decide (s + count ≤ i)); [apply (Hno s); [done|by split_and!]|].
        cbn [fst] in Hs. destruct Hb as [Hb|Hb]; [lia|]. rewrite Hrun in Hb by lia. done.
Qed.

Lemma Alloc_ok (b : t) (count : Z) :
  wf b → 0 < count → ∃ r, Alloc b count = Ok r ∧ alloc_post b count r.
Proof.
  intros Hwf Hc. pose proof (cap_u32 b Hwf) as [Hcap Heq]. unfold Alloc.
  destruct (wf_bits b Hwf) as (l0 & Hl0 & _ & _).
  rewrite bool_decide_eq_true_2 by eauto. destruct (Z.ltb_spec 0 count); [|lia]. simpl.
  destruct (skip_full_ok b Hwf) as (k & -> & Hk & Hfull & Hstop). simpl.
  destruct (Z.eqb_spec k (byte_len_ b)) as [->|Hne].
  { eexists. split; [done|]. left. split_and!; [done..|]. intros s Hs.
    eapply (no_run_full b count (cap b)); try done. by destruct Hs as (? & ? & _). }
  destruct Hstop as [|[_ Hstop]]; [done|].
  destruct (read_byte_ok b k) as (l & v & Hl & Hv & Hr & Hread); [done|lia|].
  rewrite Hread in *. simpl. destruct (skip_set_ok v) as (j & Hj & Hj8 & Hset & Hfree);
    [done|congruence|]. rewrite Hj. simpl.
  destruct (Z.ltb_spec j byte_len); [|lia]. simpl.
  assert (Hkc : (k + 1) * byte_len ≤ cap b) by (unfold cap, byte_len in *; lia).
  assert (Hstart : j +w (k *w byte_len) = k * byte_len + j).
  { unfold byte_len in *. rewrite (u32_small (k * 8)) by lia. rewrite u32_small; lia. }
  rewrite Hstart. apply scan_ok; [done|done| |].
  - unfold byte_len in *. split_and!; try lia.
    destruct (decide (j = 0)) as [->|]; [|right].
    + destruct (decide (k = 0)) as [->|]; [left; lia|right; apply Hfull; lia].
    + replace (k * 8 + j - 0 - 1) with (k * byte_len + (j - 1)) by (unfold byte_len; lia).
      rewrite (alloc_at_byte b k v) by (eauto || lia). apply Hset. lia.
  - cbn [fst]. apply no_run_full; [done|]. intros i Hi. unfold byte_len in *.
    destruct (decide (i < k * 8)); [apply Hfull; lia|].
    replace i with (k * byte_len + (i - k * 8)) by (unfold byte_len; lia).
    rewrite (alloc_at_byte b k v) by (eauto || lia). apply Hset. lia.
Qed.

(** C1. [Bitmap::Alloc] on a well-formed bitmap always returns; it returns
    the start of the first run of [count] free bits and marks exactly that
    run, or returns [npos] and changes nothing exactly when no run exists. *)
Theorem Alloc_first_fit (b : t) (count : Z) :
  wf b → 0 < count → ∃ r, Alloc b count = Ok r ∧ alloc_post b count r.
Proof. apply Alloc_ok. Qed.

Lemma Alloc_first_fit_witness :
  wf (mk 2 (Some [255; 119])) ∧ Alloc (mk 2 (Some [255; 119])) 1 = Ok (mk 2 (Some [255; 127]), 11)
  ∧ ∃ r, Alloc (mk 2 (Some [255; 119])) 2 = Ok r ∧ alloc_post (mk 2 (Some [255; 119])) 2 r.
Proof.
  assert (Hwf : wf (mk 2 (Some [255; 119]))).
  { split; [eexists; split_and!; [done|done|]|done|vm_compute; done].
    repeat constructor; done. }
  split_and!; [exact Hwf|vm_compute; reflexivity|].
  apply (Alloc_first_fit (mk 2 (Some [255; 119])) 2 Hwf). lia.
Defined.
End Bitmap.
