(* ===== verification/UtilTagList.v ===== *)
(** * The tag list

    [TagList] models src/include/kernel/util/tag_list.h and
    src/src/kernel/util/tag_list.cpp: the intrusive doubly linked list that
    every queue of the kernel is made of. A tag is an address, the two pointers
    of every tag are in a store, and the abstract content of a list is the
    sequence of the tags between its two sentinels. *)
From S2P Require Import Prelude.

Module TagList.

(** [TagList::Tag]; a null pointer is [None]. *)
Record Tag := mkTag { prev : option Z; next : option Z }.

Abbreviation store := (gmap Z Tag).

(** A list object: the addresses of its sentinels [head_] and [tail_]. *)
Record t := mk { head_ : Z; tail_ : Z }.

Definition load (st : store) (p : Z) : res Tag := of_option (st !! p).
(** Dereference a pointer member. *)
Definition deref (p : option Z) : res Z := of_option p.

Definition set_prev (st : store) (p : Z) (v : option Z) : res store :=
  tag ← load st p; Ok (<[p := mkTag v (next tag)]> st).
Definition set_next (st : store) (p : Z) (v : option Z) : res store :=
  tag ← load st p; Ok (<[p := mkTag (prev tag) v]> st).

Definition Init (self : t) (st : store) : res store :=
  st ← set_next st (head_ self) (Some (tail_ self));
  set_prev st (tail_ self) (Some (head_ self)).

Definition InsertBefore (before tag : Z) (st : store) : res store :=
  b ← load st before;
  p ← deref (prev b);
  st ← set_next st p (Some tag);
  b ← load st before;
  st ← set_prev st tag (prev b);
  st ← set_next st tag (Some before);
  set_prev st before (Some tag).

Definition PushFront (self : t) (tag : Z) (st : store) : res store :=
  h ← load st (head_ self);
  n ← deref (next h);
  InsertBefore n tag st.

Definition PushBack (self : t) (tag : Z) (st : store) : res store :=
  InsertBefore (tail_ self) tag st.

Definition Detach (tag : Z) (st : store) : res store :=
  x ← load st tag;
  Assert (bool_decide (is_Some (prev x) ∧ is_Some (next x)));;
  p ← deref (prev x);
  n ← deref (next x);
  st ← set_next st p (Some n);
  set_prev st n (Some p).

Definition IsEmpty (self : t) (st : store) : res bool :=
  h ← load st (head_ self);
  Ok (bool_decide (next h = Some (tail_ self))).

Definition Pop (self : t) (st : store) : res (store * Z) :=
  e ← IsEmpty self st;
  Assert (negb e);;
  h ← load st (head_ self);
  Assert (bool_decide (is_Some (next h)));;
  top ← deref (next h);
  st ← Detach top st;
  Ok (st, top).

(** The walk [curr = head_.next; while (curr != &tail_) ...] shared by both
    [Find] and by [GetSize]. *)
Definition Find_body (self : t) (st : store) (visitor : Z → bool) (curr : option Z)
  : res (option Z + option Z) :=
  if bool_decide (curr = Some (tail_ self)) then Ok (inr None)
  else
    c ← deref curr;
    if visitor c then Ok (inr (Some c))
    else x ← load st c; Ok (inl (next x)).

(** A walk visits each tag once, and a list has no more tags than the store. *)
Definition walk_fuel (st : store) : nat := S (size st).

(** [Find] with a visitor: the first tag the visitor accepts. *)
Definition Find (self : t) (visitor : Z → bool) (st : store) : res (option Z) :=
  h ← load st (head_ self);
  loop (walk_fuel st) (Find_body self st visitor) (next h).

(** [Find(const Tag&)]: compares addresses. *)
Definition Contains (self : t) (tag : Z) (st : store) : res bool :=
  r ← Find self (fun c => c =? tag) st;
  Ok (bool_decide (is_Some r)).

Definition GetSize_body (self : t) (st : store) (s : option Z * Z) : res (option Z * Z + Z) :=
  let '(curr, len) := s in
  if bool_decide (curr = Some (tail_ self)) then Ok (inr len)
  else
    c ← deref curr;
    x ← load st c;
    Ok (inl (next x, len +w 1)).

Definition GetSize (self : t) (st : store) : res Z :=
  h ← load st (head_ self);
  loop (walk_fuel st) (GetSize_body self st) (next h, 0).

(** ** The shape of a list *)

(** Two neighbours: [next] of the first is the second, [prev] of the second
    the first. *)
Definition link (st : store) (a b : Z) : Prop :=
  (∃ x, st !! a = Some x ∧ next x = Some b) ∧ (∃ y, st !! b = Some y ∧ prev y = Some a).

Fixpoint chain (st : store) (l : list Z) : Prop :=
  match l with
  | a :: ((b :: _) as l') => link st a b ∧ chain st l'
  | _ => True
  end.

(** The list object holds [ps]: between the sentinels, no tag twice. *)
Definition repr (self : t) (st : store) (ps : list Z) : Prop :=
  NoDup (head_ self :: ps ++ [tail_ self]) ∧ chain st (head_ self :: ps ++ [tail_ self]).

Lemma chain_app st l1 p l2 :
  chain st (l1 ++ p :: l2) ↔ chain st (l1 ++ [p]) ∧ chain st (p :: l2).
Proof.
  induction l1 as [|a l1 IH]; [simpl; tauto|].
  destruct l1 as [|b l1].
  - simpl in *. tauto.
  - change (link st a b ∧ chain st (b :: l1 ++ p :: l2)
            ↔ (link st a b ∧ chain st (b :: l1 ++ [p])) ∧ chain st (p :: l2)).
    cbn [app] in IH. tauto.
Qed.

Lemma link_next_fun st a b c : link st a b → link st a c → b = c.
Proof. intros [(x & ? & ?) _] [(y & ? & ?) _]. simplify_eq. congruence. Qed.

Lemma link_prev_fun st a b c : link st a c → link st b c → a = b.
Proof. intros [_ (x & ? & ?)] [_ (y & ? & ?)]. simplify_eq. congruence. Qed.

(** A store that keeps the links between the members of [l] keeps the chain. *)
Lemma chain_agree st st' l :
  chain st l → (∀ x y, x ∈ l → y ∈ l → link st x y → link st' x y) → chain st' l.
Proof.
  induction l as [|a [|b l] IH]; [done|done|].
  intros [Hab Hl] Hag. split; [apply Hag; set_solver|].
  apply IH; [done|]. intros x y ??. apply Hag; set_solver.
Qed.

Lemma set_prev_ok st p x v :
  st !! p = Some x → set_prev st p v = Ok (<[p := mkTag v (next x)]> st).
Proof. intros E. unfold set_prev, load. by rewrite E. Qed.

Lemma set_next_ok st p x v :
  st !! p = Some x → set_next st p v = Ok (<[p := mkTag (prev x) v]> st).
Proof. intros E. unfold set_next, load. by rewrite E. Qed.

(** What an operation may write: the pointers of the tags of [w]. *)
Definition frame (w : list Z) (st st' : store) : Prop :=
  dom st' = dom st ∧ ∀ q, q ∉ w → st' !! q = st !! q.

(** The part of a list before a written neighbour: only [next] of its last
    tag may have changed. *)
Lemma chain_keep_prefix st st' l1 p b :
  chain st (l1 ++ [p]) → link st p b → b ∉ l1 ++ [p] →
  (∀ q, q ∈ l1 → q ≠ p → st' !! q = st !! q) →
  (∀ x, st !! p = Some x → ∃ x', st' !! p = Some x' ∧ prev x' = prev x) →
  chain st' (l1 ++ [p]).
Proof.
  intros Hch Hpb Hb Hsame Hp. apply (chain_agree st); [done|]. intros u v Hu Hv Huv.
  assert (u ≠ p). { intros ->. rewrite (link_next_fun _ _ _ _ Huv Hpb) in Hv. done. }
  destruct Huv as [(x & ? & ?) (y & Hy & ?)]. split.
  - exists x. rewrite Hsame by set_solver. done.
  - destruct (decide (v = p)) as [->|].
    + destruct (Hp y Hy) as (x' & ? & E). exists x'. by rewrite E.
    + exists y. rewrite Hsame by set_solver. done.
Qed.

(** The part after it: only [prev] of its first tag may have changed. *)
Lemma chain_keep_suffix st st' p b l2 :
  chain st (b :: l2) → link st p b → p ∉ b :: l2 →
  (∀ q, q ∈ l2 → q ≠ b → st' !! q = st !! q) →
  (∀ x, st !! b = Some x → ∃ x', st' !! b = Some x' ∧ next x' = next x) →
  chain st' (b :: l2).
Proof.
  intros Hch Hpb Hp Hsame Hb. apply (chain_agree st); [done|]. intros u v Hu Hv Huv.
  assert (v ≠ b). { intros ->. rewrite (link_prev_fun _ _ _ _ Huv Hpb) in Hu. done. }
  destruct Huv as [(x & Hx & ?) (y & ? & ?)]. split.
  - destruct (decide (u = b)) as [->|].
    + destruct (Hb x Hx) as (x' & ? & E). exists x'. by rewrite E.
    + exists x. rewrite Hsame by set_solver. done.
  - exists y. rewrite Hsame by set_solver. done.
Qed.

(** The store after [InsertBefore]: four writes. *)
Lemma InsertBefore_run st p b tag x y z :
  p ≠ b → tag ≠ p → tag ≠ b →
  st !! p = Some x → st !! b = Some y → st !! tag = Some z → prev y = Some p →
  ∃ st', InsertBefore b tag st = Ok st' ∧ frame [p; tag; b] st st'
    ∧ st' !! p = Some (mkTag (prev x) (Some tag))
    ∧ st' !! tag = Some (mkTag (Some p) (Some b))
    ∧ st' !! b = Some (mkTag (Some tag) (next y)).
Proof.
  intros Hpb Htp Htb Hx Hy Hz Ey.
  set (st1 := <[p := mkTag (prev x) (Some tag)]> st).
  set (st2 := <[tag := mkTag (Some p) (next z)]> st1).
  set (st3 := <[tag := mkTag (Some p) (Some b)]> st2).
  set (st4 := <[b := mkTag (Some tag) (next y)]> st3).
  exists st4. split_and!.
  - assert (H1b : st1 !! b = Some y) by (unfold st1; by rewrite lookup_insert_ne by done).
    assert (H1t : st1 !! tag = Some z) by (unfold st1; by rewrite lookup_insert_ne by done).
    assert (H2t : st2 !! tag = Some (mkTag (Some p) (next z)))
      by (unfold st2; by rewrite lookup_insert_eq).
    assert (H3b : st3 !! b = Some y)
      by (unfold st3, st2; by rewrite !lookup_insert_ne by done).
    unfold InsertBefore, load. rewrite Hy. simpl. rewrite Ey. simpl.
    rewrite (set_next_ok _ _ _ _ Hx). fold st1. simpl. rewrite H1b. simpl.
    rewrite (set_prev_ok _ _ _ _ H1t), Ey. fold st2. simpl.
    rewrite (set_next_ok _ _ _ _ H2t). fold st3. simpl.
    by rewrite (set_prev_ok _ _ _ _ H3b).
  - split.
    + unfold st4, st3, st2, st1. rewrite !dom_insert_L.
      apply elem_of_dom_2 in Hx, Hy, Hz. set_solver.
    + intros q Hq. unfold st4, st3, st2, st1. by rewrite !lookup_insert_ne by set_solver.
  - unfold st4, st3, st2, st1. by rewrite !lookup_insert_ne, lookup_insert_eq by done.
  - unfold st4, st3. by rewrite lookup_insert_ne, lookup_insert_eq by done.
  - unfold st4. by rewrite lookup_insert_eq.
Qed.

(** The distinctness facts around a pair of neighbours. *)
Lemma NoDup_split_pair (l1 : list Z) p b l2 :
  NoDup (l1 ++ p :: b :: l2) →
  p ≠ b ∧ b ∉ l1 ++ [p] ∧ p ∉ b :: l2
  ∧ (∀ q, q ∈ l1 → q ≠ p ∧ q ≠ b) ∧ (∀ q, q ∈ l2 → q ≠ p ∧ q ≠ b).
Proof.
  intros Hnd. apply NoDup_app in Hnd as (_ & Hdis & Hnd2).
  apply NoDup_cons in Hnd2 as [Hp Hnd2]. apply NoDup_cons in Hnd2 as [Hb _].
  rewrite elem_of_cons in Hp. rewrite elem_of_app, list_elem_of_singleton, elem_of_cons.
  refine (conj _ (conj _ (conj _ (conj _ _)))); [tauto| |tauto| |].
  - intros [E|E]; [|subst; tauto]. apply (Hdis b E). rewrite !elem_of_cons. tauto.
  - intros q Hq. specialize (Hdis q Hq). rewrite !elem_of_cons in Hdis. tauto.
  - intros q Hq. split; intros ->; tauto.
Qed.

(** Inserting before the tag [b] of a list. *)
Lemma InsertBefore_ok st l1 p b l2 tag :
  NoDup (l1 ++ p :: b :: l2) → chain st (l1 ++ p :: b :: l2) →
  tag ∉ l1 ++ p :: b :: l2 → is_Some (st !! tag) →
  ∃ st', InsertBefore b tag st = Ok st' ∧ chain st' (l1 ++ p :: tag :: b :: l2)
    ∧ frame [p; tag; b] st st'.
Proof.
  intros Hnd Hch Htag [z Hz].
  destruct (NoDup_split_pair l1 p b l2 Hnd) as (Npb & Nb & Np & N1 & N2).
  rewrite elem_of_app, !elem_of_cons in Htag.
  apply chain_app in Hch as [H1 [Hpb H2]]. pose proof Hpb as [(x & Hx & Ex) (y & Hy & Ey)].
  destruct (InsertBefore_run st p b tag x y z) as (st' & Hrun & Hfr & Hp' & Ht' & Hb');
    [tauto..|].
  exists st'. split_and!; [done| |done]. destruct Hfr as [_ Hfr].
  apply chain_app. split; [|split; [|split]]; [|split; eauto|split; eauto|].
  - apply (chain_keep_prefix st st' l1 p b); [done..| |].
    + intros q Hq _. apply Hfr. destruct (N1 q Hq). rewrite !elem_of_cons, elem_of_nil.
      intros [->|[->|[->|[]]]]; tauto.
    + intros x1 Hx1. simplify_eq. eauto.
  - apply (chain_keep_suffix st st' p b l2); [done..| |].
    + intros q Hq _. apply Hfr. destruct (N2 q Hq). rewrite !elem_of_cons, elem_of_nil.
      intros [->|[->|[->|[]]]]; tauto.
    + intros x1 Hx1. simplify_eq. eauto.
Qed.

Lemma Detach_run st p tag n x y z :
  st !! tag = Some z → prev z = Some p → next z = Some n → p ≠ n →
  st !! p = Some x → st !! n = Some y →
  ∃ st', Detach tag st = Ok st' ∧ frame [p; n] st st'
    ∧ st' !! p = Some (mkTag (prev x) (Some n))
    ∧ st' !! n = Some (mkTag (Some p) (next y)).
Proof.
  intros Hz Ep En Hpn Hx Hy. unfold Detach, load. rewrite Hz. simpl. rewrite Ep, En.
  rewrite bool_decide_eq_true_2 by eauto. simpl. rewrite (set_next_ok _ _ _ _ Hx). simpl.
  rewrite (set_prev_ok _ n y) by (by rewrite lookup_insert_ne by done).
  eexists. split_and!; [done| | |].
  - split.
    + rewrite !dom_insert_L. apply elem_of_dom_2 in Hx, Hy. set_solver.
    + intros q Hq. by rewrite !lookup_insert_ne by set_solver.
  - by rewrite lookup_insert_ne, lookup_insert_eq by done.
  - by rewrite lookup_insert_eq.
Qed.

(** Detaching a tag of a list joins its neighbours. *)
Lemma Detach_ok st l1 p tag n l2 :
  NoDup (l1 ++ p :: tag :: n :: l2) → chain st (l1 ++ p :: tag :: n :: l2) →
  ∃ st', Detach tag st = Ok st' ∧ chain st' (l1 ++ p :: n :: l2) ∧ frame [p; n] st st'.
Proof.
  intros Hnd Hch.
  destruct (NoDup_split_pair l1 p tag (n :: l2) Hnd) as (Npt & Nt & Np & N1 & N2).
  rewrite cons_middle, app_assoc in Hnd.
  destruct (NoDup_split_pair (l1 ++ [p]) tag n l2 Hnd) as (Ntn & Nn & Nt' & N3 & N4).
  apply chain_app in Hch as [H1 [Hpt [Htn H2]]].
  pose proof Hpt as [(x & Hx & Ex) (z & Hz & Ez)].
  pose proof Htn as [(z' & Hz' & Ez') (y & Hy & Ey)]. simplify_eq.
  destruct (N3 p) as [_ Npn]; [rewrite elem_of_app, list_elem_of_singleton; tauto|].
  destruct (Detach_run st p tag n x y z) as (st' & Hrun & Hfr & Hp' & Hn'); [done..|].
  exists st'. split_and!; [done| |done]. destruct Hfr as [_ Hfr].
  apply chain_app. split; [|split]; [|split; eauto|].
  - apply (chain_keep_prefix st st' l1 p tag); [done..| |].
    + intros q Hq Hne. apply Hfr. destruct (N3 q); [rewrite elem_of_app; tauto|].
      rewrite !elem_of_cons, elem_of_nil. intros [->|[->|[]]]; tauto.
    + intros x1 Hx1. simplify_eq. eauto.
  - apply (chain_keep_suffix st st' tag n l2); [done..| |].
    + intros q Hq Hne. apply Hfr. rewrite !elem_of_cons, elem_of_nil.
      intros [->|[->|[]]]; [|tauto]. apply Np. rewrite !elem_of_cons. tauto.
    + intros x1 Hx1. simplify_eq. eauto.
Qed.

(** ** Every operation on the abstract list *)

Section operations.
Context (self : t).
Implicit Types (ps qs : list Z) (st : store).

(** The tag a new tag is inserted before: the first of [qs], or the tail. *)
Definition first_or_tail (qs : list Z) : Z :=
  match qs with
  | q :: _ => q
  | [] => tail_ self
  end.

(** A tag object that can be linked in. *)
Definition linkable (st : store) (tag : Z) : Prop :=
  is_Some (st !! tag) ∧ tag ≠ head_ self ∧ tag ≠ tail_ self.

Lemma split_prefix ps qs :
  ∃ l1 p l2, head_ self :: (ps ++ qs) ++ [tail_ self] = l1 ++ p :: first_or_tail qs :: l2
    ∧ ∀ xs, head_ self :: (ps ++ xs ++ qs) ++ [tail_ self]
            = l1 ++ p :: xs ++ first_or_tail qs :: l2.
Proof.
  destruct (exists_last (l := head_ self :: ps)) as (l1 & p & E); [done|].
  assert (∃ l2, qs ++ [tail_ self] = first_or_tail qs :: l2) as [l2 E2]
    by (destruct qs; eexists; done).
  assert (Hx : ∀ xs, head_ self :: (ps ++ xs ++ qs) ++ [tail_ self]
                     = l1 ++ p :: xs ++ first_or_tail qs :: l2).
  { intros xs. rewrite <- E2, <- !app_assoc, app_comm_cons, E, <- app_assoc. done. }
  exists l1, p, l2. split; [apply (Hx [])|done].
Qed.

Lemma InsertBefore_repr st ps qs tag :
  repr self st (ps ++ qs) → linkable st tag → tag ∉ ps ++ qs →
  ∃ st', InsertBefore (first_or_tail qs) tag st = Ok st' ∧ repr self st' (ps ++ tag :: qs)
    ∧ frame (tag :: head_ self :: (ps ++ qs) ++ [tail_ self]) st st'.
Proof.
  intros [Hnd Hch] (Hs & Hh & Ht) Hin.
  assert (Hnew : tag ∉ head_ self :: (ps ++ qs) ++ [tail_ self]).
  { rewrite elem_of_cons, elem_of_app, list_elem_of_singleton. tauto. }
  destruct (split_prefix ps qs) as (l1 & p & l2 & E & Ex). pose proof (Ex [tag]) as E1.
  unfold repr. cbn [app] in E1. rewrite E1. rewrite E in *.
  destruct (InsertBefore_ok st l1 p (first_or_tail qs) l2 tag) as (st' & Hr & Hc & Hd & Hf);
    [done..|].
  exists st'. split_and!; [done| |done|split; [done|]].
  - rewrite cons_middle, app_assoc, <- Permutation_middle, <- app_assoc.
    apply NoDup_cons. done.
  - intros q Hq. apply Hf. intros Hq'. apply Hq.
    rewrite !elem_of_cons, elem_of_nil in Hq'. rewrite elem_of_cons, elem_of_app, !elem_of_cons.
    tauto.
Qed.

Lemma PushBack_ok st ps tag :
  repr self st ps → linkable st tag → tag ∉ ps →
  ∃ st', PushBack self tag st = Ok st' ∧ repr self st' (ps ++ [tag])
    ∧ frame (tag :: head_ self :: ps ++ [tail_ self]) st st'.
Proof.
  intros Hr Hl Hin. pose proof (InsertBefore_repr st ps [] tag) as H.
  rewrite app_nil_r in H. by apply H.
Qed.

Lemma head_next st ps :
  repr self st ps → ∃ h, st !! head_ self = Some h ∧ next h = Some (first_or_tail ps).
Proof.
  intros [_ Hch]. destruct ps; simpl in Hch; destruct Hch as [[(x & ? & ?) _] _]; eauto.
Qed.

Lemma PushFront_ok st ps tag :
  repr self st ps → linkable st tag → tag ∉ ps →
  ∃ st', PushFront self tag st = Ok st' ∧ repr self st' (tag :: ps)
    ∧ frame (tag :: head_ self :: ps ++ [tail_ self]) st st'.
Proof.
  intros Hr Hl Hin. destruct (head_next st ps Hr) as (h & Hh & Hn).
  unfold PushFront, load. rewrite Hh. simpl. rewrite Hn. simpl.
  by apply (InsertBefore_repr st [] ps tag).
Qed.

(** [tag.Detach()] on any tag of the list. *)
Lemma Detach_repr st ps tag qs :
  repr self st (ps ++ tag :: qs) →
  ∃ st', Detach tag st = Ok st' ∧ repr self st' (ps ++ qs)
    ∧ frame (head_ self :: (ps ++ tag :: qs) ++ [tail_ self]) st st'.
Proof.
  intros [Hnd Hch]. destruct (split_prefix ps qs) as (l1 & p & l2 & E & Ex).
  pose proof (Ex [tag]) as E1. unfold repr. cbn [app] in E1. rewrite E1, E in *.
  destruct (Detach_ok st l1 p tag (first_or_tail qs) l2) as (st' & Hr & Hc & Hd & Hf);
    [done..|].
  exists st'. split_and!; [done| |done|split; [done|]].
  - rewrite cons_middle, app_assoc, <- Permutation_middle, <- app_assoc in Hnd.
    by apply NoDup_cons in Hnd as [_ ?].
  - intros q Hq. apply Hf. intros Hq'. apply Hq.
    rewrite !elem_of_cons, elem_of_nil in Hq'. rewrite elem_of_app, !elem_of_cons. tauto.
Qed.

Lemma repr_cons_tail st p ps : repr self st (p :: ps) → p ≠ tail_ self.
Proof.
  intros [Hnd _] ->. apply NoDup_cons in Hnd as [_ Hnd]. apply NoDup_cons in Hnd as [Hn _].
  apply Hn. rewrite elem_of_app, list_elem_of_singleton. tauto.
Qed.

Lemma IsEmpty_ok st ps : repr self st ps → IsEmpty self st = Ok (bool_decide (ps = [])).
Proof.
  intros Hr. destruct (head_next st ps Hr) as (h & Hh & Hn). unfold IsEmpty, load.
  rewrite Hh. simpl. rewrite Hn. f_equal. apply bool_decide_ext.
  destruct ps as [|p ps]; simpl; [done|]. split; [|done].
  intros E. apply repr_cons_tail in Hr. congruence.
Qed.

Lemma Pop_ok st p ps :
  repr self st (p :: ps) →
  ∃ st', Pop self st = Ok (st', p) ∧ repr self st' ps
    ∧ frame (head_ self :: p :: ps ++ [tail_ self]) st st'.
Proof.
  intros Hr. destruct (head_next st _ Hr) as (h & Hh & Hn). unfold Pop.
  rewrite (IsEmpty_ok _ _ Hr). simpl. unfold load. rewrite Hh. simpl. rewrite Hn. simpl.
  destruct (Detach_repr st [] p ps Hr) as (st' & Hd & Hr' & Hf). cbn [app first_or_tail] in *.
  rewrite Hd. simpl. eauto.
Qed.

Lemma Pop_empty st : repr self st [] → Pop self st = Panic.
Proof. intros Hr. unfold Pop. by rewrite (IsEmpty_ok _ _ Hr). Qed.

(** The tags of a list are objects of the store, so a walk fits its fuel. *)
Lemma chain_dom st a l : chain st (a :: l) → ∀ q, q ∈ l → q ∈ dom st.
Proof.
  revert a. induction l as [|b l IH]; intros a Hch q Hq; [by apply elem_of_nil in Hq|].
  destruct Hch as [[_ (y & Hy & _)] Hl]. apply elem_of_cons in Hq as [->|Hq]; [|by eapply IH].
  by eapply elem_of_dom_2.
Qed.

Lemma repr_length st ps : repr self st ps → (length ps < walk_fuel st)%nat.
Proof.
  intros [Hnd Hch]. unfold walk_fuel. rewrite <- size_dom.
  apply NoDup_cons in Hnd as [_ Hnd]. apply NoDup_app in Hnd as (Hnd & _ & _).
  rewrite <- (size_list_to_set (C := gset Z) ps Hnd).
  apply Nat.lt_succ_r, subseteq_size. intros q Hq%elem_of_list_to_set.
  eapply chain_dom; [done|]. rewrite elem_of_app. by left.
Qed.

(** The state of a walk that has [ps] left to visit. *)
Definition at_rest st (curr : option Z) (ps : list Z) : Prop :=
  curr = Some (first_or_tail ps) ∧ chain st (ps ++ [tail_ self]) ∧ tail_ self ∉ ps.

Lemma at_rest_start st ps h :
  repr self st ps → st !! head_ self = Some h → at_rest st (next h) ps.
Proof.
  intros Hr Hh. destruct (head_next st ps Hr) as (h' & Hh' & Hn). simplify_eq.
  destruct Hr as [Hnd Hch]. split_and!; [done| |].
  - destruct ps; [done|]. by destruct Hch.
  - apply NoDup_cons in Hnd as [_ Hnd]. apply NoDup_app in Hnd as (_ & Hdis & _).
    intros Hin. apply (Hdis _ Hin). rewrite list_elem_of_singleton. done.
Qed.

Lemma at_rest_step st p ps :
  at_rest st (Some p) (p :: ps) → p ≠ tail_ self ∧ ∃ x, st !! p = Some x ∧ at_rest st (next x) ps.
Proof.
  intros (_ & Hch & Hnt). rewrite elem_of_cons in Hnt.
  split; [intros ->; tauto|].
  destruct ps as [|q ps]; destruct Hch as [[(x & Hx & En) _] Hl]; exists x; split; try done;
    (split_and!; [done|done|tauto]).
Qed.

Lemma Find_body_tail st visitor :
  Find_body self st visitor (Some (tail_ self)) = Ok (inr None).
Proof. unfold Find_body. by rewrite bool_decide_eq_true_2. Qed.

Lemma Find_body_tag st visitor p x :
  p ≠ tail_ self → st !! p = Some x →
  Find_body self st visitor (Some p)
  = Ok (if visitor p then inr (Some p) else inl (next x)).
Proof.
  intros Hne Hx. unfold Find_body, load. rewrite bool_decide_eq_false_2 by congruence. simpl.
  rewrite Hx. by destruct (visitor p).
Qed.

Lemma Find_walk st visitor ps : ∀ fuel curr,
  at_rest st curr ps → (length ps < fuel)%nat →
  loop fuel (Find_body self st visitor) curr = Ok (List.find visitor ps).
Proof.
  induction ps as [|p ps IH]; intros [|fuel] curr Hr Hf; simpl in Hf; try lia;
    rewrite loop_S; pose proof Hr as (-> & _ & _); cbn [first_or_tail] in *.
  - by rewrite Find_body_tail.
  - apply at_rest_step in Hr as (Hne & x & Hx & Hr).
    rewrite (Find_body_tag _ _ _ x Hne Hx). cbn.
    destruct (visitor p); [done|]. apply IH; [done|lia].
Qed.

Lemma Find_ok st ps visitor :
  repr self st ps → Find self visitor st = Ok (List.find visitor ps).
Proof.
  intros Hr. destruct (head_next st ps Hr) as (h & Hh & _). unfold Find, load. rewrite Hh. simpl.
  apply Find_walk; [by apply at_rest_start|by apply repr_length].
Qed.

Lemma Contains_ok st ps tag :
  repr self st ps → Contains self tag st = Ok (bool_decide (tag ∈ ps)).
Proof.
  intros Hr. unfold Contains. rewrite (Find_ok _ _ _ Hr). simpl. f_equal.
  apply bool_decide_ext. destruct (List.find _ ps) as [c|] eqn:E.
  - apply List.find_some in E as [Hin Heq%Z.eqb_eq]. subst c.
    split; [intros _|eauto]. by apply list_elem_of_In.
  - split; [by intros []|]. intros Hin%list_elem_of_In.
    pose proof (List.find_none _ _ E _ Hin) as Hc. simpl in Hc. by rewrite Z.eqb_refl in Hc.
Qed.

Lemma GetSize_body_tail st len :
  GetSize_body self st (Some (tail_ self), len) = Ok (inr len).
Proof. unfold GetSize_body. by rewrite bool_decide_eq_true_2. Qed.

Lemma GetSize_body_tag st len p x :
  p ≠ tail_ self → st !! p = Some x →
  GetSize_body self st (Some p, len) = Ok (inl (next x, len +w 1)).
Proof.
  intros Hne Hx. unfold GetSize_body, load. rewrite bool_decide_eq_false_2 by congruence. simpl.
  by rewrite Hx.
Qed.

Lemma GetSize_walk st ps : ∀ fuel curr len,
  at_rest st curr ps → (length ps < fuel)%nat → 0 ≤ len → len + Z.of_nat (length ps) < 2 ^ 32 →
  loop fuel (GetSize_body self st) (curr, len) = Ok (len + Z.of_nat (length ps)).
Proof.
  induction ps as [|p ps IH]; intros [|fuel] curr len Hr Hf H0 Hlt; cbn [length] in *; try lia;
    rewrite loop_S; pose proof Hr as (-> & _ & _); cbn [first_or_tail] in *.
  - rewrite GetSize_body_tail. cbn. f_equal. lia.
  - apply at_rest_step in Hr as (Hne & x & Hx & Hr).
    rewrite (GetSize_body_tag _ _ _ x Hne Hx). cbn [mbind res_bind].
    rewrite u32_small by lia. rewrite IH; [f_equal; lia|done|lia..].
Qed.

Lemma GetSize_ok st ps :
  repr self st ps → Z.of_nat (length ps) < 2 ^ 32 →
  GetSize self st = Ok (Z.of_nat (length ps)).
Proof.
  intros Hr Hlt. destruct (head_next st ps Hr) as (h & Hh & _).
  unfold GetSize, load. rewrite Hh. simpl.
  rewrite (GetSize_walk _ ps); [done|by apply at_rest_start|by apply repr_length|lia..].
Qed.

Lemma Init_ok st :
  is_Some (st !! head_ self) → is_Some (st !! tail_ self) → head_ self ≠ tail_ self →
  ∃ st', Init self st = Ok st' ∧ repr self st' [] ∧ frame [head_ self; tail_ self] st st'.
Proof.
  intros [x Hx] [y Hy] Hne. unfold Init. rewrite (set_next_ok _ _ _ _ Hx). simpl.
  rewrite (set_prev_ok _ _ y) by (by rewrite lookup_insert_ne by done).
  eexists. split_and!; [done| |]; [split|split].
  - apply NoDup_cons. split; [by intros ?%list_elem_of_singleton|apply NoDup_singleton].
  - split; [|done]. split; eexists.
    + by rewrite lookup_insert_ne, lookup_insert_eq by done.
    + by rewrite lookup_insert_eq.
  - rewrite !dom_insert_L. apply elem_of_dom_2 in Hx, Hy. set_solver.
  - intros q Hq. rewrite !elem_of_cons in Hq. by rewrite !lookup_insert_ne by (intros E; rewrite E in Hq; tauto).
Qed.
End operations.

(** ** Whole runs against the abstract list *)

(** One call of a list operation; the result of a call that has one is
    recorded. *)
Inductive op := OpPushFront (tag : Z) | OpPushBack (tag : Z) | OpPop | OpDetach (tag : Z).

Definition run_op (self : t) (o : op) (st : store) : res (store * option Z) :=
  match o with
  | OpPushFront tag => st ← PushFront self tag st; Ok (st, None)
  | OpPushBack tag => st ← PushBack self tag st; Ok (st, None)
  | OpPop => '(st, top) ← Pop self st; Ok (st, Some top)
  | OpDetach tag => st ← Detach tag st; Ok (st, None)
  end.

(** The same call on a sequence of tags. *)
Definition spec_op (o : op) (ps : list Z) : option (list Z * option Z) :=
  match o with
  | OpPushFront tag => if decide (tag ∈ ps) then None else Some (tag :: ps, None)
  | OpPushBack tag => if decide (tag ∈ ps) then None else Some (ps ++ [tag], None)
  | OpPop => match ps with [] => None | p :: ps' => Some (ps', Some p) end
  | OpDetach tag => if decide (tag ∈ ps) then Some (filter (.≠ tag) ps, None) else None
  end.

Definition op_tag (o : op) : list Z :=
  match o with
  | OpPushFront tag | OpPushBack tag => [tag]
  | _ => []
  end.

Fixpoint run_ops (self : t) (os : list op) (st : store) : res (store * list (option Z)) :=
  match os with
  | [] => Ok (st, [])
  | o :: os' =>
      '(st, r) ← run_op self o st;
      '(st, rs) ← run_ops self os' st;
      Ok (st, r :: rs)
  end.

Fixpoint spec_ops (os : list op) (ps : list Z) : option (list Z * list (option Z)) :=
  match os with
  | [] => Some (ps, [])
  | o :: os' =>
      '(ps, r) ← spec_op o ps;
      '(ps, rs) ← spec_ops os' ps;
      Some (ps, r :: rs)
  end.

Lemma filter_absent (ps : list Z) tag : tag ∉ ps → filter (.≠ tag) ps = ps.
Proof.
  induction ps as [|p ps IH]; [done|]. intros [Hne Hn]%not_elem_of_cons.
  rewrite filter_cons_True by congruence. f_equal. by apply IH.
Qed.

Lemma filter_detach (ps qs : list Z) tag :
  NoDup (ps ++ tag :: qs) → filter (.≠ tag) (ps ++ tag :: qs) = ps ++ qs.
Proof.
  intros Hnd. apply NoDup_app in Hnd as (_ & Hdis & Hnd). apply NoDup_cons in Hnd as [Hn _].
  rewrite filter_app, filter_cons_False by (intros H; by apply H).
  rewrite !filter_absent; [done|done|]. intros Hin. apply (Hdis _ Hin). constructor.
Qed.

Lemma run_op_refines self o st ps ps' r :
  repr self st ps → Forall (linkable self st) (op_tag o) → spec_op o ps = Some (ps', r) →
  ∃ st', run_op self o st = Ok (st', r) ∧ repr self st' ps' ∧ dom st' = dom st.
Proof.
  intros Hr Hl Hs. destruct o as [tag|tag| |tag]; simpl in *.
  - case_decide; [done|]. simplify_eq. apply Forall_inv in Hl.
    destruct (PushFront_ok self st ps tag) as (st' & -> & ? & ? & _); [done..|]. simpl. eauto.
  - case_decide; [done|]. simplify_eq. apply Forall_inv in Hl.
    destruct (PushBack_ok self st ps tag) as (st' & -> & ? & ? & _); [done..|]. simpl. eauto.
  - destruct ps as [|p ps]; [done|]. simplify_eq.
    destruct (Pop_ok self st p ps') as (st' & -> & ? & ? & _); [done..|]. simpl. eauto.
  - case_decide as Hin; [|done]. simplify_eq.
    apply list_elem_of_split in Hin as (l1 & l2 & ->).
    destruct (Detach_repr self st l1 tag l2) as (st' & -> & ? & ? & _); [done|]. simpl.
    eexists. split_and!; [done| |done]. rewrite filter_detach; [done|].
    destruct Hr as [Hnd _]. apply NoDup_cons in Hnd as [_ Hnd]. by apply NoDup_app in Hnd as (? & _).
Qed.

(** C2. Any sequence of pushes, pops and detaches that is legal on the
    abstract sequence (no tag pushed twice, no pop of an empty list, only
    members detached) runs without a fault or an assertion on the pointers,
    returns the tags the abstract sequence returns, and leaves a well-formed
    doubly linked list of the abstract result. *)
Theorem run_ops_refines self os st ps ps' rs :
  repr self st ps → Forall (linkable self st) (os ≫= op_tag) →
  spec_ops os ps = Some (ps', rs) →
  ∃ st', run_ops self os st = Ok (st', rs) ∧ repr self st' ps' ∧ dom st' = dom st.
Proof.
  revert st ps rs. induction os as [|o os IH]; intros st ps rs Hr Hl Hs; cbn in *.
  { simplify_eq. eauto. }
  destruct (spec_op o ps) as [[ps1 r1]|] eqn:E1; [|done]. simpl in Hs.
  destruct (spec_ops os ps1) as [[ps2 rs2]|] eqn:E2; [|done]. simpl in Hs. simplify_eq.
  apply Forall_app in Hl as [Hl1 Hl2].
  destruct (run_op_refines self o st ps ps1 r1) as (st1 & -> & Hr1 & Hd1); [done..|]. simpl.
  destruct (IH st1 ps1 rs2) as (st2 & -> & Hr2 & Hd2); [done| |done|].
  - eapply Forall_impl; [exact Hl2|]. intros tag (Hs1 & Hs2). split; [|done].
    apply elem_of_dom. rewrite Hd1. by apply elem_of_dom.
  - simpl. exists st2. split_and!; [done|done|congruence].
Qed.

(** Sentinels 0 and 1, tags 10, 20 and 30. *)
Definition demo_list : t := mk 0 1.
Definition demo_store : store :=
  <[0 := mkTag None (Some 1)]> (<[1 := mkTag (Some 0) None]>
    (list_to_map [(10, mkTag None None); (20, mkTag None None); (30, mkTag None None)])).

Lemma run_ops_refines_witness :
  ∃ st', run_ops demo_list [OpPushBack 10; OpPushFront 20; OpPushBack 30; OpDetach 10; OpPop]
           demo_store = Ok (st', [None; None; None; None; Some 20])
         ∧ repr demo_list st' [30] ∧ dom st' = dom demo_store.
Proof.
  apply (run_ops_refines demo_list _ demo_store []).
  - split.
    + cbn. repeat (apply NoDup_cons; split; [rewrite ?elem_of_cons, ?elem_of_nil; lia|]). by apply NoDup_nil.
    + split; [|done]. split; eexists; split; vm_compute; reflexivity.
  - apply Forall_forall. intros tag Htag. vm_compute in Htag. unfold linkable.
    repeat (apply elem_of_cons in Htag as [->|Htag];
      [split; [by eexists|done]|]).
    by apply elem_of_nil in Htag.
  - vm_compute. reflexivity.
Defined.
End TagList.
