(* ===== verification/IoFileDesc.v ===== *)
(** * File descriptors and the descriptor table of a task

    [FileDesc] models src/include/kernel/io/file/file.h and [FileDescTab] the
    class template of src/include/kernel/thread/thd.h: each process and each
    kernel thread has an array of global descriptors, indexed by its local
    ones. [FileDescTab::Fork] touches the index nodes and is in FsFile. *)
From S2P Require Import Prelude UtilBit.

Module FileDesc.

(** A descriptor is a [size_t]; [npos] says it is invalid. *)
Definition IsValid (desc : Z) : bool := negb (desc =? metric.npos).

(** [FileDesc::Reset] *)
Definition reset_value : Z := metric.npos.

Definition std_in : Z := 0.
Definition std_out : Z := 1.
Definition std_err : Z := 2.
Definition std_stream_count : nat := 3.
#[global] Arguments std_stream_count : simpl never.

End FileDesc.

Module FileDescTab.
Import FileDesc.

(** The array [descs_] of a table of [size] slots. *)
Abbreviation t := (list Z).

(** [static_assert(size > io::std_stream_count)] *)
Definition size_ok (tab : t) : Prop := (std_stream_count < length tab)%nat.

Definition Init (tab : t) : res t :=
  Assert (bool_decide (std_stream_count < length tab)%nat);;
  Ok (std_in :: std_out :: std_err :: replicate (length tab - std_stream_count) reset_value).

(** The first free slot at or after [i], by the loop [for (i = 3; i != size; ++i)]. *)
Fixpoint find_free (i : nat) (descs : list Z) : option nat :=
  match descs with
  | [] => None
  | d :: descs' => if IsValid d then find_free (S i) descs' else Some i
  end.

(** The new table and the local descriptor, [npos] when the table is full. *)
Definition SyncGlobal (global : Z) (tab : t) : t * Z :=
  match find_free std_stream_count (drop std_stream_count tab) with
  | Some i => (<[i := global]> tab, Z.of_nat i)
  | None => (tab, metric.npos)
  end.

Definition local_ok (tab : t) (desc : Z) : bool :=
  (Z.of_nat std_stream_count <=? desc) && (desc <? Z.of_nat (length tab)).

Definition GetGlobal (desc : Z) (tab : t) : res Z :=
  Assert (local_ok tab desc);;
  global ← of_option (tab !! Z.to_nat desc);
  Assert (IsValid global);;
  Ok global.

Definition Reset (desc : Z) (tab : t) : res t :=
  Assert (local_ok tab desc);;
  Ok (<[Z.to_nat desc := reset_value]> tab).

(** ** Properties *)

Lemma find_free_Some i descs n :
  find_free i descs = Some n →
  ∃ k d, n = (i + k)%nat ∧ descs !! k = Some d ∧ IsValid d = false
    ∧ ∀ j e, (j < k)%nat → descs !! j = Some e → IsValid e = true.
Proof.
  revert i. induction descs as [|d descs IH]; intros i Hf; [done|]. simpl in Hf.
  destruct (IsValid d) eqn:Ed.
  - destruct (IH _ Hf) as (k & e & -> & He & Hv & Hb). exists (S k), e.
    split_and!; [lia|done|done|]. intros [|j] f Hj Hf'; simplify_eq/=; [done|].
    eapply (Hb j); [lia|done].
  - simplify_eq. exists 0%nat, d. split_and!; [lia|done|done|lia].
Qed.

Lemma find_free_None i descs : find_free i descs = None → ∀ d, d ∈ descs → IsValid d = true.
Proof.
  revert i. induction descs as [|d descs IH]; intros i Hf e He; [by apply elem_of_nil in He|].
  simpl in Hf. destruct (IsValid d) eqn:Ed; [|done].
  apply elem_of_cons in He as [->|He]; eauto.
Qed.

Lemma IsValid_spec d : IsValid d = true ↔ d ≠ metric.npos.
Proof. unfold IsValid. rewrite negb_true_iff. apply Z.eqb_neq. Qed.

Lemma SyncGlobal_length global tab : length (SyncGlobal global tab).1 = length tab.
Proof. unfold SyncGlobal. destruct (find_free _ _); simpl; by rewrite ?length_insert. Qed.

(** A descriptor that a task registers is the one it looks up: when
    [SyncGlobal] returns a valid local descriptor it is the smallest free
    slot past the standard streams, the global descriptor is found under it,
    every other slot is as before, and closing it gives the table back; it
    returns an invalid descriptor exactly when every slot is in use. *)
Theorem SyncGlobal_GetGlobal global tab tab' desc :
  size_ok tab → Z.of_nat (length tab) < metric.npos → IsValid global = true →
  SyncGlobal global tab = (tab', desc) →
  (IsValid desc = true →
     GetGlobal desc tab' = Ok global
     ∧ (∀ j, j ≠ Z.to_nat desc → tab' !! j = tab !! j)
     ∧ (∀ j d, (std_stream_count ≤ j < Z.to_nat desc)%nat → tab !! j = Some d → IsValid d = true)
     ∧ (∃ d, tab !! Z.to_nat desc = Some d ∧ IsValid d = false)
     ∧ Reset desc tab' = Ok tab)
  ∧ (IsValid desc = false ↔ ∀ d, d ∈ drop std_stream_count tab → IsValid d = true).
Proof.
  unfold size_ok, SyncGlobal. intros Hsz Hlen Hg Hs.
  destruct (find_free _ _) as [n|] eqn:Ef; simplify_eq.
  - destruct (find_free_Some _ _ _ Ef) as (k & d & -> & Hd & Hv & Hb).
    rewrite lookup_drop in Hd. pose proof (lookup_lt_Some _ _ _ Hd) as Hlt.
    assert (Hok : local_ok (<[(std_stream_count + k)%nat:=global]> tab)
                    (Z.of_nat (std_stream_count + k)) = true).
    { unfold local_ok. rewrite length_insert. apply andb_true_iff.
      split; [apply Z.leb_le|apply Z.ltb_lt]; lia. }
    split; [intros _; split_and!|split].
    + unfold GetGlobal. rewrite Hok. simpl. rewrite Nat2Z.id, list_lookup_insert_eq by done.
      simpl. by rewrite Hg.
    + intros j Hj. rewrite Nat2Z.id in Hj. by rewrite list_lookup_insert_ne by done.
    + intros j e Hj He. rewrite Nat2Z.id in Hj. apply (Hb (j - std_stream_count)%nat e); [lia|].
      rewrite lookup_drop. by replace (std_stream_count + (j - std_stream_count))%nat with j by lia.
    + rewrite Nat2Z.id. eauto.
    + unfold Reset. rewrite Hok. cbn [mbind res_bind Assert]. rewrite Nat2Z.id, list_insert_insert_eq.
      f_equal. apply list_insert_id. rewrite Hd. f_equal. unfold IsValid in Hv.
      apply negb_false_iff, Z.eqb_eq in Hv. by rewrite Hv.
    + intros Hn. unfold IsValid in Hn. apply negb_false_iff, Z.eqb_eq in Hn. lia.
    + intros Hall. exfalso. rewrite (Hall d) in Hv; [done|].
      apply (list_elem_of_lookup_2 _ k). by rewrite lookup_drop.
  - split; [by intros H%IsValid_spec|]. split; [|done].
    intros _ d Hd. by eapply find_free_None.
Qed.

(** A table of eight slots, slots 3 and 5 in use. *)
Definition demo_tab : t := [0; 1; 2; 7; metric.npos; 9; metric.npos; metric.npos].

Lemma SyncGlobal_GetGlobal_witness :
  SyncGlobal 11 demo_tab = ([0; 1; 2; 7; 11; 9; metric.npos; metric.npos], 4)
  ∧ GetGlobal 4 [0; 1; 2; 7; 11; 9; metric.npos; metric.npos] = Ok 11.
Proof.
  split; [reflexivity|].
  refine (proj1 (proj1 (SyncGlobal_GetGlobal 11 demo_tab _ 4 _ _ _ _) _));
    [unfold size_ok, FileDesc.std_stream_count; simpl; lia|vm_compute; reflexivity|reflexivity..].
Defined.

End FileDescTab.
