(* ===== verification/StlString.v ===== *)
(** * C strings and string views

    [cstring] models src/include/kernel/stl/cstring.h and
    src/src/kernel/stl/cstring.cpp, [string_view] the class of
    src/include/kernel/stl/string_view.h. A character is a byte, a number in
    [0 .. 255]. A pointer into an object is the rest of the object from the
    pointed byte on ([None] for a null pointer): advancing the pointer drops a
    byte, and reading or writing past the end of the object is a [Fault]. *)
From S2P Require Import Prelude UtilBit.

Module cstring.

(** The bytes from the pointed one to the end of the object. *)
Abbreviation mem := (list Z).
Abbreviation cptr := (option mem).

(** The signed value of a [char]. *)
Definition schar (c : Z) : Z := if c <? 128 then c else c - 256.

Fixpoint strlen_mem (m : mem) : res Z :=
  match m with
  | [] => Fault
  | c :: m' => if c =? 0 then Ok 0 else n ← strlen_mem m'; Ok (1 + n)
  end.

Definition strlen (str : cptr) : res Z :=
  match str with
  | None => Ok 0
  | Some m => strlen_mem m
  end.

(** The copy loops return the object the destination points into. *)
Fixpoint strcpy_mem (dest src : mem) : res mem :=
  match src, dest with
  | c :: src', d :: dest' =>
      if c =? 0 then Ok (c :: dest') else r ← strcpy_mem dest' src'; Ok (c :: r)
  | _, _ => Fault
  end.

Definition strcpy (dest src : cptr) : res mem :=
  match dest, src with
  | Some dest, Some src => strcpy_mem dest src
  | _, _ => Panic
  end.

(** The loop of [strcpy_s]: the object and the number of bytes written. *)
Fixpoint strcpy_s_loop (n : nat) (dest src : mem) : res (mem * nat) :=
  match n with
  | O => Ok (dest, O)
  | S n' =>
      match src, dest with
      | c :: src', d :: dest' =>
          if c =? 0 then Ok (c :: dest', 1%nat)
          else '(r, k) ← strcpy_s_loop n' dest' src'; Ok (c :: r, S k)
      | _, _ => Fault
      end
  end.

Definition strcpy_s (dest : cptr) (dest_size : Z) (src : cptr) : res mem :=
  match src, dest with
  | Some src, Some dest =>
      Assert (0 <? dest_size);;
      '(r, k) ← strcpy_s_loop (Z.to_nat dest_size) dest src;
      Ok (<[(k - 1)%nat := 0]> r)
  | _, _ => Panic
  end.

Fixpoint strcmp_mem (lhs rhs : mem) : res Z :=
  match lhs, rhs with
  | l :: lhs', r :: rhs' =>
      if negb (l =? 0) && (l =? r) then strcmp_mem lhs' rhs'
      else if negb (l =? r) then Ok (if schar l >? schar r then 1 else -1)
      else Ok 0
  | _, _ => Fault
  end.

Definition strcmp (lhs rhs : cptr) : res Z :=
  match lhs, rhs with
  | Some lhs, Some rhs => strcmp_mem lhs rhs
  | _, _ => Panic
  end.

Fixpoint strcat_mem (dest src : mem) : res mem :=
  match dest with
  | [] => Fault
  | d :: dest' =>
      if d =? 0 then strcpy_mem dest src else r ← strcat_mem dest' src; Ok (d :: r)
  end.

Definition strcat (dest src : cptr) : res mem :=
  match dest, src with
  | Some dest, Some src => strcat_mem dest src
  | _, _ => Panic
  end.

(** The position of the last (of the first) [ch], relative to [str]. *)
Fixpoint strrchr_mem (m : mem) (ch : Z) (pos : Z) (last : option Z) : res (option Z) :=
  match m with
  | [] => Fault
  | c :: m' =>
      if c =? 0 then Ok last
      else strrchr_mem m' ch (pos + 1) (if c =? ch then Some pos else last)
  end.

Definition strrchr (str : cptr) (ch : Z) : res (option Z) :=
  match str with
  | None => Ok None
  | Some m => strrchr_mem m ch 0 None
  end.

Fixpoint strchr_mem (m : mem) (ch : Z) (pos : Z) : res (option Z) :=
  match m with
  | [] => Fault
  | c :: m' =>
      if c =? 0 then Ok None
      else if c =? ch then Ok (Some pos) else strchr_mem m' ch (pos + 1)
  end.

Definition strchr (str : cptr) (ch : Z) : res (option Z) :=
  match str with
  | None => Ok None
  | Some m => strchr_mem m ch 0
  end.

(** [memset] and [memcpy] on whole objects; the objects do not overlap. *)
Fixpoint memset_mem (n : nat) (m : mem) (val : Z) : res mem :=
  match n, m with
  | O, _ => Ok m
  | S n', _ :: m' => r ← memset_mem n' m' val; Ok (val :: r)
  | S _, [] => Fault
  end.

Definition memset (addr : cptr) (val size : Z) : res mem :=
  match addr with
  | Some m => memset_mem (Z.to_nat size) m val
  | None => Panic
  end.

Fixpoint memcpy_mem (n : nat) (dest src : mem) : res mem :=
  match n, dest, src with
  | O, _, _ => Ok dest
  | S n', _ :: dest', c :: src' => r ← memcpy_mem n' dest' src'; Ok (c :: r)
  | S _, _, _ => Fault
  end.

Definition memcpy (dest src : cptr) (size : Z) : res mem :=
  match dest, src with
  | Some dest, Some src => memcpy_mem (Z.to_nat size) dest src
  | _, _ => Panic
  end.

Fixpoint memcmp_mem (n : nat) (lhs rhs : mem) : res Z :=
  match n, lhs, rhs with
  | O, _, _ => Ok 0
  | S n', l :: lhs', r :: rhs' =>
      if negb (l =? r) then Ok (if l >? r then 1 else -1) else memcmp_mem n' lhs' rhs'
  | S _, _, _ => Fault
  end.

Definition memcmp (lhs rhs : cptr) (size : Z) : res Z :=
  match lhs, rhs with
  | Some lhs, Some rhs => memcmp_mem (Z.to_nat size) lhs rhs
  | _, _ => Panic
  end.

(** ** What the functions do on C strings *)

(** The object holds the string [s] at the pointer, with its terminator. *)
Definition holds (m : mem) (s : list Z) : Prop :=
  0 ∉ s ∧ ∃ rest, m = s ++ 0 :: rest.

Lemma holds_nil_inv m : holds m [] → ∃ rest, m = 0 :: rest.
Proof. by intros (_ & rest & ->); eexists. Qed.

Lemma holds_cons m c s : holds m (c :: s) ↔ c ≠ 0 ∧ ∃ m', m = c :: m' ∧ holds m' s.
Proof.
  unfold holds. rewrite not_elem_of_cons. split.
  - intros ([Hc Hs] & rest & ->). split; [done|]. eexists. split; [reflexivity|]. eauto.
  - intros (Hc & m' & -> & Hs & rest & ->). split; [done|]. by exists rest.
Qed.

Lemma holds_length m s : holds m s → (length s < length m)%nat.
Proof. intros (_ & rest & ->). rewrite length_app. simpl. lia. Qed.

Lemma strlen_ok m s : holds m s → strlen_mem m = Ok (Z.of_nat (length s)).
Proof.
  revert m. induction s as [|c s IH]; intros m Hm.
  - apply holds_nil_inv in Hm as [rest ->]. done.
  - apply holds_cons in Hm as (Hc & m' & -> & Hm'). simpl.
    apply Z.eqb_neq in Hc. rewrite Hc, (IH _ Hm'). simpl. f_equal. lia.
Qed.

(** Without a terminator the search leaves the object. *)
Lemma strlen_unterminated m : 0 ∉ m → strlen_mem m = Fault.
Proof.
  induction m as [|c m IH]; [done|]. rewrite not_elem_of_cons. intros [Hc Hm]. simpl.
  rewrite (proj2 (Z.eqb_neq _ _)) by done. by rewrite IH.
Qed.

Lemma strcpy_ok dest src s :
  holds src s → (length s < length dest)%nat →
  strcpy_mem dest src = Ok (s ++ 0 :: drop (S (length s)) dest).
Proof.
  revert dest src. induction s as [|c s IH]; intros dest src Hs Hl; simpl in Hl.
  - apply holds_nil_inv in Hs as [rest ->]. destruct dest as [|d dest]; simpl in *; [lia|done].
  - apply holds_cons in Hs as (Hc & m' & -> & Hm'). apply Z.eqb_neq in Hc.
    destruct dest as [|d dest]; simpl in *; [lia|]. rewrite Hc, (IH dest m' Hm') by lia. done.
Qed.

Lemma strcat_ok dest src s1 s2 :
  holds dest s1 → holds src s2 → (length s1 + length s2 < length dest)%nat →
  strcat_mem dest src = Ok (s1 ++ s2 ++ 0 :: drop (S (length s1 + length s2)) dest).
Proof.
  revert dest. induction s1 as [|c s1 IH]; intros dest Hd Hs Hl; simpl in Hl.
  - apply holds_nil_inv in Hd as [rest ->]. exact (strcpy_ok (0 :: rest) _ _ Hs Hl).
  - apply holds_cons in Hd as (Hc & m' & -> & Hm'). apply Z.eqb_neq in Hc. simpl in *.
    rewrite Hc, (IH m' Hm' Hs) by lia. done.
Qed.

Lemma strcpy_s_loop_ok n dest src s :
  holds src s → (length s < length dest ∨ n ≤ length dest)%nat →
  strcpy_s_loop n dest src
  = Ok (if decide (length s < n)%nat then (s ++ 0 :: drop (S (length s)) dest, S (length s))
        else (take n s ++ drop n dest, n)).
Proof.
  revert n dest src. induction s as [|c s IH]; intros [|n] dest src Hs Hl; simpl in Hl.
  - done.
  - apply holds_nil_inv in Hs as [rest ->]. destruct dest as [|d dest]; simpl in *; [lia|done].
  - done.
  - apply holds_cons in Hs as (Hc & m' & -> & Hm'). apply Z.eqb_neq in Hc.
    destruct dest as [|d dest]; simpl in *; [lia|]. rewrite Hc, (IH n dest m' Hm') by lia.
    simpl. repeat case_decide; try lia; done.
Qed.

Lemma strcpy_s_ok dest src s dest_size :
  holds src s → 0 < dest_size ≤ Z.of_nat (length dest) →
  let t := take (Z.to_nat dest_size - 1) s in
  strcpy_s (Some dest) dest_size (Some src) = Ok (t ++ 0 :: drop (S (length t)) dest).
Proof.
  intros Hs Hd. cbn zeta. set (n := Z.to_nat dest_size).
  assert (Hn : (0 < n ≤ length dest)%nat) by lia.
  unfold strcpy_s. rewrite (proj2 (Z.ltb_lt _ _)) by lia. simpl. fold n.
  rewrite (strcpy_s_loop_ok n dest src s) by (done || lia).
  case_decide as Hlt; cbn [mbind res_bind]; f_equal.
  - rewrite take_ge by lia. rewrite insert_app_r_alt by lia.
    by replace (S (length s) - 1 - length s)%nat with 0%nat by lia.
  - rewrite length_take, Nat.min_l by lia. replace (S (n - 1)) with n by lia.
    destruct (lookup_lt_is_Some_2 s (n - 1)) as [c Hc]; [lia|]. apply take_S_r in Hc.
    replace (S (n - 1)) with n in Hc by lia. rewrite Hc, <- app_assoc.
    rewrite insert_app_r_alt by (rewrite length_take; lia).
    by rewrite length_take, Nat.min_l, Nat.sub_diag by lia.
Qed.

(** [strcpy_s] never writes past [dest_size] bytes and always leaves a
    terminated string: the source when it fits, its first [dest_size - 1]
    characters when it does not; the rest of the destination is untouched. *)
Theorem strcpy_s_truncates dest src s dest_size :
  holds src s → 0 < dest_size ≤ Z.of_nat (length dest) →
  ∃ r, strcpy_s (Some dest) dest_size (Some src) = Ok r
    ∧ holds r (take (Z.to_nat dest_size - 1) s)
    ∧ length r = length dest
    ∧ drop (Z.to_nat dest_size) r = drop (Z.to_nat dest_size) dest.
Proof.
  intros Hs Hd. eexists. split; [by apply (strcpy_s_ok dest src s)|].
  set (t := take _ s). assert (Ht : (length t < Z.to_nat dest_size)%nat).
  { subst t. rewrite length_take. lia. }
  split_and!.
  - split; [|eauto]. destruct Hs as [H0 _]. contradict H0. apply elem_of_take in H0 as (i & Hi & _).
    by eapply list_elem_of_lookup_2.
  - rewrite length_app. simpl. rewrite length_drop. lia.
  - rewrite drop_app_ge by lia.
    replace (Z.to_nat dest_size - length t)%nat
      with (S (Z.to_nat dest_size - S (length t))) by lia.
    simpl. rewrite drop_drop. f_equal. lia.
Qed.

(** A name of five characters into an array of four bytes. *)
Lemma strcpy_s_truncates_witness :
  ∃ r, strcpy_s (Some [7; 7; 7; 7; 7]) 4 (Some [97; 98; 99; 100; 101; 0]) = Ok r
    ∧ holds r [97; 98; 99] ∧ length r = 5%nat ∧ drop 4 r = [7].
Proof.
  apply (strcpy_s_truncates [7; 7; 7; 7; 7] _ [97; 98; 99; 100; 101] 4); [|simpl; lia].
  split; [|by exists []]. rewrite !elem_of_cons, elem_of_nil. lia.
Defined.

Lemma schar_inj l r : in_u 8 l → in_u 8 r → schar l = schar r → l = r.
Proof.
  unfold in_u, schar. intros. destruct (l <? 128) eqn:?, (r <? 128) eqn:?; to_prop; lia.
Qed.

(** [strcmp] is zero exactly for equal strings. *)
Lemma strcmp_ok lhs rhs s1 s2 :
  holds lhs s1 → holds rhs s2 →
  ∃ c, strcmp_mem lhs rhs = Ok c ∧ (c = 0 ↔ s1 = s2).
Proof.
  revert lhs rhs s2. induction s1 as [|c1 s1 IH]; intros lhs rhs s2 H1 H2.
  - apply holds_nil_inv in H1 as [r1 ->]. destruct s2 as [|c2 s2].
    + apply holds_nil_inv in H2 as [r2 ->]. by exists 0.
    + apply holds_cons in H2 as (Hc & m' & -> & _). cbn [strcmp_mem].
      rewrite (proj2 (Z.eqb_neq 0 c2)) by congruence.
      eexists. split; [done|]. destruct (schar 0 >? schar c2); done.
  - apply holds_cons in H1 as (Hc & m1 & -> & Hm1). pose proof (proj2 (Z.eqb_neq _ _) Hc) as Hc'.
    destruct s2 as [|c2 s2].
    + apply holds_nil_inv in H2 as [r2 ->]. simpl. rewrite Hc'. simpl.
      eexists. split; [done|]. destruct (schar c1 >? schar 0); done.
    + apply holds_cons in H2 as (_ & m2 & -> & Hm2). simpl. rewrite Hc'. simpl.
      destruct (c1 =? c2) eqn:E; simpl.
      * apply Z.eqb_eq in E as ->. destruct (IH _ _ _ Hm1 Hm2) as (c & -> & Hiff).
        exists c. split; [done|]. rewrite Hiff. split; congruence.
      * apply Z.eqb_neq in E. eexists. split; [done|].
        destruct (schar c1 >? schar c2); split; congruence.
Qed.

(** The position of the last occurrence, by a left-to-right walk. *)
Fixpoint last_index (s : list Z) (ch pos : Z) (last : option Z) : option Z :=
  match s with
  | [] => last
  | c :: s' => last_index s' ch (pos + 1) (if c =? ch then Some pos else last)
  end.

Lemma strrchr_ok m s ch pos last :
  holds m s → strrchr_mem m ch pos last = Ok (last_index s ch pos last).
Proof.
  revert m pos last. induction s as [|c s IH]; intros m pos last Hm.
  - apply holds_nil_inv in Hm as [rest ->]. done.
  - apply holds_cons in Hm as (Hc & m' & -> & Hm'). apply Z.eqb_neq in Hc. simpl.
    rewrite Hc. by apply IH.
Qed.

Lemma memset_ok n m val :
  (n ≤ length m)%nat → memset_mem n m val = Ok (replicate n val ++ drop n m).
Proof.
  revert m. induction n as [|n IH]; intros [|c m] Hl; simpl in *; try lia; try done.
  by rewrite IH by lia.
Qed.

Lemma memcpy_ok n dest src :
  (n ≤ length dest)%nat → (n ≤ length src)%nat →
  memcpy_mem n dest src = Ok (take n src ++ drop n dest).
Proof.
  revert dest src. induction n as [|n IH]; intros [|d dest] [|c src] H1 H2; simpl in *;
    try lia; try done. by rewrite IH by lia.
Qed.

Lemma memcmp_ok n lhs rhs :
  (n ≤ length lhs)%nat → (n ≤ length rhs)%nat →
  ∃ c, memcmp_mem n lhs rhs = Ok c ∧ (c = 0 ↔ take n lhs = take n rhs).
Proof.
  revert lhs rhs. induction n as [|n IH]; intros [|l lhs] [|r rhs] H1 H2; simpl in *;
    try lia; try by exists 0.
  destruct (l =? r) eqn:E; simpl.
  - apply Z.eqb_eq in E as ->. destruct (IH lhs rhs) as (c & -> & Hc); [lia..|].
    exists c. split; [done|]. rewrite Hc. split; congruence.
  - apply Z.eqb_neq in E. eexists. split; [done|]. destruct (l >? r); split; congruence.
Qed.
End cstring.

Module string_view.
Import cstring.

(** A pointer and a length; the characters after the length are reachable
    through the pointer. *)
Record t := mk { str_ : cptr; len_ : Z }.

Definition npos : Z := u32 (-1).

(** The constructor from a character pointer. *)
Definition of_cptr (str : cptr) : res t :=
  len ← strlen str;
  Ok (mk str len).

Definition data (v : t) : cptr := str_ v.
Definition empty (v : t) : bool := len_ v =? 0.
Definition size (v : t) : Z := len_ v.

(** [rfind] and [find]: the offset of the last or the first [ch]. *)
Definition rfind (v : t) (ch : Z) : res Z :=
  r ← strrchr (str_ v) ch;
  Ok (default npos r).
Definition find (v : t) (ch : Z) : res Z :=
  r ← strchr (str_ v) ch;
  Ok (default npos r).

Definition at_ (v : t) (idx : Z) : res Z :=
  m ← of_option (str_ v);
  of_option (m !! Z.to_nat idx).
Definition front (v : t) : res Z := at_ v 0.
Definition back (v : t) : res Z := at_ v (len_ v -w 1).

Definition null : t := mk None 0.

Definition substr (v : t) (idx count : Z) : t :=
  if len_ v <=? idx then null
  else
    let rest := len_ v -w idx in
    let actual_count := if count <? rest then count else rest in
    if 0 <? actual_count then mk (drop (Z.to_nat idx) <$> str_ v) actual_count else null.

(** [operator==] *)
Definition eqb (lhs rhs : t) : res bool :=
  if empty lhs && empty rhs then Ok true
  else if negb (empty lhs) && negb (empty rhs) then
    c ← strcmp (data lhs) (data rhs);
    Ok (c =? 0)
  else Ok false.

(** A literal of the source. *)
Definition literal (s : list Z) : t := mk (Some (s ++ [0])) (Z.of_nat (length s)).

(** The view shows the string [s], and [s] is terminated where it ends. *)
Definition shows (v : t) (s : list Z) : Prop :=
  len_ v = Z.of_nat (length s)
  ∧ match str_ v with Some m => holds m s | None => s = [] end.

Lemma shows_empty v s : shows v s → empty v = bool_decide (s = []).
Proof.
  intros [Hl _]. unfold empty. rewrite Hl. by destruct s.
Qed.

Lemma shows_cons v c s : shows v (c :: s) → ∃ m, str_ v = Some (c :: m) ∧ c ≠ 0 ∧ holds m s.
Proof.
  intros [_ Hs]. destruct (str_ v) as [m|]; [|done].
  apply holds_cons in Hs as (Hc & m' & -> & Hm'). eauto.
Qed.

Lemma of_cptr_ok m s : holds m s → ∃ v, of_cptr (Some m) = Ok v ∧ str_ v = Some m ∧ shows v s.
Proof.
  intros Hs. unfold of_cptr. cbn [strlen]. rewrite (strlen_ok _ _ Hs). simpl.
  eexists. split; [done|]. by split.
Qed.

Lemma eqb_ok v1 v2 s1 s2 :
  shows v1 s1 → shows v2 s2 → eqb v1 v2 = Ok (bool_decide (s1 = s2)).
Proof.
  intros H1 H2. unfold eqb. rewrite (shows_empty _ _ H1), (shows_empty _ _ H2).
  destruct s1 as [|c1 s1], s2 as [|c2 s2]; try done. simpl.
  destruct H1 as [_ H1], H2 as [_ H2]. unfold data.
  destruct (str_ v1) as [m1|], (str_ v2) as [m2|]; try done. cbn [strcmp].
  destruct (strcmp_ok _ _ _ _ H1 H2) as (c & -> & Hc). simpl. f_equal.
  rewrite <- (bool_decide_ext _ _ Hc). destruct (Z.eqb_spec c 0) as [->|Hne].
  - by rewrite bool_decide_eq_true_2.
  - by rewrite bool_decide_eq_false_2.
Qed.

(** A view of a suffix is what [substr] from an index to the end gives. *)
Lemma substr_ok v s idx :
  shows v s → 0 ≤ idx ≤ Z.of_nat (length s) → Z.of_nat (length s) < npos →
  shows (substr v idx npos) (drop (Z.to_nat idx) s).
Proof.
  intros [Hl Hs] Hi Hn. assert (Hnp : npos = 2 ^ 32 - 1) by reflexivity.
  unfold substr. rewrite Hl. destruct (Z.of_nat (length s) <=? idx) eqn:E; to_prop.
  { rewrite drop_ge by lia. by split. }
  rewrite u32_small by lia. rewrite (proj2 (Z.ltb_ge npos _)) by lia.
  rewrite (proj2 (Z.ltb_lt 0 _)) by lia. split; cbn [len_ str_].
  - rewrite length_drop. lia.
  - destruct (str_ v) as [m|]; simpl; [|by rewrite Hs, drop_nil].
    destruct Hs as (H0 & rest & ->). split.
    + contradict H0. apply list_elem_of_lookup in H0 as [i Hj]. rewrite lookup_drop in Hj.
      by eapply list_elem_of_lookup_2.
    + exists rest. by rewrite drop_app_le by lia.
Qed.

End string_view.
