(* ===== verification/StlContainer.v ===== *)
(** * Arrays, spans and iterators

    stl/array.h, stl/span.h, stl/iterator.h, stl/algorithm.h, stl/cmath.h and [swap]
    of stl/utility.h. An iterator is a pointer into an array: the object, a list, is
    an argument of what reads it, and the pointer is an index, one past the last
    element at the end. Reading anywhere else is a fault; moving the pointer out
    of the object is undefined in C++ and changes the index here. *)
From S2P Require Import Prelude.

Section elements.
Context {A : Type}.

(** The element a pointer refers to. *)
Definition deref (vals : list A) (it : Z) : res A :=
  if 0 <=? it then of_option (vals !! Z.to_nat it) else Fault.
Definition assign (vals : list A) (it : Z) (v : A) : res (list A) :=
  _ ← deref vals it; Ok (<[Z.to_nat it := v]> vals).

Lemma deref_ok vals (i : nat) x : vals !! i = Some x → deref vals (Z.of_nat i) = Ok x.
Proof. intros Hx. unfold deref. rewrite (proj2 (Z.leb_le _ _)), Nat2Z.id, Hx by lia. done. Qed.
End elements.

(** [reverse_iterator<T*>]. The postfix operators do not compile: they bind a
    constant local variable to the reference they return. *)
Module reverse_iterator.
Section reverse_iterator.
Context {A : Type}.
Record t := mk { curr_ : Z }.

Definition base (r : t) : Z := curr_ r.
Definition star (vals : list A) (r : t) : res A := deref vals (curr_ r - 1).
Definition arrow (r : t) : Z := curr_ r - 1.
Definition next (r : t) : t := mk (curr_ r - 1).
Definition prev (r : t) : t := mk (curr_ r + 1).
(** The pointer it returns is converted by the constructor that is [explicit]. *)
Definition plus (r : t) (n : Z) : t := mk (curr_ r - n).
Definition at_ (vals : list A) (r : t) (n : Z) : res A := star vals (plus r n).
End reverse_iterator.
End reverse_iterator.

(** [array<T, n>]; its members are zero when it is made. *)
Module array.
Section array.
Context {A : Type}.

Definition make (n : nat) (zero : A) : list A := replicate n zero.
Definition size (vals : list A) : Z := Z.of_nat (length vals).
Definition empty (vals : list A) : bool := size vals =? 0.
Definition max_size (vals : list A) : Z := size vals.
Definition at_ (vals : list A) (idx : Z) : res A := deref vals idx.
Definition set (vals : list A) (idx : Z) (v : A) : res (list A) := assign vals idx v.
Definition data (vals : list A) : Z := 0.
Definition front (vals : list A) : res A := deref vals 0.
Definition back (vals : list A) : res A := deref vals (size vals - 1).
Definition begin (vals : list A) : Z := 0.
Definition end_ (vals : list A) : Z := 0 + size vals.
Definition cbegin (vals : list A) : Z := begin vals.
Definition cend (vals : list A) : Z := end_ vals.
Definition rbegin (vals : list A) : reverse_iterator.t := reverse_iterator.mk (end_ vals).
Definition rend (vals : list A) : reverse_iterator.t := reverse_iterator.mk (begin vals).
Definition crbegin (vals : list A) : reverse_iterator.t := rbegin vals.
Definition crend (vals : list A) : reverse_iterator.t := rend vals.
End array.
End array.

(** [span<T>]: a pointer, null or to the first of the elements, and how many it
    shows of them. *)
Module span.
Section span.
Context {A : Type}.
Record t := mk { vals_ : option (list A); size_ : Z }.

Definition null : t := mk None 0.
Definition of_array (vals : list A) : t := mk (Some vals) (array.size vals).
Definition empty (s : t) : bool := size_ s =? 0.
Definition size (s : t) : Z := size_ s.
(** Not checked against the size. *)
Definition at_ (s : t) (idx : Z) : res A := vals ← of_option (vals_ s); deref vals idx.
Definition data (s : t) : option (list A) := vals_ s.
Definition front (s : t) : res A := at_ s 0.
Definition back (s : t) : res A := at_ s (size_ s -w 1).
Definition begin (s : t) : Z := 0.
Definition end_ (s : t) : Z := 0 + size_ s.
Definition cbegin (s : t) : Z := begin s.
Definition cend (s : t) : Z := end_ s.
Definition rbegin (s : t) : reverse_iterator.t := reverse_iterator.mk (end_ s).
Definition rend (s : t) : reverse_iterator.t := reverse_iterator.mk (begin s).
Definition crbegin (s : t) : reverse_iterator.t := rbegin s.
Definition crend (s : t) : reverse_iterator.t := rend s.
End span.
#[global] Arguments t : clear implicits.
End span.

Module algorithm.
Section algorithm.
Context {A : Type}.

(** The loop of [find] on the iterator. *)
Definition find_body (eqb : A → A → bool) (vals : list A) (end_ : Z) (v : A) (it : Z) : res (Z + Z) :=
  if it =? end_ then Ok (inr end_)
  else x ← deref vals it; if eqb x v then Ok (inr it) else Ok (inl (it + 1)).
Definition find (eqb : A → A → bool) (vals : list A) (begin end_ : Z) (v : A) : res Z :=
  loop (S (Z.to_nat (end_ - begin))) (find_body eqb vals end_ v) begin.

(** [min] and [max] return their first argument only when it is less (greater). *)
Definition min (ltb : A → A → bool) (lhs rhs : A) : A := if ltb lhs rhs then lhs else rhs.
Definition max (ltb : A → A → bool) (lhs rhs : A) : A := if ltb rhs lhs then lhs else rhs.

(** [swap] on two elements of an object, through a temporary. *)
Definition swap (i j : Z) (vals : list A) : res (list A) :=
  tmp ← deref vals i;
  x ← deref vals j;
  vals ← assign vals i x;
  assign vals j tmp.
End algorithm.
End algorithm.

(** [abs] of stl/cmath.h on a signed number of 32 bits, whose least value has no
    opposite: negating it overflows. *)
Module cmath.
Definition abs (num : Z) : res Z :=
  if 0 <=? num then Ok num else if num =? - 2 ^ 31 then Fault else Ok (- num).

Lemma abs_ok num : - 2 ^ 31 < num < 2 ^ 31 → abs num = Ok (Z.abs num).
Proof.
  intros Hn. unfold abs. destruct (Z.leb_spec 0 num), (Z.eqb_spec num (- 2 ^ 31)); (lia || f_equal; lia).
Qed.
End cmath.

(** ** Traversals *)

Section traversal.
Context {A : Type}.

(** [for (auto it {begin}; it != end; ++it)] over the elements of a span, and over
    them from the end, comparing the pointers below. *)
Fixpoint forward (vals : list A) (n : nat) (it : Z) : res (list A) :=
  match n with
  | O => Ok []
  | S n' => x ← deref vals it; xs ← forward vals n' (it + 1); Ok (x :: xs)
  end.
Fixpoint backward (vals : list A) (n : nat) (r : reverse_iterator.t) : res (list A) :=
  match n with
  | O => Ok []
  | S n' => x ← reverse_iterator.star vals r; xs ← backward vals n' (reverse_iterator.next r); Ok (x :: xs)
  end.

Lemma forward_from pre vals : forward (pre ++ vals) (length vals) (Z.of_nat (length pre)) = Ok vals.
Proof.
  revert pre. induction vals as [|x vals IH]; intros pre; [done|]. cbn [length forward].
  rewrite (deref_ok _ _ x) by by apply list_lookup_middle. rewrite res_bind_ok.
  specialize (IH (pre ++ [x])). rewrite length_app in IH. cbn [length] in IH. rewrite <- app_assoc in IH. cbn [app] in IH.
  replace (Z.of_nat (length pre) + 1) with (Z.of_nat (length pre + 1)) by lia. by rewrite IH.
Qed.

Lemma backward_from vals post :
  backward (vals ++ post) (length vals) (reverse_iterator.mk (Z.of_nat (length vals))) = Ok (reverse vals).
Proof.
  revert post. induction vals as [|x vals IH] using rev_ind; intros post; [done|].
  rewrite length_app, Nat.add_comm. cbn [length Nat.add backward]. unfold reverse_iterator.star, reverse_iterator.next.
  cbn [reverse_iterator.curr_]. replace (Z.of_nat (S (length vals)) - 1) with (Z.of_nat (length vals)) by lia.
  rewrite (deref_ok _ _ x) by (rewrite <- app_assoc; by apply list_lookup_middle).
  rewrite res_bind_ok, <- app_assoc. by rewrite IH, res_bind_ok, reverse_app.
Qed.

(** The iterators of an array visit its elements in order, the reverse ones in
    the reverse order, and both stay inside; front and back are the ends. *)
Lemma array_iterators (vals : list A) :
  forward vals (Z.to_nat (array.end_ vals - array.begin vals)) (array.begin vals) = Ok vals
  ∧ backward vals (Z.to_nat (array.end_ vals - array.begin vals)) (array.rbegin vals) = Ok (reverse vals)
  ∧ (∀ x, array.front vals = Ok x ↔ head vals = Some x) ∧ (∀ x, array.back vals = Ok x ↔ last vals = Some x).
Proof.
  unfold array.end_, array.begin, array.rbegin, array.front, array.back, array.size.
  replace (Z.to_nat _) with (length vals) by lia. split; [exact (forward_from [] vals)|]. split.
  - pose proof (backward_from vals []) as Hb. by rewrite app_nil_r in Hb.
  - split; intros x.
    + destruct vals; cbn; naive_solver.
    + destruct vals as [|y vals _] using rev_ind; [done|].
      rewrite last_snoc, length_app. cbn [length]. replace (Z.of_nat (length vals + 1) - 1) with (Z.of_nat (length vals)) by lia.
      rewrite (deref_ok _ _ y) by by apply list_lookup_middle. naive_solver.
Qed.

Lemma find_body_eq (eqb : A → A → bool) vals end_ v it :
  algorithm.find_body eqb vals end_ v it
  = if it =? end_ then Ok (inr end_)
    else x ← deref vals it; if eqb x v then Ok (inr it) else Ok (inl (it + 1)).
Proof. done. Qed.

(** [find] stops at the first element that is equal, or at the end. *)
Lemma find_first (eqb : A → A → bool) (vals : list A) (v : A) :
  ∃ i, algorithm.find eqb vals (array.begin vals) (array.end_ vals) v = Ok (Z.of_nat i)
    ∧ Forall (λ x, eqb x v = false) (take i vals)
    ∧ match vals !! i with Some x => eqb x v = true | None => i = length vals end.
Proof.
  unfold algorithm.find, array.begin, array.end_, array.size. rewrite Z.sub_0_r, Z.add_0_l, Nat2Z.id.
  assert (Hgen : ∀ post pre fuel, vals = pre ++ post → (length post < fuel)%nat → Forall (λ x, eqb x v = false) pre →
    ∃ i, loop fuel (algorithm.find_body eqb vals (Z.of_nat (length vals)) v) (Z.of_nat (length pre)) = Ok (Z.of_nat i)
      ∧ Forall (λ x, eqb x v = false) (take i vals)
      ∧ match vals !! i with Some x => eqb x v = true | None => i = length vals end).
  { induction post as [|x post IH]; intros pre [|fuel] Hv Hf Hpre; cbn [length] in Hf; [lia| |lia|];
      rewrite loop_S, find_body_eq.
    - rewrite app_nil_r in Hv. subst pre. rewrite Z.eqb_refl. exists (length vals). split; [done|].
      by rewrite take_ge, lookup_ge_None_2 by lia.
    - assert (Hlen : (length pre < length vals)%nat) by (rewrite Hv, length_app; cbn; lia).
      rewrite (proj2 (Z.eqb_neq _ _)) by lia.
      assert (Hx : vals !! length pre = Some x) by (rewrite Hv; by apply list_lookup_middle).
      rewrite (deref_ok _ _ x Hx), res_bind_ok. destruct (eqb x v) eqn:E.
      + exists (length pre). split; [done|]. rewrite Hx. split; [|done]. by rewrite Hv, take_app_length.
      + destruct (IH (pre ++ [x]) fuel) as (i & Ei & Hi); [by rewrite <- app_assoc|lia|by apply Forall_app; split; [|constructor]|].
        exists i. split; [|done]. rewrite length_app in Ei. cbn [length] in Ei.
        by replace (Z.of_nat (length pre) + 1) with (Z.of_nat (length pre + 1)) by lia. }
  by apply (Hgen vals [] (S (length vals))); [|lia|].
Qed.

(** [swap] exchanges the two elements and keeps the others, [i = j] included. *)
Lemma swap_ok (vals : list A) (i j : nat) x y :
  vals !! i = Some x → vals !! j = Some y →
  algorithm.swap (Z.of_nat i) (Z.of_nat j) vals = Ok (<[j := x]> (<[i := y]> vals)).
Proof.
  intros Hx Hy. unfold algorithm.swap, assign. rewrite (deref_ok _ _ _ Hx), res_bind_ok, (deref_ok _ _ _ Hy), !res_bind_ok.
  rewrite !Nat2Z.id.
  destruct (lookup_lt_is_Some_2 (<[i := y]> vals) j) as [z Hz]; [rewrite length_insert; by eapply lookup_lt_Some|].
  by rewrite (deref_ok _ _ _ Hz).
Qed.
End traversal.
