(* ===== verification/IoPath.v ===== *)
(** * Paths

    [Path] models src/include/kernel/io/file/path.h and
    src/src/kernel/io/file/path.cpp. A path object is its zero-filled array
    [path_]; the static functions work on string views. The abstract content of
    a path is the sequence of its non-empty components. *)
From S2P Require Import Prelude UtilBit StlString.
Import cstring.

Module Path.

Definition max_len : Z := 512.
Definition max_name_len : Z := 16.
Definition separator : Z := 47.

(** '.' is 46. *)
Definition root_dir_name : string_view.t := string_view.literal [47].
Definition curr_dir_name : string_view.t := string_view.literal [46].
Definition parent_dir_name : string_view.t := string_view.literal [46; 46].

(** The array [name] that receives a component. *)
Abbreviation name_buf := (list Z).
Definition name_size : nat := 17.
#[global] Arguments name_size : simpl never.

(** A write to an array element. *)
Definition store_at (m : list Z) (i : nat) (v : Z) : res (list Z) :=
  if bool_decide (i < length m)%nat then Ok (<[i := v]> m) else Fault.

(** [IsRootDir(stl::string_view)] *)
Definition IsRootDir (path : string_view.t) : res bool :=
  Assert ((0 <? string_view.size path) && (string_view.size path <=? max_len));;
  a ← string_view.eqb path root_dir_name;
  if (a : bool) then Ok true
  else
    b ← string_view.eqb path (string_view.literal [47; 46]);
    if (b : bool) then Ok true else string_view.eqb path (string_view.literal [47; 46; 46]).

(** [IsDir(stl::string_view)] *)
Definition IsDir (path : string_view.t) : res bool :=
  Assert (string_view.size path <=? max_len);;
  if string_view.empty path then Ok true
  else
    r ← IsRootDir path;
    if (r : bool) then Ok true
    else
      c ← string_view.back path;
      Ok (c =? separator).

(** [IsAbsolute(stl::string_view)] *)
Definition IsAbsolute (path : string_view.t) : res bool :=
  Assert (string_view.size path <=? max_len);;
  if negb (string_view.empty path) then c ← string_view.front path; Ok (c =? separator)
  else Ok false.

(** [GetFileName(stl::string_view)] *)
Definition GetFileName (path : string_view.t) : res string_view.t :=
  d ← IsDir path;
  if negb d then
    last_sep ← string_view.rfind path separator;
    if negb (last_sep =? string_view.npos) then
      Ok (string_view.substr path (last_sep +w 1) string_view.npos)
    else Ok path
  else Ok (string_view.literal []).

(** [while (path[src] == separator) ++src;] *)
Fixpoint skip_seps (m : mem) (src : nat) : res (mem * nat) :=
  match m with
  | [] => Fault
  | c :: m' => if c =? separator then skip_seps m' (S src) else Ok (m, src)
  end.

(** [while (path[src] != separator && path[src] != '\0') name[dest++] = path[src++];] *)
Fixpoint copy_name (m : mem) (src dest : nat) (name : name_buf) : res (nat * nat * name_buf) :=
  match m with
  | [] => Fault
  | c :: m' =>
      if negb (c =? separator) && negb (c =? 0) then
        Assert (Z.of_nat dest <? max_len);;
        name ← store_at name dest c;
        copy_name m' (S src) (S dest) name
      else Ok (src, dest, name)
  end.

(** [Parse(path, name)]: the rest of the path, and the array [name]. *)
Definition Parse (path : string_view.t) (name : name_buf) : res (string_view.t * name_buf) :=
  Assert (string_view.size path <=? max_len);;
  name ← memset (Some name) 0 (Z.of_nat (length name));
  if string_view.empty path then Ok (string_view.null, name)
  else
    m ← of_option (string_view.str_ path);
    '(m, src) ← skip_seps m 0;
    '(src, dest, name) ← copy_name m src 0 name;
    Assert (Z.of_nat dest <=? max_len);;
    name ← store_at name dest 0;
    Ok (string_view.substr path (Z.of_nat src) string_view.npos, name).

(** A visitor sees the rest of the path and the name, threads the state its
    [arg] points to, and says whether to go on. *)
Abbreviation visitor A := (string_view.t → string_view.t → A → res (A * bool)).

Definition Visit_body {A} (f : visitor A) (s : string_view.t * name_buf * A)
  : res ((string_view.t * name_buf * A) + (A * bool)) :=
  let '(sub_path, name, arg) := s in
  len ← strlen (Some name);
  if negb (len =? 0) then
    nm ← string_view.of_cptr (Some name);
    '(arg, go) ← f sub_path nm arg;
    if negb go then Ok (inr (arg, false))
    else if negb (string_view.empty sub_path) then
      '(sub_path, name) ← Parse sub_path name;
      Ok (inl (sub_path, name, arg))
    else
      name ← memset (Some name) 0 (Z.of_nat (length name));
      Ok (inl (sub_path, name, arg))
  else Ok (inr (arg, true)).

(** Every round but the last consumes a character of the path. *)
Definition visit_fuel (path : string_view.t) : nat := S (S (Z.to_nat (string_view.size path))).

Definition Visit {A} (path : string_view.t) (f : visitor A) (arg : A) : res (A * bool) :=
  Assert (string_view.size path <=? max_len);;
  '(sub_path, name) ← Parse path (replicate name_size 0);
  loop (visit_fuel path) (Visit_body f) (sub_path, name, arg).

Definition depth_visitor : visitor Z := fun _ _ depth => Ok (depth +w 1, true).

(** [GetDepth(stl::string_view)] *)
Definition GetDepth (path : string_view.t) : res Z :=
  Assert (string_view.size path <=? max_len);;
  '(depth, _) ← Visit path depth_visitor 0;
  Ok depth.

(** The array [path_]. *)
Definition path_size : nat := 513.
#[global] Arguments path_size : simpl never.
Definition empty_path : list Z := replicate path_size 0.

Definition GetSize (path_ : list Z) : res Z := strlen (Some path_).

(** [if (len > 0 && full[len - 1] != separator) full[len] = separator;] *)
Definition append_separator (full : list Z) (len : Z) : res (list Z) :=
  if 0 <? len then
    last ← of_option (full !! Z.to_nat (len - 1));
    if negb (last =? separator) then store_at full (Z.to_nat len) separator else Ok full
  else Ok full.

Definition join_visitor : visitor (list Z) := fun _ name full =>
  len ← strlen (Some full);
  full ← append_separator full len;
  a ← strlen (Some full);
  b ← strlen (string_view.data name);
  Assert (a + b <=? max_len);;
  full ← strcat (Some full) (string_view.data name);
  Ok (full, true).

(** [if (GetSize() == 0 && IsAbsolute(child)) path_.front() = separator;] *)
Definition start_separator (path_ : list Z) (child : string_view.t) : res (list Z) :=
  size ← GetSize path_;
  if size =? 0 then
    a ← IsAbsolute child;
    if (a : bool) then store_at path_ 0 separator else Ok path_
  else Ok path_.

(** The member [Join(stl::string_view child)]. *)
Definition Join (path_ : list Z) (child : string_view.t) : res (list Z) :=
  Assert (string_view.size child <=? max_len);;
  path_ ← start_separator path_ child;
  '(path_, _) ← Visit child join_visitor path_;
  d ← IsDir child;
  if (d : bool) then
    size ← GetSize path_;
    Assert (size <? max_len);;
    path_ ← store_at path_ (Z.to_nat size) separator;
    store_at path_ (Z.to_nat size + 1) 0
  else Ok path_.

(** The constructor [Path(stl::string_view)]. *)
Definition make (path : string_view.t) : res (list Z) := Join empty_path path.

(** [Join(parent, child)], the static function. *)
Definition JoinViews (parent child : string_view.t) : res (list Z) :=
  path_ ← make parent;
  Join path_ child.

Definition Clear (path_ : list Z) : res (list Z) :=
  memset (Some path_) 0 (Z.of_nat (length path_)).

(** ** Components *)

Fixpoint split_sep (s : list Z) : list (list Z) :=
  match s with
  | [] => [[]]
  | c :: s' =>
      if c =? separator then [] :: split_sep s'
      else match split_sep s' with
           | w :: ws => (c :: w) :: ws
           | [] => [[c]]
           end
  end.

Definition components (s : list Z) : list (list Z) := filter (.≠ []) (split_sep s).

Example components_demo : components [47; 97; 98; 47; 47; 99; 47] = [[97; 98]; [99]].
Proof. reflexivity. Qed.

Fixpoint drop_seps (s : list Z) : list Z :=
  match s with
  | c :: s' => if c =? separator then drop_seps s' else s
  | [] => []
  end.

(** The characters up to the next separator, and the rest. *)
Fixpoint span_name (s : list Z) : list Z * list Z :=
  match s with
  | c :: s' => if c =? separator then ([], s) else let '(n, r) := span_name s' in (c :: n, r)
  | [] => ([], [])
  end.

Definition next_name (s : list Z) : list Z * list Z := span_name (drop_seps s).

Lemma drop_seps_length s : (length (drop_seps s) ≤ length s)%nat.
Proof. induction s as [|c s IH]; simpl; [done|]. destruct (c =? separator); simpl; lia. Qed.

Lemma span_name_app s n r : span_name s = (n, r) → s = n ++ r.
Proof.
  revert n r. induction s as [|c s IH]; intros n r Hs; simpl in Hs; [by simplify_eq|].
  destruct (c =? separator); simplify_eq; [done|].
  destruct (span_name s) as [n' r']. simplify_eq. simpl. f_equal. by apply IH.
Qed.

Lemma next_name_length s n r :
  next_name s = (n, r) → (length n + length r ≤ length s)%nat.
Proof.
  intros Hn. apply span_name_app in Hn. pose proof (drop_seps_length s).
  rewrite Hn, length_app in *. lia.
Qed.

Lemma components_drop_seps s : components (drop_seps s) = components s.
Proof.
  induction s as [|c s IH]; [done|]. simpl. destruct (c =? separator) eqn:E; [|done].
  rewrite IH. unfold components. simpl. rewrite E.
  by rewrite filter_cons_False by (intros H; by apply H).
Qed.

Lemma split_sep_span s n r :
  span_name s = (n, r) →
  split_sep s = n :: match r with [] => [] | _ :: r' => split_sep r' end.
Proof.
  revert n r. induction s as [|c s IH]; intros n r Hs; simpl in Hs; [by simplify_eq|].
  simpl. destruct (c =? separator); simplify_eq; [done|].
  destruct (span_name s) as [n' r'] eqn:E. simplify_eq. by rewrite (IH n' r eq_refl).
Qed.

Lemma span_name_rest s n r c r' : span_name s = (n, r) → r = c :: r' → c = separator.
Proof.
  revert n r. induction s as [|d s IH]; intros n r Hs Hr; simpl in Hs; [by simplify_eq|].
  destruct (d =? separator) eqn:E; simplify_eq; [by apply Z.eqb_eq|].
  destruct (span_name s) as [n' r1] eqn:E1. simplify_eq. by eapply IH.
Qed.

(** The components of a path, one at a time. *)
Lemma components_next s n r :
  next_name s = (n, r) → components s = if decide (n = []) then [] else n :: components r.
Proof.
  unfold next_name. rewrite <- (components_drop_seps s).
  assert (Hd : match drop_seps s with c :: _ => c ≠ separator | [] => True end).
  { clear. induction s as [|c s IH]; simpl; [done|]. destruct (c =? separator) eqn:E; [done|].
    by apply Z.eqb_neq. }
  revert Hd. generalize (drop_seps s). intros t Ht Hs. case_decide as Hn.
  - subst n. destruct t as [|c t]; [done|]. simpl in Hs. apply Z.eqb_neq in Ht. rewrite Ht in Hs.
    by destruct (span_name t).
  - unfold components at 1. rewrite (split_sep_span _ _ _ Hs).
    rewrite filter_cons_True by done. f_equal.
    destruct r as [|c r]; [done|]. rewrite (span_name_rest _ _ _ _ _ Hs eq_refl).
    unfold components. simpl. by rewrite filter_cons_False by (intros H; by apply H).
Qed.

(** ** Parsing one name *)

Lemma skip_seps_ok m s k :
  holds m s →
  ∃ m', skip_seps m k = Ok (m', (k + (length s - length (drop_seps s)))%nat)
    ∧ holds m' (drop_seps s).
Proof.
  revert m k. induction s as [|c s IH]; intros m k Hm.
  - pose proof Hm as Hm'. apply holds_nil_inv in Hm' as [rest ->]. simpl.
    rewrite Nat.add_0_r. eauto.
  - pose proof Hm as Hm'. apply holds_cons in Hm' as (Hc & m' & -> & Hs).
    cbn [skip_seps drop_seps]. destruct (c =? separator) eqn:E.
    + destruct (IH m' (S k) Hs) as (m2 & -> & H2). exists m2. split; [|done].
      pose proof (drop_seps_length s). do 2 f_equal. simpl. lia.
    + exists (c :: m'). by rewrite Nat.sub_diag, Nat.add_0_r.
Qed.

Lemma store_at_ok m i v : (i < length m)%nat → store_at m i v = Ok (<[i := v]> m).
Proof. intros. unfold store_at. by rewrite bool_decide_eq_true_2. Qed.

Lemma store_at_out m i v : (length m ≤ i)%nat → store_at m i v = Fault.
Proof. intros. unfold store_at. rewrite bool_decide_eq_false_2; [done|lia]. Qed.

(** A write behind a prefix that is [i] long. *)
Lemma store_at_app pre c m v : store_at (pre ++ c :: m) (length pre) v = Ok (pre ++ v :: m).
Proof.
  rewrite store_at_ok by (rewrite length_app; simpl; lia).
  by rewrite insert_app_r_alt, Nat.sub_diag by lia.
Qed.

Lemma copy_name_ok m s n r src pre k :
  holds m s → span_name s = (n, r) → (length n ≤ k)%nat → (length pre + k < 512)%nat →
  copy_name m src (length pre) (pre ++ replicate k 0)
  = Ok ((src + length n)%nat, (length pre + length n)%nat,
        pre ++ n ++ replicate (k - length n) 0).
Proof.
  revert m n src pre k. induction s as [|c s IH]; intros m n src pre k Hm Hs Hk Hl; simpl in Hs.
  - simplify_eq. apply holds_nil_inv in Hm as [rest ->]. simpl.
    by rewrite !Nat.add_0_r, Nat.sub_0_r.
  - apply holds_cons in Hm as (Hc & m' & -> & Hm'). apply Z.eqb_neq in Hc.
    cbn [copy_name]. destruct (c =? separator) eqn:E; simplify_eq.
    { simpl. by rewrite !Nat.add_0_r, Nat.sub_0_r. }
    destruct (span_name s) as [n' r'] eqn:E1. simplify_eq. rewrite Hc. simpl negb. cbn [andb].
    simpl in Hk. destruct k as [|k]; [lia|].
    rewrite (proj2 (Z.ltb_lt _ _)) by (unfold max_len; lia). cbn [mbind res_bind Assert].
    simpl replicate. rewrite store_at_app. cbn [mbind res_bind].
    pose proof (IH m' n' (S src) (pre ++ [c]) k Hm' eq_refl) as IH'.
    rewrite length_app in IH'. simpl in IH'.
    replace (length pre + 1)%nat with (S (length pre)) in IH' by lia.
    rewrite <- !app_assoc in IH'. simpl in IH'. rewrite IH' by lia. simpl. do 2 f_equal. f_equal; lia.
Qed.

Lemma Parse_ok path s n r name :
  string_view.shows path s → next_name s = (n, r) →
  (length s ≤ 512)%nat → (length n ≤ 16)%nat → length name = name_size →
  ∃ v name', Parse path name = Ok (v, name')
    ∧ string_view.shows v r ∧ holds name' n ∧ length name' = name_size.
Proof.
  intros Hp Hn Hs Hl Hsz. pose proof Hp as [Hlen Hstr]. unfold Parse, string_view.size.
  rewrite Hlen, (proj2 (Z.leb_le _ _)) by (unfold max_len; lia). cbn [mbind res_bind Assert].
  unfold memset. rewrite Nat2Z.id, memset_ok, drop_ge, app_nil_r by lia. rewrite Hsz.
  cbn [mbind res_bind]. rewrite (string_view.shows_empty _ _ Hp).
  case_bool_decide as He.
  { subst s. unfold next_name in Hn. simpl in Hn. simplify_eq. do 2 eexists. split; [done|].
    split; [by split|split; [|by rewrite length_replicate]]. split; [apply not_elem_of_nil|].
    by exists (replicate 16 0). }
  destruct (string_view.str_ path) as [m|] eqn:Em; [|done]. cbn [of_option mbind res_bind].
  destruct (skip_seps_ok m s 0 Hstr) as (m' & -> & Hm'). cbn [mbind res_bind].
  pose proof (copy_name_ok m' _ _ _ (0 + (length s - length (drop_seps s)))%nat [] 17 Hm' Hn)
    as Hc. cbn [length app] in Hc.
  change name_size with 17%nat. rewrite Hc by lia. cbn [mbind res_bind]. clear Hc.
  rewrite (proj2 (Z.leb_le _ _)) by (unfold max_len; lia). cbn [mbind res_bind Assert].
  replace (17 - length n)%nat with (S (16 - length n)) by lia. simpl replicate.
  rewrite store_at_app. cbn [mbind res_bind]. do 2 eexists. split; [done|].
  pose proof (span_name_app _ _ _ Hn) as Happ. pose proof (drop_seps_length s) as Hdl.
  assert (Hskip : drop (length s - length (drop_seps s)) s = drop_seps s).
  { clear. induction s as [|c s IH]; [done|]. pose proof (drop_seps_length s). cbn [drop_seps].
    destruct (c =? separator); [|by rewrite Nat.sub_diag].
    cbn [length]. by rewrite Nat.sub_succ_l by lia. }
  split; [|split].
  - assert (Hr : drop (0 + (length s - length (drop_seps s)) + length n) s = r).
    { rewrite Nat.add_0_l, <- drop_drop, Hskip, Happ. apply drop_app_length. }
    apply (f_equal length) in Happ. rewrite length_app in Happ.
    pose proof (string_view.substr_ok path s
      (Z.of_nat (0 + (length s - length (drop_seps s)) + length n)) Hp) as Hsub.
    rewrite Nat2Z.id, Hr in Hsub. apply Hsub; [lia|].
    change string_view.npos with (2 ^ 32 - 1). lia.
  - split; [|eauto]. intros H0. destruct Hstr as [Hs0 _]. apply Hs0.
    apply list_elem_of_lookup in H0 as [i Hi].
    assert (Hd : drop_seps s !! i = Some 0).
    { rewrite Happ. by apply lookup_app_l_Some. }
    rewrite <- Hskip, lookup_drop in Hd. by eapply list_elem_of_lookup_2.
  - rewrite length_app. simpl. rewrite length_replicate. change name_size with 17%nat. lia.
Qed.

(** A component that does not fit the array [name] is written past its end. *)
Lemma copy_name_overflow m s n r src pre k :
  holds m s → span_name s = (n, r) → (k < length n)%nat → (length pre + k < 512)%nat →
  copy_name m src (length pre) (pre ++ replicate k 0) = Fault.
Proof.
  revert m n src pre k. induction s as [|c s IH]; intros m n src pre k Hm Hs Hk Hl; simpl in Hs.
  { simplify_eq. simpl in Hk. lia. }
  apply holds_cons in Hm as (Hc & m' & -> & Hm'). apply Z.eqb_neq in Hc.
  cbn [copy_name]. destruct (c =? separator) eqn:E; simplify_eq; [simpl in Hk; lia|].
  destruct (span_name s) as [n' r'] eqn:E1. simplify_eq. rewrite Hc. simpl negb. cbn [andb].
  simpl in Hk. rewrite (proj2 (Z.ltb_lt _ _)) by (unfold max_len; lia).
  cbn [mbind res_bind Assert]. destruct k as [|k].
  { rewrite store_at_out; [done|]. rewrite app_nil_r. lia. }
  simpl replicate. rewrite store_at_app. cbn [mbind res_bind].
  pose proof (IH m' n' (S src) (pre ++ [c]) k Hm' eq_refl) as IH'.
  rewrite length_app in IH'. simpl in IH'.
  replace (length pre + 1)%nat with (S (length pre)) in IH' by lia.
  rewrite <- !app_assoc in IH'. simpl in IH'. by rewrite IH' by lia.
Qed.

Lemma Parse_overflow_ok path s n r name :
  string_view.shows path s → next_name s = (n, r) →
  (length s ≤ 512)%nat → (16 < length n)%nat → length name = name_size →
  Parse path name = Fault.
Proof.
  intros Hp Hn Hs Hl Hsz. pose proof Hp as [Hlen Hstr]. unfold Parse, string_view.size.
  rewrite Hlen, (proj2 (Z.leb_le _ _)) by (unfold max_len; lia). cbn [mbind res_bind Assert].
  unfold memset. rewrite Nat2Z.id, memset_ok, drop_ge, app_nil_r by lia. rewrite Hsz.
  cbn [mbind res_bind]. rewrite (string_view.shows_empty _ _ Hp).
  case_bool_decide as He.
  { subst s. unfold next_name in Hn. simpl in Hn. simplify_eq. simpl in Hl. lia. }
  destruct (string_view.str_ path) as [m|] eqn:Em; [|done]. cbn [of_option mbind res_bind].
  destruct (skip_seps_ok m s 0 Hstr) as (m' & -> & Hm'). cbn [mbind res_bind].
  change name_size with 17%nat.
  destruct (decide (length n = 17%nat)) as [E17|Hne].
  - pose proof (copy_name_ok m' _ _ _ (0 + (length s - length (drop_seps s)))%nat [] 17 Hm' Hn)
      as Hc. cbn [length app] in Hc. rewrite Hc by lia. cbn [mbind res_bind].
    rewrite (proj2 (Z.leb_le _ _)) by (unfold max_len; lia). cbn [mbind res_bind Assert].
    rewrite store_at_out; [done|]. rewrite length_app, length_replicate. lia.
  - pose proof (copy_name_overflow m' _ _ _ (0 + (length s - length (drop_seps s)))%nat [] 17
      Hm' Hn) as Hc. cbn [length app] in Hc. by rewrite Hc by lia.
Qed.

(** C23. Parsing the first name of a path: a name of at most 16 characters is
    returned with the rest of the path; a longer one is written past the end
    of the 17-byte array, and the assertions on [dest] (which compare with the
    512 of [max_len]) stop none of these writes. *)
Theorem Parse_bounds path s n r name :
  string_view.shows path s → next_name s = (n, r) →
  (length s ≤ 512)%nat → length name = name_size →
  if decide (length n ≤ 16)%nat then
    ∃ v name', Parse path name = Ok (v, name') ∧ string_view.shows v r ∧ holds name' n
  else Parse path name = Fault.
Proof.
  intros Hp Hn Hs Hsz. case_decide as Hd.
  - destruct (Parse_ok path s n r name Hp Hn Hs Hd Hsz) as (v & nm & ? & ? & ? & _). eauto.
  - eapply Parse_overflow_ok; eauto. lia.
Qed.

(** The path is a slash and seventeen letters. *)
Lemma Parse_bounds_witness :
  Parse (string_view.literal (47 :: replicate 17 97)) (replicate 17 0) = Fault.
Proof.
  refine (Parse_bounds _ (47 :: replicate 17 97) (replicate 17 97) [] _ _ _ _ _).
  - split; [reflexivity|]. split; [|by exists []].
    apply not_elem_of_cons. split; [done|]. intros H%elem_of_replicate. lia.
  - reflexivity.
  - simpl. lia.
  - reflexivity.
Defined.

(** ** Visiting *)

(** The names of a path all fit. *)
Definition names_fit (s : list Z) : Prop :=
  (length s ≤ 512)%nat ∧ Forall (fun c => (length c ≤ 16)%nat) (components s).

Lemma names_fit_next s n r :
  names_fit s → next_name s = (n, r) → (length n ≤ 16)%nat ∧ names_fit r.
Proof.
  intros [Hl Hf] Hn. pose proof (next_name_length _ _ _ Hn). pose proof (components_next _ _ _ Hn) as Hc.
  rewrite Hc in Hf. case_decide as Hd.
  - subst n. simpl. split; [lia|]. unfold names_fit. split; [lia|].
    apply span_name_app in Hn as Happ. simpl in Happ.
    by rewrite <- Happ, components_drop_seps, Hc.
  - apply Forall_cons in Hf as [? Hf]. split; [done|]. split; [lia|done].
Qed.

(** The two ways to fail: an assertion, or a reference out of an object. *)
Definition failure {A} (assertion : bool) : res A := if assertion then Panic else Fault.

Lemma failure_bind {A B} b (k : A → res B) : (failure b ≫= k) = failure b.
Proof. by destruct b. Qed.

Section visit.
Context {A : Type} (f : visitor A) (I : list (list Z) → A → Prop) (Q : A → Prop) (E : bool → Prop).

(** A round of the visitor keeps the invariant of the visited names, stops the
    visit, or fails. *)
Definition visit_step (total : list (list Z)) : Prop :=
  ∀ pre n rest sub nm arg,
    total = pre ++ n :: components rest →
    string_view.shows sub rest → string_view.shows nm n → I pre arg →
    (∃ arg', f sub nm arg = Ok (arg', true) ∧ I (pre ++ [n]) arg')
    ∨ (∃ arg', f sub nm arg = Ok (arg', false) ∧ Q arg')
    ∨ (∃ b, f sub nm arg = failure b ∧ E b).

Definition visited (total : list (list Z)) (r : res (A * bool)) : Prop :=
  (∃ arg, r = Ok (arg, true) ∧ I total arg) ∨ (∃ arg, r = Ok (arg, false) ∧ Q arg)
  ∨ (∃ b, r = failure b ∧ E b).

Lemma Visit_body_nil sub name arg :
  holds name [] → Visit_body f (sub, name, arg) = Ok (inr (arg, true)).
Proof. intros H. unfold Visit_body. cbn [strlen]. by rewrite (strlen_ok _ _ H). Qed.

Lemma Visit_body_cons sub name arg n :
  holds name n → n ≠ [] →
  ∃ nm, string_view.shows nm n ∧
    Visit_body f (sub, name, arg)
    = ('(arg, go) ← f sub nm arg;
       if negb go then Ok (inr (arg, false))
       else if negb (string_view.empty sub) then
         '(sub_path, name) ← Parse sub name;
         Ok (inl (sub_path, name, arg))
       else
         name ← memset (Some name) 0 (Z.of_nat (length name));
         Ok (inl (sub, name, arg))).
Proof.
  intros H Hn. destruct (string_view.of_cptr_ok _ _ H) as (nm & Hnm & _ & Hs).
  exists nm. split; [done|]. unfold Visit_body. cbn [strlen]. rewrite (strlen_ok _ _ H).
  cbn [mbind res_bind]. rewrite Hnm. destruct n; [done|].
  rewrite (proj2 (Z.eqb_neq _ _)) by (simpl; lia). reflexivity.
Qed.

Lemma Visit_loop_ok total : visit_step total →
  ∀ fuel n r sub name arg pre,
  total = pre ++ (if decide (n = []) then [] else n :: components r) →
  string_view.shows sub r → holds name n → length name = name_size → names_fit r →
  ((if decide (n = []) then 0 else S (length r)) < fuel)%nat → I pre arg →
  visited total (loop fuel (Visit_body f) (sub, name, arg)).
Proof.
  intros Hstep. induction fuel as [|fuel IH]; intros n r sub name arg pre Ht Hsub Hname Hlen Hfit
    Hfuel HI; [lia|].
  rewrite loop_S. destruct n as [|c n].
  { rewrite Visit_body_nil by done. left. exists arg. split; [done|].
    rewrite decide_True, app_nil_r in Ht by done. by rewrite Ht. }
  rewrite decide_False in Ht by done.
  destruct (Visit_body_cons sub name arg (c :: n)) as (nm & Hnm & ->); [done..|].
  destruct (Hstep pre (c :: n) r sub nm arg Ht Hsub Hnm HI)
    as [(arg' & -> & HI')|[(arg' & -> & HQ)|(b & -> & HE)]]; cbn [mbind res_bind negb].
  2: { right. left. eauto. }
  2: { right. right. rewrite !failure_bind. eauto. }
  rewrite (string_view.shows_empty _ _ Hsub).
  destruct (next_name r) as [n' r'] eqn:En. pose proof (next_name_length _ _ _ En).
  destruct (names_fit_next _ _ _ Hfit En) as [Hn' Hfit'].
  pose proof (components_next _ _ _ En) as Hcr.
  destruct r as [|d r].
  - unfold memset. rewrite bool_decide_eq_true_2 by done. cbn [negb].
    rewrite Nat2Z.id, memset_ok, drop_ge, app_nil_r by lia. cbn [mbind res_bind].
    eapply (IH [] []); [|done| |by rewrite length_replicate|done|simpl in *; lia|exact HI'].
    + rewrite decide_True, app_nil_r by done. done.
    + rewrite Hlen. split; [apply not_elem_of_nil|]. by exists (replicate 16 0).
  - rewrite bool_decide_eq_false_2 by done. cbn [negb].
    destruct Hfit as [Hfit _].
    destruct (Parse_ok sub _ _ _ name Hsub En Hfit Hn' Hlen)
      as (v & name' & -> & Hv & Hh & Hl'). cbn [mbind res_bind].
    eapply (IH n' r' _ _ _ (pre ++ [c :: n])); try done.
    + by rewrite Ht, Hcr, <- app_assoc.
    + rewrite decide_False in Hfuel by done. case_decide as Hd; [lia|].
      destruct n'; [done|]. simpl in *. lia.
Qed.

Lemma Visit_outcome path s arg :
  string_view.shows path s → names_fit s → visit_step (components s) → I [] arg →
  visited (components s) (Visit path f arg).
Proof.
  intros Hp Hfit Hstep HI. pose proof Hp as [Hlen _]. pose proof Hfit as [Hl _].
  unfold Visit, string_view.size.
  rewrite Hlen, (proj2 (Z.leb_le _ _)) by (unfold max_len; lia). cbn [mbind res_bind Assert].
  destruct (next_name s) as [n r] eqn:En. pose proof (next_name_length _ _ _ En).
  destruct (names_fit_next _ _ _ Hfit En) as [Hn Hfit'].
  destruct (Parse_ok path s n r (replicate name_size 0) Hp En Hl Hn)
    as (v & name' & -> & Hv & Hh & Hl'); [by rewrite length_replicate|]. cbn [mbind res_bind].
  apply (Visit_loop_ok (components s) Hstep _ n r _ _ _ []); try done.
  - by apply components_next.
  - unfold visit_fuel, string_view.size. rewrite Hlen. case_decide; lia.
Qed.
End visit.

(** The same for a visitor that never fails. *)
Lemma Visit_ok {A} (f : visitor A) I Q path s arg :
  string_view.shows path s → names_fit s →
  (∀ pre n rest sub nm arg,
    components s = pre ++ n :: components rest →
    string_view.shows sub rest → string_view.shows nm n → I pre arg →
    (∃ arg', f sub nm arg = Ok (arg', true) ∧ I (pre ++ [n]) arg')
    ∨ (∃ arg', f sub nm arg = Ok (arg', false) ∧ Q arg')) →
  I [] arg →
  (∃ arg', Visit path f arg = Ok (arg', true) ∧ I (components s) arg')
  ∨ (∃ arg', Visit path f arg = Ok (arg', false) ∧ Q arg').
Proof.
  intros Hp Hfit Hstep HI.
  destruct (Visit_outcome f I Q (λ _, False) path s arg) as [H|[H|(b & _ & [])]]; auto.
  intros pre n rest sub nm arg' Ht Hs Hn HI'. destruct (Hstep pre n rest sub nm arg' Ht Hs Hn HI'); auto.
Qed.

(** The visits of a total visitor that looks at the names only. *)
Fixpoint visit_names {A} (g : A → list Z → A * bool) (cs : list (list Z)) (arg : A) : A * bool :=
  match cs with
  | [] => (arg, true)
  | c :: cs' => let '(arg', go) := g arg c in if go then visit_names g cs' arg' else (arg', false)
  end.

Lemma visit_names_app {A} (g : A → list Z → A * bool) cs ds arg arg' :
  visit_names g cs arg = (arg', true) →
  visit_names g (cs ++ ds) arg = visit_names g ds arg'.
Proof.
  revert arg. induction cs as [|c cs IH]; intros arg Hv; simpl in *; [by simplify_eq|].
  destruct (g arg c) as [arg1 []]; [by apply IH|by simplify_eq].
Qed.

(** C21. [Visit] calls the visitor on exactly the non-empty components of the
    path, in their order, until it returns false, and terminates: repeated,
    leading and trailing separators are never shown to it. *)
Theorem Visit_components {A} (g : A → list Z → A * bool) (f : visitor A) path s arg :
  string_view.shows path s → names_fit s →
  (∀ sub nm n arg, string_view.shows nm n → f sub nm arg = Ok (g arg n)) →
  Visit path f arg = Ok (visit_names g (components s) arg).
Proof.
  intros Hp Hfit Hf.
  destruct (Visit_ok f (fun pre arg' => visit_names g pre arg = (arg', true))
              (fun arg' => visit_names g (components s) arg = (arg', false)) path s arg Hp Hfit)
    as [(arg' & -> & HI)|(arg' & -> & HQ)]; [|done|by rewrite HI|by rewrite HQ].
  intros pre n rest sub nm arg1 Ht _ Hnm HI. rewrite (Hf _ _ _ _ Hnm).
  destruct (g arg1 n) as [arg2 []] eqn:Eg.
  - left. exists arg2. split; [done|]. rewrite (visit_names_app g _ _ _ _ HI). simpl. by rewrite Eg.
  - right. exists arg2. split; [done|]. rewrite Ht, (visit_names_app g _ _ _ _ HI). simpl.
    by rewrite Eg.
Qed.

(** A visitor that counts names and stops after two of them. *)
Lemma Visit_components_witness :
  Visit (string_view.literal [47; 97; 47; 47; 98; 98; 47; 99])
    (fun _ _ n => Ok (n + 1, n <? 1)) 0 = Ok (2, false).
Proof.
  refine (Visit_components (fun n _ => (n + 1, n <? 1)) _ _ [47; 97; 47; 47; 98; 98; 47; 99] 0 _ _ _).
  - split; [reflexivity|]. split; [|by exists []]. rewrite !elem_of_cons, elem_of_nil. lia.
  - split; [simpl; lia|]. vm_compute. repeat constructor.
  - reflexivity.
Defined.

Lemma GetDepth_ok path s :
  string_view.shows path s → names_fit s →
  GetDepth path = Ok (Z.of_nat (length (components s))).
Proof.
  intros Hp Hfit. pose proof Hp as [Hlen _]. pose proof Hfit as [Hl _].
  unfold GetDepth, string_view.size.
  rewrite Hlen, (proj2 (Z.leb_le _ _)) by (unfold max_len; lia). cbn [mbind res_bind Assert].
  assert (Hc : (length (components s) ≤ S (length s))%nat).
  { clear. unfold components. etrans; [apply length_filter|].
    induction s as [|c s IH]; simpl; [done|]. destruct (c =? separator); simpl; [lia|].
    destruct (split_sep s); simpl in *; lia. }
  destruct (Visit_ok depth_visitor (fun pre d => d = Z.of_nat (length pre)) (fun _ => False)
              path s 0 Hp Hfit) as [(d & -> & HI)|(d & _ & [])]; [|done|by rewrite HI].
  intros pre n rest sub nm d Ht _ _ ->. left. eexists. split; [done|].
  apply (f_equal length) in Ht. rewrite length_app in Ht. rewrite length_app. simpl in *.
  rewrite u32_small; lia.
Qed.

(** ** Joining *)

(** The string functions that the operations on paths compute. *)
Definition is_root_str (s : list Z) : bool :=
  bool_decide (s = [47]) || bool_decide (s = [47; 46]) || bool_decide (s = [47; 46; 46]).
Definition is_dir_str (s : list Z) : bool :=
  bool_decide (s = []) || is_root_str s || bool_decide (last s = Some separator).
Definition add_sep (p : list Z) : list Z :=
  if bool_decide (p = []) || bool_decide (last p = Some separator) then p else p ++ [separator].
Definition join_name (p n : list Z) : list Z := add_sep p ++ n.
Definition join_start (p s : list Z) : list Z :=
  if bool_decide (p = []) && bool_decide (head s = Some separator) then [separator] else p.
Definition join_str (p s : list Z) : list Z :=
  foldl join_name (join_start p s) (components s) ++ (if is_dir_str s then [separator] else []).

(** The array [path_] holds the string [p] and zeros after it. *)
Definition path_repr (buf p : list Z) : Prop :=
  (length p ≤ 512)%nat ∧ 0 ∉ p ∧ buf = p ++ replicate (path_size - length p) 0.

Lemma path_repr_holds buf p : path_repr buf p → holds buf p.
Proof.
  intros (Hl & H0 & ->). split; [done|]. change path_size with 513%nat.
  exists (replicate (512 - length p) 0). by replace (513 - length p)%nat with (S (512 - length p)) by lia.
Qed.

Lemma path_repr_length buf p : path_repr buf p → length buf = path_size.
Proof.
  intros (Hl & _ & ->). rewrite length_app, length_replicate. change path_size with 513%nat. lia.
Qed.

(** Appending to the string of a path, as [strcat] and the stores do. *)
Lemma path_repr_app buf p q :
  path_repr buf p → 0 ∉ q → (length p + length q ≤ 512)%nat →
  path_repr (p ++ q ++ replicate (path_size - length (p ++ q)) 0) (p ++ q).
Proof.
  intros (_ & Hp & _) Hq Hl. split; [rewrite length_app; lia|]. split.
  - rewrite elem_of_app. tauto.
  - by rewrite <- app_assoc.
Qed.

Lemma store_sep buf p :
  path_repr buf p → (length p < 512)%nat →
  ∃ buf', store_at buf (length p) separator = Ok buf' ∧ path_repr buf' (p ++ [separator]).
Proof.
  intros Hr Hl. pose proof Hr as (_ & _ & ->). change path_size with 513%nat.
  replace (513 - length p)%nat with (S (512 - length p)) by lia. simpl replicate.
  rewrite store_at_app. eexists. split; [done|].
  pose proof (path_repr_app _ _ [separator] Hr) as Ha. change path_size with 513%nat in Ha.
  rewrite length_app in Ha. simpl in Ha.
  replace (513 - (length p + 1))%nat with (512 - length p)%nat in Ha by lia.
  apply Ha; [|lia]. rewrite list_elem_of_singleton. done.
Qed.

Lemma last_lookup_view m s v :
  string_view.shows v s → s ≠ [] → string_view.str_ v = Some m →
  (length s ≤ 512)%nat → ∃ c, string_view.back v = Ok c ∧ last s = Some c.
Proof.
  intros [Hlen Hs] Hne Hm Hl. rewrite Hm in Hs. destruct Hs as (_ & rest & ->).
  destruct (last s) as [c|] eqn:E; [|by apply last_None in E].
  exists c. split; [|done]. unfold string_view.back, string_view.at_. rewrite Hm, Hlen.
  cbn [of_option mbind res_bind]. destruct s as [|d s]; [done|]. cbn [length] in *.
  rewrite u32_small by lia. replace (Z.to_nat _) with (length s) by lia.
  rewrite last_lookup in E. simpl in E. rewrite lookup_app_l by (simpl; lia). by rewrite E.
Qed.

Lemma literal_shows s : 0 ∉ s → string_view.shows (string_view.literal s) s.
Proof. intros H0. split; [done|]. split; [done|]. by exists []. Qed.

Lemma IsRootDir_ok v s :
  string_view.shows v s → s ≠ [] → (length s ≤ 512)%nat → IsRootDir v = Ok (is_root_str s).
Proof.
  intros Hv Hne Hl. pose proof Hv as [Hlen _]. unfold IsRootDir, string_view.size. rewrite Hlen.
  rewrite (proj2 (Z.leb_le _ _)) by (unfold max_len; lia).
  rewrite (proj2 (Z.ltb_lt _ _)) by (destruct s; [done|simpl; lia]). cbn [andb mbind res_bind Assert].
  assert (Hd : ∀ q, 0 ∉ q → string_view.eqb v (string_view.literal q) = Ok (bool_decide (s = q))).
  { intros q Hq. apply string_view.eqb_ok; [done|by apply literal_shows]. }
  unfold root_dir_name, is_root_str.
  rewrite !Hd by (rewrite !elem_of_cons, elem_of_nil; lia). cbn [mbind res_bind].
  by repeat destruct (bool_decide _).
Qed.

Lemma IsDir_ok v s :
  string_view.shows v s → (length s ≤ 512)%nat → IsDir v = Ok (is_dir_str s).
Proof.
  intros Hv Hl. pose proof Hv as [Hlen Hs]. unfold IsDir, string_view.size. rewrite Hlen.
  rewrite (proj2 (Z.leb_le _ _)) by (unfold max_len; lia). cbn [mbind res_bind Assert].
  rewrite (string_view.shows_empty _ _ Hv). unfold is_dir_str.
  case_bool_decide as He; [done|]. rewrite (IsRootDir_ok _ _ Hv He Hl). cbn [mbind res_bind].
  destruct (is_root_str s); [done|]. simpl.
  destruct (string_view.str_ v) as [m|] eqn:Em; [|done].
  destruct (last_lookup_view m s v Hv He Em Hl) as (c & -> & ->). simpl. f_equal.
  destruct (Z.eqb_spec c separator) as [->|Hc].
  - by rewrite bool_decide_eq_true_2.
  - rewrite bool_decide_eq_false_2; congruence.
Qed.

Lemma IsAbsolute_ok v s :
  string_view.shows v s → (length s ≤ 512)%nat →
  IsAbsolute v = Ok (bool_decide (head s = Some separator)).
Proof.
  intros Hv Hl. pose proof Hv as [Hlen Hs]. unfold IsAbsolute, string_view.size. rewrite Hlen.
  rewrite (proj2 (Z.leb_le _ _)) by (unfold max_len; lia). cbn [mbind res_bind Assert].
  rewrite (string_view.shows_empty _ _ Hv). destruct s as [|c s]; [done|].
  rewrite bool_decide_eq_false_2 by done. cbn [negb].
  destruct (string_view.shows_cons _ _ _ Hv) as (m & Hm & _).
  unfold string_view.front, string_view.at_. rewrite Hm. simpl. f_equal.
  destruct (Z.eqb_spec c separator) as [->|Hc].
  - by rewrite bool_decide_eq_true_2.
  - rewrite bool_decide_eq_false_2; congruence.
Qed.

Lemma path_GetSize_ok buf p : path_repr buf p → GetSize buf = Ok (Z.of_nat (length p)).
Proof. intros Hr%path_repr_holds. unfold GetSize. cbn [strlen]. by apply strlen_ok. Qed.

Lemma add_sep_ok buf p :
  path_repr buf p → (length (add_sep p) ≤ 512)%nat →
  ∃ buf', append_separator buf (Z.of_nat (length p)) = Ok buf' ∧ path_repr buf' (add_sep p).
Proof.
  intros Hr. unfold add_sep, append_separator. destruct p as [|c p].
  { intros _. simpl. eauto. }
  rewrite bool_decide_eq_false_2 by done. cbn [orb]. rewrite (proj2 (Z.ltb_lt _ _)) by (simpl; lia).
  pose proof Hr as (_ & _ & Hb). rewrite Nat2Z.id.
  assert (Hlast : buf !! Z.to_nat (Z.of_nat (length (c :: p)) - 1) = last (c :: p)).
  { rewrite Hb, last_lookup, lookup_app_l by (simpl; lia). f_equal. simpl. lia. }
  rewrite Hlast. destruct (last (c :: p)) as [d|] eqn:E; [|by apply last_None in E].
  cbn [of_option mbind res_bind]. destruct (Z.eqb_spec d separator) as [->|Hd].
  - rewrite bool_decide_eq_true_2 by done. simpl negb. eauto.
  - rewrite bool_decide_eq_false_2 by congruence. cbn [negb]. rewrite length_app. cbn [length].
    intros Hl. apply (store_sep buf (c :: p)); [done|]. simpl. lia.
Qed.

(** A string that fills the array has no room for a separator: the terminator
    is overwritten, and the next look for it leaves the array. *)
Definition no_room (p : list Z) : bool := (length p =? 512)%nat && negb (bool_decide (last p = Some separator)).

Lemma add_sep_length p :
  (length p ≤ 512)%nat → (length (add_sep p) ≤ 512)%nat ∨ no_room p = true ∧ add_sep p = p ++ [separator] ∧ p ≠ [].
Proof.
  intros Hp. unfold add_sep, no_room. case_bool_decide as H1; [subst; left; simpl; lia|].
  case_bool_decide; simpl; [by left|]. rewrite length_app. simpl.
  destruct (Nat.eqb_spec (length p) 512); [right|left; lia]. by split_and!.
Qed.

Lemma overrun_ok buf p :
  path_repr buf p → no_room p = true → p ≠ [] →
  ∃ buf', append_separator buf (Z.of_nat (length p)) = Ok buf' ∧ strlen (Some buf') = Fault.
Proof.
  intros (_ & H0 & ->) Hn Hp. unfold no_room in Hn. apply andb_prop in Hn as [Hl%Nat.eqb_eq Hs%negb_true_iff].
  apply bool_decide_eq_false_1 in Hs.
  unfold append_separator. rewrite (proj2 (Z.ltb_lt _ _)) by lia. change path_size with 513%nat. rewrite Hl.
  change (replicate (513 - 512) 0) with [0]. rewrite lookup_app_l by lia.
  change (Z.to_nat (Z.of_nat 512 - 1)) with 511%nat. rewrite last_lookup, Hl in Hs. cbn [pred] in Hs.
  destruct (p !! 511%nat) as [c|] eqn:Ec; [|apply lookup_ge_None in Ec; lia]. cbn [of_option mbind res_bind].
  destruct (Z.eqb_spec c separator); [congruence|]. cbn [negb]. change (Z.to_nat (Z.of_nat 512)) with 512%nat.
  rewrite <- Hl, (store_at_app p 0 []). eexists. split; [done|]. cbn [strlen].
  apply strlen_unterminated. rewrite elem_of_app, list_elem_of_singleton. unfold separator. intros [?|?]; [done|lia].
Qed.

(** Adding a name to a path: it fits, the assertion on the sum of the lengths
    fails, or the separator overwrites the terminator. *)
Lemma join_visitor_ok buf p sub nm n :
  path_repr buf p → string_view.shows nm n → n ≠ [] →
  if no_room p then join_visitor sub nm buf = Fault
  else if decide (length (join_name p n) ≤ 512)%nat
  then ∃ buf', join_visitor sub nm buf = Ok (buf', true) ∧ path_repr buf' (join_name p n)
  else join_visitor sub nm buf = Panic.
Proof.
  intros Hr Hnm Hn. unfold join_name in *. pose proof Hr as (Hp512 & _).
  unfold join_visitor. cbn [strlen]. rewrite (strlen_ok _ _ (path_repr_holds _ _ Hr)).
  cbn [mbind res_bind]. destruct (no_room p) eqn:Er.
  { assert (Hp : p ≠ []) by (intros ->; discriminate Er). destruct (overrun_ok buf p Hr Er Hp) as (b' & -> & E).
    cbn [mbind res_bind]. cbn [strlen] in E. by rewrite E. }
  destruct (add_sep_length p Hp512) as [Hal|[? _]]; [|congruence].
  destruct (add_sep_ok buf p Hr Hal) as (buf1 & -> & Hr1). cbn [mbind res_bind].
  rewrite (strlen_ok _ _ (path_repr_holds _ _ Hr1)). cbn [mbind res_bind].
  destruct n as [|c n]; [done|]. destruct Hnm as [Hlen Hs]. unfold string_view.data.
  destruct (string_view.str_ nm) as [m|]; [|done]. cbn [strlen strcat].
  rewrite (strlen_ok _ _ Hs). cbn [mbind res_bind]. rewrite length_app.
  destruct (decide _) as [Hl|Hl].
  2: { rewrite (proj2 (Z.leb_gt _ _)) by (unfold max_len; lia). done. }
  rewrite (proj2 (Z.leb_le _ _)) by (unfold max_len; lia). cbn [mbind res_bind Assert].
  pose proof (path_repr_length _ _ Hr1) as Hbl. change path_size with 513%nat in Hbl.
  rewrite (strcat_ok _ _ _ _ (path_repr_holds _ _ Hr1) Hs) by lia. cbn [mbind res_bind].
  eexists. split; [done|]. destruct Hs as [H0 _].
  pose proof (path_repr_app _ _ _ Hr1 H0 Hl) as Ha. destruct Hr1 as (_ & _ & Hb1).
  rewrite Hb1 at 1. rewrite drop_app_ge by lia. change path_size with 513%nat in *.
  rewrite length_app in Ha.
  replace (513 - (length (add_sep p) + length (c :: n)))%nat
    with (S (512 - (length (add_sep p) + length (c :: n)))) in Ha by lia.
  simpl replicate in Ha. rewrite drop_replicate.
  replace (_ - _ - _)%nat with (512 - (length (add_sep p) + length (c :: n)))%nat by lia. exact Ha.
Qed.

Lemma join_name_length p n : (length p ≤ length (join_name p n))%nat.
Proof.
  unfold join_name, add_sep. rewrite length_app. destruct (_ || _); rewrite ?length_app; lia.
Qed.

Lemma foldl_join_length p cs : (length p ≤ length (foldl join_name p cs))%nat.
Proof.
  revert p. induction cs as [|c cs IH]; intros p; simpl; [done|].
  etrans; [apply (join_name_length p c)|apply IH].
Qed.

Lemma components_nonempty s c : c ∈ components s → c ≠ [].
Proof. intros Hc. by apply list_elem_of_filter in Hc as [? _]. Qed.

Lemma start_separator_ok buf p child s :
  path_repr buf p → string_view.shows child s → (length s ≤ 512)%nat →
  ∃ buf', start_separator buf child = Ok buf' ∧ path_repr buf' (join_start p s).
Proof.
  intros Hr Hc Hl. unfold start_separator, join_start. rewrite (path_GetSize_ok _ _ Hr).
  cbn [mbind res_bind]. destruct p as [|c p].
  - rewrite (bool_decide_eq_true_2 ([] = [])) by done. cbn [andb length Z.of_nat Z.eqb].
    rewrite (IsAbsolute_ok _ _ Hc Hl). cbn [mbind res_bind].
    case_bool_decide; [|eauto]. apply (store_sep buf []); [done|simpl; lia].
  - rewrite bool_decide_eq_false_2 by done. eexists. split; [|exact Hr]. done.
Qed.

(** Some name of [cs] meets a path without room. *)
Fixpoint overruns (q : list Z) (cs : list (list Z)) : bool :=
  match cs with [] => false | n :: cs' => no_room q || overruns (join_name q n) cs' end.

Lemma overruns_app q pre n rest :
  overruns q (pre ++ n :: rest) = overruns q pre || no_room (foldl join_name q pre)
    || overruns (join_name (foldl join_name q pre) n) rest.
Proof. revert q. induction pre as [|c pre IH]; intros q; simpl; [done|]. by rewrite IH, !orb_assoc. Qed.

Lemma no_room_name q n : no_room q = true → n ≠ [] → (512 < length (join_name q n))%nat.
Proof.
  unfold no_room, join_name, add_sep. intros [Hl%Nat.eqb_eq Hs]%andb_prop Hn. destruct n; [done|].
  apply negb_true_iff, bool_decide_eq_false_1 in Hs. rewrite length_app, (bool_decide_eq_false_2 (last q = _)) by done.
  case_bool_decide; [by subst|]. simpl. rewrite length_app. simpl. lia.
Qed.

(** A path that is too long has no room left to overrun. *)
Lemma overruns_long q cs : (512 < length q)%nat → overruns q cs = false.
Proof.
  revert q. induction cs as [|n cs IH]; intros q Hq; [done|]. simpl. unfold no_room.
  rewrite (proj2 (Nat.eqb_neq _ _)) by lia. apply IH. pose proof (join_name_length q n). lia.
Qed.

(** All outcomes of a join. *)
Lemma Join_outcome buf p child s :
  path_repr buf p → string_view.shows child s → names_fit s →
  if decide (length (join_str p s) ≤ 512)%nat
  then ∃ buf', Join buf child = Ok buf' ∧ path_repr buf' (join_str p s)
  else Join buf child = failure (negb (overruns (join_start p s) (components s))).
Proof.
  intros Hr Hc Hfit. pose proof Hc as [Hlen _]. pose proof Hfit as [Hsl _].
  unfold Join, string_view.size. rewrite Hlen, (proj2 (Z.leb_le _ _)) by (unfold max_len; lia).
  cbn [mbind res_bind Assert].
  destruct (start_separator_ok buf p child s Hr Hc Hsl) as (buf0 & -> & Hr0). cbn [mbind res_bind].
  set (q := join_start p s) in *. set (full := foldl join_name q (components s)).
  assert (Hjs : length (join_str p s) = (length full + if is_dir_str s then 1 else 0)%nat)
    by (unfold join_str; fold q full; rewrite length_app; by destruct (is_dir_str s)).
  destruct (Visit_outcome join_visitor
      (fun pre b => path_repr b (foldl join_name q pre) ∧ overruns q pre = false) (fun _ => False)
      (fun b => b = negb (overruns q (components s)) ∧ (512 < length full)%nat) child s buf0 Hc Hfit)
    as [(b1 & -> & Hr1 & Ho)|[(b1 & _ & [])|(b & -> & -> & Hfull)]]; [|by split| |].
  { intros pre n rest sub nm b Ht _ Hnm [Hb Ho]. set (cur := foldl join_name q pre) in *.
    assert (Hne : n ≠ []) by (apply (components_nonempty s); rewrite Ht; set_solver).
    assert (Hf : full = foldl join_name (join_name cur n) (components rest)) by (unfold full; by rewrite Ht, foldl_app).
    pose proof (join_visitor_ok b cur sub nm n Hb Hnm Hne) as HV. rewrite Ht, (overruns_app q pre n (components rest)), Ho. fold cur.
    destruct (no_room cur) eqn:Er.
    - right. right. exists false. split; [done|]. split; [done|]. rewrite Hf.
      pose proof (no_room_name cur n Er Hne). pose proof (foldl_join_length (join_name cur n) (components rest)). lia.
    - destruct (decide _) as [Hn|Hn].
      + left. destruct HV as (b' & -> & Hb'). exists b'. split; [done|]. rewrite foldl_app, overruns_app, Ho.
        split; [exact Hb'|]. fold cur. by rewrite Er.
      + right. right. exists true. split; [done|]. rewrite overruns_long by lia. split; [done|]. rewrite Hf.
        pose proof (foldl_join_length (join_name cur n) (components rest)). lia. }
  2: { rewrite decide_False by lia. apply failure_bind. }
  cbn [mbind res_bind]. fold full in Hr1. pose proof Hr1 as (Hf512 & _). rewrite (IsDir_ok _ _ Hc Hsl). cbn [mbind res_bind].
  unfold join_str in *. fold q full in Hjs |- *. rewrite Ho. destruct (is_dir_str s).
  2: { rewrite decide_True by lia. rewrite app_nil_r. eauto. }
  rewrite (path_GetSize_ok _ _ Hr1). cbn [mbind res_bind]. destruct (decide _) as [Hl|Hl].
  2: { rewrite (proj2 (Z.ltb_ge _ _)) by (unfold max_len; lia). done. }
  rewrite (proj2 (Z.ltb_lt _ _)) by (unfold max_len; lia). cbn [mbind res_bind Assert].
  rewrite Nat2Z.id. destruct (store_sep _ _ Hr1) as (b2 & -> & Hr2); [lia|]. cbn [mbind res_bind].
  pose proof (path_repr_length _ _ Hr2) as Hb2. change path_size with 513%nat in Hb2.
  rewrite store_at_ok by lia. eexists. split; [done|].
  replace (<[_ := 0]> b2) with b2; [done|]. symmetry. apply list_insert_id.
  destruct Hr2 as (_ & _ & ->). change path_size with 513%nat. rewrite lookup_app_r by (rewrite length_app; simpl; lia).
  apply lookup_replicate. rewrite length_app. simpl. lia.
Qed.

(** ** The components of a joined path *)

Lemma split_sep_app s t :
  split_sep (s ++ separator :: t) = split_sep s ++ split_sep t.
Proof.
  induction s as [|c s IH]; [done|]. simpl. destruct (c =? separator); [by rewrite IH|].
  rewrite IH. destruct (split_sep s) eqn:E; [|done].
  destruct s as [|d s]; simpl in E; [done|]. destruct (d =? separator); [done|].
  by destruct (split_sep s).
Qed.

Lemma components_app_sep s t : components (s ++ separator :: t) = components s ++ components t.
Proof. unfold components. by rewrite split_sep_app, filter_app. Qed.

Lemma components_name n : n ≠ [] → separator ∉ n → components n = [n].
Proof.
  intros Hn Hs. assert (Hsp : split_sep n = [n]).
  { clear Hn. induction n as [|c n IH]; [done|]. apply not_elem_of_cons in Hs as [Hc Hs]. simpl.
    rewrite (proj2 (Z.eqb_neq _ _)) by congruence. by rewrite IH. }
  unfold components. rewrite Hsp. by rewrite filter_cons_True by done.
Qed.

Lemma split_sep_names s c : c ∈ split_sep s → separator ∉ c.
Proof.
  revert c. induction s as [|d s IH]; intros c Hc; simpl in Hc.
  - apply list_elem_of_singleton in Hc as ->. apply not_elem_of_nil.
  - destruct (Z.eqb_spec d separator) as [->|Hd].
    + apply elem_of_cons in Hc as [->|Hc]; [apply not_elem_of_nil|by apply IH].
    + destruct (split_sep s) as [|w ws] eqn:E.
      * apply list_elem_of_singleton in Hc as ->. apply not_elem_of_cons.
        split; [congruence|apply not_elem_of_nil].
      * apply elem_of_cons in Hc as [->|Hc]; [|apply IH; by right].
        apply not_elem_of_cons. split; [congruence|]. apply IH. by left.
Qed.

Lemma components_add_sep p : components (add_sep p) = components p.
Proof.
  unfold add_sep. destruct (_ || _); [done|]. by rewrite components_app_sep, app_nil_r.
Qed.

Lemma add_sep_shape p : add_sep p = [] ∨ ∃ q, add_sep p = q ++ [separator].
Proof.
  unfold add_sep. destruct p as [|c p]; [by left|]. right.
  rewrite (bool_decide_eq_false_2 (c :: p = [])) by done. cbn [orb].
  case_bool_decide as Hl; [|eauto]. by apply last_Some in Hl.
Qed.

Lemma components_join_name p n :
  n ≠ [] → separator ∉ n → components (join_name p n) = components p ++ [n].
Proof.
  intros Hn Hs. unfold join_name. rewrite <- (components_add_sep p).
  destruct (add_sep_shape p) as [->|(q & ->)].
  - simpl. by apply components_name.
  - rewrite <- app_assoc. simpl. rewrite !components_app_sep, (components_name n Hn Hs).
    by rewrite app_nil_r.
Qed.

Lemma components_join_str p s : components (join_str p s) = components p ++ components s.
Proof.
  unfold join_str. transitivity (components (foldl join_name (join_start p s) (components s))).
  { destruct (is_dir_str s); [by rewrite components_app_sep, app_nil_r|by rewrite app_nil_r]. }
  assert (Hs : components (join_start p s) = components p).
  { unfold join_start. destruct p; [|done]. by destruct (_ && _). }
  rewrite <- Hs. generalize (join_start p s). clear p Hs.
  assert (Hall : Forall (fun n => n ≠ [] ∧ separator ∉ n) (components s)).
  { apply Forall_forall. intros c Hc. apply list_elem_of_filter in Hc as [Hc Hin].
    split; [done|by eapply split_sep_names]. }
  induction Hall as [|n cs [Hn Hsep] _ IH]; intros p; simpl; [by rewrite app_nil_r|].
  rewrite IH, components_join_name by done. by rewrite <- app_assoc.
Qed.

(** C22. Building a path out of another and a child: when the result fits the
    512 characters of a path, [Join] returns a terminated string whose
    components are those of the parent followed by those of the child: no name
    is lost, merged or split, whatever separators the two strings have. When it
    does not fit, an assertion stops the kernel, except that a name that meets a
    path of exactly 512 characters without a separator at its end makes [Join]
    overwrite the terminator and look for it behind the array, before the
    assertion. *)
Theorem Join_components buf p child s :
  path_repr buf p → string_view.shows child s → names_fit s →
  if decide (length (join_str p s) ≤ 512)%nat
  then ∃ buf' p', Join buf child = Ok buf' ∧ path_repr buf' p'
    ∧ components p' = components p ++ components s
    ∧ (p' = [] ∨ is_dir_str s = bool_decide (last p' = Some separator)
       ∨ components s = [])
  else Join buf child = if overruns (join_start p s) (components s) then Fault else Panic.
Proof.
  intros Hr Hc Hfit. pose proof (Join_outcome buf p child s Hr Hc Hfit) as HJ.
  destruct (decide _) as [Hl|Hl]; [|by destruct (overruns _ _)]. destruct HJ as (buf' & Hj & Hr').
  exists buf', (join_str p s). split; [done|]. split; [done|].
  split; [apply components_join_str|]. right.
  unfold join_str. destruct (is_dir_str s) eqn:Ed.
  { left. by rewrite bool_decide_eq_true_2 by by rewrite last_snoc. }
  rewrite app_nil_r. destruct (components s) as [|n cs _] eqn:Ecs using rev_ind; [by right|]. left.
  rewrite foldl_app. simpl. symmetry. apply bool_decide_eq_false_2. unfold join_name.
  assert (Hin : n ∈ components s) by (rewrite Ecs; set_solver).
  apply list_elem_of_filter in Hin as [Hn Hin%split_sep_names].
  rewrite last_app. destruct (last n) as [c|] eqn:E; [|by apply last_None in E].
  intros [= ->]. apply last_Some in E as (n' & ->). set_solver.
Qed.

Definition demo_buf : list Z := [47; 97] ++ replicate (path_size - 2) 0.

(** "/a" and "b//c/" give "/a/b/c/". *)
Lemma Join_components_witness :
  ∃ buf' p', Join demo_buf (string_view.literal [98; 47; 47; 99; 47]) = Ok buf'
    ∧ path_repr buf' p' ∧ components p' = [[97]; [98]; [99]]
    ∧ (p' = [] ∨ true = bool_decide (last p' = Some separator)
       ∨ components [98; 47; 47; 99; 47] = []).
Proof.
  refine (Join_components demo_buf [47; 97] _ [98; 47; 47; 99; 47] _ _ _).
  - split; [simpl; lia|]. split; [|reflexivity]. rewrite !elem_of_cons, elem_of_nil. lia.
  - split; [reflexivity|]. split; [|by exists []]. rewrite !elem_of_cons, elem_of_nil. lia.
  - split; [simpl; lia|]. vm_compute. repeat constructor.
Defined.

(** The finding of the full path: 512 characters and "b". *)
Lemma full_path_overruns :
  Join (replicate 512 97 ++ [0]) (string_view.literal [98]) = Fault
  ∧ Join (replicate 511 97 ++ [0; 0]) (string_view.literal [98]) = Panic.
Proof. split; vm_compute; reflexivity. Qed.

(** The path built from "/" is "//", which [IsRootDir] does not accept. *)
Lemma root_path_is_doubled :
  ∃ buf, make root_dir_name = Ok buf ∧ buf = [47; 47] ++ replicate 511 0
    ∧ (v ← string_view.of_cptr (Some buf); IsRootDir v) = Ok false.
Proof. eexists. split; [vm_compute; reflexivity|]. split; vm_compute; reflexivity. Qed.
End Path.
