(* ===== verification/ThreadSched.v ===== *)
(** * Threads and the scheduler

    [Thread] models src/include/kernel/thread/thd.h and
    src/src/kernel/thread/thd.cpp, with the clock interrupt handler of
    src/src/kernel/io/timer.cpp and the interrupt guard of
    src/src/kernel/interrupt/intr.cpp. A thread is named by its address, the
    address of the page that holds its control block and its kernel stack. The
    lists of ready and of all threads are the sequences of their tags; the tag
    list itself is in its own file.

    [SwitchThread] is assembly: here it changes which thread is current, and
    what a thread does after it was switched back in is a separate step of the
    systems of the files that use the scheduler. *)
From S2P Require Import Prelude UtilBit UtilTagList IoFileDesc StlString.

Module Thread.

(** [enum class Status] *)
Inductive Status := Died | Ready | Running | Blocked | Waiting | Hanging.

#[export] Instance Status_eq_dec : EqDecision Status.
Proof. solve_decision. Defined.

Definition page_size : Z := 4096.
Definition name_len : nat := 16.
Definition stack_guard : Z := 0x12345678.
Definition default_priority : Z := 31.
Definition max_open_file_count : nat := 8.

(** Sizes and field offsets of the frames on a kernel stack: [intr::IntrStack]
    has 19 words, [SwitchStack] 5 and [StartupStack] 8. *)
Definition sizeof_IntrStack : Z := 76.
Definition sizeof_SwitchStack : Z := 20.
Definition sizeof_StartupStack : Z := 32.
Definition IntrStack_eax : Z := 32.
Definition SwitchStack_eip : Z := 16.
Definition StartupStack_callback : Z := 24.
Definition StartupStack_arg : Z := 28.

(** The control block, and the words of the rest of the page by their offset. *)
Record t := mk {
  name_ : list Z;
  krnl_stack_ : Z;
  status_ : Status;
  priority_ : Z;
  remain_ticks_ : Z;
  elapsed_ticks_ : Z;
  proc_ : option Z;
  stack_guard_ : Z;
  file_descs_ : list Z;
  words : gmap Z Z
}.

(** A freshly allocated, zero-filled page. *)
Definition zero_page : t :=
  mk (replicate (S name_len) 0) 0 Died 0 0 0 None 0 (replicate max_open_file_count 0) ∅.

Definition with_status (s : Status) (x : t) : t :=
  mk (name_ x) (krnl_stack_ x) s (priority_ x) (remain_ticks_ x) (elapsed_ticks_ x) (proc_ x)
    (stack_guard_ x) (file_descs_ x) (words x).
Definition with_ticks (remain elapsed : Z) (x : t) : t :=
  mk (name_ x) (krnl_stack_ x) (status_ x) (priority_ x) remain elapsed (proc_ x)
    (stack_guard_ x) (file_descs_ x) (words x).
Definition with_stack (krnl_stack : Z) (ws : gmap Z Z) (x : t) : t :=
  mk (name_ x) krnl_stack (status_ x) (priority_ x) (remain_ticks_ x) (elapsed_ticks_ x) (proc_ x)
    (stack_guard_ x) (file_descs_ x) ws.
Definition with_file_descs (tab : list Z) (x : t) : t :=
  mk (name_ x) (krnl_stack_ x) (status_ x) (priority_ x) (remain_ticks_ x) (elapsed_ticks_ x)
    (proc_ x) (stack_guard_ x) tab (words x).

(** What the scheduler sees of a process. *)
Record Process := mkProcess { page_dir_ : Z; proc_file_descs_ : list Z }.

(** The state of the kernel that the scheduler keeps: the thread blocks, the
    lists, the static variables of thd.cpp and timer.cpp, the interrupt flag,
    [CR3], and [esp0] of the task state segment. *)
Record kernel := mkKernel {
  thds : gmap Z t;
  ready : list Z;
  all_thds : list Z;
  curr : Z;
  idle : option Z;
  main_thd : option Z;
  procs : gmap Z Process;
  intr_on : bool;
  ticks : Z;
  cr3 : Z;
  esp0 : Z;
  krnl_phy_addr : Z;
  timer_inited : bool;
  thread_inited : bool
}.

Definition set_thds (m : gmap Z t) (k : kernel) : kernel :=
  mkKernel m (ready k) (all_thds k) (curr k) (idle k) (main_thd k) (procs k) (intr_on k) (ticks k)
    (cr3 k) (esp0 k) (krnl_phy_addr k) (timer_inited k) (thread_inited k).
Definition set_ready (q : list Z) (k : kernel) : kernel :=
  mkKernel (thds k) q (all_thds k) (curr k) (idle k) (main_thd k) (procs k) (intr_on k) (ticks k)
    (cr3 k) (esp0 k) (krnl_phy_addr k) (timer_inited k) (thread_inited k).
Definition set_all_thds (q : list Z) (k : kernel) : kernel :=
  mkKernel (thds k) (ready k) q (curr k) (idle k) (main_thd k) (procs k) (intr_on k) (ticks k)
    (cr3 k) (esp0 k) (krnl_phy_addr k) (timer_inited k) (thread_inited k).
Definition set_curr (c : Z) (k : kernel) : kernel :=
  mkKernel (thds k) (ready k) (all_thds k) c (idle k) (main_thd k) (procs k) (intr_on k) (ticks k)
    (cr3 k) (esp0 k) (krnl_phy_addr k) (timer_inited k) (thread_inited k).
Definition set_intr (b : bool) (k : kernel) : kernel :=
  mkKernel (thds k) (ready k) (all_thds k) (curr k) (idle k) (main_thd k) (procs k) b (ticks k)
    (cr3 k) (esp0 k) (krnl_phy_addr k) (timer_inited k) (thread_inited k).
Definition set_ticks (n : Z) (k : kernel) : kernel :=
  mkKernel (thds k) (ready k) (all_thds k) (curr k) (idle k) (main_thd k) (procs k) (intr_on k) n
    (cr3 k) (esp0 k) (krnl_phy_addr k) (timer_inited k) (thread_inited k).
Definition set_cr3 (a : Z) (k : kernel) : kernel :=
  mkKernel (thds k) (ready k) (all_thds k) (curr k) (idle k) (main_thd k) (procs k) (intr_on k)
    (ticks k) a (esp0 k) (krnl_phy_addr k) (timer_inited k) (thread_inited k).
Definition set_esp0 (a : Z) (k : kernel) : kernel :=
  mkKernel (thds k) (ready k) (all_thds k) (curr k) (idle k) (main_thd k) (procs k) (intr_on k)
    (ticks k) (cr3 k) a (krnl_phy_addr k) (timer_inited k) (thread_inited k).
Definition set_idle (o : option Z) (k : kernel) : kernel :=
  mkKernel (thds k) (ready k) (all_thds k) (curr k) o (main_thd k) (procs k) (intr_on k) (ticks k)
    (cr3 k) (esp0 k) (krnl_phy_addr k) (timer_inited k) (thread_inited k).
Definition set_main_thd (o : option Z) (k : kernel) : kernel :=
  mkKernel (thds k) (ready k) (all_thds k) (curr k) (idle k) o (procs k) (intr_on k) (ticks k)
    (cr3 k) (esp0 k) (krnl_phy_addr k) (timer_inited k) (thread_inited k).
Definition set_procs (m : gmap Z Process) (k : kernel) : kernel :=
  mkKernel (thds k) (ready k) (all_thds k) (curr k) (idle k) (main_thd k) m (intr_on k) (ticks k)
    (cr3 k) (esp0 k) (krnl_phy_addr k) (timer_inited k) (thread_inited k).
Definition set_inited (timer thread : bool) (k : kernel) : kernel :=
  mkKernel (thds k) (ready k) (all_thds k) (curr k) (idle k) (main_thd k) (procs k) (intr_on k)
    (ticks k) (cr3 k) (esp0 k) (krnl_phy_addr k) timer thread.

Definition get_thd (p : Z) (k : kernel) : res t := of_option (thds k !! p).
Definition upd_thd (p : Z) (f : t → t) (k : kernel) : res kernel :=
  x ← get_thd p k;
  Ok (set_thds (<[p := f x]> (thds k)) k).

(** What the scheduler needs of the rest of the kernel: the translation of a
    kernel virtual address by the page tables, and the addresses of the code a
    new stack frame returns to. *)
Class Platform := {
  GetPhyAddr : Z → Z;
  StartupCallback_addr : Z;
  intr_exit_addr : Z
}.

(** [intr::IntrGuard]: the constructor returns what the destructor restores. *)
Definition IntrGuard_enter (k : kernel) : bool * kernel := (intr_on k, set_intr false k).
Definition IntrGuard_exit (enabled : bool) (k : kernel) : kernel :=
  if enabled then set_intr true k else k.

(** ** The two lists *)

(** The address of [tags_.general] is that of the thread; [tags_.all_thds] is
    the next member. *)
Definition sizeof_Tag : Z := 8.
Inductive TagType := General | AllThreads.
Definition tag_of (type : TagType) (thd : Z) : Z :=
  match type with General => thd | AllThreads => thd + sizeof_Tag end.
(** [GetByTag]: the address of the tag less the offset of the member. *)
Definition GetByTag (tag : Z) (type : TagType) : Z :=
  match type with AllThreads => tag - sizeof_Tag | General => tag end.

Definition ready_Find (thd : Z) (k : kernel) : bool := bool_decide (tag_of General thd ∈ ready k).
Definition ready_PushBack (thd : Z) (k : kernel) : kernel :=
  set_ready (ready k ++ [tag_of General thd]) k.
Definition ready_PushFront (thd : Z) (k : kernel) : kernel :=
  set_ready (tag_of General thd :: ready k) k.
Definition ready_IsEmpty (k : kernel) : bool := bool_decide (ready k = []).
Definition ready_Pop (k : kernel) : res (Z * kernel) :=
  match ready k with
  | [] => Panic
  | tag :: q => Ok (tag, set_ready q k)
  end.
Definition all_Find (thd : Z) (k : kernel) : bool := bool_decide (tag_of AllThreads thd ∈ all_thds k).
Definition all_PushBack (thd : Z) (k : kernel) : kernel :=
  set_all_thds (all_thds k ++ [tag_of AllThreads thd]) k.

Section platform.
Context `{Platform}.

Definition GetKrnlStackBottom (this : Z) : Z := u32 (this + page_size).
Definition GetIntrStack (this : Z) : Z := GetKrnlStackBottom this -w sizeof_IntrStack.
Definition GetSwitchStack (this : Z) : Z := GetIntrStack this -w sizeof_SwitchStack.

Definition IsKrnlThread (x : t) : bool := bool_decide (proc_ x = None).

(** Store a word at an address of the page of [this]. *)
Definition store_word (this addr val : Z) (k : kernel) : res kernel :=
  Assert ((this <=? addr) && (addr + 4 <=? this + page_size));;
  upd_thd this (fun x => with_stack (krnl_stack_ x) (<[addr - this := val]> (words x)) x) k.

Definition SetStatus (s : Status) (this : Z) (k : kernel) : res kernel :=
  upd_thd this (with_status s) k.

Definition ResetTicks (this : Z) (k : kernel) : res kernel :=
  upd_thd this (fun x => with_ticks (priority_ x) (elapsed_ticks_ x) x) k.

Definition IsStackValid (x : t) : bool := stack_guard_ x =? stack_guard.

Definition LoadPageDir (this : Z) (k : kernel) : res kernel :=
  x ← get_thd this k;
  match proc_ x with
  | Some p => pr ← of_option (procs k !! p); Ok (set_cr3 (GetPhyAddr (page_dir_ pr)) k)
  | None => Ok (set_cr3 (krnl_phy_addr k) k)
  end.

(** [GetTaskStateSeg().Update(thd)] *)
Definition TaskStateSeg_Update (thd : Z) (k : kernel) : kernel :=
  set_esp0 (GetKrnlStackBottom thd) k.

Definition LoadKrnlEnv (this : Z) (k : kernel) : res kernel :=
  k ← LoadPageDir this k;
  x ← get_thd this k;
  Ok (if IsKrnlThread x then k else TaskStateSeg_Update this k).

Definition is_blocking (s : Status) : bool :=
  match s with
  | Blocked | Hanging | Waiting => true
  | _ => false
  end.

Definition Unblock (thd : Z) (k : kernel) : res kernel :=
  x ← get_thd thd k;
  Assert (is_blocking (status_ x));;
  let '(enabled, k) := IntrGuard_enter k in
  Assert (negb (ready_Find thd k));;
  k ← SetStatus Ready thd k;
  Ok (IntrGuard_exit enabled (ready_PushFront thd k)).

(** The head of [Schedule]: a running thread goes to the end of the list. *)
Definition requeue_running (this : Z) (k : kernel) : res kernel :=
  x ← get_thd this k;
  if bool_decide (status_ x = Running) then
    Assert (negb (ready_Find this k));;
    k ← ResetTicks this k;
    k ← SetStatus Ready this k;
    Ok (ready_PushBack this k)
  else Ok k.

(** Its middle: the idle thread is woken up when no thread is ready. *)
Definition wake_idle (k : kernel) : res kernel :=
  if ready_IsEmpty k then
    Assert (bool_decide (is_Some (idle k)));;
    i ← of_option (idle k);
    Unblock i k
  else Ok k.

(** [SwitchThread(from, to)] *)
Definition SwitchThread (from to : Z) (k : kernel) : kernel := set_curr to k.

Definition Schedule (this : Z) (k : kernel) : res kernel :=
  Assert (negb (intr_on k));;
  k ← requeue_running this k;
  k ← wake_idle k;
  Assert (negb (ready_IsEmpty k));;
  '(tag, k) ← ready_Pop k;
  let next := GetByTag tag General in
  k ← LoadKrnlEnv next k;
  k ← SetStatus Running next k;
  Ok (SwitchThread this next k).

(** [Block] and [Yield] up to the switch; [IntrGuard_exit] with the returned
    flag is what the thread does when it is switched back in. *)
Definition Block (status : Status) (this : Z) (k : kernel) : res (bool * kernel) :=
  Assert (is_blocking status);;
  let '(enabled, k) := IntrGuard_enter k in
  k ← SetStatus status this k;
  k ← Schedule this k;
  Ok (enabled, k).

Definition Yield (this : Z) (k : kernel) : res (bool * kernel) :=
  let '(enabled, k) := IntrGuard_enter k in
  Assert (negb (ready_Find this k));;
  k ← SetStatus Ready this k;
  k ← Schedule this (ready_PushBack this k);
  Ok (enabled, k).

(** [Tick]: whether the thread can go on. *)
Definition Tick (this : Z) (k : kernel) : res (bool * kernel) :=
  x ← get_thd this k;
  if negb (remain_ticks_ x =? 0) then
    k ← upd_thd this (fun x => with_ticks (remain_ticks_ x -w 1) (elapsed_ticks_ x +w 1) x) k;
    Ok (true, k)
  else
    k ← upd_thd this (fun x => with_ticks (remain_ticks_ x) (elapsed_ticks_ x +w 1) x) k;
    Ok (false, k).

Definition ClockIntrHandler (k : kernel) : res kernel :=
  x ← get_thd (curr k) k;
  Assert (IsStackValid x);;
  let k := set_ticks (ticks k +w 1) k in
  '(go, k) ← Tick (curr k) k;
  if negb go then Schedule (curr k) k else Ok k.

(** [Sleep] asks for this many ticks; the loop [while (GetTicks() - start <
    sleep_ticks) Yield();] tests this condition. *)
Definition timer_freq_per_second : Z := 100.
Definition sleep_ticks (milliseconds : Z) : Z :=
  let milliseconds := Z.max 1 milliseconds in
  let milliseconds_per_intr := metric.SecondsToMilliseconds 1 / timer_freq_per_second in
  metric.RoundUpDivide milliseconds milliseconds_per_intr.
Definition keep_sleeping (start_ticks milliseconds : Z) (k : kernel) : bool :=
  (ticks k -w start_ticks) <? sleep_ticks milliseconds.

(** ** Creating threads *)

(** The control block that [Init] fills in. *)
Definition init_block (this : Z) (is_main : bool) (name : string_view.t) (priority : Z)
    (proc : option Z) (x : t) : res t :=
  name' ← (if negb (string_view.empty name)
           then cstring.strcpy_s (Some (name_ x)) (Z.of_nat (length (name_ x)))
                  (string_view.data name)
           else Ok (name_ x));
  Ok (mk name'
        (GetKrnlStackBottom this -w sizeof_IntrStack -w sizeof_StartupStack)
        (if is_main then Running else Died) priority priority 0 proc stack_guard
        (file_descs_ x) (words x)).

Definition Init (name : string_view.t) (priority : Z) (proc : option Z) (this : Z) (k : kernel)
  : res kernel :=
  x ← get_thd this k;
  Assert (bool_decide (is_Some (main_thd k)));;
  m ← of_option (main_thd k);
  x ← init_block this (m =? this) name priority proc x;
  let k := set_thds (<[this := x]> (thds k)) k in
  Assert (negb (all_Find this k));;
  Ok (all_PushBack this k).

Definition Start (callback arg : Z) (this : Z) (k : kernel) : res kernel :=
  x ← get_thd this k;
  Assert (bool_decide (status_ x = Died));;
  let startup := krnl_stack_ x in
  k ← store_word this (startup +w SwitchStack_eip) StartupCallback_addr k;
  k ← store_word this (startup +w StartupStack_callback) callback k;
  k ← store_word this (startup +w StartupStack_arg) arg k;
  k ← SetStatus Ready this k;
  Assert (negb (ready_Find this k));;
  Ok (ready_PushBack this k).

(** [mem::AllocPages<Thread>]: the allocator gives the address of a page of
    zeros, or nothing. *)
Definition alloc_thread (page : option Z) (k : kernel) : res (Z * kernel) :=
  match page with
  | Some p => Ok (p, set_thds (<[p := zero_page]> (thds k)) k)
  | None => Panic
  end.

Definition Create (page : option Z) (name : string_view.t) (priority callback arg : Z)
    (proc : option Z) (k : kernel) : res (Z * kernel) :=
  '(this, k) ← alloc_thread page k;
  k ← Init name priority proc this k;
  k ← Start callback arg this k;
  Ok (this, k).

Definition KrnlThread_Init (name : string_view.t) (priority this : Z) (k : kernel) : res kernel :=
  x ← get_thd this k;
  tab ← FileDescTab.Init (file_descs_ x);
  let k := set_thds (<[this := with_file_descs tab x]> (thds k)) k in
  Init name priority None this k.

Definition KrnlThread_Create (page : option Z) (name : string_view.t) (priority callback arg : Z)
    (k : kernel) : res (Z * kernel) :=
  '(this, k) ← alloc_thread page k;
  k ← KrnlThread_Init name priority this k;
  k ← Start callback arg this k;
  Ok (this, k).

Definition InitMain (name : string_view.t) (k : kernel) : res kernel :=
  Assert (bool_decide (main_thd k = None));;
  let k := set_main_thd (Some (curr k)) k in
  KrnlThread_Init name default_priority (curr k) k.

Definition InitIdleThread (page : option Z) (name : string_view.t) (idle_callback : Z) (k : kernel)
  : res kernel :=
  Assert (bool_decide (idle k = None));;
  '(thd, k) ← KrnlThread_Create page name 10 idle_callback 0 k;
  Ok (set_idle (Some thd) k).

Definition CopyTo (this thd : Z) (k : kernel) : res kernel :=
  x ← get_thd this k;
  let y := with_status Died (with_stack (GetKrnlStackBottom thd -w sizeof_IntrStack
                                         -w sizeof_StartupStack) (words x)
             (with_ticks (remain_ticks_ x) 0 x)) in
  ResetTicks thd (set_thds (<[thd := y]> (thds k)) k).

Definition Fork (page : option Z) (this : Z) (k : kernel) : res (Z * kernel) :=
  '(child, k) ← alloc_thread page k;
  k ← CopyTo this child k;
  k ← store_word child (GetIntrStack child +w IntrStack_eax) 0 k;
  k ← store_word child (GetSwitchStack child +w SwitchStack_eip) intr_exit_addr k;
  k ← upd_thd child (fun x => with_stack (GetSwitchStack child) (words x) x) k;
  x ← get_thd child k;
  Assert (bool_decide (status_ x = Died));;
  Assert (negb (all_Find child k));;
  k ← SetStatus Ready child (all_PushBack child k);
  Assert (negb (ready_Find child k));;
  Ok (child, ready_PushBack child k).

Definition InitThread (page : option Z) (main_name idle_name : string_view.t) (idle_callback : Z)
    (mem_inited : bool) (k : kernel) : res kernel :=
  Assert (negb (thread_inited k));;
  Assert mem_inited;;
  k ← InitMain main_name k;
  k ← InitIdleThread page idle_name idle_callback k;
  Ok (set_inited (timer_inited k) true k).

(** [Thread::GetFileDescTab]: the table of the process, or that of the kernel
    thread. *)
Definition GetFileDescTab (k : kernel) : res (list Z) :=
  x ← get_thd (curr k) k;
  if IsKrnlThread x then Ok (file_descs_ x)
  else
    Assert (bool_decide (is_Some (proc_ x)));;
    p ← of_option (proc_ x);
    pr ← of_option (procs k !! p);
    Ok (proc_file_descs_ pr).
End platform.
End Thread.
