(* ===== verification/ThreadSpec.v ===== *)
(** * The scheduler against its specification

    The abstract scheduler keeps the status of every thread, the queue of ready
    threads, the current thread and the idle thread. [Sched] states its
    invariant and proves that the operations of [Thread] refine it: they never
    stop in an assertion, and they do to the abstract state what the
    specification says. *)
From S2P Require Import Prelude UtilBit UtilTagList IoFileDesc StlString ThreadSched.
Import Thread.

Module Sched.

Record view := mkView {
  vst : gmap Z Status;
  vready : list Z;
  vcurr : Z;
  vidle : option Z
}.

Definition view_of (k : kernel) : view :=
  mkView (status_ <$> thds k) (ready k) (curr k) (idle k).

Definition v_status (p : Z) (s : Status) (v : view) : view :=
  mkView (<[p := s]> (vst v)) (vready v) (vcurr v) (vidle v).
Definition v_ready (q : list Z) (v : view) : view := mkView (vst v) q (vcurr v) (vidle v).
Definition v_curr (p : Z) (v : view) : view := mkView (vst v) (vready v) p (vidle v).

(** ** The specification *)

(** A running thread that gives the processor up is put last. *)
Definition spec_requeue (v : view) : view :=
  if decide (vst v !! vcurr v = Some Running)
  then v_ready (vready v ++ [vcurr v]) (v_status (vcurr v) Ready v)
  else v.

Definition spec_unblock (p : Z) (v : view) : view :=
  v_ready (p :: vready v) (v_status p Ready v).

Definition spec_wake_idle (v : view) : view :=
  match vready v with
  | [] => spec_unblock (default 0 (vidle v)) v
  | _ => v
  end.

(** The first ready thread runs next. *)
Definition spec_dispatch (v : view) : view :=
  match vready v with
  | [] => v
  | p :: q => v_curr p (v_status p Running (v_ready q v))
  end.

Definition spec_schedule (v : view) : view := spec_dispatch (spec_wake_idle (spec_requeue v)).
Definition spec_block (s : Status) (v : view) : view := spec_schedule (v_status (vcurr v) s v).
Definition spec_yield (v : view) : view :=
  spec_schedule (v_ready (vready v ++ [vcurr v]) (v_status (vcurr v) Ready v)).

(** ** The invariant *)

Record inv (v : view) : Prop := {
  inv_curr : is_Some (vst v !! vcurr v);
  inv_running : ∀ p, vst v !! p = Some Running → p = vcurr v;
  inv_ready : ∀ p, vst v !! p = Some Ready ↔ p ∈ vready v;
  inv_nodup : NoDup (vready v);
  inv_idle : ∃ i s, vidle v = Some i ∧ vst v !! i = Some s ∧ s ≠ Died
}.

(** Outside of the scheduler the current thread is the running one. *)
Definition wf (v : view) : Prop := inv v ∧ vst v !! vcurr v = Some Running.

(** The rest of what the scheduler relies on: a thread's process exists. *)
Definition procs_ok (k : kernel) : Prop :=
  ∀ p x q, thds k !! p = Some x → proc_ x = Some q → is_Some (procs k !! q).

(** The stack guard of every thread is intact. *)
Definition guards_ok (k : kernel) : Prop :=
  ∀ p x, thds k !! p = Some x → stack_guard_ x = stack_guard.

Definition kernel_ok (k : kernel) : Prop := wf (view_of k) ∧ procs_ok k ∧ guards_ok k.

(** What the scheduler must not touch. *)
Record same_tcb (x y : Thread.t) : Prop := {
  st_name : name_ x = name_ y;
  st_stack : krnl_stack_ x = krnl_stack_ y;
  st_words : words x = words y;
  st_priority : priority_ x = priority_ y;
  st_elapsed : elapsed_ticks_ x = elapsed_ticks_ y;
  st_proc : proc_ x = proc_ y;
  st_guard : stack_guard_ x = stack_guard_ y;
  st_files : file_descs_ x = file_descs_ y
}.

#[export] Instance same_tcb_refl : Reflexive same_tcb.
Proof. by intros x. Qed.
#[export] Instance same_tcb_trans : Transitive same_tcb.
Proof. intros x y z [] []; split; congruence. Qed.

(** Two kernels that differ in statuses, remaining ticks, the ready list, the
    current thread and the loaded context only. *)
Record frame (k k' : kernel) : Prop := {
  fr_tcb : ∀ p x, thds k !! p = Some x → ∃ y, thds k' !! p = Some y ∧ same_tcb x y;
  fr_dom : ∀ p, is_Some (thds k' !! p) → is_Some (thds k !! p);
  fr_all : all_thds k' = all_thds k;
  fr_idle : idle k' = idle k;
  fr_main : main_thd k' = main_thd k;
  fr_procs : procs k' = procs k;
  fr_ticks : ticks k' = ticks k;
  fr_dir : krnl_phy_addr k' = krnl_phy_addr k
}.

#[export] Instance frame_refl : Reflexive frame.
Proof. intros k. split; try done. intros p x Hx. by exists x. Qed.
#[export] Instance frame_trans : Transitive frame.
Proof.
  intros a b c Hab Hbc. split; try (destruct Hab, Hbc; congruence).
  - intros p x Hx. destruct (fr_tcb _ _ Hab p x Hx) as (y & Hy & ?).
    destruct (fr_tcb _ _ Hbc p y Hy) as (z & Hz & ?). exists z. split; [done|by etrans].
  - intros p Hp. by apply (fr_dom _ _ Hab), (fr_dom _ _ Hbc).
Qed.

Lemma frame_same_thds k k' :
  thds k' = thds k → all_thds k' = all_thds k → idle k' = idle k → main_thd k' = main_thd k →
  procs k' = procs k → ticks k' = ticks k → krnl_phy_addr k' = krnl_phy_addr k → frame k k'.
Proof.
  intros Ht ??????. split; try done; rewrite Ht; [|done].
  intros p x Hx. by exists x.
Qed.

Lemma procs_ok_frame k k' : frame k k' → procs_ok k → procs_ok k'.
Proof.
  intros Hf Hp p y q Hy Hq. destruct (fr_dom _ _ Hf p) as [x Hx]; [eauto|].
  destruct (fr_tcb _ _ Hf p x Hx) as (y' & Hy' & Hs). simplify_eq.
  rewrite (fr_procs _ _ Hf). eapply Hp; [done|]. by rewrite (st_proc _ _ Hs).
Qed.

Lemma guards_ok_frame k k' : frame k k' → guards_ok k → guards_ok k'.
Proof.
  intros Hf Hg p y Hy. destruct (fr_dom _ _ Hf p) as [x Hx]; [eauto|].
  destruct (fr_tcb _ _ Hf p x Hx) as (y' & Hy' & Hs). simplify_eq.
  rewrite <- (st_guard _ _ Hs). by eapply Hg.
Qed.

Lemma kernel_ok_frame k k' : frame k k' → kernel_ok k → wf (view_of k') → kernel_ok k'.
Proof.
  intros Hf (_ & Hp & Hg) Hw. split_and!; [apply Hw..|by eapply procs_ok_frame|].
  by eapply guards_ok_frame.
Qed.

(** ** The specification keeps the invariant *)

Definition no_running (v : view) : Prop := ∀ p, vst v !! p ≠ Some Running.

Lemma is_Some_insert {A} (m : gmap Z A) p q (a : A) :
  is_Some (m !! q) → is_Some (<[p := a]> m !! q).
Proof. intros Hq. rewrite lookup_insert. case_decide; eauto. Qed.

Lemma inv_idle_insert v p s :
  inv v → s ≠ Died → ∃ i s', vidle v = Some i ∧ <[p := s]> (vst v) !! i = Some s' ∧ s' ≠ Died.
Proof.
  intros Hi Hs. destruct (inv_idle _ Hi) as (i & s' & Hid & Hst & Hne).
  exists i. destruct (decide (p = i)) as [->|Hp].
  - exists s. by rewrite lookup_insert_eq.
  - exists s'. by rewrite lookup_insert_ne.
Qed.

Lemma inv_not_ready v p s : inv v → vst v !! p = Some s → s ≠ Ready → p ∉ vready v.
Proof. intros Hi Hs Hne Hp. apply (inv_ready _ Hi) in Hp. congruence. Qed.

(** A thread that leaves the running or a blocked state for the ready one. *)
Lemma inv_make_ready v p s q :
  inv v → vst v !! p = Some s → s ≠ Ready → q ≡ₚ p :: vready v →
  inv (v_ready q (v_status p Ready v)).
Proof.
  intros Hi Hs Hne Hq. pose proof (inv_not_ready _ _ _ Hi Hs Hne) as Hnin.
  split; cbn [vst vready vcurr vidle v_ready v_status].
  - apply is_Some_insert, (inv_curr _ Hi).
  - intros r. rewrite lookup_insert_Some. intros [[_ ?]|[_ Hr]]; [done|by apply (inv_running _ Hi)].
  - intros r. rewrite Hq, elem_of_cons, lookup_insert_Some, (inv_ready _ Hi).
    destruct (decide (p = r)); naive_solver.
  - rewrite Hq. apply NoDup_cons. split; [done|apply (inv_nodup _ Hi)].
  - by apply inv_idle_insert.
Qed.

Lemma requeue_inv v : inv v → inv (spec_requeue v) ∧ no_running (spec_requeue v).
Proof.
  intros Hi. unfold spec_requeue. case_decide as Hr.
  - split.
    + apply (inv_make_ready _ _ Running); [done..|]. rewrite Permutation_app_comm. done.
    + intros p. cbn. rewrite lookup_insert_Some. intros [[_ ?]|[Hne Hp]]; [done|].
      by apply Hne, eq_sym, (inv_running _ Hi).
  - split; [done|]. intros p Hp. by rewrite (inv_running _ Hi p Hp) in Hp.
Qed.

Lemma idle_blocking v i :
  inv v → no_running v → vready v = [] → vidle v = Some i →
  ∃ s, vst v !! i = Some s ∧ is_blocking s = true.
Proof.
  intros Hi Hn Hr Hid. destruct (inv_idle _ Hi) as (j & s & Hj & Hs & Hd). simplify_eq.
  exists s. split; [done|]. destruct s; try done.
  - apply (inv_ready _ Hi) in Hs. rewrite Hr in Hs. by apply elem_of_nil in Hs.
  - by apply Hn in Hs.
Qed.

Lemma wake_idle_inv v :
  inv v → no_running v →
  inv (spec_wake_idle v) ∧ no_running (spec_wake_idle v) ∧ vready (spec_wake_idle v) ≠ [].
Proof.
  intros Hi Hn. unfold spec_wake_idle. destruct (vready v) as [|p q] eqn:Er.
  - destruct (inv_idle _ Hi) as (i & s & Hid & Hs & _). rewrite Hid. cbn [default].
    destruct (idle_blocking v i Hi Hn Er Hid) as (s' & Hs' & Hb). simplify_eq.
    split_and!; [|intros r|done].
    + apply (inv_make_ready _ _ s); [done..|by destruct s|done].
    + cbn. rewrite lookup_insert_Some. intros [[_ ?]|[_ Hr]]; [done|by apply Hn in Hr].
  - rewrite Er. done.
Qed.

Lemma dispatch_wf v : inv v → no_running v → vready v ≠ [] → wf (spec_dispatch v).
Proof.
  intros Hi Hn Hne. unfold spec_dispatch. destruct (vready v) as [|p q] eqn:Er; [done|].
  pose proof (inv_nodup _ Hi) as Hnd. rewrite Er in Hnd. apply NoDup_cons in Hnd as [Hp Hnd].
  split; [split|]; cbn [vst vready vcurr vidle v_ready v_status v_curr].
  - rewrite lookup_insert_eq. done.
  - intros r. rewrite lookup_insert_Some. intros [[-> _]|[_ Hr]]; [done|by apply Hn in Hr].
  - intros r. pose proof (inv_ready _ Hi r) as Hr. rewrite Er, elem_of_cons in Hr.
    rewrite lookup_insert_Some. destruct (decide (p = r)); naive_solver.
  - done.
  - by apply inv_idle_insert.
  - by rewrite lookup_insert_eq.
Qed.

Lemma schedule_wf v : inv v → wf (spec_schedule v).
Proof.
  intros Hi. apply requeue_inv in Hi as [Hi Hn]. apply wake_idle_inv in Hi as (Hi & Hn' & Hr); [|done].
  by apply dispatch_wf.
Qed.

(** The current thread may take any status that is not the ready one. *)
Lemma inv_leave v s :
  wf v → s ≠ Ready → s ≠ Died → inv (v_status (vcurr v) s v).
Proof.
  intros [Hi Hr] Hs Hd. split; cbn [vst vready vcurr vidle v_status].
  - rewrite lookup_insert_eq. done.
  - intros p. rewrite lookup_insert_Some. intros [[? _]|[_ Hp]]; [done|by apply (inv_running _ Hi)].
  - intros p. rewrite lookup_insert_Some, <- (inv_ready _ Hi). split; [naive_solver|].
    intros Hp. right. split; [|done]. intros <-. congruence.
  - apply (inv_nodup _ Hi).
  - by apply inv_idle_insert.
Qed.

Lemma block_wf s v : wf v → is_blocking s = true → wf (spec_block s v).
Proof. intros Hw Hb. apply schedule_wf, inv_leave; [done|by destruct s|by destruct s]. Qed.

Lemma yield_wf v : wf v → wf (spec_yield v).
Proof.
  intros [Hi Hr]. apply schedule_wf, (inv_make_ready _ _ Running); [done..|].
  rewrite Permutation_app_comm. done.
Qed.

Lemma unblock_wf p s v :
  wf v → vst v !! p = Some s → is_blocking s = true → wf (spec_unblock p v).
Proof.
  intros [Hi Hr] Hs Hb. split.
  - apply (inv_make_ready _ _ s); [done..|by destruct s|done].
  - cbn. rewrite lookup_insert_ne; [done|]. intros ->. by destruct s; simplify_eq.
Qed.

(** ** What a call leaves alone *)

Definition runnable (v : view) (p : Z) : Prop :=
  vst v !! p = Some Ready ∨ vst v !! p = Some Running.
Definition parked (v : view) (p : Z) : Prop :=
  (∃ s, vst v !! p = Some s ∧ is_blocking s = true) ∧ vidle v ≠ Some p.

Lemma schedule_idle v : vidle (spec_schedule v) = vidle v.
Proof.
  unfold spec_schedule, spec_dispatch, spec_wake_idle. set (u := spec_requeue v).
  assert (Hu : vidle u = vidle v) by (unfold u, spec_requeue; by case_decide). rewrite <- Hu.
  destruct (vready u) eqn:E; cbn; by rewrite ?E.
Qed.

Lemma requeue_runnable v p : runnable v p → runnable (spec_requeue v) p.
Proof.
  unfold runnable, spec_requeue. case_decide; [|done]. cbn.
  rewrite !lookup_insert. case_decide; naive_solver.
Qed.

Lemma unblock_runnable v p q : runnable v p → runnable (spec_unblock q v) p.
Proof. unfold runnable. cbn. rewrite !lookup_insert. case_decide; naive_solver. Qed.

Lemma wake_idle_runnable v p : runnable v p → runnable (spec_wake_idle v) p.
Proof. unfold spec_wake_idle. destruct (vready v); [apply unblock_runnable|done]. Qed.

Lemma dispatch_runnable v p : runnable v p → runnable (spec_dispatch v) p.
Proof.
  unfold spec_dispatch, runnable. destruct (vready v); [done|]. cbn.
  rewrite !lookup_insert. case_decide; naive_solver.
Qed.

Lemma schedule_runnable v p : runnable v p → runnable (spec_schedule v) p.
Proof. intros. by apply dispatch_runnable, wake_idle_runnable, requeue_runnable. Qed.

(** A thread that is neither ready nor running nor the idle thread. *)
Lemma schedule_parked v p : inv v → parked v p → vst (spec_schedule v) !! p = vst v !! p.
Proof.
  intros Hi [(s & Hs & Hb) Hid]. pose proof (requeue_inv _ Hi) as [Hi1 Hn1].
  pose proof (wake_idle_inv _ Hi1 Hn1) as (Hi2 & _ & _).
  assert (H1 : vst (spec_requeue v) !! p = vst v !! p).
  { unfold spec_requeue. case_decide; [|done]. cbn. rewrite lookup_insert_ne; [done|].
    intros <-. by destruct s; simplify_eq. }
  assert (H1i : vidle (spec_requeue v) = vidle v) by (unfold spec_requeue; by case_decide).
  assert (H2 : vst (spec_wake_idle (spec_requeue v)) !! p = vst v !! p).
  { unfold spec_wake_idle. destruct (vready (spec_requeue v)); [|done]. rewrite H1i.
    destruct (inv_idle _ Hi) as (i & si & Hi' & _). rewrite Hi' in *. cbn.
    rewrite lookup_insert_ne by congruence. done. }
  unfold spec_schedule, spec_dispatch. rewrite <- H2. destruct (vready _) as [|q l] eqn:Er; [done|].
  cbn. rewrite lookup_insert_ne; [done|]. intros ->.
  assert (Hq : vst (spec_wake_idle (spec_requeue v)) !! p = Some Ready).
  { apply (inv_ready _ Hi2). rewrite Er. by left. }
  rewrite H2, Hs in Hq. by destruct s; simplify_eq.
Qed.

Lemma parked_not_curr v p : wf v → parked v p → p ≠ vcurr v.
Proof. intros [_ Hr] [(s & Hs & Hb) _] ->. by destruct s; simplify_eq. Qed.

Lemma block_parked s v p :
  wf v → is_blocking s = true → parked v p → vst (spec_block s v) !! p = vst v !! p.
Proof.
  intros Hw Hb Hp. pose proof (parked_not_curr _ _ Hw Hp) as Hne.
  unfold spec_block. rewrite schedule_parked.
  - cbn. by rewrite lookup_insert_ne by done.
  - apply inv_leave; [done|by destruct s|by destruct s].
  - destruct Hp as [(s' & Hs' & Hb') Hid]. split; [|done]. exists s'. split; [|done]. cbn.
    by rewrite lookup_insert_ne by done.
Qed.

Lemma block_runnable s v p : p ≠ vcurr v → runnable v p → runnable (spec_block s v) p.
Proof.
  intros Hne Hp. apply schedule_runnable. unfold runnable in *. cbn.
  by rewrite !lookup_insert_ne by done.
Qed.

(** The thread that blocks keeps its new status, unless it is the idle one. *)
Lemma block_curr s v :
  wf v → is_blocking s = true → vidle v ≠ Some (vcurr v) →
  vst (spec_block s v) !! vcurr v = Some s.
Proof.
  intros Hw Hb Hid. unfold spec_block. rewrite schedule_parked.
  - cbn. by rewrite lookup_insert_eq.
  - apply inv_leave; [done|by destruct s|by destruct s].
  - split; [|done]. exists s. cbn. by rewrite lookup_insert_eq.
Qed.

(** The context of the processor is that of thread [p]. *)
Definition context_of `{Platform} (p : Z) (k : kernel) : Prop :=
  ∃ x, thds k !! p = Some x ∧
    match proc_ x with
    | None => cr3 k = krnl_phy_addr k
    | Some q => ∃ pr, procs k !! q = Some pr ∧ cr3 k = GetPhyAddr (page_dir_ pr)
                      ∧ esp0 k = GetKrnlStackBottom p
    end.

(** ** Calls of the scheduler *)

(** A call by the running thread, or a clock interrupt. When it switches, the
    thread that is switched in leaves its own interrupt guard (or returns from
    its interrupt), which sets the interrupt flag to [resume]. *)
Inductive call :=
| CBlock (s : Status) (resume : bool)
| CYield (resume : bool)
| CUnblock (p : Z)
| CClock (resume : bool).

Definition run_call `{Platform} (c : call) (k : kernel) : res kernel :=
  match c with
  | CBlock s resume => '(_, k) ← Block s (curr k) k; Ok (set_intr resume k)
  | CYield resume => '(_, k) ← Yield (curr k) k; Ok (set_intr resume k)
  | CUnblock p => Unblock p k
  | CClock resume => k ← ClockIntrHandler (set_intr false k); Ok (set_intr resume k)
  end.

(** The abstract effect of a call; [out_of_ticks] says whether the clock finds
    the time slices of the running thread used up. *)
Definition spec_call (out_of_ticks : bool) (c : call) (v : view) : option view :=
  match c with
  | CBlock s _ => if is_blocking s then Some (spec_block s v) else None
  | CYield _ => Some (spec_yield v)
  | CUnblock p =>
      match vst v !! p with
      | Some s => if is_blocking s then Some (spec_unblock p v) else None
      | None => None
      end
  | CClock _ => Some (if out_of_ticks then spec_schedule v else v)
  end.

Definition out_of_ticks (k : kernel) : bool :=
  match thds k !! curr k with Some x => remain_ticks_ x =? 0 | None => false end.

Fixpoint run_calls `{Platform} (cs : list call) (k : kernel) : res kernel :=
  match cs with
  | [] => Ok k
  | c :: cs' => k ← run_call c k; run_calls cs' k
  end.

Lemma spec_call_parked out c v v' p :
  wf v → spec_call out c v = Some v' → parked v p → c ≠ CUnblock p → vst v' !! p = vst v !! p.
Proof.
  intros Hw Hs Hp Hc. pose proof (parked_not_curr _ _ Hw Hp) as Hne.
  destruct c as [s e|e|q|e]; simpl in Hs.
  - destruct (is_blocking s) eqn:Eb; simplify_eq. by apply block_parked.
  - simplify_eq. unfold spec_yield. rewrite schedule_parked.
    + cbn. by rewrite lookup_insert_ne by done.
    + destruct Hw as [Hi Hr]. apply (inv_make_ready _ _ Running); [done..|].
      rewrite Permutation_app_comm. done.
    + destruct Hp as [(s & Hst & Hb) Hid]. split; [|done]. exists s. split; [|done]. cbn.
      by rewrite lookup_insert_ne by done.
  - destruct (vst v !! q) as [s|]; [|done]. destruct (is_blocking s); simplify_eq. cbn.
    rewrite lookup_insert_ne; [done|]. by intros ->.
  - destruct out; simplify_eq; [|done]. apply schedule_parked; [by destruct Hw|done].
Qed.

Lemma spec_call_runnable out c v v' p :
  spec_call out c v = Some v' → runnable v p → p ≠ vcurr v → runnable v' p.
Proof.
  intros Hs Hp Hne. destruct c as [s e|e|q|e]; simpl in Hs.
  - destruct (is_blocking s); simplify_eq. by apply block_runnable.
  - simplify_eq. apply schedule_runnable. unfold runnable in *. cbn.
    by rewrite !lookup_insert_ne by done.
  - destruct (vst v !! q) as [s|]; [|done]. destruct (is_blocking s); simplify_eq.
    by apply unblock_runnable.
  - destruct out; simplify_eq; [by apply schedule_runnable|done].
Qed.

Lemma spec_call_idle out c v v' : spec_call out c v = Some v' → vidle v' = vidle v.
Proof.
  intros Hs. destruct c as [s e|e|q|e]; simpl in Hs.
  - destruct (is_blocking s); simplify_eq. etrans; [apply schedule_idle|done].
  - simplify_eq. etrans; [apply schedule_idle|done].
  - destruct (vst v !! q) as [s|]; [|done]. by destruct (is_blocking s); simplify_eq.
  - destruct out; simplify_eq; [apply schedule_idle|done].
Qed.

Section refinement.
Context `{Platform}.

Lemma view_lookup k p : vst (view_of k) !! p = status_ <$> thds k !! p.
Proof. apply lookup_fmap. Qed.

Lemma view_IntrGuard_exit e k : view_of (IntrGuard_exit e k) = view_of k.
Proof. by destruct e. Qed.

Lemma view_set_ready q k : view_of (set_ready q k) = v_ready q (view_of k).
Proof. done. Qed.

Lemma frame_set_ready q k : frame k (set_ready q k).
Proof. by apply frame_same_thds. Qed.

Lemma frame_set_intr b k : frame k (set_intr b k).
Proof. by apply frame_same_thds. Qed.

Lemma frame_IntrGuard_exit e k : frame k (IntrGuard_exit e k).
Proof. destruct e; [apply frame_set_intr|done]. Qed.

Lemma get_view k p s :
  vst (view_of k) !! p = Some s → ∃ x, thds k !! p = Some x ∧ status_ x = s.
Proof. rewrite view_lookup. intros Hs%fmap_Some. destruct Hs as (x & ? & ->). eauto. Qed.

Lemma upd_thd_ok k p f x :
  thds k !! p = Some x → upd_thd p f k = Ok (set_thds (<[p := f x]> (thds k)) k).
Proof. intros Hx. unfold upd_thd, get_thd. by rewrite Hx. Qed.

Lemma upd_frame k p f x :
  thds k !! p = Some x → same_tcb x (f x) → frame k (set_thds (<[p := f x]> (thds k)) k).
Proof.
  intros Hx Hs. split; try done; cbn [thds set_thds].
  - intros q y Hy. destruct (decide (q = p)) as [->|Hne].
    + simplify_eq. rewrite lookup_insert_eq. by eexists.
    + rewrite lookup_insert_ne by done. by exists y.
  - intros q. destruct (decide (q = p)) as [->|Hne]; [eauto|]. by rewrite lookup_insert_ne.
Qed.

Lemma SetStatus_ok k p s :
  is_Some (vst (view_of k) !! p) →
  ∃ k', SetStatus s p k = Ok k' ∧ view_of k' = v_status p s (view_of k) ∧ frame k k'
    ∧ intr_on k' = intr_on k ∧ cr3 k' = cr3 k ∧ esp0 k' = esp0 k.
Proof.
  intros [s0 Hs]. apply get_view in Hs as (x & Hx & _). unfold SetStatus.
  rewrite (upd_thd_ok _ _ _ _ Hx). eexists. split; [done|]. split_and!; try done.
  - unfold view_of, v_status. cbn. by rewrite fmap_insert.
  - by apply upd_frame.
Qed.

Lemma ResetTicks_ok k p :
  is_Some (vst (view_of k) !! p) →
  ∃ k', ResetTicks p k = Ok k' ∧ view_of k' = view_of k ∧ frame k k'
    ∧ intr_on k' = intr_on k ∧ cr3 k' = cr3 k ∧ esp0 k' = esp0 k.
Proof.
  intros [s0 Hs]. apply get_view in Hs as (x & Hx & Hs). unfold ResetTicks.
  rewrite (upd_thd_ok _ _ _ _ Hx). eexists. split; [done|]. split_and!; try done.
  - unfold view_of. cbn. rewrite fmap_insert. f_equal. apply insert_id.
    by rewrite lookup_fmap, Hx.
  - by apply upd_frame.
Qed.

Lemma LoadKrnlEnv_ok k p :
  procs_ok k → is_Some (vst (view_of k) !! p) →
  ∃ k', LoadKrnlEnv p k = Ok k' ∧ view_of k' = view_of k ∧ frame k k' ∧ intr_on k' = intr_on k
    ∧ context_of p k'.
Proof.
  intros Hp [s Hs]. apply get_view in Hs as (x & Hx & _).
  unfold LoadKrnlEnv, LoadPageDir, get_thd. rewrite Hx. cbn [of_option mbind res_bind].
  unfold IsKrnlThread, context_of. destruct (proc_ x) as [q|] eqn:Eq.
  - destruct (Hp p x q Hx Eq) as [pr Hpr]. rewrite Hpr. cbn. rewrite Hx. cbn.
    rewrite bool_decide_eq_false_2 by congruence. eexists. split; [done|].
    split; [done|]. split; [|split; [done|]].
    + by apply frame_same_thds.
    + exists x. split; [done|]. rewrite Eq. by exists pr.
  - cbn. rewrite Hx. cbn. rewrite bool_decide_eq_true_2 by done. eexists. split; [done|].
    split; [done|]. split; [|split; [done|]].
    + by apply frame_same_thds.
    + exists x. split; [done|]. by rewrite Eq.
Qed.

Lemma blocking_status_not s : is_blocking s = true → s ≠ Ready ∧ s ≠ Running ∧ s ≠ Died.
Proof. by destruct s. Qed.

Lemma not_ready_Find k p :
  p ∉ ready k → ready_Find p k = false.
Proof. intros. unfold ready_Find. by apply bool_decide_eq_false_2. Qed.

Lemma Unblock_ok k p s :
  vst (view_of k) !! p = Some s → is_blocking s = true → p ∉ ready k →
  ∃ k', Unblock p k = Ok k' ∧ view_of k' = spec_unblock p (view_of k) ∧ frame k k'
    ∧ intr_on k' = intr_on k.
Proof.
  intros Hs Hb Hr. pose proof (get_view _ _ _ Hs) as (x & Hx & Ex).
  unfold Unblock, get_thd. rewrite Hx. cbn [of_option mbind res_bind]. rewrite Ex, Hb.
  cbn [mbind res_bind Assert IntrGuard_enter].
  rewrite not_ready_Find by done. cbn [negb Assert mbind res_bind].
  destruct (SetStatus_ok (set_intr false k) p Ready) as (k1 & -> & Hv & Hf & Hi & _).
  { eexists. exact Hs. }
  cbn [mbind res_bind]. eexists. split; [done|]. split_and!.
  - rewrite view_IntrGuard_exit. unfold ready_PushFront. rewrite view_set_ready, Hv.
    change (ready k1) with (vready (view_of k1)). by rewrite Hv.
  - etrans; [apply (frame_set_intr false)|]. etrans; [exact Hf|].
    etrans; [|apply frame_IntrGuard_exit]. apply frame_set_ready.
  - unfold IntrGuard_exit. destruct (intr_on k) eqn:E; [done|]. exact Hi.
Qed.

Lemma requeue_running_ok k :
  inv (view_of k) →
  ∃ k', requeue_running (curr k) k = Ok k' ∧ view_of k' = spec_requeue (view_of k) ∧ frame k k'
    ∧ intr_on k' = intr_on k.
Proof.
  intros Hi. destruct (inv_curr _ Hi) as [s Hs]. change (vcurr (view_of k)) with (curr k) in Hs.
  pose proof (get_view _ _ _ Hs) as (x & Hx & Ex).
  unfold requeue_running, get_thd. rewrite Hx. cbn [of_option mbind res_bind]. rewrite Ex.
  unfold spec_requeue. change (vcurr (view_of k)) with (curr k). rewrite Hs.
  case_bool_decide as Hr.
  - subst s. rewrite Hr in *. rewrite decide_True by done.
    rewrite not_ready_Find by (eapply (inv_not_ready _ _ _ Hi); [exact Hs|done]).
    cbn [negb Assert mbind res_bind].
    destruct (ResetTicks_ok k (curr k)) as (k1 & -> & Hv1 & Hf1 & Hi1 & _); [by eexists|].
    cbn [mbind res_bind].
    destruct (SetStatus_ok k1 (curr k) Ready) as (k2 & -> & Hv2 & Hf2 & Hi2 & _).
    { rewrite Hv1. by eexists. }
    cbn [mbind res_bind]. eexists. split; [done|]. split_and!.
    + unfold ready_PushBack. rewrite view_set_ready.
      change (ready k2) with (vready (view_of k2)). by rewrite Hv2, Hv1.
    + etrans; [exact Hf1|]. etrans; [exact Hf2|]. apply frame_set_ready.
    + rewrite <- Hi1, <- Hi2. done.
  - rewrite decide_False by congruence. exists k. by split_and!.
Qed.

Lemma wake_idle_ok k :
  inv (view_of k) → no_running (view_of k) →
  ∃ k', wake_idle k = Ok k' ∧ view_of k' = spec_wake_idle (view_of k) ∧ frame k k'
    ∧ intr_on k' = intr_on k.
Proof.
  intros Hi Hn. unfold wake_idle, ready_IsEmpty, spec_wake_idle.
  change (vready (view_of k)) with (ready k). destruct (ready k) as [|p q] eqn:Er.
  - rewrite bool_decide_eq_true_2 by done. destruct (inv_idle _ Hi) as (i & s & Hid & Hs & _).
    change (vidle (view_of k)) with (idle k) in *. rewrite Hid.
    destruct (idle_blocking _ i Hi Hn Er Hid) as (s' & Hs' & Hb).
    rewrite bool_decide_eq_true_2 by done. cbn [of_option Assert mbind res_bind default].
    apply (Unblock_ok k i s'); [done..|]. rewrite Er. apply not_elem_of_nil.
  - rewrite bool_decide_eq_false_2 by done. exists k. by split_and!.
Qed.

Lemma Schedule_ok k :
  inv (view_of k) → procs_ok k → intr_on k = false →
  ∃ k', Schedule (curr k) k = Ok k' ∧ view_of k' = spec_schedule (view_of k) ∧ frame k k'
    ∧ intr_on k' = false ∧ context_of (curr k') k'.
Proof.
  intros Hi Hp Hint. unfold Schedule. rewrite Hint. cbn [negb Assert mbind res_bind].
  destruct (requeue_running_ok k Hi) as (k1 & -> & Hv1 & Hf1 & Hi1). cbn [mbind res_bind].
  pose proof (requeue_inv _ Hi) as [Hinv1 Hn1]. rewrite <- Hv1 in Hinv1, Hn1.
  destruct (wake_idle_ok k1 Hinv1 Hn1) as (k2 & -> & Hv2 & Hf2 & Hi2). cbn [mbind res_bind].
  pose proof (wake_idle_inv _ Hinv1 Hn1) as (Hinv2 & Hn2 & Hr2). rewrite <- Hv2 in Hinv2, Hn2, Hr2.
  unfold ready_IsEmpty, ready_Pop. destruct (ready k2) as [|p q] eqn:Er.
  { by change (ready k2) with (vready (view_of k2)) in Er. }
  rewrite bool_decide_eq_false_2 by done. cbn [negb Assert mbind res_bind GetByTag].
  assert (Hpst : vst (view_of k2) !! p = Some Ready).
  { apply (inv_ready _ Hinv2). change (vready (view_of k2)) with (ready k2). rewrite Er. by left. }
  assert (Hf12 : frame k (set_ready q k2)).
  { etrans; [exact Hf1|]. etrans; [exact Hf2|]. apply frame_set_ready. }
  destruct (LoadKrnlEnv_ok (set_ready q k2) p) as (k3 & -> & Hv3 & Hf3 & Hi3 & Hc3).
  { by apply (procs_ok_frame k). }
  { eexists. exact Hpst. }
  cbn [mbind res_bind].
  destruct (SetStatus_ok k3 p Running) as (k4 & -> & Hv4 & Hf4 & Hi4 & Hcr & Hesp).
  { rewrite Hv3. by exists Ready. }
  cbn [mbind res_bind]. eexists. split; [done|]. split_and!.
  - change (view_of (SwitchThread (curr k) p k4)) with (v_curr p (view_of k4)).
    rewrite Hv4, Hv3, view_set_ready. unfold spec_schedule, spec_dispatch.
    rewrite <- Hv1, <- Hv2. change (vready (view_of k2)) with (ready k2). by rewrite Er.
  - etrans; [exact Hf12|]. etrans; [exact Hf3|]. etrans; [exact Hf4|]. by apply frame_same_thds.
  - cbn. rewrite Hi4, Hi3. cbn. congruence.
  - cbn. destruct Hc3 as (x & Hx & Hctx). destruct (fr_tcb _ _ Hf4 p x Hx) as (y & Hy & Hs).
    exists y. split; [done|]. rewrite <- (st_proc _ _ Hs). destruct (proc_ x) as [r|]; cbn.
    + rewrite Hcr, Hesp, (fr_procs _ _ Hf4). done.
    + rewrite Hcr, (fr_dir _ _ Hf4). done.
Qed.

Lemma Block_ok k s :
  kernel_ok k → is_blocking s = true →
  ∃ k', Block s (curr k) k = Ok (intr_on k, k') ∧ view_of k' = spec_block s (view_of k)
    ∧ frame k k' ∧ intr_on k' = false ∧ context_of (curr k') k'.
Proof.
  intros (Hw & Hp & _) Hb. unfold Block. rewrite Hb. cbn [Assert mbind res_bind IntrGuard_enter].
  destruct (SetStatus_ok (set_intr false k) (curr k) s) as (k1 & -> & Hv1 & Hf1 & Hi1 & _).
  { destruct Hw as [_ Hr]. by exists Running. }
  cbn [mbind res_bind]. assert (Hc1 : curr k1 = curr k).
  { change (curr k1) with (vcurr (view_of k1)). by rewrite Hv1. }
  destruct (Schedule_ok k1) as (k2 & Hs & Hv2 & Hf2 & Hi2 & Hc2).
  - rewrite Hv1. apply inv_leave; [done|by destruct s|by destruct s].
  - eapply procs_ok_frame; [|exact Hp]. etrans; [apply (frame_set_intr false)|exact Hf1].
  - done.
  - rewrite Hc1 in Hs. rewrite Hs. cbn [mbind res_bind]. eexists. split; [done|]. split_and!; try done.
    + rewrite Hv2, Hv1. done.
    + etrans; [apply (frame_set_intr false)|]. by etrans.
Qed.

Lemma Yield_ok k :
  kernel_ok k →
  ∃ k', Yield (curr k) k = Ok (intr_on k, k') ∧ view_of k' = spec_yield (view_of k)
    ∧ frame k k' ∧ intr_on k' = false ∧ context_of (curr k') k'.
Proof.
  intros (Hw & Hp & _). pose proof Hw as [Hi Hr]. unfold Yield. cbn [IntrGuard_enter].
  rewrite not_ready_Find by (eapply (inv_not_ready _ _ _ Hi); [exact Hr|done]).
  cbn [negb Assert mbind res_bind].
  destruct (SetStatus_ok (set_intr false k) (curr k) Ready) as (k1 & -> & Hv1 & Hf1 & Hi1 & _).
  { by exists Running. }
  cbn [mbind res_bind]. assert (curr k1 = curr k ∧ ready k1 = ready k) as [Hc1 Hr1].
  { change (curr k1) with (vcurr (view_of k1)). change (ready k1) with (vready (view_of k1)).
    by rewrite Hv1. }
  assert (Hvp : view_of (ready_PushBack (curr k) k1)
                = v_ready (ready k ++ [curr k]) (v_status (curr k) Ready (view_of k))).
  { unfold ready_PushBack. rewrite view_set_ready, Hv1, Hr1. done. }
  destruct (Schedule_ok (ready_PushBack (curr k) k1)) as (k2 & Hs & Hv2 & Hf2 & Hi2 & Hc2).
  - rewrite Hvp. apply (inv_make_ready _ _ Running); [done..|]. rewrite Permutation_app_comm. done.
  - eapply procs_ok_frame; [|exact Hp].
    etrans; [apply (frame_set_intr false)|]. etrans; [exact Hf1|]. apply frame_set_ready.
  - done.
  - change (curr (ready_PushBack (curr k) k1)) with (curr k1) in Hs. rewrite Hc1 in Hs.
    rewrite Hs. cbn [mbind res_bind]. eexists. split; [done|]. split_and!; try done.
    + rewrite Hv2, Hvp. done.
    + etrans; [apply (frame_set_intr false)|]. etrans; [exact Hf1|].
      etrans; [|exact Hf2]. apply frame_set_ready.
Qed.

(** The clock: the ticks of the running thread, and the scheduler when there
    are none left. *)
Lemma Tick_ok k p x :
  thds k !! p = Some x →
  let y := with_ticks (if remain_ticks_ x =? 0 then remain_ticks_ x else remain_ticks_ x -w 1)
             (elapsed_ticks_ x +w 1) x in
  Tick p k = Ok (negb (remain_ticks_ x =? 0), set_thds (<[p := y]> (thds k)) k).
Proof.
  intros Hx. cbn zeta. unfold Tick, get_thd. rewrite Hx. cbn [of_option mbind res_bind].
  destruct (remain_ticks_ x =? 0); cbn [negb]; by rewrite (upd_thd_ok _ _ _ _ Hx).
Qed.

Lemma insert_ticks_ok k p x y :
  thds k !! p = Some x → status_ y = status_ x → proc_ y = proc_ x →
  stack_guard_ y = stack_guard_ x →
  let k' := set_thds (<[p := y]> (thds k)) k in
  view_of k' = view_of k ∧ (procs_ok k → procs_ok k') ∧ (guards_ok k → guards_ok k').
Proof.
  intros Hx Hs Hpr Hg. split_and!.
  - unfold view_of. cbn. rewrite fmap_insert, Hs. f_equal. apply insert_id.
    by rewrite lookup_fmap, Hx.
  - intros Hp q z r. cbn. rewrite lookup_insert_Some. intros [[<- <-]|[_ Hz]] Hr; [|eauto].
    rewrite Hpr in Hr. eauto.
  - intros Hgs q z. cbn. rewrite lookup_insert_Some. intros [[<- <-]|[_ Hz]]; [|eauto].
    rewrite Hg. eauto.
Qed.

Lemma ClockIntrHandler_ok k x :
  kernel_ok k → intr_on k = false → thds k !! curr k = Some x →
  ∃ k', ClockIntrHandler k = Ok k'
    ∧ view_of k' = (if remain_ticks_ x =? 0 then spec_schedule (view_of k) else view_of k)
    ∧ kernel_ok k' ∧ intr_on k' = false ∧ ticks k' = ticks k +w 1
    ∧ (remain_ticks_ x ≠ 0 →
       thds k' = <[curr k := with_ticks (remain_ticks_ x -w 1) (elapsed_ticks_ x +w 1) x]> (thds k)).
Proof.
  intros (Hw & Hp & Hg) Hint Hx. unfold ClockIntrHandler, get_thd. rewrite Hx.
  cbn [of_option mbind res_bind].
  rewrite (proj2 (Z.eqb_eq (stack_guard_ x) stack_guard) (Hg _ _ Hx) : IsStackValid x = true).
  cbn [Assert mbind res_bind].
  change (curr (set_ticks (ticks k +w 1) k)) with (curr k).
  rewrite (Tick_ok (set_ticks (ticks k +w 1) k) (curr k) x Hx). cbn [mbind res_bind].
  set (y := with_ticks _ _ x). set (k1 := set_thds _ _).
  destruct (insert_ticks_ok (set_ticks (ticks k +w 1) k) (curr k) x y Hx) as (Hv & Hp1 & Hg1);
    [done..|]. fold k1 in Hv, Hp1, Hg1.
  change (view_of (set_ticks (ticks k +w 1) k)) with (view_of k) in Hv.
  destruct (remain_ticks_ x =? 0) eqn:Er; cbn [negb].
  - destruct (Schedule_ok k1) as (k2 & Hs & Hv2 & Hf2 & Hi2 & _).
    { rewrite Hv. by destruct Hw. }
    { by apply Hp1. }
    { done. }
    rewrite Hs. exists k2. split; [done|].
    split; [by rewrite Hv2, Hv|]. split; [|split; [done|split]].
    + split; [rewrite Hv2, Hv; apply schedule_wf; by destruct Hw|].
      split; [eapply procs_ok_frame|eapply guards_ok_frame]; try exact Hf2; auto.
    + by rewrite (fr_ticks _ _ Hf2).
    + intros Hne. by apply Z.eqb_eq in Er.
  - exists k1. split; [done|]. split; [done|]. split; [|done].
    split; [by rewrite Hv|]. split; auto.
Qed.

Lemma run_call_ok c k v :
  kernel_ok k → spec_call (out_of_ticks k) c (view_of k) = Some v →
  ∃ k', run_call c k = Ok k' ∧ view_of k' = v ∧ kernel_ok k'.
Proof.
  intros Hk Hs. pose proof Hk as (Hw & Hp & Hg). destruct c as [s e|e|p|e]; simpl in Hs.
  - destruct (is_blocking s) eqn:Eb; simplify_eq.
    destruct (Block_ok k s Hk Eb) as (k1 & Hb & Hv1 & Hf1 & _). cbn [run_call]. rewrite Hb.
    cbn [mbind res_bind]. eexists. split; [done|]. split; [done|].
    apply (kernel_ok_frame k); [|done|].
    + etrans; [exact Hf1|apply frame_set_intr].
    + change (wf (view_of k1)). rewrite Hv1. by apply block_wf.
  - simplify_eq. destruct (Yield_ok k Hk) as (k1 & Hb & Hv1 & Hf1 & _). cbn [run_call]. rewrite Hb.
    cbn [mbind res_bind]. eexists. split; [done|]. split; [done|].
    apply (kernel_ok_frame k); [|done|].
    + etrans; [exact Hf1|apply frame_set_intr].
    + change (wf (view_of k1)). rewrite Hv1. by apply yield_wf.
  - destruct (status_ <$> thds k !! p) as [s|] eqn:Es; rewrite lookup_fmap, Es in Hs; [|done].
    destruct (is_blocking s) eqn:Eb; simplify_eq.
    assert (Hst : vst (view_of k) !! p = Some s) by by rewrite view_lookup.
    destruct (Unblock_ok k p s Hst Eb) as (k1 & Hu & Hv1 & Hf1 & _).
    { apply (inv_not_ready _ _ _ (proj1 Hw) Hst). by destruct s. }
    exists k1. split; [done|]. split; [done|]. apply (kernel_ok_frame k); [done..|].
    rewrite Hv1. by eapply unblock_wf.
  - simplify_eq. pose proof Hw as [_ Hr]. apply get_view in Hr as (x & Hx & _).
    destruct (ClockIntrHandler_ok (set_intr false k) x) as (k1 & Hc & Hv1 & Hk1 & _); [done..|].
    cbn [run_call]. rewrite Hc. cbn [mbind res_bind]. eexists. split; [done|]. split; [|exact Hk1].
    change (view_of k1 = if out_of_ticks k then spec_schedule (view_of k) else view_of k).
    unfold out_of_ticks. change (thds k !! curr k = Some x) in Hx. by rewrite Hx.
Qed.

(** ** Sequences of calls *)

(** Every call of the list is one the scheduler accepts when it is made. *)
Fixpoint legal_calls (cs : list call) (k : kernel) : bool :=
  match cs with
  | [] => true
  | c :: cs' =>
      bool_decide (is_Some (spec_call (out_of_ticks k) c (view_of k)))
      && match run_call c k with Ok k' => legal_calls cs' k' | _ => true end
  end.

Inductive spec_calls : view → list call → view → Prop :=
| spec_calls_nil v : spec_calls v [] v
| spec_calls_cons out v c cs v1 v2 :
    spec_call out c v = Some v1 → spec_calls v1 cs v2 → spec_calls v (c :: cs) v2.

Lemma run_calls_ok cs k :
  kernel_ok k → legal_calls cs k = true →
  ∃ k', run_calls cs k = Ok k' ∧ kernel_ok k' ∧ spec_calls (view_of k) cs (view_of k').
Proof.
  revert k. induction cs as [|c cs IH]; intros k Hk Hl; simpl in Hl.
  { exists k. split; [done|]. split; [done|constructor]. }
  apply andb_true_iff in Hl as [[v Hv]%bool_decide_eq_true Hl].
  destruct (run_call_ok c k v Hk Hv) as (k1 & Hr & Hv1 & Hk1). rewrite Hr in Hl.
  destruct (IH k1 Hk1 Hl) as (k2 & Hr2 & Hk2 & Hs2).
  exists k2. cbn [run_calls]. rewrite Hr. split; [done|]. split; [done|].
  econstructor; [exact Hv|]. by rewrite <- Hv1.
Qed.

Lemma run_calls_app cs ds k k1 :
  run_calls cs k = Ok k1 → run_calls (cs ++ ds) k = run_calls ds k1.
Proof.
  revert k. induction cs as [|c cs IH]; intros k Hr; cbn [run_calls app] in *; [by simplify_eq|].
  destruct (run_call c k); [by apply IH|done..].
Qed.

(** C14. No sequence of blocks, yields, wake-ups and clock interrupts makes
    the scheduler stop in an assertion or follow a bad pointer, and after
    every prefix exactly the current thread is running, the ready list holds
    exactly the ready threads, each once, and the idle thread is alive; each
    call does to the statuses and the ready list what the specification
    says. *)
Theorem run_calls_refine cs k :
  kernel_ok k → legal_calls cs k = true →
  ∃ k', run_calls cs k = Ok k' ∧ kernel_ok k' ∧ spec_calls (view_of k) cs (view_of k').
Proof. apply run_calls_ok. Qed.

(** C15. [Schedule] switches to the thread at the head of the ready list,
    where a thread that was still running has been put last, and to the idle
    thread when there is none; the processor then has the page directory and
    the kernel stack of that thread, and no control block lost anything but
    its status and its remaining ticks. *)
Theorem Schedule_picks_head k :
  inv (view_of k) → procs_ok k → intr_on k = false →
  ∃ k', Schedule (curr k) k = Ok k' ∧ wf (view_of k') ∧ context_of (curr k') k' ∧ frame k k'
    ∧ match ready k ++ (if decide (status_ <$> thds k !! curr k = Some Running)
                        then [curr k] else []) with
      | p :: q => curr k' = p ∧ ready k' = q
      | [] => idle k = Some (curr k') ∧ ready k' = []
      end.
Proof.
  intros Hi Hp Hint. destruct (Schedule_ok k Hi Hp Hint) as (k' & Hs & Hv & Hf & _ & Hc).
  exists k'. split; [done|]. split; [rewrite Hv; by apply schedule_wf|]. split; [done|].
  split; [done|].
  change (curr k') with (vcurr (view_of k')). change (ready k') with (vready (view_of k')).
  rewrite Hv. rewrite <- (view_lookup k (curr k)). unfold spec_schedule, spec_requeue.
  change (vcurr (view_of k)) with (curr k). destruct (inv_idle _ Hi) as (i & s & Hid & _ & _).
  change (vidle (view_of k)) with (idle k) in Hid.
  unfold spec_wake_idle. case_decide; cbn [vready v_ready view_of]; rewrite ?app_nil_r.
  - destruct (ready k ++ [curr k]) as [|p q] eqn:E; [by apply app_nil in E as [_ ?]|]. done.
  - unfold spec_dispatch. change (vready (view_of k)) with (ready k).
    destruct (ready k) as [|p q] eqn:E; cbn; rewrite ?E; [by rewrite Hid|done].
Qed.

(** ** Round robin *)

(** The running thread and the ready ones, in the order they will run. *)
Definition run_order (v : view) : list Z := vcurr v :: vready v.

Definition gives_up (k : kernel) (c : call) : bool :=
  match c with
  | CYield _ => true
  | CClock _ => out_of_ticks k
  | _ => false
  end.

Fixpoint all_give_up (cs : list call) (k : kernel) : bool :=
  match cs with
  | [] => true
  | c :: cs' =>
      gives_up k c && match run_call c k with Ok k' => all_give_up cs' k' | _ => true end
  end.

Lemma dispatch_app v q p :
  vready v = q ++ [p] → run_order (spec_dispatch (spec_wake_idle v)) = q ++ [p].
Proof.
  intros Hr. unfold spec_wake_idle, spec_dispatch. rewrite Hr. by destruct q; cbn in *; rewrite Hr.
Qed.

Lemma gives_up_rotates k c v :
  kernel_ok k → gives_up k c = true → spec_call (out_of_ticks k) c (view_of k) = Some v →
  run_order v = ready k ++ [curr k].
Proof.
  intros ((Hi & Hr) & _) Hg Hs. destruct c as [s e|e|p e|e]; try done; simpl in *.
  - simplify_eq. unfold spec_yield, spec_schedule, spec_requeue.
    rewrite decide_False; [by apply dispatch_app|]. cbn. by rewrite lookup_insert_eq.
  - rewrite Hg in Hs. simplify_eq. unfold spec_schedule, spec_requeue.
    rewrite decide_True by done. by apply dispatch_app.
Qed.

Lemma round_robin_ok cs k :
  kernel_ok k → all_give_up cs k = true → (length cs ≤ length (ready k))%nat →
  ∃ k', run_calls cs k = Ok k' ∧ kernel_ok k'
    ∧ run_order (view_of k') = drop (length cs) (run_order (view_of k))
                               ++ take (length cs) (run_order (view_of k)).
Proof.
  revert k. induction cs as [|c cs IH]; intros k Hk Hg Hl.
  { exists k. split; [done|]. split; [done|]. cbn [length]. by rewrite drop_0, take_0, app_nil_r. }
  apply andb_true_iff in Hg as [Hg Hgs].
  assert (Hv : is_Some (spec_call (out_of_ticks k) c (view_of k))) by (destruct c; simpl in Hg; try done; by eexists).
  destruct Hv as [v Hv]. destruct (run_call_ok c k v Hk Hv) as (k1 & Hr & Hv1 & Hk1).
  pose proof (gives_up_rotates k c v Hk Hg Hv) as Hrot. rewrite <- Hv1 in Hrot.
  assert (Hlen : length (ready k1) = length (ready k)).
  { apply (f_equal length) in Hrot. rewrite length_app in Hrot. cbn in Hrot. lia. }
  rewrite Hr in Hgs.
  destruct (IH k1 Hk1 Hgs) as (k2 & Hr2 & Hk2 & Ho2); [cbn [length] in Hl; lia|].
  exists k2. cbn [run_calls]. rewrite Hr. split; [done|]. split; [done|].
  rewrite Ho2, Hrot. unfold run_order. cbn [length vcurr vready view_of drop take] in *.
  rewrite drop_app_le, take_app_le by lia. by rewrite <- app_assoc.
Qed.

(** C16. Round robin: while the running threads only give the processor up
    (by yielding or by using up their time slices), the threads run in the
    order of the ready list, so the thread at position [n] of the list runs
    after exactly [n + 1] of these calls, and the one that was running is
    last again. *)
Theorem round_robin cs k p :
  kernel_ok k → all_give_up cs k = true → ready k !! (length cs - 1)%nat = Some p → cs ≠ [] →
  ∃ k', run_calls cs k = Ok k' ∧ kernel_ok k' ∧ curr k' = p
    ∧ ready k' = drop (length cs) (ready k) ++ curr k :: take (length cs - 1) (ready k).
Proof.
  intros Hk Hg Hp Hcs. pose proof (lookup_lt_Some _ _ _ Hp) as Hlt.
  destruct cs as [|c cs]; [done|]. cbn [length] in *.
  destruct (round_robin_ok (c :: cs) k Hk Hg) as (k' & Hr & Hk' & Ho); [cbn [length]; lia|].
  exists k'. split; [done|]. split; [done|]. unfold run_order in Ho.
  cbn [length vcurr vready view_of drop take] in Ho.
  replace (S (length cs) - 1)%nat with (length cs) in * by lia.
  rewrite (drop_S _ _ _ Hp) in Ho. injection Ho as -> ->. done.
Qed.

(** ** The time slices of a thread *)

Lemma clock_run e m : ∀ k x n,
  kernel_ok k → thds k !! curr k = Some x → remain_ticks_ x = Z.of_nat n → Z.of_nat n < 2 ^ 32 →
  (m ≤ n)%nat →
  ∃ k1 y, run_calls (replicate m (CClock e)) k = Ok k1 ∧ kernel_ok k1
    ∧ view_of k1 = view_of k ∧ thds k1 !! curr k1 = Some y
    ∧ remain_ticks_ y = Z.of_nat (n - m)
    ∧ u32 (ticks k1) = u32 (ticks k + Z.of_nat m).
Proof.
  induction m as [|m IH]; intros k x n Hk Hx Hn Hlt Hle.
  { exists k, x. cbn. rewrite Nat.sub_0_r, Z.add_0_r. done. }
  destruct (ClockIntrHandler_ok (set_intr false k) x) as (k1 & Hc & Hv1 & Hk1 & _ & Ht1 & Hd1);
    [done..|].
  destruct n as [|n]; [lia|]. rewrite Hn in Hv1, Hd1.
  rewrite (proj2 (Z.eqb_neq _ _)) in Hv1 by lia. specialize (Hd1 ltac:(lia)).
  change (curr (set_intr false k)) with (curr k) in Hd1.
  assert (Hcur : curr k1 = curr k) by (change (curr k1) with (vcurr (view_of k1)); by rewrite Hv1).
  destruct (IH (set_intr e k1) (with_ticks (Z.of_nat (S n) -w 1) (elapsed_ticks_ x +w 1) x) n)
    as (k2 & y & Hr & Hk2 & Hv2 & Hy & Hyn & Ht2); [done| | |lia|lia|].
  - cbn. rewrite Hcur, Hd1. by rewrite lookup_insert_eq.
  - cbn. rewrite u32_small by lia. lia.
  - exists k2, y. cbn [replicate run_calls run_call]. rewrite Hc. cbn [mbind res_bind].
    rewrite Hr. split; [done|]. split; [done|]. rewrite Hv2. split; [exact Hv1|].
    split; [done|]. split; [rewrite Hyn; f_equal; lia|].
    rewrite Ht2. cbn. rewrite Ht1. cbn. rewrite u32_add_l. f_equal. lia.
Qed.

(** C18. A thread with [n] remaining ticks stays on the processor for [n]
    clock interrupts, which change nothing the scheduler sees, and is
    removed by the next one: a thread of priority [p] runs [p + 1] time
    slices, not the maximum of [p] that thd.h documents. *)
Theorem quantum_exact k x n e :
  kernel_ok k → thds k !! curr k = Some x → remain_ticks_ x = Z.of_nat n → Z.of_nat n < 2 ^ 32 →
  (∀ m, (m ≤ n)%nat →
     ∃ k1, run_calls (replicate m (CClock e)) k = Ok k1 ∧ view_of k1 = view_of k)
  ∧ ∃ k2, run_calls (replicate (S n) (CClock e)) k = Ok k2
      ∧ view_of k2 = spec_schedule (view_of k)
      ∧ u32 (ticks k2) = u32 (ticks k + Z.of_nat (S n)).
Proof.
  intros Hk Hx Hn Hlt. split.
  - intros m Hm. destruct (clock_run e m k x n) as (k1 & _ & Hr & _ & Hv & _); [done..|]. eauto.
  - destruct (clock_run e n k x n) as (k1 & y & Hr & Hk1 & Hv & Hy & Hyn & Ht); [done..|].
    destruct (ClockIntrHandler_ok (set_intr false k1) y) as (k2 & Hc & Hv2 & _ & _ & Ht2 & _);
      [done..|].
    rewrite Hyn, Nat.sub_diag in Hv2. exists (set_intr e k2).
    replace (S n) with (n + 1)%nat by lia. rewrite replicate_add.
    rewrite (run_calls_app _ _ _ _ Hr). cbn [replicate run_calls run_call]. rewrite Hc.
    cbn [mbind res_bind]. split; [done|]. split; [by rewrite <- Hv|].
    cbn. rewrite Ht2. cbn. rewrite u32_idemp, <- u32_add_l, Ht, u32_add_l. f_equal. lia.
Qed.
End refinement.

(** ** A concrete system *)

(** The main thread runs, a thread of a process is ready, the idle thread is
    blocked; page tables that map the kernel half down. *)
Instance demo_platform : Platform :=
  {| GetPhyAddr a := a - 0xC0000000; StartupCallback_addr := 0xC0001000;
     intr_exit_addr := 0xC0001100 |}.

Definition demo_thread (s : Status) (proc : option Z) : Thread.t :=
  mk (replicate 17 0) 0 s 2 2 0 proc stack_guard (replicate 8 0) ∅.

Definition demo_main : Z := 0xC009E000.
Definition demo_user : Z := 0xC0100000.
Definition demo_idle : Z := 0xC0101000.

Definition demo_kernel : kernel :=
  mkKernel (<[demo_main := demo_thread Running None]> (<[demo_user := demo_thread Ready (Some 7)]>
              (<[demo_idle := demo_thread Blocked None]> ∅)))
    [demo_user] [demo_main + 8; demo_user + 8; demo_idle + 8] demo_main (Some demo_idle)
    (Some demo_main) (<[7 := mkProcess 0xC0200000 (replicate 8 0)]> ∅) true 0 0 0 0x100000 true true.

Lemma demo_thds p x :
  thds demo_kernel !! p = Some x →
  p = demo_main ∧ x = demo_thread Running None ∨ p = demo_user ∧ x = demo_thread Ready (Some 7)
  ∨ p = demo_idle ∧ x = demo_thread Blocked None.
Proof.
  unfold demo_kernel, thds. rewrite !lookup_insert_Some, lookup_empty. naive_solver.
Qed.

Lemma demo_ok : kernel_ok demo_kernel.
Proof.
  split; [split; [split|]|split].
  - by eexists.
  - intros p. rewrite view_lookup. intros (x & Hx & Hs)%fmap_Some.
    apply demo_thds in Hx as [[-> ->]|[[-> ->]|[-> ->]]]; done.
  - intros p. rewrite view_lookup. change (vready (view_of demo_kernel)) with [demo_user].
    rewrite list_elem_of_singleton. split.
    + intros (x & Hx & Hs)%fmap_Some. apply demo_thds in Hx as [[-> ->]|[[-> ->]|[-> ->]]]; done.
    + by intros ->.
  - apply NoDup_singleton.
  - by exists demo_idle, Blocked.
  - done.
  - intros p x q Hx Hq. apply demo_thds in Hx as [[-> ->]|[[-> ->]|[-> ->]]]; try done.
    injection Hq as <-. by eexists.
  - intros p x Hx. by apply demo_thds in Hx as [[-> ->]|[[-> ->]|[-> ->]]].
Qed.

(** The main thread blocks, the user thread blocks, the idle thread runs and
    is interrupted by the clock. *)
Definition demo_calls : list call :=
  [CBlock Blocked true; CUnblock demo_main; CClock false; CBlock Waiting false; CYield true].

Lemma run_calls_refine_witness :
  ∃ k', run_calls demo_calls demo_kernel = Ok k' ∧ kernel_ok k'
    ∧ spec_calls (view_of demo_kernel) demo_calls (view_of k').
Proof.
  apply (run_calls_refine demo_calls demo_kernel demo_ok). vm_compute. reflexivity.
Defined.

Lemma Schedule_picks_head_witness :
  ∃ k', Schedule demo_main (set_intr false demo_kernel) = Ok k'
    ∧ wf (view_of k') ∧ context_of (curr k') k' ∧ frame (set_intr false demo_kernel) k'
    ∧ curr k' = demo_user ∧ ready k' = [demo_main].
Proof.
  exact (Schedule_picks_head (set_intr false demo_kernel) (proj1 (proj1 demo_ok))
           (proj1 (proj2 demo_ok)) eq_refl).
Defined.

(** One yield: the user thread runs, the main thread is ready. *)
Lemma round_robin_witness :
  ∃ k', run_calls [CYield true] demo_kernel = Ok k' ∧ kernel_ok k' ∧ curr k' = demo_user
    ∧ ready k' = [demo_main].
Proof.
  apply (round_robin [CYield true] demo_kernel demo_user demo_ok); [vm_compute; reflexivity..|done].
Defined.

Lemma quantum_exact_witness :
  (∀ m, (m ≤ 2)%nat →
     ∃ k1, run_calls (replicate m (CClock true)) demo_kernel = Ok k1
       ∧ view_of k1 = view_of demo_kernel)
  ∧ ∃ k2, run_calls (replicate 3 (CClock true)) demo_kernel = Ok k2
      ∧ view_of k2 = spec_schedule (view_of demo_kernel)
      ∧ u32 (ticks k2) = u32 (0 + 3).
Proof.
  apply (quantum_exact demo_kernel (demo_thread Running None) 2 true demo_ok);
    [reflexivity..|lia].
Defined.
End Sched.
