(* ===== verification/ThreadSync.v ===== *)
(** * Semaphores and mutexes

    [Semaphore] and [Mutex] model src/include/kernel/thread/sync.h and
    src/src/kernel/thread/sync.cpp (with the wrappers of
    src/include/kernel/stl/mutex.h and semaphore.h, which only forward). An
    operation that can block is cut where the processor is switched: the pieces
    between two switches run with interrupts disabled. The interleavings of any
    number of threads, with preemption wherever interrupts are enabled, are a
    step relation whose steps run these pieces on the scheduler of
    [ThreadSched]. *)
From S2P Require Import Prelude UtilBit UtilTagList IoFileDesc StlString ThreadSched ThreadSpec.
Import Thread Sched.

Module Semaphore.

Record t := mk { val_ : Z; waiters_ : list Z }.

Section semaphore.
Context `{Platform} (max : Z).

Definition Init (val : Z) (s : t) : res t :=
  Assert (val <=? max);;
  Ok (mk val (waiters_ s)).

(** [Increase] *)
Definition Increase (s : t) (k : kernel) : res (t * kernel) :=
  let '(enabled, k) := IntrGuard_enter k in
  Assert (val_ s <=? max);;
  '(s, k) ← (if negb (val_ s =? max) then
               '(s, k) ← (match waiters_ s with
                          | [] => Ok (s, k)
                          | tag :: q =>
                              k ← Unblock (GetByTag tag General) k;
                              Ok (mk (val_ s) q, k)
                          end);
               Ok (mk (val_ s +w 1) (waiters_ s), k)
             else Ok (s, k));
  Ok (s, IntrGuard_exit enabled k).

(** One round of the loop of [Decrease]: either the thread queues itself and
    blocks, and [false] says that it goes round again when it is switched
    back in, or the loop ends and the value is taken. *)
Definition Decrease_round (s : t) (k : kernel) : res (t * kernel * bool) :=
  let curr_thd := curr k in
  if val_ s =? 0 then
    Assert (negb (bool_decide (tag_of General curr_thd ∈ waiters_ s)));;
    let s := mk (val_ s) (waiters_ s ++ [tag_of General curr_thd]) in
    '(_, k) ← Block Blocked curr_thd k;
    Ok (s, k, false)
  else Ok (mk (val_ s -w 1) (waiters_ s), k, true).

(** [Decrease] from its first line; the flag is restored when it is over. *)
Definition Decrease (s : t) (k : kernel) : res (t * kernel * bool) :=
  let '(enabled, k) := IntrGuard_enter k in
  '(s, k, taken) ← Decrease_round s k;
  Ok (s, (if (taken : bool) then IntrGuard_exit enabled k else k), taken).

(** ** The interleavings *)

(** A kernel, a semaphore, and the threads that [Increase] has taken from the
    wait queue and that have not gone round their loop since. *)
Record sys := mkSys { ker : kernel; sema : t; woken : list Z }.

Inductive step : sys → sys → Prop :=
(** The current thread calls [Decrease]. *)
| step_acquire k s w s' k' taken :
    curr k ∉ w → idle k ≠ Some (curr k) →
    Decrease s k = Ok (s', k', taken) →
    step (mkSys k s w) (mkSys k' s' w)
(** A thread that was woken up runs again: the next round of its loop. Its
    guard sets the flag to [resume] when the loop is over. *)
| step_resume k s w s' k' taken resume :
    curr k ∈ w →
    Decrease_round s (set_intr false k) = Ok (s', k', taken) →
    step (mkSys k s w)
         (mkSys (if (taken : bool) then set_intr resume k' else k') s' (filter (.≠ curr k) w))
(** The current thread calls [Increase]. *)
| step_release k s w s' k' :
    curr k ∉ w →
    Increase s k = Ok (s', k') →
    step (mkSys k s w)
         (mkSys k' s' (if val_ s =? max then w
                       else match waiters_ s with [] => w | p :: _ => p :: w end))
(** Anything else the scheduler can be called for: a preemption, a yield, a
    thread that blocks for another reason, and its wake-up. *)
| step_other k s w c k' :
    curr k ∉ w →
    (∀ p, c = CUnblock p → p ∉ waiters_ s) →
    is_Some (spec_call (out_of_ticks k) c (view_of k)) →
    run_call c k = Ok k' →
    step (mkSys k s w) (mkSys k' s w).

Record sys_inv (y : sys) : Prop := {
  si_kernel : kernel_ok (ker y);
  si_val : 0 ≤ val_ (sema y) ≤ max;
  si_nodup : NoDup (waiters_ (sema y) ++ woken y);
  si_waiters : ∀ p, p ∈ waiters_ (sema y) → vst (view_of (ker y)) !! p = Some Blocked;
  si_woken : ∀ p, p ∈ woken y →
    vst (view_of (ker y)) !! p = Some Ready ∨ vst (view_of (ker y)) !! p = Some Running;
  si_idle : ∀ p, p ∈ waiters_ (sema y) ++ woken y → idle (ker y) ≠ Some p;
  si_no_lost : waiters_ (sema y) ≠ [] → val_ (sema y) ≤ Z.of_nat (length (woken y))
}.

Hypothesis max_range : 0 < max < 2 ^ 32.

(** ** The operations on a consistent system *)

Lemma kernel_ok_set_intr b k : kernel_ok k → kernel_ok (set_intr b k).
Proof. done. Qed.

Lemma waiters_parked y p :
  sys_inv y → p ∈ waiters_ (sema y) → parked (view_of (ker y)) p.
Proof.
  intros Hy Hp. split; [exists Blocked; split; [by apply si_waiters|done]|].
  apply (si_idle _ Hy). rewrite elem_of_app. by left.
Qed.

(** What [Increase] does to the abstract state. *)
Definition increased (s : t) (v : view) : t * view :=
  if val_ s =? max then (s, v)
  else match waiters_ s with
       | [] => (mk (val_ s + 1) [], v)
       | p :: q => (mk (val_ s + 1) q, spec_unblock p v)
       end.

Lemma Increase_ok k s w :
  sys_inv (mkSys k s w) →
  ∃ k', Increase s k = Ok ((increased s (view_of k)).1, k')
    ∧ view_of k' = (increased s (view_of k)).2 ∧ kernel_ok k' ∧ frame k k'.
Proof.
  intros Hy. pose proof (si_kernel _ Hy) as Hk. pose proof (si_val _ Hy) as Hv. simpl in Hk, Hv.
  unfold Increase, increased. cbn [IntrGuard_enter].
  rewrite (proj2 (Z.leb_le _ _)) by lia. cbn [Assert mbind res_bind].
  destruct (val_ s =? max) eqn:Em; cbn [negb mbind res_bind fst snd].
  { eexists. split; [done|]. rewrite view_IntrGuard_exit. split; [done|]. split; [by destruct (intr_on k)|].
    etrans; [apply (frame_set_intr false)|apply frame_IntrGuard_exit]. }
  to_prop. destruct (waiters_ s) as [|p q] eqn:Ew; cbn [mbind res_bind fst snd].
  { rewrite Ew, u32_small by lia. eexists. split; [done|]. rewrite view_IntrGuard_exit. split; [done|].
    split; [by destruct (intr_on k)|].
    etrans; [apply (frame_set_intr false)|apply (frame_IntrGuard_exit _ (set_intr false k))]. }
  assert (Hst : vst (view_of k) !! p = Some Blocked).
  { apply (si_waiters _ Hy). simpl. rewrite Ew. by left. }
  destruct Hk as (Hw & Hp & Hg).
  destruct (Unblock_ok (set_intr false k) p Blocked Hst) as (k1 & Hu & Hv1 & Hf1 & _); [done| |].
  { by apply (inv_not_ready _ _ _ (proj1 Hw) Hst). }
  cbn [GetByTag]. rewrite Hu. cbn [mbind res_bind val_ waiters_]. rewrite u32_small by lia. eexists. split; [done|].
  rewrite view_IntrGuard_exit, Hv1. split; [done|].
  assert (Hf : frame k (IntrGuard_exit (intr_on k) k1)).
  { etrans; [apply (frame_set_intr false)|]. etrans; [exact Hf1|]. apply frame_IntrGuard_exit. }
  split; [|done]. apply (kernel_ok_frame k); [done|done|].
  rewrite view_IntrGuard_exit, Hv1. by apply (unblock_wf p Blocked).
Qed.

Lemma Decrease_round_ok k s w :
  sys_inv (mkSys k s w) →
  ∃ k', Decrease_round s k
        = Ok (if val_ s =? 0 then (mk 0 (waiters_ s ++ [curr k]), k', false)
              else (mk (val_ s - 1) (waiters_ s), k', true))
    ∧ view_of k' = (if val_ s =? 0 then spec_block Blocked (view_of k) else view_of k)
    ∧ kernel_ok k' ∧ frame k k' ∧ (val_ s ≠ 0 → k' = k).
Proof.
  intros Hy. pose proof (si_kernel _ Hy) as Hk. pose proof (si_val _ Hy) as Hv. simpl in Hk, Hv.
  unfold Decrease_round. destruct (val_ s =? 0) eqn:E0; to_prop.
  - rewrite bool_decide_eq_false_2.
    2: { intros Hin. destruct Hk as [Hw _].
         by apply (parked_not_curr _ (curr k) Hw (waiters_parked _ _ Hy Hin)). }
    cbn [negb Assert mbind res_bind].
    destruct (Block_ok k Blocked Hk eq_refl) as (k1 & Hb & Hv1 & Hf1 & _). rewrite Hb.
    cbn [mbind res_bind tag_of]. exists k1. rewrite E0. split; [done|]. split; [done|].
    split; [|done].
    apply (kernel_ok_frame k); [done..|]. rewrite Hv1. apply block_wf; [apply Hk|done].
  - exists k. rewrite u32_small by lia. done.
Qed.

Lemma Decrease_ok k s w :
  sys_inv (mkSys k s w) →
  ∃ k', Decrease s k
        = Ok (if val_ s =? 0 then (mk 0 (waiters_ s ++ [curr k]), k', false)
              else (mk (val_ s - 1) (waiters_ s), k', true))
    ∧ frame k k' ∧ kernel_ok k'
    ∧ view_of k' = (if val_ s =? 0 then spec_block Blocked (view_of k) else view_of k).
Proof.
  intros Hy. assert (Hy0 : sys_inv (mkSys (set_intr false k) s w)) by by destruct Hy.
  destruct (Decrease_round_ok _ _ _ Hy0) as (k1 & Hr & Hv1 & Hk1 & Hf1 & _).
  assert (Hf : frame k k1) by (etrans; [apply (frame_set_intr false)|exact Hf1]).
  unfold Decrease. cbn [IntrGuard_enter]. rewrite Hr.
  destruct (val_ s =? 0); cbn [mbind res_bind]; eexists; (split; [done|]); [done|].
  rewrite view_IntrGuard_exit. split; [|split; [by destruct (intr_on k)|done]].
  etrans; [exact Hf|apply frame_IntrGuard_exit].
Qed.

(** ** Every step keeps the invariant *)

(** The invariant mentions the kernel through its view only. *)
Lemma sys_inv_view k k' s w :
  sys_inv (mkSys k s w) → kernel_ok k' → view_of k' = view_of k → sys_inv (mkSys k' s w).
Proof.
  intros Hy Hk Hv. assert (Hi : idle k' = idle k).
  { change (vidle (view_of k') = vidle (view_of k)). by rewrite Hv. }
  destruct Hy. split; cbn [ker sema woken] in *; rewrite ?Hv, ?Hi; done.
Qed.

(** A call that parks nobody but a thread outside of the semaphore. *)
Lemma sys_inv_call k k' s w :
  sys_inv (mkSys k s w) → kernel_ok k' → idle k' = idle k →
  (∀ p, p ∈ waiters_ s → vst (view_of k') !! p = vst (view_of k) !! p) →
  (∀ p, p ∈ w → runnable (view_of k) p → runnable (view_of k') p) →
  sys_inv (mkSys k' s w).
Proof.
  intros Hy Hk Hi Hwt Hwk. destruct Hy. split; cbn [ker sema woken] in *; rewrite ?Hi; try done.
  - intros p Hp. rewrite Hwt by done. eauto.
  - intros p Hp. apply Hwk; eauto. by apply si_woken0.
Qed.

(** The current thread, outside of the queue, is put into it. *)
Lemma sys_inv_wait k k' s w :
  sys_inv (mkSys k s w) → curr k ∉ w → idle k ≠ Some (curr k) → val_ s = 0 →
  kernel_ok k' → idle k' = idle k → view_of k' = spec_block Blocked (view_of k) →
  sys_inv (mkSys k' (mk 0 (waiters_ s ++ [curr k])) w).
Proof.
  intros Hy Hc Hid H0 Hk Hi Hv. pose proof (si_kernel _ Hy) as (Hw & _). simpl in Hw.
  assert (Hcw : curr k ∉ waiters_ s).
  { intros Hin. by apply (parked_not_curr _ (curr k) Hw (waiters_parked _ _ Hy Hin)). }
  split; cbn [ker sema woken val_ waiters_]; rewrite ?Hv, ?Hi.
  - done.
  - lia.
  - pose proof (si_nodup _ Hy) as Hnd. simpl in Hnd. rewrite <- app_assoc. simpl.
    rewrite <- Permutation_middle. apply NoDup_cons. split; [|done]. rewrite elem_of_app. tauto.
  - intros p Hp. apply elem_of_app in Hp as [Hp|Hp%list_elem_of_singleton].
    + rewrite block_parked; [by apply (si_waiters _ Hy)|done|done|by apply (waiters_parked _ _ Hy)].
    + subst p. by apply block_curr.
  - intros p Hp. apply block_runnable; [|by apply (si_woken _ Hy)]. intros ->. done.
  - intros p. rewrite <- app_assoc, elem_of_app, elem_of_app, list_elem_of_singleton.
    pose proof (si_idle _ Hy p) as Hpi. simpl in Hpi. rewrite elem_of_app in Hpi.
    intros [Hp|[->|Hp]]; auto.
  - lia.
Qed.

(** A thread leaves the set of woken threads, with or without the value. *)
Lemma sys_inv_shrink k s w c v :
  sys_inv (mkSys k s w) → 0 ≤ v ≤ max →
  (waiters_ s ≠ [] → v ≤ Z.of_nat (length (filter (.≠ c) w))) →
  sys_inv (mkSys k (mk v (waiters_ s)) (filter (.≠ c) w)).
Proof.
  intros Hy Hv Hl. destruct Hy. split; cbn [ker sema woken waiters_ val_] in *; try done.
  - apply NoDup_app in si_nodup0 as (H1 & H2 & H3). apply NoDup_app.
    split_and!; [done| |by apply NoDup_filter].
    intros p Hp [_ Hq]%list_elem_of_filter. by apply (H2 p).
  - intros p [_ Hp]%list_elem_of_filter. by apply si_woken0.
  - intros p Hp. apply si_idle0. rewrite elem_of_app, list_elem_of_filter in Hp.
    rewrite elem_of_app. tauto.
Qed.

Lemma sys_inv_take k s w :
  sys_inv (mkSys k s w) → val_ s ≠ 0 → sys_inv (mkSys k (mk (val_ s - 1) (waiters_ s)) w).
Proof.
  intros Hy H0. destruct Hy. split; cbn [ker sema woken waiters_ val_] in *; try done.
  - lia.
  - intros Hw. specialize (si_no_lost0 Hw). lia.
Qed.

Lemma sys_inv_increased k s w k' :
  sys_inv (mkSys k s w) → kernel_ok k' → idle k' = idle k →
  view_of k' = (increased s (view_of k)).2 →
  sys_inv (mkSys k' (increased s (view_of k)).1
             (if val_ s =? max then w else match waiters_ s with [] => w | p :: _ => p :: w end)).
Proof.
  intros Hy Hk Hi Hv. unfold increased in *. pose proof (si_val _ Hy) as Hval. simpl in Hval.
  destruct (val_ s =? max) eqn:Em; [by apply (sys_inv_view k)|]. to_prop.
  destruct (waiters_ s) as [|p q] eqn:Ew; cbn [fst snd] in *; destruct Hy;
    cbn [ker sema woken] in *; rewrite Ew in *.
  - split; cbn [ker sema woken waiters_ val_]; rewrite ?Hv, ?Hi; try done. lia.
  - simpl in si_nodup0. pose proof si_nodup0 as [Hpn Hnd]%NoDup_cons.
    split; cbn [ker sema woken waiters_ val_]; rewrite ?Hv, ?Hi; try done.
    + lia.
    + by rewrite <- Permutation_middle.
    + intros r Hr. cbn. rewrite lookup_insert_ne; [apply si_waiters0; by right|].
      intros <-. apply Hpn. rewrite elem_of_app. by left.
    + intros r [->|Hr]%elem_of_cons; [left; cbn; by rewrite lookup_insert_eq|].
      apply unblock_runnable. by apply si_woken0.
    + intros r Hr. apply si_idle0. rewrite elem_of_app, elem_of_cons in Hr.
      rewrite elem_of_app, elem_of_cons. tauto.
    + intros _. specialize (si_no_lost0 ltac:(done)). cbn [length]. lia.
Qed.

Lemma step_inv y y' : sys_inv y → step y y' → sys_inv y'.
Proof.
  intros Hy Hst. destruct Hst as [k s w s' k' taken Hc Hid Hd|k s w s' k' taken resume Hc Hd
    |k s w s' k' Hc Hd|k s w c k' Hc Hnw [v Hv] Hd].
  - assert (Hy0 : sys_inv (mkSys (set_intr false k) s w)).
    { apply (sys_inv_view k); [done|by destruct Hy|done]. }
    destruct (Decrease_round_ok _ _ _ Hy0) as (k1 & Hr & Hv1 & Hk1 & Hf1 & Hsame).
    pose proof (fr_idle _ _ Hf1) as Hi1.
    unfold Decrease in Hd. cbn [IntrGuard_enter] in Hd. rewrite Hr in Hd. clear Hr.
    destruct (val_ s =? 0) eqn:E; cbn [mbind res_bind] in Hd; simplify_eq; to_prop.
    + by apply (sys_inv_wait (set_intr false k)).
    + rewrite (Hsame E). apply sys_inv_take; [|done].
      apply (sys_inv_view k); [done| |by rewrite view_IntrGuard_exit].
      destruct (intr_on k); apply (si_kernel _ Hy).
  - assert (Hy0 : sys_inv (mkSys (set_intr false k) s w)).
    { apply (sys_inv_view k); [done|by destruct Hy|done]. }
    destruct (Decrease_round_ok _ _ _ Hy0) as (k1 & Hr & Hv1 & Hk1 & Hf1 & Hsame).
    pose proof (fr_idle _ _ Hf1) as Hi1.
    rewrite Hr in Hd. clear Hr. pose proof (si_val _ Hy) as Hval. simpl in Hval.
    assert (Hlen : length w = S (length (filter (.≠ curr k) w))).
    { apply length_filter_ne; [|done]. pose proof (si_nodup _ Hy) as Hnd. by apply NoDup_app in Hnd as (_ & _ & ?). }
    destruct (val_ s =? 0) eqn:E; simplify_eq; to_prop.
    + apply (sys_inv_wait (set_intr false k) _ s); try done.
      * replace s with (mk (val_ s) (waiters_ s)) by by destruct s.
        apply (sys_inv_shrink _ s); [done|lia|lia].
      * cbn. rewrite list_elem_of_filter. tauto.
      * apply (si_idle _ Hy). simpl. rewrite elem_of_app. by right.
    + rewrite (Hsame E). apply sys_inv_shrink; [|lia|].
      * by apply (sys_inv_view (set_intr false k)); [|destruct Hy|].
      * intros Hw. pose proof (si_no_lost _ Hy Hw) as Hl. simpl in Hl. lia.
  - destruct (Increase_ok k s w Hy) as (k1 & Hi & Hv1 & Hk1 & Hf1). rewrite Hi in Hd. simplify_eq.
    apply sys_inv_increased; [done|done|exact (fr_idle _ _ Hf1)|done].
  - pose proof (si_kernel _ Hy) as Hk. simpl in Hk.
    destruct (run_call_ok c k v Hk Hv) as (k1 & Hr & <- & Hk1).
    rewrite Hr in Hd. injection Hd as <-. apply (sys_inv_call k); try done.
    + by apply (spec_call_idle _ _ _ _ Hv).
    + intros p Hp. eapply spec_call_parked; [apply Hk|exact Hv|by apply (waiters_parked _ _ Hy)|].
      intros ->. by apply (Hnw p).
    + intros p Hp Hrun. eapply spec_call_runnable; [exact Hv|done|]. by intros ->.
Qed.

Definition sys_init (y : sys) : Prop :=
  kernel_ok (ker y) ∧ 0 ≤ val_ (sema y) ≤ max ∧ waiters_ (sema y) = [] ∧ woken y = [].

Lemma init_inv y : sys_init y → sys_inv y.
Proof.
  destruct y as [k [v ws] w]. unfold sys_init. cbn [ker sema woken val_ waiters_].
  intros (Hk & Hv & -> & ->).
  split; cbn [ker sema woken val_ waiters_]; try done.
  - apply NoDup_nil_2.
  - by intros p Hp%elem_of_nil.
  - by intros p Hp%elem_of_nil.
  - by intros p Hp%elem_of_nil.
Qed.

Lemma reachable_inv y0 y : sys_init y0 → rtc step y0 y → sys_inv y.
Proof.
  intros Hi%init_inv Hr. induction Hr as [|y0 y1 y2 Hs _ IH]; [done|].
  by apply IH, (step_inv y0).
Qed.

(** C13. No wake-up of a semaphore is lost, whatever the interleaving: the
    value stays in its range, a waiting thread is blocked and in no other
    list, and whenever the value is positive while threads wait, one of the
    threads that were taken from the queue is ready or running and will find
    it. *)
Theorem semaphore_no_lost_wakeup y0 y :
  sys_init y0 → rtc step y0 y →
  0 ≤ val_ (sema y) ≤ max
  ∧ NoDup (waiters_ (sema y))
  ∧ (∀ p, p ∈ waiters_ (sema y) →
       vst (view_of (ker y)) !! p = Some Blocked ∧ p ∉ ready (ker y) ∧ p ≠ curr (ker y))
  ∧ (0 < val_ (sema y) → waiters_ (sema y) ≠ [] →
       ∃ p, p ∈ woken y ∧ (p ∈ ready (ker y) ∨ p = curr (ker y))).
Proof.
  intros Hi Hr. pose proof (reachable_inv _ _ Hi Hr) as Hy. pose proof (si_kernel _ Hy) as (Hw & _).
  split; [apply (si_val _ Hy)|]. split.
  { pose proof (si_nodup _ Hy) as Hnd. by apply NoDup_app in Hnd as (? & _). }
  split.
  - intros p Hp. pose proof (si_waiters _ Hy p Hp) as Hst. split; [done|]. split.
    + by apply (inv_not_ready _ _ _ (proj1 Hw) Hst).
    + apply (parked_not_curr _ _ Hw). by apply waiters_parked.
  - intros H0 Hne. pose proof (si_no_lost _ Hy Hne) as Hl.
    destruct (woken y) as [|p w] eqn:Ew; [simpl in Hl; lia|]. exists p. split; [by left|].
    destruct (si_woken _ Hy p) as [Hp|Hp]; [rewrite Ew; by left|left|right].
    + by apply (inv_ready _ (proj1 Hw)).
    + by apply (inv_running _ (proj1 Hw)).
Qed.

(** In every reachable state whatever the current thread does next with
    the semaphore returns: a call of [Increase] or of [Decrease], and the
    next round of a thread that was woken up; no assertion of theirs or of
    the scheduler fails and no bad pointer is followed. *)
Theorem semaphore_never_stuck y0 y :
  sys_init y0 → rtc step y0 y →
  (∃ r, Increase (sema y) (ker y) = Ok r)
  ∧ (∃ r, Decrease (sema y) (ker y) = Ok r)
  ∧ (∃ r, Decrease_round (sema y) (set_intr false (ker y)) = Ok r).
Proof.
  intros Hi Hr. pose proof (reachable_inv _ _ Hi Hr) as Hy. destruct y as [k s w].
  cbn [sema ker].
  assert (Hy0 : sys_inv (mkSys (set_intr false k) s w)).
  { apply (sys_inv_view k); [done|by destruct Hy|done]. }
  destruct (Increase_ok k s w Hy) as (k1 & H1 & _).
  destruct (Decrease_round_ok _ _ _ Hy0) as (k2 & H2 & _).
  split; [eauto|]. split; [|eauto].
  unfold Decrease. cbn [IntrGuard_enter]. rewrite H2. by destruct (val_ s =? 0); eexists.
Qed.
End semaphore.

#[local] Existing Instance demo_platform.

(** A semaphore of maximum 1 that is taken: the main thread waits, then the
    user thread (switched in) releases it. *)
Definition demo_sys : sys := mkSys demo_kernel (mk 0 []) [].

Lemma demo_sys_init : sys_init 1 demo_sys.
Proof. split; [exact demo_ok|]. done. Qed.

Lemma demo_step1 :
  ∃ k, step 1 demo_sys (mkSys k (mk 0 [demo_main]) []) ∧ curr k = demo_user ∧
    ∃ k', step 1 (mkSys k (mk 0 [demo_main]) []) (mkSys k' (mk 1 []) [demo_main])
          ∧ curr k' = demo_user.
Proof.
  eexists. split.
  - eapply (step_acquire 1 demo_kernel (mk 0 []) [] _ _ false); [apply not_elem_of_nil|done|].
    vm_compute. reflexivity.
  - split; [reflexivity|]. eexists. split.
    + match goal with |- step 1 (mkSys ?k _ _) _ =>
        eapply (step_release 1 k (mk 0 [demo_main]) []) end; [apply not_elem_of_nil|].
      vm_compute. reflexivity.
    + reflexivity.
Qed.

(** The state after the release: the main thread has been woken up. *)
Lemma semaphore_no_lost_wakeup_witness :
  ∃ y, rtc (step 1) demo_sys y ∧ woken y = [demo_main] ∧ 0 ≤ val_ (sema y) ≤ 1.
Proof.
  destruct demo_step1 as (k & H1 & _ & k' & H2 & _).
  pose proof (rtc_l _ _ _ _ H1 (rtc_once _ _ H2)) as Hr.
  exists (mkSys k' (mk 1 []) [demo_main]). split; [exact Hr|]. split; [reflexivity|].
  exact (proj1 (semaphore_no_lost_wakeup 1 ltac:(lia) demo_sys _ demo_sys_init Hr)).
Defined.

Lemma semaphore_never_stuck_witness :
  ∃ r, Decrease (mk 0 []) demo_kernel = Ok r.
Proof.
  exact (proj1 (proj2 (semaphore_never_stuck 1 ltac:(lia) demo_sys demo_sys demo_sys_init
                         (rtc_refl _ _)))).
Defined.
End Semaphore.

Module Mutex.
Import Semaphore.

Record t := mk { sema_ : Semaphore.t; holder_ : option Z; repeat_times_ : Z }.

(** How the first part of [Lock] ends: the mutex was locked again by its
    holder, or [Decrease] was entered and took the value, or did not. *)
Inductive lock_result := Nested | Taken | Waits.

Section mutex.
Context `{Platform}.

(** A mutex is a semaphore of maximum value 1. *)
Definition sema_max : Z := 1.

(** [Lock], up to the end or the switch of [sema_.Decrease()]. *)
Definition Lock_begin (m : t) (k : kernel) : res (t * kernel * lock_result) :=
  let curr_thd := curr k in
  if negb (bool_decide (holder_ m = Some curr_thd)) then
    '(s, k, taken) ← Decrease (sema_ m) k;
    Ok (mk s (holder_ m) (repeat_times_ m), k, if (taken : bool) then Taken else Waits)
  else
    Assert (0 <? repeat_times_ m);;
    Ok (mk (sema_ m) (holder_ m) (repeat_times_ m +w 1), k, Nested).

(** The next round of a thread that waits in [Decrease]. *)
Definition Lock_round (m : t) (k : kernel) : res (t * kernel * bool) :=
  '(s, k, taken) ← Decrease_round (sema_ m) k;
  Ok (mk s (holder_ m) (repeat_times_ m), k, taken).

(** [holder_ = &curr_thd;] *)
Definition Lock_set_holder (m : t) (k : kernel) : t :=
  mk (sema_ m) (Some (curr k)) (repeat_times_ m).

(** [dbg::Assert(repeat_times_ == 0); repeat_times_ = 1;] *)
Definition Lock_end (m : t) : res t :=
  Assert (repeat_times_ m =? 0);;
  Ok (mk (sema_ m) (holder_ m) 1).

(** [Unlock], up to [repeat_times_ = 0] when this is the last unlock: whether
    it is. *)
Definition Unlock_begin (m : t) (k : kernel) : res (t * bool) :=
  Assert (bool_decide (holder_ m = Some (curr k)));;
  if repeat_times_ m =? 1 then Ok (mk (sema_ m) (holder_ m) 0, true)
  else
    Assert (1 <? repeat_times_ m);;
    Ok (mk (sema_ m) (holder_ m) (repeat_times_ m -w 1), false).

(** [holder_ = nullptr;] *)
Definition Unlock_reset_holder (m : t) : t := mk (sema_ m) None (repeat_times_ m).

(** [sema_.Increase();] *)
Definition Unlock_end (m : t) (k : kernel) : res (t * kernel) :=
  '(s, k) ← Increase sema_max (sema_ m) k;
  Ok (mk s (holder_ m) (repeat_times_ m), k).

(** ** The interleavings *)

(** Where a thread that has taken the semaphore's value stands: before it is
    named as the holder, before the count is set, between [Lock] and
    [Unlock], before the holder is reset, before the semaphore is released. *)
Inductive phase := Got | Named | Holds | Counted | Releasing.

Record sys := mkSys { mker : kernel; mtx : t; mwoken : list Z; owners : list (Z * phase) }.

Definition outside (k : kernel) (w : list Z) (os : list (Z * phase)) : Prop :=
  curr k ∉ w ∧ curr k ∉ os.*1.

(** The rest of the owners when the current one moves on. *)
Definition others (k : kernel) (os : list (Z * phase)) : list (Z * phase) :=
  filter (λ o, o.1 ≠ curr k) os.

Inductive step : sys → sys → Prop :=
| step_lock k m w os m' k' r :
    outside k w os → idle k ≠ Some (curr k) →
    Lock_begin m k = Ok (m', k', r) →
    step (mkSys k m w os)
         (mkSys k' m' w (match r with
                         | Taken => (curr k, Got) :: os
                         | Nested => (curr k, Holds) :: os
                         | Waits => os
                         end))
| step_lock_round k m w os m' k' taken resume :
    curr k ∈ w →
    Lock_round m (set_intr false k) = Ok (m', k', taken) →
    step (mkSys k m w os)
         (mkSys (if (taken : bool) then set_intr resume k' else k') m' (filter (.≠ curr k) w)
            (if (taken : bool) then (curr k, Got) :: os else os))
| step_set_holder k m w os :
    (curr k, Got) ∈ os →
    step (mkSys k m w os) (mkSys k (Lock_set_holder m k) w ((curr k, Named) :: others k os))
| step_lock_end k m w os m' :
    (curr k, Named) ∈ os → Lock_end m = Ok m' →
    step (mkSys k m w os) (mkSys k m' w ((curr k, Holds) :: others k os))
| step_lock_again k m w os m' k' r :
    (curr k, Holds) ∈ os → repeat_times_ m < 2 ^ 32 - 1 →
    Lock_begin m k = Ok (m', k', r) →
    step (mkSys k m w os) (mkSys k' m' w os)
| step_unlock k m w os m' last :
    (curr k, Holds) ∈ os → Unlock_begin m k = Ok (m', last) →
    step (mkSys k m w os)
         (mkSys k m' w ((curr k, if (last : bool) then Counted else Holds) :: others k os))
| step_reset_holder k m w os :
    (curr k, Counted) ∈ os →
    step (mkSys k m w os)
         (mkSys k (Unlock_reset_holder m) w ((curr k, Releasing) :: others k os))
| step_unlock_end k m w os m' k' :
    (curr k, Releasing) ∈ os → Unlock_end m k = Ok (m', k') →
    step (mkSys k m w os)
         (mkSys k' m' (if val_ (sema_ m) =? sema_max then w
                       else match waiters_ (sema_ m) with [] => w | p :: _ => p :: w end)
            (others k os))
| step_other k m w os c k' :
    curr k ∉ w →
    (∀ p, c = CUnblock p → p ∉ waiters_ (sema_ m)) →
    is_Some (spec_call (out_of_ticks k) c (view_of k)) →
    run_call c k = Ok k' →
    step (mkSys k m w os) (mkSys k' m w os).

(** The members of a mutex that the phase of its owner allows. *)
Definition members_ok (m : t) (os : list (Z * phase)) : Prop :=
  match os with
  | [] => val_ (sema_ m) = 1 ∧ holder_ m = None ∧ repeat_times_ m = 0
  | [(p, ph)] =>
      val_ (sema_ m) = 0 ∧
      match ph with
      | Got | Releasing => holder_ m = None ∧ repeat_times_ m = 0
      | Named | Counted => holder_ m = Some p ∧ repeat_times_ m = 0
      | Holds => holder_ m = Some p ∧ 1 ≤ repeat_times_ m < 2 ^ 32
      end
  | _ => False
  end.

Record sys_inv (y : sys) : Prop := {
  mi_sema : Semaphore.sys_inv sema_max (Semaphore.mkSys (mker y) (sema_ (mtx y)) (mwoken y));
  mi_members : members_ok (mtx y) (owners y);
  mi_out : ∀ p, p ∈ (owners y).*1 → p ∉ waiters_ (sema_ (mtx y)) ++ mwoken y
                                     ∧ idle (mker y) ≠ Some p
}.

Lemma max_ok : 0 < sema_max < 2 ^ 32.
Proof. unfold sema_max. lia. Qed.

Lemma owner_only m os c ph : members_ok m os → (c, ph) ∈ os → os = [(c, ph)].
Proof.
  destruct os as [|[p q] [|]]; intros Hm Hin; [by apply elem_of_nil in Hin| |done].
  apply list_elem_of_singleton in Hin. by rewrite Hin.
Qed.

Lemma others_only k ph : others k [(curr k, ph)] = [].
Proof. unfold others. by rewrite filter_cons_False by (intros Hne; by apply Hne). Qed.

Lemma holder_owner m os p : members_ok m os → holder_ m = Some p → p ∈ os.*1.
Proof.
  destruct os as [|[q ph] [|]]; cbn; [naive_solver| |done].
  intros [_ Hm] Hh. destruct ph; destruct Hm as [Hm _]; rewrite Hh in Hm; simplify_eq; by left.
Qed.

Lemma owners_of_val m os : members_ok m os → val_ (sema_ m) ≠ 0 → os = [].
Proof. destruct os as [|[p ph] [|]]; cbn; [done|lia|done]. Qed.

Lemma val_of_owners m os : members_ok m os → os ≠ [] → val_ (sema_ m) = 0.
Proof. destruct os as [|[p ph] [|]]; cbn; [done|lia|done]. Qed.

Lemma out_waiters y : sys_inv y →
  ∀ p, p ∈ (owners y).*1 → p ∉ waiters_ (sema_ (mtx y)) ∧ p ∉ mwoken y ∧ idle (mker y) ≠ Some p.
Proof.
  intros Hy p Hp. destruct (mi_out _ Hy p Hp) as [Ho Hi]. rewrite elem_of_app in Ho. tauto.
Qed.

(** The parts of [Lock] and [Unlock] in a consistent state. *)
Lemma Lock_begin_outside k m w os :
  sys_inv (mkSys k m w os) → outside k w os →
  ∃ k', Lock_begin m k
        = Ok (if val_ (sema_ m) =? 0
              then (mk (Semaphore.mk 0 (waiters_ (sema_ m) ++ [curr k])) (holder_ m) (repeat_times_ m),
                    k', Waits)
              else (mk (Semaphore.mk (val_ (sema_ m) - 1) (waiters_ (sema_ m))) (holder_ m)
                      (repeat_times_ m), k', Taken))
    ∧ Decrease (sema_ m) k
      = Ok (if val_ (sema_ m) =? 0
            then (Semaphore.mk 0 (waiters_ (sema_ m) ++ [curr k]), k', false)
            else (Semaphore.mk (val_ (sema_ m) - 1) (waiters_ (sema_ m)), k', true))
    ∧ idle k' = idle k.
Proof.
  intros Hy [Hw Ho]. destruct (Decrease_ok _ max_ok _ _ _ (mi_sema _ Hy)) as (k' & Hd & Hf & _).
  pose proof (fr_idle _ _ Hf) as Hi.
  cbn [mker mtx mwoken] in *. exists k'. unfold Lock_begin.
  rewrite bool_decide_eq_false_2.
  2: { intros Hh. apply Ho. apply (holder_owner m); [exact (mi_members _ Hy)|done]. }
  cbn [negb]. rewrite Hd. destruct (val_ (sema_ m) =? 0); done.
Qed.

(** A semaphore step under a change of the owners. *)
Lemma sys_inv_intro k m w os k0 s0 w0 :
  Semaphore.sys_inv sema_max (Semaphore.mkSys k0 s0 w0) →
  Semaphore.step sema_max (Semaphore.mkSys k0 s0 w0) (Semaphore.mkSys k (sema_ m) w) →
  members_ok m os →
  (∀ p, p ∈ os.*1 → p ∉ waiters_ (sema_ m) ++ w ∧ idle k ≠ Some p) →
  sys_inv (mkSys k m w os).
Proof.
  intros Hs Hst Hm Ho. split; cbn [mker mtx mwoken owners]; [|done..].
  by apply (Semaphore.step_inv _ max_ok _ _ Hs).
Qed.

(** A step that changes the members of the mutex only. *)
Lemma sys_inv_members k m m' w c ph ph' :
  sys_inv (mkSys k m w [(c, ph)]) → sema_ m' = sema_ m → members_ok m' [(c, ph')] →
  sys_inv (mkSys k m' w [(c, ph')]).
Proof.
  intros Hy Hs Hm. destruct Hy as [Hsi _ Ho]. cbn [mker mtx mwoken owners] in *.
  split; cbn [mker mtx mwoken owners]; rewrite ?Hs; done.
Qed.

Lemma owner_members k m w os ph :
  sys_inv (mkSys k m w os) → (curr k, ph) ∈ os →
  os = [(curr k, ph)] ∧ members_ok m [(curr k, ph)] ∧ others k os = []
  ∧ sys_inv (mkSys k m w [(curr k, ph)]).
Proof.
  intros Hy Hin. pose proof (mi_members _ Hy) as Hm. simpl in Hm.
  pose proof (owner_only _ _ _ _ Hm Hin) as ->. rewrite others_only. done.
Qed.

Lemma step_lock_inv k m w os m' k' r :
  sys_inv (mkSys k m w os) → outside k w os → idle k ≠ Some (curr k) →
  Lock_begin m k = Ok (m', k', r) →
  sys_inv (mkSys k' m' w (match r with
                          | Taken => (curr k, Got) :: os
                          | Nested => (curr k, Holds) :: os
                          | Waits => os
                          end)).
Proof.
  intros Hy Hout Hid Hl. destruct (Lock_begin_outside _ _ _ _ Hy Hout) as (k1 & Hl' & Hd & Hi).
  rewrite Hl' in Hl. clear Hl'. pose proof (mi_members _ Hy) as Hm. simpl in Hm.
  pose proof (mi_sema _ Hy) as Hs. simpl in Hs. destruct Hout as [Hw Ho].
  assert (Hcw : curr k ∉ waiters_ (sema_ m)).
  { intros Hin. pose proof (waiters_parked _ _ _ Hs Hin) as Hpk.
    destruct (si_kernel _ _ Hs) as [Hwf _]. by apply (parked_not_curr _ _ Hwf Hpk). }
  destruct (val_ (sema_ m) =? 0) eqn:E; simplify_eq; to_prop.
  - eapply (sys_inv_intro _ _ _ _ k (sema_ m) w); [done| | |]; cbn [sema_].
    + by eapply Semaphore.step_acquire.
    + destruct os as [|[p ph] [|]]; cbn in *; [lia|by destruct Hm|done].
    + intros p Hp. destruct (out_waiters _ Hy p Hp) as (H1 & H2 & H3). cbn in *.
      rewrite Hi, !elem_of_app, list_elem_of_singleton.
      split; [|done]. intros [[?| ->]|?]; done.
  - pose proof (owners_of_val _ _ Hm E) as Hos. subst os.
    eapply (sys_inv_intro _ _ _ _ k (sema_ m) w); [done| | |]; cbn [sema_].
    + by eapply Semaphore.step_acquire.
    + cbn in *. destruct Hm as (Hv & Hh & Hr). rewrite Hv. done.
    + intros p Hp%list_elem_of_singleton. cbn in *. subst p. rewrite Hi, elem_of_app. tauto.
Qed.

Lemma step_round_inv k m w os m' k' taken resume :
  sys_inv (mkSys k m w os) → curr k ∈ w →
  Lock_round m (set_intr false k) = Ok (m', k', taken) →
  sys_inv (mkSys (if (taken : bool) then set_intr resume k' else k') m' (filter (.≠ curr k) w)
             (if (taken : bool) then (curr k, Got) :: os else os)).
Proof.
  intros Hy Hc Hl. pose proof (mi_members _ Hy) as Hm. simpl in Hm.
  pose proof (mi_sema _ Hy) as Hs. simpl in Hs.
  assert (Hs0 : Semaphore.sys_inv sema_max (Semaphore.mkSys (set_intr false k) (sema_ m) w))
    by by destruct Hs.
  destruct (Decrease_round_ok _ max_ok _ _ _ Hs0) as (k1 & Hd & _ & _ & Hf & _).
  pose proof (fr_idle _ _ Hf) as Hi.
  unfold Lock_round in Hl. rewrite Hd in Hl.
  assert (Hcw : curr k ∉ waiters_ (sema_ m) ∧ idle k ≠ Some (curr k)).
  { split.
    - intros Hin. pose proof (si_nodup _ _ Hs) as Hnd. simpl in Hnd.
      apply NoDup_app in Hnd as (_ & Hdis & _). by apply (Hdis (curr k)).
    - apply (si_idle _ _ Hs). simpl. rewrite elem_of_app. by right. }
  destruct Hcw as [Hcw Hid]. change (idle k1 = idle k) in Hi.
  destruct (val_ (sema_ m) =? 0) eqn:E; cbn [mbind res_bind] in Hl; simplify_eq; to_prop.
  - eapply (sys_inv_intro _ _ _ _ k (sema_ m) w); [done| | |]; cbn [sema_].
    + by apply (Semaphore.step_resume _ _ _ _ _ _ false resume).
    + destruct os as [|[p ph] [|]]; cbn in *; [lia|by destruct Hm|done].
    + intros p Hp. destruct (out_waiters _ Hy p Hp) as (H1 & H2 & H3). cbn in *.
      rewrite Hi, !elem_of_app, list_elem_of_filter, list_elem_of_singleton.
      split; [|done]. intros [[?| ->]|[_ ?]]; done.
  - pose proof (owners_of_val _ _ Hm E) as Hos. subst os.
    eapply (sys_inv_intro _ _ _ _ k (sema_ m) w); [done| | |]; cbn [sema_].
    + by apply (Semaphore.step_resume _ _ _ _ _ _ true resume).
    + cbn in *. destruct Hm as (Hv & Hh & Hr). rewrite Hv. done.
    + intros p Hp%list_elem_of_singleton. cbn in *. subst p.
      rewrite Hi, elem_of_app, list_elem_of_filter. tauto.
Qed.

Lemma step_unlock_end_inv k m w os m' k' :
  sys_inv (mkSys k m w os) → (curr k, Releasing) ∈ os → Unlock_end m k = Ok (m', k') →
  sys_inv (mkSys k' m' (if val_ (sema_ m) =? sema_max then w
                        else match waiters_ (sema_ m) with [] => w | p :: _ => p :: w end)
             (others k os)).
Proof.
  intros Hy Hin Hu. destruct (owner_members _ _ _ _ _ Hy Hin) as (-> & Hm & -> & _).
  pose proof (mi_sema _ Hy) as Hs. simpl in Hs. destruct Hm as (Hv & Hh & Hr).
  destruct (out_waiters _ Hy (curr k)) as (_ & Hw & _); [by apply list_elem_of_singleton|].
  cbn in Hw. destruct (Increase_ok _ max_ok _ _ _ Hs) as (k1 & Hi & _ & _ & _).
  unfold Unlock_end in Hu. rewrite Hi in Hu. cbn [mbind res_bind] in Hu. simplify_eq.
  eapply (sys_inv_intro _ _ _ _ k (sema_ m) w); [done| | |]; cbn [sema_].
  - by eapply Semaphore.step_release.
  - cbn. rewrite Hh, Hr. unfold increased. rewrite Hv. cbn. by destruct (waiters_ (sema_ m)).
  - intros p Hp. by apply elem_of_nil in Hp.
Qed.

Lemma Lock_again_ok k m w os :
  sys_inv (mkSys k m w os) → (curr k, Holds) ∈ os → repeat_times_ m < 2 ^ 32 - 1 →
  Lock_begin m k = Ok (mk (sema_ m) (holder_ m) (repeat_times_ m + 1), k, Nested).
Proof.
  intros Hy Hin Hlt. destruct (owner_members _ _ _ _ _ Hy Hin) as (_ & (_ & Hh & Hr) & _).
  unfold Lock_begin. rewrite bool_decide_eq_true_2 by done. cbn [negb].
  rewrite (proj2 (Z.ltb_lt _ _)) by lia. cbn [Assert mbind res_bind]. by rewrite u32_small by lia.
Qed.

Lemma Unlock_begin_ok k m w os :
  sys_inv (mkSys k m w os) → (curr k, Holds) ∈ os →
  Unlock_begin m k = Ok (if repeat_times_ m =? 1 then (mk (sema_ m) (holder_ m) 0, true)
                         else (mk (sema_ m) (holder_ m) (repeat_times_ m - 1), false)).
Proof.
  intros Hy Hin. destruct (owner_members _ _ _ _ _ Hy Hin) as (_ & (_ & Hh & Hr) & _).
  unfold Unlock_begin. rewrite bool_decide_eq_true_2 by done. cbn [Assert mbind res_bind].
  destruct (repeat_times_ m =? 1) eqn:E; [done|]. to_prop.
  rewrite (proj2 (Z.ltb_lt _ _)) by lia. cbn [Assert mbind res_bind]. by rewrite u32_small by lia.
Qed.

Lemma mutex_step_inv y y' : sys_inv y → step y y' → sys_inv y'.
Proof.
  intros Hy Hst. destruct Hst as [k m w os m' k' r Hout Hid Hl|k m w os m' k' taken resume Hc Hl
    |k m w os Hin|k m w os m' Hin Hl|k m w os m' k' r Hin Hlt Hl|k m w os m' last Hin Hl
    |k m w os Hin|k m w os m' k' Hin Hl|k m w os c k' Hc Hnw Hleg Hr].
  - by eapply step_lock_inv.
  - by eapply step_round_inv.
  - destruct (owner_members _ _ _ _ _ Hy Hin) as (_ & (Hv & Hh & Hr) & -> & Hy').
    by apply (sys_inv_members _ m _ _ _ Got).
  - destruct (owner_members _ _ _ _ _ Hy Hin) as (_ & (Hv & Hh & Hr) & -> & Hy').
    unfold Lock_end in Hl. rewrite Hr in Hl. cbn in Hl. simplify_eq.
    by apply (sys_inv_members _ m _ _ _ Named).
  - rewrite (Lock_again_ok _ _ _ _ Hy Hin Hlt) in Hl. simplify_eq.
    destruct (owner_members _ _ _ _ _ Hy Hin) as (-> & (Hv & Hh & Hr) & _ & Hy').
    apply (sys_inv_members _ m _ _ _ Holds); [done..|]. cbn. rewrite Hv, Hh. split_and!; try done; lia.
  - rewrite (Unlock_begin_ok _ _ _ _ Hy Hin) in Hl.
    destruct (owner_members _ _ _ _ _ Hy Hin) as (_ & (Hv & Hh & Hr) & -> & Hy').
    destruct (repeat_times_ m =? 1) eqn:E; simplify_eq; to_prop;
      (apply (sys_inv_members _ m _ _ _ Holds); [done..|]); cbn; rewrite Hv, Hh; split_and!;
      try done; lia.
  - destruct (owner_members _ _ _ _ _ Hy Hin) as (_ & (Hv & Hh & Hr) & -> & Hy').
    by apply (sys_inv_members _ m _ _ _ Counted).
  - by eapply step_unlock_end_inv.
  - pose proof (mi_sema _ Hy) as Hs. simpl in Hs.
    eapply (sys_inv_intro _ _ _ _ k (sema_ m) w); [done| | |].
    + by eapply Semaphore.step_other.
    + exact (mi_members _ Hy).
    + pose proof (si_kernel _ _ Hs) as Hk. simpl in Hk. destruct Hleg as [v Hv].
      destruct (run_call_ok c k v Hk Hv) as (k1 & Hr1 & <- & _). rewrite Hr1 in Hr. simplify_eq.
      pose proof (spec_call_idle _ _ _ _ Hv) as Hi. change (idle k' = idle k) in Hi.
      rewrite Hi. exact (mi_out _ Hy).
Qed.

Definition sys_init (y : sys) : Prop :=
  kernel_ok (mker y) ∧ mtx y = mk (Semaphore.mk 1 []) None 0 ∧ mwoken y = [] ∧ owners y = [].

Lemma mutex_reachable_inv y0 y : sys_init y0 → rtc step y0 y → sys_inv y.
Proof.
  intros Hi Hr. assert (H0 : sys_inv y0).
  { destruct y0 as [k m w os]. destruct Hi as (Hk & Hm & Hw & Ho). simpl in *. subst.
    split; cbn; [|done|by intros p Hp%elem_of_nil].
    apply Semaphore.init_inv. split; [done|]. done. }
  clear Hi. induction Hr as [|y0 y1 y2 Hs _ IH]; [done|]. by apply IH, (mutex_step_inv y0).
Qed.

(** C12. Mutual exclusion: whatever the interleaving of any number of
    threads, with preemption between any two instructions of [Lock] and
    [Unlock] that run with interrupts enabled, at most one thread is between
    taking the semaphore and giving it back; between [Lock] and [Unlock] it
    is the one that [holder_] names, with a positive count, and the
    semaphore's value is 0 exactly then. *)
Theorem mutex_exclusion y0 y :
  sys_init y0 → rtc step y0 y →
  (∀ p q f g, (p, f) ∈ owners y → (q, g) ∈ owners y → p = q ∧ f = g)
  ∧ (∀ p, (p, Holds) ∈ owners y → holder_ (mtx y) = Some p ∧ 0 < repeat_times_ (mtx y))
  ∧ (owners y = [] ↔ val_ (sema_ (mtx y)) = 1)
  ∧ (∀ p, holder_ (mtx y) = Some p → p ∈ (owners y).*1).
Proof.
  intros Hi Hr. pose proof (mi_members _ (mutex_reachable_inv _ _ Hi Hr)) as Hm. split; [|split; [|split]].
  - intros p q f g Hp Hq. pose proof (owner_only _ _ _ _ Hm Hp) as E. rewrite E in Hq.
    apply list_elem_of_singleton in Hq. by simplify_eq.
  - intros p Hp. rewrite (owner_only _ _ _ _ Hm Hp) in Hm. destruct Hm as (_ & Hh & Hc).
    split; [done|lia].
  - destruct (owners y) as [|[p f] [|]]; cbn in Hm; [naive_solver| |done].
    destruct Hm as [Hv _]. rewrite Hv. split; [done|lia].
  - intros p. by apply holder_owner.
Qed.

(** C17. No thread is ever stuck in an assertion of the mutex, and none is
    forgotten: in every reachable state the part of [Lock] or [Unlock] that
    the current thread is at returns, re-locking by the holder nests instead
    of deadlocking, and when the mutex is free while threads wait for it,
    one of them is ready or running and will take it. *)
Theorem mutex_never_stuck y0 y :
  sys_init y0 → rtc step y0 y →
  let k := mker y in let m := mtx y in
  (outside k (mwoken y) (owners y) → ∃ m' k' r, Lock_begin m k = Ok (m', k', r) ∧ r ≠ Nested)
  ∧ (∃ r, Lock_round m (set_intr false k) = Ok r)
  ∧ ((curr k, Named) ∈ owners y → ∃ r, Lock_end m = Ok r)
  ∧ ((curr k, Holds) ∈ owners y →
       (repeat_times_ m < 2 ^ 32 - 1 → ∃ m', Lock_begin m k = Ok (m', k, Nested))
       ∧ ∃ r, Unlock_begin m k = Ok r)
  ∧ (∃ r, Unlock_end m k = Ok r)
  ∧ (owners y = [] → waiters_ (sema_ m) ≠ [] →
       ∃ p, p ∈ mwoken y ∧ (p ∈ ready k ∨ p = curr k)).
Proof.
  intros Hi Hr. cbn zeta. pose proof (mutex_reachable_inv _ _ Hi Hr) as Hy. destruct y as [k m w os].
  cbn [mker mtx mwoken owners]. pose proof (mi_sema _ Hy) as Hs. cbn [mker mtx mwoken] in Hs.
  split; [|split; [|split; [|split; [|split]]]].
  - intros Hout. destruct (Lock_begin_outside _ _ _ _ Hy Hout) as (k' & -> & _).
    destruct (val_ (sema_ m) =? 0); eauto.
  - assert (Hs0 : Semaphore.sys_inv sema_max (Semaphore.mkSys (set_intr false k) (sema_ m) w))
      by by destruct Hs.
    destruct (Decrease_round_ok _ max_ok _ _ _ Hs0) as (k1 & Hd & _).
    unfold Lock_round. rewrite Hd. destruct (val_ (sema_ m) =? 0); cbn; eauto.
  - intros Hin. destruct (owner_members _ _ _ _ _ Hy Hin) as (_ & (_ & _ & Hc) & _).
    unfold Lock_end. rewrite Hc. cbn. eauto.
  - intros Hin. split; [|rewrite (Unlock_begin_ok _ _ _ _ Hy Hin); eauto].
    intros Hlt. rewrite (Lock_again_ok _ _ _ _ Hy Hin Hlt). eauto.
  - destruct (Increase_ok _ max_ok _ _ _ Hs) as (k1 & Hi1 & _). unfold Unlock_end. rewrite Hi1.
    cbn. eauto.
  - intros Ho Hw. pose proof (mi_members _ Hy) as Hm. cbn in Hm, Ho. rewrite Ho in Hm.
    destruct Hm as (Hv & _). pose proof (si_no_lost _ _ Hs Hw) as Hl. cbn in Hl.
    destruct w as [|p w]; [simpl in Hl; lia|]. exists p. split; [by left|].
    destruct (si_kernel _ _ Hs) as [Hwf _].
    destruct (si_woken _ _ Hs p) as [Hp|Hp]; [by left|left|right].
    + by apply (inv_ready _ (proj1 Hwf)).
    + by apply (inv_running _ (proj1 Hwf)).
Qed.
End mutex.

#[local] Existing Instance demo_platform.

Definition demo_sys : sys := mkSys demo_kernel (mk (Semaphore.mk 1 []) None 0) [] [].

Lemma mutex_demo_init : sys_init demo_sys.
Proof. split; [exact demo_ok|]. done. Qed.

(** The main thread locks; it is preempted before it is named the holder, and
    the user thread has to wait. *)
Definition demo_locked : t := mk (Semaphore.mk 0 []) None 0.

Lemma demo_steps :
  ∃ k, rtc step demo_sys (mkSys k demo_locked [] [(demo_main, Got)]) ∧ curr k = demo_main.
Proof.
  eexists. split.
  - apply rtc_once. apply (step_lock demo_kernel _ [] [] demo_locked _ Taken).
    + split; apply not_elem_of_nil.
    + done.
    + vm_compute. reflexivity.
  - reflexivity.
Qed.

Lemma mutex_exclusion_witness :
  ∃ y, rtc step demo_sys y ∧ owners y = [(demo_main, Got)]
    ∧ (owners y = [] ↔ val_ (sema_ (mtx y)) = 1).
Proof.
  destruct demo_steps as (k & Hr & _). eexists. split; [exact Hr|]. split; [reflexivity|].
  exact (proj1 (proj2 (proj2 (mutex_exclusion demo_sys _ mutex_demo_init Hr)))).
Defined.

Lemma mutex_never_stuck_witness :
  ∃ m' k' r, Lock_begin (mtx demo_sys) demo_kernel = Ok (m', k', r) ∧ r ≠ Nested.
Proof.
  apply (mutex_never_stuck demo_sys demo_sys mutex_demo_init (rtc_refl _ _)).
  split; apply not_elem_of_nil.
Defined.
End Mutex.
