(* ===== verification/UtilBlockQueue.v ===== *)
(** * The block queue

    [BlockQueue] models src/include/kernel/util/block_queue.h: a bounded queue
    in a circular buffer of [n + 1] slots, with at most one waiting producer and
    one waiting consumer. A call that has to wait is cut where the processor is
    switched, as in [ThreadSync]. *)
From S2P Require Import Prelude UtilBit UtilTagList IoFileDesc StlString ThreadSched ThreadSpec ThreadSync.
Import Thread Sched.

Module BlockQueue.

Record t := mk {
  mtx_ : Mutex.t;
  prod_ : option Z;
  consr_ : option Z;
  buf_ : list Z;
  head_ : Z;
  tail_ : Z
}.

(** How a round of [Push] or [Pop] ends: it is over; the thread waits for the
    mutex of the queue; or it waits for the other side. *)
Inductive outcome := Done | AtMutex | AtQueue.

Section queue.
Context `{Platform} (n : Z).

Definition GetNextPos (pos : Z) : Z := (pos +w 1) mod (n +w 1).

Definition IsFull (q : t) (k : kernel) : res bool :=
  Assert (negb (intr_on k));;
  Ok (GetNextPos (head_ q) =? tail_ q).

Definition IsEmpty (q : t) (k : kernel) : res bool :=
  Assert (negb (intr_on k));;
  Ok (head_ q =? tail_ q).

(** [Wait(waiter)] up to the switch: the new value of the pointer. *)
Definition Wait (waiter : option Z) (k : kernel) : res (option Z * kernel) :=
  Assert (bool_decide (waiter = None));;
  '(_, k') ← Block Blocked (curr k) k;
  Ok (Some (curr k), k').

Definition WakeUp (waiter : option Z) (k : kernel) : res (option Z * kernel) :=
  Assert (bool_decide (is_Some waiter));;
  w ← of_option waiter;
  k ← Unblock w k;
  Ok (None, k).

(** The [lock_guard] of a call that has to wait. *)
Definition lock (q : t) (k : kernel) : res (t * kernel * bool) :=
  '(m, k, r) ← Mutex.Lock_begin (mtx_ q) k;
  match r with
  | Mutex.Waits => Ok (mk m (prod_ q) (consr_ q) (buf_ q) (head_ q) (tail_ q), k, false)
  | Mutex.Nested => Ok (mk m (prod_ q) (consr_ q) (buf_ q) (head_ q) (tail_ q), k, true)
  | Mutex.Taken =>
      m ← Mutex.Lock_end (Mutex.Lock_set_holder m k);
      Ok (mk m (prod_ q) (consr_ q) (buf_ q) (head_ q) (tail_ q), k, true)
  end.

(** The body of the loop [while (IsFull())], with the mutex held, to the switch;
    that of [while (IsEmpty())] is the same on [consr_]. *)
Definition wait_prod (q : t) (k : kernel) : res (t * kernel) :=
  '(p, k) ← Wait (prod_ q) k;
  Ok (mk (mtx_ q) p (consr_ q) (buf_ q) (head_ q) (tail_ q), k).
Definition wait_consr (q : t) (k : kernel) : res (t * kernel) :=
  '(c, k) ← Wait (consr_ q) k;
  Ok (mk (mtx_ q) (prod_ q) c (buf_ q) (head_ q) (tail_ q), k).

(** [Push] from the test of its loop. *)
Definition Push (val : Z) (q : t) (k : kernel) : res (t * kernel * outcome) :=
  Assert (negb (intr_on k));;
  full ← IsFull q k;
  if (full : bool) then
    '(q, k, locked) ← lock q k;
    if (locked : bool) then '(q, k) ← wait_prod q k; Ok (q, k, AtQueue)
    else Ok (q, k, AtMutex)
  else
    Assert (bool_decide (Z.to_nat (head_ q) < length (buf_ q))%nat);;
    let q := mk (mtx_ q) (prod_ q) (consr_ q) (<[Z.to_nat (head_ q) := val]> (buf_ q))
               (GetNextPos (head_ q)) (tail_ q) in
    '(c, k) ← (match consr_ q with
               | Some _ => WakeUp (consr_ q) k
               | None => Ok (None, k)
               end);
    Ok (mk (mtx_ q) (prod_ q) c (buf_ q) (head_ q) (tail_ q), k, Done).

(** [Pop] from the test of its loop: the value when it is done. *)
Definition Pop (q : t) (k : kernel) : res (t * kernel * outcome * Z) :=
  Assert (negb (intr_on k));;
  empty ← IsEmpty q k;
  if (empty : bool) then
    '(q, k, locked) ← lock q k;
    if (locked : bool) then '(q, k) ← wait_consr q k; Ok (q, k, AtQueue, 0)
    else Ok (q, k, AtMutex, 0)
  else
    val ← of_option (buf_ q !! Z.to_nat (tail_ q));
    let q := mk (mtx_ q) (prod_ q) (consr_ q) (buf_ q) (head_ q) (GetNextPos (tail_ q)) in
    '(p, k) ← (match prod_ q with
               | Some _ => WakeUp (prod_ q) k
               | None => Ok (None, k)
               end);
    Ok (mk (mtx_ q) p (consr_ q) (buf_ q) (head_ q) (tail_ q), k, Done, val).

(** ** The queue as a sequence *)

Hypothesis n_range : 0 < n < 2 ^ 32 - 1.

(** The index of the [i]-th slot from the tail. *)
Definition slot (q : t) (i : Z) : Z := (tail_ q + i) mod (n + 1).

(** The buffer holds the sequence [l], the oldest element at the tail. *)
Record repr (q : t) (l : list Z) : Prop := {
  rp_len : length (buf_ q) = Z.to_nat (n + 1);
  rp_tail : 0 ≤ tail_ q < n + 1;
  rp_head : head_ q = slot q (Z.of_nat (length l));
  rp_bound : Z.of_nat (length l) ≤ n;
  rp_slots : ∀ i v, l !! i = Some v → buf_ q !! Z.to_nat (slot q (Z.of_nat i)) = Some v
}.

Lemma GetNextPos_ok p : 0 ≤ p < n + 1 → GetNextPos p = (p + 1) mod (n + 1).
Proof. intros. unfold GetNextPos. by rewrite !u32_small by lia. Qed.

Lemma slot_range q i : 0 ≤ slot q i < n + 1.
Proof. apply Z.mod_pos_bound. lia. Qed.

Lemma slot_next q i : GetNextPos (slot q i) = slot q (i + 1).
Proof.
  rewrite GetNextPos_ok by apply slot_range. unfold slot.
  rewrite Zplus_mod_idemp_l. f_equal. lia.
Qed.

(** Two slots less than [n + 1] apart are different. *)
Lemma slot_inj q i j : 0 ≤ i ≤ n → 0 ≤ j ≤ n → slot q i = slot q j → i = j.
Proof.
  intros Hi Hj Hs. unfold slot in Hs.
  assert (Hd : (i - j) mod (n + 1) = 0).
  { replace (i - j) with ((tail_ q + i) - (tail_ q + j)) by lia.
    rewrite Zminus_mod, Hs, Z.sub_diag. apply Z.mod_0_l. lia. }
  apply Z.mod_divide in Hd; [|lia]. destruct Hd as [c Hc]. assert (c = 0) by nia. subst c. lia.
Qed.

Lemma slot_0 q l : repr q l → slot q 0 = tail_ q.
Proof. intros Hr. unfold slot. rewrite Z.add_0_r. apply Z.mod_small. apply (rp_tail _ _ Hr). Qed.

Lemma IsFull_ok q l k :
  repr q l → intr_on k = false → IsFull q k = Ok (Z.of_nat (length l) =? n).
Proof.
  intros Hr Hi. unfold IsFull. rewrite Hi. cbn [negb Assert mbind res_bind]. f_equal.
  rewrite (rp_head _ _ Hr), slot_next. pose proof (rp_bound _ _ Hr).
  destruct (Z.eqb_spec (Z.of_nat (length l)) n) as [->|Hne].
  - apply Z.eqb_eq. unfold slot.
    replace (tail_ q + (n + 1)) with (tail_ q + 1 * (n + 1)) by lia.
    rewrite Z_mod_plus_full. apply Z.mod_small, (rp_tail _ _ Hr).
  - apply Z.eqb_neq. rewrite <- (slot_0 _ _ Hr). intros Hs%slot_inj; lia.
Qed.

Lemma IsEmpty_ring_ok q l k :
  repr q l → intr_on k = false → IsEmpty q k = Ok (bool_decide (l = [])).
Proof.
  intros Hr Hi. unfold IsEmpty. rewrite Hi. cbn [negb Assert mbind res_bind]. f_equal.
  rewrite (rp_head _ _ Hr). pose proof (rp_bound _ _ Hr). destruct l as [|v l].
  - change (Z.of_nat (length (@nil Z))) with 0. rewrite (slot_0 _ _ Hr), Z.eqb_refl. done.
  - rewrite bool_decide_eq_false_2 by done. apply Z.eqb_neq. rewrite <- (slot_0 _ _ Hr).
    intros Hs%slot_inj; cbn [length] in *; lia.
Qed.

(** The stores of [Push] and of [Pop] on the sequence. *)
Lemma repr_push q l v m p c :
  repr q l → Z.of_nat (length l) < n →
  repr (mk m p c (<[Z.to_nat (head_ q) := v]> (buf_ q)) (GetNextPos (head_ q)) (tail_ q)) (l ++ [v]).
Proof.
  intros Hr Hl. pose proof (slot_range q (Z.of_nat (length l))) as Hh.
  rewrite (rp_head _ _ Hr). split; cbn [buf_ head_ tail_].
  - rewrite length_insert. apply (rp_len _ _ Hr).
  - apply (rp_tail _ _ Hr).
  - rewrite slot_next. unfold slot. cbn. f_equal. rewrite length_app. cbn. lia.
  - rewrite length_app. cbn. lia.
  - intros i w Hi.
    change (<[Z.to_nat (slot q (Z.of_nat (length l))) := v]> (buf_ q)
              !! Z.to_nat (slot q (Z.of_nat i)) = Some w).
    apply lookup_app_Some in Hi as [Hi|[Hge Hi]].
    + pose proof (lookup_lt_Some _ _ _ Hi) as Hlt. rewrite list_lookup_insert_ne.
      * by apply (rp_slots _ _ Hr).
      * pose proof (slot_range q (Z.of_nat i)). intros E.
        assert (Hs : slot q (Z.of_nat (length l)) = slot q (Z.of_nat i)) by lia.
        apply slot_inj in Hs; lia.
    + apply list_lookup_singleton_Some in Hi as [Hi <-]. assert (i = length l) as -> by lia.
      rewrite list_lookup_insert_eq; [done|]. rewrite (rp_len _ _ Hr). lia.
Qed.

Lemma repr_pop q l v m p c :
  repr q (v :: l) →
  buf_ q !! Z.to_nat (tail_ q) = Some v
  ∧ repr (mk m p c (buf_ q) (head_ q) (GetNextPos (tail_ q))) l.
Proof.
  intros Hr. pose proof (rp_tail _ _ Hr) as Ht. split.
  - rewrite <- (slot_0 _ _ Hr). by apply (rp_slots _ _ Hr 0%nat).
  - assert (Hs : ∀ i, slot (mk m p c (buf_ q) (head_ q) (GetNextPos (tail_ q))) i = slot q (i + 1)).
    { intros i. unfold slot. cbn [tail_]. rewrite GetNextPos_ok by lia.
      rewrite Zplus_mod_idemp_l. f_equal. lia. }
    split; cbn [buf_ head_ tail_].
    + apply (rp_len _ _ Hr).
    + rewrite GetNextPos_ok by lia. apply Z.mod_pos_bound. lia.
    + rewrite Hs, (rp_head _ _ Hr). f_equal. cbn [length]. lia.
    + pose proof (rp_bound _ _ Hr) as Hb. cbn [length] in Hb. lia.
    + intros i w Hi. rewrite Hs. replace (Z.of_nat i + 1) with (Z.of_nat (S i)) by lia.
      by apply (rp_slots _ _ Hr).
Qed.

(** A waiting thread that the queue may wake up. *)
Definition waiter_ok (w : option Z) (k : kernel) : Prop :=
  ∀ p, w = Some p → vst (view_of k) !! p = Some Blocked.

Lemma wake_ok w k :
  kernel_ok k → waiter_ok w k →
  ∃ k', (match w with Some _ => WakeUp w k | None => Ok (None, k) end) = Ok (None, k')
    ∧ kernel_ok k' ∧ intr_on k' = intr_on k
    ∧ view_of k' = match w with Some p => spec_unblock p (view_of k) | None => view_of k end.
Proof.
  intros Hk Hw. destruct w as [p|]; [|by exists k].
  pose proof (Hw p eq_refl) as Hst. destruct (Hk) as (Hwf & Hp & Hg).
  destruct (Unblock_ok k p Blocked Hst eq_refl) as (k1 & Hu & Hv & Hf & Hi).
  { by apply (inv_not_ready _ _ _ (proj1 Hwf) Hst). }
  exists k1. unfold WakeUp. cbn. rewrite Hu. cbn. split; [done|]. split; [|done].
  apply (kernel_ok_frame k); [done..|]. rewrite Hv. by apply (unblock_wf p Blocked).
Qed.

(** The queue and the kernel agree on the waiting threads. *)
Record queue_ok (q : t) (k : kernel) (l : list Z) : Prop := {
  qo_repr : repr q l;
  qo_kernel : kernel_ok k;
  qo_intr : intr_on k = false;
  qo_prod : waiter_ok (prod_ q) k;
  qo_consr : waiter_ok (consr_ q) k;
  qo_two : ∀ p, prod_ q = Some p → consr_ q ≠ Some p
}.

Lemma waiter_ok_unblock w p k k' :
  waiter_ok w k → w ≠ Some p → view_of k' = spec_unblock p (view_of k) → waiter_ok w k'.
Proof.
  intros Hw Hne Hv r ->. rewrite Hv. cbn. rewrite lookup_insert_ne by congruence. by apply Hw.
Qed.

Lemma Push_ok q k l v :
  queue_ok q k l → Z.of_nat (length l) < n →
  ∃ q' k', Push v q k = Ok (q', k', Done) ∧ queue_ok q' k' (l ++ [v])
    ∧ consr_ q' = None ∧ prod_ q' = prod_ q
    ∧ view_of k' = match consr_ q with Some p => spec_unblock p (view_of k) | None => view_of k end.
Proof.
  intros [Hr Hk Hi Hp Hc H2] Hl. unfold Push. rewrite Hi. cbn [negb Assert mbind res_bind].
  rewrite (IsFull_ok q l k Hr Hi). cbn [mbind res_bind]. rewrite (proj2 (Z.eqb_neq _ _)) by lia.
  pose proof (slot_range q (Z.of_nat (length l))) as Hsl.
  rewrite bool_decide_eq_true_2 by (rewrite (rp_head _ _ Hr), (rp_len _ _ Hr); lia).
  cbn [negb Assert mbind res_bind consr_].
  destruct (wake_ok (consr_ q) k Hk Hc) as (k' & -> & Hk' & Hi' & Hv). cbn.
  eexists _, k'. split; [done|]. split; [|done]. split; cbn; try done.
  - by apply repr_push.
  - by rewrite Hi', Hi.
  - destruct (consr_ q) as [c|] eqn:Ec.
    + eapply waiter_ok_unblock; [exact Hp| |exact Hv]. intros E. by apply (H2 c E).
    + intros p Hq. rewrite Hv. by apply Hp.
Qed.

Lemma Pop_ring_ok q k l v :
  queue_ok q k (v :: l) →
  ∃ q' k', Pop q k = Ok (q', k', Done, v) ∧ queue_ok q' k' l
    ∧ prod_ q' = None ∧ consr_ q' = consr_ q
    ∧ view_of k' = match prod_ q with Some p => spec_unblock p (view_of k) | None => view_of k end.
Proof.
  intros [Hr Hk Hi Hp Hc H2]. unfold Pop. rewrite Hi. cbn [negb Assert mbind res_bind].
  rewrite (IsEmpty_ring_ok q _ k Hr Hi). rewrite bool_decide_eq_false_2 by done. cbn [mbind res_bind].
  destruct (repr_pop q l v (mtx_ q) None (consr_ q) Hr) as [Hb Hr']. rewrite Hb.
  cbn [of_option mbind res_bind prod_].
  destruct (wake_ok (prod_ q) k Hk Hp) as (k' & -> & Hk' & Hi' & Hv). cbn.
  eexists _, k'. split; [done|]. split; [|done]. split; cbn; try done.
  - by rewrite Hi', Hi.
  - destruct (prod_ q) as [p|] eqn:Ep.
    + eapply waiter_ok_unblock; [exact Hc| |exact Hv]. by apply H2.
    + intros p Hq. rewrite Hv. by apply Hc.
Qed.

(** ** Sequences of calls *)

Inductive op := OpPush (v : Z) | OpPop.

(** The values the pops of a sequence return; no call has to wait. *)
Fixpoint run_ops (os : list op) (q : t) (k : kernel) : res (t * kernel * list Z) :=
  match os with
  | [] => Ok (q, k, [])
  | OpPush v :: os' => '(q, k, _) ← Push v q k; run_ops os' q k
  | OpPop :: os' =>
      '(q, k, _, v) ← Pop q k;
      '(q, k, vs) ← run_ops os' q k;
      Ok (q, k, v :: vs)
  end.

Fixpoint spec_ops (os : list op) (l : list Z) : option (list Z * list Z) :=
  match os with
  | [] => Some (l, [])
  | OpPush v :: os' => if Z.of_nat (length l) <? n then spec_ops os' (l ++ [v]) else None
  | OpPop :: os' =>
      match l with
      | [] => None
      | v :: l' => '(l2, vs) ← spec_ops os' l'; Some (l2, v :: vs)
      end
  end.

(** C24. The block queue is a first-in first-out queue of exactly [n] places
    whatever the positions of its head and tail: a sequence of pushes and pops
    that never overfills nor empties it returns the values in the order they
    were pushed, wakes each waiting side once, and leaves a well-formed ring of
    the remaining values. *)
Theorem block_queue_fifo os q k l l' vs :
  queue_ok q k l → spec_ops os l = Some (l', vs) →
  ∃ q' k', run_ops os q k = Ok (q', k', vs) ∧ queue_ok q' k' l'.
Proof.
  revert q k l vs. induction os as [|[v|] os IH]; intros q k l vs Hq Hs; cbn in Hs.
  - simplify_eq. by exists q, k.
  - destruct (Z.of_nat (length l) <? n) eqn:E; [|done]. to_prop.
    destruct (Push_ok q k l v Hq E) as (q1 & k1 & HP & Hq1 & _). cbn [run_ops]. rewrite HP.
    cbn [mbind res_bind]. by apply (IH q1 k1 (l ++ [v])).
  - destruct l as [|v l]; [done|]. destruct (spec_ops os l) as [[l2 ws]|] eqn:E; cbn in Hs; [|done].
    simplify_eq. destruct (Pop_ring_ok q k l v Hq) as (q1 & k1 & HP & Hq1 & _).
    destruct (IH q1 k1 l ws Hq1 E) as (q2 & k2 & Hr & Hq2). exists q2, k2.
    cbn [run_ops]. rewrite HP. cbn [mbind res_bind]. rewrite Hr. done.
Qed.

End queue.

#[local] Existing Instance demo_platform.

(** Three slots, the tail at the last one; the idle thread stands for a waiting
    consumer. *)
Definition demo_queue : t :=
  mk (Mutex.mk (Semaphore.mk 1 []) None 0) None (Some demo_idle) [0; 0; 0] 2 2.

Lemma demo_queue_ok : queue_ok 2 demo_queue (set_intr false demo_kernel) [].
Proof.
  split; [|exact demo_ok|done..| |done].
  - split; cbn; [done|lia|done|lia|done].
  - intros p Hp. injection Hp as <-. reflexivity.
Qed.

Lemma block_queue_fifo_witness :
  ∃ q' k', run_ops 2 [OpPush 5; OpPush 6; OpPop; OpPush 7; OpPop] demo_queue
             (set_intr false demo_kernel) = Ok (q', k', [5; 6])
    ∧ queue_ok 2 q' k' [7].
Proof.
  apply (block_queue_fifo 2 ltac:(lia) _ demo_queue _ []); [exact demo_queue_ok|].
  vm_compute. reflexivity.
Defined.

(** ** A lost wake-up

    A consumer that has to wait for the mutex of the queue tests [IsEmpty]
    before it gets the mutex and waits afterwards without testing again. With a
    consumer [a] waiting in the queue and a consumer [b] waiting for its mutex,
    two pushes wake [a] only (the second finds no waiting consumer); when [a]
    has popped the first value and released the mutex, [b] takes it and blocks,
    although the second value is in the queue. *)
Definition thd_a : Z := 0xC0300000.
Definition thd_b : Z := 0xC0301000.
Definition thd_p : Z := 0xC0302000.

Definition race_kernel : kernel :=
  mkKernel (<[thd_a := demo_thread Running None]> (<[thd_b := demo_thread Ready None]>
              (<[thd_p := demo_thread Ready None]> (<[demo_idle := demo_thread Blocked None]> ∅))))
    [thd_b; thd_p] [] thd_a (Some demo_idle) (Some thd_p) ∅ false 0 0 0 0x100000 true true.

Definition race_queue : t := mk (Mutex.mk (Semaphore.mk 1 []) None 0) None None [0; 0; 0] 0 0.

(** The destructor of the guard of thread [a]. *)
Definition unlock (q : t) (k : kernel) : res (t * kernel) :=
  '(m, _) ← Mutex.Unlock_begin (mtx_ q) k;
  '(m, k) ← Mutex.Unlock_end (Mutex.Unlock_reset_holder m) k;
  Ok (mk m (prod_ q) (consr_ q) (buf_ q) (head_ q) (tail_ q), k).

Definition race : res (t * kernel * list Z) :=
  '(q, k, _, _) ← Pop 2 race_queue race_kernel;
  '(q, k, _, _) ← Pop 2 q k;
  '(q, k, _) ← Push 2 1 q k;
  '(q, k, _) ← Push 2 2 q k;
  '(_, k) ← Yield (curr k) k;
  '(q, k) ← unlock q k;
  '(q, k, _, v) ← Pop 2 q k;
  '(_, k) ← Yield (curr k) k;
  '(m, k, _) ← Mutex.Lock_round (mtx_ q) k;
  m ← Mutex.Lock_end (Mutex.Lock_set_holder m k);
  '(q, k) ← wait_consr (mk m (prod_ q) (consr_ q) (buf_ q) (head_ q) (tail_ q)) k;
  Ok (q, k, [v]).

Lemma consumer_lost_wakeup :
  ∃ q k, race = Ok (q, k, [1]) ∧ IsEmpty q k = Ok false ∧ consr_ q = Some thd_b
    ∧ vst (view_of k) !! thd_b = Some Blocked.
Proof. do 2 eexists. split; [vm_compute; reflexivity|]. repeat split; vm_compute; reflexivity. Qed.

End BlockQueue.
