(* ===== verification/IoKeyboard.v ===== *)
(** * The keyboard

    [Keyboard] models src/src/kernel/io/keyboard.cpp: the handler of the keyboard
    interrupt turns the bytes the controller sends into characters of the
    keyboard buffer, a block queue of 64 places. Reading the data port is the
    argument of [KeyboardIntrHandler]. *)
From S2P Require Import Prelude UtilBit UtilTagList IoFileDesc StlString ThreadSched ThreadSpec ThreadSync UtilBlockQueue.
Import Thread Sched.

Module Keyboard.

Definition ext_leader : Z := 0xE0.
Definition shift_left : Z := 0x2A.
Definition shift_right : Z := 0x36.
Definition alt_left : Z := 0x38.
Definition alt_right : Z := bit.CombineBytes ext_leader alt_left.
Definition ctrl_left : Z := 0x1D.
Definition ctrl_right : Z := bit.CombineBytes ext_leader ctrl_left.
Definition caps_lock : Z := 0x3A.

(** [ScanCode]: a 16-bit code. *)
Definition break_pos : Z := 7.
Definition IsBreakCode (code : Z) : bool := bit.IsBitSet 16 code break_pos.
Definition GetMakeCode (code : Z) : Z :=
  if IsBreakCode code then bit.ResetBit 16 code break_pos else code.

(** [key_map]: the characters of a make code without and with shift. *)
Definition key_map : list (Z * Z) :=
  [(0, 0); (27, 27);
   (49, 33); (50, 64); (51, 35); (52, 36); (53, 37); (54, 94); (55, 38); (56, 42); (57, 40); (48, 41);
   (45, 95); (61, 43); (8, 8); (9, 9);
   (113, 81); (119, 87); (101, 69); (114, 82); (116, 84); (121, 89); (117, 85); (105, 73); (111, 79);
   (112, 80); (91, 123); (93, 125); (13, 13); (0, 0);
   (97, 65); (115, 83); (100, 68); (102, 70); (103, 71); (104, 72); (106, 74); (107, 75); (108, 76);
   (59, 58); (39, 34); (96, 126); (0, 0); (92, 124);
   (122, 90); (120, 88); (99, 67); (118, 86); (98, 66); (110, 78); (109, 77); (44, 60); (46, 62);
   (47, 63); (0, 0); (42, 42); (0, 0); (32, 32); (0, 0)].

Definition key_map_size : Z := 0x3B.

(** [KeyHandler], without the reference to the buffer. *)
Record handler := mk {
  ctrl_pressed_ : bool;
  alt_pressed_ : bool;
  shift_pressed_ : bool;
  caps_lock_enabled_ : bool;
  is_ext_scan_code_ : bool
}.

Definition UpdateCtrlKeyStatus (make_code : Z) (pressed : bool) (h : handler) : res handler :=
  Assert (negb (IsBreakCode make_code));;
  Ok (if (make_code =? ctrl_left) || (make_code =? ctrl_right) then
        mk pressed (alt_pressed_ h) (shift_pressed_ h) (caps_lock_enabled_ h) (is_ext_scan_code_ h)
      else if (make_code =? shift_left) || (make_code =? shift_right) then
        mk (ctrl_pressed_ h) (alt_pressed_ h) pressed (caps_lock_enabled_ h) (is_ext_scan_code_ h)
      else if (make_code =? alt_left) || (make_code =? alt_right) then
        mk (ctrl_pressed_ h) pressed (shift_pressed_ h) (caps_lock_enabled_ h) (is_ext_scan_code_ h)
      else if pressed && (make_code =? caps_lock) then
        mk (ctrl_pressed_ h) (alt_pressed_ h) (shift_pressed_ h) (negb (caps_lock_enabled_ h))
          (is_ext_scan_code_ h)
      else h).

Definition IsSupportedKey (make_code : Z) : res bool :=
  Assert (negb (IsBreakCode make_code));;
  Ok (((0 <? make_code) && (make_code <? key_map_size))
      || (make_code =? alt_right) || (make_code =? ctrl_right)).

(** [key_map[bit::GetLowByte(make_code)][shift]] *)
Definition key_char (make_code : Z) (shift : bool) : res Z :=
  e ← of_option (key_map !! Z.to_nat (bit.GetLowByte make_code));
  Ok (if shift then e.2 else e.1).

(** The characters whose upper row does not depend on Caps-Lock. *)
Definition is_symbol (ch : Z) : bool :=
  ((48 <=? ch) && (ch <=? 57)) || existsb (Z.eqb ch) [45; 61; 96; 91; 93; 92; 59; 39; 44; 46; 47].

Definition IsShiftEnabled (make_code : Z) (h : handler) : res bool :=
  s ← IsSupportedKey make_code;
  Assert s;;
  ch ← key_char make_code false;
  Ok (if is_symbol ch then shift_pressed_ h
      else if shift_pressed_ h && caps_lock_enabled_ h then false
      else if shift_pressed_ h || caps_lock_enabled_ h then true
      else false).

(** The part of [Enter] before the buffer: the new state, and the character, if
    any, to be pushed. *)
Definition decode (scan_code : Z) (h : handler) : res (handler * option Z) :=
  if scan_code =? ext_leader then
    Ok (mk (ctrl_pressed_ h) (alt_pressed_ h) (shift_pressed_ h) (caps_lock_enabled_ h) true, None)
  else
    let full_scan_code :=
      if is_ext_scan_code_ h then bit.CombineBytes ext_leader scan_code else scan_code in
    let h := mk (ctrl_pressed_ h) (alt_pressed_ h) (shift_pressed_ h) (caps_lock_enabled_ h) false in
    let make_code := GetMakeCode full_scan_code in
    if IsBreakCode full_scan_code then
      h ← UpdateCtrlKeyStatus make_code false h;
      Ok (h, None)
    else
      supported ← IsSupportedKey make_code;
      if (supported : bool) then
        h ← UpdateCtrlKeyStatus make_code true h;
        is_shift_enabled ← IsShiftEnabled make_code h;
        ch ← key_char make_code is_shift_enabled;
        Ok (h, if negb (ch =? 0) then Some ch else None)
      else Ok (h, None).

Definition buffer_size : Z := 64.

Section handler.
Context `{Platform}.

(** [Enter] *)
Definition Enter (scan_code : Z) (h : handler) (buf : BlockQueue.t) (k : kernel)
  : res (handler * BlockQueue.t * kernel) :=
  '(h, ch) ← decode scan_code h;
  match ch with
  | None => Ok (h, buf, k)
  | Some ch =>
      full ← BlockQueue.IsFull buffer_size buf k;
      if (full : bool) then Ok (h, buf, k)
      else
        '(buf, k, _) ← BlockQueue.Push buffer_size ch buf k;
        Ok (h, buf, k)
  end.

(** [KeyboardIntrHandler]: the byte is what [ReadByteFromPort] gives. *)
Definition KeyboardIntrHandler (scan_code : Z) (h : handler) (buf : BlockQueue.t) (k : kernel)
  : res (handler * BlockQueue.t * kernel) := Enter scan_code h buf k.

End handler.

(** ** Decoding is total *)

Definition bools : list bool := [true; false].
Definition handlers : list handler :=
  a ← bools; b ← bools; c ← bools; d ← bools; e ← bools; [mk a b c d e].
Definition codes : list Z := Z.of_nat <$> seq 0 256.

#[export] Instance handler_eq_dec : EqDecision handler.
Proof. solve_decision. Defined.

Lemma handler_in h : h ∈ handlers.
Proof. destruct h as [[] [] [] [] []]; refine (bool_decide_eq_true_1 _ _); vm_compute; reflexivity. Qed.

Lemma code_in c : in_u 8 c → c ∈ codes.
Proof.
  intros Hc. unfold in_u in Hc. apply list_elem_of_fmap. exists (Z.to_nat c).
  rewrite Z2Nat.id by lia. split; [done|]. apply elem_of_seq. lia.
Qed.

(** A property of every byte and every state of the handler, by evaluation. *)
Definition all_inputs (P : Z → handler → bool) : bool :=
  forallb (fun c => forallb (P c) handlers) codes.

Lemma all_inputs_ok P : all_inputs P = true → ∀ c h, in_u 8 c → P c h = true.
Proof.
  intros Ha c h Hc. unfold all_inputs in Ha. rewrite forallb_forall in Ha.
  pose proof (Ha c (proj1 (list_elem_of_In _ _) (code_in c Hc))) as Hh.
  rewrite forallb_forall in Hh. apply Hh, list_elem_of_In, handler_in.
Qed.

Definition letter (ch : Z) : bool := (97 <=? ch) && (ch <=? 122).

(** What a key gives: the upper row for symbols under Shift, upper case for
    letters under exactly one of Shift and Caps-Lock. *)
Definition expected (lower upper : Z) (h : handler) : Z :=
  if (if letter lower then xorb (shift_pressed_ h) (caps_lock_enabled_ h) else shift_pressed_ h)
  then upper else lower.

(** The same modifiers, and no extended code pending. *)
Definition plain (h h' : handler) : bool :=
  bool_decide (h' = mk (ctrl_pressed_ h) (alt_pressed_ h) (shift_pressed_ h) (caps_lock_enabled_ h) false).

(** A key that has a character, pressed without a prefix. *)
Definition char_key_ok (c : Z) (h : handler) : bool :=
  match key_map !! Z.to_nat c with
  | Some (lower, upper) =>
      if (lower =? 0) || is_ext_scan_code_ h then true
      else
        match decode c h with
        | Ok (h', Some ch) =>
            plain h h' &&
            (if letter lower || is_symbol lower then ch =? expected lower upper h
             else (ch =? lower) || (ch =? upper))
        | _ => false
        end
  | None => true
  end.

(** Every byte in every state: no assertion, no read out of the table. *)
Definition total_ok (c : Z) (h : handler) : bool :=
  is_ok (decode c h).

(** The bytes of pressing and of releasing a key, with its prefix if it has one;
    the release is the press with bit 7 set. *)
Definition press (ext : bool) (c : Z) : list Z := if ext then [ext_leader; c] else [c].
Definition release (ext : bool) (c : Z) : list Z := press ext (Z.lor c 0x80).

Fixpoint decode_all (cs : list Z) (h : handler) : res (handler * list Z) :=
  match cs with
  | [] => Ok (h, [])
  | c :: cs' =>
      '(h, ch) ← decode c h;
      '(h, chs) ← decode_all cs' h;
      Ok (h, (match ch with Some ch => [ch] | None => [] end) ++ chs)
  end.

(** Which modifier a key is. *)
Inductive modifier := MCtrl | MShift | MAlt | MCaps.
Definition modifier_of (ext : bool) (c : Z) : option modifier :=
  if c =? ctrl_left then Some MCtrl
  else if c =? alt_left then Some MAlt
  else if ext then None
  else if (c =? shift_left) || (c =? shift_right) then Some MShift
  else if c =? caps_lock then Some MCaps
  else None.

Definition with_modifier (m : option modifier) (pressed : bool) (h : handler) : handler :=
  match m with
  | Some MCtrl => mk pressed (alt_pressed_ h) (shift_pressed_ h) (caps_lock_enabled_ h) false
  | Some MAlt => mk (ctrl_pressed_ h) pressed (shift_pressed_ h) (caps_lock_enabled_ h) false
  | Some MShift => mk (ctrl_pressed_ h) (alt_pressed_ h) pressed (caps_lock_enabled_ h) false
  | Some MCaps =>
      mk (ctrl_pressed_ h) (alt_pressed_ h) (shift_pressed_ h)
        (if pressed then negb (caps_lock_enabled_ h) else caps_lock_enabled_ h) false
  | None => mk (ctrl_pressed_ h) (alt_pressed_ h) (shift_pressed_ h) (caps_lock_enabled_ h) false
  end.

(** Pressing sets exactly the modifier of the key (Caps-Lock toggles), releasing
    resets it and types nothing. *)
Definition modifier_ok (c : Z) (h : handler) : bool :=
  if (c <? 0x80) && negb (is_ext_scan_code_ h) && negb (c =? 0x60) then
    forallb (fun ext =>
      match decode_all (press ext c) h, decode_all (release ext c) h with
      | Ok (h1, _), Ok (h2, chs) =>
          bool_decide (h1 = with_modifier (modifier_of ext c) true h)
          && bool_decide (h2 = with_modifier (modifier_of ext c) false h)
          && bool_decide (chs = [])
      | _, _ => false
      end) bools
  else true.

Lemma total_all : all_inputs total_ok = true.
Proof. vm_compute. reflexivity. Qed.

Lemma char_key_all : all_inputs char_key_ok = true.
Proof. vm_compute. reflexivity. Qed.

Lemma modifier_all : all_inputs modifier_ok = true.
Proof. vm_compute. reflexivity. Qed.

Lemma decode_total c h : in_u 8 c → ∃ h' ch, decode c h = Ok (h', ch).
Proof.
  intros Hc. pose proof (all_inputs_ok _ total_all c h Hc) as Ht. unfold total_ok in Ht.
  destruct (decode c h) as [[h' ch]| | |]; try done. eauto.
Qed.

(** C28. The keyboard handler returns on every byte in every state, typing at
    most one character: it is appended to the buffer when there is room and
    dropped when the buffer is full, so that the interrupt handler never blocks. *)
Theorem Enter_total `{Platform} c h buf k l :
  in_u 8 c → BlockQueue.queue_ok buffer_size buf k l →
  ∃ h' ch buf' k', decode c h = Ok (h', ch) ∧ Enter c h buf k = Ok (h', buf', k')
    ∧ BlockQueue.queue_ok buffer_size buf' k'
        (match ch with
         | Some ch => if Z.of_nat (length l) <? buffer_size then l ++ [ch] else l
         | None => l
         end)
    ∧ curr k' = curr k.
Proof.
  intros Hc Hq. destruct (decode_total c h Hc) as (h' & ch & Hd). exists h', ch. unfold Enter.
  rewrite Hd. cbn [mbind res_bind]. destruct ch as [ch|]; [|by exists buf, k].
  assert (Hn : 0 < buffer_size < 2 ^ 32 - 1) by (unfold buffer_size; lia).
  pose proof (BlockQueue.rp_bound _ _ _ (BlockQueue.qo_repr _ _ _ _ Hq)) as Hb.
  rewrite (BlockQueue.IsFull_ok _ Hn _ _ _ (BlockQueue.qo_repr _ _ _ _ Hq)
             (BlockQueue.qo_intr _ _ _ _ Hq)). cbn [mbind res_bind].
  destruct (Z.of_nat (length l) =? buffer_size) eqn:E; to_prop.
  - rewrite (proj2 (Z.ltb_ge _ _)) by lia. by exists buf, k.
  - rewrite (proj2 (Z.ltb_lt _ _)) by lia.
    destruct (BlockQueue.Push_ok _ Hn buf k l ch Hq) as (q' & k' & Hp & Hq' & _ & _ & Hv); [lia|].
    rewrite Hp. cbn [mbind res_bind]. exists q', k'. split; [done|]. split; [done|]. split; [done|].
    change (vcurr (view_of k') = vcurr (view_of k)). rewrite Hv.
    by destruct (BlockQueue.consr_ buf).
Qed.

#[local] Existing Instance demo_platform.

Definition demo_handler : handler := mk false false true false false.
Definition demo_buffer : BlockQueue.t :=
  BlockQueue.mk (Mutex.mk (Semaphore.mk 1 []) None 0) None None (replicate 65 0) 64 64.

Lemma demo_buffer_ok : BlockQueue.queue_ok buffer_size demo_buffer (set_intr false demo_kernel) [].
Proof. split; [|exact demo_ok|done..]. split; cbn; done. Qed.

(** The key A with Shift held. *)
Lemma Enter_total_witness :
  ∃ h' ch buf' k', decode 0x1E demo_handler = Ok (h', ch)
    ∧ Enter 0x1E demo_handler demo_buffer (set_intr false demo_kernel) = Ok (h', buf', k')
    ∧ BlockQueue.queue_ok buffer_size buf' k'
        (match ch with Some ch => if 0 <? buffer_size then [ch] else [] | None => [] end)
    ∧ curr k' = demo_main.
Proof.
  apply (Enter_total 0x1E demo_handler demo_buffer (set_intr false demo_kernel) []);
    [unfold in_u; lia|exact demo_buffer_ok].
Defined.

(** What a key types: pressed without a prefix, a key with a character
    types it and changes no modifier; letters are upper case under exactly one
    of Shift and Caps-Lock, digits and punctuation take their upper row under
    Shift whatever Caps-Lock is. *)
Theorem decode_char_key c h lower upper :
  in_u 8 c → key_map !! Z.to_nat c = Some (lower, upper) → lower ≠ 0 → is_ext_scan_code_ h = false →
  ∃ ch, decode c h
        = Ok (mk (ctrl_pressed_ h) (alt_pressed_ h) (shift_pressed_ h) (caps_lock_enabled_ h) false,
              Some ch)
    ∧ (letter lower || is_symbol lower = true → ch = expected lower upper h)
    ∧ (ch = lower ∨ ch = upper).
Proof.
  intros Hc Hk Hl He. pose proof (all_inputs_ok _ char_key_all c h Hc) as Ht. unfold char_key_ok in Ht.
  rewrite Hk, He in Ht. rewrite (proj2 (Z.eqb_neq _ _) Hl) in Ht. cbn [orb] in Ht.
  destruct (decode c h) as [[h' [ch|]]| | |]; try done. apply andb_true_iff in Ht as [Hp Ht].
  apply bool_decide_eq_true in Hp as ->. exists ch. split; [done|].
  destruct (letter lower || is_symbol lower); to_prop.
  - subst ch. split; [done|]. unfold expected. destruct (if letter lower then _ else _); auto.
  - split; [done|]. apply orb_true_iff in Ht as [Ht|Ht]; to_prop; auto.
Qed.

Lemma decode_char_key_witness :
  ∃ ch, decode 0x1E demo_handler = Ok (mk false false true false false, Some ch)
    ∧ (letter 97 || is_symbol 97 = true → ch = expected 97 65 demo_handler) ∧ (ch = 97 ∨ ch = 65).
Proof.
  apply (decode_char_key 0x1E demo_handler 97 65); [unfold in_u; lia|reflexivity|lia|reflexivity].
Defined.

(** Modifiers: the bytes of a key press set exactly the modifier of the key,
    left or right, with or without the prefix (Caps-Lock toggles, the other keys
    change nothing); the bytes of its release reset it and type nothing, and no
    prefix stays pending. *)
Theorem modifiers_exact c h ext :
  0 ≤ c < 0x80 → c ≠ 0x60 → is_ext_scan_code_ h = false →
  (∃ chs, decode_all (press ext c) h = Ok (with_modifier (modifier_of ext c) true h, chs))
  ∧ decode_all (release ext c) h = Ok (with_modifier (modifier_of ext c) false h, []).
Proof.
  intros Hc Hne He. assert (H8 : in_u 8 c) by (unfold in_u; lia).
  pose proof (all_inputs_ok _ modifier_all c h H8) as Ht. unfold modifier_ok in Ht.
  rewrite He, (proj2 (Z.ltb_lt _ _)) in Ht by lia. rewrite (proj2 (Z.eqb_neq _ _) Hne) in Ht.
  cbn [andb negb] in Ht. rewrite forallb_forall in Ht.
  assert (Hin : List.In ext bools) by (destruct ext; simpl; tauto). specialize (Ht ext Hin).
  destruct (decode_all (press ext c) h) as [[h1 c1]| | |]; try done.
  destruct (decode_all (release ext c) h) as [[h2 c2]| | |]; try done.
  apply andb_true_iff in Ht as [Ht H3]. apply andb_true_iff in Ht as [H1 H2].
  apply bool_decide_eq_true in H1 as ->. apply bool_decide_eq_true in H2 as ->.
  apply bool_decide_eq_true in H3 as ->. eauto.
Qed.

(** The right Ctrl key: the prefix and the code of Ctrl. *)
Lemma modifiers_exact_witness :
  (∃ chs, decode_all [0xE0; 0x1D] demo_handler = Ok (mk true false true false false, chs))
  ∧ decode_all [0xE0; 0x9D] demo_handler = Ok (mk false false true false false, []).
Proof. apply (modifiers_exact 0x1D demo_handler true); [lia|lia|reflexivity]. Defined.

End Keyboard.
