(* ===== verification/MemPage.v ===== *)
(** * Page entries and virtual addresses

    [Page] models the constants and helpers of src/include/kernel/memory/page.h,
    [PageEntry] the page table entry and [VrAddr] the virtual address of the
    same file. What the entries mean to the processor is in MemMap. *)
From S2P Require Import Prelude UtilBit.

Module Page.

Definition page_dir_count : Z := 1024.
Definition page_dir_self_ref : Z := page_dir_count - 1.
Definition page_size : Z := metric.KB 4.
Definition krnl_base : Z := 0xC0000000.
Definition krnl_size : Z := metric.MB 1.
Definition krnl_page_dir_phy_base : Z := metric.MB 1.
Definition page_dir_base : Z := 0xFFFFF000.

Definition AlignToPageBase (addr : Z) : Z := metric.BackwardAlign addr page_size.
Definition CalcPageCount (size : Z) : Z := metric.ForwardAlign size page_size / page_size.

Lemma page_size_eq : page_size = 4096.
Proof. reflexivity. Qed.

Lemma AlignToPageBase_eq a : 0 ≤ a < 2 ^ 32 → AlignToPageBase a = a / 4096 * 4096.
Proof.
  intros. unfold AlignToPageBase, metric.BackwardAlign. rewrite page_size_eq.
  rewrite u32_small; pose proof (Z.div_mod a 4096); pose proof (Z.mod_pos_bound a 4096); lia.
Qed.

(** As many pages as hold [size] bytes, and no more. *)
Lemma CalcPageCount_spec n :
  0 < n ≤ 2 ^ 32 - 4096 → (CalcPageCount n - 1) * 4096 < n ≤ CalcPageCount n * 4096.
Proof.
  intros. unfold CalcPageCount, metric.ForwardAlign. rewrite page_size_eq.
  pose proof (metric.RoundUpDivide_spec n 4096).
  rewrite u32_small by lia. rewrite Z.div_mul by lia. lia.
Qed.
End Page.

Module PageEntry.

Definition p_pos : Z := 0.
Definition rw_pos : Z := p_pos + 1.
Definition us_pos : Z := rw_pos + 1.
Definition addr_pos : Z := 12.
Definition addr_len : Z := 20.

Definition IsSupervisor (entry : Z) : bool := negb (bit.IsBitSet 32 entry us_pos).
Definition SetSupervisor (supervisor : bool) (entry : Z) : Z :=
  if supervisor then bit.ResetBit 32 entry us_pos else bit.SetBit 32 entry us_pos.

Definition IsWritable (entry : Z) : bool := bit.IsBitSet 32 entry rw_pos.
Definition SetWritable (writable : bool) (entry : Z) : Z :=
  if writable then bit.SetBit 32 entry rw_pos else bit.ResetBit 32 entry rw_pos.

Definition IsPresent (entry : Z) : bool := bit.IsBitSet 32 entry p_pos.
Definition SetPresent (present : bool) (entry : Z) : Z :=
  if present then bit.SetBit 32 entry p_pos else bit.ResetBit 32 entry p_pos.

Definition GetAddress (entry : Z) : Z :=
  u32 (Z.shiftl (bit.GetBits 32 entry addr_pos addr_len) addr_pos).
Definition SetAddress (phy_addr : Z) (entry : Z) : Z :=
  bit.SetBits 32 entry (bit.GetBits 32 phy_addr addr_pos addr_len) addr_pos addr_len.

Definition Format (phy_addr : Z) (writable supervisor present : bool) : Z :=
  SetPresent present (SetWritable writable (SetSupervisor supervisor (SetAddress phy_addr 0))).

(** ** The fields *)

Lemma IsPresent_bit e : IsPresent e = Z.testbit e 0.
Proof. unfold IsPresent, p_pos. by rewrite bit.IsBitSet_testbit by lia. Qed.

Lemma GetAddress_eq e : 0 ≤ e < 2 ^ 32 → GetAddress e = e / 4096 * 4096.
Proof.
  intros. unfold GetAddress, addr_pos, addr_len.
  rewrite bit.GetBits_div_mod, Z.shiftl_mul_pow2 by lia.
  change (2 ^ 12) with 4096. change (2 ^ 20) with 1048576.
  assert (e / 4096 < 1048576) by (apply Z.div_lt_upper_bound; lia).
  assert (0 ≤ e / 4096) by (apply Z.div_pos; lia).
  rewrite Z.mod_small by lia. apply u32_small. pose proof (Z.mul_div_le e 4096). lia.
Qed.

Lemma GetAddress_aligned e : GetAddress e mod 4096 = 0.
Proof.
  unfold GetAddress, addr_pos, u32, wrap. rewrite Z.shiftl_mul_pow2 by lia.
  change (2 ^ 32) with (1048576 * 4096). change (2 ^ 12) with 4096.
  rewrite Z.mul_mod_distr_r by lia. apply Z.mod_mul. lia.
Qed.

Lemma GetAddress_range e : 0 ≤ GetAddress e < 2 ^ 32.
Proof. apply u32_range. Qed.

Lemma testbit_SetSupervisor e s i :
  in_u 32 e → 0 ≤ i →
  Z.testbit (SetSupervisor s e) i = if i =? us_pos then negb s else Z.testbit e i.
Proof.
  intros. assert (0 ≤ us_pos < 32) by done. unfold SetSupervisor. destruct s.
  - rewrite bit.testbit_ResetBit by (done || lia). by case_match.
  - rewrite bit.testbit_SetBit by (done || lia). by case_match.
Qed.

Lemma testbit_SetWritable e s i :
  in_u 32 e → 0 ≤ i →
  Z.testbit (SetWritable s e) i = if i =? rw_pos then s else Z.testbit e i.
Proof.
  intros. assert (0 ≤ rw_pos < 32) by done. unfold SetWritable. destruct s.
  - rewrite bit.testbit_SetBit by (done || lia). by case_match.
  - rewrite bit.testbit_ResetBit by (done || lia). by case_match.
Qed.

Lemma testbit_SetPresent e s i :
  in_u 32 e → 0 ≤ i →
  Z.testbit (SetPresent s e) i = if i =? p_pos then s else Z.testbit e i.
Proof.
  intros. assert (0 ≤ p_pos < 32) by done. unfold SetPresent. destruct s.
  - rewrite bit.testbit_SetBit by (done || lia). by case_match.
  - rewrite bit.testbit_ResetBit by (done || lia). by case_match.
Qed.

Lemma testbit_SetAddress e pa i :
  in_u 32 e → 0 ≤ i →
  Z.testbit (SetAddress pa e) i
  = if (12 <=? i) && (i <? 32) then Z.testbit pa i else Z.testbit e i.
Proof.
  intros. unfold SetAddress, addr_pos, addr_len.
  rewrite bit.testbit_SetBits by (done || lia).
  change (12 + 20) with 32. destruct (_ && _) eqn:E; [|done]. to_prop.
  rewrite bit.testbit_GetBits by lia.
  destruct (Z.ltb_spec (i - 12) 20); [|lia]. simpl. f_equal. lia.
Qed.

Lemma SetSupervisor_range s e : in_u 32 (SetSupervisor s e).
Proof. unfold SetSupervisor. case_match; [apply bit.ResetBit_range|apply bit.SetBit_range]; lia. Qed.
Lemma SetWritable_range s e : in_u 32 (SetWritable s e).
Proof. unfold SetWritable. case_match; [apply bit.SetBit_range|apply bit.ResetBit_range]; lia. Qed.
Lemma SetPresent_range s e : in_u 32 (SetPresent s e).
Proof. unfold SetPresent. case_match; [apply bit.SetBit_range|apply bit.ResetBit_range]; lia. Qed.
Lemma SetAddress_range pa e : in_u 32 (SetAddress pa e).
Proof. apply bit.SetBits_range. lia. Qed.
#[export] Hint Resolve SetSupervisor_range SetWritable_range SetPresent_range SetAddress_range : kernel.

(** What an entry says: an address and three flags. *)
Record view := mkView { v_addr : Z; v_writable : bool; v_supervisor : bool; v_present : bool }.

Definition view_of (e : Z) : view :=
  mkView (GetAddress e) (IsWritable e) (IsSupervisor e) (IsPresent e).

Lemma testbit_GetAddress e i :
  0 ≤ i → Z.testbit (GetAddress e) i = (12 <=? i) && (i <? 32) && Z.testbit e i.
Proof.
  intros. unfold GetAddress, addr_pos, addr_len, u32. rewrite testbit_wrap by lia.
  destruct (Z.ltb_spec i 32); [|bits_fin].
  rewrite Z.shiftl_spec by lia. destruct (Z.leb_spec 12 i).
  - rewrite bit.testbit_GetBits by lia. destruct (Z.ltb_spec (i - 12) 20); [|lia].
    simpl. f_equal. lia.
  - by rewrite Z.testbit_neg_r by lia.
Qed.

Lemma view_eq e a w s p :
  (∀ i, 12 ≤ i < 32 → Z.testbit e i = Z.testbit a i) →
  Z.testbit e 1 = w → Z.testbit e 2 = negb s → Z.testbit e 0 = p →
  view_of e = mkView (GetAddress a) w s p.
Proof.
  intros Ha Hw Hs Hp. unfold view_of. f_equal.
  - apply Z.bits_inj'; intros i Hi. rewrite !testbit_GetAddress by done.
    bits_cases; simpl; try done. by apply Ha.
  - unfold IsWritable. by rewrite bit.IsBitSet_testbit by done.
  - unfold IsSupervisor. rewrite bit.IsBitSet_testbit by done.
    change us_pos with 2. rewrite Hs. by destruct s.
  - by rewrite IsPresent_bit.
Qed.

Ltac entry_bits :=
  repeat first
    [ rewrite testbit_SetPresent by (eauto with kernel || lia)
    | rewrite testbit_SetWritable by (eauto with kernel || lia)
    | rewrite testbit_SetSupervisor by (eauto with kernel || lia)
    | rewrite testbit_SetAddress by (eauto with kernel || lia) ];
  unfold us_pos, rw_pos, p_pos; bits_cases; try done.

(** Every setter changes its own field and keeps the others. *)
Lemma view_setters e pa b :
  in_u 32 e →
  view_of (SetAddress pa e) = mkView (GetAddress pa) (IsWritable e) (IsSupervisor e) (IsPresent e)
  ∧ view_of (SetWritable b e) = mkView (GetAddress e) b (IsSupervisor e) (IsPresent e)
  ∧ view_of (SetSupervisor b e) = mkView (GetAddress e) (IsWritable e) b (IsPresent e)
  ∧ view_of (SetPresent b e) = mkView (GetAddress e) (IsWritable e) (IsSupervisor e) b.
Proof.
  intros He.
  assert (HW : IsWritable e = Z.testbit e 1) by (unfold IsWritable; by rewrite bit.IsBitSet_testbit).
  assert (HS : Z.testbit e 2 = negb (IsSupervisor e))
    by (unfold IsSupervisor; by rewrite bit.IsBitSet_testbit, negb_involutive).
  rewrite HW, (IsPresent_bit e).
  split_and!; apply view_eq; intros; rewrite <- ?HS; by entry_bits.
Qed.

(** The entry the kernel writes to map a page: [SetAddress(phy_addr)],
    [SetSupervisor(false)], [SetWritable()], [SetPresent()]. *)
Lemma view_mapped e pa :
  in_u 32 e →
  view_of (SetPresent true (SetWritable true (SetSupervisor false (SetAddress pa e))))
  = mkView (GetAddress pa) true false true.
Proof. intros. apply view_eq; intros; entry_bits. Qed.

(** [PageEntry::Format] and the accessors round trip: an entry made from a
    page-aligned physical address and the three flags reads back as exactly
    them. *)
Theorem Format_roundtrip pa w s p :
  0 ≤ pa < 2 ^ 32 → pa mod 4096 = 0 →
  view_of (Format pa w s p) = mkView pa w s p.
Proof.
  intros Hpa Hal. replace (mkView pa w s p) with (mkView (GetAddress pa) w s p).
  - unfold Format. assert (in_u 32 0) by (unfold in_u; lia).
    apply view_eq; intros; by entry_bits.
  - rewrite GetAddress_eq by done. f_equal. pose proof (Z.div_mod pa 4096). lia.
Qed.

Lemma Format_roundtrip_witness :
  view_of (Format 0x00123000 true false true) = mkView 0x00123000 true false true.
Proof. apply (Format_roundtrip 0x00123000 true false true); [lia|reflexivity]. Defined.
End PageEntry.

Module VrAddr.
Import Page.

Definition offset_pos : Z := 0.
Definition offset_len : Z := 12.
Definition page_tab_entry_pos : Z := offset_pos + offset_len.
Definition page_tab_entry_len : Z := 10.
Definition page_dir_entry_pos : Z := page_tab_entry_pos + page_tab_entry_len.
Definition page_dir_entry_len : Z := 10.
Definition sizeof_PageEntry : Z := 4.

Definition GetPageDirEntryIdx (addr : Z) : Z :=
  bit.GetBits 32 addr page_dir_entry_pos page_dir_entry_len.
Definition SetPageDirEntryIdx (idx addr : Z) : Z :=
  bit.SetBits 32 addr idx page_dir_entry_pos page_dir_entry_len.
Definition GetPageTabEntryIdx (addr : Z) : Z :=
  bit.GetBits 32 addr page_tab_entry_pos page_tab_entry_len.
Definition SetPageTabEntryIdx (idx addr : Z) : Z :=
  bit.SetBits 32 addr idx page_tab_entry_pos page_tab_entry_len.
Definition GetOffset (addr : Z) : Z := bit.GetBits 32 addr offset_pos offset_len.
Definition SetOffset (offset addr : Z) : Z := bit.SetBits 32 addr offset offset_pos offset_len.
Definition GetPageAddr (addr : Z) : Z := addr -w GetOffset addr.
Definition IsNull (addr : Z) : bool := addr =? 0.

Definition Format (page_dir_entry page_tab_entry offset : Z) : Z :=
  SetOffset offset (SetPageTabEntryIdx page_tab_entry (SetPageDirEntryIdx page_dir_entry 0)).

(** The addresses the references [GetPageDirEntry] and [GetPageTabEntry] return
    designate. *)
Definition PageDirEntry_addr (addr : Z) : Z :=
  SetOffset (GetPageDirEntryIdx addr *w sizeof_PageEntry)
    (SetPageTabEntryIdx page_dir_self_ref (SetPageDirEntryIdx page_dir_self_ref 0)).
Definition PageTabEntry_addr (addr : Z) : Z :=
  SetOffset (GetPageTabEntryIdx addr *w sizeof_PageEntry)
    (SetPageTabEntryIdx (GetPageDirEntryIdx addr) (SetPageDirEntryIdx page_dir_self_ref 0)).

Definition krnl_page_dir_start : Z := GetPageDirEntryIdx krnl_base.
Definition krnl_page_dir_count : Z := page_dir_count - krnl_page_dir_start - 1.

(** ** The fields, as arithmetic *)

Lemma GetPageDirEntryIdx_eq a : 0 ≤ a < 2 ^ 32 → GetPageDirEntryIdx a = a / 4194304.
Proof.
  intros. unfold GetPageDirEntryIdx. rewrite bit.GetBits_div_mod by done.
  change (2 ^ page_dir_entry_pos) with 4194304. change (2 ^ page_dir_entry_len) with 1024.
  apply Z.mod_small. split; [apply Z.div_pos; lia|apply Z.div_lt_upper_bound; lia].
Qed.

Lemma GetPageTabEntryIdx_eq a : GetPageTabEntryIdx a = (a / 4096) mod 1024.
Proof. unfold GetPageTabEntryIdx. by rewrite bit.GetBits_div_mod by done. Qed.

Lemma GetOffset_eq a : GetOffset a = a mod 4096.
Proof.
  unfold GetOffset. rewrite bit.GetBits_div_mod by done.
  change (2 ^ offset_pos) with 1. by rewrite Z.div_1_r.
Qed.

Lemma GetPageDirEntryIdx_range a : 0 ≤ GetPageDirEntryIdx a < 1024.
Proof. apply (bit.GetBits_range 32); done. Qed.
Lemma GetPageTabEntryIdx_range a : 0 ≤ GetPageTabEntryIdx a < 1024.
Proof. apply (bit.GetBits_range 32); done. Qed.
Lemma GetOffset_range a : 0 ≤ GetOffset a < 4096.
Proof. apply (bit.GetBits_range 32); done. Qed.

Lemma GetPageAddr_eq a : 0 ≤ a < 2 ^ 32 → GetPageAddr a = a / 4096 * 4096.
Proof.
  intros. unfold GetPageAddr. rewrite GetOffset_eq.
  pose proof (Z.div_mod a 4096). pose proof (Z.mod_pos_bound a 4096).
  rewrite u32_small; lia.
Qed.

(** An address is determined by its three fields. *)
Lemma addr_fields a :
  0 ≤ a < 2 ^ 32 →
  a = GetPageDirEntryIdx a * 4194304 + GetPageTabEntryIdx a * 4096 + GetOffset a.
Proof.
  intros. rewrite GetPageDirEntryIdx_eq, GetPageTabEntryIdx_eq, GetOffset_eq by done.
  pose proof (Z.div_mod a 4096). pose proof (Z.div_mod (a / 4096) 1024).
  rewrite Z.div_div in * by lia. change (4096 * 1024) with 4194304 in *. lia.
Qed.

Lemma Set_fields d t o :
  GetPageDirEntryIdx (Format d t o) = wrap 10 d ∧ GetPageTabEntryIdx (Format d t o) = wrap 10 t
  ∧ GetOffset (Format d t o) = wrap 12 o ∧ in_u 32 (Format d t o).
Proof.
  unfold Format, GetPageDirEntryIdx, GetPageTabEntryIdx, GetOffset, SetOffset, SetPageTabEntryIdx,
    SetPageDirEntryIdx, page_dir_entry_pos, page_dir_entry_len, page_tab_entry_pos,
    page_tab_entry_len, offset_pos, offset_len.
  assert (in_u 32 0) by (unfold in_u; lia).
  assert (∀ v b i c, in_u 32 (bit.SetBits 32 v b i c)) by (intros; apply bit.SetBits_range; lia).
  split_and!; [| | |done].
  - rewrite bit.GetBits_SetBits_other, bit.GetBits_SetBits_other, bit.GetBits_SetBits by done || lia.
    done.
  - rewrite bit.GetBits_SetBits_other, bit.GetBits_SetBits by done || lia. done.
  - by rewrite bit.GetBits_SetBits by done.
Qed.

(** [VrAddr::Format] and the accessors of a virtual address round trip, in
    both directions, for every 32-bit address. *)
Theorem VrAddr_roundtrip a d t o :
  in_u 32 a → in_u 10 d → in_u 10 t → in_u 12 o →
  Format (GetPageDirEntryIdx a) (GetPageTabEntryIdx a) (GetOffset a) = a
  ∧ GetPageDirEntryIdx (Format d t o) = d ∧ GetPageTabEntryIdx (Format d t o) = t
  ∧ GetOffset (Format d t o) = o.
Proof.
  intros Ha Hd Ht Ho. destruct (Set_fields d t o) as (E1 & E2 & E3 & _).
  rewrite !wrap_small in E1, E2, E3 by done. split_and!; try done.
  destruct (Set_fields (GetPageDirEntryIdx a) (GetPageTabEntryIdx a) (GetOffset a))
    as (F1 & F2 & F3 & F4).
  rewrite wrap_small in F1 by apply GetPageDirEntryIdx_range.
  rewrite wrap_small in F2 by apply GetPageTabEntryIdx_range.
  rewrite wrap_small in F3 by apply GetOffset_range.
  by rewrite (addr_fields (Format _ _ _)), F1, F2, F3, <- addr_fields by done.
Qed.

Lemma VrAddr_roundtrip_witness :
  Format (GetPageDirEntryIdx 0xC0100ABC) (GetPageTabEntryIdx 0xC0100ABC) (GetOffset 0xC0100ABC)
  = 0xC0100ABC ∧ GetPageDirEntryIdx (Format 768 256 7) = 768
  ∧ GetPageTabEntryIdx (Format 768 256 7) = 256 ∧ GetOffset (Format 768 256 7) = 7.
Proof. apply (VrAddr_roundtrip 0xC0100ABC 768 256 7); unfold in_u; lia. Defined.

(** The two references are at the addresses the comments of page.h give. *)
Lemma PageDirEntry_addr_eq a : PageDirEntry_addr a = page_dir_base + 4 * GetPageDirEntryIdx a.
Proof.
  pose proof (GetPageDirEntryIdx_range a).
  change (PageDirEntry_addr a) with (Format 1023 1023 (GetPageDirEntryIdx a *w sizeof_PageEntry)).
  destruct (Set_fields 1023 1023 (GetPageDirEntryIdx a *w sizeof_PageEntry)) as (E1 & E2 & E3 & E4).
  rewrite (addr_fields (Format _ _ _)), E1, E2, E3 by done.
  unfold sizeof_PageEntry, page_dir_base.
  rewrite u32_small by lia. rewrite (wrap_small 12), !(wrap_small 10) by (unfold in_u; lia). lia.
Qed.

Lemma PageTabEntry_addr_eq a :
  PageTabEntry_addr a = 0xFFC00000 + 4096 * GetPageDirEntryIdx a + 4 * GetPageTabEntryIdx a.
Proof.
  pose proof (GetPageDirEntryIdx_range a). pose proof (GetPageTabEntryIdx_range a).
  change (PageTabEntry_addr a)
    with (Format 1023 (GetPageDirEntryIdx a) (GetPageTabEntryIdx a *w sizeof_PageEntry)).
  destruct (Set_fields 1023 (GetPageDirEntryIdx a) (GetPageTabEntryIdx a *w sizeof_PageEntry))
    as (E1 & E2 & E3 & E4).
  rewrite (addr_fields (Format _ _ _)), E1, E2, E3 by done. unfold sizeof_PageEntry.
  rewrite u32_small by lia. rewrite (wrap_small 12), !(wrap_small 10) by (unfold in_u; lia). lia.
Qed.

(** The fields of those two addresses: the last directory entry, which refers
    to the directory itself, takes the place of a page table. *)
Lemma PageDirEntry_fields a :
  GetPageDirEntryIdx (PageDirEntry_addr a) = 1023 ∧ GetPageTabEntryIdx (PageDirEntry_addr a) = 1023
  ∧ GetOffset (PageDirEntry_addr a) = 4 * GetPageDirEntryIdx a.
Proof.
  pose proof (GetPageDirEntryIdx_range a).
  change (PageDirEntry_addr a) with (Format 1023 1023 (GetPageDirEntryIdx a *w sizeof_PageEntry)).
  destruct (Set_fields 1023 1023 (GetPageDirEntryIdx a *w sizeof_PageEntry)) as (-> & -> & -> & _).
  unfold sizeof_PageEntry. rewrite u32_small by lia.
  rewrite (wrap_small 12), !(wrap_small 10) by (unfold in_u; lia). lia.
Qed.

Lemma PageTabEntry_fields a :
  GetPageDirEntryIdx (PageTabEntry_addr a) = 1023
  ∧ GetPageTabEntryIdx (PageTabEntry_addr a) = GetPageDirEntryIdx a
  ∧ GetOffset (PageTabEntry_addr a) = 4 * GetPageTabEntryIdx a.
Proof.
  pose proof (GetPageDirEntryIdx_range a). pose proof (GetPageTabEntryIdx_range a).
  change (PageTabEntry_addr a)
    with (Format 1023 (GetPageDirEntryIdx a) (GetPageTabEntryIdx a *w sizeof_PageEntry)).
  destruct (Set_fields 1023 (GetPageDirEntryIdx a) (GetPageTabEntryIdx a *w sizeof_PageEntry))
    as (-> & -> & -> & _). unfold sizeof_PageEntry.
  rewrite u32_small by lia. rewrite (wrap_small 12), !(wrap_small 10) by (unfold in_u; lia). lia.
Qed.
End VrAddr.
