(* ===== verification/MemPool.v ===== *)
(** * Page pools

    [PagePool] holds what the two pools of src/src/kernel/memory/pool.cpp share:
    their data (a start address, a counter of free pages and a bitmap), its
    invariant, and what the bitmap operations do to it. [VrAddrPool] and
    [PhyMemPagePool] are the operations of the two classes, and [MemInit] models
    [InitMem], which lays the pools out. The lock of a physical pool is held
    during every operation on it; it is not part of the data here. *)
From S2P Require Import Prelude UtilBit UtilBitmap MemPage.
Import Page.

Module PagePool.

Record t := mk { start_addr_ : Z; free_count_ : Z; bitmap_ : Bitmap.t }.

(** ** Counting free bits *)

Definition nfree (f : Z → bool) (lo n : Z) : Z :=
  Z.of_nat (length (filter (λ i, f i = false) (seqZ lo n))).

Lemma nfree_split f lo n m :
  0 ≤ n → 0 ≤ m → nfree f lo (n + m) = nfree f lo n + nfree f (lo + n) m.
Proof. intros. unfold nfree. rewrite seqZ_app, filter_app, length_app by done. lia. Qed.

Lemma nfree_ext f g lo n : (∀ i, lo ≤ i < lo + n → f i = g i) → nfree f lo n = nfree g lo n.
Proof.
  intros E. unfold nfree. do 2 f_equal.
  assert (H : Forall (λ i, f i = g i) (seqZ lo n)).
  { apply Forall_forall. intros i Hi%elem_of_seqZ. by apply E. }
  induction H as [|i l Hi _ IH]; [done|].
  rewrite !filter_cons. rewrite Hi, IH. done.
Qed.

Lemma nfree_const f lo n b :
  0 ≤ n → (∀ i, lo ≤ i < lo + n → f i = b) → nfree f lo n = if b then 0 else n.
Proof.
  intros Hn E. rewrite (nfree_ext f (λ _, b)) by done. unfold nfree. destruct b.
  - induction (seqZ lo n) as [|i l IH]; [done|]. by rewrite filter_cons_False.
  - replace (filter _ (seqZ lo n)) with (seqZ lo n); [rewrite length_seqZ; lia|].
    induction (seqZ lo n) as [|i l IH]; [done|]. rewrite filter_cons_True by done. by f_equal.
Qed.

Lemma nfree_range f lo n : 0 ≤ n → 0 ≤ nfree f lo n ≤ n.
Proof.
  intros. unfold nfree. pose proof (length_filter (λ i, f i = false) (seqZ lo n)) as Hl.
  rewrite length_seqZ in Hl. lia.
Qed.

(** Changing a range of [n] indices from free to taken, or back. *)
Lemma nfree_update f g c s n :
  0 ≤ s → 0 ≤ n → s + n ≤ c →
  (∀ i, 0 ≤ i < c → ¬ (s ≤ i < s + n) → f i = g i) →
  (∀ i, s ≤ i < s + n → f i = false) → (∀ i, s ≤ i < s + n → g i = true) →
  nfree f 0 c = nfree g 0 c + n.
Proof.
  intros. replace c with (s + (n + (c - s - n))) by lia.
  rewrite !(nfree_split _ 0 s), !(nfree_split _ (0 + s) n) by lia.
  rewrite (nfree_ext f g 0 s) by (intros; apply H2; lia).
  rewrite (nfree_ext f g (0 + s + n) _) by (intros; apply H2; lia).
  rewrite (nfree_const f (0 + s) n false), (nfree_const g (0 + s) n true); [lia|lia|..].
  - intros. apply H4. lia.
  - lia.
  - intros. apply H3. lia.
Qed.

(** ** The invariant *)

(** The address of page [i], and whether a page is taken. *)
Definition page_at (p : t) (i : Z) : Z := start_addr_ p + i * 4096.
Definition capacity (p : t) : Z := Bitmap.cap (bitmap_ p).
Definition taken (p : t) (i : Z) : bool := Bitmap.alloc_at (bitmap_ p) i.

Record ok (p : t) : Prop := {
  ok_wf : Bitmap.wf (bitmap_ p);
  ok_start : 0 < start_addr_ p ∧ start_addr_ p mod 4096 = 0;
  ok_end : start_addr_ p + capacity p * 4096 ≤ 2 ^ 32;
  ok_count : free_count_ p = nfree (taken p) 0 (capacity p)
}.

(** [p'] is [p] with the [count] pages from [i] taken ([v]) or free. *)
Definition changed (p p' : t) (i count : Z) (v : bool) : Prop :=
  start_addr_ p' = start_addr_ p ∧ capacity p' = capacity p
  ∧ (free_count_ p' = if v then free_count_ p - count else free_count_ p + count)
  ∧ (∀ j, 0 ≤ j → taken p' j = if (i <=? j) && (j <? i + count) then v else taken p j).

(** The first run of [count] free pages, or there is none. *)
Definition first_run (p : t) (count i : Z) : Prop :=
  Bitmap.free_run (bitmap_ p) i count ∧ ∀ s, s < i → ¬ Bitmap.free_run (bitmap_ p) s count.

Lemma capacity_pos p : ok p → 0 < capacity p < 2 ^ 20.
Proof.
  intros [Hwf [H0 _] He _]. destruct (Bitmap.cap_u32 _ Hwf) as [? _]. unfold capacity in *. lia.
Qed.

Lemma ok_free_count p : ok p → 0 ≤ free_count_ p ≤ capacity p.
Proof. intros H. rewrite (ok_count p H). apply nfree_range. pose proof (capacity_pos p H). lia. Qed.

Lemma page_at_aligned p i : ok p → page_at p i mod 4096 = 0.
Proof. intros [_ [_ E] _ _]. unfold page_at. by rewrite Z.mod_add by lia. Qed.

(** What [Bitmap::Alloc] gives the pools. *)
Lemma bitmap_alloc_ok p count :
  ok p → 0 < count →
  (Bitmap.Alloc (bitmap_ p) count = Ok (bitmap_ p, metric.npos)
   ∧ ∀ s, ¬ Bitmap.free_run (bitmap_ p) s count) ∨
  (∃ b' i, Bitmap.Alloc (bitmap_ p) count = Ok (b', i) ∧ i ≠ metric.npos ∧ first_run p count i
     ∧ count ≤ free_count_ p ∧ 0 ≤ i ∧ i + count ≤ capacity p
     ∧ ok (mk (start_addr_ p) (free_count_ p - count) b')
     ∧ changed p (mk (start_addr_ p) (free_count_ p - count) b') i count true).
Proof.
  intros Hok Hc. pose proof (ok_wf p Hok) as Hwf.
  destruct (Bitmap.Alloc_ok _ count Hwf Hc) as ([b' i] & HA & [(-> & -> & Hno)|(Hi & Hrun & Hfst & Hu)]).
  { left. done. }
  right. pose proof Hrun as (H0 & H1 & Hfree). destruct Hu as (Hwf' & Hlen & Hat).
  assert (Hcap : Bitmap.cap b' = capacity p) by (unfold capacity, Bitmap.cap; by rewrite Hlen).
  fold (capacity p) in H1.
  set (p' := mk (start_addr_ p) (free_count_ p - count) b').
  assert (Hcnt : nfree (taken p) 0 (capacity p) = nfree (taken p') 0 (capacity p) + count).
  { apply (nfree_update _ _ _ i); try lia.
    - intros j Hj Hn. unfold taken, p'. simpl. rewrite Hat by lia. bits_cases; done.
    - intros j Hj. by apply Hfree.
    - intros j Hj. unfold taken, p'. simpl. rewrite Hat by lia. bits_cases; done. }
  pose proof (nfree_range (taken p') 0 (capacity p)) as Hr. pose proof (capacity_pos p Hok).
  pose proof (ok_count p Hok). exists b', i. split_and!; try done; try lia.
  destruct Hok as [_ Hs He _]. split; unfold capacity; simpl; try done.
  - by rewrite Hcap.
  - rewrite Hcap. fold p'. lia.
Qed.

(** What [Bitmap::Free] gives the pools, for pages that are taken. *)
Lemma bitmap_free_ok p i count :
  ok p → 0 < count → 0 ≤ i → i + count ≤ capacity p →
  (∀ j, i ≤ j < i + count → taken p j = true) →
  ∃ b', Bitmap.Free (bitmap_ p) i count = Ok b'
    ∧ ok (mk (start_addr_ p) (free_count_ p + count) b')
    ∧ changed p (mk (start_addr_ p) (free_count_ p + count) b') i count false.
Proof.
  intros Hok Hc Hi Hle Ht. pose proof (ok_wf p Hok) as Hwf.
  destruct (Bitmap.Free_ok _ i count Hwf Hi Hc Hle) as (b' & HF & Hwf' & Hlen & Hat).
  assert (Hcap : Bitmap.cap b' = capacity p) by (unfold capacity, Bitmap.cap; by rewrite Hlen).
  set (p' := mk (start_addr_ p) (free_count_ p + count) b').
  assert (Hcnt : nfree (taken p') 0 (capacity p) = nfree (taken p) 0 (capacity p) + count).
  { apply (nfree_update _ _ _ i); try lia; try done.
    - intros j Hj Hn. unfold taken, p'. simpl. rewrite Hat by lia. bits_cases; done.
    - intros j Hj. unfold taken, p'. simpl. rewrite Hat by lia. bits_cases; done. }
  exists b'. split; [done|]. split; [|split_and!; done].
  pose proof (ok_count p Hok). destruct Hok as [_ Hs He _]. split; unfold capacity; simpl; try done.
  - by rewrite Hcap.
  - rewrite Hcap. fold p'. lia.
Qed.

(** The index of a page, from its address. *)
Lemma page_idx p i :
  ok p → 0 ≤ i < capacity p → (page_at p i -w start_addr_ p) / page_size = i.
Proof.
  intros Hok Hi. pose proof (capacity_pos p Hok). unfold page_at.
  rewrite u32_small by lia. replace (start_addr_ p + i * 4096 - start_addr_ p) with (i * 4096) by lia.
  apply Z.div_mul. done.
Qed.

Lemma page_addr_ok p i :
  ok p → 0 ≤ i < capacity p →
  start_addr_ p +w i *w page_size = page_at p i ∧ 0 < page_at p i < 2 ^ 32.
Proof.
  intros Hok Hi. pose proof (capacity_pos p Hok). destruct Hok as [_ [Hs _] He _].
  rewrite page_size_eq. unfold page_at. rewrite (u32_small (i * 4096)) by lia.
  rewrite u32_small by lia. lia.
Qed.
End PagePool.

Module VrAddrPool.
Import PagePool.

Definition Init (start_vr_addr : Z) (bitmap : Bitmap.t) : t :=
  mk start_vr_addr (Bitmap.GetCapacity bitmap) bitmap.

Definition AllocPages (count : Z) (p : t) : res (t * Z) :=
  Assert (0 <? count);;
  '(bitmap, bit_begin) ← Bitmap.Alloc (bitmap_ p) count;
  if negb (bit_begin =? metric.npos) then
    Assert (count <=? free_count_ p);;
    Ok (mk (start_addr_ p) (free_count_ p -w count) bitmap,
        start_addr_ p +w bit_begin *w page_size)
  else Ok (p, 0).

Definition AllocPageAtAddr (vr_addr : Z) (p : t) : res (t * Z) :=
  let align_vr_addr := AlignToPageBase vr_addr in
  let bit_idx := (align_vr_addr -w start_addr_ p) / page_size in
  bitmap ← Bitmap.ForceAlloc (bitmap_ p) bit_idx 1;
  Assert (1 <=? free_count_ p);;
  Ok (mk (start_addr_ p) (free_count_ p -w 1) bitmap, align_vr_addr).

Definition FreePages (vr_base count : Z) (p : t) : res t :=
  Assert (0 <? count);;
  Assert ((start_addr_ p <=? vr_base) && (vr_base mod page_size =? 0));;
  let bit_idx := (vr_base -w start_addr_ p) / page_size in
  bitmap ← Bitmap.Free (bitmap_ p) bit_idx count;
  Ok (mk (start_addr_ p) (free_count_ p +w count) bitmap).

Definition GetFreeCount (p : t) : Z := free_count_ p.
Definition GetStartAddr (p : t) : Z := start_addr_ p.
Definition GetBitmap (p : t) : Bitmap.t := bitmap_ p.
End VrAddrPool.

Module PhyMemPagePool.
Import PagePool.

Definition Init (start_phy_addr : Z) (bitmap : Bitmap.t) : res t :=
  bitmap ← Bitmap.Clear bitmap;
  Ok (mk start_phy_addr (Bitmap.GetCapacity bitmap) bitmap).

Definition AllocPages (count : Z) (p : t) : res (t * Z) :=
  Assert (0 <? count);;
  '(bitmap, bit_begin) ← Bitmap.Alloc (bitmap_ p) count;
  if negb (bit_begin =? metric.npos) then
    Assert (count <=? free_count_ p);;
    Ok (mk (start_addr_ p) (free_count_ p -w count) bitmap,
        start_addr_ p +w bit_begin *w page_size)
  else Ok (p, 0).

Definition FreePages (phy_base count : Z) (p : t) : res t :=
  Assert (0 <? count);;
  Assert ((start_addr_ p <=? phy_base) && (phy_base mod page_size =? 0));;
  let bit_idx := (phy_base -w start_addr_ p) / page_size in
  bitmap ← Bitmap.Free (bitmap_ p) bit_idx count;
  Ok (mk (start_addr_ p) (free_count_ p +w count) bitmap).

Definition GetFreeCount (p : t) : Z := free_count_ p.
Definition GetStartAddr (p : t) : Z := start_addr_ p.

Lemma phy_AllocPages_ok p count :
  ok p → 0 < count →
  (AllocPages count p = Ok (p, 0) ∧ ∀ s, ¬ Bitmap.free_run (bitmap_ p) s count) ∨
  (∃ p' i, AllocPages count p = Ok (p', page_at p i) ∧ page_at p i ≠ 0 ∧ first_run p count i
     ∧ 0 ≤ i ∧ i + count ≤ capacity p ∧ ok p' ∧ changed p p' i count true).
Proof.
  intros Hok Hc. pose proof (ok_free_count p Hok). pose proof (capacity_pos p Hok).
  unfold AllocPages. destruct (Z.ltb_spec 0 count); [|lia]. simpl.
  destruct (bitmap_alloc_ok p count Hok Hc)
    as [[-> Hno]|(b' & i & -> & Hi & Hrun & Hle & Hi0 & Hi1 & Hok' & Hch)]; simpl.
  { left. done. }
  right. destruct (Z.eqb_spec i metric.npos); [done|]. simpl.
  destruct (Z.leb_spec count (free_count_ p)); [|lia]. simpl.
  rewrite (u32_small (free_count_ p - count)) by lia.
  destruct (page_addr_ok p i Hok) as [-> ?]; [lia|].
  eexists _, i. split_and!; try done. lia.
Qed.

Lemma FreePages_ok p i count :
  ok p → 0 < count → 0 ≤ i → i + count ≤ capacity p →
  (∀ j, i ≤ j < i + count → taken p j = true) →
  ∃ p', FreePages (page_at p i) count p = Ok p' ∧ ok p' ∧ changed p p' i count false.
Proof.
  intros Hok Hc Hi Hle Ht. pose proof (ok_free_count p Hok). pose proof (capacity_pos p Hok).
  unfold FreePages. destruct (Z.ltb_spec 0 count); [|lia]. simpl.
  rewrite page_size_eq, (page_at_aligned p i Hok).
  destruct (Z.leb_spec (start_addr_ p) (page_at p i)); [|unfold page_at in *; lia]. simpl.
  rewrite <- page_size_eq, (page_idx p i Hok) by lia.
  destruct (bitmap_free_ok p i count Hok Hc Hi Hle Ht) as (b' & -> & Hok' & Hch). simpl.
  rewrite u32_small by lia. eauto.
Qed.

(** C34. A physical page pool hands out pages that were free, marks exactly
    them, keeps its counter equal to the number of free pages, and fails
    exactly when there is no run of the requested length; giving the pages
    back restores the set of free pages. *)
Theorem phy_pool_alloc_free p count :
  ok p → 0 < count →
  (AllocPages count p = Ok (p, 0) ∧ ∀ s, ¬ Bitmap.free_run (bitmap_ p) s count) ∨
  ∃ p1 p2 i, AllocPages count p = Ok (p1, page_at p i) ∧ page_at p i ≠ 0
    ∧ page_at p i mod 4096 = 0 ∧ first_run p count i
    ∧ ok p1 ∧ changed p p1 i count true
    ∧ FreePages (page_at p i) count p1 = Ok p2 ∧ ok p2
    ∧ free_count_ p2 = free_count_ p ∧ (∀ j, 0 ≤ j → taken p2 j = taken p j).
Proof.
  intros Hok Hc. destruct (phy_AllocPages_ok p count Hok Hc)
    as [|(p1 & i & HA & Hne & Hrun & Hi0 & Hi1 & Hok1 & Hch)]; [by left|right].
  pose proof Hch as (Hs & Hcap & Hn & Ht).
  destruct (FreePages_ok p1 i count Hok1 Hc Hi0) as (p2 & HF & Hok2 & _ & _ & Hn2 & Ht2).
  { lia. } { intros j Hj. rewrite Ht by lia. bits_cases; done. }
  exists p1, p2, i. split_and!; try done; try lia.
  - by apply page_at_aligned.
  - replace (page_at p i) with (page_at p1 i); [done|]. unfold page_at. by rewrite Hs.
  - intros j Hj. rewrite Ht2, Ht by done. destruct Hrun as [(_ & _ & Hf) _].
    bits_cases; simpl; try done. symmetry. apply Hf. lia.
Qed.

Definition demo_pool : t := mk 0x200000 13 (Bitmap.mk 2 (Some [7; 0])).

Lemma demo_pool_ok : ok demo_pool.
Proof.
  split; [split; [eexists; split_and!; [done|done|]|done|vm_compute; done]|done|vm_compute; done|done].
  repeat constructor; done.
Qed.

Lemma phy_pool_alloc_free_witness :
  ok demo_pool ∧
  AllocPages 4 demo_pool = Ok (mk 0x200000 9 (Bitmap.mk 2 (Some [127; 0])), 0x203000) ∧
  ((AllocPages 4 demo_pool = Ok (demo_pool, 0) ∧ ∀ s, ¬ Bitmap.free_run (bitmap_ demo_pool) s 4) ∨
  ∃ p1 p2 i, AllocPages 4 demo_pool = Ok (p1, page_at demo_pool i) ∧ page_at demo_pool i ≠ 0
    ∧ page_at demo_pool i mod 4096 = 0 ∧ first_run demo_pool 4 i
    ∧ ok p1 ∧ changed demo_pool p1 i 4 true
    ∧ FreePages (page_at demo_pool i) 4 p1 = Ok p2 ∧ ok p2
    ∧ free_count_ p2 = free_count_ demo_pool ∧ (∀ j, 0 ≤ j → taken p2 j = taken demo_pool j)).
Proof.
  split_and!; [apply demo_pool_ok|vm_compute; reflexivity|].
  apply (phy_pool_alloc_free demo_pool 4 demo_pool_ok). lia.
Defined.
End PhyMemPagePool.

Module MemInit.
Import PagePool.

Definition bitmap_base : Z := krnl_base +w 0x0009A000.
Definition krnl_heap_base : Z := krnl_base +w 0x00100000.

(** The constants [InitMem] computes from the size of the memory. *)
Record layout := mkLayout {
  krnl_mem_base : Z;
  usr_mem_base : Z;
  krnl_bitmap_base : Z;
  krnl_bitmap_len : Z;
  usr_bitmap_base : Z;
  usr_bitmap_len : Z
}.

Definition used_mem_size : Z :=
  page_size +w page_size *w VrAddr.krnl_page_dir_count +w krnl_size.

Definition mem_layout (total_mem_size : Z) : layout :=
  let free_mem_size := total_mem_size -w used_mem_size in
  let free_page_count := free_mem_size / page_size in
  let krnl_free_page_count := free_page_count / 2 in
  let usr_free_page_count := free_page_count -w krnl_free_page_count in
  let krnl_mem_size := krnl_free_page_count *w page_size in
  let krnl_mem_base := used_mem_size in
  let usr_mem_base := krnl_mem_base +w krnl_mem_size in
  let krnl_bitmap_len := krnl_free_page_count / bit.byte_len in
  let usr_bitmap_len := usr_free_page_count / bit.byte_len in
  let krnl_bitmap_base := bitmap_base in
  let usr_bitmap_base := krnl_bitmap_base +w krnl_bitmap_len in
  mkLayout krnl_mem_base usr_mem_base krnl_bitmap_base krnl_bitmap_len usr_bitmap_base
    usr_bitmap_len.

(** The bitmap of the kernel's addresses follows the other two. *)
Definition addr_bitmap_base (l : layout) : Z := usr_bitmap_base l +w usr_bitmap_len l.

(** The three static pools. *)
Record pools := mkPools { krnl_mem_pool : t; usr_mem_pool : t; krnl_addr_pool : t }.

(** The bytes of memory from [base]. *)
Definition buffer (ram : Z → Z) (base len : Z) : list Z :=
  (λ i, ram (base +w i)) <$> seqZ 0 len.

(** [InitMem]: [ram] is what the memory holds, [total_mem_size] the word the
    loader left for [GetTotalMemSize]. *)
Definition InitMem (ram : Z → Z) (total_mem_size : Z) (inited : bool) : res (pools * bool) :=
  Assert (negb inited);;
  Assert (0 <? total_mem_size);;
  let l := mem_layout total_mem_size in
  kb ← Bitmap.Init (Some (buffer ram (krnl_bitmap_base l) (krnl_bitmap_len l))) (krnl_bitmap_len l) true;
  krnl_mem ← PhyMemPagePool.Init (krnl_mem_base l) kb;
  ub ← Bitmap.Init (Some (buffer ram (usr_bitmap_base l) (usr_bitmap_len l))) (usr_bitmap_len l) true;
  usr_mem ← PhyMemPagePool.Init (usr_mem_base l) ub;
  ab ← Bitmap.Init (Some (buffer ram (addr_bitmap_base l) (krnl_bitmap_len l))) (krnl_bitmap_len l) true;
  Ok (mkPools krnl_mem usr_mem (VrAddrPool.Init krnl_heap_base ab), true).

(** [IsKrnlMem] on a physical address, and [GetSrcMemPool]. *)
Inductive PoolType := Kernel | User.
Definition IsKrnlMem (phy_addr : Z) (s : pools) : bool :=
  phy_addr <? start_addr_ (usr_mem_pool s).
Definition GetSrcMemPool (phy_addr : Z) (s : pools) : PoolType :=
  if IsKrnlMem phy_addr s then Kernel else User.

(** ** A cleared bitmap *)

Definition zero_bitmap (len : Z) : Bitmap.t := Bitmap.mk len (Some (Bitmap.zeros len)).

Lemma length_buffer ram base len : 0 ≤ len → Z.of_nat (length (buffer ram base len)) = len.
Proof. intros. unfold buffer. rewrite length_fmap, length_seqZ. lia. Qed.

Lemma Clear_buffer l len :
  Z.of_nat (length l) = len → Bitmap.Clear (Bitmap.mk len (Some l)) = Ok (zero_bitmap len).
Proof.
  intros Hl. unfold Bitmap.Clear. simpl. rewrite Hl, Z.ltb_irrefl.
  rewrite drop_ge by lia. by rewrite app_nil_r.
Qed.

Lemma Init_buffer ram base len :
  0 < len → Bitmap.Init (Some (buffer ram base len)) len true = Ok (zero_bitmap len).
Proof.
  intros. unfold Bitmap.Init. rewrite bool_decide_eq_true_2 by eauto.
  destruct (Z.ltb_spec 0 len); [|lia]. simpl. apply Clear_buffer. apply length_buffer. lia.
Qed.

Lemma zero_bitmap_wf len : 0 < len → len * 8 < metric.npos → Bitmap.wf (zero_bitmap len).
Proof.
  intros. split; [|done|done]. eexists. split_and!; [done| |].
  - unfold Bitmap.zeros. rewrite length_replicate. simpl. lia.
  - unfold Bitmap.zeros. apply Forall_replicate. unfold in_u; lia.
Qed.

Lemma zero_bitmap_free len i : Bitmap.alloc_at (zero_bitmap len) i = false.
Proof.
  unfold Bitmap.alloc_at. simpl. destruct (_ !! _) eqn:E; [|done].
  unfold Bitmap.zeros in E. apply lookup_replicate in E as [-> _]. by rewrite Z.bits_0.
Qed.

(** A pool over a cleared bitmap is well formed and entirely free. *)
Lemma fresh_pool_ok start len :
  0 < start → start mod 4096 = 0 → 0 < len → start + len * 8 * 4096 ≤ 2 ^ 32 →
  ok (mk start (len * 8) (zero_bitmap len)).
Proof.
  intros Hs Hm Hl He. assert (len * 8 < metric.npos) by (rewrite metric.npos_eq; lia).
  split; unfold capacity, taken; simpl; try done.
  - by apply zero_bitmap_wf.
  - unfold Bitmap.cap. simpl. rewrite (nfree_const _ 0 _ false).
    + done.
    + unfold bit.byte_len. lia.
    + intros. apply zero_bitmap_free.
Qed.

Lemma GetCapacity_zero len :
  0 < len < 2 ^ 20 → Bitmap.GetCapacity (zero_bitmap len) = len * 8.
Proof. intros. unfold Bitmap.GetCapacity, bit.byte_len. simpl. apply u32_small. lia. Qed.

Lemma phy_pool_fresh start len :
  0 < len < 2 ^ 20 →
  PhyMemPagePool.Init start (zero_bitmap len) = Ok (mk start (len * 8) (zero_bitmap len)).
Proof.
  intros. unfold PhyMemPagePool.Init. unfold zero_bitmap at 1. rewrite (Clear_buffer (Bitmap.zeros len) len).
  - simpl. by rewrite GetCapacity_zero.
  - unfold Bitmap.zeros. rewrite length_replicate. lia.
Qed.

(** The layout, as arithmetic, for memories of up to 514 megabytes. *)
Lemma mem_layout_eq total :
  0x210000 ≤ total ≤ 0x20200000 →
  let pages := (total - 0x200000) / 4096 in
  mem_layout total
  = mkLayout 0x200000 (0x200000 + pages / 2 * 4096) 0xC009A000 (pages / 2 / 8)
      (0xC009A000 + pages / 2 / 8) ((pages - pages / 2) / 8).
Proof.
  intros Ht pages. unfold mem_layout.
  change used_mem_size with 0x200000. change page_size with 4096. change bit.byte_len with 8.
  change bitmap_base with 0xC009A000. rewrite (u32_small (total - 0x200000)) by lia.
  fold pages.
  assert (Hp : 16 ≤ pages ≤ 131072) by (unfold pages; div_lia).
  assert (Hh : 8 ≤ pages / 2 ≤ 65536) by div_lia.
  assert (Hb : 1 ≤ pages / 2 / 8 ≤ 8192) by div_lia.
  rewrite (u32_small (pages - pages / 2)), (u32_small (pages / 2 * 4096)), !u32_small by div_lia.
  done.
Qed.

(** The buffers of the three bitmaps, by address and length, and that they lie
    one behind the other between the kernel's stack and the video memory. *)
Definition bitmap_buffers (l : layout) : list (Z * Z) :=
  [(krnl_bitmap_base l, krnl_bitmap_len l); (usr_bitmap_base l, usr_bitmap_len l); (addr_bitmap_base l, krnl_bitmap_len l)].
Definition apart (r1 r2 : Z * Z) : Prop := r1.1 + r1.2 ≤ r2.1 ∨ r2.1 + r2.2 ≤ r1.1.
Definition bitmaps_apart (l : layout) : Prop :=
  (∀ r, r ∈ bitmap_buffers l → bitmap_base ≤ r.1 ∧ 0 < r.2 ∧ r.1 + r.2 ≤ 0xC00A0000)
  ∧ ∀ (i j : nat) r1 r2, bitmap_buffers l !! i = Some r1 → bitmap_buffers l !! j = Some r2 → i ≠ j → apart r1 r2.

Lemma bitmaps_apart_ok total : 0x210000 ≤ total ≤ 0x20200000 → bitmaps_apart (mem_layout total).
Proof.
  intros Ht. rewrite (mem_layout_eq total Ht). set (pages := (total - 0x200000) / 4096).
  assert (Hp : 16 ≤ pages ≤ 131072) by (unfold pages; div_lia).
  set (kl := pages / 2 / 8). set (ul := (pages - pages / 2) / 8).
  assert (Hkl : 1 ≤ kl ≤ 8192 ∧ kl * 8 ≤ pages / 2) by (unfold kl; div_lia).
  assert (Hul : 1 ≤ ul ≤ 8192 ∧ ul * 8 ≤ pages - pages / 2) by (unfold ul; div_lia).
  unfold bitmaps_apart, bitmap_buffers, addr_bitmap_base, apart. cbn. change bitmap_base with 0xC009A000.
  rewrite u32_small by lia. split.
  - intros r Hr. repeat (apply elem_of_cons in Hr as [->|Hr]; [cbn; lia|]). by apply elem_of_nil in Hr.
  - intros [|[|[|i]]] [|[|[|j]]] r1 r2 H1 H2 Hne; cbn in H1, H2; simplify_eq; cbn; lia.
Qed.

(** A smaller memory leaves a pool without a byte of bitmap. *)
Lemma InitMem_too_small ram total : 0x200000 ≤ total < 0x210000 → InitMem ram total false = Panic.
Proof.
  intros Ht. unfold InitMem. rewrite (Assert_true (negb false)), Assert_true, !res_bind_ok by lia.
  assert (E : krnl_bitmap_len (mem_layout total) = 0).
  { unfold mem_layout. cbn. change used_mem_size with 0x200000. change page_size with 4096. change bit.byte_len with 8.
    rewrite u32_small by lia. div_lia. }
  rewrite E. reflexivity.
Qed.

(** Where everything is after [InitMem]. *)
Lemma InitMem_ok ram total :
  0x210000 ≤ total ≤ 0x20200000 →
  ∃ s, InitMem ram total false = Ok (s, true)
    ∧ ok (krnl_mem_pool s) ∧ ok (usr_mem_pool s) ∧ ok (krnl_addr_pool s)
    ∧ (∀ p, p ∈ [krnl_mem_pool s; usr_mem_pool s; krnl_addr_pool s] →
         free_count_ p = capacity p ∧ ∀ i, taken p i = false)
    ∧ start_addr_ (krnl_mem_pool s) = used_mem_size
    ∧ page_at (krnl_mem_pool s) (capacity (krnl_mem_pool s)) ≤ start_addr_ (usr_mem_pool s)
    ∧ page_at (usr_mem_pool s) (capacity (usr_mem_pool s)) ≤ total
    ∧ (∀ i, 0 ≤ i < capacity (krnl_mem_pool s) →
         GetSrcMemPool (page_at (krnl_mem_pool s) i) s = Kernel)
    ∧ (∀ i, 0 ≤ i < capacity (usr_mem_pool s) →
         GetSrcMemPool (page_at (usr_mem_pool s) i) s = User)
    ∧ start_addr_ (krnl_addr_pool s) = krnl_heap_base
    ∧ capacity (krnl_addr_pool s) = capacity (krnl_mem_pool s)
    ∧ bitmaps_apart (mem_layout total)
    ∧ let pages := (total - 0x200000) / 4096 in
      capacity (krnl_mem_pool s) = pages / 2 / 8 * 8
      ∧ capacity (usr_mem_pool s) = (pages - pages / 2) / 8 * 8.
Proof.
  intros Ht. pose proof (bitmaps_apart_ok total Ht) as Hba. unfold InitMem. rewrite (mem_layout_eq total Ht) in *. simpl.
  set (pages := (total - 0x200000) / 4096).
  assert (Hp : 16 ≤ pages ≤ 131072) by (unfold pages; div_lia).
  assert (Hpt : pages * 4096 + 0x200000 ≤ total) by (unfold pages; div_lia).
  set (kl := pages / 2 / 8). set (ul := (pages - pages / 2) / 8).
  assert (Hkl : 1 ≤ kl ≤ 8192 ∧ kl * 8 ≤ pages / 2) by (unfold kl; div_lia).
  assert (Hul : 1 ≤ ul ≤ 8192 ∧ ul * 8 ≤ pages - pages / 2) by (unfold ul; div_lia).
  destruct (Z.ltb_spec 0 total); [|lia]. simpl.
  rewrite !Init_buffer by lia. simpl. rewrite !phy_pool_fresh by lia. simpl.
  eexists. split; [done|]. simpl.
  unfold VrAddrPool.Init. rewrite GetCapacity_zero by lia.
  unfold page_at, GetSrcMemPool, IsKrnlMem, capacity, Bitmap.cap, bit.byte_len. simpl.
  change krnl_heap_base with 0xC0100000.
  assert (Hu : (pages / 2 * 4096) mod 4096 = 0) by (apply Z.mod_mul; lia).
  assert ((0x200000 + pages / 2 * 4096) mod 4096 = 0).
  { rewrite Z.add_comm. change 0x200000 with (512 * 4096). by rewrite Z.mod_add by lia. }
  split_and!; try done; try lia; try (apply fresh_pool_ok; done || lia).
  - intros p Hin. repeat (apply elem_of_cons in Hin as [->|Hin]; [|]); simpl.
    all: try by inversion Hin.
    all: split; [done|intros; apply zero_bitmap_free].
  - intros i Hi. destruct (Z.ltb_spec (0x200000 + i * 4096) (0x200000 + pages / 2 * 4096)); [done|lia].
  - intros i Hi. destruct (Z.ltb_spec (0x200000 + pages / 2 * 4096 + i * 4096)
      (0x200000 + pages / 2 * 4096)); [lia|done].
Qed.


End MemInit.
