(* ===== verification/MemMap.v ===== *)
(** * Mapping pages

    [Machine] is the memory as the kernel sees it: physical words, the page
    directory [CR3] refers to, and the address translation of the processor,
    through which the kernel reads and writes the very entries that define it.
    [Mapping] models [VrAddr::MapToPhyAddr], [Unmap], [GetPhyAddr] and
    [IsMapped] of src/src/kernel/memory/page.cpp and page.h, and [Pages] the
    allocation and release of mapped pages of src/src/kernel/memory/pool.cpp. *)
From S2P Require Import Prelude UtilBit UtilBitmap MemPage MemPool.
Import Page VrAddr.

Module Machine.

(** [ram] holds the words of the physical memory by their address, zero where
    absent; [page_dir] is the page directory of [CR3]; [usr_addr_pool] is the
    address pool of the current process, [None] for a kernel thread. *)
Record t := mk {
  ram : gmap Z Z;
  page_dir : Z;
  pools : MemInit.pools;
  usr_addr_pool : option PagePool.t
}.

Definition word (m : t) (a : Z) : Z := default 0 (ram m !! a).
Definition set_word (a v : Z) (m : t) : t :=
  mk (<[a := v]> (ram m)) (page_dir m) (pools m) (usr_addr_pool m).
Definition set_pools (p : MemInit.pools) (m : t) : t := mk (ram m) (page_dir m) p (usr_addr_pool m).
Definition krnl_pool (m : t) : PagePool.t := MemInit.krnl_mem_pool (pools m).
Definition set_krnl_pool (p : PagePool.t) (m : t) : t :=
  set_pools (MemInit.mkPools p (MemInit.usr_mem_pool (pools m)) (MemInit.krnl_addr_pool (pools m))) m.

(** The page directory entry [i]. *)
Definition pde (m : t) (i : Z) : Z := word m (page_dir m + 4 * i).

(** The translation of a linear address, as the comment of [PageEntry]
    describes the two levels of tables. *)
Definition translate (m : t) (va : Z) : option Z :=
  let d := pde m (GetPageDirEntryIdx va) in
  if PageEntry.IsPresent d then
    let e := word m (PageEntry.GetAddress d + 4 * GetPageTabEntryIdx va) in
    if PageEntry.IsPresent e then Some (PageEntry.GetAddress e + GetOffset va) else None
  else None.

(** A load and a store of a word; without a translation they are page faults. *)
Definition load (va : Z) (m : t) : res Z := pa ← of_option (translate m va); Ok (word m pa).
Definition store (va v : Z) (m : t) : res t := pa ← of_option (translate m va); Ok (set_word pa v m).

(** [stl::memset(va, 0, 4 * n)] of an aligned region, a word at a time. *)
Definition clear_words (va n : Z) (m : t) : res t :=
  for_range (Z.to_nat n) 0 (fun i m => store (va +w 4 * i) 0 m) m.

Lemma word_set_eq a v m : word (set_word a v m) a = v.
Proof. unfold word. simpl. by rewrite lookup_insert_eq. Qed.

Lemma word_set_ne a b v m : a ≠ b → word (set_word a v m) b = word m b.
Proof. intros. unfold word. simpl. by rewrite lookup_insert_ne. Qed.

(** ** Well-formed address spaces

    The directory refers to itself through its last entry, no other entry
    refers to it, and no free frame of the kernel is a page table. *)
Definition not_free (m : t) (frame : Z) : Prop :=
  ∀ j, 0 ≤ j < PagePool.capacity (krnl_pool m) → PagePool.taken (krnl_pool m) j = false →
    PagePool.page_at (krnl_pool m) j ≠ frame.

Record wf (m : t) : Prop := {
  wf_words : ∀ a, in_u 32 (word m a);
  wf_dir : 0 ≤ page_dir m < 2 ^ 32 ∧ page_dir m mod 4096 = 0;
  wf_self : PageEntry.IsPresent (pde m 1023) = true ∧ PageEntry.GetAddress (pde m 1023) = page_dir m;
  wf_tables : ∀ i, 0 ≤ i < 1023 → PageEntry.IsPresent (pde m i) = true →
    PageEntry.GetAddress (pde m i) ≠ page_dir m ∧ not_free m (PageEntry.GetAddress (pde m i));
  wf_pool : PagePool.ok (krnl_pool m);
  wf_dir_taken : not_free m (page_dir m)
}.

(** Words of different aligned frames, and different words of a frame. *)
Lemma frame_word_inj f g i j :
  f mod 4096 = 0 → g mod 4096 = 0 → 0 ≤ i < 1024 → 0 ≤ j < 1024 →
  f + 4 * i = g + 4 * j → f = g ∧ i = j.
Proof. intros. div_lia. Qed.

(** Reading an entry through the recursive slot finds the entry itself. *)
Lemma translate_dir_entry m a :
  wf m → translate m (PageDirEntry_addr a) = Some (page_dir m + 4 * GetPageDirEntryIdx a).
Proof.
  intros Hwf. destruct (wf_self m Hwf) as [Hp Ha].
  destruct (PageDirEntry_fields a) as (E1 & E2 & E3).
  unfold translate. rewrite E1, E2, E3, Hp, Ha. fold (pde m 1023). by rewrite Hp, Ha.
Qed.

Lemma translate_tab_entry m a :
  wf m → translate m (PageTabEntry_addr a)
  = if PageEntry.IsPresent (pde m (GetPageDirEntryIdx a))
    then Some (PageEntry.GetAddress (pde m (GetPageDirEntryIdx a)) + 4 * GetPageTabEntryIdx a)
    else None.
Proof.
  intros Hwf. destruct (wf_self m Hwf) as [Hp Ha].
  destruct (PageTabEntry_fields a) as (E1 & E2 & E3).
  unfold translate. rewrite E1, E2, E3, Hp, Ha. done.
Qed.

(** The table entry of an address, where it has one. *)
Definition slot (m : t) (a : Z) : Z :=
  PageEntry.GetAddress (pde m (GetPageDirEntryIdx a)) + 4 * GetPageTabEntryIdx a.

Lemma load_dir_entry m a : wf m → load (PageDirEntry_addr a) m = Ok (pde m (GetPageDirEntryIdx a)).
Proof. intros. unfold load. by rewrite translate_dir_entry. Qed.

Lemma load_tab_entry m a :
  wf m → PageEntry.IsPresent (pde m (GetPageDirEntryIdx a)) = true →
  load (PageTabEntry_addr a) m = Ok (word m (slot m a)).
Proof. intros ? Hp. unfold load. by rewrite translate_tab_entry, Hp. Qed.

Lemma store_tab_entry m a v :
  wf m → PageEntry.IsPresent (pde m (GetPageDirEntryIdx a)) = true →
  store (PageTabEntry_addr a) v m = Ok (set_word (slot m a) v m).
Proof. intros ? Hp. unfold store. by rewrite translate_tab_entry, Hp. Qed.

(** A directory entry is not changed by a write to a page table. *)
Lemma pde_set_word m f j v i :
  wf m → f mod 4096 = 0 → f ≠ page_dir m → 0 ≤ j < 1024 → 0 ≤ i < 1024 →
  pde (set_word (f + 4 * j) v m) i = pde m i.
Proof.
  intros Hwf Hf Hne Hj Hi. unfold pde. simpl. apply word_set_ne. intros E.
  apply frame_word_inj in E as [? _]; [done|done|apply (wf_dir m Hwf)|done|done].
Qed.

(** A page table write keeps the space well formed. *)
Lemma wf_set_tab m f j v :
  wf m → f mod 4096 = 0 → f ≠ page_dir m → 0 ≤ j < 1024 → in_u 32 v →
  wf (set_word (f + 4 * j) v m).
Proof.
  intros Hwf Hf Hne Hj Hv. pose proof Hwf as [Hw Hd [Hp Ha] Ht Hpool Hdt].
  split; simpl; try done.
  - intros a. destruct (decide (f + 4 * j = a)) as [<-|]; [by rewrite word_set_eq|].
    by rewrite word_set_ne.
  - by rewrite !pde_set_word by (done || lia).
  - intros i Hi. rewrite pde_set_word by (done || lia). by apply Ht.
Qed.
End Machine.

Module Mapping.
Import Machine.

(** [SetAddress(phy_addr).SetSupervisor(false).SetWritable().SetPresent()] *)
Definition map_entry (phy_addr entry : Z) : Z :=
  PageEntry.SetPresent true
    (PageEntry.SetWritable true (PageEntry.SetSupervisor false (PageEntry.SetAddress phy_addr entry))).

(** The branch of [MapToPhyAddr] that makes a new page table. *)
Definition new_page_table (vr_addr entry : Z) (m : t) : res t :=
  '(kp, page_tab_phy_base) ← PhyMemPagePool.AllocPages 1 (krnl_pool m);
  Assert (negb (page_tab_phy_base =? 0));;
  m ← store (PageDirEntry_addr vr_addr) (map_entry page_tab_phy_base entry) (set_krnl_pool kp m);
  let page_tab_base := GetPageAddr (PageTabEntry_addr vr_addr) in
  clear_words page_tab_base (page_size / 4) m.

Definition MapToPhyAddr (vr_addr phy_addr : Z) (m : t) : res t :=
  page_dir_entry ← load (PageDirEntry_addr vr_addr) m;
  m ← (if negb (PageEntry.IsPresent page_dir_entry) then new_page_table vr_addr page_dir_entry m
       else Ok m);
  page_tab_entry ← load (PageTabEntry_addr vr_addr) m;
  Assert (negb (PageEntry.IsPresent page_tab_entry));;
  store (PageTabEntry_addr vr_addr) (map_entry phy_addr page_tab_entry) m.

(** [DisableTlbEntry] invalidates the translation the processor may have kept;
    here translations are always read from memory. *)
Definition Unmap (vr_addr : Z) (m : t) : res t :=
  page_dir_entry ← load (PageDirEntry_addr vr_addr) m;
  if PageEntry.IsPresent page_dir_entry then
    page_tab_entry ← load (PageTabEntry_addr vr_addr) m;
    store (PageTabEntry_addr vr_addr) (PageEntry.SetPresent false page_tab_entry) m
  else Ok m.

Definition GetPhyAddr (vr_addr : Z) (m : t) : res Z :=
  page_tab_entry ← load (PageTabEntry_addr vr_addr) m;
  Ok (PageEntry.GetAddress page_tab_entry +w GetOffset vr_addr).

Definition IsMapped (vr_addr : Z) (m : t) : res bool :=
  page_dir_entry ← load (PageDirEntry_addr vr_addr) m;
  if PageEntry.IsPresent page_dir_entry then
    page_tab_entry ← load (PageTabEntry_addr vr_addr) m;
    Ok (PageEntry.IsPresent page_tab_entry)
  else Ok false.

(** ** Specification *)

(** Two addresses of the same page. *)
Definition same_page (a b : Z) : Prop :=
  GetPageDirEntryIdx a = GetPageDirEntryIdx b ∧ GetPageTabEntryIdx a = GetPageTabEntryIdx b.

#[export] Instance same_page_dec a b : Decision (same_page a b).
Proof. unfold same_page. apply _. Defined.

(** The two pages share a page table entry: the boot loader makes the first
    table serve two directory entries. *)
Definition shares_entry (m : t) (a b : Z) : Prop :=
  PageEntry.IsPresent (pde m (GetPageDirEntryIdx a)) = true
  ∧ PageEntry.IsPresent (pde m (GetPageDirEntryIdx b)) = true ∧ slot m a = slot m b.

(** The address is not in the window through which the tables are seen. *)
Definition plain (a : Z) : Prop := GetPageDirEntryIdx a ≠ 1023.

(** [m'] is [m] with the page of [va] at the frame [f], or at none. *)
Definition remapped (m m' : t) (va : Z) (f : option Z) : Prop :=
  (∀ a, plain a → same_page a va → translate m' a = (λ f, f + GetOffset a) <$> f)
  ∧ (∀ a, plain a → ¬ same_page a va → ¬ shares_entry m a va → translate m' a = translate m a).

Lemma map_entry_ok pa e :
  in_u 32 e → in_u 32 (map_entry pa e) ∧ PageEntry.IsPresent (map_entry pa e) = true
  ∧ PageEntry.GetAddress (map_entry pa e) = PageEntry.GetAddress pa.
Proof.
  intros He. pose proof (PageEntry.view_mapped e pa He) as Hv.
  pose proof (f_equal PageEntry.v_addr Hv) as Ha. pose proof (f_equal PageEntry.v_present Hv) as Hp.
  simpl in Ha, Hp. split_and!; [apply PageEntry.SetPresent_range|done|done].
Qed.

(** Writing a word of a page table. *)
Lemma set_slot_remapped m va e :
  wf m → plain va → PageEntry.IsPresent (pde m (GetPageDirEntryIdx va)) = true → in_u 32 e →
  wf (set_word (slot m va) e m)
  ∧ remapped m (set_word (slot m va) e m) va
      (if PageEntry.IsPresent e then Some (PageEntry.GetAddress e) else None).
Proof.
  intros Hwf Hva Hp He. pose proof (GetPageDirEntryIdx_range va). unfold plain in Hva.
  destruct (wf_tables m Hwf (GetPageDirEntryIdx va)) as [Hne _]; [lia|done|].
  pose proof (GetPageTabEntryIdx_range va). pose proof (GetPageDirEntryIdx_range va).
  assert (Hpde : ∀ i, 0 ≤ i < 1024 → pde (set_word (slot m va) e m) i = pde m i).
  { intros. apply pde_set_word; try done. apply PageEntry.GetAddress_aligned. }
  split; [apply wf_set_tab; try done; apply PageEntry.GetAddress_aligned|].
  split; intros a Ha Hs.
  - destruct Hs as [E1 E2]. unfold translate. rewrite Hpde by apply GetPageDirEntryIdx_range.
    rewrite E1, E2, Hp. fold (slot m va). rewrite word_set_eq. by destruct (PageEntry.IsPresent e).
  - intros Hns. unfold translate. rewrite Hpde by apply GetPageDirEntryIdx_range.
    destruct (PageEntry.IsPresent (pde m (GetPageDirEntryIdx a))) eqn:Ea; [|done].
    fold (slot m a). rewrite word_set_ne; [done|]. intros E. by apply Hns.
Qed.

Lemma page_tab_word va k :
  0 ≤ k < 1024 →
  GetPageAddr (PageTabEntry_addr va) +w 4 * k
  = PageTabEntry_addr (Format (GetPageDirEntryIdx va) k 0).
Proof.
  intros Hk. pose proof (GetPageDirEntryIdx_range va). pose proof (GetPageTabEntryIdx_range va).
  rewrite (PageTabEntry_addr_eq (Format _ _ _)).
  destruct (Set_fields (GetPageDirEntryIdx va) k 0) as (-> & -> & _).
  rewrite !(wrap_small 10) by (unfold in_u; lia).
  rewrite GetPageAddr_eq, PageTabEntry_addr_eq by (rewrite PageTabEntry_addr_eq; lia).
  rewrite u32_small by div_lia. div_lia.
Qed.

(** Clearing a page table through the recursive slot. *)
Lemma clear_table_ok m va :
  wf m → plain va → PageEntry.IsPresent (pde m (GetPageDirEntryIdx va)) = true →
  let f := PageEntry.GetAddress (pde m (GetPageDirEntryIdx va)) in
  ∃ m', clear_words (GetPageAddr (PageTabEntry_addr va)) (page_size / 4) m = Ok m' ∧ wf m'
    ∧ page_dir m' = page_dir m ∧ pools m' = pools m ∧ usr_addr_pool m' = usr_addr_pool m
    ∧ (∀ i, 0 ≤ i < 1024 → pde m' i = pde m i)
    ∧ (∀ j, 0 ≤ j < 1024 → word m' (f + 4 * j) = 0)
    ∧ (∀ g j, g mod 4096 = 0 → g ≠ f → 0 ≤ j < 1024 → word m' (g + 4 * j) = word m (g + 4 * j)).
Proof.
  intros Hwf Hva Hp f. pose proof (GetPageDirEntryIdx_range va) as Hd. unfold plain in Hva.
  destruct (wf_tables m Hwf (GetPageDirEntryIdx va)) as [Hne _]; [lia|done|].
  assert (Hf : f mod 4096 = 0) by apply PageEntry.GetAddress_aligned.
  unfold clear_words. edestruct (for_range_inv (λ k m', wf m'
    ∧ page_dir m' = page_dir m ∧ pools m' = pools m ∧ usr_addr_pool m' = usr_addr_pool m
    ∧ (∀ i, 0 ≤ i < 1024 → pde m' i = pde m i)
    ∧ (∀ j, 0 ≤ j < k → word m' (f + 4 * j) = 0)
    ∧ (∀ g j, g mod 4096 = 0 → g ≠ f → 0 ≤ j < 1024 → word m' (g + 4 * j) = word m (g + 4 * j))))
    as (m' & Hm' & H); [| |exists m'; split; [exact Hm'|exact H]].
  { split_and!; done || (intros; lia). }
  intros k m1 Hk (Hwf1 & Hdir & Hpo & Hu & Hpde & Hz & Ho).
  change (0 + Z.of_nat (Z.to_nat (page_size / 4))) with 1024 in Hk.
  rewrite page_tab_word by lia.
  destruct (Set_fields (GetPageDirEntryIdx va) k 0) as (E1 & E2 & _).
  rewrite wrap_small in E1, E2 by (unfold in_u; lia).
  rewrite store_tab_entry by (done || by rewrite E1, Hpde). unfold slot.
  rewrite E1, E2, Hpde by done. fold f. eexists. split; [done|].
  split_and!; try done.
  - apply wf_set_tab; done || (by rewrite Hdir) || (unfold in_u; lia).
  - intros i Hi. rewrite pde_set_word; [by apply Hpde|..]; done || (by rewrite Hdir) || lia.
  - intros j Hj. destruct (decide (j = k)) as [->|]; [by rewrite word_set_eq|].
    rewrite word_set_ne by lia. apply Hz. lia.
  - intros g j Hg Hgf Hj. rewrite word_set_ne; [by apply Ho|]. intros E.
    apply frame_word_inj in E as [? _]; try done; lia.
Qed.

(** What making a page table does: the directory entry refers to a frame that
    was free and holds no mapping; nothing else is translated differently. *)
Lemma new_page_table_ok m va p' i :
  wf m → plain va → PageEntry.IsPresent (pde m (GetPageDirEntryIdx va)) = false →
  let f := PagePool.page_at (krnl_pool m) i in
  PhyMemPagePool.AllocPages 1 (krnl_pool m) = Ok (p', f) → f ≠ 0 →
  PagePool.first_run (krnl_pool m) 1 i → PagePool.ok p' →
  PagePool.changed (krnl_pool m) p' i 1 true →
  ∃ m', new_page_table va (pde m (GetPageDirEntryIdx va)) m = Ok m' ∧ wf m'
    ∧ krnl_pool m' = p' ∧ usr_addr_pool m' = usr_addr_pool m
    ∧ PageEntry.IsPresent (pde m' (GetPageDirEntryIdx va)) = true
    ∧ PageEntry.IsPresent (word m' (slot m' va)) = false
    ∧ remapped m m' va None ∧ (∀ a, plain a → shares_entry m' a va → same_page a va)
    ∧ page_dir m' = page_dir m ∧ pools m' = pools (set_krnl_pool p' m)
    ∧ PageEntry.GetAddress (pde m' (GetPageDirEntryIdx va)) = f
    ∧ (∀ k, 0 ≤ k < 1024 → k ≠ GetPageDirEntryIdx va → pde m' k = pde m k)
    ∧ ∀ g j, g mod 4096 = 0 → g ≠ page_dir m → g ≠ f → 0 ≤ j < 1024 →
        word m' (g + 4 * j) = word m (g + 4 * j).
Proof.
  intros Hwf Hva Hp f HA Hf0 [(Hi0 & Hi1 & Hfree) _] Hok' (Hst & Hcap & _ & Htk).
  pose proof (GetPageDirEntryIdx_range va) as Hd. set (d := GetPageDirEntryIdx va) in *.
  assert (Hi : 0 ≤ i < PagePool.capacity (krnl_pool m)) by (unfold PagePool.capacity; lia).
  assert (Hfi : PagePool.taken (krnl_pool m) i = false) by (apply Hfree; lia).
  destruct (PagePool.page_addr_ok _ i (wf_pool m Hwf) Hi) as [_ Hfr]. fold f in Hfr.
  assert (Hfa : f mod 4096 = 0) by apply (PagePool.page_at_aligned _ _ (wf_pool m Hwf)).
  assert (Hfd : f ≠ page_dir m) by by apply (wf_dir_taken m Hwf).
  assert (HfT : ∀ j, 0 ≤ j < 1023 → PageEntry.IsPresent (pde m j) = true →
    PageEntry.GetAddress (pde m j) ≠ f).
  { intros j Hj Hpj E. destruct (wf_tables m Hwf j Hj Hpj) as [_ Hnf]. by apply (Hnf i). }
  destruct (map_entry_ok f (pde m d)) as (He & Hep & Hea); [apply (wf_words m Hwf)|].
  rewrite (PageEntry.GetAddress_eq f) in Hea by lia.
  replace (f / 4096 * 4096) with f in Hea by (pose proof (Z.div_mod f 4096); lia).
  set (e := map_entry f (pde m d)) in *.
  set (m2 := set_word (page_dir m + 4 * d) e (set_krnl_pool p' m)).
  assert (Hm2d : pde m2 d = e) by apply word_set_eq.
  assert (Hm2o : ∀ j, 0 ≤ j < 1024 → j ≠ d → pde m2 j = pde m j).
  { intros. unfold pde, m2. simpl. rewrite word_set_ne by lia. done. }
  assert (Hnf : ∀ x, not_free m x → not_free m2 x).
  { intros x Hx j Hj Ht. change (krnl_pool m2) with p' in *. rewrite Htk in Ht by lia.
    destruct ((i <=? j) && (j <? i + 1)) eqn:E; [discriminate|].
    unfold PagePool.page_at. rewrite Hst. apply Hx; [by rewrite <- Hcap|done]. }
  assert (Hff : not_free m2 f).
  { intros j Hj Ht. change (krnl_pool m2) with p' in *. rewrite Htk in Ht by lia.
    unfold f, PagePool.page_at. rewrite Hst. intros E. assert (j = i) as -> by lia.
    destruct (Z.leb_spec i i), (Z.ltb_spec i (i + 1)); simpl in Ht; lia || done. }
  unfold plain in Hva. fold d in Hva.
  assert (Hwf2 : wf m2).
  { pose proof Hwf as [Hw Hdr [Hsp Hsa] Ht Hpo Hdt]. split.
    - intros a. destruct (decide (page_dir m + 4 * d = a)) as [<-|];
        [by unfold m2; rewrite word_set_eq|unfold m2; rewrite word_set_ne by done; apply Hw].
    - done.
    - by rewrite Hm2o by (done || lia).
    - intros j Hj Hpj. destruct (decide (j = d)) as [->|].
      + rewrite Hm2d, Hea. done.
      + rewrite Hm2o in * by lia. destruct (Ht j Hj Hpj). split; [done|by apply Hnf].
    - done.
    - by apply Hnf. }
  destruct (clear_table_ok m2 va) as (m' & Hclr & Hwf' & Hdir & Hpo & Hu & Hpde & Hz & Ho);
    [done|done|by fold d; rewrite Hm2d|].
  fold d in Hz, Ho. rewrite Hm2d, Hea in Hz, Ho.
  assert (Hd' : pde m' d = e) by by rewrite Hpde.
  assert (Hslot : ∀ a, GetPageDirEntryIdx a = d → slot m' a = f + 4 * GetPageTabEntryIdx a).
  { intros a E. unfold slot. by rewrite E, Hd', Hea. }
  assert (Hzero : PageEntry.IsPresent 0 = false) by done.
  exists m'. split; [|split_and!].
  - unfold new_page_table. rewrite HA. simpl. destruct (Z.eqb_spec f 0); [done|]. simpl.
    fold e. unfold store.
    assert (E : translate (set_krnl_pool p' m) (PageDirEntry_addr va) = Some (page_dir m + 4 * d))
      by exact (translate_dir_entry m va Hwf).
    rewrite E. simpl. exact Hclr.
  - done.
  - unfold krnl_pool. by rewrite Hpo.
  - by rewrite Hu.
  - by rewrite Hd'.
  - rewrite Hslot, Hz by (done || apply GetPageTabEntryIdx_range). done.
  - split; intros a Ha Hs.
    + destruct Hs as [E1 E2]. unfold translate. fold d in E1. rewrite E1, Hd', Hep, Hea, Hz
        by apply GetPageTabEntryIdx_range. done.
    + intros _. pose proof (GetPageDirEntryIdx_range a). pose proof (GetPageTabEntryIdx_range a).
      unfold plain in Ha. unfold translate. destruct (decide (GetPageDirEntryIdx a = d)) as [E|E].
      * rewrite E, Hd', Hep, Hea, Hz, Hp by done. done.
      * cbv zeta. rewrite Hpde, Hm2o by done. destruct (PageEntry.IsPresent (pde m (GetPageDirEntryIdx a))) eqn:Ea; [|done].
        rewrite Ho; [|apply PageEntry.GetAddress_aligned|apply HfT; [lia|done]|done].
        unfold m2. rewrite word_set_ne; [done|]. intros E'.
        apply frame_word_inj in E' as [E' _]; try done;
          [|apply (wf_dir m Hwf)|apply PageEntry.GetAddress_aligned].
        by destruct (wf_tables m Hwf (GetPageDirEntryIdx a)) as [? _]; [lia|done|].
  - intros a Ha (Hpa & _ & E). pose proof (GetPageDirEntryIdx_range a).
    pose proof (GetPageTabEntryIdx_range a). pose proof (GetPageTabEntryIdx_range va).
    unfold plain in Ha. rewrite (Hslot va) in E by done. unfold slot in E.
    apply frame_word_inj in E as [E1 E2]; try done; [|apply PageEntry.GetAddress_aligned].
    split; [|done]. destruct (decide (GetPageDirEntryIdx a = d)) as [|E3]; [done|].
    rewrite Hpde, Hm2o in E1, Hpa by done. destruct (HfT (GetPageDirEntryIdx a)); [lia|done|done].
  - done.
  - done.
  - by rewrite Hd', Hea.
  - intros k Hk Hkd. fold d in Hkd. by rewrite Hpde, Hm2o.
  - intros g j Hg Hgd Hgf Hj. rewrite Ho by done. unfold m2. rewrite word_set_ne; [done|]. intros E'.
    apply frame_word_inj in E' as [E' _]; [by rewrite E' in Hgd|apply (wf_dir m Hwf)|done|done|done].
Qed.

Lemma no_translation m va :
  translate m va = None ↔
  PageEntry.IsPresent (pde m (GetPageDirEntryIdx va)) = false ∨
  PageEntry.IsPresent (word m (slot m va)) = false.
Proof.
  unfold translate. fold (slot m va). cbv zeta.
  destruct (PageEntry.IsPresent (pde m (GetPageDirEntryIdx va))); [|by split; [left|]].
  destruct (PageEntry.IsPresent (word m (slot m va))); split; try done; try tauto.
  intros [?|?]; discriminate.
Qed.

(** The last step of [MapToPhyAddr], with the table present. *)
Lemma map_in_table m va pa :
  wf m → plain va → PageEntry.IsPresent (pde m (GetPageDirEntryIdx va)) = true →
  PageEntry.IsPresent (word m (slot m va)) = false →
  ∃ m', (page_tab_entry ← load (PageTabEntry_addr va) m;
     Assert (negb (PageEntry.IsPresent page_tab_entry));;
     store (PageTabEntry_addr va) (map_entry pa page_tab_entry) m) = Ok m'
    ∧ wf m' ∧ pools m' = pools m ∧ usr_addr_pool m' = usr_addr_pool m
    ∧ remapped m m' va (Some (PageEntry.GetAddress pa)).
Proof.
  intros Hwf Hva Hp Hns. rewrite load_tab_entry by done. simpl. rewrite Hns. simpl.
  rewrite store_tab_entry by done. eexists. split; [done|].
  destruct (map_entry_ok pa (word m (slot m va))) as (He & Hep & Hea); [apply (wf_words m Hwf)|].
  destruct (set_slot_remapped m va (map_entry pa (word m (slot m va))) Hwf Hva Hp He) as [Hwf' Hr].
  rewrite Hep, Hea in Hr. done.
Qed.

Lemma MapToPhyAddr_ok m va pa :
  wf m → plain va → translate m va = None →
  (∃ m', MapToPhyAddr va pa m = Ok m' ∧ wf m' ∧ usr_addr_pool m' = usr_addr_pool m
     ∧ remapped m m' va (Some (PageEntry.GetAddress pa))) ∨
  (MapToPhyAddr va pa m = Panic ∧ PageEntry.IsPresent (pde m (GetPageDirEntryIdx va)) = false
     ∧ ∀ s, ¬ Bitmap.free_run (PagePool.bitmap_ (krnl_pool m)) s 1).
Proof.
  intros Hwf Hva Hnone. apply no_translation in Hnone. unfold MapToPhyAddr.
  rewrite load_dir_entry by done. simpl.
  destruct (PageEntry.IsPresent (pde m (GetPageDirEntryIdx va))) eqn:Hp; simpl.
  { destruct Hnone as [|Hns]; [done|]. left.
    destruct (map_in_table m va pa Hwf Hva Hp Hns) as (m' & -> & Hwf' & _ & Hu & Hr). eauto. }
  destruct (PhyMemPagePool.phy_AllocPages_ok (krnl_pool m) 1 (wf_pool m Hwf))
    as [[HA Hno]|(p' & i & HA & Hf0 & Hrun & _ & _ & Hok' & Hch)]; [lia| |].
  { right. unfold new_page_table. by rewrite HA. }
  left. destruct (new_page_table_ok m va p' i) as (m1 & -> & Hwf1 & Hk1 & Hu1 & Hp1 & Hns1 & Hr1 & Hsh & _);
    try done. simpl.
  destruct (map_in_table m1 va pa Hwf1 Hva Hp1 Hns1) as (m2 & -> & Hwf2 & _ & Hu2 & Hr2).
  exists m2. split_and!; try done; [by rewrite Hu2|].
  split; intros a Ha Hs; [by apply Hr2|]. intros Hns. rewrite (proj2 Hr2 a Ha Hs).
  - by apply Hr1.
  - intros Hsh'. by apply Hs, Hsh.
Qed.

Lemma Unmap_ok m va :
  wf m → plain va →
  ∃ m', Unmap va m = Ok m' ∧ wf m' ∧ pools m' = pools m ∧ usr_addr_pool m' = usr_addr_pool m
    ∧ remapped m m' va None.
Proof.
  intros Hwf Hva. unfold Unmap. rewrite load_dir_entry by done. simpl.
  destruct (PageEntry.IsPresent (pde m (GetPageDirEntryIdx va))) eqn:Hp.
  - rewrite load_tab_entry by done. simpl. rewrite store_tab_entry by done.
    set (e := PageEntry.SetPresent false (word m (slot m va))).
    destruct (set_slot_remapped m va e Hwf Hva Hp) as [Hwf' Hr]; [apply PageEntry.SetPresent_range|].
    assert (Hep : PageEntry.IsPresent e = false).
    { rewrite PageEntry.IsPresent_bit. unfold e.
      rewrite PageEntry.testbit_SetPresent by (apply (wf_words m Hwf) || lia). done. }
    rewrite Hep in Hr. eexists. split_and!; done.
  - eexists. split_and!; try done. split; intros a Ha Hs; [|done].
    destruct Hs as [E _]. apply no_translation. rewrite E. by left.
Qed.

Lemma GetPhyAddr_ok m va pa :
  wf m → translate m va = Some pa → GetPhyAddr va m = Ok pa ∧ IsMapped va m = Ok true.
Proof.
  intros Hwf Ht. unfold translate in Ht. fold (slot m va) in Ht. cbv zeta in Ht.
  destruct (PageEntry.IsPresent (pde m (GetPageDirEntryIdx va))) eqn:Hp; [|done].
  destruct (PageEntry.IsPresent (word m (slot m va))) eqn:He; [|done]. injection Ht as <-.
  unfold GetPhyAddr, IsMapped. rewrite load_dir_entry, load_tab_entry by done. simpl.
  rewrite Hp. simpl. rewrite He. split; [|done].
  f_equal. apply u32_small. pose proof (GetOffset_range va).
  pose proof (PageEntry.GetAddress_range (word m (slot m va))).
  pose proof (PageEntry.GetAddress_aligned (word m (slot m va))). div_lia.
Qed.

(** C33. [MapToPhyAddr] on an address that is not mapped maps its page at the
    given frame and no other page, and [GetPhyAddr] then finds every address
    of the page, [Unmap] removes it again; the address space stays well formed.
    It fails only when a page table is needed and the kernel has no free
    frame. Pages whose entry is the same word are mapped together. *)
Theorem map_unmap_page m va pa :
  wf m → plain va → translate m va = None → in_u 32 pa → pa mod 4096 = 0 →
  (MapToPhyAddr va pa m = Panic ∧ ∀ s, ¬ Bitmap.free_run (PagePool.bitmap_ (krnl_pool m)) s 1) ∨
  ∃ m1 m2, MapToPhyAddr va pa m = Ok m1 ∧ wf m1 ∧ remapped m m1 va (Some pa)
    ∧ (∀ a, plain a → same_page a va →
         GetPhyAddr a m1 = Ok (pa + GetOffset a) ∧ IsMapped a m1 = Ok true)
    ∧ Unmap va m1 = Ok m2 ∧ wf m2 ∧ remapped m1 m2 va None ∧ IsMapped va m2 = Ok false.
Proof.
  intros Hwf Hva Hn Hpa Hal.
  destruct (MapToPhyAddr_ok m va pa Hwf Hva Hn) as [(m1 & HM & Hwf1 & _ & Hr)|(HM & _ & Hno)];
    [right|by left].
  rewrite PageEntry.GetAddress_eq in Hr by done.
  replace (pa / 4096 * 4096) with pa in Hr by (pose proof (Z.div_mod pa 4096); lia).
  destruct (Unmap_ok m1 va Hwf1 Hva) as (m2 & HU & Hwf2 & _ & _ & Hr2).
  exists m1, m2. split_and!; try done.
  - intros a Ha Hs. apply GetPhyAddr_ok; [done|]. by apply Hr.
  - assert (Hn2 : translate m2 va = None) by (by apply (proj1 Hr2)).
    apply no_translation in Hn2. unfold IsMapped. rewrite load_dir_entry by done. simpl.
    destruct (PageEntry.IsPresent (pde m2 (GetPageDirEntryIdx va))) eqn:Hp; [|done].
    destruct Hn2 as [|Hn2]; [done|]. rewrite load_tab_entry by done. simpl. by rewrite Hn2.
Qed.

(** A kernel just after it enabled paging: the directory at 1 MB, the first
    table behind it serving the entries 0 and 768, nothing mapped in it. *)
Definition demo_pools : MemInit.pools :=
  MemInit.mkPools PhyMemPagePool.demo_pool
    (PagePool.mk 0x210000 8 (Bitmap.mk 1 (Some [0])))
    (PagePool.mk 0xC0100000 16 (Bitmap.mk 2 (Some [0; 0]))).
Definition demo : t :=
  mk (<[0x100000 := 0x101007]> (<[0x100000 + 4 * 768 := 0x101007]>
       (<[0x100000 + 4 * 1023 := 0x100007]> ∅))) 0x100000 demo_pools None.

Lemma demo_word a :
  word demo a = if a =? 0x100000 then 0x101007 else
                if a =? 0x100C00 then 0x101007 else
                if a =? 0x100FFC then 0x100007 else 0.
Proof.
  unfold word, demo. simpl. rewrite !lookup_insert, lookup_empty.
  repeat case_decide; repeat case_match; to_prop; simpl; lia || done.
Qed.

Lemma demo_wf : wf demo.
Proof.
  assert (Hnf : ∀ x, x < 0x200000 → not_free demo x).
  { intros x Hx j Hj _. unfold PagePool.page_at. simpl. lia. }
  assert (Hpde : ∀ i, pde demo i = word demo (0x100000 + 4 * i)) by done.
  split.
  - intros a. rewrite demo_word. unfold in_u. repeat case_match; lia.
  - done.
  - done.
  - intros i Hi. rewrite Hpde, demo_word. repeat case_match; try done; to_prop; try lia.
    all: intros _; split; [done|apply Hnf; reflexivity].
  - apply PhyMemPagePool.demo_pool_ok.
  - apply Hnf. simpl. lia.
Qed.

Lemma map_unmap_page_witness :
  translate demo 0x08048000 = None ∧
  match MapToPhyAddr 0x08048000 0x210000 demo with
  | Ok m1 => translate m1 0x08048123 | _ => None end = Some 0x210123 ∧
  ((MapToPhyAddr 0x08048000 0x210000 demo = Panic
    ∧ ∀ s, ¬ Bitmap.free_run (PagePool.bitmap_ (krnl_pool demo)) s 1) ∨
  ∃ m1 m2, MapToPhyAddr 0x08048000 0x210000 demo = Ok m1 ∧ wf m1
    ∧ remapped demo m1 0x08048000 (Some 0x210000)
    ∧ (∀ a, plain a → same_page a 0x08048000 →
         GetPhyAddr a m1 = Ok (0x210000 + GetOffset a) ∧ IsMapped a m1 = Ok true)
    ∧ Unmap 0x08048000 m1 = Ok m2 ∧ wf m2 ∧ remapped m1 m2 0x08048000 None
    ∧ IsMapped 0x08048000 m2 = Ok false).
Proof.
  split_and!.
  - vm_compute. reflexivity.
  - vm_compute. reflexivity.
  - apply (map_unmap_page demo 0x08048000 0x210000 demo_wf).
    + vm_compute. discriminate.
    + vm_compute. reflexivity.
    + unfold in_u. lia.
    + reflexivity.
Defined.
End Mapping.

Module Pages.
Import Machine Mapping.
Export MemInit(PoolType, Kernel, User).

Definition mem_pool (type : PoolType) (m : t) : PagePool.t :=
  match type with Kernel => krnl_pool m | User => MemInit.usr_mem_pool (pools m) end.
Definition set_mem_pool (type : PoolType) (p : PagePool.t) (m : t) : t :=
  match type with
  | Kernel => set_krnl_pool p m
  | User => set_pools (MemInit.mkPools (krnl_pool m) p (MemInit.krnl_addr_pool (pools m))) m
  end.

(** [GetVrAddrPool]: the user pool is the current process's. *)
Definition addr_pool (type : PoolType) (m : t) : res PagePool.t :=
  match type, usr_addr_pool m with
  | Kernel, _ => Ok (MemInit.krnl_addr_pool (pools m))
  | User, Some p => Ok p
  | User, None => Panic
  end.
Definition set_addr_pool (type : PoolType) (p : PagePool.t) (m : t) : t :=
  match type with
  | Kernel => set_pools (MemInit.mkPools (krnl_pool m) (MemInit.usr_mem_pool (pools m)) p) m
  | User => mk (ram m) (page_dir m) (pools m) (Some p)
  end.

(** [FreePages(mem_pool, addr_pool, vr_base, count)] *)
Definition free_page (type : PoolType) (vr_base i : Z) (m : t) : res t :=
  let vr_addr := vr_base +w i *w page_size in
  phy_addr ← GetPhyAddr vr_addr m;
  Assert (phy_addr mod page_size =? 0);;
  p ← PhyMemPagePool.FreePages phy_addr 1 (mem_pool type m);
  Unmap vr_addr (set_mem_pool type p m).

Definition free_pages (type : PoolType) (vr_base count : Z) (m : t) : res t :=
  Assert (negb (vr_base =? 0) && (0 <? count));;
  m ← for_range (Z.to_nat count) 0 (free_page type vr_base) m;
  ap ← addr_pool type m;
  ap ← VrAddrPool.FreePages vr_base count ap;
  Ok (set_addr_pool type ap m).

(** The failure branch of [AllocPages]: the pages mapped so far are given back;
    when there are none, the addresses are not. *)
Definition alloc_failed (type : PoolType) (vr_base count i : Z) (m : t) : res t :=
  if 0 <? i then
    m ← free_pages type vr_base i m;
    ap ← addr_pool type m;
    ap ← VrAddrPool.FreePages (vr_base +w i *w page_size) (count -w i) ap;
    Ok (set_addr_pool type ap m)
  else Ok m.

Definition alloc_body (type : PoolType) (vr_base count : Z) (s : Z * t) : res ((Z * t) + (t * bool)) :=
  let '(i, m) := s in
  if i =? count then Ok (inr (m, true))
  else
    '(p, phy_page) ← PhyMemPagePool.AllocPages 1 (mem_pool type m);
    let m := set_mem_pool type p m in
    if negb (phy_page =? 0) then
      m ← MapToPhyAddr (vr_base +w i *w page_size) phy_page m;
      Ok (inl (i + 1, m))
    else
      m ← alloc_failed type vr_base count i m;
      Ok (inr (m, false)).

(** [AllocPages(mem_pool, addr_pool, count)] *)
Definition alloc_pages (type : PoolType) (count : Z) (m : t) : res (t * Z) :=
  ap ← addr_pool type m;
  '(ap, vr_base) ← VrAddrPool.AllocPages count ap;
  let m := set_addr_pool type ap m in
  if vr_base =? 0 then Ok (m, 0)
  else
    r ← loop (S (Z.to_nat count)) (alloc_body type vr_base count) (0, m);
    let '(m, complete) := r : t * bool in
    if complete then
      m ← clear_words vr_base (page_size / 4 * count) m;
      Ok (m, vr_base)
    else Ok (m, 0).

(** [AllocPageAtAddr(mem_pool, addr_pool, vr_addr)] *)
Definition alloc_page_at (type : PoolType) (vr_addr : Z) (m : t) : res (t * Z) :=
  mapped ← IsMapped (AlignToPageBase vr_addr) m;
  Assert (negb mapped);;
  ap ← addr_pool type m;
  '(ap, align_vr_addr) ← VrAddrPool.AllocPageAtAddr vr_addr ap;
  let m := set_addr_pool type ap m in
  '(p, phy_page) ← PhyMemPagePool.AllocPages 1 (mem_pool type m);
  let m := set_mem_pool type p m in
  if negb (phy_page =? 0) then
    m ← MapToPhyAddr align_vr_addr phy_page m;
    Ok (m, align_vr_addr)
  else Ok (m, 0).

(** The functions of pool.h; each holds the lock of its physical pool. *)
Definition AllocPages (type : PoolType) (count : Z) (m : t) : res (t * Z) :=
  Assert (0 <? count);; alloc_pages type count m.

Definition FreePages (vr_base count : Z) (m : t) : res t :=
  Assert (negb (vr_base =? 0) && (0 <? count));;
  phy_addr ← GetPhyAddr vr_base m;
  free_pages (MemInit.GetSrcMemPool phy_addr (pools m)) vr_base count m.

Definition AllocPageAtAddr (type : PoolType) (vr_addr : Z) (m : t) : res (t * Z) :=
  alloc_page_at type vr_addr m.

(** The finding of the failure branch: when the first frame cannot be had, the
    addresses are lost: a second request finds fewer free addresses. *)
Definition no_frames : t :=
  set_krnl_pool (PagePool.mk 0x200000 0 (Bitmap.mk 2 (Some [255; 255]))) demo.

Lemma alloc_failure_leaks :
  (match alloc_pages Kernel 3 no_frames with
   | Ok (m, a) => Some (a, PagePool.free_count_ (MemInit.krnl_addr_pool (pools m)))
   | _ => None
   end) = Some (0, 13)
  ∧ PagePool.free_count_ (MemInit.krnl_addr_pool (pools no_frames)) = 16.
Proof. vm_compute. done. Qed.
End Pages.
