(* ===== verification/MemPages.v ===== *)
(** * Allocation of mapped pages

    [KernelPages] proves what [AllocPages] of src/src/kernel/memory/pool.cpp
    (MemMap.Pages) promises for the kernel's heap, whose page tables the boot
    loader prepares: consecutive addresses, each mapped at a frame of its own
    that nothing else maps, all of it zero. *)
From S2P Require Import Prelude UtilBit UtilBitmap MemPage MemPool MemMap.
Import Page VrAddr Machine Mapping Pages.

Module KernelPages.

Definition heap_pool (m : t) : PagePool.t := MemInit.krnl_addr_pool (pools m).
Definition page (m : t) (i : Z) : Z := PagePool.page_at (heap_pool m) i.

(** A frame the kernel has not handed out. *)
Definition free_frame (m : t) (f : Z) : Prop :=
  ∃ j, 0 ≤ j < PagePool.capacity (krnl_pool m) ∧ PagePool.taken (krnl_pool m) j = false
    ∧ PagePool.page_at (krnl_pool m) j = f.

(** A frame the kernel has handed out. *)
Definition taken_frame (m : t) (f : Z) : Prop :=
  ∃ j, 0 ≤ j < PagePool.capacity (krnl_pool m) ∧ PagePool.taken (krnl_pool m) j = true
    ∧ PagePool.page_at (krnl_pool m) j = f.

(** The kernel's frames are the same region of memory in both states. *)
Definition same_frames (m m' : t) : Prop :=
  PagePool.start_addr_ (krnl_pool m') = PagePool.start_addr_ (krnl_pool m)
  ∧ PagePool.capacity (krnl_pool m') = PagePool.capacity (krnl_pool m)
  ∧ MemInit.usr_mem_pool (pools m') = MemInit.usr_mem_pool (pools m).

(** The invariant of the kernel's heap: its pages have page tables, no two of
    them the same entry; a free page is not mapped; no free frame is. *)
Record kheap (m : t) : Prop := {
  kh_wf : wf m;
  kh_pool : PagePool.ok (heap_pool m);
  kh_plain : ∀ i, 0 ≤ i < PagePool.capacity (heap_pool m) → plain (page m i);
  kh_tables : ∀ i, 0 ≤ i < PagePool.capacity (heap_pool m) →
    PageEntry.IsPresent (pde m (GetPageDirEntryIdx (page m i))) = true;
  kh_private : ∀ i j, 0 ≤ i < PagePool.capacity (heap_pool m) →
    0 ≤ j < PagePool.capacity (heap_pool m) → i ≠ j → slot m (page m i) ≠ slot m (page m j);
  kh_unmapped : ∀ i, 0 ≤ i < PagePool.capacity (heap_pool m) →
    PagePool.taken (heap_pool m) i = false → translate m (page m i) = None;
  kh_frames : ∀ a x, plain a → translate m a = Some x → ¬ free_frame m (x - GetOffset a)
}.

Lemma not_free_frame m f : not_free m f ↔ ¬ free_frame m f.
Proof.
  split; [intros H (j & ? & ? & ?); by apply (H j)|].
  intros H j ? ? E. apply H. by exists j.
Qed.

(** Every frame of the region is either free or taken. *)
Lemma frame_cases m m' f :
  same_frames m m' → free_frame m f ∨ taken_frame m f → free_frame m' f ∨ taken_frame m' f.
Proof.
  intros (E1 & E2 & _) H. assert (∃ j, 0 ≤ j < PagePool.capacity (krnl_pool m)
    ∧ PagePool.page_at (krnl_pool m) j = f) as (j & Hj & Hf).
  { destruct H as [(j & ? & ? & ?)|(j & ? & ? & ?)]; by exists j. }
  assert (Hf' : PagePool.page_at (krnl_pool m') j = f).
  { rewrite <- Hf. unfold PagePool.page_at. by rewrite E1. }
  destruct (PagePool.taken (krnl_pool m') j) eqn:E; [right|left]; exists j; by rewrite E2.
Qed.

Lemma taken_not_free m f : taken_frame m f → ¬ free_frame m f.
Proof.
  intros (j & _ & Ht & E) (j' & _ & Hf & E'). unfold PagePool.page_at in *.
  assert (j' = j) by lia. congruence.
Qed.

(** ** Addresses *)

Lemma page_offset a o :
  0 ≤ a → a mod 4096 = 0 → 0 ≤ o < 4096 → a + o < 2 ^ 32 →
  same_page (a + o) a ∧ GetOffset (a + o) = o ∧ GetOffset a = 0.
Proof.
  intros. unfold same_page. rewrite !GetPageDirEntryIdx_eq, !GetPageTabEntryIdx_eq, !GetOffset_eq by lia.
  replace ((a + o) / 4096) with (a / 4096) by div_lia.
  split_and!; [div_lia|done|div_lia|done].
Qed.

Lemma translate_shares m a b :
  shares_entry m a b → translate m a = (λ x, x - GetOffset b + GetOffset a) <$> translate m b.
Proof.
  intros (E1 & E2 & E3). unfold translate. cbv zeta. fold (slot m a) (slot m b).
  rewrite E1, E2, E3. destruct (PageEntry.IsPresent (word m (slot m b))); [|done].
  simpl. f_equal. lia.
Qed.

#[export] Instance shares_entry_dec m a b : Decision (shares_entry m a b).
Proof. unfold shares_entry. apply _. Defined.

Lemma translate_same_page m a b :
  same_page a b → translate m a = (λ x, x - GetOffset b + GetOffset a) <$> translate m b.
Proof.
  intros [E1 E2]. unfold translate. rewrite E1, E2. cbv zeta.
  destruct (PageEntry.IsPresent _); [|done]. destruct (PageEntry.IsPresent _); [|done].
  simpl. f_equal. lia.
Qed.

Lemma page_at_succ p s k :
  PagePool.ok p → 0 ≤ s → 0 ≤ k → s + k < PagePool.capacity p →
  PagePool.page_at p s +w k *w page_size = PagePool.page_at p (s + k).
Proof.
  intros Hok Hs Hk Hc. destruct (PagePool.page_addr_ok p (s + k) Hok) as [_ Hr]; [lia|].
  destruct (PagePool.page_addr_ok p s Hok) as [_ Hr2]; [lia|].
  unfold PagePool.page_at in *. rewrite page_size_eq, (u32_small (k * 4096)) by lia.
  rewrite u32_small by lia. lia.
Qed.

(** ** One page *)

Lemma pde_set_slot m va e i :
  wf m → plain va → PageEntry.IsPresent (pde m (GetPageDirEntryIdx va)) = true → 0 ≤ i < 1024 →
  pde (set_word (slot m va) e m) i = pde m i.
Proof.
  intros Hwf Hva Hp Hi. pose proof (GetPageDirEntryIdx_range va). unfold plain in Hva.
  destruct (wf_tables m Hwf (GetPageDirEntryIdx va)) as [Hne _]; [lia|done|].
  unfold slot.
  apply pde_set_word; [done|apply PageEntry.GetAddress_aligned|done|apply GetPageTabEntryIdx_range|done].
Qed.

(** The effect of writing the entry of a page on every translation. *)
Lemma translate_set_slot m va e a :
  wf m → plain va → PageEntry.IsPresent (pde m (GetPageDirEntryIdx va)) = true →
  translate (set_word (slot m va) e m) a
  = if PageEntry.IsPresent (pde m (GetPageDirEntryIdx a)) && (slot m a =? slot m va)
    then if PageEntry.IsPresent e then Some (PageEntry.GetAddress e + GetOffset a) else None
    else translate m a.
Proof.
  intros Hwf Hva Hp. unfold translate. cbv zeta.
  rewrite (pde_set_slot m va e (GetPageDirEntryIdx a)) by (done || apply GetPageDirEntryIdx_range).
  destruct (PageEntry.IsPresent (pde m (GetPageDirEntryIdx a))); [|done].
  rewrite andb_true_l. fold (slot m a). destruct (Z.eqb_spec (slot m a) (slot m va)) as [E|E].
  - rewrite E, word_set_eq. done.
  - by rewrite word_set_ne.
Qed.

(** [MapToPhyAddr] where the page table is present. *)
Lemma map_present m va pa :
  wf m → plain va → PageEntry.IsPresent (pde m (GetPageDirEntryIdx va)) = true →
  translate m va = None →
  ∃ e, MapToPhyAddr va pa m = Ok (set_word (slot m va) e m) ∧ in_u 32 e
    ∧ PageEntry.IsPresent e = true ∧ PageEntry.GetAddress e = PageEntry.GetAddress pa.
Proof.
  intros Hwf Hva Hp Hn. apply no_translation in Hn. destruct Hn as [|Hn]; [congruence|].
  unfold MapToPhyAddr. rewrite load_dir_entry by done. simpl. rewrite Hp. simpl.
  rewrite load_tab_entry by done. simpl. rewrite Hn. simpl. rewrite store_tab_entry by done.
  destruct (map_entry_ok pa (word m (slot m va))) as (? & ? & ?); [apply (wf_words m Hwf)|]. eauto.
Qed.

(** Taking a frame from a pool. *)
Definition free_in (p : PagePool.t) (f : Z) : Prop :=
  ∃ j, 0 ≤ j < PagePool.capacity p ∧ PagePool.taken p j = false ∧ PagePool.page_at p j = f.

Lemma pool_take p :
  PagePool.ok p → 0 < PagePool.free_count_ p →
  ∃ p' f, PhyMemPagePool.AllocPages 1 p = Ok (p', f) ∧ f ≠ 0 ∧ free_in p f ∧ PagePool.ok p'
    ∧ PageEntry.GetAddress f = f
    ∧ PagePool.free_count_ p' = PagePool.free_count_ p - 1
    ∧ PagePool.start_addr_ p' = PagePool.start_addr_ p ∧ PagePool.capacity p' = PagePool.capacity p
    ∧ (∃ i, PagePool.first_run p 1 i ∧ f = PagePool.page_at p i ∧ PagePool.changed p p' i 1 true)
    ∧ (∀ g, free_in p' g ↔ free_in p g ∧ g ≠ f).
Proof.
  intros Hok Hc.
  destruct (PhyMemPagePool.phy_AllocPages_ok p 1 Hok)
    as [[HA Hno]|(p' & i & HA & Hf0 & [(Hi0 & Hi1 & Hfree) Hfst] & _ & Hi2 & Hok' & Hst & Hcap & Hn & Ht)];
    [lia| |].
  { exfalso. rewrite (PagePool.ok_count _ Hok) in Hc. unfold PagePool.nfree in Hc.
    destruct (filter _ _) as [|x l] eqn:E; [simpl in Hc; lia|].
    assert (Hx : x ∈ x :: l) by apply list_elem_of_here. rewrite <- E in Hx.
    apply list_elem_of_filter in Hx as [Hx Hr%elem_of_seqZ].
    apply (Hno x). unfold PagePool.capacity, PagePool.taken in *. split_and!; [lia|lia|].
    intros j Hj. by replace j with x by lia. }
  assert (Hr : 0 ≤ i < PagePool.capacity p) by lia.
  destruct (PagePool.page_addr_ok _ i Hok Hr) as [_ Hrg].
  pose proof (PagePool.page_at_aligned _ i Hok).
  exists p', (PagePool.page_at p i). split_and!; try done.
  - exists i. split; [done|]. split; [apply Hfree; lia|done].
  - rewrite PageEntry.GetAddress_eq by lia. pose proof (Z.div_mod (PagePool.page_at p i) 4096). lia.
  - exists i. done.
  - intros g. split.
    + intros (j & Hj & Hjt & Hjg). rewrite Hcap in Hj. rewrite Ht in Hjt by lia.
      assert (j ≠ i) as Hne.
      { intros ->. rewrite Z.leb_refl in Hjt. destruct (Z.ltb_spec i (i + 1)); [done|lia]. }
      replace ((i <=? j) && (j <? i + 1)) with false in Hjt by (bits_cases; done).
      unfold PagePool.page_at in *. rewrite Hst in Hjg. split; [by exists j|lia].
    + intros [(j & Hj & Hjt & Hjg) Hne]. exists j. rewrite Hcap, Ht by lia.
      unfold PagePool.page_at in *. rewrite Hst. split_and!; try done; try lia.
      destruct (Z.leb_spec i j), (Z.ltb_spec j (i + 1)); simpl; done || lia.
Qed.

(** Taking a frame from the kernel's pool. *)
Lemma take_frame m :
  wf m → 0 < PagePool.free_count_ (krnl_pool m) →
  ∃ p f, PhyMemPagePool.AllocPages 1 (krnl_pool m) = Ok (p, f) ∧ f ≠ 0
    ∧ free_frame m f ∧ wf (set_krnl_pool p m) ∧ PageEntry.GetAddress f = f
    ∧ PagePool.free_count_ p = PagePool.free_count_ (krnl_pool m) - 1
    ∧ same_frames m (set_krnl_pool p m)
    ∧ (∀ g, free_frame (set_krnl_pool p m) g ↔ free_frame m g ∧ g ≠ f).
Proof.
  intros Hwf Hc.
  destruct (pool_take _ (wf_pool m Hwf) Hc)
    as (p & f & HA & Hf0 & Hff & Hok' & Hfa & Hn & Hst & Hcap & _ & Hsub).
  exists p, f. split_and!; try done. destruct Hwf as [H1 H2 H3 H4 H5 H6].
  assert (Hnf : ∀ f, not_free m f → not_free (set_krnl_pool p m) f).
  { intros g Hg. apply not_free_frame. intros Hg'. apply Hsub in Hg' as [Hg' _].
    by apply not_free_frame in Hg. }
  split; try done; [|by apply Hnf]. intros j Hj Hpj. destruct (H4 j Hj Hpj).
  split; [done|by apply Hnf].
Qed.

(** ** Data frames *)

(** A frame that is neither the directory nor a table. *)
Definition data_frame (m : t) (f : Z) : Prop :=
  f mod 4096 = 0 ∧ f ≠ page_dir m ∧
  ∀ i, 0 ≤ i < 1023 → PageEntry.IsPresent (pde m i) = true → PageEntry.GetAddress (pde m i) ≠ f.

Lemma free_data_frame m f : wf m → free_frame m f → data_frame m f.
Proof.
  intros Hwf (j & Hj & Hjt & <-). split_and!.
  - apply PagePool.page_at_aligned, Hwf.
  - by apply (wf_dir_taken m Hwf).
  - intros i Hi Hp E. destruct (wf_tables m Hwf i Hi Hp) as [_ Hn]. by apply (Hn j).
Qed.

(** Writing to a data frame changes no translation. *)
Lemma set_word_data m f j v :
  wf m → data_frame m f → 0 ≤ j < 1024 → in_u 32 v →
  wf (set_word (f + 4 * j) v m)
  ∧ (∀ i, 0 ≤ i < 1024 → pde (set_word (f + 4 * j) v m) i = pde m i)
  ∧ ∀ a, translate (set_word (f + 4 * j) v m) a = translate m a.
Proof.
  intros Hwf (Hf & Hd & Ht) Hj Hv. split; [by apply wf_set_tab|].
  assert (Hpde : ∀ i, 0 ≤ i < 1024 → pde (set_word (f + 4 * j) v m) i = pde m i).
  { intros. by apply pde_set_word. }
  split; [done|]. intros a. pose proof (GetPageDirEntryIdx_range a). unfold translate. cbv zeta.
  rewrite Hpde by done. destruct (PageEntry.IsPresent (pde m (GetPageDirEntryIdx a))) eqn:Hp; [|done].
  rewrite word_set_ne; [done|]. intros E.
  apply frame_word_inj in E as [E _]; try done;
    [|apply PageEntry.GetAddress_aligned|apply GetPageTabEntryIdx_range].
  destruct (decide (GetPageDirEntryIdx a = 1023)) as [E'|].
  - rewrite E' in E. apply Hd. by rewrite E, (proj2 (wf_self m Hwf)).
  - apply (Ht (GetPageDirEntryIdx a)); [lia|done|done].
Qed.

(** The frames of the page tables through which the heap is mapped. *)
Definition heap_table (m : t) (f : Z) : Prop :=
  ∃ i, 0 ≤ i < PagePool.capacity (heap_pool m)
    ∧ PageEntry.GetAddress (pde m (GetPageDirEntryIdx (page m i))) = f.

(** ** The loop of [AllocPages] *)

Section alloc.
Context (m : t) (s count : Z).
Context (Hwf : wf m) (Hpool : PagePool.ok (heap_pool m)).
Context (Hplain : ∀ i, 0 ≤ i < PagePool.capacity (heap_pool m) → plain (page m i)).
Context (Htables : ∀ i, 0 ≤ i < PagePool.capacity (heap_pool m) →
  PageEntry.IsPresent (pde m (GetPageDirEntryIdx (page m i))) = true).
Context (Hprivate : ∀ i j, 0 ≤ i < PagePool.capacity (heap_pool m) →
  0 ≤ j < PagePool.capacity (heap_pool m) → i ≠ j → slot m (page m i) ≠ slot m (page m j)).
Context (Hframes : ∀ a x, plain a → translate m a = Some x → ¬ free_frame m (x - GetOffset a)).
Context (Hrun : 0 ≤ s ∧ 0 < count ∧ s + count ≤ PagePool.capacity (heap_pool m)).
Context (Hnone : ∀ k, 0 ≤ k < count → translate m (page m (s + k)) = None).

(** The first [i] pages of the run have been mapped. *)
Record filled (fs : list Z) (i : Z) (mi : t) : Prop := {
  fi_wf : wf mi;
  fi_dir : page_dir mi = page_dir m;
  fi_heap : heap_pool mi = heap_pool m;
  fi_usr : usr_addr_pool mi = usr_addr_pool m;
  fi_region : same_frames m mi;
  fi_pde : ∀ d, 0 ≤ d < 1024 → pde mi d = pde m d;
  fi_count : PagePool.free_count_ (krnl_pool mi) = PagePool.free_count_ (krnl_pool m) - i;
  fi_free : ∀ f, free_frame mi f → free_frame m f;
  fi_len : Z.of_nat (length fs) = i;
  fi_nodup : NoDup fs;
  fi_taken : ∀ f, f ∈ fs → free_frame m f ∧ ¬ free_frame mi f;
  fi_map : ∀ k f, 0 ≤ k → fs !! Z.to_nat k = Some f → translate mi (page m (s + k)) = Some f;
  fi_safe : ∀ a x, plain a → translate mi a = Some x → ¬ free_frame mi (x - GetOffset a);
  fi_other : ∀ a, plain a → (∀ k, 0 ≤ k < i → ¬ shares_entry m a (page m (s + k))) →
    translate mi a = translate m a;
  fi_words : ∀ f j, f mod 4096 = 0 → 0 ≤ j < 1024 → ¬ heap_table m f →
    word mi (f + 4 * j) = word m (f + 4 * j)
}.

Lemma filled_0 : filled [] 0 m.
Proof.
  split; try done; try lia.
  - constructor.
  - intros f Hf. inversion Hf.
Qed.

Lemma page_fields i :
  0 ≤ i < PagePool.capacity (heap_pool m) →
  0 < page m i < 2 ^ 32 ∧ page m i mod 4096 = 0 ∧ GetOffset (page m i) = 0.
Proof.
  intros Hi. destruct (PagePool.page_addr_ok _ i Hpool Hi) as [_ Hr].
  pose proof (PagePool.page_at_aligned _ i Hpool). unfold page.
  destruct (page_offset (PagePool.page_at (heap_pool m) i) 0) as (_ & _ & ?); try done; lia.
Qed.

Lemma slot_pde mi a : (∀ d, 0 ≤ d < 1024 → pde mi d = pde m d) → slot mi a = slot m a.
Proof. intros H. unfold slot. by rewrite H by apply GetPageDirEntryIdx_range. Qed.

Lemma filled_step fs i mi :
  filled fs i mi → 0 ≤ i < count → i < PagePool.free_count_ (krnl_pool m) →
  ∃ f p m', PhyMemPagePool.AllocPages 1 (krnl_pool mi) = Ok (p, f) ∧ f ≠ 0
    ∧ MapToPhyAddr (page m (s + i)) f (set_krnl_pool p mi) = Ok m'
    ∧ filled (fs ++ [f]) (i + 1) m'.
Proof.
  intros [F1 F2 F3 F4 FR F5 F6 F7 F8 F9 F10 F11 F12 F13 F14] Hi Hfc.
  destruct (take_frame mi F1) as (p & f & HA & Hf0 & Hff & Hwf' & Hfa & Hc' & Hreg & Hsub); [lia|].
  set (va := page m (s + i)). set (mp := set_krnl_pool p mi) in *.
  assert (Hri : 0 ≤ s + i < PagePool.capacity (heap_pool m)) by lia.
  assert (Hva : plain va) by by apply Hplain.
  assert (Hp : PageEntry.IsPresent (pde mp (GetPageDirEntryIdx va)) = true).
  { change (pde mp) with (pde mi). rewrite F5 by apply GetPageDirEntryIdx_range. by apply Htables. }
  assert (Hsl : ∀ a, slot mp a = slot m a) by (intros a; by apply slot_pde).
  assert (Hpr : ∀ a, pde mp (GetPageDirEntryIdx a) = pde m (GetPageDirEntryIdx a)).
  { intros a. apply F5, GetPageDirEntryIdx_range. }
  assert (Hself : ∀ k, 0 ≤ k < count → k ≠ i → slot m (page m (s + k)) ≠ slot m va).
  { intros k Hk Hne. apply Hprivate; lia. }
  assert (Hn : translate mp va = None).
  { change (translate mp va) with (translate mi va). rewrite F13; [by apply Hnone|done|].
    intros k Hk (_ & _ & E). symmetry in E. revert E. apply Hself; lia. }
  destruct (map_present mp va f Hwf' Hva Hp Hn) as (e & HM & He & Hep & Hea). rewrite Hfa in Hea.
  exists f, p, (set_word (slot mp va) e mp). split_and!; [done|done|done|].
  set (m' := set_word (slot mp va) e mp).
  assert (Htr : ∀ a, translate m' a =
    if PageEntry.IsPresent (pde m (GetPageDirEntryIdx a)) && (slot m a =? slot m va)
    then Some (f + GetOffset a) else translate mi a).
  { intros a. unfold m'. rewrite translate_set_slot by done. by rewrite Hpr, !Hsl, Hep, Hea. }
  destruct (set_slot_remapped mp va e Hwf' Hva Hp He) as [Hwf2 _].
  assert (Hfr : ∀ g, free_frame m' g ↔ free_frame mi g ∧ g ≠ f) by exact Hsub.
  assert (Hfnew : f ∉ fs) by (intros Hin; by apply F10 in Hin as [_ ?]).
  split; try done.
  - destruct FR as (R1 & R2 & R3), Hreg as (Q1 & Q2 & Q3).
    split_and!; [by rewrite <- R1|by rewrite <- R2|by rewrite <- R3].
  - intros d Hd. unfold m'. rewrite pde_set_slot by done. by apply F5.
  - change (krnl_pool m') with p. lia.
  - intros g Hg. apply F7. by apply Hfr in Hg as [? _].
  - rewrite length_app. simpl. lia.
  - apply NoDup_app. split_and!; [done| |apply NoDup_singleton].
    intros x Hx Hxf. apply list_elem_of_singleton in Hxf as ->. done.
  - intros g Hg. apply elem_of_app in Hg as [Hg|Hg]; [|apply list_elem_of_singleton in Hg as ->].
    + apply F10 in Hg as [? Hng]. split; [done|]. intros [? _]%Hfr. done.
    + split; [by apply F7|]. intros [_ ?]%Hfr. done.
  - intros k g Hk Hg. destruct (decide (k < i)) as [Hlt|].
    + rewrite lookup_app_l in Hg by lia. rewrite Htr.
      replace (slot m (page m (s + k)) =? slot m va) with false
        by (symmetry; apply Z.eqb_neq, Hself; lia).
      rewrite andb_false_r. by apply F11.
    + apply lookup_app_Some in Hg as [Hg|[_ Hg]]; [apply lookup_lt_Some in Hg; lia|].
      apply list_lookup_singleton_Some in Hg as [Hk' <-]. replace k with i by lia.
      rewrite Htr. fold va. rewrite Z.eqb_refl, <- Hpr, Hp. simpl.
      destruct (page_fields (s + i) Hri) as (_ & _ & E). fold va in E. rewrite E. f_equal. lia.
  - intros a x Ha Hx. rewrite Htr in Hx. rewrite Hfr.
    destruct (_ && _); [injection Hx as <-; intros [_ ?]; lia|].
    intros [Hg _]. by apply (F12 a x).
  - intros a Ha Hns. rewrite Htr. destruct (_ && _) eqn:E; [|apply F13; [done|intros; apply Hns; lia]].
    to_prop. destruct (Hns i); [lia|]. split_and!; [done| |done]. fold va. by rewrite <- Hpr.
  - intros g j Hg Hj Hgt. unfold m'. rewrite word_set_ne; [by apply F14|]. rewrite Hsl. intros E.
    apply frame_word_inj in E as [E _]; [|apply PageEntry.GetAddress_aligned|done|apply GetPageTabEntryIdx_range|done].
    apply Hgt. by exists (s + i).
Qed.

(** One round of the loop of [AllocPages] while there are frames. *)
Lemma alloc_body_ok fs i mi :
  filled fs i mi → 0 ≤ i < count → i < PagePool.free_count_ (krnl_pool m) →
  ∃ m' f, alloc_body Kernel (page m s) count (i, mi) = Ok (inl (i + 1, m')) ∧ filled (fs ++ [f]) (i + 1) m'.
Proof.
  intros HF Hi Hfc. destruct (filled_step fs i mi HF Hi Hfc) as (f & p & m' & HA & Hf0 & HM & HF').
  exists m', f. split; [|done]. unfold alloc_body. destruct (Z.eqb_spec i count); [lia|].
  cbn [mem_pool]. rewrite HA, res_bind_ok. destruct (Z.eqb_spec f 0); [done|]. cbn [negb set_mem_pool].
  unfold page at 1. rewrite page_at_succ by (done || lia). fold (page m (s + i)). by rewrite HM.
Qed.

(** The loop of [AllocPages]: it maps all pages, or stops at the first one there
    is no frame for. *)
Lemma alloc_loop_ok :
  count ≤ PagePool.free_count_ (krnl_pool m) →
  ∃ fs mi, loop (S (Z.to_nat count)) (alloc_body Kernel (page m s) count) (0, m) = Ok (mi, true)
    ∧ filled fs count mi.
Proof.
  intros Henough.
  assert (HL : ∃ r, loop (S (Z.to_nat count)) (alloc_body Kernel (page m s) count) (0, m) = Ok r
    ∧ snd r = true ∧ ∃ fs, filled fs count (fst r)).
  { apply (loop_inv (λ st, ∃ fs, filled fs (fst st) (snd st) ∧ 0 ≤ fst st ≤ count)
      (λ st, Z.to_nat (count - fst st))).
  - intros [i mi] (fs & HF & Hi). simpl in HF, Hi.
    destruct (Z.eq_dec i count) as [->|Hne]; [right; eexists; split; [unfold alloc_body; by rewrite Z.eqb_refl|]; eauto|left].
    destruct (alloc_body_ok fs i mi HF) as (m' & f & -> & HF'); [lia|lia|].
    eexists. split; [done|]. simpl. split; [exists (fs ++ [f]); split; [done|lia]|lia].
  - exists []. simpl. split; [apply filled_0|lia].
  - simpl. lia. }
  destruct HL as ([mi b] & HL & Hb & fs & HF). simpl in *. subst b. by exists fs, mi.
Qed.

Lemma no_frame p : PagePool.ok p → PagePool.free_count_ p = 0 → PhyMemPagePool.AllocPages 1 p = Ok (p, 0).
Proof.
  intros Hp H0. destruct (PhyMemPagePool.phy_AllocPages_ok p 1 Hp)
    as [[-> _]|(p' & j & _ & _ & _ & _ & _ & Hok' & (_ & _ & Hc & _))]; [lia|done|].
  pose proof (PagePool.ok_free_count _ Hok'). lia.
Qed.

Lemma alloc_loop_none :
  PagePool.free_count_ (krnl_pool m) = 0 →
  loop (S (Z.to_nat count)) (alloc_body Kernel (page m s) count) (0, m) = Ok (m, false).
Proof.
  intros H0. rewrite loop_S. unfold alloc_body. destruct (Z.eqb_spec 0 count); [lia|]. cbn [mem_pool].
  rewrite no_frame, !res_bind_ok by (done || apply (wf_pool m Hwf)). cbn [negb Z.eqb set_mem_pool].
  by destruct m as [? ? [? ? ?] ?].
Qed.

Lemma alloc_loop_short (Q : t → Prop) :
  let n := PagePool.free_count_ (krnl_pool m) in
  n < count →
  (∀ fs mi, filled fs n mi → ∃ m', alloc_failed Kernel (page m s) count n mi = Ok m' ∧ Q m') →
  ∃ m', loop (S (Z.to_nat count)) (alloc_body Kernel (page m s) count) (0, m) = Ok (m', false) ∧ Q m'.
Proof.
  intros n Hn HQ. pose proof (PagePool.ok_free_count _ (wf_pool m Hwf)) as Hn0. fold n in Hn0.
  assert (HL : ∃ r, loop (S (Z.to_nat count)) (alloc_body Kernel (page m s) count) (0, m) = Ok r
    ∧ snd r = false ∧ Q (fst r)).
  { apply (loop_inv (λ st, ∃ fs, filled fs (fst st) (snd st) ∧ 0 ≤ fst st ≤ n) (λ st, Z.to_nat (n - fst st))).
  - intros [i mi] (fs & HF & Hi). simpl in HF, Hi. destruct (Z.eq_dec i n) as [->|Hne]; [right|left].
    + destruct (HQ fs mi HF) as (m' & E & HQ'). exists (m', false). split; [|done]. unfold alloc_body.
      destruct (Z.eqb_spec n count); [lia|]. cbn [mem_pool].
      rewrite no_frame, res_bind_ok; [|apply (wf_pool mi (fi_wf _ _ _ HF))|rewrite (fi_count _ _ _ HF); fold n; lia].
      cbn [negb Z.eqb set_mem_pool].
      replace (set_krnl_pool (krnl_pool mi) mi) with mi by (destruct mi as [? ? [? ? ?] ?]; done). by rewrite E.
    + destruct (alloc_body_ok fs i mi HF) as (m' & f & -> & HF'); [lia|fold n; lia|].
      eexists. split; [done|]. simpl. split; [exists (fs ++ [f]); split; [done|lia]|lia].
  - exists []. simpl. split; [apply filled_0|lia].
  - simpl. lia. }
  destruct HL as ([mi b] & HL & Hb & HQ'). simpl in *. subst b. by exists mi.
Qed.

(** Clearing the new pages. *)
Lemma clear_pages_ok fs mi :
  filled fs count mi →
  ∃ m', clear_words (page m s) (page_size / 4 * count) mi = Ok m' ∧ wf m'
    ∧ page_dir m' = page_dir mi ∧ pools m' = pools mi ∧ usr_addr_pool m' = usr_addr_pool mi
    ∧ (∀ i, 0 ≤ i < 1024 → pde m' i = pde mi i) ∧ (∀ a, translate m' a = translate mi a)
    ∧ (∀ k f j, 0 ≤ k → fs !! Z.to_nat k = Some f → 0 ≤ j < 1024 → word m' (f + 4 * j) = 0)
    ∧ ∀ f j, f mod 4096 = 0 → 0 ≤ j < 1024 → f ∉ fs → word m' (f + 4 * j) = word mi (f + 4 * j).
Proof.
  intros HF. unfold clear_words. change (page_size / 4) with 1024.
  destruct (for_range_inv (λ n m', wf m'
    ∧ page_dir m' = page_dir mi ∧ pools m' = pools mi ∧ usr_addr_pool m' = usr_addr_pool mi
    ∧ (∀ i, 0 ≤ i < 1024 → pde m' i = pde mi i) ∧ (∀ a, translate m' a = translate mi a)
    ∧ (∀ k f j, 0 ≤ k → fs !! Z.to_nat k = Some f → 0 ≤ j < 1024 → 1024 * k + j < n →
        word m' (f + 4 * j) = 0)
    ∧ ∀ f j, f mod 4096 = 0 → 0 ≤ j < 1024 → f ∉ fs → word m' (f + 4 * j) = word mi (f + 4 * j))
    (Z.to_nat (1024 * count)) 0 (λ i m', store (page m s +w 4 * i) 0 m') mi)
    as (m' & Hm' & H1 & H2 & H3 & H4 & H5 & H6 & H7 & H8).
  { split_and!; try done; [apply (fi_wf _ _ _ HF)|intros; lia]. }
  2:{ exists m'. do 7 (split; [done|]). split; [|done]. intros k f j Hk Hf Hj. apply (H7 k); try done.
      pose proof (fi_len _ _ _ HF). apply lookup_lt_Some in Hf. lia. }
  intros n m1 Hn (H1 & H2 & H3 & H4 & H5 & H6 & H7 & H8).
  set (q := n / 1024). set (r := n mod 1024).
  assert (Hq : 0 ≤ q < count ∧ 0 ≤ r < 1024 ∧ n = 1024 * q + r) by (unfold q, r; div_lia).
  destruct (lookup_lt_is_Some_2 fs (Z.to_nat q)) as [f Hf].
  { pose proof (fi_len _ _ _ HF). lia. }
  assert (Hri : 0 ≤ s + q < PagePool.capacity (heap_pool m)) by lia.
  destruct (page_fields (s + q) Hri) as (Hpr & Hpa & _).
  assert (Hpq : page m (s + q) + 4096 ≤ 2 ^ 32) by div_lia.
  assert (Hadr : page m s +w 4 * n = page m (s + q) + 4 * r).
  { unfold page, PagePool.page_at in *. rewrite u32_small; lia. }
  destruct (page_offset (page m (s + q)) (4 * r)) as (Hsp & Ho & Ho0); [lia|done|lia|lia|].
  assert (Htr : translate m1 (page m s +w 4 * n) = Some (f + 4 * r)).
  { rewrite H6, Hadr, (translate_same_page _ _ _ Hsp).
    rewrite (fi_map _ _ _ HF q f) by (done || lia). simpl. rewrite Ho, Ho0. f_equal. lia. }
  destruct (fi_taken _ _ _ HF f) as [Hff _]; [by eapply list_elem_of_lookup_2|].
  assert (Hdf : data_frame m1 f).
  { destruct (free_data_frame m f Hwf Hff) as (D1 & D2 & D3). split_and!; [done| |].
    - by rewrite H2, (fi_dir _ _ _ HF).
    - intros i Hi. rewrite H5, (fi_pde _ _ _ HF) by lia. by apply D3. }
  destruct (set_word_data m1 f r 0 H1 Hdf) as (W1 & W2 & W3); [lia|unfold in_u; lia|].
  unfold store. rewrite Htr. simpl. eexists. split; [done|]. split_and!; try done.
  - intros i Hi. rewrite W2 by done. by apply H5.
  - intros a. rewrite W3. apply H6.
  - intros k g j Hk Hg Hj Hlt. destruct (decide (f + 4 * r = g + 4 * j)) as [<-|Hne].
    + by rewrite word_set_eq.
    + rewrite word_set_ne by done. apply (H7 k); try done.
      destruct (decide (1024 * k + j = n)) as [E|]; [|lia].
      assert (k = q) as -> by lia. assert (j = r) as -> by lia. congruence.
  - intros g j Hg Hj Hgf. rewrite word_set_ne; [by apply H8|]. intros E.
    apply frame_word_inj in E as [-> _]; [|apply Hdf|done|lia|done]. apply Hgf. by eapply list_elem_of_lookup_2.
Qed.
End alloc.

(** ** Giving pages back *)

Lemma translated_present m a x :
  translate m a = Some x → PageEntry.IsPresent (pde m (GetPageDirEntryIdx a)) = true.
Proof. unfold translate. cbv zeta. by destruct (PageEntry.IsPresent _). Qed.

Lemma page_offset_0 m i :
  kheap m → 0 ≤ i < PagePool.capacity (heap_pool m) → GetOffset (page m i) = 0.
Proof. intros Hh Hi. by destruct (page_fields m (kh_pool m Hh) i Hi) as (_ & _ & ?). Qed.

(** Giving a data frame back to the kernel's pool. *)
Lemma give_frame m f :
  wf m → taken_frame m f → data_frame m f →
  ∃ p, PhyMemPagePool.FreePages f 1 (krnl_pool m) = Ok p ∧ wf (set_krnl_pool p m)
    ∧ same_frames m (set_krnl_pool p m)
    ∧ PagePool.free_count_ p = PagePool.free_count_ (krnl_pool m) + 1
    ∧ (∀ g, free_frame (set_krnl_pool p m) g ↔ free_frame m g ∨ g = f).
Proof.
  intros Hwf (i & Hi & Ht & <-) Hd. pose proof (wf_pool m Hwf) as Hok.
  destruct (PhyMemPagePool.FreePages_ok (krnl_pool m) i 1 Hok)
    as (p & HF & Hok' & Hst & Hcap & Hn & Htk); try lia.
  { intros j Hj. by replace j with i by lia. }
  assert (Htk' : ∀ j, 0 ≤ j → PagePool.taken p j = negb (j =? i) && PagePool.taken (krnl_pool m) j).
  { intros j Hj. rewrite Htk by done.
    destruct (Z.leb_spec i j), (Z.ltb_spec j (i + 1)), (Z.eqb_spec j i); simpl; done || lia. }
  assert (Hsub : ∀ g, free_frame (set_krnl_pool p m) g ↔
    free_frame m g ∨ g = PagePool.page_at (krnl_pool m) i).
  { intros g. unfold free_frame. change (krnl_pool (set_krnl_pool p m)) with p.
    unfold PagePool.page_at. rewrite Hcap, Hst. split.
    - intros (j & Hj & Hjt & <-). rewrite Htk' in Hjt by lia.
      destruct (Z.eqb_spec j i) as [->|]; [by right|left]. by exists j.
    - intros [(j & Hj & Hjt & <-)| ->]; [exists j|exists i]; split_and!; try done; try lia.
      + rewrite Htk' by lia. by rewrite Hjt, andb_false_r.
      + rewrite Htk' by lia. by rewrite Z.eqb_refl. }
  exists p. split_and!; try done.
  destruct Hwf as [H1 H2 H3 H4 H5 H6]. destruct Hd as (_ & Hd1 & Hd2).
  assert (Hnf : ∀ g, not_free m g → g ≠ PagePool.page_at (krnl_pool m) i →
    not_free (set_krnl_pool p m) g).
  { intros g Hg Hne. apply not_free_frame. rewrite Hsub. apply not_free_frame in Hg. tauto. }
  split; try done.
  - intros j Hj Hp. destruct (H4 j Hj Hp). split; [done|]. apply Hnf; [done|by apply (Hd2 j)].
  - apply Hnf; [done|]. by apply not_eq_sym.
Qed.

Lemma unmap_present m va :
  wf m → plain va → PageEntry.IsPresent (pde m (GetPageDirEntryIdx va)) = true →
  ∃ e, Unmap va m = Ok (set_word (slot m va) e m) ∧ in_u 32 e ∧ PageEntry.IsPresent e = false.
Proof.
  intros Hwf Hva Hp. unfold Unmap. rewrite load_dir_entry by done. rewrite res_bind_ok, Hp.
  rewrite load_tab_entry by done. rewrite res_bind_ok. rewrite store_tab_entry by done. eexists.
  split; [done|]. split; [apply (PageEntry.SetPresent_range false)|].
  rewrite PageEntry.IsPresent_bit, PageEntry.testbit_SetPresent by (apply (wf_words m Hwf) || lia). done.
Qed.

Section free.
Context (m : t) (s count : Z) (Hh : kheap m).
Context (Hrun : 0 ≤ s ∧ 0 < count ∧ s + count ≤ PagePool.capacity (heap_pool m)).
Context (Hmapped : ∀ i, s ≤ i < s + count →
  ∃ f, translate m (page m i) = Some f ∧ taken_frame m f ∧ data_frame m f).
Context (Halone : ∀ i f a x, s ≤ i < s + count → translate m (page m i) = Some f →
  plain a → translate m a = Some x → x - GetOffset a = f → shares_entry m a (page m i)).

(** The first [i] pages have been given back. *)
Record freed (i : Z) (mi : t) : Prop := {
  fr_wf : wf mi;
  fr_dir : page_dir mi = page_dir m;
  fr_heap : heap_pool mi = heap_pool m;
  fr_usr : usr_addr_pool mi = usr_addr_pool m;
  fr_region : same_frames m mi;
  fr_pde : ∀ d, 0 ≤ d < 1024 → pde mi d = pde m d;
  fr_count : PagePool.free_count_ (krnl_pool mi) = PagePool.free_count_ (krnl_pool m) + i;
  fr_free : ∀ g, free_frame mi g →
    free_frame m g ∨ ∃ k, 0 ≤ k < i ∧ translate m (page m (s + k)) = Some g;
  fr_gone : ∀ a k, 0 ≤ k < i → plain a → shares_entry m a (page m (s + k)) → translate mi a = None;
  fr_other : ∀ a, plain a → (∀ k, 0 ≤ k < i → ¬ shares_entry m a (page m (s + k))) →
    translate mi a = translate m a;
  fr_words : ∀ f j, f mod 4096 = 0 → 0 ≤ j < 1024 → ¬ heap_table m f →
    word mi (f + 4 * j) = word m (f + 4 * j)
}.

Lemma freed_0 : freed 0 m.
Proof. split; try done; try lia; [apply (kh_wf m Hh)|auto]. Qed.

Lemma freed_step i mi :
  freed i mi → 0 ≤ i < count → ∃ m', free_page Kernel (page m s) i mi = Ok m' ∧ freed (i + 1) m'.
Proof.
  intros [F1 F2 F3 F4 (R1 & R2 & R3) F5 F6 F7 F8 F9 F10] Hi.
  set (va := page m (s + i)). assert (Hri : 0 ≤ s + i < PagePool.capacity (heap_pool m)) by lia.
  assert (Hva : plain va) by by apply (kh_plain m Hh).
  assert (Hself : ∀ k, 0 ≤ k < count → k ≠ i → ¬ shares_entry m va (page m (s + k))).
  { intros k Hk Hne (_ & _ & E). revert E. apply (kh_private m Hh); lia. }
  destruct (Hmapped (s + i)) as (f & Hf & Htk & Hdf); [lia|]. fold va in Hf.
  assert (Hfi : translate mi va = Some f) by (rewrite F9; [done|done|intros; apply Hself; lia]).
  assert (Htki : taken_frame mi f).
  { destruct (frame_cases m mi f) as [Hc|]; [by split_and!|by right| |done].
    apply F7 in Hc as [Hc|(k & Hk & Hc)]; [by apply taken_not_free in Htk|].
    exfalso. apply (Hself k); [lia|lia|]. apply (Halone (s + k) f va f); try done; try lia.
    unfold va. rewrite page_offset_0 by done. lia. }
  assert (Hdfi : data_frame mi f).
  { destruct Hdf as (D1 & D2 & D3). split_and!; [done|by rewrite F2|]. intros j Hj.
    rewrite F5 by lia. by apply D3. }
  destruct (give_frame mi f F1 Htki Hdfi) as (p & HP & Hwf' & (Q1 & Q2 & Q3) & Hc' & Hsub).
  set (mp := set_krnl_pool p mi) in *.
  assert (Hp : PageEntry.IsPresent (pde mp (GetPageDirEntryIdx va)) = true).
  { change (pde mp) with (pde mi). by apply translated_present in Hfi. }
  destruct (unmap_present mp va Hwf' Hva Hp) as (e & HU & He & Hep).
  assert (Hsl : ∀ a, slot mp a = slot m a) by (intros a; by apply slot_pde).
  unfold free_page. cbv zeta. unfold page. rewrite page_at_succ by (apply (kh_pool m Hh) || lia).
  fold (page m (s + i)); fold va. rewrite (proj1 (GetPhyAddr_ok mi va f F1 Hfi)). simpl.
  rewrite page_size_eq, (proj1 Hdf), HP. simpl. fold mp. rewrite HU.
  eexists. split; [done|]. set (m' := set_word (slot mp va) e mp).
  assert (Htr : ∀ a, translate m' a =
    if PageEntry.IsPresent (pde m (GetPageDirEntryIdx a)) && (slot m a =? slot m va)
    then None else translate mi a).
  { intros a. unfold m'. rewrite translate_set_slot by done. rewrite !Hsl, Hep.
    change (pde mp) with (pde mi). by rewrite F5 by apply GetPageDirEntryIdx_range. }
  destruct (set_slot_remapped mp va e Hwf' Hva Hp He) as [Hwf2 _].
  assert (Hpm : PageEntry.IsPresent (pde m (GetPageDirEntryIdx va)) = true)
    by by apply translated_present in Hf.
  split; try done.
  - split_and!; [by rewrite <- R1|by rewrite <- R2|by rewrite <- R3].
  - intros d Hd. unfold m'. rewrite pde_set_slot by done. by apply F5.
  - change (krnl_pool m') with p. lia.
  - intros g Hg. change (free_frame m' g) with (free_frame mp g) in Hg. apply Hsub in Hg as [Hg| ->].
    + apply F7 in Hg as [|(k & Hk & Hg)]; [by left|right]. exists k. split; [lia|done].
    + right. exists i. split; [lia|done].
  - intros a k Hk Ha Hs. rewrite Htr. destruct (decide (k = i)) as [->|].
    + destruct Hs as (E1 & _ & E3). fold va in E3. by rewrite E1, E3, Z.eqb_refl.
    + destruct (_ && _); [done|]. apply (F8 a k); [lia|done|done].
  - intros a Ha Hns. rewrite Htr. destruct (_ && _) eqn:E; [|apply F9; [done|intros; apply Hns; lia]].
    to_prop. destruct (Hns i); [lia|]. by split_and!.
  - intros g j Hg Hj Hgt. unfold m'. rewrite word_set_ne; [by apply F10|]. rewrite Hsl. intros E.
    apply frame_word_inj in E as [E _]; [|apply PageEntry.GetAddress_aligned|done|apply GetPageTabEntryIdx_range|done].
    apply Hgt. by exists (s + i).
Qed.

Lemma free_loop_ok :
  ∃ mi, for_range (Z.to_nat count) 0 (free_page Kernel (page m s)) m = Ok mi ∧ freed count mi.
Proof.
  destruct (for_range_inv freed (Z.to_nat count) 0 (free_page Kernel (page m s)) m) as (mi & HL & HF).
  - apply freed_0.
  - intros k mk Hk HF. apply freed_step; [done|lia].
  - exists mi. split; [done|]. by replace (0 + Z.of_nat (Z.to_nat count)) with count in HF by lia.
Qed.
End free.

(** ** [AllocPages] *)

Lemma run_pages_unmapped m s count :
  kheap m → PagePool.first_run (heap_pool m) count s →
  ∀ k, 0 ≤ k < count → translate m (page m (s + k)) = None.
Proof.
  intros Hh [(H0 & H1 & Hf) _] k Hk. apply (kh_unmapped m Hh).
  - unfold PagePool.capacity. lia.
  - apply Hf. lia.
Qed.

(** What the caller of [AllocPages] gets: [count] consecutive pages from the
    first free run, each mapped at a frame of its own that was free and is
    cleared; pages that share no entry with the new ones are as before. *)
Record fresh_pages (m m' : t) (count s : Z) (fs : list Z) : Prop := {
  fp_base : page m s ≠ 0 ∧ PagePool.first_run (heap_pool m) count s;
  fp_pool : PagePool.changed (heap_pool m) (heap_pool m') s count true;
  fp_len : Z.of_nat (length fs) = count;
  fp_frames : NoDup fs ∧ Forall (free_frame m) fs ∧ Forall (taken_frame m') fs;
  fp_region : same_frames m m' ∧ (∀ f, free_frame m' f → free_frame m f ∧ f ∉ fs)
    ∧ PagePool.free_count_ (krnl_pool m') = PagePool.free_count_ (krnl_pool m) - count;
  fp_pde : ∀ i, 0 ≤ i < 1024 → pde m' i = pde m i;
  fp_dir : page_dir m' = page_dir m;
  fp_map : ∀ k f, 0 ≤ k → fs !! Z.to_nat k = Some f →
    translate m' (page m (s + k)) = Some f ∧ ∀ j, 0 ≤ j < 1024 → word m' (f + 4 * j) = 0;
  fp_other : ∀ a, plain a → (∀ k, 0 ≤ k < count → ¬ shares_entry m a (page m (s + k))) →
    translate m' a = translate m a;
  fp_words : ∀ f j, f mod 4096 = 0 → 0 ≤ j < 1024 → f ∉ fs → ¬ heap_table m f →
    word m' (f + 4 * j) = word m (f + 4 * j)
}.

Lemma page_plus m s k : page m (s + k) = page m s + k * 4096.
Proof. unfold page, PagePool.page_at. lia. Qed.

(** What a request leaves when it gives back all it took: the same pages and as
    many frames are free and every address translates as before. *)
Record restored (m m' : t) : Prop := {
  rs_heap : kheap m';
  rs_pool : PagePool.start_addr_ (heap_pool m') = PagePool.start_addr_ (heap_pool m)
    ∧ PagePool.capacity (heap_pool m') = PagePool.capacity (heap_pool m);
  rs_taken : ∀ i, 0 ≤ i → PagePool.taken (heap_pool m') i = PagePool.taken (heap_pool m) i;
  rs_count : PagePool.free_count_ (krnl_pool m') = PagePool.free_count_ (krnl_pool m);
  rs_frames : same_frames m m' ∧ ∀ g, free_frame m' g → free_frame m g;
  rs_translate : ∀ a, plain a → translate m' a = translate m a
}.

Lemma kheap_restored m m' :
  kheap m → wf m' → PagePool.ok (heap_pool m') →
  PagePool.start_addr_ (heap_pool m') = PagePool.start_addr_ (heap_pool m) →
  PagePool.capacity (heap_pool m') = PagePool.capacity (heap_pool m) →
  (∀ i, 0 ≤ i → PagePool.taken (heap_pool m') i = PagePool.taken (heap_pool m) i) →
  (∀ d, 0 ≤ d < 1024 → pde m' d = pde m d) → (∀ a, plain a → translate m' a = translate m a) →
  (∀ g, free_frame m' g → free_frame m g) → kheap m'.
Proof.
  intros Hh Hwf Hok Est Ecap Etk Hpd Htr Hfr.
  assert (Hpg : ∀ i, page m' i = page m i) by (intros i; unfold page, PagePool.page_at; by rewrite Est).
  assert (Hpde : ∀ a, pde m' (GetPageDirEntryIdx a) = pde m (GetPageDirEntryIdx a))
    by (intros a; apply Hpd, GetPageDirEntryIdx_range).
  assert (Hsl : ∀ a, slot m' a = slot m a) by (intros a; unfold slot; by rewrite Hpde).
  split; [done|done|..]; rewrite ?Ecap.
  - intros i Hi. rewrite Hpg. by apply (kh_plain m Hh).
  - intros i Hi. rewrite Hpg, Hpde. by apply (kh_tables m Hh).
  - intros i j Hi Hj Hne. rewrite !Hpg, !Hsl. by apply (kh_private m Hh).
  - intros i Hi Ht. rewrite Etk in Ht by lia. rewrite Hpg, Htr by (by apply (kh_plain m Hh)).
    by apply (kh_unmapped m Hh).
  - intros a x Ha Hx Hf. rewrite Htr in Hx by done. apply (kh_frames m Hh a x Ha Hx). by apply Hfr.
Qed.

(** A run of pages can be given back in two parts. *)
Lemma free_in_two ap s i count :
  PagePool.ok ap → 0 ≤ s → 0 < i < count → s + count ≤ PagePool.capacity ap →
  (∀ j, s ≤ j < s + count → PagePool.taken ap j = true) →
  ∃ ap2 ap3, VrAddrPool.FreePages (PagePool.page_at ap s) i ap = Ok ap2
    ∧ VrAddrPool.FreePages (PagePool.page_at ap s +w i *w page_size) (count -w i) ap2 = Ok ap3
    ∧ PagePool.ok ap3 ∧ PagePool.start_addr_ ap3 = PagePool.start_addr_ ap
    ∧ PagePool.capacity ap3 = PagePool.capacity ap
    ∧ ∀ j, 0 ≤ j → PagePool.taken ap3 j = negb ((s <=? j) && (j <? s + count)) && PagePool.taken ap j.
Proof.
  intros Hap Hs Hi Hc Ht. pose proof (PagePool.capacity_pos _ Hap).
  rewrite page_at_succ by (done || lia). rewrite (u32_small (count - i)) by lia.
  destruct (PhyMemPagePool.FreePages_ok ap s i Hap) as (ap2 & A2 & Hap2 & (E2 & C2 & _ & T2)); try lia.
  { intros j Hj. apply Ht. lia. }
  destruct (PhyMemPagePool.FreePages_ok ap2 (s + i) (count - i) Hap2) as (ap3 & A3 & Hap3 & (E3 & C3 & _ & T3)); try lia.
  { intros j Hj. rewrite T2, Ht by lia. bits_cases; done || lia. }
  exists ap2, ap3. split; [exact A2|]. unfold PagePool.page_at in A3 |- *. rewrite E2 in A3. split; [exact A3|].
  split; [done|]. split; [congruence|]. split; [congruence|]. intros j Hj. rewrite T3, T2 by done.
  bits_cases; simpl; done || lia.
Qed.

Section alloc_result.
Context (m m1 : t) (ap : PagePool.t) (s count : Z).
Context (Hh : kheap m) (Hrun : PagePool.first_run (heap_pool m) count s) (Hc : 0 < count).
Context (Hap : PagePool.ok ap) (Hch : PagePool.changed (heap_pool m) ap s count true).
Context (Hm1 : m1 = set_addr_pool Kernel ap m).

Lemma page_m1 i : page m1 i = page m i.
Proof. destruct Hch as (E & _). rewrite Hm1. unfold page.
  change (heap_pool (set_addr_pool Kernel ap m)) with ap. unfold PagePool.page_at. by rewrite E. Qed.

Lemma cap_m1 : PagePool.capacity (heap_pool m1) = PagePool.capacity (heap_pool m).
Proof. destruct Hch as (_ & E & _). rewrite Hm1. exact E. Qed.

Lemma wf_m1 : wf m1.
Proof. rewrite Hm1. destruct (kh_wf m Hh). by split. Qed.

Lemma run_range : 0 ≤ s ∧ 0 < count ∧ s + count ≤ PagePool.capacity (heap_pool m1).
Proof. rewrite cap_m1. destruct Hrun as [(? & ? & _) _]. unfold PagePool.capacity. lia. Qed.

(** The heap is well formed once the pages are mapped. *)
Lemma filled_kheap fs i mi m2 :
  filled m1 s fs i mi → i ≤ count → wf m2 → pools m2 = pools mi →
  (∀ i, 0 ≤ i < 1024 → pde m2 i = pde mi i) → (∀ a, translate m2 a = translate mi a) → kheap m2.
Proof.
  intros HF Hic Hwf2 Hpo Hpd Htr. destruct Hch as (Est & Ecap & _ & Etk).
  assert (Hhp : heap_pool m2 = ap).
  { unfold heap_pool. rewrite Hpo. fold (heap_pool mi). rewrite (fi_heap _ _ _ _ _ HF). by rewrite Hm1. }
  assert (Hpg : ∀ q, page m2 q = page m q).
  { intros q. unfold page, PagePool.page_at. by rewrite Hhp, Est. }
  assert (Hpde : ∀ q, 0 ≤ q < 1024 → pde m2 q = pde m q).
  { intros q Hq. rewrite Hpd, (fi_pde _ _ _ _ _ HF) by done. by rewrite Hm1. }
  assert (Hsl : ∀ a, slot m2 a = slot m a).
  { intros a. unfold slot. by rewrite Hpde by apply GetPageDirEntryIdx_range. }
  assert (Hfr : ∀ f, free_frame m2 f ↔ free_frame mi f).
  { intros f. unfold free_frame, krnl_pool. by rewrite Hpo. }
  split; try done; rewrite ?Hhp, ?Ecap.
  - done.
  - intros q Hq. rewrite Hpg. by apply (kh_plain m Hh).
  - intros q Hq. rewrite Hpg, Hpde by apply GetPageDirEntryIdx_range. by apply (kh_tables m Hh).
  - intros q j Hq Hj Hne. rewrite !Hpg, !Hsl. by apply (kh_private m Hh).
  - intros q Hq Ht. rewrite Hpg, Htr. rewrite Etk in Ht by lia.
    destruct (Z.leb_spec s q), (Z.ltb_spec q (s + count)); simpl in Ht; try done.
    all: rewrite (fi_other _ _ _ _ _ HF); [rewrite Hm1; by apply (kh_unmapped m Hh)|by apply (kh_plain m Hh)|].
    all: intros k Hk (_ & _ & E); rewrite page_m1, Hm1 in E; revert E;
      apply (kh_private m Hh); destruct run_range; rewrite ?cap_m1 in *; lia.
  - intros a x Ha Hx. rewrite Hfr. rewrite Htr in Hx. by apply (fi_safe _ _ _ _ _ HF).
Qed.

Lemma filled_fresh fs mi m2 :
  filled m1 s fs count mi → page m s ≠ 0 → page_dir m2 = page_dir mi → pools m2 = pools mi →
  (∀ i, 0 ≤ i < 1024 → pde m2 i = pde mi i) → (∀ a, translate m2 a = translate mi a) →
  (∀ k f j, 0 ≤ k → fs !! Z.to_nat k = Some f → 0 ≤ j < 1024 → word m2 (f + 4 * j) = 0) →
  (∀ f j, f mod 4096 = 0 → 0 ≤ j < 1024 → f ∉ fs → word m2 (f + 4 * j) = word mi (f + 4 * j)) →
  fresh_pages m m2 count s fs.
Proof.
  intros HF Hb Hdir Hpo Hpd Htr Hz Hw.
  assert (Hfr : ∀ f, free_frame m2 f ↔ free_frame mi f).
  { intros f. unfold free_frame, krnl_pool. by rewrite Hpo. }
  assert (Hfr1 : ∀ f, free_frame m1 f ↔ free_frame m f) by (intros; by rewrite Hm1).
  assert (Hreg : same_frames m m2).
  { pose proof (fi_region _ _ _ _ _ HF) as R. unfold same_frames, krnl_pool in *.
    rewrite Hpo. by rewrite Hm1 in R. }
  split; try done.
  - unfold heap_pool at 2. rewrite Hpo. fold (heap_pool mi).
    rewrite (fi_heap _ _ _ _ _ HF). by rewrite Hm1.
  - apply HF.
  - pose proof (fi_taken _ _ _ _ _ HF) as Ht. split_and!; [apply HF|..];
      apply Forall_forall; intros f Hf; apply Ht in Hf as [? Hn]; [by apply Hfr1|].
    destruct (frame_cases m m2 f Hreg) as [Hc'|]; [left; by apply Hfr1|by apply Hfr in Hc'|done].
  - split_and!; [done| |].
    + intros f Hf%Hfr. split; [by apply Hfr1, (fi_free _ _ _ _ _ HF)|].
      intros Hin. by apply (fi_taken _ _ _ _ _ HF) in Hin as [_ ?].
    + unfold krnl_pool. rewrite Hpo. fold (krnl_pool mi). rewrite (fi_count _ _ _ _ _ HF). by rewrite Hm1.
  - intros i Hi. rewrite Hpd, (fi_pde _ _ _ _ _ HF) by done. by rewrite Hm1.
  - rewrite Hdir, (fi_dir _ _ _ _ _ HF). by rewrite Hm1.
  - intros k f Hk Hf. split; [|intros j; by apply (Hz k)].
    rewrite Htr, <- page_m1. by apply (fi_map _ _ _ _ _ HF).
  - intros a Ha Hns. rewrite Htr, (fi_other _ _ _ _ _ HF); [by rewrite Hm1|done|].
    intros k Hk. rewrite page_m1, Hm1. by apply Hns.
  - intros f j Hf Hj Hfs Hft. rewrite Hw, (fi_words _ _ _ _ _ HF); try done; [by rewrite Hm1|].
    intros (i & Hi & E). apply Hft. exists i. rewrite cap_m1 in Hi. split; [done|]. rewrite page_m1 in E.
    by rewrite Hm1 in E.
Qed.

(** The pages mapped so far can be given back. *)
Lemma filled_free fs i mi :
  filled m1 s fs i mi → 0 < i < count →
  ∃ mj, for_range (Z.to_nat i) 0 (free_page Kernel (page mi s)) mi = Ok mj ∧ freed mi s i mj.
Proof.
  intros HF Hi. destruct run_range as (Hs0 & _ & Hs1). pose proof HF as [F1 F2 F3 F4 FR F5 F6 F7 F8 F9 F10 F11 F12 F13 F14].
  assert (Hhi : kheap mi) by (apply (filled_kheap fs i mi mi HF); done || lia).
  assert (Hpg : ∀ k, page mi k = page m1 k) by (intros k; unfold page; by rewrite F3).
  assert (Hpd : ∀ a, pde mi (GetPageDirEntryIdx a) = pde m1 (GetPageDirEntryIdx a))
    by (intros a; apply F5, GetPageDirEntryIdx_range).
  assert (Hsh : ∀ a b, shares_entry mi a b ↔ shares_entry m1 a b)
    by (intros a b; unfold shares_entry, slot; by rewrite !Hpd).
  assert (Hnew : ∀ q, s ≤ q < s + i → ∃ f, fs !! Z.to_nat (q - s) = Some f ∧ f ∈ fs ∧ translate mi (page mi q) = Some f).
  { intros q Hq. destruct (lookup_lt_is_Some_2 fs (Z.to_nat (q - s))) as [f Hf]; [lia|]. exists f.
    split; [done|]. split; [by eapply list_elem_of_lookup_2|]. rewrite Hpg. replace q with (s + (q - s)) by lia.
    apply F11; [lia|done]. }
  apply (free_loop_ok mi s i Hhi); [rewrite F3; lia| |].
  - intros q Hq. destruct (Hnew q Hq) as (f & _ & Hin & Ht). destruct (F10 f Hin) as [Hf Hn].
    exists f. split; [done|]. split.
    + destruct (frame_cases m1 mi f) as [|]; [done|by left|done|done].
    + destruct (free_data_frame m1 f wf_m1 Hf) as (D1 & D2 & D3). split; [done|]. split; [by rewrite F2|].
      intros d Hd. rewrite F5 by lia. by apply D3.
  - intros q f a x Hq Htr Ha Hx E. destruct (Hnew q Hq) as (f' & Hfs & Hin & Ht). assert (f' = f) as -> by congruence.
    destruct (decide (Exists (λ k, shares_entry m1 a (page m1 (s + k))) (seqZ 0 i))) as [Hs|Hs].
    + apply Exists_exists in Hs as (k & Hk%elem_of_seqZ & Hs). destruct (Hnew (s + k)) as (g & Hg & _ & Htg); [lia|].
      rewrite <- Hpg in Hs. apply Hsh in Hs. rewrite (translate_shares mi a _ Hs), Htg in Hx.
      rewrite page_offset_0 in Hx by (done || rewrite F3; lia).
      replace (s + k - s) with k in Hg by lia.
      assert (Egf : g = f) by (injection Hx as <-; lia). subst g.
      assert (Z.to_nat k = Z.to_nat (q - s)) by by eapply NoDup_lookup.
      by replace q with (s + k) by lia.
    + exfalso. assert (Hxm : translate m1 a = Some x).
      { rewrite <- F13; [done|done|]. intros k Hk Hsk. apply Hs, Exists_exists. exists k. split; [apply elem_of_seqZ; lia|done]. }
      rewrite Hm1 in Hxm. apply (kh_frames m Hh a x Ha Hxm). rewrite E. destruct (F10 f Hin) as [Hf _].
      by rewrite Hm1 in Hf.
Qed.

(** What is left of [i] pages that were mapped and given back. *)
Lemma gone_translate fs i mi mj a :
  filled m1 s fs i mi → 0 < i < count → freed mi s i mj → plain a → translate mj a = translate m a.
Proof.
  intros HF Hi HJ Ha.
  assert (Hsh : ∀ k, shares_entry mi a (page mi k) ↔ shares_entry m a (page m k)).
  { intros k. unfold shares_entry, slot. rewrite !(fi_pde _ _ _ _ _ HF) by apply GetPageDirEntryIdx_range.
    replace (page mi k) with (page m k); [by rewrite Hm1|].
    rewrite <- page_m1. unfold page. by rewrite (fi_heap _ _ _ _ _ HF). }
  destruct (decide (Exists (λ k, shares_entry m a (page m (s + k))) (seqZ 0 i))) as [Hs|Hs].
  - apply Exists_exists in Hs as (k & Hk%elem_of_seqZ & Hs).
    rewrite (fr_gone _ _ _ _ HJ a k); [|lia|done|by apply Hsh].
    rewrite (translate_shares m a _ Hs). by rewrite (run_pages_unmapped m s count Hh Hrun) by lia.
  - assert (Hn : ∀ k, 0 ≤ k < i → ¬ shares_entry m a (page m (s + k))).
    { intros k Hk Hsk. apply Hs, Exists_exists. exists k. split; [apply elem_of_seqZ; lia|done]. }
    rewrite (fr_other _ _ _ _ HJ); [|done|intros k Hk; rewrite Hsh; by apply Hn].
    rewrite (fi_other _ _ _ _ _ HF); [by rewrite Hm1|done|]. intros k Hk. rewrite page_m1, Hm1. by apply Hn.
Qed.

Lemma gone_frames fs i mi mj g :
  filled m1 s fs i mi → 0 < i < count → freed mi s i mj → free_frame mj g → free_frame m g.
Proof.
  intros HF Hi HJ Hg.
  assert (Hm : free_frame m1 g → free_frame m g) by by rewrite Hm1.
  apply (fr_free _ _ _ _ HJ) in Hg as [Hg|(k & Hk & Hg)]; apply Hm; [by apply (fi_free _ _ _ _ _ HF)|].
  destruct (lookup_lt_is_Some_2 fs (Z.to_nat k)) as [f Hf]; [pose proof (fi_len _ _ _ _ _ HF); lia|].
  pose proof (fi_map _ _ _ _ _ HF k f ltac:(lia) Hf) as Ht.
  replace (page mi (s + k)) with (page m1 (s + k)) in Hg by (unfold page; by rewrite (fi_heap _ _ _ _ _ HF)).
  assert (f = g) as <- by congruence.
  destruct (fi_taken _ _ _ _ _ HF f) as [Hf' _]; [by eapply list_elem_of_lookup_2|done].
Qed.

Lemma undo_ok fs i mi :
  filled m1 s fs i mi → 0 < i < count → page m1 s ≠ 0 →
  ∃ m2, alloc_failed Kernel (page m1 s) count i mi = Ok m2 ∧ restored m m2.
Proof.
  intros HF Hi Hb. destruct (filled_free fs i mi HF Hi) as (mj & HL & HJ). destruct run_range as (Hs0 & _ & Hs1).
  assert (Hhp : heap_pool mi = ap) by (rewrite (fi_heap _ _ _ _ _ HF); by rewrite Hm1).
  assert (Hat : page m1 s = PagePool.page_at ap s) by by rewrite Hm1.
  assert (Hpg : page mi s = page m1 s) by (unfold page; by rewrite (fi_heap _ _ _ _ _ HF)).
  rewrite cap_m1 in Hs1. pose proof Hch as (Est & Ecap & _ & Etk). rewrite Hpg in HL.
  destruct (free_in_two ap s i count Hap) as (ap2 & ap3 & A2 & A3 & Hok3 & E3 & C3 & T3); try lia.
  { intros j Hj. rewrite Etk by lia. bits_cases; done || lia. }
  unfold alloc_failed, free_pages. destruct (Z.ltb_spec 0 i); [|lia]. destruct (Z.eqb_spec (page m1 s) 0); [done|].
  cbn [negb andb Assert]. rewrite res_bind_ok, HL, res_bind_ok. cbn [addr_pool]. rewrite res_bind_ok.
  change (MemInit.krnl_addr_pool (pools mj)) with (heap_pool mj). rewrite (fr_heap _ _ _ _ HJ), Hhp, Hat, A2.
  cbn [addr_pool res_bind mbind set_addr_pool set_pools pools MemInit.krnl_addr_pool]. rewrite A3.
  eexists. split; [reflexivity|]. match goal with |- restored _ ?x => set (m2 := x) end.
  assert (Htk : ∀ j, 0 ≤ j → PagePool.taken (heap_pool m2) j = PagePool.taken (heap_pool m) j).
  { intros j Hj. change (heap_pool m2) with ap3. rewrite T3, Etk by lia. destruct Hrun as [(_ & _ & Hfree) _].
    bits_cases; simpl; try done; try lia; symmetry; apply Hfree; lia. }
  assert (Htr : ∀ a, plain a → translate m2 a = translate m a) by (intros a; by apply (gone_translate fs i mi mj)).
  assert (Hfr : ∀ g, free_frame m2 g → free_frame m g) by (intros g; by apply (gone_frames fs i mi mj)).
  assert (Hcap : PagePool.capacity (heap_pool m2) = PagePool.capacity (heap_pool m)) by (change (heap_pool m2) with ap3; lia).
  assert (Hst : PagePool.start_addr_ (heap_pool m2) = PagePool.start_addr_ (heap_pool m)) by (change (heap_pool m2) with ap3; lia).
  pose proof (fr_region _ _ _ _ HJ) as (R1 & R2 & R3). pose proof (fi_region _ _ _ _ _ HF) as (Q1 & Q2 & Q3).
  split; try done.
  - apply (kheap_restored m m2 Hh); try done; [destruct (fr_wf _ _ _ _ HJ); by split|].
    intros d Hd. change (pde m2 d) with (pde mj d).
    rewrite (fr_pde _ _ _ _ HJ), (fi_pde _ _ _ _ _ HF) by done. by rewrite Hm1.
  - change (krnl_pool m2) with (krnl_pool mj). rewrite (fr_count _ _ _ _ HJ), (fi_count _ _ _ _ _ HF).
    replace (krnl_pool m1) with (krnl_pool m) by by rewrite Hm1. lia.
  - split; [|done]. rewrite Hm1 in Q1, Q2, Q3. change (krnl_pool m2) with (krnl_pool mj).
    split_and!; [by etrans; [exact R1|]|by etrans; [exact R2|]|].
    by etrans; [exact R3|].
Qed.
End alloc_result.

(** The outcomes of a request: no run of addresses; enough frames; some frames,
    but too few; none at all. *)
Lemma alloc_pages_cases m count :
  kheap m → 0 < count →
  let free := PagePool.free_count_ (krnl_pool m) in
  (alloc_pages Kernel count m = Ok (m, 0)
   ∧ ∀ s, ¬ Bitmap.free_run (PagePool.bitmap_ (heap_pool m)) s count) ∨
  ∃ s, PagePool.first_run (heap_pool m) count s ∧
    ((count ≤ free ∧ ∃ m' fs, alloc_pages Kernel count m = Ok (m', page m s)
        ∧ fresh_pages m m' count s fs ∧ kheap m')
     ∨ (0 < free < count ∧ ∃ m', alloc_pages Kernel count m = Ok (m', 0) ∧ restored m m')
     ∨ (free = 0 ∧ ∃ ap, alloc_pages Kernel count m = Ok (set_addr_pool Kernel ap m, 0)
        ∧ PagePool.changed (heap_pool m) ap s count true)).
Proof.
  intros Hh Hc free. unfold alloc_pages. cbn [addr_pool]. rewrite res_bind_ok. fold (heap_pool m).
  change (VrAddrPool.AllocPages count (heap_pool m)) with (PhyMemPagePool.AllocPages count (heap_pool m)).
  destruct (PhyMemPagePool.phy_AllocPages_ok (heap_pool m) count (kh_pool m Hh) Hc)
    as [[-> Hno]|(ap & s & -> & Hb0 & Hrun & Hs0 & Hs1 & Hap & Hch)]; rewrite res_bind_ok.
  { left. split; [|done]. destruct m as [r d [? ? ?] u]. done. }
  right. exists s. split; [done|]. cbn [set_addr_pool].
  destruct (Z.eqb_spec (PagePool.page_at (heap_pool m) s) 0) as [|_]; [done|].
  set (m1 := set_pools (MemInit.mkPools (krnl_pool m) (MemInit.usr_mem_pool (pools m)) ap) m).
  assert (Hm1 : m1 = set_addr_pool Kernel ap m) by done.
  pose proof (page_m1 m m1 ap s count Hch Hm1) as Hpg. pose proof (cap_m1 m m1 ap s count Hch Hm1) as Hcap.
  pose proof (wf_m1 m m1 ap Hh Hm1) as Hwf1.
  pose proof (run_range m m1 ap s count Hrun Hc Hch Hm1) as Hrr.
  fold (page m s). rewrite <- (Hpg s).
  assert (Hpl : ∀ i, 0 ≤ i < PagePool.capacity (heap_pool m1) → plain (page m1 i))
    by (intros i Hi; rewrite Hpg; apply (kh_plain m Hh); by rewrite <- Hcap).
  assert (Htb : ∀ i, 0 ≤ i < PagePool.capacity (heap_pool m1) →
    PageEntry.IsPresent (pde m1 (GetPageDirEntryIdx (page m1 i))) = true)
    by (intros i Hi; rewrite Hpg; apply (kh_tables m Hh); by rewrite <- Hcap).
  assert (Hpr : ∀ i j, 0 ≤ i < PagePool.capacity (heap_pool m1) → 0 ≤ j < PagePool.capacity (heap_pool m1) →
    i ≠ j → slot m1 (page m1 i) ≠ slot m1 (page m1 j))
    by (intros i j Hi Hj Hne; rewrite !Hpg; apply (kh_private m Hh); by rewrite <- ?Hcap).
  assert (Hnn : ∀ k, 0 ≤ k < count → translate m1 (page m1 (s + k)) = None)
    by (intros k Hk; rewrite Hpg; by apply (run_pages_unmapped m s count)).
  assert (Hb1 : page m1 s ≠ 0) by by rewrite Hpg.
  pose proof (PagePool.ok_free_count _ (wf_pool m (kh_wf m Hh))) as Hfree. fold free in Hfree.
  destruct (decide (count ≤ free)) as [Hen|Hen]; [left|right].
  - split; [done|]. destruct (alloc_loop_ok m1 s count) as (fs & mi & HL & HF); try done; [apply (kh_frames m Hh)|].
    rewrite HL, res_bind_ok.
    destruct (clear_pages_ok m1 s count Hwf1) with (fs := fs) (mi := mi)
      as (m2 & HC & Hwf2 & Hdir & Hpo & Hu & Hpd & Htr & Hz & Hw); try done.
    rewrite HC, res_bind_ok. exists m2, fs. split; [done|]. rewrite Hpg in Hb1.
    split; [|by apply (filled_kheap m m1 ap s count Hh Hrun Hc Hap Hch Hm1 fs count mi)].
    by apply (filled_fresh m m1 ap s count Hrun Hch Hm1 fs mi m2).
  - destruct (decide (free = 0)) as [H0|H0]; [right|left].
    + split; [done|]. rewrite (alloc_loop_none m1 s count Hwf1) by first [exact H0|apply (kh_frames m Hh)|done].
      rewrite res_bind_ok. by exists ap.
    + split; [lia|]. destruct (alloc_loop_short m1 s count) with (Q := restored m) as (m2 & HL & Hr); try done;
        [apply (kh_frames m Hh)|change (free < count); lia| |].
      { intros fs mi HF. change (PagePool.free_count_ (krnl_pool m1)) with free in *.
        apply (undo_ok m m1 ap s count Hh Hrun Hc Hap Hch Hm1 fs free mi HF); [lia|done]. }
      rewrite HL, res_bind_ok. by exists m2.
Qed.

Lemma AllocPages_ok m count :
  kheap m → 0 < count ≤ PagePool.free_count_ (krnl_pool m) →
  (alloc_pages Kernel count m = Ok (m, 0)
   ∧ ∀ s, ¬ Bitmap.free_run (PagePool.bitmap_ (heap_pool m)) s count) ∨
  ∃ m' s fs, alloc_pages Kernel count m = Ok (m', page m s) ∧ fresh_pages m m' count s fs ∧ kheap m'.
Proof.
  intros Hh [Hc Hen]. destruct (alloc_pages_cases m count Hh Hc)
    as [|(s & _ & [(_ & m' & fs & H)|[(? & _)|(? & _)]])]; [by left|right; eauto|lia|lia].
Qed.

(** C31. [AllocPages] of the kernel's pages, in all cases. When there is no run
    of [count] free addresses it returns null and changes nothing. Otherwise it
    takes the first such run, and what happens depends on the kernel's free
    frames. With enough of them it returns the run, mapped at frames that
    nothing else uses, all zero, and keeps every other translation and the
    invariant of the heap. With some, but too few, it returns null and gives
    everything back: the same addresses and as many frames are free as before
    and every address translates as before. With none it returns null and the
    addresses of the run stay taken, which is the leak of the failure branch
    (see [MemMap.Pages.alloc_failure_leaks]). *)
Theorem AllocPages_fresh m count :
  kheap m → 0 < count →
  let free := PagePool.free_count_ (krnl_pool m) in
  (AllocPages Kernel count m = Ok (m, 0)
   ∧ ∀ s, ¬ Bitmap.free_run (PagePool.bitmap_ (heap_pool m)) s count) ∨
  ∃ s, PagePool.first_run (heap_pool m) count s ∧
    ((count ≤ free ∧ ∃ m' fs, AllocPages Kernel count m = Ok (m', page m s)
        ∧ fresh_pages m m' count s fs ∧ kheap m')
     ∨ (0 < free < count ∧ ∃ m', AllocPages Kernel count m = Ok (m', 0) ∧ restored m m')
     ∨ (free = 0 ∧ ∃ ap, AllocPages Kernel count m = Ok (set_addr_pool Kernel ap m, 0)
        ∧ PagePool.changed (heap_pool m) ap s count true)).
Proof.
  intros Hh Hc. unfold AllocPages. rewrite Assert_true, res_bind_ok by lia. by apply alloc_pages_cases.
Qed.

(** ** Ownership

    What [AllocPages] and [FreePages] keep together: every allocated page is
    mapped at a frame the kernel handed out, which no other entry refers to. *)
Record kpages (m : t) : Prop := {
  ko_heap : kheap m;
  ko_source : PagePool.page_at (krnl_pool m) (PagePool.capacity (krnl_pool m))
    ≤ PagePool.start_addr_ (MemInit.usr_mem_pool (pools m));
  ko_mapped : ∀ i, 0 ≤ i < PagePool.capacity (heap_pool m) → PagePool.taken (heap_pool m) i = true →
    ∃ f, translate m (page m i) = Some f ∧ taken_frame m f;
  ko_private : ∀ i f a x, 0 ≤ i < PagePool.capacity (heap_pool m) →
    PagePool.taken (heap_pool m) i = true → translate m (page m i) = Some f →
    plain a → translate m a = Some x → x - GetOffset a = f → shares_entry m a (page m i)
}.

(** The frames of the pages [s, s + count) hold no table: these pages can be
    given back. A page of the kernel that is the page directory of a process
    is at the frame of a table. *)
Definition data_pages (m : t) (s count : Z) : Prop :=
  ∀ i f, s ≤ i < s + count → PagePool.taken (heap_pool m) i = true →
    translate m (page m i) = Some f → data_frame m f.

(** The kernel's own space, where no page of the heap is a table. *)
Record kowned (m : t) : Prop := {
  ko_pages : kpages m;
  ko_data : data_pages m 0 (PagePool.capacity (heap_pool m))
}.

(** New pages are owned. *)
Lemma fresh_kpages m m' count s fs :
  kpages m → 0 < count → kheap m' → fresh_pages m m' count s fs → kpages m'.
Proof.
  intros [Hh Hsrc Hmap Hpriv] Hc Hh' [[_ Hrun] Hch Hlen (Hnd & Hff & Htf) (Hreg & Hfree & _) Hpde Hdir Hfm Ho _].
  pose proof Hch as (Est & Ecap & _ & Etk). pose proof Hreg as (R1 & R2 & R3).
  destruct Hrun as [(Hs0 & Hs1 & _) _]. fold (PagePool.capacity (heap_pool m)) in Hs1.
  assert (Hpg : ∀ i, page m' i = page m i) by (intros; unfold page, PagePool.page_at; by rewrite Est).
  assert (Hsh : ∀ a b, shares_entry m' a b ↔ shares_entry m a b).
  { intros a b. unfold shares_entry, slot. by rewrite !Hpde by apply GetPageDirEntryIdx_range. }
  assert (Hnew : ∀ k, 0 ≤ k < count → ∃ f, fs !! Z.to_nat k = Some f
    ∧ translate m' (page m (s + k)) = Some f ∧ free_frame m f ∧ taken_frame m' f).
  { intros k Hk. destruct (lookup_lt_is_Some_2 fs (Z.to_nat k)) as [f Hf]; [lia|].
    exists f. rewrite Forall_forall in Hff, Htf. pose proof (list_elem_of_lookup_2 _ _ _ Hf).
    split_and!; auto. by apply (Hfm k f); [lia|]. }
  assert (Hoff : ∀ i, 0 ≤ i < PagePool.capacity (heap_pool m) → GetOffset (page m i) = 0)
    by (intros; by apply page_offset_0).
  (* every translation of the new state comes from a new page or from the old state *)
  assert (Hcases : ∀ a x, plain a → translate m' a = Some x →
    (∃ k f, 0 ≤ k < count ∧ fs !! Z.to_nat k = Some f ∧ shares_entry m a (page m (s + k))
       ∧ x - GetOffset a = f) ∨ translate m a = Some x).
  { intros a x Ha Hx.
    destruct (decide (Exists (λ k, shares_entry m a (page m (s + k))) (seqZ 0 count))) as [E|E].
    - left. apply Exists_exists in E as (k & Hk%elem_of_seqZ & E).
      destruct (Hnew k) as (f & Hf & Ht & _); [lia|]. exists k, f. split_and!; try done; try lia.
      rewrite (translate_shares m' a (page m (s + k))), Ht, Hoff in Hx by (by apply Hsh) || lia.
      injection Hx as <-. lia.
    - right. rewrite <- Hx. symmetry. apply Ho; [done|]. intros k Hk Hs. apply E.
      apply Exists_exists. exists k. split; [apply elem_of_seqZ; lia|done]. }
  assert (Hold : ∀ i, 0 ≤ i < PagePool.capacity (heap_pool m) → ¬ (s ≤ i < s + count) →
    translate m' (page m i) = translate m (page m i)).
  { intros i Hi Hn. apply Ho; [by apply (kh_plain m Hh)|]. intros k Hk (_ & _ & E). revert E.
    apply (kh_private m Hh); lia. }
  split; [done|..]; rewrite ?Ecap.
  - unfold PagePool.page_at in *. by rewrite R1, R2, R3.
  - intros i Hi Ht. rewrite Hpg. rewrite Etk in Ht by lia.
    destruct (decide (s ≤ i < s + count)) as [Hin|Hout].
    + destruct (Hnew (i - s)) as (f & _ & Htr & Hfr & Htk); [lia|].
      replace (s + (i - s)) with i in Htr by lia. by exists f.
    + destruct (Hmap i Hi) as (f & Htr & Htk).
      { revert Ht. destruct (Z.leb_spec s i), (Z.ltb_spec i (s + count)); simpl; auto; lia. }
      exists f. rewrite Hold by done. split; [done|].
      destruct (frame_cases m m' f Hreg) as [Hc'|]; [by right| |done].
      apply Hfree in Hc' as [Hc' _]. by apply taken_not_free in Htk.
  - intros i f a x Hi Ht Htr Ha Hx Hxf. rewrite Hpg in *. apply Hsh. rewrite Etk in Ht by lia.
    destruct (decide (s ≤ i < s + count)) as [Hin|Hout].
    + destruct (Hnew (i - s)) as (g & Hg & Htr' & Hfr & _); [lia|].
      replace (s + (i - s)) with i in Htr' by lia. assert (g = f) as -> by congruence.
      destruct (Hcases a x Ha Hx) as [(k & g & Hk & Hgk & Hs & E)|Hxm].
      * assert (g = f) as -> by congruence.
        assert (Z.to_nat k = Z.to_nat (i - s)) by by eapply NoDup_lookup.
        by replace i with (s + k) by lia.
      * exfalso. apply (kh_frames m Hh a x Ha Hxm). by rewrite Hxf.
    + rewrite Hold in Htr by done.
      assert (Htm : PagePool.taken (heap_pool m) i = true).
      { revert Ht. destruct (Z.leb_spec s i), (Z.ltb_spec i (s + count)); simpl; auto; lia. }
      destruct (Hcases a x Ha Hx) as [(k & g & Hk & Hgk & Hs & E)|Hxm]; [|by apply (Hpriv i f a x)].
      exfalso. destruct (Hnew k Hk) as (g' & Hg' & _ & Hfr & _).
      assert (g' = f) as -> by congruence.
      apply (kh_frames m Hh (page m i) f); [by apply (kh_plain m Hh)|done|].
      rewrite Hoff by done. by replace (f - 0) with f by lia.
Qed.

(** New pages hold no tables. *)
Lemma fresh_data m m' count s fs :
  kheap m → 0 < count → fresh_pages m m' count s fs → data_pages m' s count
  ∧ ∀ i n, 0 ≤ i → i + n ≤ PagePool.capacity (heap_pool m) → data_pages m i n → data_pages m' i n.
Proof.
  intros Hh Hc [[_ [(Hs0 & Hs1 & _) _]] (Est & Ecap & _ & Etk) Hlen (_ & Hff & _) _ Hpde Hdir Hfm Ho _].
  fold (PagePool.capacity (heap_pool m)) in Hs1.
  assert (Hpg : ∀ i, page m' i = page m i) by (intros; unfold page, PagePool.page_at; by rewrite Est).
  assert (Hdata : ∀ f, data_frame m f → data_frame m' f).
  { intros f (D1 & D2 & D3). split_and!; [done|by rewrite Hdir|]. intros i Hi.
    rewrite Hpde by lia. by apply D3. }
  assert (Hnew : data_pages m' s count).
  { intros i f Hi _ Hf. rewrite Hpg in Hf. destruct (lookup_lt_is_Some_2 fs (Z.to_nat (i - s))) as [g Hg]; [lia|].
    destruct (Hfm (i - s) g) as [Hm _]; [lia|done|]. replace (s + (i - s)) with i in Hm by lia.
    assert (g = f) as -> by congruence. rewrite Forall_forall in Hff.
    apply Hdata, free_data_frame; [apply (kh_wf m Hh)|]. by eapply Hff, list_elem_of_lookup_2. }
  split; [done|]. intros i n Hi Hn Hd j f Hj Ht Hf. destruct (decide (s ≤ j < s + count)) as [Hin|Hout].
  { by apply (Hnew j f). }
  rewrite Etk in Ht by lia. rewrite Hpg, Ho in Hf.
  - apply Hdata, (Hd j f Hj); [|done]. revert Ht. destruct (Z.leb_spec s j), (Z.ltb_spec j (s + count)); simpl; auto; lia.
  - apply (kh_plain m Hh). lia.
  - intros k Hk (_ & _ & E). revert E. apply (kh_private m Hh); lia.
Qed.

(** ** [FreePages] *)

(** What [FreePages] promises. *)
Record released (m m' : t) (count s : Z) : Prop := {
  rl_pool : PagePool.changed (heap_pool m) (heap_pool m') s count false;
  rl_count : PagePool.free_count_ (krnl_pool m') = PagePool.free_count_ (krnl_pool m) + count;
  rl_gone : ∀ a k, 0 ≤ k < count → plain a → shares_entry m a (page m (s + k)) → translate m' a = None;
  rl_other : ∀ a, plain a → (∀ k, 0 ≤ k < count → ¬ shares_entry m a (page m (s + k))) →
    translate m' a = translate m a;
  rl_region : page_dir m' = page_dir m ∧ usr_addr_pool m' = usr_addr_pool m ∧ same_frames m m'
    ∧ ∀ i, 0 ≤ i < 1024 → pde m' i = pde m i;
  rl_free : ∀ g, free_frame m' g →
    free_frame m g ∨ ∃ k, 0 ≤ k < count ∧ translate m (page m (s + k)) = Some g;
  rl_words : ∀ f j, f mod 4096 = 0 → 0 ≤ j < 1024 → ¬ heap_table m f →
    word m' (f + 4 * j) = word m (f + 4 * j)
}.

Lemma taken_split ap (m : t) s count i :
  (∀ j, 0 ≤ j → PagePool.taken ap j =
     if (s <=? j) && (j <? s + count) then false else PagePool.taken (heap_pool m) j) →
  0 ≤ i → PagePool.taken ap i = true →
  PagePool.taken (heap_pool m) i = true ∧ ¬ (s ≤ i < s + count).
Proof.
  intros H Hi Ht. rewrite H in Ht by done.
  destruct (Z.leb_spec s i), (Z.ltb_spec i (s + count)); simpl in Ht; split; done || lia.
Qed.

(** The state after the last page of [FreePages] is owned again. *)
Lemma freed_kpages m s count mi ap :
  kpages m → 0 ≤ s ∧ 0 < count ∧ s + count ≤ PagePool.capacity (heap_pool m) →
  freed m s count mi → PagePool.ok ap → PagePool.changed (heap_pool m) ap s count false →
  kpages (set_addr_pool Kernel ap mi).
Proof.
  intros [Hh Hsrc Hmap Hpriv] Hrun [F1 F2 F3 F4 (R1 & R2 & R3) F5 F6 F7 F8 F9 F10] Hap (Est & Ecap & _ & Etk).
  set (m' := set_addr_pool Kernel ap mi).
  assert (Hpg : ∀ i, page m' i = page m i).
  { intros i. change (page m' i) with (PagePool.page_at ap i). unfold page, PagePool.page_at. by rewrite Est. }
  assert (Hpd : ∀ a, pde m' (GetPageDirEntryIdx a) = pde m (GetPageDirEntryIdx a)).
  { intros a. apply F5, GetPageDirEntryIdx_range. }
  assert (Hsl : ∀ a, slot m' a = slot m a) by (intros a; unfold slot; by rewrite Hpd).
  assert (Hsh : ∀ a b, shares_entry m' a b ↔ shares_entry m a b).
  { intros a b. unfold shares_entry. by rewrite !Hpd, !Hsl. }
  assert (Htr : ∀ a x, plain a → translate m' a = Some x →
    translate m a = Some x ∧ ∀ k, 0 ≤ k < count → ¬ shares_entry m a (page m (s + k))).
  { intros a x Ha Hx. change (translate m' a) with (translate mi a) in Hx.
    assert (Hn : ∀ k, 0 ≤ k < count → ¬ shares_entry m a (page m (s + k))).
    { intros k Hk Hs. rewrite (F8 a k) in Hx by done. done. }
    split; [|done]. by rewrite <- F9. }
  assert (Hold : ∀ i, 0 ≤ i < PagePool.capacity (heap_pool m) → ¬ (s ≤ i < s + count) →
    translate m' (page m i) = translate m (page m i)).
  { intros i Hi Hn. change (translate m') with (translate mi).
    apply F9; [by apply (kh_plain m Hh)|]. intros k Hk (_ & _ & E). revert E.
    apply (kh_private m Hh); lia. }
  assert (Hfree : ∀ a x, plain a → translate m' a = Some x → ¬ free_frame m' (x - GetOffset a)).
  { intros a x Ha Hx Hf. destruct (Htr a x Ha Hx) as [Hxm Hn].
    change (free_frame mi (x - GetOffset a)) in Hf. apply F7 in Hf as [Hf|(k & Hk & Hf)].
    - by apply (kh_frames m Hh a x).
    - apply (Hn k Hk). apply (Hpriv (s + k) (x - GetOffset a) a x); try done; [lia|].
      destruct (PagePool.taken (heap_pool m) (s + k)) eqn:E; [done|].
      rewrite (kh_unmapped m Hh) in Hf by (done || lia). done. }
  split; [split|..]; try done; change (heap_pool m') with ap in *; rewrite ?Ecap.
  - by destruct F1.
  - intros i Hi. rewrite Hpg. by apply (kh_plain m Hh).
  - intros i Hi. rewrite Hpg, Hpd. by apply (kh_tables m Hh).
  - intros i j Hi Hj Hne. rewrite !Hpg, !Hsl. by apply (kh_private m Hh).
  - intros i Hi Ht. rewrite Hpg. destruct (decide (s ≤ i < s + count)) as [Hin|Hout].
    + apply (F8 _ (i - s)); [lia|by apply (kh_plain m Hh)|]. replace (s + (i - s)) with i by lia.
      split_and!; try done; by apply (kh_tables m Hh).
    + rewrite Hold by done. apply (kh_unmapped m Hh); [done|]. rewrite Etk in Ht by lia.
      revert Ht. destruct (Z.leb_spec s i), (Z.ltb_spec i (s + count)); simpl; auto; lia.
  - change (krnl_pool m') with (krnl_pool mi). change (MemInit.usr_mem_pool (pools m'))
      with (MemInit.usr_mem_pool (pools mi)). unfold PagePool.page_at in *. by rewrite R1, R2, R3.
  - intros i Hi Ht. destruct (taken_split _ _ _ _ _ Etk (proj1 Hi) Ht) as [Htm Hout].
    destruct (Hmap i Hi Htm) as (f & Hf & Htk). rewrite Hpg. exists f.
    rewrite Hold by done. split; [done|].
    destruct (frame_cases m m' f) as [Hc|]; [by split_and!|by right| |done]. exfalso.
    apply (Hfree (page m i) f); [by apply (kh_plain m Hh)|by rewrite Hold|].
    rewrite page_offset_0 by done. by replace (f - 0) with f by lia.
  - intros i f a x Hi Ht Hf Ha Hx E. destruct (taken_split _ _ _ _ _ Etk (proj1 Hi) Ht) as [Htm Hout].
    rewrite Hpg in *. rewrite Hold in Hf by done. apply Hsh. destruct (Htr a x Ha Hx) as [Hxm _].
    by apply (Hpriv i f a x).
Qed.

(** The pages that are left hold as few tables as before. *)
Lemma freed_data m s count mi ap i n :
  kpages m → 0 ≤ s ∧ 0 < count ∧ s + count ≤ PagePool.capacity (heap_pool m) →
  freed m s count mi → PagePool.changed (heap_pool m) ap s count false →
  0 ≤ i → i + n ≤ PagePool.capacity (heap_pool m) → data_pages m i n →
  data_pages (set_addr_pool Kernel ap mi) i n.
Proof.
  intros [Hh _ _ _] Hrun HF (Est & _ & _ & Etk) Hi Hn Hd j f Hj Ht Hf.
  change (heap_pool (set_addr_pool Kernel ap mi)) with ap in Ht.
  assert (Hj0 : 0 ≤ j) by lia. destruct (taken_split _ _ _ _ _ Etk Hj0 Ht) as [Htm Hout].
  assert (E : page (set_addr_pool Kernel ap mi) j = page m j).
  { change (page (set_addr_pool Kernel ap mi) j) with (PagePool.page_at ap j). unfold page, PagePool.page_at. by rewrite Est. }
  rewrite E in Hf. change (translate (set_addr_pool Kernel ap mi)) with (translate mi) in Hf.
  rewrite (fr_other _ _ _ _ HF) in Hf.
  - destruct (Hd j f Hj Htm Hf) as (D1 & D2 & D3). split; [done|].
    split; [change (page_dir (set_addr_pool Kernel ap mi)) with (page_dir mi); by rewrite (fr_dir _ _ _ _ HF)|].
    intros c Hc. change (pde (set_addr_pool Kernel ap mi) c) with (pde mi c). rewrite (fr_pde _ _ _ _ HF) by lia. by apply D3.
  - apply (kh_plain m Hh). lia.
  - intros c Hc (_ & _ & E'). revert E'. apply (kh_private m Hh); lia.
Qed.

Lemma free_pages_ok m s count :
  kpages m → data_pages m s count → 0 ≤ s → 0 < count → s + count ≤ PagePool.capacity (heap_pool m) →
  (∀ i, s ≤ i < s + count → PagePool.taken (heap_pool m) i = true) →
  ∃ m', free_pages Kernel (page m s) count m = Ok m' ∧ kpages m' ∧ released m m' count s
    ∧ ∀ i n, 0 ≤ i → i + n ≤ PagePool.capacity (heap_pool m) → data_pages m i n → data_pages m' i n.
Proof.
  intros Ho Hdp Hs Hc Hle Ht. pose proof (ko_heap m Ho) as Hh.
  destruct (page_fields m (kh_pool m Hh) s) as (Hps & _ & _); [lia|].
  destruct (free_loop_ok m s count Hh) as (mi & HL & HF); [lia| | |].
  { intros i Hi. destruct (ko_mapped m Ho i) as (f & Hf & Htk); [lia|by apply Ht|]. exists f.
    split; [done|]. split; [done|]. apply (Hdp i); [done|by apply Ht|done]. }
  { intros i f a x Hi. apply (ko_private m Ho); [lia|by apply Ht]. }
  unfold free_pages. destruct (Z.eqb_spec (page m s) 0); [lia|]. destruct (Z.ltb_spec 0 count); [|lia].
  simpl. rewrite HL. simpl. fold (heap_pool mi). rewrite (fr_heap _ _ _ _ HF).
  change (VrAddrPool.FreePages (page m s) count (heap_pool m))
    with (PhyMemPagePool.FreePages (PagePool.page_at (heap_pool m) s) count (heap_pool m)).
  destruct (PhyMemPagePool.FreePages_ok (heap_pool m) s count (kh_pool m Hh)) as (ap & -> & Hap & Hch);
    try done. simpl.
  change (set_pools _ mi) with (set_addr_pool Kernel ap mi). eexists. split; [done|].
  split; [by apply (freed_kpages m s count)|].
  split; [|intros i' n'; apply (freed_data m s count mi ap i' n' Ho); done || lia].
  destruct HF as [F1 F2 F3 F4 FR F5 F6 F7 F8 F9 F10]. split; try done.
Qed.

(** C32. [FreePages] undoes [AllocPages]: pages just allocated on the kernel's
    heap are recognised as the kernel's and given back; afterwards every
    address translates as before the allocation, the same pages and as many
    frames are free, and the heap is as well formed as before. *)
Theorem alloc_free_pages m count m1 s fs :
  kpages m → 0 < count ≤ PagePool.free_count_ (krnl_pool m) →
  AllocPages Kernel count m = Ok (m1, page m s) → fresh_pages m m1 count s fs → kheap m1 →
  ∃ m2, FreePages (page m s) count m1 = Ok m2 ∧ kpages m1 ∧ kpages m2
    ∧ (∀ a, plain a → translate m2 a = translate m a)
    ∧ (∀ i, 0 ≤ i → PagePool.taken (heap_pool m2) i = PagePool.taken (heap_pool m) i)
    ∧ PagePool.free_count_ (krnl_pool m2) = PagePool.free_count_ (krnl_pool m).
Proof.
  intros Ho [Hc _] _ Hfp Hh1. pose proof (fresh_kpages m m1 count s fs Ho Hc Hh1 Hfp) as Ho1.
  pose proof (ko_heap m Ho) as Hh. destruct (fresh_data m m1 count s fs Hh Hc Hfp) as [Hdp _].
  destruct Hfp as [[Hb [(Hs0 & Hs1 & Hfr) _]] (Est & Ecap & _ & Etk) Hlen _ (_ & _ & Hcnt) Hpde _ Hmap Hoth _].
  fold (PagePool.capacity (heap_pool m)) in Hs1.
  assert (Hpg : ∀ i, page m1 i = page m i) by (intros; unfold page, PagePool.page_at; by rewrite Est).
  assert (Hsh : ∀ a b, shares_entry m1 a b ↔ shares_entry m a b).
  { intros a b. unfold shares_entry, slot. by rewrite !Hpde by apply GetPageDirEntryIdx_range. }
  destruct (free_pages_ok m1 s count Ho1 Hdp) as (m2 & HF & Ho2 & [(Est2 & Ecap2 & _ & Etk2) Hcnt2 Hg Ho' _ _ _] & _);
    try done; [lia| |].
  { intros i Hi. rewrite Etk by lia. destruct (Z.leb_spec s i), (Z.ltb_spec i (s + count)); simpl; lia || done. }
  rewrite Hpg in HF. exists m2. split; [|split_and!; try done].
  - destruct (ko_mapped m1 Ho1 s) as (f & Hf & (j & Hj & _ & Hjf)); [lia| |].
    { rewrite Etk by lia. destruct (Z.leb_spec s s), (Z.ltb_spec s (s + count)); simpl; lia || done. }
    rewrite Hpg in Hf. unfold FreePages.
    destruct (Z.eqb_spec (page m s) 0); [done|]. destruct (Z.ltb_spec 0 count); [|lia]. simpl.
    rewrite (proj1 (GetPhyAddr_ok m1 _ _ (kh_wf m1 Hh1) Hf)). simpl.
    unfold MemInit.GetSrcMemPool, MemInit.IsKrnlMem. pose proof (ko_source m1 Ho1).
    destruct (Z.ltb_spec f (PagePool.start_addr_ (MemInit.usr_mem_pool (pools m1)))); [done|].
    unfold PagePool.page_at in *. lia.
  - intros a Ha.
    destruct (decide (Exists (λ k, shares_entry m a (page m (s + k))) (seqZ 0 count))) as [E|E].
    + apply Exists_exists in E as (k & Hk%elem_of_seqZ & E).
      rewrite (Hg a k); [|lia|done|by apply Hsh; rewrite Hpg].
      rewrite (translate_shares m a _ E), (kh_unmapped m Hh); [done|lia|apply Hfr; lia].
    + assert (Hn : ∀ k, 0 ≤ k < count → ¬ shares_entry m a (page m (s + k))).
      { intros k Hk Hs. apply E, Exists_exists. exists k. split; [apply elem_of_seqZ; lia|done]. }
      rewrite Ho'; [by apply Hoth|done|]. intros k Hk. rewrite Hpg, Hsh. by apply Hn.
  - intros i Hi. rewrite Etk2, Etk by done.
    destruct (Z.leb_spec s i), (Z.ltb_spec i (s + count)); simpl; try done.
    symmetry. apply Hfr. lia.
  - lia.
Qed.

Lemma demo_page i :
  0 ≤ i < 16 → GetPageDirEntryIdx (page demo i) = 768 ∧ GetPageTabEntryIdx (page demo i) = 256 + i.
Proof.
  intros Hi. change (page demo i) with (0xC0100000 + i * 4096).
  rewrite GetPageDirEntryIdx_eq, GetPageTabEntryIdx_eq by lia. div_lia.
Qed.

Lemma demo_translate a : plain a → translate demo a = None.
Proof.
  intros Ha. apply no_translation. pose proof (GetPageDirEntryIdx_range a).
  pose proof (GetPageTabEntryIdx_range a). unfold slot.
  change (pde demo (GetPageDirEntryIdx a)) with (word demo (0x100000 + 4 * GetPageDirEntryIdx a)).
  unfold plain in Ha. rewrite (demo_word (0x100000 + _)).
  repeat case_match; to_prop; try lia; try by left.
  all: right; change (PageEntry.GetAddress 0x101007) with 0x101000; rewrite demo_word.
  all: repeat case_match; to_prop; lia || done.
Qed.

Lemma demo_kheap : kheap demo.
Proof.
  assert (Hc : PagePool.capacity (heap_pool demo) = 16) by done.
  assert (Hp : ∀ i, 0 ≤ i < 16 → pde demo (GetPageDirEntryIdx (page demo i)) = 0x101007).
  { intros i Hi. destruct (demo_page i Hi) as [-> _]. done. }
  split; rewrite ?Hc.
  - apply demo_wf.
  - split; [split; [eexists; split_and!; [done|done|]|done|vm_compute; done]|done|vm_compute; done|done].
    repeat constructor; done.
  - intros i Hi. unfold plain. by destruct (demo_page i Hi) as [-> _].
  - intros i Hi. by rewrite Hp.
  - intros i j Hi Hj Hne. unfold slot. rewrite !Hp by done.
    destruct (demo_page i Hi) as [_ ->], (demo_page j Hj) as [_ ->]. lia.
  - intros i Hi _. apply demo_translate. unfold plain. by destruct (demo_page i Hi) as [-> _].
  - intros a x Ha Hx. by rewrite demo_translate in Hx.
Qed.

Lemma AllocPages_fresh_witness :
  kheap demo ∧
  match AllocPages Kernel 3 demo with
  | Ok (m, a) => (a, translate m 0xC0101004, translate m 0xC0103000) | _ => (0, None, None)
  end = (0xC0100000, Some 0x204004, None) ∧
  let free := PagePool.free_count_ (krnl_pool demo) in
  ((AllocPages Kernel 3 demo = Ok (demo, 0)
    ∧ ∀ s, ¬ Bitmap.free_run (PagePool.bitmap_ (heap_pool demo)) s 3) ∨
   ∃ s, PagePool.first_run (heap_pool demo) 3 s ∧
     ((3 ≤ free ∧ ∃ m' fs, AllocPages Kernel 3 demo = Ok (m', page demo s)
         ∧ fresh_pages demo m' 3 s fs ∧ kheap m')
      ∨ (0 < free < 3 ∧ ∃ m', AllocPages Kernel 3 demo = Ok (m', 0) ∧ restored demo m')
      ∨ (free = 0 ∧ ∃ ap, AllocPages Kernel 3 demo = Ok (set_addr_pool Kernel ap demo, 0)
         ∧ PagePool.changed (heap_pool demo) ap s 3 true))).
Proof.
  split; [exact demo_kheap|]. split; [vm_compute; reflexivity|].
  apply (AllocPages_fresh demo 3 demo_kheap). vm_compute. reflexivity.
Defined.
Lemma demo_all_free i : 0 ≤ i < 16 → PagePool.taken (heap_pool demo) i = false.
Proof.
  intros Hi. assert (Hall : forallb (λ i, negb (PagePool.taken (heap_pool demo) i)) (seqZ 0 16) = true)
    by (vm_compute; reflexivity).
  rewrite forallb_forall in Hall. by apply negb_true_iff, Hall, list_elem_of_In, elem_of_seqZ.
Qed.

Lemma demo_kpages : kpages demo.
Proof.
  split.
  - apply demo_kheap.
  - vm_compute. discriminate.
  - intros i Hi Ht. by rewrite demo_all_free in Ht.
  - intros i f a x Hi Ht Hf Ha Hx. by rewrite demo_translate in Hx.
Qed.

Lemma demo_kowned : kowned demo.
Proof. split; [exact demo_kpages|]. intros i f Hi Ht. rewrite demo_all_free in Ht; [done|exact Hi]. Qed.

Lemma alloc_free_pages_witness :
  kpages demo ∧
  ∃ m1 s m2, AllocPages Kernel 3 demo = Ok (m1, page demo s)
    ∧ FreePages (page demo s) 3 m1 = Ok m2 ∧ (∀ a, plain a → translate m2 a = translate demo a).
Proof.
  split; [exact demo_kpages|].
  assert (Hc : 0 < 3 ≤ PagePool.free_count_ (krnl_pool demo)) by (vm_compute; split; congruence).
  destruct (AllocPages_ok demo 3 demo_kheap Hc) as [[_ Hno]|(m1 & s & fs & HA & Hfp & Hh1)].
  - exfalso. apply (Hno 0). split; [lia|]. split; [vm_compute; congruence|].
    intros i Hi. assert (i = 0 ∨ i = 1 ∨ i = 2) as [->|[->| ->]] by lia; reflexivity.
  - destruct (alloc_free_pages demo 3 m1 s fs demo_kpages Hc HA Hfp Hh1) as (m2 & HF & _ & _ & Ht & _).
    exists m1, s, m2. auto.
Defined.
End KernelPages.
