(* ===== verification/MemSpace.v ===== *)
(** * Address spaces side by side

    The page directories of several processes live in one memory. [Space] says
    which frames belong to which of them by an owner for every frame, and what
    the mapping of pages in one space leaves alone in the others: the frames of
    other owners keep their words, so the other spaces translate as before. *)
From S2P Require Import Prelude UtilBit UtilBitmap MemPage MemPool MemMap MemPages.
Import Page VrAddr Machine Mapping Pages KernelPages.

Module Space.

(** The memory under the page directory [d]. *)
Definition space (d : Z) (m : t) : t := mk (ram m) d (pools m) (usr_addr_pool m).

Definition usr_pool (m : t) : PagePool.t := MemInit.usr_mem_pool (pools m).
Definition is_free (m : t) (f : Z) : Prop := free_in (krnl_pool m) f ∨ free_in (usr_pool m) f.

(** Who a frame belongs to: nobody; the page tables of the kernel, which all
    spaces share; the directory [d] and its tables for user memory; a page of
    the user memory of [d]; or something else. *)
Inductive owner := Free | KrnlTab | Tab (d : Z) | Usr (d : Z) | Other.

#[export] Instance owner_eq_dec : EqDecision owner.
Proof. solve_decision. Defined.

Definition give (f : Z) (o : owner) (own : Z → owner) (g : Z) : owner := if g =? f then o else own g.

Lemma give_eq f o own : give f o own f = o.
Proof. unfold give. by rewrite Z.eqb_refl. Qed.
Lemma give_ne f o own g : g ≠ f → give f o own g = own g.
Proof. intros. unfold give. by destruct (Z.eqb_spec g f). Qed.

(** A pool that gave frames away. *)
Definition pool_within (p p' : PagePool.t) : Prop :=
  PagePool.start_addr_ p' = PagePool.start_addr_ p ∧ PagePool.capacity p' = PagePool.capacity p
  ∧ ∀ g, free_in p' g → free_in p g.

Lemma pool_within_trans p p1 p2 : pool_within p p1 → pool_within p1 p2 → pool_within p p2.
Proof. intros (E1 & E2 & H) (E3 & E4 & H'). split_and!; [congruence|congruence|auto]. Qed.

(** The free frames of both pools have no owner. *)
Record frames_ok (own : Z → owner) (m : t) : Prop := {
  fo_words : ∀ a, in_u 32 (word m a);
  fo_krnl : PagePool.ok (krnl_pool m);
  fo_usr : PagePool.ok (usr_pool m);
  fo_regions : PagePool.page_at (krnl_pool m) (PagePool.capacity (krnl_pool m))
    ≤ PagePool.start_addr_ (usr_pool m);
  fo_free : ∀ f, is_free m f → own f = Free
}.

(** The directory [d] refers to itself, to tables of its own for the user's
    part, to those of the kernel for the rest. *)
Record space_ok (own : Z → owner) (d : Z) (m : t) : Prop := {
  so_dir : 0 ≤ d < 2 ^ 32 ∧ d mod 4096 = 0 ∧ own d = Tab d;
  so_self : PageEntry.IsPresent (pde (space d m) 1023) = true
    ∧ PageEntry.GetAddress (pde (space d m) 1023) = d;
  so_user : ∀ k, 0 ≤ k < 768 → PageEntry.IsPresent (pde (space d m) k) = true →
    own (PageEntry.GetAddress (pde (space d m) k)) = Tab d ∧ PageEntry.GetAddress (pde (space d m) k) ≠ d;
  so_private : ∀ k k', 0 ≤ k < 768 → 0 ≤ k' < 768 → PageEntry.IsPresent (pde (space d m) k) = true →
    PageEntry.IsPresent (pde (space d m) k') = true →
    PageEntry.GetAddress (pde (space d m) k) = PageEntry.GetAddress (pde (space d m) k') → k = k';
  so_krnl : ∀ k, 768 ≤ k < 1023 → PageEntry.IsPresent (pde (space d m) k) = true →
    own (PageEntry.GetAddress (pde (space d m) k)) = KrnlTab
}.

(** The frames whose owner satisfies [P] keep their words. *)
Definition agree (own : Z → owner) (P : owner → Prop) (m m' : t) : Prop :=
  ∀ f j, f mod 4096 = 0 → 0 ≤ j < 1024 → P (own f) → word m' (f + 4 * j) = word m (f + 4 * j).

(** The frames that define the translations of [d]. *)
Definition tables (d : Z) (o : owner) : Prop := o = Tab d ∨ o = KrnlTab.

(** Owners only change by taking free frames. *)
Definition takes (own own' : Z → owner) : Prop := ∀ f, own f ≠ Free → own' f = own f.

Lemma takes_refl own : takes own own.
Proof. done. Qed.
Lemma takes_trans own own1 own2 : takes own own1 → takes own1 own2 → takes own own2.
Proof. intros H1 H2 f Hf. rewrite H2; [by apply H1|]. by rewrite H1. Qed.
Lemma takes_give f o own : own f = Free → takes own (give f o own).
Proof. intros Hf g Hg. apply give_ne. congruence. Qed.

Lemma agree_trans own own' P m m1 m2 :
  takes own own' → (∀ o, P o → o ≠ Free) → agree own P m m1 → agree own' P m1 m2 → agree own P m m2.
Proof.
  intros Ht HP H1 H2 f j Hf Hj HPf. rewrite H2; [by apply H1|done|done|]. by rewrite Ht by by apply HP.
Qed.
Lemma agree_sub own (P Q : owner → Prop) m m' : (∀ o, Q o → P o) → agree own P m m' → agree own Q m m'.
Proof. intros HQ H f j Hf Hj Hq. by apply H, HQ. Qed.

(** ** One space *)

Section one.
Context (own : Z → owner) (d : Z) (m : t).
Context (Hf : frames_ok own m) (Hs : space_ok own d m).

Lemma owned_not_free f : own f ≠ Free → not_free (space d m) f.
Proof.
  intros Ho. apply not_free_frame. intros Hfr. apply Ho, (fo_free _ _ Hf). by left.
Qed.

Lemma space_wf : wf (space d m).
Proof.
  pose proof Hf as [H1 H2 H3 H4 H5]. pose proof Hs as [(Hd & Hal & Ho) Hself Hu _ Hk].
  split; try done.
  - intros i Hi Hp. destruct (decide (i < 768)).
    + destruct (Hu i) as [E Hne]; [lia|done|]. split; [done|]. apply owned_not_free. by rewrite E.
    + pose proof (Hk i ltac:(lia) Hp) as E. split; [|apply owned_not_free; by rewrite E].
      intros E'. change (PageEntry.GetAddress (pde (space d m) i) = d) in E'. congruence.
  - apply owned_not_free. cbn. congruence.
Qed.

(** A space sees only its tables. *)
Lemma space_pde own' m' :
  takes own own' → (∀ k, 0 ≤ k < 1024 → pde (space d m') k = pde (space d m) k) → space_ok own' d m'.
Proof.
  intros Ht Hpde. pose proof Hs as [(Hd & Hal & Ho) Hself Hu Hpr Hk].
  split; rewrite ?Hpde by lia; try done.
  - rewrite Ht; [done|congruence].
  - intros k Hk'. rewrite Hpde by lia. intros Hp. destruct (Hu k Hk' Hp) as [E ?].
    rewrite Ht; [done|congruence].
  - intros k k' ? ?. rewrite !Hpde by lia. by apply Hpr.
  - intros k Hk'. rewrite Hpde by lia. intros Hp. pose proof (Hk k Hk' Hp) as E.
    rewrite Ht; [done|congruence].
Qed.

Lemma tables_agree own' m' :
  takes own own' → agree own (tables d) m m' →
  space_ok own' d m' ∧ (∀ k, 0 ≤ k < 1024 → pde (space d m') k = pde (space d m) k)
  ∧ ∀ a, translate (space d m') a = translate (space d m) a.
Proof.
  intros Ht Ha. pose proof Hs as [(Hd & Hal & Ho) Hself Hu Hpr Hk].
  assert (Hpde : ∀ k, 0 ≤ k < 1024 → pde (space d m') k = pde (space d m) k).
  { intros k Hk'. apply (Ha d k); [done|done|]. rewrite Ho. by left. }
  split; [by apply space_pde|]. split; [done|].
  intros a. unfold translate. cbv zeta. rewrite Hpde by apply GetPageDirEntryIdx_range.
  destruct (PageEntry.IsPresent (pde (space d m) (GetPageDirEntryIdx a))) eqn:Hp; [|done].
  pose proof (GetPageDirEntryIdx_range a). set (k := GetPageDirEntryIdx a) in *.
  assert (E : word (space d m') (PageEntry.GetAddress (pde (space d m) k) + 4 * GetPageTabEntryIdx a)
    = word (space d m) (PageEntry.GetAddress (pde (space d m) k) + 4 * GetPageTabEntryIdx a));
    [|by rewrite E].
  apply Ha; [apply PageEntry.GetAddress_aligned|apply GetPageTabEntryIdx_range|].
  destruct (decide (k < 768)); [left; by apply (Hu k); [lia|]|].
  destruct (decide (k = 1023)) as [->|]; [left; rewrite (proj2 Hself); congruence|right; apply Hk; [lia|done]].
Qed.

(** Only an address of the same page has the table entry of a user address. *)
Lemma usr_private a va :
  GetPageDirEntryIdx va < 768 → plain a → shares_entry (space d m) a va → same_page a va.
Proof.
  intros Hva Ha (Hp & Hp' & E). pose proof (GetPageDirEntryIdx_range a). pose proof (GetPageDirEntryIdx_range va).
  unfold plain in Ha. unfold slot in E.
  apply frame_word_inj in E as [E1 E2]; [|apply PageEntry.GetAddress_aligned|apply PageEntry.GetAddress_aligned
    |apply GetPageTabEntryIdx_range|apply GetPageTabEntryIdx_range].
  split; [|done]. pose proof Hs as [_ _ Hu Hpr Hk].
  destruct (decide (GetPageDirEntryIdx a < 768)); [apply Hpr; done || lia|].
  pose proof (Hk (GetPageDirEntryIdx a) ltac:(lia) Hp) as E3.
  destruct (Hu (GetPageDirEntryIdx va)) as [E4 _]; [lia|done|]. congruence.
Qed.

(** ** Mapping a page of user memory *)

Lemma IsMapped_None va : translate (space d m) va = None → IsMapped va (space d m) = Ok false.
Proof.
  intros Hn. pose proof space_wf as Hwf. apply no_translation in Hn. unfold IsMapped.
  rewrite load_dir_entry by done. simpl.
  destruct (PageEntry.IsPresent (pde (space d m) (GetPageDirEntryIdx va))) eqn:Hp; [|done].
  destruct Hn as [|Hn]; [done|]. rewrite load_tab_entry by done. simpl. by rewrite Hn.
Qed.

(** What [MapToPhyAddr] changes: it may take a frame for a table, and it writes
    to the directory and the tables of the space. *)
Record mapped (va f : Z) (own' : Z → owner) (m' : t) : Prop := {
  mp_dir : page_dir m' = d;
  mp_usr : usr_pool m' = usr_pool m ∧ usr_addr_pool m' = usr_addr_pool m
    ∧ MemInit.krnl_addr_pool (pools m') = MemInit.krnl_addr_pool (pools m);
  mp_krnl : pool_within (krnl_pool m) (krnl_pool m');
  mp_count : PagePool.free_count_ (krnl_pool m) - 1 ≤ PagePool.free_count_ (krnl_pool m');
  mp_frames : frames_ok own' m';
  mp_space : space_ok own' d m';
  mp_takes : takes own own';
  mp_new : ∀ g, own' g = own g ∨ own' g = Tab d ∧ own g = Free;
  mp_words : agree own' (λ o, o ≠ Tab d) m m';
  mp_pdes : ∀ k, 768 ≤ k < 1024 → pde m' k = pde (space d m) k;
  mp_page : ∀ a, plain a → same_page a va → translate m' a = Some (f + GetOffset a);
  mp_others : ∀ a, plain a → ¬ same_page a va → translate m' a = translate (space d m) a
}.

(** The page table is there. *)
Lemma map_in_usr_table va f :
  plain va → GetPageDirEntryIdx va < 768 → PageEntry.GetAddress f = f →
  PageEntry.IsPresent (pde (space d m) (GetPageDirEntryIdx va)) = true →
  translate (space d m) va = None →
  ∃ m', MapToPhyAddr va f (space d m) = Ok m' ∧ mapped va f own m' ∧ krnl_pool m' = krnl_pool m.
Proof.
  intros Hva Hlt Hfa Hp Hn. pose proof space_wf as Hwf. pose proof (GetPageDirEntryIdx_range va).
  destruct (map_present (space d m) va f Hwf Hva Hp Hn) as (e & HM & He & Hep & Hea). rewrite Hfa in Hea.
  set (m' := set_word (slot (space d m) va) e (space d m)) in *. exists m'. split; [done|]. split; [|done].
  destruct (so_user _ _ _ Hs (GetPageDirEntryIdx va)) as [Ho Hne]; [lia|done|].
  assert (Hw : ∀ g j, g mod 4096 = 0 → 0 ≤ j < 1024 → g ≠ PageEntry.GetAddress (pde (space d m) (GetPageDirEntryIdx va)) →
    word m' (g + 4 * j) = word m (g + 4 * j)).
  { intros g j Hg Hj Hgt. unfold m'. rewrite word_set_ne; [done|]. unfold slot. intros E.
    apply frame_word_inj in E as [E _]; [by rewrite E in Hgt|apply PageEntry.GetAddress_aligned|done
      |apply GetPageTabEntryIdx_range|done]. }
  split; try done.
  - change (krnl_pool m') with (krnl_pool m). lia.
  - destruct Hf. split; try done. intros a. destruct (decide (slot (space d m) va = a)) as [<-|Hna].
    + unfold m'. by rewrite word_set_eq.
    + unfold m'. rewrite word_set_ne by done. apply fo_words0.
  - apply space_pde; [done|]. intros k Hk. change (pde m' k = pde (space d m) k).
    by apply pde_set_slot.
  - intros g. by left.
  - intros g j Hg Hj Hgo. apply Hw; [done|done|]. intros ->. done.
  - intros k Hk. apply pde_set_slot; done || lia.
  - intros a Ha [E1 E2]. unfold m'. rewrite translate_set_slot by done. unfold slot.
    rewrite E1, E2, Hp, Z.eqb_refl, Hep, Hea. done.
  - intros a Ha Hns. unfold m'. rewrite translate_set_slot by done.
    destruct (PageEntry.IsPresent (pde (space d m) (GetPageDirEntryIdx a))) eqn:Hpa; [|done].
    destruct (Z.eqb_spec (slot (space d m) a) (slot (space d m) va)) as [E|]; [|done].
    destruct Hns. by apply usr_private.
Qed.

(** A new directory entry for the frame [g]. *)
Lemma space_new_table k g m' :
  0 ≤ k < 768 → own g = Free → PageEntry.GetAddress (pde m' k) = g → space d m' = m' →
  (∀ i, 0 ≤ i < 1024 → i ≠ k → pde (space d m') i = pde (space d m) i) →
  space_ok (give g (Tab d) own) d m'.
Proof.
  intros Hk Hg Hpd Hsd Hpde. pose proof Hs as [(Hd & Hal & Ho) Hself Hu Hpr Hkr].
  assert (Hne : ∀ f, own f ≠ Free → give g (Tab d) own f = own f)
    by (intros f Hf'; apply give_ne; congruence).
  assert (Hpk : PageEntry.GetAddress (pde (space d m') k) = g) by by rewrite Hsd.
  split; rewrite ?Hpde by lia; try done.
  - rewrite Hne; [done|congruence].
  - intros i Hi. destruct (decide (i = k)) as [->|]; [rewrite Hpk; intros _; split; [apply give_eq|congruence]|].
    rewrite Hpde by lia. intros Hp. destruct (Hu i Hi Hp) as [E ?]. rewrite Hne; [done|congruence].
  - assert (Hx : ∀ i, 0 ≤ i < 768 → i ≠ k → PageEntry.IsPresent (pde (space d m) i) = true →
      PageEntry.GetAddress (pde (space d m) i) ≠ g).
    { intros i Hi _ Hp. destruct (Hu i Hi Hp). congruence. }
    intros i i' Hi Hi'. destruct (decide (i = k)) as [->|Hik], (decide (i' = k)) as [->|Hik']; [done|..].
    + rewrite Hpk, (Hpde i') by lia. intros _ Hp E. by destruct (Hx i').
    + rewrite Hpk, (Hpde i) by lia. intros Hp _ E. by destruct (Hx i).
    + rewrite !Hpde by lia. by apply Hpr.
  - intros i Hi. rewrite Hpde by lia. intros Hp. pose proof (Hkr i Hi Hp). rewrite Hne; [done|congruence].
Qed.

(** A table for the page, in a frame that was free. *)
Lemma new_table va :
  plain va → GetPageDirEntryIdx va < 768 → 0 < PagePool.free_count_ (krnl_pool m) →
  PageEntry.IsPresent (pde (space d m) (GetPageDirEntryIdx va)) = false →
  ∃ m' g, new_page_table va (pde (space d m) (GetPageDirEntryIdx va)) (space d m) = Ok m'
    ∧ own g = Free ∧ page_dir m' = d ∧ usr_pool m' = usr_pool m ∧ usr_addr_pool m' = usr_addr_pool m
    ∧ MemInit.krnl_addr_pool (pools m') = MemInit.krnl_addr_pool (pools m)
    ∧ pool_within (krnl_pool m) (krnl_pool m')
    ∧ PagePool.free_count_ (krnl_pool m') = PagePool.free_count_ (krnl_pool m) - 1
    ∧ frames_ok (give g (Tab d) own) m' ∧ space_ok (give g (Tab d) own) d m'
    ∧ PageEntry.IsPresent (pde m' (GetPageDirEntryIdx va)) = true
    ∧ translate m' va = None ∧ agree (give g (Tab d) own) (λ o, o ≠ Tab d) m m'
    ∧ (∀ k, 768 ≤ k < 1024 → pde m' k = pde (space d m) k)
    ∧ ∀ a, plain a → translate m' a = translate (space d m) a.
Proof.
  intros Hva Hlt Hc Hp. pose proof space_wf as Hwf. pose proof (GetPageDirEntryIdx_range va) as Hv.
  destruct (pool_take _ (fo_krnl _ _ Hf) Hc)
    as (p & g & HA & Hg0 & Hfree & Hok' & Hga & Hn & Hst & Hcap & (i & Hrun & -> & Hch) & Hsub).
  set (g := PagePool.page_at (krnl_pool m) i) in *.
  destruct (new_page_table_ok (space d m) va p i Hwf Hva Hp HA Hg0 Hrun Hok' Hch)
    as (m' & HN & Hwf' & Hkp & Hu & Hp' & Hns & Hr & _ & Hd' & Hpo & Hpd & Hpde & Hw).
  assert (Hgo : own g = Free) by (apply (fo_free _ _ Hf); by left).
  assert (Hgd : g ≠ d).
  { intros E. pose proof (proj2 (proj2 (so_dir _ _ _ Hs))) as E'. rewrite <- E, Hgo in E'. done. }
  assert (Hnu : ¬ free_in (usr_pool m) g).
  { intros (k & Hk & _ & E). destruct Hfree as (k' & Hk' & _ & E'). pose proof (fo_regions _ _ Hf).
    unfold PagePool.page_at in *. lia. }
  assert (Hpde' : ∀ k, 0 ≤ k < 1024 → k ≠ GetPageDirEntryIdx va → pde (space d m') k = pde (space d m) k).
  { intros k Hk Hne. rewrite <- (Hpde k Hk Hne). unfold pde. by rewrite Hd'. }
  assert (Hsd : space d m' = m') by (destruct m'; cbn in *; by rewrite Hd').
  assert (Hnp : ∀ k, 0 ≤ k < 1024 → PageEntry.IsPresent (pde (space d m) k) = true → k ≠ GetPageDirEntryIdx va)
    by (intros k _ Hk ->; congruence).
  exists m', g. split; [done|]. split; [done|]. split; [done|].
  assert (Hup : usr_pool m' = usr_pool m) by (unfold usr_pool; by rewrite Hpo).
  assert (Hkp' : krnl_pool m' = p) by done.
  split; [done|]. split; [done|]. split; [by rewrite Hpo|].
  split; [rewrite Hkp'; split_and!; [done|done|intros x Hx; by apply Hsub in Hx as [? _]]|]. split; [by rewrite Hkp'|].
  split_and!.
  - split; [apply Hwf'|by rewrite Hkp'|rewrite Hup; apply (fo_usr _ _ Hf)| |].
    + rewrite Hup, Hkp'. unfold PagePool.page_at. rewrite Hst, Hcap. apply (fo_regions _ _ Hf).
    + intros x Hx. unfold is_free in Hx. rewrite Hup, Hkp' in Hx. assert (x ≠ g) as Hxg.
      { intros ->. destruct Hx as [Hx|]; [|done]. by apply Hsub in Hx as [_ ?]. }
      rewrite give_ne by done. apply (fo_free _ _ Hf). destruct Hx as [Hx|Hx]; [|by right].
      left. by apply Hsub in Hx as [? _].
  - apply (space_new_table (GetPageDirEntryIdx va)); try done. lia.
  - done.
  - by apply (proj1 Hr).
  - intros x j Hx Hj Hxo. apply Hw; try done; intros ->; destruct Hxo.
    + rewrite give_ne by (by apply not_eq_sym). apply (so_dir _ _ _ Hs).
    + by apply give_eq.
  - intros k Hk. apply Hpde; lia.
  - intros a Ha. assert (E : ∀ b, GetPageDirEntryIdx b = GetPageDirEntryIdx va → translate (space d m) b = None).
    { intros b E. apply no_translation. left. by rewrite E. }
    destruct (decide (same_page a va)) as [Hsa|Hsa].
    + rewrite (E a (proj1 Hsa)). by apply (proj1 Hr).
    + apply (proj2 Hr); [done|done|]. intros (_ & Hv' & _). congruence.
Qed.
End one.

Lemma space_same d m : page_dir m = d → space d m = m.
Proof. intros <-. by destruct m. Qed.

Lemma map_usr own d m va f :
  frames_ok own m → space_ok own d m → plain va → GetPageDirEntryIdx va < 768 →
  PageEntry.GetAddress f = f → 0 < PagePool.free_count_ (krnl_pool m) →
  translate (space d m) va = None →
  ∃ m' own', MapToPhyAddr va f (space d m) = Ok m' ∧ mapped own d m va f own' m'.
Proof.
  intros Hf Hs Hva Hlt Hfa Hc Hn. pose proof (space_wf own d m Hf Hs) as Hwf.
  destruct (PageEntry.IsPresent (pde (space d m) (GetPageDirEntryIdx va))) eqn:Hp.
  { destruct (map_in_usr_table own d m Hf Hs va f) as (m' & HM & Hmp & _); try done. by exists m', own. }
  destruct (new_table own d m Hf Hs va Hva Hlt Hc Hp)
    as (m1 & g & HN & Hg & Hd1 & Hu1 & Hup1 & Hkp1 & Hin1 & Hn1 & Hf1 & Hs1 & Hp1 & Ht1 & Ha1 & Hpd1 & Htr1).
  pose proof (space_same d m1 Hd1) as E1. pose proof (takes_give g (Tab d) own Hg) as Htk.
  destruct (map_in_usr_table (give g (Tab d) own) d m1 Hf1 Hs1 va f) as (m' & HM & Hmp & Hk); rewrite ?E1; try done.
  rewrite E1 in HM. exists m', (give g (Tab d) own). split.
  - rewrite <- HM. unfold MapToPhyAddr at 1. rewrite load_dir_entry by done. simpl. rewrite Hp. simpl.
    rewrite HN. simpl. unfold MapToPhyAddr. rewrite load_dir_entry by (rewrite <- E1; by apply (space_wf _ _ _ Hf1)).
    simpl. by rewrite Hp1.
  - destruct Hmp as [M1 (M2 & M3 & M4) M5' M5 M6 M7 M8 M9 M10 M10' M11 M12]. split; try done.
    + split; [by rewrite M2|]. split; [by rewrite M3|by rewrite M4].
    + by rewrite Hk.
    + rewrite Hk. lia.
    + intros x. unfold give. destruct (Z.eqb_spec x g) as [->|]; [by right|by left].
    + intros x j Hx Hj Hxo. rewrite M10 by done. by apply Ha1.
    + intros k Hk768. rewrite M10' by done. rewrite E1. by apply Hpd1.
    + intros a Ha Hsa. rewrite M12 by done. rewrite E1. by apply Htr1.
Qed.

(** ** Pages of user memory *)

(** Taking a frame of the pool for user memory. *)
Definition set_usr_pool (p : PagePool.t) (m : t) : t := set_mem_pool User p m.

Lemma take_usr own m d :
  frames_ok own m → 0 < PagePool.free_count_ (usr_pool m) →
  ∃ p f, PhyMemPagePool.AllocPages 1 (usr_pool m) = Ok (p, f) ∧ f ≠ 0 ∧ own f = Free
    ∧ PageEntry.GetAddress f = f ∧ f mod 4096 = 0
    ∧ PagePool.free_count_ p = PagePool.free_count_ (usr_pool m) - 1
    ∧ frames_ok (give f (Usr d) own) (set_usr_pool p m).
Proof.
  intros [F1 F2 F3 F4 F5] Hc.
  destruct (pool_take _ F3 Hc)
    as (p & f & HA & Hf0 & Hfree & Hok' & Hga & Hn & Hst & Hcap & (i & _ & Hfi & _) & Hsub).
  assert (Hkf : ¬ free_in (krnl_pool m) f).
  { intros (k & Hk & _ & E). destruct Hfree as (k' & Hk' & _ & E'). unfold PagePool.page_at in *. lia. }
  exists p, f. split_and!; try done.
  - apply F5. by right.
  - rewrite Hfi. by apply PagePool.page_at_aligned.
  - split; [done|done|done| |].
    + change (usr_pool (set_usr_pool p m)) with p. by rewrite Hst.
    + intros x [Hx|Hx]; change (free_in (krnl_pool m) x) in Hx || change (free_in p x) in Hx.
      * rewrite give_ne by (intros ->; done). apply F5. by left.
      * apply Hsub in Hx as [Hx Hxf]. rewrite give_ne by done. apply F5. by right.
Qed.

(** A new page of a space's user memory. *)
Record usr_page (own : Z → owner) (d : Z) (m : t) (va : Z) (own' : Z → owner) (m' : t) (f : Z) : Prop := {
  up_dir : page_dir m' = d;
  up_pools : usr_addr_pool m' = usr_addr_pool m
    ∧ MemInit.krnl_addr_pool (pools m') = MemInit.krnl_addr_pool (pools m);
  up_within : pool_within (krnl_pool m) (krnl_pool m');
  up_krnl : PagePool.free_count_ (krnl_pool m) - 1 ≤ PagePool.free_count_ (krnl_pool m');
  up_usr : PagePool.free_count_ (usr_pool m') = PagePool.free_count_ (usr_pool m) - 1;
  up_frames : frames_ok own' m';
  up_space : space_ok own' d m';
  up_takes : takes own own';
  up_new : ∀ g, own' g = own g ∨ own g = Free ∧ (own' g = Tab d ∨ g = f);
  up_frame : own f = Free ∧ own' f = Usr d ∧ f mod 4096 = 0;
  up_words : agree own' (λ o, o ≠ Tab d) m m';
  up_pdes : ∀ k, 768 ≤ k < 1024 → pde m' k = pde (space d m) k;
  up_page : ∀ a, plain a → same_page a va → translate m' a = Some (f + GetOffset a);
  up_others : ∀ a, plain a → ¬ same_page a va → translate m' a = translate (space d m) a
}.

Lemma map_new_frame own d m va :
  frames_ok own m → space_ok own d m → plain va → GetPageDirEntryIdx va < 768 →
  0 < PagePool.free_count_ (krnl_pool m) → 0 < PagePool.free_count_ (usr_pool m) →
  translate (space d m) va = None →
  ∃ p f m' own', PhyMemPagePool.AllocPages 1 (usr_pool m) = Ok (p, f) ∧ f ≠ 0
    ∧ MapToPhyAddr va f (set_usr_pool p (space d m)) = Ok m' ∧ usr_page own d m va own' m' f.
Proof.
  intros Hf Hs Hva Hlt Hck Hcu Hn.
  destruct (take_usr own m d Hf Hcu) as (p & f & HA & Hf0 & Hfo & Hfa & Hal & Hcp & Hf1).
  pose proof (takes_give f (Usr d) own Hfo) as Htk.
  assert (Hs1 : space_ok (give f (Usr d) own) d (set_usr_pool p m)) by (by apply (space_pde own d m Hs)).
  destruct (map_usr _ d _ va f Hf1 Hs1 Hva Hlt Hfa Hck) as (m' & own' & HM & [M1 (M2 & M3 & M4) M5' M5 M6 M7 M8 M9 M10 M10' M11 M12]);
    [done|].
  exists p, f, m', own'. split; [done|]. split; [done|]. split; [exact HM|].
  assert (Hof : own' f = Usr d) by (rewrite M8; [apply give_eq|by rewrite give_eq]).
  split; try done.
  - by rewrite M2.
  - by eapply takes_trans.
  - intros g. destruct (decide (g = f)) as [->|Hg]; [right; split; [done|by right]|].
    destruct (M9 g) as [E|[E1 E2]]; rewrite give_ne in * by done; [by left|right; split; [done|by left]].
Qed.

(** [VrAddrPool::AllocPageAtAddr] on a page that is free. *)
Lemma AllocPageAtAddr_pool ap i :
  PagePool.ok ap → 0 ≤ i < PagePool.capacity ap → PagePool.taken ap i = false →
  ∃ ap', VrAddrPool.AllocPageAtAddr (PagePool.page_at ap i) ap = Ok (ap', PagePool.page_at ap i)
    ∧ PagePool.ok ap' ∧ PagePool.changed ap ap' i 1 true.
Proof.
  intros Hok Hi Ht. pose proof (PagePool.ok_wf _ Hok) as Hwf.
  destruct (PagePool.page_addr_ok ap i Hok Hi) as [_ Hr].
  pose proof (PagePool.page_at_aligned ap i Hok) as Hal.
  unfold VrAddrPool.AllocPageAtAddr.
  assert (E : AlignToPageBase (PagePool.page_at ap i) = PagePool.page_at ap i).
  { rewrite AlignToPageBase_eq by lia. div_lia. }
  rewrite E, PagePool.page_idx by done.
  destruct (Bitmap.Set_ok (PagePool.bitmap_ ap) i 1 Hwf) as (b' & HS & Hwf' & Hlen & Hat);
    [lia|lia|unfold PagePool.capacity in Hi; lia|].
  unfold Bitmap.ForceAlloc. simpl. rewrite HS. simpl.
  assert (Hcap : Bitmap.cap b' = PagePool.capacity ap) by (unfold PagePool.capacity, Bitmap.cap; by rewrite Hlen).
  set (ap1 := PagePool.mk (PagePool.start_addr_ ap) (PagePool.free_count_ ap - 1) b').
  assert (Hcnt : PagePool.nfree (PagePool.taken ap) 0 (PagePool.capacity ap)
    = PagePool.nfree (PagePool.taken ap1) 0 (PagePool.capacity ap) + 1).
  { apply (PagePool.nfree_update _ _ _ i); try lia.
    - intros j Hj Hn. unfold PagePool.taken, ap1. simpl. rewrite Hat by lia. bits_cases; done.
    - intros j Hj. by replace j with i by lia.
    - intros j Hj. unfold PagePool.taken, ap1. simpl. rewrite Hat by lia. bits_cases; done. }
  pose proof (PagePool.nfree_range (PagePool.taken ap1) 0 (PagePool.capacity ap)).
  pose proof (PagePool.capacity_pos ap Hok). pose proof (PagePool.ok_count ap Hok).
  destruct (Z.leb_spec 1 (PagePool.free_count_ ap)); [|lia]. simpl.
  rewrite u32_small by lia. exists ap1. split; [done|].
  destruct Hok as [_ Hst He _]. split; [|split_and!; done].
  split; unfold PagePool.capacity; simpl; try done; [by rewrite Hcap|]. rewrite Hcap. fold ap1. lia.
Qed.

(** The outcome does not depend on the pool of addresses that is current. *)
Definition with_addr_pool (o : option PagePool.t) (m : t) : t := mk (ram m) (page_dir m) (pools m) o.

Lemma usr_page_addr_pool own d m va own' m' f o :
  usr_page own d m va own' m' f → usr_page own d (with_addr_pool o m) va own' (with_addr_pool o m') f.
Proof.
  intros [U1 [U2 U3] U4' U4 U5 [F1 F2 F3 F4 F5] [S1 S2 S3 S4 S5] U8 U9 U10 U11 U11' U12 U13].
  do 2 (split; try done).
Qed.

(** [AllocPageAtAddr] on a page of the pool that is free and not mapped. *)
Lemma alloc_page_at_ok own d m ap i :
  let va := PagePool.page_at ap i in
  frames_ok own m → space_ok own d m → PagePool.ok ap → 0 ≤ i < PagePool.capacity ap →
  PagePool.taken ap i = false → plain va → GetPageDirEntryIdx va < 768 →
  0 < PagePool.free_count_ (krnl_pool m) → 0 < PagePool.free_count_ (usr_pool m) →
  translate (space d m) va = None →
  ∃ ap' f m' own', alloc_page_at User va (with_addr_pool (Some ap) (space d m)) = Ok (m', va)
    ∧ usr_addr_pool m' = Some ap' ∧ PagePool.ok ap' ∧ PagePool.changed ap ap' i 1 true
    ∧ usr_page own d m va own' (with_addr_pool (usr_addr_pool m) m') f.
Proof.
  intros va Hf Hs Hok Hi Ht Hva Hlt Hck Hcu Hn.
  destruct (AllocPageAtAddr_pool ap i Hok Hi Ht) as (ap' & HP & Hok' & Hch). fold va in HP.
  destruct (PagePool.page_addr_ok ap i Hok Hi) as [_ Hr]. fold va in Hr.
  assert (Hal : AlignToPageBase va = va).
  { pose proof (PagePool.page_at_aligned ap i Hok) as Ha. fold va in Ha. rewrite AlignToPageBase_eq by lia. div_lia. }
  set (m1 := with_addr_pool (Some ap) m). set (m2 := with_addr_pool (Some ap') m).
  assert (Hf1 : frames_ok own m1) by (destruct Hf; by split).
  assert (Hs1 : space_ok own d m1) by (destruct Hs; by split).
  assert (Hf2 : frames_ok own m2) by (destruct Hf; by split).
  assert (Hs2 : space_ok own d m2) by (destruct Hs; by split).
  destruct (map_new_frame own d m2 va Hf2 Hs2 Hva Hlt Hck Hcu Hn) as (p & f & m' & own' & HA & Hf0 & HM & Hu).
  exists ap', f, m', own'. split.
  - unfold alloc_page_at. rewrite Hal. change (with_addr_pool (Some ap) (space d m)) with (space d m1).
    rewrite (IsMapped_None own d m1 Hf1 Hs1 va Hn). cbn [mbind res_bind negb Assert]. simpl. rewrite HP. simpl.
    change (MemInit.usr_mem_pool (pools m)) with (usr_pool m2). rewrite HA. simpl.
    destruct (Z.eqb_spec f 0); [done|]. simpl.
    change (set_pools _ (mk (ram m) d (pools m) (Some ap'))) with (set_usr_pool p (space d m2)). by rewrite HM.
  - split; [apply Hu|]. split; [done|]. split; [done|].
    pose proof (usr_page_addr_pool own d m2 va own' m' f (usr_addr_pool m) Hu) as Hu'.
    replace (with_addr_pool (usr_addr_pool m) m2) with m in Hu' by (by destruct m). done.
Qed.
End Space.
