(* ===== verification/MemHeap.v ===== *)
(** * The heap

    [PageAllocator] is the interface between the heap and the pages it is made
    of: the operations the heap calls and the laws they obey. [MemHeap] models
    [MemBlockDesc], [MemBlockDescTab], [MemArena], [Allocate] and [Free] of
    src/src/kernel/memory/pool.cpp against that interface; the kernel's pages
    (MemMap.Pages) implement it at the end of the file. A free list is the
    sequence of its blocks' addresses (the tag list itself is in UtilTagList);
    the contents of blocks are not part of the model. *)
From S2P Require Import Prelude UtilBit UtilBitmap MemPage MemPool MemMap MemPages.
Import Page.

(** What the heap asks of its pages. [alloc_pages] returns 0 when there are no
    addresses left. *)
Class PageAllocator (S : Type) := {
  free_page_count : S → Z;
  alloc_pages : Z → S → res (S * Z);
  free_pages : Z → Z → S → res S
}.

(** The laws: [room s n] says that [n] consecutive addresses are free. A request
    is granted when there are the addresses and the frames for it; pages are
    handed out once, aligned and inside the address space, and only pages that
    are owned are given back. *)
Class PageLaws (S : Type) `{PageAllocator S} := {
  pages_ok : S → Prop;
  owned : S → Z → Prop;
  room : S → Z → Prop;
  free_page_count_range s : pages_ok s → 0 ≤ free_page_count s < 2 ^ 20;
  alloc_pages_none s n :
    pages_ok s → 0 < n → free_page_count s < n ∨ ¬ room s n → ∃ s', alloc_pages n s = Ok (s', 0);
  alloc_pages_law s n :
    pages_ok s → 0 < n ≤ free_page_count s → room s n →
    ∃ s' a, alloc_pages n s = Ok (s', a) ∧ pages_ok s' ∧ 0 < a ∧ a mod 4096 = 0
      ∧ a + n * 4096 ≤ 2 ^ 32 ∧ (∀ i, 0 ≤ i < n → ¬ owned s (a + i * 4096))
      ∧ (∀ x, owned s' x ↔ owned s x ∨ ∃ i, 0 ≤ i < n ∧ x = a + i * 4096);
  free_pages_law s a n :
    pages_ok s → 0 < n → (∀ i, 0 ≤ i < n → owned s (a + i * 4096)) →
    ∃ s', free_pages a n s = Ok s' ∧ pages_ok s'
      ∧ (∀ x, owned s' x ↔ owned s x ∧ ¬ ∃ i, 0 ≤ i < n ∧ x = a + i * 4096)
}.

(** ** Lists *)

Lemma filter_ext_in {A} (P Q : A → Prop) `{∀ x, Decision (P x), ∀ x, Decision (Q x)} (l : list A) :
  (∀ x, x ∈ l → (P x ↔ Q x)) → filter P l = filter Q l.
Proof.
  intros Hl. induction l as [|x l IH]; [done|]. rewrite !filter_cons.
  assert (E : P x ↔ Q x) by (apply Hl, list_elem_of_here).
  rewrite IH by (intros y Hy; apply Hl; by apply list_elem_of_further).
  do 2 case_decide; tauto || done.
Qed.

Lemma filter_all {A} (P : A → Prop) `{∀ x, Decision (P x)} (l : list A) :
  (∀ x, x ∈ l → P x) → filter P l = l.
Proof.
  intros Hl. induction l as [|x l IH]; [done|].
  rewrite filter_cons_True by (apply Hl, list_elem_of_here). f_equal. apply IH.
  intros y Hy. apply Hl. by apply list_elem_of_further.
Qed.

Lemma filter_none {A} (P : A → Prop) `{∀ x, Decision (P x)} (l : list A) :
  (∀ x, x ∈ l → ¬ P x) → filter P l = [].
Proof.
  intros Hl. induction l as [|x l IH]; [done|].
  rewrite filter_cons_False by (apply Hl, list_elem_of_here). apply IH.
  intros y Hy. apply Hl. by apply list_elem_of_further.
Qed.

Module MemHeap.

Definition sizeof_MemArena : Z := 12.
Definition min_block_size : Z := 16.
Definition max_block_size : Z := 1024.
Definition desc_count : Z := 7.

(** [MemBlockDesc] *)
Record desc := mkDesc {
  block_size_ : Z;
  block_count_per_arena_ : Z;
  free_blocks_ : list Z
}.
Definition with_free (l : list Z) (d : desc) : desc :=
  mkDesc (block_size_ d) (block_count_per_arena_ d) l.

Definition MemBlockDesc_Init (block_size : Z) : res desc :=
  Assert (0 <? block_size);;
  Ok (mkDesc block_size ((page_size -w sizeof_MemArena) / block_size) []).

(** [MemBlockDescTab] *)
Definition MemBlockDescTab_Init : res (list desc) :=
  '(descs, block_size) ← for_range (Z.to_nat desc_count) 0
    (fun _ '(descs, block_size) =>
       d ← MemBlockDesc_Init block_size; Ok (descs ++ [d], block_size *w 2))
    ([], min_block_size);
  Assert (block_size / 2 =? max_block_size);;
  Ok descs.

Definition GetMinDesc (size : Z) (descs : list desc) : option nat :=
  fst <$> list_find (λ d, size ≤ block_size_ d) descs.

(** [MemArena]: [desc] is an index in the descriptor table. *)
Record arena := mkArena { arena_desc : option nat; count : Z; large : bool }.
Definition with_count (n : Z) (a : arena) : arena := mkArena (arena_desc a) n (large a).

Section heap.
Context {S : Type} `{PageAllocator S}.

(** The heap of a pool: its pages, the arenas by address, the descriptors. *)
Record t := mk { pages : S; arenas : gmap Z arena; descs : list desc }.

Definition set_arena (a : Z) (ar : arena) (h : t) : t := mk (pages h) (<[a := ar]> (arenas h)) (descs h).
Definition set_free (k : nat) (l : list Z) (h : t) : t :=
  mk (pages h) (arenas h) (alter (with_free l) k (descs h)).
Definition set_pages (s : S) (h : t) : t := mk s (arenas h) (descs h).

(** [MemBlock::GetArena] *)
Definition GetArena (block : Z) : Z := VrAddr.GetPageAddr block.

(** [MemArena::GetBlock] *)
Definition GetBlock (a : Z) (ar : arena) (idx : Z) (h : t) : res Z :=
  Assert (negb (large ar) && bool_decide (is_Some (arena_desc ar)));;
  Assert (idx <? count ar);;
  k ← of_option (arena_desc ar);
  d ← of_option (descs h !! k);
  Ok (a +w sizeof_MemArena +w idx *w block_size_ d).

(** The body of the loop that adds the blocks of a new arena to the free
    list. *)
Definition add_block (a : Z) (ar : arena) (k : nat) (i : Z) (h : t) : res t :=
  block ← GetBlock a ar i h;
  d ← of_option (descs h !! k);
  Assert (bool_decide (block ∉ free_blocks_ d));;
  Ok (set_free k (free_blocks_ d ++ [block]) h).

Definition new_arena (k : nat) (h : t) : res t :=
  '(s, a) ← alloc_pages 1 (pages h);
  Assert (negb (a =? 0));;
  d ← of_option (descs h !! k);
  let ar := mkArena (Some k) (block_count_per_arena_ d) false in
  let h := set_arena a ar (set_pages s h) in
  for_range (Z.to_nat (count ar)) 0 (add_block a ar k) h.

Definition alloc_large (size : Z) (h : t) : res (t * Z) :=
  let page_count := CalcPageCount (size +w sizeof_MemArena) in
  '(s, a) ← alloc_pages page_count (pages h);
  Assert (negb (a =? 0));;
  Ok (set_arena a (mkArena None page_count true) (set_pages s h), a +w sizeof_MemArena).

(** Take the first free block of the descriptor [k]. *)
Definition pop_block (k : nat) (h : t) : res (t * Z) :=
  d ← of_option (descs h !! k);
  match free_blocks_ d with
  | [] => Panic
  | block :: l =>
      let h := set_free k l h in
      let a := GetArena block in
      ar ← of_option (arenas h !! a);
      Assert (0 <? count ar);;
      Ok (set_arena a (with_count (count ar -w 1) ar) h, block)
  end.

Definition Allocate (size : Z) (h : t) : res (t * Z) :=
  Assert (0 <? size);;
  if free_page_count (pages h) *w page_size <? size then Ok (h, 0)
  else if max_block_size <? size then alloc_large size h
  else
    match GetMinDesc size (descs h) with
    | None => Panic
    | Some k =>
        d ← of_option (descs h !! k);
        h ← (match free_blocks_ d with [] => new_arena k h | _ => Ok h end);
        pop_block k h
    end.

(** The body of the loop that takes the blocks of an arena off the free list. *)
Definition detach_block (a : Z) (ar : arena) (k : nat) (i : Z) (h : t) : res t :=
  block ← GetBlock a ar i h;
  d ← of_option (descs h !! k);
  Assert (bool_decide (block ∈ free_blocks_ d));;
  Ok (set_free k (filter (λ b, b ≠ block) (free_blocks_ d)) h).

(** [FreePages(mem_pool, addr_pool, &arena, count)]: the arena is gone. *)
Definition free_arena (a n : Z) (h : t) : res t :=
  s ← free_pages a n (pages h);
  Ok (mk s (delete a (arenas h)) (descs h)).

Definition free_small (a : Z) (ar : arena) (block : Z) (h : t) : res t :=
  match arena_desc ar with
  | None => Panic
  | Some k =>
      d ← of_option (descs h !! k);
      let h := set_free k (free_blocks_ d ++ [block]) h in
      let ar := with_count (count ar +w 1) ar in
      let h := set_arena a ar h in
      if count ar =? block_count_per_arena_ d then
        h ← for_range (Z.to_nat (count ar)) 0 (detach_block a ar k) h;
        free_arena a 1 h
      else Ok h
  end.

Definition Free (vr_base : Z) (h : t) : res t :=
  if vr_base =? 0 then Ok h
  else
    let a := GetArena vr_base in
    ar ← of_option (arenas h !! a);
    if large ar then
      Assert (bool_decide (arena_desc ar = None));;
      free_arena a (count ar) h
    else free_small a ar vr_base h.

(** ** The descriptors *)

Definition block_size_at (k : nat) : Z := 16 * 2 ^ Z.of_nat k.
Definition blocks_per_arena (k : nat) : Z := 4084 / block_size_at k.

(** The table [MemBlockDescTab_Init] makes, with free lists. *)
Definition desc_at (k : nat) (l : list Z) : desc := mkDesc (block_size_at k) (blocks_per_arena k) l.

Lemma block_size_cases k :
  (k < 7)%nat → block_size_at k ∈ [16; 32; 64; 128; 256; 512; 1024]
  ∧ 3 ≤ blocks_per_arena k ≤ 255 ∧ blocks_per_arena k * block_size_at k ≤ 4084.
Proof.
  intros Hk. do 7 (destruct k as [|k]; [vm_compute; split_and!; try congruence; try set_solver|]). lia.
Qed.

Lemma block_size_pos k : (k < 7)%nat → 16 ≤ block_size_at k ≤ 1024.
Proof.
  intros Hk. destruct (block_size_cases k Hk) as [H1 _].
  repeat (apply elem_of_cons in H1 as [->|H1]; [lia|]). by apply elem_of_nil in H1.
Qed.

(** The address of a block. *)
Definition block_at (a : Z) (k : nat) (j : Z) : Z := a + 12 + j * block_size_at k.

Lemma block_in_page a k j :
  (k < 7)%nat → 0 ≤ a → a mod 4096 = 0 → a + 4096 ≤ 2 ^ 32 → 0 ≤ j < blocks_per_arena k →
  GetArena (block_at a k j) = a ∧ a + 12 ≤ block_at a k j
  ∧ block_at a k j + block_size_at k ≤ a + 4096.
Proof.
  intros Hk Ha Hal Hle Hj. destruct (block_size_cases k Hk) as (_ & _ & Hb).
  pose proof (block_size_pos k Hk). unfold block_at.
  assert (j * block_size_at k + block_size_at k ≤ 4084) by nia.
  split; [|nia]. unfold GetArena. rewrite VrAddr.GetPageAddr_eq by nia.
  assert (0 ≤ j * block_size_at k) by nia. div_lia.
Qed.

Lemma block_at_inj a k i j : (k < 7)%nat → block_at a k i = block_at a k j → i = j.
Proof. intros Hk E. pose proof (block_size_pos k Hk). unfold block_at in E. nia. Qed.

(** ** The invariant *)

(** The free blocks of the arena [a] in a free list. *)
Definition in_arena (a : Z) (l : list Z) : list Z := filter (λ b, GetArena b = a) l.

Context `{!PageLaws S}.

(** [x] is the arena being filled, whose blocks may all be free; 0 if none. *)
Record ok_with (x : Z) (h : t) : Prop := {
  ok_pages : pages_ok (pages h);
  ok_len : length (descs h) = 7%nat;
  ok_descs : ∀ k d, descs h !! k = Some d → d = desc_at k (free_blocks_ d) ∧ NoDup (free_blocks_ d);
  ok_arena : ∀ a ar, arenas h !! a = Some ar →
    0 < a ∧ a mod 4096 = 0 ∧ a + 4096 ≤ 2 ^ 32 ∧ owned (pages h) a;
  ok_small : ∀ a n k, arenas h !! a = Some (mkArena (Some k) n false) →
    ∃ d, descs h !! k = Some d ∧ n = Z.of_nat (length (in_arena a (free_blocks_ d)))
      ∧ n ≤ blocks_per_arena k ∧ (a ≠ x → n < blocks_per_arena k);
  ok_large : ∀ a o n, arenas h !! a = Some (mkArena o n true) →
    o = None ∧ 0 < n ∧ a + n * 4096 ≤ 2 ^ 32 ∧ (∀ i, 0 ≤ i < n → owned (pages h) (a + i * 4096))
    ∧ ∀ i, 0 < i < n → arenas h !! (a + i * 4096) = None;
  ok_kind : ∀ a n, arenas h !! a ≠ Some (mkArena None n false);
  ok_free : ∀ k d b, descs h !! k = Some d → b ∈ free_blocks_ d →
    ∃ a n j, arenas h !! a = Some (mkArena (Some k) n false) ∧ 0 ≤ j < blocks_per_arena k
      ∧ b = block_at a k j
}.
Definition ok (h : t) : Prop := ok_with 0 h.

(** [a] is an arena of blocks of the descriptor [k]; [b] is in its free list. *)
Definition small (h : t) (a : Z) (k : nat) : Prop :=
  ∃ n, arenas h !! a = Some (mkArena (Some k) n false).
Definition is_free (h : t) (k : nat) (b : Z) : Prop := ∃ d, descs h !! k = Some d ∧ b ∈ free_blocks_ d.

(** A block the heap has handed out, with its usable size. *)
Definition live (h : t) (b sz : Z) : Prop :=
  (∃ a n, arenas h !! a = Some (mkArena None n true) ∧ b = a + 12 ∧ sz = n * 4096 - 12) ∨
  (∃ a k j, small h a k ∧ 0 ≤ j < blocks_per_arena k ∧ b = block_at a k j ∧ ¬ is_free h k b
     ∧ sz = block_size_at k).

(** ** The pages of the arenas *)

Definition span (ar : arena) : Z := if large ar then count ar else 1.

Definition spans (h : t) : gmap Z Z := span <$> arenas h.

(** [n] pages became a new arena; none did when [n] is 0. *)
Definition grown (h h' : t) (n : Z) : Prop :=
  (n = 0 ∧ pages h' = pages h ∧ spans h' = spans h) ∨
  (0 < n ∧ ∃ a, alloc_pages n (pages h) = Ok (pages h', a) ∧ a ≠ 0 ∧ spans h !! a = None
     ∧ spans h' = <[a := n]> (spans h)).

(** The pages of an arena were given back, or none were. *)
Definition shrunk (h h' : t) : Prop :=
  (pages h' = pages h ∧ spans h' = spans h) ∨
  ∃ a n, spans h !! a = Some n ∧ free_pages a n (pages h) = Ok (pages h') ∧ spans h' = delete a (spans h).

Lemma spans_same_span h h' a ar ar' :
  arenas h !! a = Some ar → span ar' = span ar → arenas h' = <[a := ar']> (arenas h) → spans h' = spans h.
Proof.
  intros Ha Es E. unfold spans. rewrite E, fmap_insert, Es. apply insert_id. by rewrite lookup_fmap, Ha.
Qed.

(** The smallest block size that holds a request, and the pages a request takes:
    none when there is a free block of that size. *)
Definition class_of (size : Z) : nat := length (filter (λ k, block_size_at k < size) (seq 0 7)).

Definition pages_needed (h : t) (size : Z) : Z :=
  if max_block_size <? size then CalcPageCount (size + sizeof_MemArena)
  else match free_blocks_ <$> descs h !! class_of size with Some (_ :: _) => 0 | _ => 1 end.

(** ** Live blocks do not overlap *)

Lemma desc_lt x h k d : ok_with x h → descs h !! k = Some d → (k < 7)%nat.
Proof. intros Hok Hd. apply lookup_lt_Some in Hd. by rewrite (ok_len x h Hok) in Hd. Qed.

Lemma small_lt x h a k : ok_with x h → small h a k → (k < 7)%nat.
Proof. intros Hok [n Hn]. destruct (ok_small x h Hok a n k Hn) as (d & Hd & _). by eapply desc_lt. Qed.

Lemma span_pos x h a ar : ok_with x h → arenas h !! a = Some ar → 0 < span ar.
Proof.
  intros Hok Ha. unfold span. destruct ar as [o n []]; simpl; [|lia].
  by destruct (ok_large x h Hok a o n Ha) as (_ & ? & _).
Qed.

Lemma arenas_apart_lt x h a1 a2 ar1 ar2 :
  ok_with x h → arenas h !! a1 = Some ar1 → arenas h !! a2 = Some ar2 → a1 < a2 →
  a1 + span ar1 * 4096 ≤ a2.
Proof.
  intros Hok H1 H2 Hlt. destruct (ok_arena x h Hok a1 _ H1) as (_ & Hm1 & _ & _).
  destruct (ok_arena x h Hok a2 _ H2) as (_ & Hm2 & _ & _).
  set (i := (a2 - a1) / 4096). assert (Hi : a2 = a1 + i * 4096 ∧ 0 < i) by (unfold i; div_lia).
  destruct ar1 as [o n []]; unfold span; simpl; [|lia].
  destruct (decide (i < n)); [|lia]. destruct (ok_large x h Hok a1 o n H1) as (_ & _ & _ & _ & Hn).
  specialize (Hn i). rewrite <- (proj1 Hi), H2 in Hn. discriminate Hn. lia.
Qed.

(** Where a live block lies. *)
Lemma live_range x h b sz :
  ok_with x h → live h b sz →
  ∃ a ar, arenas h !! a = Some ar ∧ a + 12 ≤ b ∧ b + sz ≤ a + span ar * 4096 ∧ 0 < sz.
Proof.
  intros Hok [(a & n & Ha & -> & ->)|(a & k & j & Hsm & Hj & -> & _ & ->)].
  - destruct (ok_large x h Hok a _ n Ha) as (_ & Hn & _). exists a, (mkArena None n true).
    unfold span. simpl. split; [done|lia].
  - pose proof (small_lt x h a k Hok Hsm) as Hk. destruct Hsm as [n Ha].
    destruct (ok_arena x h Hok a _ Ha) as (H1 & H2 & H3 & _).
    destruct (block_in_page a k j Hk) as (_ & ? & ?); try done; [lia|].
    pose proof (block_size_pos k Hk). exists a, (mkArena (Some k) n false).
    unfold span. simpl. split; [done|lia].
Qed.

Lemma live_same_arena x h a ar b1 b2 s1 s2 :
  ok_with x h → arenas h !! a = Some ar → live h b1 s1 → live h b2 s2 →
  a + 12 ≤ b1 < a + span ar * 4096 → a + 12 ≤ b2 < a + span ar * 4096 → b1 < b2 → b1 + s1 ≤ b2.
Proof.
  intros Hok Ha.
  assert (Hin : ∀ b s, live h b s → a + 12 ≤ b < a + span ar * 4096 →
    (b = a + 12 ∧ large ar = true) ∨
    ∃ k j, arena_desc ar = Some k ∧ (k < 7)%nat ∧ b = block_at a k j ∧ s = block_size_at k).
  { intros b s Hl Hb. destruct (live_range x h b s Hok Hl) as (a' & ar' & Ha' & Hb1 & Hb2 & Hs).
    assert (a' = a) as ->.
    { destruct (Z.lt_trichotomy a a') as [Hlt|[->|Hlt]]; [|done|].
      - pose proof (arenas_apart_lt x h a a' ar ar' Hok Ha Ha' Hlt). lia.
      - pose proof (arenas_apart_lt x h a' a ar' ar Hok Ha' Ha Hlt). lia. }
    destruct Hl as [(c & n & Hc & -> & ->)|(c & k & j & Hsm & Hj & -> & _ & ->)];
      [|pose proof (small_lt x h c k Hok Hsm) as Hk; destruct Hsm as [n Hc]].
    all: destruct (ok_arena x h Hok c _ Hc) as (Hc0 & Hcm & Hcl & _).
    all: destruct (ok_arena x h Hok a _ Ha) as (Ha0 & Ham & Hal & _).
    - assert (c = a) as ->.
      { destruct (Z.lt_trichotomy a c) as [Hlt|[->|Hlt]]; [|done|lia].
        pose proof (arenas_apart_lt x h a c ar _ Hok Ha Hc Hlt). lia. }
      left. by simplify_eq.
    - destruct (block_in_page c k j Hk) as (_ & ? & ?); try done; [lia|].
      assert (c = a) as ->.
      { destruct (Z.lt_trichotomy a c) as [Hlt|[->|Hlt]]; [|done|].
        - pose proof (arenas_apart_lt x h a c ar _ Hok Ha Hc Hlt). lia.
        - pose proof (arenas_apart_lt x h c a _ ar Hok Hc Ha Hlt). unfold span in *. simpl in *. lia. }
      right. simplify_eq. by exists k, j. }
  intros Hl1 Hl2 Hb1 Hb2 Hlt.
  destruct (Hin b1 s1 Hl1 Hb1) as [[-> E1]|(k1 & j1 & E1 & Hk & -> & ->)],
    (Hin b2 s2 Hl2 Hb2) as [[-> E2]|(k2 & j2 & E2 & _ & -> & ->)]; try lia.
  - destruct ar as [o n []]; simpl in *; [|done]. destruct (ok_large x h Hok a _ n Ha) as [? _]. congruence.
  - assert (k2 = k1) as -> by congruence. pose proof (block_size_pos k1 Hk). unfold block_at in *.
    assert (j1 < j2) by (apply Z.mul_lt_mono_pos_r with (block_size_at k1); lia).
    assert ((j1 + 1) * block_size_at k1 ≤ j2 * block_size_at k1) by (apply Z.mul_le_mono_nonneg_r; lia).
    lia.
Qed.

Lemma live_disjoint_lt x h b1 b2 s1 s2 :
  ok_with x h → live h b1 s1 → live h b2 s2 → b1 < b2 → b1 + s1 ≤ b2.
Proof.
  intros Hok H1 H2 Hlt.
  destruct (live_range x h b1 s1 Hok H1) as (a1 & ar1 & Ha1 & ? & ? & ?).
  destruct (live_range x h b2 s2 Hok H2) as (a2 & ar2 & Ha2 & ? & ? & ?).
  destruct (Z.lt_trichotomy a1 a2) as [Ha|[->|Ha]].
  - pose proof (arenas_apart_lt x h a1 a2 ar1 ar2 Hok Ha1 Ha2 Ha). lia.
  - assert (ar1 = ar2) as -> by congruence.
    apply (live_same_arena x h a2 ar2 b1 b2 s1 s2); try done; lia.
  - pose proof (arenas_apart_lt x h a2 a1 ar2 ar1 Hok Ha2 Ha1 Ha). lia.
Qed.
(** ** Free lists *)

Lemma descs_set_free k l h k' :
  descs (set_free k l h) !! k' = if decide (k = k') then with_free l <$> descs h !! k' else descs h !! k'.
Proof.
  unfold set_free. simpl. case_decide as E; [subst; by rewrite list_lookup_alter_eq|].
  by rewrite list_lookup_alter_ne.
Qed.

Lemma is_free_set k l h d k' b :
  descs h !! k = Some d →
  is_free (set_free k l h) k' b ↔ if decide (k = k') then b ∈ l else is_free h k' b.
Proof.
  intros Hd. unfold is_free. rewrite descs_set_free. case_decide as E; [|done]. subst.
  rewrite Hd. simpl. split; [by intros (? & [= <-] & ?)|]. intros. by exists (with_free l d).
Qed.

Lemma small_block x h a k j :
  ok_with x h → small h a k → 0 ≤ j < blocks_per_arena k →
  (k < 7)%nat ∧ GetArena (block_at a k j) = a ∧ 0 < a.
Proof.
  intros Hok Hsm Hj. pose proof (small_lt x h a k Hok Hsm) as Hk. destruct Hsm as [n Ha].
  destruct (ok_arena x h Hok a _ Ha) as (H1 & H2 & H3 & _).
  destruct (block_in_page a k j Hk) as (E & _); try done; lia.
Qed.

(** A block of an arena of blocks is not the memory of a large arena. *)
Lemma small_not_large x h a k j c n :
  ok_with x h → small h a k → 0 ≤ j < blocks_per_arena k →
  arenas h !! c = Some (mkArena None n true) → block_at a k j ≠ c + 12.
Proof.
  intros Hok Hsm Hj Hc E. destruct (small_block x h a k j Hok Hsm Hj) as (_ & Ha & _).
  destruct (ok_arena x h Hok c _ Hc) as (? & ? & ? & _). rewrite E in Ha.
  unfold GetArena in Ha. rewrite VrAddr.GetPageAddr_eq in Ha by lia.
  assert (a = c) as -> by div_lia. destruct Hsm as [m Hm]. congruence.
Qed.

Lemma small_block_inj x h a1 a2 k1 k2 j1 j2 :
  ok_with x h → small h a1 k1 → small h a2 k2 → 0 ≤ j1 < blocks_per_arena k1 →
  0 ≤ j2 < blocks_per_arena k2 → block_at a1 k1 j1 = block_at a2 k2 j2 → a1 = a2 ∧ k1 = k2 ∧ j1 = j2.
Proof.
  intros Hok H1 H2 Hj1 Hj2 E. destruct (small_block x h a1 k1 j1 Hok H1 Hj1) as (Hk & E1 & _).
  destruct (small_block x h a2 k2 j2 Hok H2 Hj2) as (_ & E2 & _). assert (a1 = a2) as -> by congruence.
  destruct H1 as [n1 H1], H2 as [n2 H2]. assert (k2 = k1) as -> by congruence.
  split; [done|split; [done|]]. by apply (block_at_inj a2 k1).
Qed.

(** The arenas are the same up to their counts. *)
Definition same_arenas (h h' : t) : Prop :=
  (∀ a n, arenas h' !! a = Some (mkArena None n true) ↔ arenas h !! a = Some (mkArena None n true))
  ∧ (∀ a k, small h' a k ↔ small h a k).

(** Taking a block off its free list makes it live. *)
Lemma live_pop x h h' a k j b :
  ok_with x h → same_arenas h h' → small h a k → 0 ≤ j < blocks_per_arena k → b = block_at a k j →
  is_free h k b → (∀ k' b', is_free h' k' b' ↔ is_free h k' b' ∧ ¬ (k' = k ∧ b' = b)) →
  (∀ sz, ¬ live h b sz)
  ∧ ∀ b' sz', live h' b' sz' ↔ live h b' sz' ∨ (b' = b ∧ sz' = block_size_at k).
Proof.
  intros Hok [HL HS] Hsm Hj -> Hfr Hiff. split.
  - intros sz [(c & n & Hc & E & _)|(c & k' & j' & Hc & Hj' & E & Hn & _)].
    + by apply (small_not_large x h a k j c n Hok Hsm Hj Hc).
    + destruct (small_block_inj x h a c k k' j j' Hok) as (-> & -> & ->); done.
  - intros b' sz'. split.
    + intros [(c & n & Hc & E)|(c & k' & j' & Hc & Hj' & E & Hn & Hs)].
      * left. left. exists c, n. by rewrite <- HL.
      * apply HS in Hc. destruct (decide (b' = block_at a k j)) as [E'|Hne].
        -- right. split; [done|]. rewrite E' in E.
           destruct (small_block_inj x h a c k k' j j' Hok) as (_ & <- & _); done.
        -- left. right. exists c, k', j'. refine (conj _ (conj _ (conj _ (conj _ _)))); try done.
           intros Hf. apply Hn, Hiff. split; [done|]. by intros [_ ?].
    + intros [[(c & n & Hc & E)|(c & k' & j' & Hc & Hj' & E & Hn & Hs)]|[-> ->]].
      * left. exists c, n. by rewrite HL.
      * right. exists c, k', j'. refine (conj _ (conj _ (conj _ (conj _ _)))); try done; [by apply HS|]. by intros [? _]%Hiff.
      * right. exists a, k, j. refine (conj _ (conj _ (conj _ (conj _ _)))); try done; [by apply HS|]. intros [_ Hx]%Hiff. by apply Hx.
Qed.
(** ** [Allocate] *)

Lemma GetBlock_ok (h : t) a k n d j :
  (k < 7)%nat → descs h !! k = Some d → block_size_ d = block_size_at k →
  0 ≤ a → a mod 4096 = 0 → a + 4096 ≤ 2 ^ 32 → 0 ≤ j < n → j < blocks_per_arena k →
  GetBlock a (mkArena (Some k) n false) j h = Ok (block_at a k j).
Proof.
  intros Hk Hd Ed Ha Hm Hle Hj Hjk.
  destruct (block_in_page a k j Hk) as (_ & ? & ?); try done; [lia|].
  pose proof (block_size_pos k Hk). unfold GetBlock. simpl.
  destruct (Z.ltb_spec j n); [|lia]. simpl. rewrite Hd. simpl. rewrite Ed. f_equal.
  unfold block_at, sizeof_MemArena in *. assert (0 ≤ j * block_size_at k) by nia.
  rewrite (u32_small (a + 12)), (u32_small (j * _)), u32_small by lia. lia.
Qed.

Lemma in_arena_cons a b l :
  in_arena a (b :: l) = if decide (GetArena b = a) then b :: in_arena a l else in_arena a l.
Proof. unfold in_arena. rewrite filter_cons. by destruct (decide (GetArena b = a)). Qed.

Lemma in_arena_app a l1 l2 : in_arena a (l1 ++ l2) = in_arena a l1 ++ in_arena a l2.
Proof. apply filter_app. Qed.

(** Replacing a free list keeps the descriptors in shape. *)
Lemma descs_shape x h k l :
  ok_with x h → NoDup l →
  length (descs (set_free k l h)) = 7%nat ∧
  ∀ k' d, descs (set_free k l h) !! k' = Some d → d = desc_at k' (free_blocks_ d) ∧ NoDup (free_blocks_ d).
Proof.
  intros Hok Hl. split; [unfold set_free; simpl; rewrite length_alter; apply (ok_len x h Hok)|].
  intros k' d Hd. rewrite descs_set_free in Hd. case_decide as E; [|by apply (ok_descs x h Hok)].
  destruct (descs h !! k') as [d0|] eqn:Ed; [|done]. simpl in Hd. injection Hd as <-.
  destruct (ok_descs x h Hok k' d0 Ed) as [E0 _]. by rewrite E0.
Qed.

(** Changing the count of an arena keeps the kinds of arenas. *)
Lemma same_arenas_count h a k n n' l s :
  arenas h !! a = Some (mkArena (Some k) n false) →
  same_arenas h (set_arena a (mkArena (Some k) n' false) (mk s (arenas h) l)).
Proof.
  intros Ha. unfold same_arenas, small. simpl. split.
  - intros c m. destruct (decide (c = a)) as [->|].
    + rewrite lookup_insert_eq. split; intros; simplify_eq.
    + by rewrite lookup_insert_ne.
  - intros c k'. destruct (decide (c = a)) as [->|].
    + rewrite lookup_insert_eq. split; intros [m Hm]; simplify_eq; eauto.
    + by rewrite lookup_insert_ne.
Qed.

(** The invariant after a block moved between a free list and its owner: the
    list of [k] and the count of the arena [a] change together. *)
Lemma ok_move x y h k d l a n n' :
  ok_with x h → descs h !! k = Some d → arenas h !! a = Some (mkArena (Some k) n false) →
  NoDup l → (∀ b, b ∈ l → b ∈ free_blocks_ d ∨ ∃ j, 0 ≤ j < blocks_per_arena k ∧ b = block_at a k j) →
  n' = Z.of_nat (length (in_arena a l)) → n' ≤ blocks_per_arena k →
  (a ≠ y → n' < blocks_per_arena k) → (∀ c, c ≠ a → c ≠ 0 → c ≠ x) →
  (∀ c, c ≠ a → in_arena c l = in_arena c (free_blocks_ d)) →
  ok_with y (set_arena a (mkArena (Some k) n' false) (set_free k l h)).
Proof.
  intros Hok Hd Ha Hl Hin Hn' Hle Hlt Hx Hother.
  destruct (descs_shape x h k l Hok Hl) as [Hlen Hds].
  set (h' := set_arena a (mkArena (Some k) n' false) (set_free k l h)).
  destruct (same_arenas_count h a k n n' (descs (set_free k l h)) (pages h) Ha) as [HL HS].
  change (set_arena _ _ _) with h' in HL, HS.
  assert (Hlk : ∀ c, arenas h' !! c = if decide (a = c) then Some (mkArena (Some k) n' false) else arenas h !! c).
  { intros c. unfold h'. simpl. by rewrite lookup_insert. }
  assert (Hdk : descs h' !! k = Some (with_free l d)).
  { change (descs h') with (descs (set_free k l h)). rewrite descs_set_free, decide_True, Hd; done. }
  split; try done.
  - apply (ok_pages x h Hok).
  - intros c ar Hc. rewrite Hlk in Hc. case_decide; [|by eapply (ok_arena x h Hok)]. subst.
    by eapply (ok_arena x h Hok).
  - intros c m k' Hc. rewrite Hlk in Hc. case_decide as E.
    + simplify_eq. by exists (with_free l d).
    + destruct (ok_small x h Hok c m k' Hc) as (d' & Hd' & Hm & Hm1 & Hm2).
      assert (m < blocks_per_arena k').
      { apply Hm2, Hx; [by apply not_eq_sym|].
        destruct (ok_arena x h Hok c _ Hc) as (? & _). lia. }
      destruct (decide (k = k')) as [<-|Hk].
      * exists (with_free l d). simplify_eq. split; [done|]. simpl. rewrite Hother by done. done.
      * exists d'. change (descs h') with (descs (set_free k l h)). rewrite descs_set_free, decide_False by done.
        done.
  - intros c o m Hc. rewrite Hlk in Hc. case_decide as E; [done|].
    destruct (ok_large x h Hok c o m Hc) as (-> & ? & ? & ? & Hno).
    split_and!; try done. intros i Hi. rewrite Hlk. case_decide as E'; [|by apply Hno].
    subst a. by rewrite Hno in Ha.
  - intros c m Hc. rewrite Hlk in Hc. case_decide; [done|]. by apply (ok_kind x h Hok c m).
  - intros k' d' b Hd' Hb. assert (∃ c j, small h c k' ∧ 0 ≤ j < blocks_per_arena k' ∧ b = block_at c k' j)
      as (c & j & Hsm & Hj & ->).
    { destruct (decide (k = k')) as [<-|Hk].
      - rewrite Hdk in Hd'. simplify_eq. simpl in Hb. destruct (Hin b Hb) as [Hb'|(j & Hj & ->)].
        + destruct (ok_free x h Hok k d b Hd Hb') as (c & m & j & Hc & Hj & ->). exists c, j.
          split; [by exists m|done].
        + exists a, j. split; [by exists n|done].
      - change (descs h') with (descs (set_free k l h)) in Hd'. rewrite descs_set_free, decide_False in Hd' by done.
        destruct (ok_free x h Hok k' d' b Hd' Hb) as (c & m & j & Hc & Hj & ->). exists c, j.
        split; [by exists m|done]. }
    apply HS in Hsm as [m Hm]. by exists c, m, j.
Qed.

Lemma pop_block_ok x h k d b l :
  ok_with x h → descs h !! k = Some d → free_blocks_ d = b :: l → (x = 0 ∨ GetArena b = x) →
  ∃ h', pop_block k h = Ok (h', b) ∧ ok h' ∧ b ≠ 0 ∧ grown h h' 0 ∧ (∀ sz, ¬ live h b sz)
    ∧ ∀ b' sz', live h' b' sz' ↔ live h b' sz' ∨ (b' = b ∧ sz' = block_size_at k).
Proof.
  intros Hok Hd Hf Hx. destruct (ok_free x h Hok k d b Hd) as (a & n & j & Ha & Hj & Hb).
  { rewrite Hf. apply list_elem_of_here. }
  assert (Hsm : small h a k) by (by exists n).
  destruct (small_block x h a k j Hok Hsm Hj) as (Hk & HA & Ha0). rewrite <- Hb in HA.
  destruct (ok_small x h Hok a n k Ha) as (d' & Hd' & Hn & Hn1 & Hn2). simplify_eq.
  destruct (ok_descs x h Hok k d Hd) as [_ Hnd]. rewrite Hf in Hnd, Hn1, Hn2.
  rewrite in_arena_cons, decide_True in Hn1, Hn2 by done. simpl in Hn1, Hn2. apply NoDup_cons in Hnd as [Hbl Hnd].
  destruct (block_size_cases k Hk) as (_ & Hbp & _).
  unfold pop_block. rewrite Hd. simpl. rewrite Hf, HA, Ha. simpl. rewrite Hf.
  rewrite in_arena_cons, decide_True by done. cbn [length].
  destruct (Z.ltb_spec 0 (Z.of_nat (Datatypes.S (length (in_arena a l))))); [|lia]. simpl.
  unfold with_count. simpl. rewrite u32_small by lia. eexists. split; [done|].
  match goal with |- ok (set_arena a (mkArena _ ?q _) _) ∧ _ => set (n' := q) in * end.
  assert (Hok' : ok (set_arena a (mkArena (Some k) n' false) (set_free k l h))).
  { eapply (ok_move x 0 h k d l a); try done; try (unfold n'; lia).
    - intros b' Hb'. left. rewrite Hf. by apply list_elem_of_further.
    - intros c Hc. rewrite Hf, in_arena_cons, decide_False by congruence. done. }
  split; [exact Hok'|]. split.
  { unfold block_at. pose proof (block_size_pos k Hk). nia. }
  split; [left; split; [done|]; split; [done|]; by apply (spans_same_span h _ a _ (mkArena (Some k) n' false) Ha)|].
  apply (live_pop x h _ a k j); try done.
  - by eapply (same_arenas_count h).
  - exists d. split; [done|]. rewrite Hf. apply list_elem_of_here.
  - intros k' b'. change (is_free (set_arena _ _ _) k' b') with (is_free (set_free k l h) k' b').
    rewrite (is_free_set k l h d) by done. case_decide as E; [subst k'|].
    + split.
      * intros Hin. split; [exists d; split; [done|]; rewrite Hf; by apply list_elem_of_further|].
        intros [_ ->]. done.
      * intros [(d' & Hd' & Hin) Hne]. simplify_eq. rewrite Hf in Hin.
        apply elem_of_cons in Hin as [->|]; [|done]. by destruct Hne.
    + split; [|tauto]. intros Hfr. split; [done|]. by intros [-> _].
Qed.
(** The pages the heap gets for an arena are not those of any other. *)
Lemma fresh_arena x h s' a n :
  ok_with x h → 0 < n → (∀ i, 0 ≤ i < n → ¬ owned (pages h) (a + i * 4096)) →
  (∀ i, 0 ≤ i < n → arenas h !! (a + i * 4096) = None)
  ∧ (∀ c o m i, arenas h !! c = Some (mkArena o m true) → 0 ≤ i < m → a ≠ c + i * 4096)
  ∧ ((∀ y, owned s' y ↔ owned (pages h) y ∨ ∃ i, 0 ≤ i < n ∧ y = a + i * 4096) →
     ∀ y, owned (pages h) y → owned s' y).
Proof.
  intros Hok Hn Hno. split_and!.
  - intros i Hi. destruct (arenas h !! _) as [ar|] eqn:E; [|done].
    destruct (Hno i Hi). by eapply (ok_arena x h Hok).
  - intros c o m i Hc Hi ->. destruct (ok_large x h Hok c o m Hc) as (_ & _ & _ & Hown & _).
    destruct (Hno 0); [lia|]. replace (c + i * 4096 + 0 * 4096) with (c + i * 4096) by lia. by apply Hown.
  - intros Hiff y Hy. apply Hiff. by left.
Qed.

(** Adding an arena, all of whose free blocks are already accounted for. *)
Lemma ok_add_arena x h s' a ar :
  ok h → pages_ok s' → 0 < a → a mod 4096 = 0 → a + span ar * 4096 ≤ 2 ^ 32 → 0 < span ar →
  (∀ i, 0 ≤ i < span ar → ¬ owned (pages h) (a + i * 4096)) →
  (∀ y, owned s' y ↔ owned (pages h) y ∨ ∃ i, 0 ≤ i < span ar ∧ y = a + i * 4096) →
  (large ar = true → arena_desc ar = None) →
  (large ar = false → ∃ k d, arena_desc ar = Some k ∧ descs h !! k = Some d ∧ x = a
     ∧ count ar = Z.of_nat (length (in_arena a (free_blocks_ d))) ∧ count ar ≤ blocks_per_arena k) →
  ok_with x (set_arena a ar (set_pages s' h)).
Proof.
  intros Hok Hp Ha Hm Hle Hsp Hno Hiff Hlg Hsm.
  destruct (fresh_arena 0 h s' a (span ar) Hok Hsp Hno) as (Hnone & Hout & Hmono).
  assert (Ha0 : arenas h !! a = None) by (rewrite <- (Hnone 0) by lia; f_equal; lia).
  specialize (Hmono Hiff). split; simpl; try done.
  - apply (ok_len 0 h Hok).
  - apply (ok_descs 0 h Hok).
  - intros c ar' Hc. rewrite lookup_insert in Hc. case_decide as E.
    + subst c. split; [done|]. split; [done|]. split; [lia|]. apply Hiff. right. exists 0. lia.
    + destruct (ok_arena 0 h Hok c ar' Hc) as (? & ? & ? & ?). auto.
  - intros c n k Hc. rewrite lookup_insert in Hc. case_decide as E.
    + subst c. simplify_eq. destruct Hsm as (k' & d & E1 & Hd & -> & Hn & Hn'); [done|]. simpl in *.
      simplify_eq. exists d. naive_solver.
    + destruct (ok_small 0 h Hok c n k Hc) as (d & Hd & Hn & Hn1 & Hn2). exists d.
      destruct (ok_arena 0 h Hok c _ Hc) as (? & _). split; [done|]. split; [done|]. split; [done|].
      intros _. apply Hn2. lia.
  - intros c o n Hc. rewrite lookup_insert in Hc. case_decide as E.
    + subst c. simplify_eq. unfold span in *. simpl in *. split; [by apply Hlg|]. split; [done|].
      split; [done|]. split; [intros i Hi; apply Hiff; right; by exists i|].
      intros i Hi. rewrite lookup_insert_ne by lia. apply Hnone. lia.
    + destruct (ok_large 0 h Hok c o n Hc) as (-> & ? & ? & Hown & Hn). split; [done|]. split; [done|].
      split; [done|]. split; [auto|]. intros i Hi. rewrite lookup_insert_ne; [by apply Hn|].
      apply (Hout c None n); [done|lia].
  - intros c n Hc. rewrite lookup_insert in Hc. case_decide as E; [|by apply (ok_kind 0 h Hok c n)].
    subst. simplify_eq. destruct Hsm as (k' & d & E1 & _); done.
  - intros k d b Hd Hb. destruct (ok_free 0 h Hok k d b Hd Hb) as (c & n & j & Hc & Hj & ->).
    exists c, n, j. rewrite lookup_insert_ne; [done|]. intros <-. congruence.
Qed.

Lemma alloc_large_ok h size :
  let n := CalcPageCount (size + sizeof_MemArena) in
  ok h → 0 < size ≤ 2 ^ 32 - 8192 → n ≤ free_page_count (pages h) → room (pages h) n →
  ∃ h' b sz, alloc_large size h = Ok (h', b) ∧ ok h' ∧ b ≠ 0 ∧ grown h h' n ∧ size ≤ sz
    ∧ (∀ sz', ¬ live h b sz')
    ∧ ∀ b' sz', live h' b' sz' ↔ live h b' sz' ∨ (b' = b ∧ sz' = sz).
Proof.
  intros n. subst n. unfold sizeof_MemArena. intros Hok Hs Hc Hroom. pose proof (CalcPageCount_spec (size + 12)) as Hpc.
  set (n := CalcPageCount (size + 12)) in *. unfold alloc_large, sizeof_MemArena.
  rewrite u32_small by lia. fold n.
  destruct (alloc_pages_law (pages h) n (ok_pages 0 h Hok))
    as (s' & a & EA & Hp & Ha & Hm & Hle & Hno & Hiff); [lia|done|]. rewrite EA.
  simpl. destruct (Z.eqb_spec a 0); [lia|]. simpl. set (ar := mkArena None n true).
  exists (set_arena a ar (set_pages s' h)), (a + 12), (n * 4096 - 12).
  rewrite u32_small by lia. split; [done|].
  destruct (fresh_arena 0 h s' a n Hok) as (Hnone & Hout & _); [lia|done|].
  assert (Ha0 : arenas h !! a = None) by (rewrite <- (Hnone 0) by lia; f_equal; lia).
  split; [apply (ok_add_arena 0); done || (unfold span; simpl; lia)|].
  split; [lia|]. split.
  { right. split; [lia|]. exists a. split; [exact EA|]. split; [lia|]. unfold spans. simpl.
    by rewrite lookup_fmap, Ha0, fmap_insert. }
  split; [lia|].
  assert (Hsmall : ∀ c k, small (set_arena a ar (set_pages s' h)) c k ↔ small h c k).
  { intros c k. unfold small. simpl. destruct (decide (c = a)) as [->|].
    - rewrite lookup_insert_eq, Ha0. split; intros [m Hmm]; done.
    - by rewrite lookup_insert_ne. }
  split.
  - intros sz' Hl. destruct (live_range 0 h _ _ Hok Hl) as (c & ar' & Hca & Hb1 & Hb2 & Hsz).
    destruct (ok_arena 0 h Hok c _ Hca) as (Hc0 & Hcm & _ & _).
    assert (Ec : c = a + 0 * 4096 ∨ c < a) by div_lia. destruct Ec as [->|Hlt].
    { rewrite Hnone in Hca by lia. done. }
    destruct ar' as [o m []]; unfold span in Hb2; simpl in Hb2; [|div_lia].
    apply (Hout c o m ((a - c) / 4096) Hca); div_lia.
  - intros b' sz'. unfold live. simpl. setoid_rewrite Hsmall. split.
    + intros [(c & m & Hcm & -> & ->)|Hr]; [|by left; right]. rewrite lookup_insert in Hcm.
      case_decide; [right|left; left; by exists c, m]. by simplify_eq.
    + intros [[(c & m & Hcm & -> & ->)|Hr]|[-> ->]]; [left|by right|left].
      * exists c, m. rewrite lookup_insert_ne by congruence. done.
      * exists a, n. by rewrite lookup_insert_eq.
Qed.
(** Without the addresses or the frames the assertion on the pages fails. *)
Lemma alloc_large_none h size :
  let n := CalcPageCount (size + sizeof_MemArena) in
  ok h → 0 < size ≤ 2 ^ 32 - 8192 → free_page_count (pages h) < n ∨ ¬ room (pages h) n →
  alloc_large size h = Panic.
Proof.
  intros n Hok Hs Hno. pose proof (CalcPageCount_spec (size + 12)) as Hpc. unfold n, sizeof_MemArena in *.
  unfold alloc_large, sizeof_MemArena. rewrite u32_small by lia.
  by destruct (alloc_pages_none (pages h) (CalcPageCount (size + 12)) (ok_pages 0 h Hok) ltac:(lia) Hno) as [s' ->].
Qed.

(** The blocks of an arena, in order. *)
Definition blocks (a : Z) (k : nat) (n : Z) : list Z := block_at a k <$> seqZ 0 n.

Lemma elem_of_blocks a k n b : b ∈ blocks a k n ↔ ∃ j, 0 ≤ j < n ∧ b = block_at a k j.
Proof.
  unfold blocks. rewrite list_elem_of_fmap. setoid_rewrite elem_of_seqZ. split.
  - intros (j & -> & Hj). exists j. split; [lia|done].
  - intros (j & Hj & ->). exists j. split; [done|lia].
Qed.

Lemma NoDup_blocks a k n : (k < 7)%nat → NoDup (blocks a k n).
Proof.
  intros Hk. unfold blocks. apply NoDup_fmap_2; [|apply NoDup_seqZ].
  intros i j E. by apply (block_at_inj a k).
Qed.

Lemma in_arena_all a l : (∀ b, b ∈ l → GetArena b = a) → in_arena a l = l.
Proof.
  intros Hl. unfold in_arena. induction l as [|b l IH]; [done|].
  rewrite filter_cons_True by (apply Hl, list_elem_of_here). f_equal. apply IH.
  intros c Hc. apply Hl. by apply list_elem_of_further.
Qed.

Lemma in_arena_none a l : (∀ b, b ∈ l → GetArena b ≠ a) → in_arena a l = [].
Proof.
  intros Hl. unfold in_arena. induction l as [|b l IH]; [done|].
  rewrite filter_cons_False by (apply Hl, list_elem_of_here). apply IH.
  intros c Hc. apply Hl. by apply list_elem_of_further.
Qed.

Lemma set_free_eq k l (h h' : t) :
  pages h' = pages h → arenas h' = arenas h →
  (∀ k', descs h' !! k' = if decide (k = k') then with_free l <$> descs h !! k' else descs h !! k') →
  h' = set_free k l h.
Proof.
  intros Hp Ha Hd. destruct h' as [p' a' d']; simpl in *; subst. unfold set_free. f_equal.
  apply list_eq. intros i. rewrite Hd. symmetry. apply (descs_set_free k l h i).
Qed.

(** The loop that adds the blocks of a new arena to the empty free list. *)
Lemma add_blocks_ok (h : t) a k d :
  (k < 7)%nat → descs h !! k = Some d → d = desc_at k [] → 0 ≤ a → a mod 4096 = 0 → a + 4096 ≤ 2 ^ 32 →
  let n := blocks_per_arena k in
  for_range (Z.to_nat n) 0 (add_block a (mkArena (Some k) n false) k) h = Ok (set_free k (blocks a k n) h).
Proof.
  intros Hk Hd -> Ha Hm Hle n. destruct (block_size_cases k Hk) as (_ & Hn & _). fold n in Hn.
  destruct (for_range_inv (λ i h', h' = set_free k (blocks a k i) h) (Z.to_nat n) 0
    (add_block a (mkArena (Some k) n false) k) h) as (h' & HL & ->).
  - apply set_free_eq; try done. intros k'. case_decide as E; [|done]. subst. by rewrite Hd.
  - intros i h' Hi ->. set (hi := set_free k (blocks a k i) h).
    assert (Hdi : descs hi !! k = Some (desc_at k (blocks a k i))).
    { unfold hi. by rewrite descs_set_free, decide_True, Hd. }
    unfold add_block. rewrite (GetBlock_ok hi a k n (desc_at k (blocks a k i)) i) by (done || lia || (fold n; lia)).
    rewrite res_bind_ok, Hdi. cbn [of_option]. rewrite res_bind_ok. cbn [free_blocks_ desc_at]. rewrite bool_decide_eq_true_2.
    2:{ rewrite elem_of_blocks. intros (j & Hj & E). apply block_at_inj in E; [lia|done]. }
    simpl. eexists. split; [done|]. apply set_free_eq; try done.
    intros k'. rewrite descs_set_free. unfold hi. rewrite descs_set_free. case_decide as E; [|done].
    subst. rewrite Hd. simpl. unfold with_free. simpl. do 2 f_equal.
    unfold blocks. rewrite seqZ_app by lia. by rewrite fmap_app.
  - rewrite HL. do 3 f_equal. lia.
Qed.

Lemma new_arena_ok h k d :
  ok h → descs h !! k = Some d → free_blocks_ d = [] → 1 ≤ free_page_count (pages h) → room (pages h) 1 →
  ∃ h' d' b l, new_arena k h = Ok h' ∧ ok_with (GetArena b) h' ∧ descs h' !! k = Some d'
    ∧ free_blocks_ d' = b :: l ∧ grown h h' 1 ∧ ∀ b' sz', live h' b' sz' ↔ live h b' sz'.
Proof.
  intros Hok Hd Hf Hc Hroom. pose proof (desc_lt 0 h k d Hok Hd) as Hk.
  destruct (ok_descs 0 h Hok k d Hd) as [Ed _]. rewrite Hf in Ed.
  destruct (block_size_cases k Hk) as (_ & Hn & _). set (n := blocks_per_arena k) in *.
  unfold new_arena.
  destruct (alloc_pages_law (pages h) 1 (ok_pages 0 h Hok))
    as (s' & a & EA & Hp & Ha & Hm & Hle & Hno & Hiff); [lia|done|]. rewrite EA.
  simpl. destruct (Z.eqb_spec a 0); [lia|]. simpl. rewrite Hd. simpl.
  replace (block_count_per_arena_ d) with n by by rewrite Ed.
  set (ar := mkArena (Some k) n false). set (h0 := set_arena a ar (set_pages s' h)).
  pose proof (add_blocks_ok h0 a k d Hk Hd Ed ltac:(lia) Hm ltac:(lia)) as HL. cbv zeta in HL.
  fold n in HL. fold ar in HL. change (count ar) with n. rewrite HL.
  set (L := blocks a k n). set (h' := set_free k L h0).
  assert (HLa : ∀ b, b ∈ L → GetArena b = a).
  { intros b (j & Hj & ->)%elem_of_blocks. apply block_in_page; done || lia. }
  assert (Hlen : Z.of_nat (length L) = n).
  { unfold L, blocks. rewrite length_fmap, length_seqZ. lia. }
  destruct (fresh_arena 0 h s' a 1 Hok) as (Hnone & _ & _); [lia|done|].
  assert (Ha0 : arenas h !! a = None) by (rewrite <- (Hnone 0) by lia; f_equal; lia).
  set (h1 := set_arena a (mkArena (Some k) 0 false) (set_pages s' h)).
  assert (Hok1 : ok_with a h1).
  { apply (ok_add_arena a); try done. intros _. exists k, d. rewrite Hf. simpl. split_and!; done || lia. }
  assert (Hh' : h' = set_arena a ar (set_free k L h1)).
  { unfold h', h0, h1, set_free, set_arena, set_pages. simpl. by rewrite insert_insert_eq. }
  assert (Hok' : ok_with a h').
  { rewrite Hh'. apply (ok_move a a h1 k d L a 0 n); try done.
    - unfold h1. simpl. by rewrite lookup_insert_eq.
    - by apply NoDup_blocks.
    - intros b Hb%elem_of_blocks. by right.
    - by rewrite in_arena_all.
    - intros c Hca. rewrite Hf, in_arena_none; [done|]. intros b Hb. apply HLa in Hb. congruence. }
  assert (Hdk : descs h' !! k = Some (with_free L d)).
  { unfold h'. rewrite descs_set_free, decide_True by done. simpl. by rewrite Hd. }
  destruct L as [|b L'] eqn:EL; [simpl in Hlen; lia|].
  exists h', (with_free (b :: L') d), b, L'. split; [done|].
  rewrite (HLa b) by apply list_elem_of_here. split; [done|]. split; [done|]. split; [done|].
  split.
  { right. split; [lia|]. exists a. split; [exact EA|]. split; [lia|]. unfold spans, h', h0. simpl.
    by rewrite lookup_fmap, Ha0, fmap_insert. }
  assert (Hsmall : ∀ c k', small h' c k' ↔ small h c k' ∨ (c = a ∧ k' = k)).
  { intros c k'. unfold small. unfold h', h0. simpl. destruct (decide (c = a)) as [->|].
    - rewrite lookup_insert_eq, Ha0. split; [intros [m Hmm]; simplify_eq; by right|].
      intros [[m Hmm]|[_ ->]]; [done|by exists n].
    - rewrite lookup_insert_ne by done. split; [by left|]. by intros [|[-> _]]. }
  assert (Hfree : ∀ k' b', is_free h' k' b' ↔ if decide (k = k') then b' ∈ blocks a k n else is_free h k' b').
  { intros k' b'. unfold h'. fold L in EL. rewrite <- EL. by apply (is_free_set k L h0 d). }
  assert (Hnf : ∀ b', ¬ is_free h k b').
  { intros b' (d' & Hd' & Hb'). simplify_eq. rewrite Hf in Hb'. by apply elem_of_nil in Hb'. }
  intros b' sz'. split.
  - intros [(c & m & Hcm & E)|(c & k' & j & Hsm & Hj & -> & Hnf' & ->)].
    + left. exists c, m. split; [|done]. unfold h', h0 in Hcm. simpl in Hcm.
      rewrite lookup_insert in Hcm. by case_decide.
    + apply Hsmall in Hsm as [Hsm|[-> ->]].
      * right. exists c, k', j. refine (conj Hsm (conj Hj (conj eq_refl (conj _ eq_refl)))).
        destruct (decide (k = k')) as [<-|]; [apply Hnf|]. rewrite Hfree, decide_False in Hnf' by done. done.
      * destruct Hnf'. rewrite Hfree, decide_True by done. apply elem_of_blocks. by exists j.
  - intros [(c & m & Hcm & E)|(c & k' & j & Hsm & Hj & -> & Hnf' & ->)].
    + left. exists c, m. split; [|done]. unfold h', h0. simpl. rewrite lookup_insert_ne; [done|].
      intros <-. congruence.
    + right. exists c, k', j. refine (conj _ (conj Hj (conj eq_refl (conj _ eq_refl)))).
      { apply Hsmall. by left. }
      rewrite Hfree. case_decide as E; [subst k'|done]. intros Hin%elem_of_blocks.
      destruct Hin as (i & Hi & E). assert (Hin : block_at c k j ∈ b :: L').
      { rewrite <- EL. unfold L. apply elem_of_blocks. by exists i. }
      apply HLa in Hin. destruct (small_block 0 h c k j Hok Hsm Hj) as (_ & Ec & _).
      destruct Hsm as [m Hm']. congruence.
Qed.

Lemma new_arena_none k h : ok h → ¬ room (pages h) 1 → new_arena k h = Panic.
Proof.
  intros Hok Hno. unfold new_arena.
  by destruct (alloc_pages_none (pages h) 1 (ok_pages 0 h Hok) ltac:(lia) (or_intror Hno)) as [s' ->].
Qed.

(** Block sizes grow with the index, so the first one that holds a request is
    the smallest. *)
Lemma block_size_lt i j : (i < j)%nat → block_size_at i < block_size_at j.
Proof. intros Hij. unfold block_size_at. pose proof (Z.pow_lt_mono_r 2 (Z.of_nat i) (Z.of_nat j)). lia. Qed.

Lemma class_of_eq size k :
  (k < 7)%nat → size ≤ block_size_at k → (∀ i, (i < k)%nat → block_size_at i < size) → class_of size = k.
Proof.
  intros Hk Hle Hlt. unfold class_of. replace 7%nat with (k + (7 - k))%nat by lia.
  rewrite seq_app, filter_app, length_app.
  rewrite (filter_all _ (seq 0 k)), length_seq by (intros i [_ Hi]%elem_of_seq; by apply Hlt).
  replace (filter _ (seq (0 + k) (7 - k))) with ([] : list nat); [simpl; lia|].
  symmetry. apply filter_none. intros i [Hi _]%elem_of_seq Hlt'.
  destruct (decide (i = k)) as [->|]; [lia|]. pose proof (block_size_lt k i ltac:(lia)). lia.
Qed.

Lemma GetMinDesc_ok h size :
  ok h → 0 < size ≤ max_block_size →
  ∃ d, GetMinDesc size (descs h) = Some (class_of size) ∧ descs h !! class_of size = Some d
    ∧ size ≤ block_size_at (class_of size).
Proof.
  intros Hok Hs. unfold GetMinDesc.
  assert (Hbs : ∀ i d, descs h !! i = Some d → block_size_ d = block_size_at i).
  { intros i d Hd. destruct (ok_descs 0 h Hok i d Hd) as [Ed _]. by rewrite Ed. }
  destruct (list_find (λ d, size ≤ block_size_ d) (descs h)) as [[k d]|] eqn:E.
  - apply list_find_Some in E as (Hd & Hle & Hfirst). rewrite (Hbs k d Hd) in Hle.
    pose proof (desc_lt 0 h k d Hok Hd) as Hk.
    assert (class_of size = k) as ->; [|by exists d].
    apply class_of_eq; [done|done|]. intros i Hi.
    destruct (lookup_lt_is_Some_2 (descs h) i) as [di Hdi]; [rewrite (ok_len 0 h Hok); lia|].
    specialize (Hfirst i di Hdi Hi). rewrite (Hbs i di Hdi) in Hfirst. lia.
  - exfalso. apply list_find_None in E. destruct (descs h !! 6%nat) as [d|] eqn:Hd.
    + rewrite Forall_forall in E. apply (E d); [by eapply list_elem_of_lookup_2|].
      rewrite (Hbs _ d Hd). unfold max_block_size in Hs. change (block_size_at 6) with 1024. lia.
    + apply lookup_ge_None in Hd. rewrite (ok_len 0 h Hok) in Hd. lia.
Qed.

(** What [Allocate] promises: a block that was not in use, large enough, no
    other change to the blocks in use, and no more pages taken than needed. *)
Definition allocated (h h' : t) (size b : Z) : Prop :=
  ok h' ∧ b ≠ 0 ∧ grown h h' (pages_needed h size) ∧ ∃ sz, size ≤ sz ∧ (∀ sz', ¬ live h b sz')
    ∧ ∀ b' sz', live h' b' sz' ↔ live h b' sz' ∨ (b' = b ∧ sz' = sz).

(** There are frames, and addresses next to each other, for a request. *)
Definition can_allocate (h : t) (size : Z) : Prop :=
  let n := pages_needed h size in n = 0 ∨ (n ≤ free_page_count (pages h) ∧ room (pages h) n).

Lemma grown_trans_0 h h1 h' n : grown h h1 n → grown h1 h' 0 → grown h h' n.
Proof.
  intros Hg [(_ & Ep & Es)|(? & _)]; [|lia]. unfold grown. rewrite Ep, Es. exact Hg.
Qed.

(** A small request, with the blocks of its size. *)
Lemma Allocate_small_ok h size :
  ok h → 0 < size ≤ max_block_size → size ≤ free_page_count (pages h) * 4096 →
  (can_allocate h size → ∃ h' b, Allocate size h = Ok (h', b) ∧ allocated h h' size b) ∧
  (¬ can_allocate h size → Allocate size h = Panic).
Proof.
  intros Hok Hs Hf. pose proof (free_page_count_range (pages h) (ok_pages 0 h Hok)) as Hr.
  unfold Allocate, allocated, can_allocate, pages_needed. destruct (Z.ltb_spec 0 size); [|lia]. simpl.
  rewrite page_size_eq, u32_small by lia.
  destruct (Z.ltb_spec (free_page_count (pages h) * 4096) size); [lia|].
  destruct (Z.ltb_spec max_block_size size); [lia|].
  destruct (GetMinDesc_ok h size Hok Hs) as (d & -> & Hd & Hle). set (k := class_of size) in *. rewrite Hd. simpl.
  destruct (free_blocks_ d) as [|b l] eqn:Hfb.
  - split.
    + intros [|[_ Hroom]]; [lia|].
      destruct (new_arena_ok h k d Hok Hd Hfb) as (h1 & d1 & b & l & -> & Hok1 & Hd1 & Hf1 & Hg1 & Hl1); [lia|done|].
      simpl. destruct (pop_block_ok (GetArena b) h1 k d1 b l Hok1 Hd1 Hf1) as (h' & -> & Hok' & Hb & Hg & Hn & Hiff);
        [by right|].
      exists h', b. split; [done|]. split; [done|]. split; [done|]. split; [by apply (grown_trans_0 h h1)|].
      exists (block_size_at k). split; [done|].
      split; [intros sz'; rewrite <- Hl1; apply Hn|]. intros b' sz'. by rewrite Hiff, Hl1.
    + intros Hno. rewrite new_arena_none; [done|done|]. intros Hr1. apply Hno. right. split; [lia|done].
  - split; [|intros Hno; exfalso; apply Hno; by left]. intros _. simpl.
    destruct (pop_block_ok 0 h k d b l Hok Hd Hfb) as (h' & -> & Hok' & Hb & Hg & Hn & Hiff); [by left|].
    exists h', b. split; [done|]. split; [done|]. split; [done|]. split; [done|]. by exists (block_size_at k).
Qed.

Lemma Allocate_ok h size :
  ok h → 0 < size ≤ 2 ^ 32 - 8192 → size ≤ free_page_count (pages h) * 4096 →
  (can_allocate h size → ∃ h' b, Allocate size h = Ok (h', b) ∧ allocated h h' size b) ∧
  (¬ can_allocate h size → Allocate size h = Panic).
Proof.
  intros Hok Hs Hf. destruct (Z.le_gt_cases size max_block_size) as [Hsm|Hlg].
  { apply Allocate_small_ok; [done|lia|done]. }
  pose proof (free_page_count_range (pages h) (ok_pages 0 h Hok)) as Hr.
  pose proof (CalcPageCount_spec (size + 12)) as Hpc.
  assert (E : Allocate size h = alloc_large size h).
  { unfold Allocate. destruct (Z.ltb_spec 0 size); [|lia]. simpl. rewrite page_size_eq, u32_small by lia.
    destruct (Z.ltb_spec (free_page_count (pages h) * 4096) size); [lia|].
    destruct (Z.ltb_spec max_block_size size); [done|lia]. }
  rewrite E. unfold can_allocate, allocated, pages_needed. destruct (Z.ltb_spec max_block_size size); [|lia]. split.
  - intros [|[Hc Hroom]]; [unfold sizeof_MemArena in *; lia|].
    destruct (alloc_large_ok h size Hok Hs Hc Hroom) as (h' & b & sz & EA & ? & ? & ? & ? & ? & ?).
    exists h', b. split; [done|]. split; [done|]. split; [done|]. split; [done|]. by exists sz.
  - intros Hno. apply alloc_large_none; [done|done|].
    destruct (Z.le_gt_cases (CalcPageCount (size + sizeof_MemArena)) (free_page_count (pages h))); [|by left].
    right. intros Hroom. apply Hno. by right.
Qed.

(** No frames for the request: null. *)
Lemma Allocate_null h size :
  ok h → 0 < size → free_page_count (pages h) * 4096 < size → Allocate size h = Ok (h, 0).
Proof.
  intros Hok Hs Hf. pose proof (free_page_count_range (pages h) (ok_pages 0 h Hok)) as Hr.
  unfold Allocate. destruct (Z.ltb_spec 0 size); [|lia]. simpl. rewrite page_size_eq, u32_small by lia.
  destruct (Z.ltb_spec (free_page_count (pages h) * 4096) size); [done|lia].
Qed.

Lemma allocated_apart h h' size b b' sz' :
  allocated h h' size b → live h b' sz' → b' + sz' ≤ b ∨ b + size ≤ b'.
Proof.
  intros (Hok' & _ & _ & sz & Hsz & Hn & Hl) Hl'. assert (Hb : live h' b sz) by (apply Hl; by right).
  assert (Hb' : live h' b' sz') by (apply Hl; by left).
  destruct (Z.lt_trichotomy b b') as [Hlt|[->|Hlt]].
  - right. pose proof (live_disjoint_lt 0 h' b b' sz sz' Hok' Hb Hb' Hlt). lia.
  - by apply Hn in Hl'.
  - left. apply (live_disjoint_lt 0 h' b' b sz' sz Hok' Hb' Hb Hlt).
Qed.
(** ** [Free] *)

(** Removing an arena and its blocks. *)
Lemma ok_delete h a ar s' ds :
  ok_with a h → arenas h !! a = Some ar → pages_ok s' →
  (∀ y, owned s' y ↔ owned (pages h) y ∧ ¬ ∃ i, 0 ≤ i < span ar ∧ y = a + i * 4096) →
  length ds = 7%nat →
  (∀ k d', ds !! k = Some d' → d' = desc_at k (free_blocks_ d') ∧ NoDup (free_blocks_ d')) →
  (∀ k d, descs h !! k = Some d → ∃ d', ds !! k = Some d'
     ∧ (∀ b, b ∈ free_blocks_ d' → b ∈ free_blocks_ d ∧ GetArena b ≠ a)
     ∧ ∀ c, c ≠ a → in_arena c (free_blocks_ d') = in_arena c (free_blocks_ d)) →
  ok (mk s' (delete a (arenas h)) ds).
Proof.
  intros Hok Ha Hp Hiff Hlen Hsh Hds.
  assert (Hout : ∀ c ar', arenas h !! c = Some ar' → c ≠ a → ∀ i, 0 ≤ i < span ar' →
    owned (pages h) (c + i * 4096) → owned s' (c + i * 4096)).
  { intros c ar' Hc Hne i Hi Ho. apply Hiff. split; [done|]. intros (j & Hj & E).
    destruct (Z.lt_trichotomy a c) as [Hlt|[->|Hlt]]; [|done|].
    - pose proof (arenas_apart_lt a h a c ar ar' Hok Ha Hc Hlt). lia.
    - pose proof (arenas_apart_lt a h c a ar' ar Hok Hc Ha Hlt). lia. }
  split; simpl; try done.
  - intros c ar' Hc. apply lookup_delete_Some in Hc as [Hne Hc].
    destruct (ok_arena a h Hok c ar' Hc) as (? & ? & ? & Ho). split_and!; try done.
    replace c with (c + 0 * 4096) by lia. apply (Hout c ar' Hc); [by apply not_eq_sym| |].
    + pose proof (span_pos a h c ar' Hok Hc). lia.
    + by replace (c + 0 * 4096) with c by lia.
  - intros c n k Hc. apply lookup_delete_Some in Hc as [Hne Hc].
    destruct (ok_small a h Hok c n k Hc) as (d & Hd & -> & Hn1 & Hn2).
    destruct (Hds k d Hd) as (d' & Hd' & _ & Hin). exists d'. rewrite Hin by done. auto.
  - intros c o n Hc. apply lookup_delete_Some in Hc as [Hne Hc].
    destruct (ok_large a h Hok c o n Hc) as (-> & ? & ? & Ho & Hn). split; [done|]. split; [done|].
    split; [done|]. split.
    + intros i Hi. apply (Hout c _ Hc); [by apply not_eq_sym|done|by apply Ho].
    + intros i Hi. apply lookup_delete_None. right. by apply Hn.
  - intros c n Hc. apply lookup_delete_Some in Hc as [_ Hc]. by apply (ok_kind a h Hok c n).
  - intros k d' b Hd' Hb. destruct (lookup_lt_is_Some_2 (descs h) k) as [d Hd].
    { rewrite (ok_len a h Hok), <- Hlen. by apply lookup_lt_Some in Hd'. }
    destruct (Hds k d Hd) as (d'' & Hd'' & Hin & _). simplify_eq. destruct (Hin b Hb) as [Hb' Hne].
    destruct (ok_free a h Hok k d b Hd Hb') as (c & n & j & Hc & Hj & ->). exists c, n, j.
    rewrite lookup_delete_ne; [done|]. intros <-.
    by destruct (small_block a h a k j Hok) as (_ & ? & _); [exists n|..].
Qed.

(** An arena whose blocks are all free: every one of them is in the list. *)
Lemma all_blocks_free x h a k d :
  ok_with x h → arenas h !! a = Some (mkArena (Some k) (blocks_per_arena k) false) →
  descs h !! k = Some d → ∀ b, b ∈ blocks a k (blocks_per_arena k) → b ∈ free_blocks_ d.
Proof.
  intros Hok Ha Hd b Hb. destruct (ok_small x h Hok a _ k Ha) as (d' & Hd' & Hn & _). simplify_eq.
  pose proof (desc_lt x h k d Hok Hd) as Hk. destruct (ok_descs x h Hok k d Hd) as [_ Hnd].
  assert (Hin : b ∈ in_arena a (free_blocks_ d)); [|by apply list_elem_of_filter in Hin as [_ ?]].
  apply list_elem_of_In. apply (NoDup_length_incl (l := in_arena a (free_blocks_ d))
    (l' := blocks a k (blocks_per_arena k))); [| | |by apply list_elem_of_In].
  - apply NoDup_ListNoDup. by apply NoDup_filter.
  - unfold blocks. rewrite length_fmap, length_seqZ. lia.
  - intros c Hc%list_elem_of_In. apply list_elem_of_In. apply list_elem_of_filter in Hc as [Hca Hc].
    destruct (ok_free x h Hok k d c Hd Hc) as (a' & n & j & Ha' & Hj & ->).
    destruct (small_block x h a' k j Hok) as (_ & E & _); [by exists n|done|].
    apply elem_of_blocks. exists j. rewrite E in Hca. by subst.
Qed.

Lemma detach_blocks_ok x h a k d :
  ok_with x h → arenas h !! a = Some (mkArena (Some k) (blocks_per_arena k) false) →
  descs h !! k = Some d →
  let n := blocks_per_arena k in
  for_range (Z.to_nat n) 0 (detach_block a (mkArena (Some k) n false) k) h
  = Ok (set_free k (filter (λ b, GetArena b ≠ a) (free_blocks_ d)) h).
Proof.
  intros Hok Ha Hd n. pose proof (desc_lt x h k d Hok Hd) as Hk.
  destruct (block_size_cases k Hk) as (_ & Hn & _). fold n in Hn.
  destruct (ok_arena x h Hok a _ Ha) as (Ha0 & Ham & Hal & _).
  destruct (ok_descs x h Hok k d Hd) as [Ed _].
  set (F := λ i, filter (λ b, b ∉ blocks a k i) (free_blocks_ d)).
  destruct (for_range_inv (λ i h', h' = set_free k (F i) h) (Z.to_nat n) 0
    (detach_block a (mkArena (Some k) n false) k) h) as (h' & HL & ->).
  - apply set_free_eq; try done. intros k'. case_decide as E; [|done]. subst k'. rewrite Hd. simpl. f_equal.
    unfold F. rewrite filter_all by (intros c _; apply not_elem_of_nil). by destruct d.
  - intros i h' Hi ->. set (hi := set_free k (F i) h).
    assert (Hdi : descs hi !! k = Some (with_free (F i) d)).
    { unfold hi. by rewrite descs_set_free, decide_True, Hd. }
    assert (Hbs : block_size_ (with_free (F i) d) = block_size_at k) by by rewrite Ed.
    unfold detach_block. rewrite (GetBlock_ok hi a k n _ i Hk Hdi Hbs) by (done || lia || (fold n; lia)).
    rewrite res_bind_ok, Hdi. cbn [of_option]. rewrite res_bind_ok. cbn [free_blocks_ with_free].
    rewrite bool_decide_eq_true_2.
    2:{ apply list_elem_of_filter. split.
        - rewrite elem_of_blocks. intros (j & Hj & E). apply block_at_inj in E; [lia|done].
        - apply (all_blocks_free x h a k d); try done. apply elem_of_blocks. exists i. split; [lia|done]. }
    simpl. eexists. split; [done|]. apply set_free_eq; try done.
    intros k'. rewrite descs_set_free. unfold hi. rewrite descs_set_free. case_decide as E; [|done].
    subst k'. rewrite Hd. simpl. unfold with_free. simpl. do 2 f_equal. unfold F.
    rewrite list_filter_filter. apply filter_ext_in. intros c _. rewrite !elem_of_blocks. split.
    + intros [Hc1 Hc2] (j & Hj & ->). destruct (decide (j = i)) as [->|]; [done|].
      apply Hc2. exists j. split; [lia|done].
    + intros Hc. split; [|intros (j & Hj & ->)]; [intros ->|]; apply Hc; [exists i|exists j]; split; lia || done.
  - rewrite HL. f_equal. f_equal. replace (0 + Z.of_nat (Z.to_nat n)) with n by lia. unfold F.
    apply filter_ext_in. intros c Hc. rewrite elem_of_blocks. split.
    + intros Hno E. apply Hno. destruct (ok_free x h Hok k d c Hd Hc) as (a' & m & j & Ha' & Hj & ->).
      destruct (small_block x h a' k j Hok) as (_ & E' & _); [by exists m|done|]. exists j.
      rewrite E' in E. by subst.
    + intros Hne (j & Hj & ->). apply Hne.
      by destruct (small_block x h a k j Hok) as (_ & E' & _); [by eexists|..].
Qed.
(** Giving a live block back puts it on its free list. *)
Lemma push_ok h a n k d j :
  ok h → arenas h !! a = Some (mkArena (Some k) n false) → descs h !! k = Some d →
  0 ≤ j < blocks_per_arena k → block_at a k j ∉ free_blocks_ d →
  let b := block_at a k j in
  let h' := set_arena a (mkArena (Some k) (n + 1) false) (set_free k (free_blocks_ d ++ [b]) h) in
  0 ≤ n < blocks_per_arena k ∧ ok_with a h' ∧ (n + 1 < blocks_per_arena k → ok h')
  ∧ ∀ b' sz', live h' b' sz' ↔ live h b' sz' ∧ b' ≠ b.
Proof.
  intros Hok Ha Hd Hj Hb b h'. destruct (ok_small 0 h Hok a n k Ha) as (d0 & Hd0 & Hn & _ & Hlt).
  assert (d0 = d) as -> by congruence.
  assert (Hsm : small h a k) by (by exists n).
  destruct (small_block 0 h a k j Hok Hsm Hj) as (Hk & Hab & Ha0). specialize (Hlt ltac:(lia)).
  destruct (ok_descs 0 h Hok k d Hd) as [_ Hnd].
  assert (Hmove : ∀ y, (a ≠ y → n + 1 < blocks_per_arena k) → ok_with y h').
  { intros y Hy. apply (ok_move 0 y h k d _ a n (n + 1)); try done; try lia.
    - apply NoDup_app. split; [done|]. split; [|apply NoDup_singleton].
      intros c Hc E. apply list_elem_of_singleton in E. by subst c.
    - intros c Hc. apply elem_of_app in Hc as [Hc|Hc]; [by left|right].
      apply list_elem_of_singleton in Hc as ->. by exists j.
    - rewrite in_arena_app, length_app, in_arena_cons, decide_True by done. simpl. lia.
    - intros c Hc. rewrite in_arena_app, in_arena_cons, decide_False by (unfold b; congruence). by rewrite app_nil_r. }
  split; [lia|]. split; [by apply Hmove|]. split; [intros ?; by apply Hmove|].
  assert (Hok' : ok_with a h') by by apply Hmove.
  assert (Hsame : same_arenas h' h).
  { destruct (same_arenas_count h a k n (n + 1) (descs h') (pages h) Ha) as [HL HS]. split; intros; symmetry.
    - apply HL. - apply HS. }
  assert (Hfree : ∀ k' b', is_free h' k' b' ↔ is_free h k' b' ∨ (k' = k ∧ b' = b)).
  { intros k' b'. change (is_free h' k' b') with (is_free (set_free k (free_blocks_ d ++ [b]) h) k' b').
    rewrite (is_free_set k _ h d) by done. case_decide as E.
    - subst k'. rewrite elem_of_app, list_elem_of_singleton. split.
      + intros [?| ->]; [left; by exists d|by right].
      + intros [(d' & Hd' & ?)|[_ ->]]; [left; congruence|by right].
    - split; [by left|]. by intros [|[-> _]]. }
  destruct (live_pop a h' h a k j b Hok' Hsame) as [Hnl Hl]; try done.
  - unfold small, h'. simpl. rewrite lookup_insert_eq. by eexists.
  - apply Hfree. by right.
  - intros k' b'. rewrite Hfree. split.
    + intros Hf. split; [by left|]. intros [-> ->]. destruct Hf as (d' & Hd' & Hf). by simplify_eq.
    + intros [[|] Hne]; [done|]. by destruct Hne.
  - intros b' sz'. split.
    + intros Hl'. split; [apply Hl; by left|]. intros ->. by apply Hnl in Hl'.
    + intros [Hl' Hne]. apply Hl in Hl' as [|[-> _]]; done.
Qed.

Lemma shrunk_delete h a ar s' ds :
  arenas h !! a = Some ar → free_pages a (span ar) (pages h) = Ok s' →
  shrunk h (mk s' (delete a (arenas h)) ds).
Proof.
  intros Ha HF. right. exists a, (span ar). unfold spans. simpl.
  by rewrite lookup_fmap, Ha, fmap_delete.
Qed.

(** Giving an arena whose blocks are all free back to the pages. *)
Lemma free_arena_small_ok h a k d :
  ok_with a h → arenas h !! a = Some (mkArena (Some k) (blocks_per_arena k) false) →
  descs h !! k = Some d →
  ∃ h', free_arena a 1 (set_free k (filter (λ b, GetArena b ≠ a) (free_blocks_ d)) h) = Ok h' ∧ ok h'
    ∧ shrunk h h' ∧ ∀ b sz, live h' b sz ↔ live h b sz.
Proof.
  intros Hok Ha Hd. set (F := filter (λ b, GetArena b ≠ a) (free_blocks_ d)).
  destruct (ok_arena a h Hok a _ Ha) as (_ & _ & _ & Hown).
  destruct (ok_descs a h Hok k d Hd) as [_ Hnd].
  destruct (free_pages_law (pages h) a 1 (ok_pages a h Hok)) as (s' & HF & Hp & Hiff); [lia| |].
  { intros i Hi. by replace (a + i * 4096) with a by lia. }
  unfold free_arena. change (pages (set_free k F h)) with (pages h). rewrite HF. simpl.
  eexists. split; [done|].
  destruct (descs_shape a h k F Hok) as [Hlen Hsh]; [by apply NoDup_filter|].
  assert (Hother : ∀ k' b, k' ≠ k → is_free h k' b → GetArena b ≠ a).
  { intros k' b Hne (d' & Hd' & Hb) E. destruct (ok_free a h Hok k' d' b Hd' Hb) as (c & n & j & Hc & Hj & ->).
    destruct (small_block a h c k' j Hok) as (_ & Ec & _); [by exists n|done|]. congruence. }
  change (descs (set_free k F h)) with (descs (set_free k F h)).
  split.
  - apply (ok_delete h a _ s' (descs (set_free k F h)) Hok Ha); try done.
    intros k' d' Hd'. rewrite descs_set_free. case_decide as E.
    + subst k'. rewrite Hd. assert (d' = d) as -> by congruence. exists (with_free F d). split; [done|]. simpl. split.
      * intros b [Hb1 Hb2]%list_elem_of_filter. done.
      * intros c Hc. unfold in_arena, F. rewrite list_filter_filter. apply filter_ext_in.
        intros b _. split; [by intros [? _]|]. intros <-. split; [done|]. done.
    + exists d'. split; [done|]. split; [|done]. intros b Hb. split; [done|].
      apply (Hother k'); [done|by exists d'].
  - split; [by apply (shrunk_delete h a _ s' _ Ha)|].
    assert (Hsm : ∀ c k', small (mk s' (delete a (arenas h)) (descs (set_free k F h))) c k'
      ↔ small h c k' ∧ c ≠ a).
    { intros c k'. unfold small. simpl. split.
      - intros [m Hm]. apply lookup_delete_Some in Hm as [? ?]. split; [by exists m|done].
      - intros [[m Hm] Hne]. exists m. apply lookup_delete_Some. auto. }
    assert (Hfr : ∀ c k' j, small h c k' → c ≠ a → 0 ≤ j < blocks_per_arena k' →
      is_free (set_free k F h) k' (block_at c k' j) ↔ is_free h k' (block_at c k' j)).
    { intros c k' j Hc Hne Hj. rewrite (is_free_set k F h d) by done. case_decide as E; [|done]. subst k'.
      destruct (small_block a h c k j Hok Hc Hj) as (_ & Ec & _). unfold F.
      rewrite list_elem_of_filter, Ec. split; [intros [_ ?]; by exists d|].
      intros (d' & Hd' & ?). by simplify_eq. }
    intros b sz. split.
    + intros [(c & m & Hm & E)|(c & k' & j & Hc & Hj & -> & Hnf & ->)].
      * left. exists c, m. simpl in Hm. apply lookup_delete_Some in Hm as [_ ?]. done.
      * apply Hsm in Hc as [Hc Hne]. right. exists c, k', j.
        refine (conj Hc (conj Hj (conj eq_refl (conj _ eq_refl)))). rewrite <- Hfr; done.
    + intros [(c & m & Hm & E)|(c & k' & j & Hc & Hj & -> & Hnf & ->)].
      * left. exists c, m. split; [|done]. simpl. apply lookup_delete_Some. split; [congruence|done].
      * destruct (decide (c = a)) as [->|Hne].
        { exfalso. destruct Hc as [m Hm]. assert (k' = k) as -> by congruence. apply Hnf. exists d.
          split; [done|]. apply (all_blocks_free a h a k d); try done. apply elem_of_blocks. by exists j. }
        right. exists c, k', j. refine (conj _ (conj Hj (conj eq_refl (conj _ eq_refl)))); [by apply Hsm|].
        intros Hf. apply Hnf. by apply Hfr in Hf.
Qed.

Lemma free_small_ok h a n k d j :
  ok h → arenas h !! a = Some (mkArena (Some k) n false) → descs h !! k = Some d →
  0 ≤ j < blocks_per_arena k → block_at a k j ∉ free_blocks_ d →
  ∃ h', free_small a (mkArena (Some k) n false) (block_at a k j) h = Ok h' ∧ ok h' ∧ shrunk h h'
    ∧ ∀ b' sz', live h' b' sz' ↔ live h b' sz' ∧ b' ≠ block_at a k j.
Proof.
  intros Hok Ha Hd Hj Hb. pose proof (desc_lt 0 h k d Hok Hd) as Hk.
  destruct (block_size_cases k Hk) as (_ & Hbp & _).
  destruct (push_ok h a n k d j Hok Ha Hd Hj Hb) as (Hn & Hok1 & Hok2 & Hl).
  set (b := block_at a k j) in *. unfold free_small. cbn [arena_desc]. rewrite Hd. simpl.
  unfold with_count. cbn [count arena_desc large]. rewrite u32_small by lia.
  destruct (ok_descs 0 h Hok k d Hd) as [Ed _].
  replace (block_count_per_arena_ d) with (blocks_per_arena k) by by rewrite Ed.
  set (h1 := set_arena a (mkArena (Some k) (n + 1) false) (set_free k (free_blocks_ d ++ [b]) h)) in *.
  assert (Hsp : spans h1 = spans h) by by apply (spans_same_span h _ a _ (mkArena (Some k) (n + 1) false) Ha).
  destruct (Z.eqb_spec (n + 1) (blocks_per_arena k)) as [E|E].
  - assert (Hd1 : descs h1 !! k = Some (with_free (free_blocks_ d ++ [b]) d)).
    { change (descs h1) with (descs (set_free k (free_blocks_ d ++ [b]) h)).
      by rewrite descs_set_free, decide_True, Hd. }
    assert (Ha1 : arenas h1 !! a = Some (mkArena (Some k) (blocks_per_arena k) false)).
    { unfold h1. simpl. by rewrite lookup_insert_eq, E. }
    rewrite E. rewrite (detach_blocks_ok a h1 a k _ Hok1 Ha1 Hd1). simpl.
    destruct (free_arena_small_ok h1 a k _ Hok1 Ha1 Hd1) as (h' & HF & Hok' & Hsh & Hl').
    exists h'. split; [exact HF|]. split; [done|]. split; [|intros b' sz'; by rewrite Hl', Hl].
    unfold shrunk in *. by rewrite <- Hsp.
  - eexists. split; [done|]. split; [apply Hok2; lia|]. split; [by left|done].
Qed.

Lemma free_large_ok h a n :
  ok h → arenas h !! a = Some (mkArena None n true) →
  ∃ h', free_arena a n h = Ok h' ∧ ok h' ∧ shrunk h h'
    ∧ ∀ b' sz', live h' b' sz' ↔ live h b' sz' ∧ b' ≠ a + 12.
Proof.
  intros Hok Ha. destruct (ok_large 0 h Hok a _ n Ha) as (_ & Hn & _ & Hown & _).
  destruct (free_pages_law (pages h) a n (ok_pages 0 h Hok) Hn Hown) as (s' & HF & Hp & Hiff).
  unfold free_arena. rewrite HF. simpl. eexists. split; [done|].
  assert (Hok' : ok_with a h).
  { destruct Hok as [H1 H2 H3 H4 H5 H6 H7 H8]. split; try done. intros c m k Hc.
    destruct (H5 c m k Hc) as (d & ? & ? & ? & Hlt). exists d. split_and!; try done.
    intros _. apply Hlt. destruct (H4 c _ Hc). lia. }
  split.
  - apply (ok_delete h a (mkArena None n true) s' (descs h) Hok' Ha); try done;
      [apply (ok_len 0 h Hok)|apply (ok_descs 0 h Hok)|].
    intros k d Hd. exists d. split; [done|]. split; [|done]. intros b Hb. split; [done|]. intros E.
    destruct (ok_free 0 h Hok k d b Hd Hb) as (c & m & j & Hc & Hj & ->).
    destruct (small_block 0 h c k j Hok) as (_ & Ec & _); [by exists m|done|]. congruence.
  - split; [by apply (shrunk_delete h a _ s' _ Ha)|].
    assert (Hsm : ∀ c k, small (mk s' (delete a (arenas h)) (descs h)) c k ↔ small h c k).
    { intros c k. unfold small. simpl. split; intros [m Hm]; exists m.
      - by apply lookup_delete_Some in Hm as [_ ?].
      - apply lookup_delete_Some. split; [congruence|done]. }
    intros b' sz'. unfold live at 1. setoid_rewrite Hsm. split.
    + intros [(c & m & Hm & -> & ->)|Hr].
      * simpl in Hm. apply lookup_delete_Some in Hm as [Hne Hm]. split; [left; by exists c, m|lia].
      * split; [by right|]. destruct Hr as (c & k & j & Hc & Hj & -> & _ & _).
        by apply (small_not_large 0 h c k j a n).
    + intros [[(c & m & Hm & -> & ->)|Hr] Hne]; [left|by right]. exists c, m. split; [|done]. simpl.
      apply lookup_delete_Some. split; [|done]. intros <-. by apply Hne.
Qed.

Lemma heap_Free_ok h b sz :
  ok h → live h b sz →
  ∃ h', Free b h = Ok h' ∧ ok h' ∧ shrunk h h' ∧ ∀ b' sz', live h' b' sz' ↔ live h b' sz' ∧ b' ≠ b.
Proof.
  intros Hok Hl. unfold Free.
  destruct Hl as [(a & n & Ha & -> & _)|(a & k & j & [n Ha] & Hj & -> & Hnf & _)].
  - destruct (ok_arena 0 h Hok a _ Ha) as (Ha0 & Ham & Hal & _).
    destruct (Z.eqb_spec (a + 12) 0); [lia|].
    replace (GetArena (a + 12)) with a
      by (unfold GetArena; rewrite VrAddr.GetPageAddr_eq by lia; div_lia).
    rewrite Ha. simpl. by apply free_large_ok.
  - destruct (small_block 0 h a k j Hok) as (Hk & E & Ha0); [by exists n|done|].
    destruct (Z.eqb_spec (block_at a k j) 0) as [E0|].
    { unfold block_at in E0. pose proof (block_size_pos k Hk). nia. }
    rewrite E, Ha. simpl. destruct (ok_small 0 h Hok a n k Ha) as (d & Hd & _).
    apply (free_small_ok h a n k d j); try done. intros Hin. apply Hnf. by exists d.
Qed.

(** C29. [Allocate] on a well-formed heap, in all cases. When the free frames
    hold fewer bytes than the request it returns null and changes nothing.
    Otherwise it needs no pages when a block of the smallest size that holds the
    request is free, one page for the blocks of that size when none is, and the
    pages of the request and its header above 1024 bytes. If there are frames
    and consecutive addresses for these, it returns a block of at least the
    requested size that overlaps no block in use, takes just these pages and
    changes no other block; the heap stays well formed. If not, its assertion on
    the pages fails. This holds over any pages that obey the laws. *)
Theorem Allocate_fresh_block h size :
  ok h → 0 < size ≤ 2 ^ 32 - 8192 →
  let free := free_page_count (pages h) in
  let n := pages_needed h size in
  (free * 4096 < size → Allocate size h = Ok (h, 0)) ∧
  (size ≤ free * 4096 → n = 0 ∨ n ≤ free ∧ room (pages h) n →
   ∃ h' b, Allocate size h = Ok (h', b) ∧ allocated h h' size b
     ∧ ∀ b' sz', live h b' sz' → b' + sz' ≤ b ∨ b + size ≤ b') ∧
  (size ≤ free * 4096 → n ≠ 0 → free < n ∨ ¬ room (pages h) n → Allocate size h = Panic).
Proof.
  intros Hok Hs free n. split; [apply Allocate_null; [done|lia]|].
  split; intros Hf; destruct (Allocate_ok h size Hok Hs Hf) as [HA HP].
  - intros Hcan. destruct (HA Hcan) as (h' & b & E & Hal). exists h', b. split; [done|]. split; [done|].
    intros b' sz'. by apply (allocated_apart h h').
  - intros Hn Hno. apply HP. unfold can_allocate. fold n. intros [|[? ?]]; [done|].
    destruct Hno as [|Hno]; [unfold free in *; lia|by apply Hno].
Qed.

(** C30. [Free] of a block in use always returns, takes exactly that block out
    of use (giving its pages back when its arena is empty) and keeps the heap
    well formed. *)
Theorem Free_block h b sz :
  ok h → live h b sz →
  ∃ h', Free b h = Ok h' ∧ ok h' ∧ ∀ b' sz', live h' b' sz' ↔ live h b' sz' ∧ b' ≠ b.
Proof. intros Hok Hl. destruct (heap_Free_ok h b sz Hok Hl) as (h' & ? & ? & _ & ?). eauto. Qed.

(** The heap after [MemBlockDescTab_Init]. *)
Lemma MemBlockDescTab_Init_eq :
  MemBlockDescTab_Init = Ok ((λ k, desc_at k []) <$> seq 0 7).
Proof. vm_compute. reflexivity. Qed.

Lemma empty_heap_ok s : pages_ok s → ok (mk s ∅ ((λ k, desc_at k []) <$> seq 0 7)).
Proof.
  intros Hp. split; simpl; try done.
  - intros k d Hd. assert (d = desc_at k []) as ->; [|split; [done|constructor]].
    do 7 (destruct k as [|k]; [by simplify_eq/=|]). done.
  - intros k d b Hd Hb. assert (d = desc_at k []) as ->; [|by apply elem_of_nil in Hb].
    do 7 (destruct k as [|k]; [by simplify_eq/=|]). done.
Qed.
End heap.
Arguments t S : clear implicits.
End MemHeap.

(** ** The kernel's pages implement the interface *)
Module KernelHeap.
Import Machine KernelPages.

#[export] Instance kernel_pages : PageAllocator Machine.t := {
  free_page_count m := PhyMemPagePool.GetFreeCount (krnl_pool m);
  alloc_pages := Pages.alloc_pages MemInit.Kernel;
  free_pages := Pages.free_pages MemInit.Kernel
}.

Definition kernel_owned (m : Machine.t) (x : Z) : Prop :=
  ∃ i, 0 ≤ i < PagePool.capacity (heap_pool m) ∧ PagePool.taken (heap_pool m) i = true ∧ x = page m i.

Definition kernel_room (m : Machine.t) (n : Z) : Prop :=
  ∃ s, Bitmap.free_run (PagePool.bitmap_ (heap_pool m)) s n.

Lemma kernel_alloc_none m n :
  kowned m → 0 < n → free_page_count m < n ∨ ¬ kernel_room m n → ∃ m', alloc_pages n m = Ok (m', 0).
Proof.
  intros Ho Hn Hno. pose proof (ko_heap m (ko_pages m Ho)) as Hh.
  destruct (alloc_pages_cases m n Hh Hn) as [[E _]|(s & [Hrun _] & Hc)]; [by exists m|].
  destruct Hno as [Hf|Hno]; [|by destruct Hno; exists s].
  destruct Hc as [(Hle & _)|[(_ & m' & E & _)|(_ & ap & E & _)]]; [|by exists m'|by eexists].
  unfold free_page_count, kernel_pages, PhyMemPagePool.GetFreeCount in Hf. lia.
Qed.

Lemma kernel_alloc_law m n :
  kowned m → 0 < n ≤ free_page_count m → kernel_room m n →
  ∃ m' a, alloc_pages n m = Ok (m', a) ∧ kowned m' ∧ 0 < a ∧ a mod 4096 = 0
    ∧ a + n * 4096 ≤ 2 ^ 32 ∧ (∀ i, 0 ≤ i < n → ¬ kernel_owned m (a + i * 4096))
    ∧ (∀ x, kernel_owned m' x ↔ kernel_owned m x ∨ ∃ i, 0 ≤ i < n ∧ x = a + i * 4096).
Proof.
  intros Ho Hn [r Hr]. pose proof (ko_heap m (ko_pages m Ho)) as Hh. pose proof (kh_pool m Hh) as Hp.
  destruct (AllocPages_ok m n Hh Hn) as [[_ Hno]|(m' & s & fs & HA & Hfp & Hh')]; [by destruct (Hno r)|].
  exists m', (page m s). split; [exact HA|].
  split.
  { pose proof (ko_pages m Ho) as Hk. destruct (fresh_data m m' n s fs Hh) as [_ Hd]; [lia|done|].
    split; [apply (fresh_kpages m m' n s fs); done || lia|]. destruct (fp_pool _ _ _ _ _ Hfp) as (_ & -> & _).
    apply Hd; [done|lia|apply Ho]. }
  destruct Hfp as [[_ [(Hs0 & Hs1 & Hfr) _]] (Est & Ecap & _ & Etk) _ _ _ _ _ _ _].
  fold (PagePool.capacity (heap_pool m)) in Hs1.
  destruct (page_fields m Hp s) as (Hps & Hpm & _); [lia|].
  pose proof (PagePool.ok_end _ Hp) as He. unfold PagePool.page_at in *.
  split; [lia|]. split; [done|].
  assert (Hpi : ∀ i, page m s + i * 4096 = page m (s + i)) by (intros; by rewrite page_plus).
  split; [unfold page, PagePool.page_at in *; lia|].
  assert (Hinj : ∀ i j, page m i = page m j → i = j) by (unfold page, PagePool.page_at; lia).
  split.
  - intros i Hi (j & Hj & Ht & E). rewrite Hpi in E. apply Hinj in E as <-.
    unfold PagePool.taken in Ht. rewrite Hfr in Ht by lia. done.
  - intros x. unfold kernel_owned. rewrite Ecap.
    assert (Hpg : ∀ i, page m' i = page m i) by (intros; unfold page, PagePool.page_at; by rewrite Est).
    split.
    + intros (i & Hi & Ht & ->). rewrite Etk in Ht by lia. rewrite Hpg.
      destruct (decide (s ≤ i < s + n)) as [Hin|Hout].
      * right. exists (i - s). rewrite Hpi. split; [lia|f_equal; lia].
      * left. exists i. split; [done|]. split; [|done]. revert Ht.
        destruct (Z.leb_spec s i), (Z.ltb_spec i (s + n)); simpl; auto; lia.
    + intros [(i & Hi & Ht & ->)|(i & Hi & ->)].
      * exists i. rewrite Hpg. split; [done|]. split; [|done]. rewrite Etk by lia. by case_match.
      * exists (s + i). rewrite Hpg, Hpi. split; [lia|]. split; [|done]. rewrite Etk by lia.
        destruct (Z.leb_spec s (s + i)), (Z.ltb_spec (s + i) (s + n)); simpl; lia || done.
Qed.

Lemma kernel_free_law m a n :
  kowned m → 0 < n → (∀ i, 0 ≤ i < n → kernel_owned m (a + i * 4096)) →
  ∃ m', free_pages a n m = Ok m' ∧ kowned m'
    ∧ (∀ x, kernel_owned m' x ↔ kernel_owned m x ∧ ¬ ∃ i, 0 ≤ i < n ∧ x = a + i * 4096).
Proof.
  intros Ho Hn Hown. destruct (Hown 0) as (s & Hs & _ & Ea); [lia|].
  assert (Hpi : ∀ i, a + i * 4096 = page m (s + i)) by (intros; rewrite page_plus; lia).
  assert (Hinj : ∀ i j, page m i = page m j → i = j) by (unfold page, PagePool.page_at; lia).
  assert (Htk : ∀ i, 0 ≤ i < n → s + i < PagePool.capacity (heap_pool m)
    ∧ PagePool.taken (heap_pool m) (s + i) = true).
  { intros i Hi. destruct (Hown i Hi) as (j & Hj & Ht & E). rewrite Hpi in E. apply Hinj in E as <-.
    split; [lia|done]. }
  destruct (free_pages_ok m s n (ko_pages m Ho)) as (m' & HF & Ho' & [(Est & Ecap & _ & Etk) _ _ _] & Hd); try lia.
  { intros i f Hi Ht Hf. apply (ko_data m Ho i f); [|done|done]. destruct (Htk (i - s)); lia. }
  { destruct (Htk (n - 1)) as [? _]; lia. }
  { intros i Hi. destruct (Htk (i - s)) as [_ E]; [lia|]. by replace (s + (i - s)) with i in E by lia. }
  exists m'. split; [|split; [split; [done|rewrite Ecap; apply Hd; [done|lia|apply Ho]]|]].
  { replace a with (page m s) by (rewrite Ea || idtac; lia). exact HF. }
  assert (Hpg : ∀ i, page m' i = page m i) by (intros; unfold page, PagePool.page_at; by rewrite Est).
  intros x. unfold kernel_owned. rewrite Ecap. split.
  - intros (i & Hi & Ht & ->). rewrite Etk in Ht by lia. rewrite Hpg.
    destruct (Z.leb_spec s i), (Z.ltb_spec i (s + n)); simpl in Ht; try done.
    all: split; [by exists i|]; intros (k & Hk & E); rewrite Hpi in E; apply Hinj in E; lia.
  - intros [(i & Hi & Ht & ->) Hno]. exists i. rewrite Hpg. split; [done|]. split; [|done].
    rewrite Etk by lia. destruct (Z.leb_spec s i), (Z.ltb_spec i (s + n)); simpl; try done.
    destruct Hno. exists (i - s). rewrite Hpi. split; [lia|f_equal; lia].
Qed.

Lemma kernel_count_law m : kowned m → 0 ≤ free_page_count m < 2 ^ 20.
Proof.
  intros Ho. pose proof (wf_pool m (kh_wf m (ko_heap m (ko_pages m Ho)))) as Hp.
  pose proof (PagePool.ok_free_count _ Hp). pose proof (PagePool.capacity_pos _ Hp).
  unfold free_page_count, kernel_pages, PhyMemPagePool.GetFreeCount. lia.
Qed.

#[export] Instance kernel_page_laws : PageLaws Machine.t := {
  pages_ok := kowned;
  owned := kernel_owned;
  room := kernel_room;
  free_page_count_range := kernel_count_law;
  alloc_pages_none := kernel_alloc_none;
  alloc_pages_law := kernel_alloc_law;
  free_pages_law := kernel_free_law
}.

(** The kernel's heap when the demonstration kernel starts. *)
Definition demo_heap : MemHeap.t Machine.t :=
  MemHeap.mk Mapping.demo ∅ ((λ k, MemHeap.desc_at k []) <$> seq 0 7).

Lemma demo_heap_ok : MemHeap.ok demo_heap.
Proof. apply MemHeap.empty_heap_ok. exact demo_kowned. Qed.
End KernelHeap.

Module HeapWitness.
Import MemHeap KernelHeap.

Lemma demo_room n : 0 < n ≤ 3 → room Mapping.demo n.
Proof.
  intros Hn. exists 0. split; [lia|].
  assert (Hc : Bitmap.cap (PagePool.bitmap_ (KernelPages.heap_pool Mapping.demo)) = 16) by (vm_compute; reflexivity).
  rewrite Hc. split; [lia|].
  intros j Hj. assert (j = 0 ∨ j = 1 ∨ j = 2) as [->|[->| ->]] by lia; by vm_compute.
Qed.

Lemma Allocate_fresh_block_witness :
  pages_needed demo_heap 1024 = 1 ∧ pages_needed demo_heap 5000 = 2 ∧
  (∃ h' b, Allocate 1024 demo_heap = Ok (h', b) ∧ b = 0xC010000C ∧ allocated demo_heap h' 1024 b) ∧
  (∃ h' b, Allocate 5000 demo_heap = Ok (h', b) ∧ allocated demo_heap h' 5000 b) ∧
  Allocate 100000 demo_heap = Ok (demo_heap, 0).
Proof.
  split; [vm_compute; reflexivity|]. split; [vm_compute; reflexivity|]. split; [|split].
  - destruct (Allocate_fresh_block demo_heap 1024 demo_heap_ok) as (_ & HA & _); [lia|].
    destruct HA as (h' & b & E & Hal & _).
    + vm_compute. discriminate.
    + right. split; [vm_compute; discriminate|]. apply demo_room. vm_compute. split; [reflexivity|discriminate].
    + exists h', b. split; [exact E|]. split; [|exact Hal].
      assert (Eb : (match Allocate 1024 demo_heap with Ok (_, c) => c | _ => 0 end) = 0xC010000C)
        by (vm_compute; reflexivity).
      rewrite E in Eb. exact Eb.
  - destruct (Allocate_fresh_block demo_heap 5000 demo_heap_ok) as (_ & HA & _); [lia|].
    destruct HA as (h' & b & E & Hal & _).
    + vm_compute. discriminate.
    + right. split; [vm_compute; discriminate|]. apply demo_room. vm_compute. split; [reflexivity|discriminate].
    + exists h', b. split; [exact E|exact Hal].
  - apply (Allocate_fresh_block demo_heap 100000 demo_heap_ok); [lia|]. vm_compute. reflexivity.
Defined.

Lemma Free_block_witness :
  ∃ h b h', Allocate 5000 demo_heap = Ok (h, b) ∧ Free b h = Ok h' ∧ ok h' ∧ ∀ sz, ¬ live h' b sz.
Proof.
  destruct (Allocate_ok demo_heap 5000 demo_heap_ok) as [HA _]; [lia|vm_compute; discriminate|].
  destruct HA as (h & b & HA & Hok & _ & _ & sz & _ & _ & Hl).
  { right. split; [vm_compute; discriminate|]. apply demo_room. vm_compute. split; [reflexivity|discriminate]. }
  destruct (Free_block h b sz Hok) as (h' & HF & Hok' & Hl');
    [exact (proj2 (Hl b sz) (or_intror (conj eq_refl eq_refl)))|].
  exists h, b, h'. split; [exact HA|]. split; [exact HF|]. split; [exact Hok'|].
  intros sz' Hb. exact (proj2 (proj1 (Hl' b sz') Hb) eq_refl).
Defined.
End HeapWitness.
