(* ===== verification/Desc.v ===== *)
(** * Selectors, descriptors and the task state segment

    [Selector] models src/include/kernel/selector/sel.h, [Attribute],
    [Descriptor], [GateDesc], [SegDesc] and [DescTab] the classes of
    src/include/kernel/descriptor/desc.h, and [Tss] the set-up of the task
    state segment of src/src/kernel/process/tss.cpp. A descriptor is a word of
    64 bits, an attribute one of 8 and a selector one of 16. *)
From S2P Require Import Prelude UtilBit MemPage.

(** ** One bit as a field of length one *)

Lemma SetBit_SetBits w val i :
  1 < w → in_u w val → 0 ≤ i < w → bit.SetBit w val i = bit.SetBits w val 1 i 1.
Proof.
  intros. apply Z.bits_inj'; intros k ?.
  rewrite bit.testbit_SetBit, bit.testbit_SetBits by lia || done.
  destruct (Z.eqb_spec k i) as [->|].
  - rewrite Z.sub_diag. bits_cases. done.
  - bits_cases; done.
Qed.

Lemma ResetBit_SetBits w val i :
  1 < w → in_u w val → 0 ≤ i < w → bit.ResetBit w val i = bit.SetBits w val 0 i 1.
Proof.
  intros. apply Z.bits_inj'; intros k ?.
  rewrite bit.testbit_ResetBit, bit.testbit_SetBits by lia || done.
  destruct (Z.eqb_spec k i) as [->|].
  - rewrite Z.sub_diag. bits_cases. done.
  - bits_cases; done.
Qed.

Lemma IsBitSet_GetBits w val i :
  1 < w → 0 ≤ i < w → bit.IsBitSet w val i = (bit.GetBits w val i 1 =? 1).
Proof.
  intros. rewrite bit.IsBitSet_testbit by lia.
  replace (Z.testbit val i) with (Z.testbit (bit.GetBits w val i 1) 0).
  - pose proof (bit.GetBits_range w ltac:(lia) val i 1 ltac:(lia) ltac:(lia) ltac:(lia) ltac:(lia))
      as [? ?]. change (2 ^ 1) with 2 in *.
    assert (bit.GetBits w val i 1 = 0 ∨ bit.GetBits w val i 1 = 1) as [-> | ->] by lia; done.
  - rewrite bit.testbit_GetBits by lia. done.
Qed.

(** Read a field of a word after it was written, or after another field was.
    [in_word] shows that a word is in range, [field_simp] decides which fields
    are disjoint. *)
Ltac in_word :=
  first [ apply bit.SetBits_range; lia | apply bit.SetBit_range; lia
        | apply bit.ResetBit_range; lia | by eauto with kernel
        | done | lia | (unfold in_u; lia) ].
Ltac field_simp :=
  repeat first
    [ rewrite bit.GetBits_SetBits by in_word
    | rewrite bit.GetBits_SetBits_other by in_word ].

(** The privilege levels of src/include/kernel/krnl.h. *)
Module Priv.

Inductive Privilege : Type := Zero | One | Two | Three.

#[export] Instance Privilege_eq_dec : EqDecision Privilege.
Proof. solve_decision. Defined.

Definition to_Z (p : Privilege) : Z :=
  match p with Zero => 0 | One => 1 | Two => 2 | Three => 3 end.

(** [static_cast<Privilege>] of a field of two bits. *)
Definition of_Z (z : Z) : Privilege :=
  if z =? 0 then Zero else if z =? 1 then One else if z =? 2 then Two else Three.

Lemma of_to_Z p : of_Z (to_Z p) = p.
Proof. by destruct p. Qed.

Lemma to_Z_range p : in_u 2 (to_Z p).
Proof. by destruct p. Qed.
End Priv.
Export Priv (Privilege, Zero, One, Two, Three).
#[export] Hint Resolve Priv.to_Z_range : kernel.

Module Selector.

Inductive DescTabType : Type := Gdt | Ldt.

Definition rpl_pos : Z := 0.
Definition rpl_len : Z := 2.
Definition tab_pos : Z := rpl_pos + rpl_len.
Definition idx_pos : Z := tab_pos + 1.
Definition idx_len : Z := 13.

(** [Selector(tab, rpl, idx)] on a member initialized with zero. *)
Definition make (tab : DescTabType) (rpl : Privilege) (idx : Z) : Z :=
  let sel := match tab with Ldt => bit.SetBit 16 0 tab_pos | Gdt => 0 end in
  let sel := bit.SetBits 16 sel (Priv.to_Z rpl) rpl_pos rpl_len in
  bit.SetBits 16 sel idx idx_pos idx_len.

Definition GetTabType (sel : Z) : DescTabType :=
  if bit.IsBitSet 16 sel tab_pos then Ldt else Gdt.
Definition GetRpl (sel : Z) : Privilege := Priv.of_Z (bit.GetBits 16 sel rpl_pos rpl_len).
Definition SetRpl (rpl : Privilege) (sel : Z) : Z :=
  bit.SetBits 16 sel (Priv.to_Z rpl) rpl_pos rpl_len.
Definition GetIdx (sel : Z) : Z := bit.GetBits 16 sel idx_pos idx_len.
Definition Clear (sel : Z) : Z := 0.

(** The indexes of src/include/kernel/descriptor/gdt/idx.h. *)
Definition gdt_count : Z := 60.
Definition idx_krnl_code : Z := 1.
Definition idx_krnl_data : Z := 2.
Definition idx_gs : Z := 3.
Definition idx_tss : Z := 4.
Definition idx_usr_code : Z := 5.
Definition idx_usr_data : Z := 6.

Definition krnl_code : Z := make Gdt Zero idx_krnl_code.
Definition krnl_data : Z := make Gdt Zero idx_krnl_data.
Definition krnl_stack : Z := krnl_data.
Definition gs : Z := make Gdt Zero idx_gs.
Definition tss : Z := make Gdt Zero idx_tss.
Definition usr_code : Z := make Gdt Three idx_usr_code.
Definition usr_data : Z := make Gdt Three idx_usr_data.
Definition usr_stack : Z := usr_data.

(** The values the assembly and the processor expect. *)
Lemma selector_values :
  [krnl_code; krnl_data; gs; tss; usr_code; usr_data]
  = [0x08; 0x10; 0x18; 0x20; 0x2B; 0x33].
Proof. reflexivity. Qed.

Lemma make_range tab rpl idx : in_u 16 (make tab rpl idx).
Proof. apply bit.SetBits_range. lia. Qed.
#[export] Hint Resolve make_range : kernel.

(** A selector reads back as what it was made of, as far as the index has 13
    bits, and changing the privilege keeps the rest. *)
Lemma selector_fields tab rpl idx rpl' :
  in_u 13 idx →
  let sel := make tab rpl idx in
  (GetTabType sel, GetRpl sel, GetIdx sel) = (tab, rpl, idx)
  ∧ SetRpl rpl' sel = make tab rpl' idx.
Proof.
  intros Hi sel. subst sel. unfold make, GetTabType, GetRpl, GetIdx, SetRpl.
  set (b := match tab with Gdt => 0 | Ldt => _ end).
  assert (Hb : in_u 16 b) by (by destruct tab).
  assert (Ht : Z.testbit b tab_pos = match tab with Ldt => true | Gdt => false end)
    by (by destruct tab).
  clearbody b. unfold idx_pos, idx_len, tab_pos, rpl_pos, rpl_len in *. split.
  - rewrite bit.IsBitSet_testbit, !bit.testbit_SetBits by in_word. simpl in *.
    rewrite Ht. field_simp. rewrite !wrap_small by in_word. rewrite Priv.of_to_Z.
    by destruct tab.
  - apply Z.bits_inj'; intros i ?. rewrite !bit.testbit_SetBits by in_word.
    bits_cases; by simpl.
Qed.
End Selector.

Module Attribute.

Inductive SysType : Type :=
| Tss16 | BusyTss16 | Tss32 | BusyTss32 | Intr16 | Intr32
| Call16 | Call32 | Trap16 | Trap32 | Ldt | Task.

Definition SysType_to_Z (t : SysType) : Z :=
  match t with
  | Tss16 => 1 | BusyTss16 => 3 | Tss32 => 9 | BusyTss32 => 11
  | Intr16 => 6 | Intr32 => 14 | Call16 => 4 | Call32 => 12
  | Trap16 => 7 | Trap32 => 15 | Ldt => 2 | Task => 5
  end.

Inductive NonSysType : Type :=
| ExecCode | ReadExecCode | ExecConformCode | ReadExecConformCode
| ReadData | ReadWriteData | ReadExtDownData | ReadWriteExtDownData.

Definition NonSysType_to_Z (t : NonSysType) : Z :=
  match t with
  | ExecCode => 4 | ReadExecCode => 5 | ExecConformCode => 6 | ReadExecConformCode => 7
  | ReadData => 0 | ReadWriteData => 1 | ReadExtDownData => 2 | ReadWriteExtDownData => 3
  end.

Definition type_pos : Z := 0.
Definition type_len : Z := 4.
Definition s_pos : Z := type_pos + type_len.
Definition dpl_pos : Z := s_pos + 1.
Definition dpl_len : Z := 2.
Definition p_pos : Z := dpl_pos + dpl_len.

Definition IsSystem (attr : Z) : bool := negb (bit.IsBitSet 8 attr s_pos).
Definition SetSystem (sys : bool) (attr : Z) : Z :=
  if sys then bit.ResetBit 8 attr s_pos else bit.SetBit 8 attr s_pos.

Definition GetType (attr : Z) : Z :=
  let type := bit.GetBits 8 attr type_pos type_len in
  if negb (IsSystem attr) then bit.ResetBit 8 type 0 else type.

(** The protected overload on the value of a type, and the public ones. *)
Definition SetType (type : Z) (attr : Z) : Z := bit.SetBits 8 attr type type_pos type_len.
Definition SetNonSysType (type : NonSysType) (attr : Z) : Z :=
  SetType (NonSysType_to_Z type) (SetSystem false attr).
Definition SetSysType (type : SysType) (attr : Z) : Z :=
  SetType (SysType_to_Z type) (SetSystem true attr).

Definition GetDpl (attr : Z) : Privilege := Priv.of_Z (bit.GetBits 8 attr dpl_pos dpl_len).
Definition SetDpl (dpl : Privilege) (attr : Z) : Z :=
  bit.SetBits 8 attr (Priv.to_Z dpl) dpl_pos dpl_len.

Definition IsPresent (attr : Z) : bool := bit.IsBitSet 8 attr p_pos.
Definition SetPresent (present : bool) (attr : Z) : Z :=
  if present then bit.SetBit 8 attr p_pos else bit.ResetBit 8 attr p_pos.

Definition Format (system : bool) (type : Z) (dpl : Privilege) (present : bool) : Z :=
  SetPresent present (SetDpl dpl (SetSystem system (SetType type 0))).

(** [Attribute(type, dpl, present)]. *)
Definition make_sys (type : SysType) (dpl : Privilege) (present : bool) : Z :=
  Format true (SysType_to_Z type) dpl present.
Definition make_nonsys (type : NonSysType) (dpl : Privilege) (present : bool) : Z :=
  Format false (NonSysType_to_Z type) dpl present.

(** ** The fields *)

(** What an attribute says. *)
Record view := mkView { v_type : Z; v_system : bool; v_dpl : Privilege; v_present : bool }.

Definition view_of (a : Z) : view :=
  mkView (bit.GetBits 8 a type_pos type_len) (IsSystem a) (GetDpl a) (IsPresent a).

Definition b2z (b : bool) : Z := if b then 1 else 0.

Lemma SetSystem_field sys a :
  in_u 8 a → SetSystem sys a = bit.SetBits 8 a (b2z (negb sys)) s_pos 1.
Proof.
  intros. unfold SetSystem.
  destruct sys; [by apply ResetBit_SetBits|by apply SetBit_SetBits].
Qed.

Lemma SetPresent_field p a :
  in_u 8 a → SetPresent p a = bit.SetBits 8 a (b2z p) p_pos 1.
Proof.
  intros. unfold SetPresent.
  destruct p; [by apply SetBit_SetBits|by apply ResetBit_SetBits].
Qed.

Lemma IsSystem_field a : IsSystem a = negb (bit.GetBits 8 a s_pos 1 =? 1).
Proof. unfold IsSystem. by rewrite IsBitSet_GetBits. Qed.

Lemma IsPresent_field a : IsPresent a = (bit.GetBits 8 a p_pos 1 =? 1).
Proof. unfold IsPresent. by rewrite IsBitSet_GetBits. Qed.

Lemma b2z_range b : in_u 1 (b2z b).
Proof. by destruct b. Qed.
#[local] Hint Resolve b2z_range : kernel.

(** Every setter changes its own field and keeps the others. *)
Lemma attribute_setters a t s d p :
  in_u 8 a →
  view_of (SetType t a) = mkView (wrap 4 t) (IsSystem a) (GetDpl a) (IsPresent a)
  ∧ view_of (SetSystem s a)
    = mkView (bit.GetBits 8 a type_pos type_len) s (GetDpl a) (IsPresent a)
  ∧ view_of (SetDpl d a)
    = mkView (bit.GetBits 8 a type_pos type_len) (IsSystem a) d (IsPresent a)
  ∧ view_of (SetPresent p a)
    = mkView (bit.GetBits 8 a type_pos type_len) (IsSystem a) (GetDpl a) p.
Proof.
  intros Ha. unfold view_of. rewrite !IsSystem_field, !IsPresent_field, SetSystem_field,
    SetPresent_field by done.
  unfold SetType, GetDpl, SetDpl, p_pos, dpl_pos, dpl_len, s_pos, type_pos, type_len.
  split_and!; field_simp; rewrite ?wrap_small by in_word; rewrite ?Priv.of_to_Z;
    f_equal; first [done | by destruct s | by destruct p].
Qed.

Lemma Format_range s t d p : in_u 8 (Format s t d p).
Proof. unfold Format, SetPresent. case_match; in_word. Qed.

Lemma Format_view s t d p :
  view_of (Format s t d p) = mkView (wrap 4 t) s d p.
Proof.
  set (a1 := SetType t 0). set (a2 := SetSystem s a1). set (a3 := SetDpl d a2).
  assert (in_u 8 a1) by in_word.
  assert (in_u 8 a2) by (unfold a2, SetSystem; case_match; in_word).
  assert (in_u 8 a3) by in_word.
  destruct (attribute_setters 0 t s d p ltac:(done)) as (E1 & _ & _ & _).
  destruct (attribute_setters a1 t s d p ltac:(done)) as (_ & E2 & _ & _).
  destruct (attribute_setters a2 t s d p ltac:(done)) as (_ & _ & E3 & _).
  destruct (attribute_setters a3 t s d p ltac:(done)) as (_ & _ & _ & E4).
  unfold view_of in *. fold a1 in E1. fold a2 in E2. fold a3 in E3.
  change (Format s t d p) with (SetPresent p a3). rewrite E4. congruence.
Qed.

Lemma SysType_range t : in_u 4 (SysType_to_Z t).
Proof. by destruct t. Qed.

(** An attribute of a system descriptor reads back as what it was made of; the
    type of one of a non-system descriptor reads back without its bit 0, so
    types that differ only there are not told apart. *)
Lemma attribute_types t n d p :
  GetType (make_sys t d p) = SysType_to_Z t
  ∧ GetType (make_nonsys n d p) = NonSysType_to_Z n - NonSysType_to_Z n mod 2.
Proof.
  unfold make_sys, make_nonsys, GetType.
  pose proof (Format_view true (SysType_to_Z t) d p) as Hs.
  pose proof (Format_view false (NonSysType_to_Z n) d p) as Hn.
  injection Hs as -> -> _ _. injection Hn as -> -> _ _. split.
  - apply wrap_small, SysType_range.
  - by destruct n.
Qed.

(** The executable bit of a segment is bit 3 of the type; no value of
    [NonSysType] has it, not even those of code. *)
Lemma nonsys_never_executable n d p : bit.IsBitSet 8 (make_nonsys n d p) 3 = false.
Proof. destruct n, d, p; reflexivity. Qed.
End Attribute.
#[export] Hint Resolve Attribute.Format_range : kernel.

Module Descriptor.

Definition attr_pos : Z := 40.

Definition IsInvalid (desc : Z) : bool := desc =? 0.
Definition GetAttribute (desc : Z) : Z := bit.GetByte 64 desc attr_pos.
Definition SetAttribute (attr : Z) (desc : Z) : Z := bit.SetByte 64 desc attr attr_pos.
Definition GetDpl (desc : Z) : Privilege := Attribute.GetDpl (GetAttribute desc).
Definition SetDpl (dpl : Privilege) (desc : Z) : Z :=
  SetAttribute (Attribute.SetDpl dpl (GetAttribute desc)) desc.
Definition IsSystem (desc : Z) : bool := Attribute.IsSystem (GetAttribute desc).
Definition SetSystem (sys : bool) (desc : Z) : Z :=
  SetAttribute (Attribute.SetSystem sys (GetAttribute desc)) desc.
Definition SetPresent (present : bool) (desc : Z) : Z :=
  SetAttribute (Attribute.SetPresent present (GetAttribute desc)) desc.
Definition IsPresent (desc : Z) : bool := Attribute.IsPresent (GetAttribute desc).

Lemma GetAttribute_field d : GetAttribute d = bit.GetBits 64 d attr_pos 8.
Proof. apply (wrap_small 8), bit.GetBits_range; done. Qed.

Lemma GetAttribute_range d : in_u 8 (GetAttribute d).
Proof. by apply wrap_range. Qed.

Lemma SetAttribute_range a d : in_u 64 (SetAttribute a d).
Proof. in_word. Qed.
#[export] Hint Resolve GetAttribute_range SetAttribute_range : kernel.

Lemma GetAttribute_SetAttribute a d :
  in_u 64 d → in_u 8 a → GetAttribute (SetAttribute a d) = a.
Proof.
  intros. rewrite GetAttribute_field. unfold SetAttribute, bit.SetByte.
  change (1 * bit.byte_len) with 8. unfold attr_pos. field_simp. by apply wrap_small.
Qed.

(** The attribute occupies bits 40 to 47, the other fields are kept. *)
Lemma GetBits_SetAttribute a d pos len :
  in_u 64 d → 0 ≤ pos → 0 ≤ len < 64 → pos + len ≤ 64 → pos + len ≤ 40 ∨ 48 ≤ pos →
  bit.GetBits 64 (SetAttribute a d) pos len = bit.GetBits 64 d pos len.
Proof.
  intros. unfold SetAttribute, bit.SetByte. change (1 * bit.byte_len) with 8.
  unfold attr_pos. apply bit.GetBits_SetBits_other; try done; lia.
Qed.
End Descriptor.

(** ** Words and bytes of a word as fields *)

Lemma GetWord_field w d pos :
  16 < w → 0 ≤ pos → pos + 16 ≤ w → bit.GetWord w d pos = bit.GetBits w d pos 16.
Proof. intros. apply (wrap_small 16), bit.GetBits_range; lia. Qed.

Lemma GetByte_field w d pos :
  8 < w → 0 ≤ pos → pos + 8 ≤ w → bit.GetByte w d pos = bit.GetBits w d pos 8.
Proof. intros. apply (wrap_small 8), bit.GetBits_range; lia. Qed.

Lemma CombineWords_halves x :
  in_u 32 x →
  bit.CombineWords (bit.GetBits 32 x 16 16) (bit.GetBits 32 x 0 16) = x.
Proof.
  intros [H0 H1]. unfold bit.CombineWords, bit.CombineBits.
  change (bit.promoted 32) with 32. rewrite !bit.GetBits_div_mod by lia.
  change (2 ^ 16) with 65536. change (2 ^ 0) with 1.
  rewrite Z.shiftl_mul_pow2 by lia. change (2 ^ 16) with 65536.
  assert (0 ≤ x / 65536 < 65536) by div_lia.
  rewrite Z.div_1_r, (Z.mod_small (x / 65536)) by done.
  rewrite (wrap_small 32 (x / 65536)), (wrap_small 32 (x / 65536 * 65536)) by (unfold in_u; lia).
  rewrite wrap_idemp, wrap_small; [|unfold in_u]; div_lia.
Qed.

Module GateDesc.
Import Descriptor.

Definition offset_low_pos : Z := 0.
Definition sel_pos : Z := offset_low_pos + 2 * bit.byte_len.
Definition offset_high_pos : Z := attr_pos + 1 * bit.byte_len.

Definition GetFuncOffsetLow (desc : Z) : Z := bit.GetWord 64 desc offset_low_pos.
Definition GetFuncOffsetHigh (desc : Z) : Z := bit.GetWord 64 desc offset_high_pos.
Definition GetFuncOffset (desc : Z) : Z :=
  bit.CombineWords (GetFuncOffsetHigh desc) (GetFuncOffsetLow desc).
Definition GetSelector (desc : Z) : Z := bit.GetWord 64 desc sel_pos.

Definition SetFuncOffset (func : Z) (desc : Z) : Z :=
  let desc := bit.SetWord 64 desc (bit.GetLowWord func) offset_low_pos in
  bit.SetWord 64 desc (bit.GetHighWord func) offset_high_pos.
Definition SetSelector (sel : Z) (desc : Z) : Z := bit.SetWord 64 desc sel sel_pos.

Definition Format (sel func attr : Z) : Z :=
  SetAttribute attr (SetFuncOffset func (SetSelector sel 0)).

(** The layout of the processor: [attr_pos] is 24 bits above the selector. *)
Lemma layout : attr_pos = sel_pos + 24 ∧ offset_high_pos + 16 = 64.
Proof. done. Qed.

(** A gate reads back as the selector, the routine and the attribute it was
    made of, and is as present and as privileged as the attribute says. *)
Lemma GateDesc_roundtrip sel func attr :
  in_u 16 sel → in_u 32 func → in_u 8 attr →
  let gate := Format sel func attr in
  (GetSelector gate, GetFuncOffset gate, GetAttribute gate) = (sel, func, attr)
  ∧ GetDpl gate = Attribute.GetDpl attr ∧ IsPresent gate = Attribute.IsPresent attr.
Proof.
  intros Hs Hf Ha. cbv zeta.
  assert (HA : GetAttribute (Format sel func attr) = attr)
    by (apply GetAttribute_SetAttribute; in_word).
  unfold GetDpl, IsPresent. rewrite HA. split; [|done].
  assert (GetSelector (Format sel func attr) = sel
    ∧ GetFuncOffset (Format sel func attr) = func) as [-> ->]; [|done].
  unfold GetSelector, GetFuncOffset, GetFuncOffsetHigh, GetFuncOffsetLow, Format.
  unfold SetFuncOffset, SetSelector, bit.SetWord, bit.GetLowWord, bit.GetHighWord.
  unfold sel_pos, offset_low_pos, offset_high_pos, attr_pos.
  change (2 * bit.byte_len) with 16. change (0 + 16) with 16.
  change (40 + 1 * bit.byte_len) with 48.
  rewrite !GetWord_field, !GetBits_SetAttribute by in_word.
  field_simp. rewrite !(wrap_small 16) by first [done | apply bit.GetBits_range; done].
  split; [done|]. by apply CombineWords_halves.
Qed.
End GateDesc.

Module SegDesc.
Import Descriptor.

Definition limit_low_pos : Z := 0.
Definition base_low_pos : Z := limit_low_pos + 2 * bit.byte_len.
Definition base_low_len : Z := (2 + 1) * bit.byte_len.
Definition limit_high_pos : Z := attr_pos + 1 * bit.byte_len.
Definition limit_high_len : Z := 4.
Definition avl_pos : Z := limit_high_pos + limit_high_len.
Definition l_pos : Z := avl_pos + 1.
Definition db_pos : Z := l_pos + 1.
Definition g_pos : Z := db_pos + 1.
Definition base_high_pos : Z := g_pos + 1.

Definition SetBase (base : Z) (desc : Z) : Z :=
  let low := bit.GetBits 32 base 0 base_low_len in
  let high := bit.GetByte 32 base base_low_len in
  let desc := bit.SetBits 64 desc low base_low_pos base_low_len in
  bit.SetByte 64 desc high base_high_pos.

Definition GetBase (desc : Z) : Z :=
  let low := bit.GetBits 64 desc base_low_pos base_low_len in
  let high := bit.GetByte 64 desc base_high_pos in
  bit.SetByte 32 (u32 low) high base_low_len.

Definition SetLimit (limit : Z) (desc : Z) : Z :=
  let low := bit.GetWord 32 limit 0 in
  let high := bit.GetBits 32 limit (2 * bit.byte_len) limit_high_len in
  let desc := bit.SetWord 64 desc low limit_low_pos in
  bit.SetBits 64 desc high limit_high_pos limit_high_len.

Definition GetLimit (desc : Z) : Z :=
  let low := bit.GetWord 64 desc limit_low_pos in
  let high := bit.GetBits 64 desc limit_high_pos limit_high_len in
  bit.SetBits 32 low high (2 * bit.byte_len) limit_high_len.

Definition SetGranularity (large : bool) (desc : Z) : Z :=
  if large then bit.SetBit 64 desc g_pos else bit.ResetBit 64 desc g_pos.
Definition GetGranularity (desc : Z) : Z :=
  if bit.IsBitSet 64 desc g_pos then Page.page_size else 1.

Definition GetSize (desc : Z) : Z := GetGranularity desc *w (GetLimit desc +w 1).

Definition Format (base limit attr : Z) (large : bool) : Z :=
  SetAttribute attr (SetGranularity large (SetLimit limit (SetBase base 0))).

(** ** The fields *)

(** What a descriptor says, beside its attribute. *)
Record seg := mkSeg { s_base : Z; s_limit : Z; s_granularity : Z }.
Definition seg_of (d : Z) : seg := mkSeg (GetBase d) (GetLimit d) (GetGranularity d).

(** The four fields that are read back. *)
Definition base_low (d : Z) : Z := bit.GetBits 64 d 16 24.
Definition base_high (d : Z) : Z := bit.GetBits 64 d 56 8.
Definition limit_low (d : Z) : Z := bit.GetBits 64 d 0 16.
Definition limit_high (d : Z) : Z := bit.GetBits 64 d 48 4.
Definition g_bit (d : Z) : Z := bit.GetBits 64 d 55 1.

Lemma seg_of_fields d e :
  base_low d = base_low e → base_high d = base_high e → limit_low d = limit_low e →
  limit_high d = limit_high e → g_bit d = g_bit e → seg_of d = seg_of e.
Proof.
  unfold base_low, base_high, limit_low, limit_high, g_bit.
  intros H1 H2 H3 H4 H5. unfold seg_of, GetBase, GetLimit, GetGranularity.
  rewrite !GetByte_field, !GetWord_field, !IsBitSet_GetBits by done.
  unfold base_low_pos, base_low_len, base_high_pos, limit_low_pos, limit_high_pos,
    limit_high_len, g_pos, db_pos, l_pos, avl_pos, limit_high_pos, attr_pos, limit_low_pos,
    limit_high_len.
  change (0 + 2 * bit.byte_len) with 16. change ((2 + 1) * bit.byte_len) with 24.
  change (40 + 1 * bit.byte_len) with 48. change (48 + 4 + 1 + 1 + 1) with 55.
  change (55 + 1) with 56. by rewrite H1, H2, H3, H4, H5.
Qed.

(** The attribute is apart from the segment. *)
Lemma seg_of_SetAttribute a d : in_u 64 d → seg_of (SetAttribute a d) = seg_of d.
Proof.
  intros. apply seg_of_fields; unfold base_low, base_high, limit_low, limit_high, g_bit;
    apply GetBits_SetAttribute; in_word.
Qed.

(** Two halves of a word of [l + h] bits put together are the word. *)
Lemma join_halves l h x :
  0 < l < 32 → 0 < h → l + h ≤ 32 → in_u 32 x →
  bit.SetBits 32 (bit.GetBits 32 x 0 l) (bit.GetBits 32 x l h) l h = x mod 2 ^ (l + h).
Proof.
  intros Hl Hh Hlh Hx. change (x mod 2 ^ (l + h)) with (wrap (l + h) x).
  apply Z.bits_inj'; intros i ?. rewrite testbit_wrap by lia.
  assert (in_u 32 (bit.GetBits 32 x 0 l)).
  { pose proof (bit.GetBits_range 32 ltac:(lia) x 0 l ltac:(lia) ltac:(lia) ltac:(lia) ltac:(lia)) as [? ?].
    split; [done|]. apply Z.lt_le_trans with (2 ^ l); [done|]. by apply Z.pow_le_mono_r; lia. }
  rewrite bit.testbit_SetBits by (done || lia).
  destruct (Z.leb_spec l i), (Z.ltb_spec i (l + h)); simpl;
    rewrite ?bit.testbit_GetBits by lia; bits_cases; simpl; try done; f_equal; lia.
Qed.

Lemma SetBase_fields b d :
  in_u 64 d → in_u 32 b →
  base_low (SetBase b d) = bit.GetBits 32 b 0 24
  ∧ base_high (SetBase b d) = bit.GetBits 32 b 24 8.
Proof.
  intros Hd Hb. unfold base_low, base_high, SetBase, bit.SetByte.
  rewrite GetByte_field by done. change base_low_pos with 16. change base_low_len with 24.
  change base_high_pos with 56. change (1 * bit.byte_len) with 8. field_simp.
  split; apply wrap_small; by apply bit.GetBits_range.
Qed.

(** The limit is apart from the base. *)
Lemma SetLimit_fields l d :
  in_u 64 d → in_u 32 l →
  limit_low (SetLimit l d) = bit.GetBits 32 l 0 16
  ∧ limit_high (SetLimit l d) = bit.GetBits 32 l 16 4
  ∧ base_low (SetLimit l d) = base_low d ∧ base_high (SetLimit l d) = base_high d.
Proof.
  intros Hd Hl. unfold base_low, base_high, limit_low, limit_high, SetLimit, bit.SetWord.
  rewrite GetWord_field by done. change limit_low_pos with 0. change limit_high_len with 4.
  change limit_high_pos with 48. change (2 * bit.byte_len) with 16. field_simp.
  split_and!; try done; apply wrap_small; by apply bit.GetBits_range.
Qed.

Lemma SetGranularity_fields g d :
  in_u 64 d →
  g_bit (SetGranularity g d) = Attribute.b2z g
  ∧ limit_low (SetGranularity g d) = limit_low d ∧ limit_high (SetGranularity g d) = limit_high d
  ∧ base_low (SetGranularity g d) = base_low d ∧ base_high (SetGranularity g d) = base_high d.
Proof.
  intros Hd. assert (E : SetGranularity g d = bit.SetBits 64 d (Attribute.b2z g) 55 1).
  { unfold SetGranularity. destruct g; [by apply SetBit_SetBits|by apply ResetBit_SetBits]. }
  rewrite E. unfold g_bit, base_low, base_high, limit_low, limit_high. field_simp.
  split_and!; try done. by destruct g.
Qed.

Lemma SetGranularity_range g d : in_u 64 (SetGranularity g d).
Proof. unfold SetGranularity. case_match; in_word. Qed.
#[local] Hint Resolve SetGranularity_range : kernel.

Lemma GetBase_of_fields d b :
  in_u 32 b → base_low d = bit.GetBits 32 b 0 24 → base_high d = bit.GetBits 32 b 24 8 →
  GetBase d = b.
Proof.
  unfold base_low, base_high. intros Hb H1 H2. unfold GetBase, bit.SetByte.
  rewrite GetByte_field by done. change base_low_pos with 16. change base_low_len with 24.
  change base_high_pos with 56. change (1 * bit.byte_len) with 8. rewrite H1, H2.
  rewrite (u32_small (bit.GetBits 32 b 0 24)).
  - rewrite join_halves by (done || lia). by apply Z.mod_small.
  - pose proof (bit.GetBits_range 32 ltac:(lia) b 0 24 ltac:(lia) ltac:(lia) ltac:(lia) ltac:(lia))
      as [? ?]. change (2 ^ 24) with 16777216 in *. lia.
Qed.

Lemma GetLimit_of_fields d l :
  in_u 32 l → limit_low d = bit.GetBits 32 l 0 16 → limit_high d = bit.GetBits 32 l 16 4 →
  GetLimit d = l mod 2 ^ 20.
Proof.
  unfold limit_low, limit_high. intros Hl H1 H2. unfold GetLimit.
  rewrite GetWord_field by done. change limit_low_pos with 0. change limit_high_len with 4.
  change limit_high_pos with 48. change (2 * bit.byte_len) with 16. rewrite H1, H2.
  by apply join_halves.
Qed.

(** A segment descriptor reads back as the base, the attribute and the unit it
    was made of; of the limit it keeps the 20 low bits, and the size follows. *)
Lemma SegDesc_roundtrip base limit attr large :
  in_u 32 base → in_u 32 limit → in_u 8 attr →
  let d := Format base limit attr large in
  let unit := if large then 4096 else 1 in
  GetAttribute d = attr
  ∧ seg_of d = mkSeg base (limit mod 2 ^ 20) unit
  ∧ GetSize d = u32 (unit * (limit mod 2 ^ 20 + 1)).
Proof.
  intros Hb Hl Ha. cbv zeta. unfold Format.
  set (d1 := SetBase base 0). assert (in_u 64 d1) by in_word.
  set (d2 := SetLimit limit d1). assert (in_u 64 d2) by in_word.
  set (d3 := SetGranularity large d2). assert (in_u 64 d3) by in_word.
  destruct (SetBase_fields base 0 ltac:(done) Hb) as [B1 B2]. fold d1 in B1, B2.
  destruct (SetLimit_fields limit d1 ltac:(done) Hl) as (L1 & L2 & L3 & L4). fold d2 in L1, L2, L3, L4.
  destruct (SetGranularity_fields large d2 ltac:(done)) as (G1 & G2 & G3 & G4 & G5).
  fold d3 in G1, G2, G3, G4, G5.
  assert (HS : seg_of (SetAttribute attr d3) = mkSeg base (limit mod 2 ^ 20) (if large then 4096 else 1)).
  { rewrite seg_of_SetAttribute by done. unfold seg_of. f_equal.
    - apply GetBase_of_fields; congruence.
    - apply GetLimit_of_fields; congruence.
    - unfold GetGranularity. rewrite IsBitSet_GetBits by done. change g_pos with 55.
      unfold g_bit in G1. rewrite G1. by destruct large. }
  split; [|split; [done|]].
  - by apply GetAttribute_SetAttribute.
  - unfold GetSize. injection HS as _ -> ->.
    unfold u32, wrap. by rewrite Zmult_mod_idemp_r.
Qed.
End SegDesc.

(** [DescTabReg] and [DescTabSpan]: a table of descriptors where a table
    register says it is. [descs] is the memory at the base. *)
Module DescTab.

Record DescTabReg := mkReg { limit : Z; base : Z }.

(** [BuildReg] of a table of [count] descriptors at [data]. *)
Definition BuildReg (data count : Z) : DescTabReg :=
  mkReg (u16 (count *w 8 -w 1)) data.

Record DescTabSpan := mkSpan { count : Z; descs : list Z }.

(** [DescTabSpan(reg)]. *)
Definition span_of (reg : DescTabReg) (mem : list Z) : DescTabSpan :=
  mkSpan ((limit reg + 1) / 8) mem.

(** [operator[]], read and written. *)
Definition at_ (tab : DescTabSpan) (idx : Z) : res Z :=
  Assert (idx <? count tab);;
  of_option (descs tab !! Z.to_nat idx).

Definition set_ (tab : DescTabSpan) (idx : Z) (desc : Z) : res DescTabSpan :=
  Assert (idx <? count tab);;
  _ ← of_option (descs tab !! Z.to_nat idx);
  Ok (mkSpan (count tab) (<[Z.to_nat idx := desc]> (descs tab))).

(** The register of a table says how many descriptors it has. *)
Lemma span_of_BuildReg data n mem :
  0 < n ≤ 8192 → span_of (BuildReg data n) mem = mkSpan n mem.
Proof.
  intros. unfold span_of, BuildReg. simpl.
  rewrite (u32_small (n * 8)), u32_small by lia. unfold u16. rewrite wrap_small by (unfold in_u; lia).
  f_equal. rewrite Z.sub_add. apply Z.div_mul. lia.
Qed.

Definition span_ok (tab : DescTabSpan) : Prop :=
  count tab = Z.of_nat (length (descs tab)) ∧ Forall (in_u 64) (descs tab).

Lemma at_ok tab (i : nat) d :
  span_ok tab → descs tab !! i = Some d → at_ tab (Z.of_nat i) = Ok d.
Proof.
  intros [Hc _] Hd. unfold at_. apply lookup_lt_Some in Hd as Hl.
  rewrite Assert_true by lia. simpl. by rewrite Nat2Z.id, Hd.
Qed.

Lemma set_ok tab (i : nat) d d' :
  span_ok tab → in_u 64 d' → descs tab !! i = Some d →
  ∃ tab', set_ tab (Z.of_nat i) d' = Ok tab' ∧ span_ok tab'
    ∧ descs tab' !! i = Some d' ∧ ∀ j, j ≠ i → descs tab' !! j = descs tab !! j.
Proof.
  intros [Hc Hf] Hr Hd. unfold set_. apply lookup_lt_Some in Hd as Hl.
  rewrite Assert_true by lia. simpl. rewrite Nat2Z.id, Hd. eexists. split; [done|].
  refine (conj (conj _ _) (conj _ _)); simpl.
  - by rewrite length_insert.
  - by apply Forall_insert.
  - by rewrite list_lookup_insert_eq.
  - intros. by rewrite list_lookup_insert_ne.
Qed.
End DescTab.

Module Tss.
Import Descriptor DescTab.

Record TaskStateSeg := mkTss {
  backlink : Z; esp0 : Z; ss0 : Z; esp1 : Z; ss1 : Z; esp2 : Z; ss2 : Z; cr3 : Z;
  eip : Z; eflags : Z; eax : Z; ecx : Z; edx : Z; ebx : Z; esp : Z; ebp : Z;
  esi : Z; edi : Z; es : Z; cs : Z; ss : Z; ds : Z; fs : Z; gs : Z; ldt : Z;
  trace : Z; io_base : Z
}.

(** The words of the structure, in the order of its fields. *)
Definition words (t : TaskStateSeg) : list Z :=
  [backlink t; esp0 t; ss0 t; esp1 t; ss1 t; esp2 t; ss2 t; cr3 t;
   eip t; eflags t; eax t; ecx t; edx t; ebx t; esp t; ebp t;
   esi t; edi t; es t; cs t; ss t; ds t; fs t; gs t; ldt t; trace t; io_base t].

Definition sizeof_TaskStateSeg : Z := 27 * 4.

(** The static object of [GetTaskStateSeg]. *)
Definition GetTaskStateSeg : TaskStateSeg :=
  mkTss 0 0 Selector.krnl_stack 0 0 0 0 0 0 0 0 0 0 0 0 0 0 0 0 0 0 0 0 0 0 0
    sizeof_TaskStateSeg.

(** [InitTaskStateSeg]: [tss] is the address of the static object; the result
    is the table and the selector loaded into the task register. *)
Definition InitTaskStateSeg (thread_inited : bool) (tss : Z) (gdt : DescTabSpan) :
    res (DescTabSpan * Z) :=
  Assert thread_inited;;
  d ← at_ gdt Selector.idx_tss;
  Assert (IsInvalid d);;
  gdt ← set_ gdt Selector.idx_tss
    (SegDesc.Format tss (sizeof_TaskStateSeg -w 1)
       (Attribute.make_sys Attribute.Tss32 Zero true) false);
  d ← at_ gdt Selector.idx_usr_code;
  Assert (IsInvalid d);;
  code ← at_ gdt Selector.idx_krnl_code;
  gdt ← set_ gdt Selector.idx_usr_code (SetDpl Three code);
  d ← at_ gdt Selector.idx_usr_data;
  Assert (IsInvalid d);;
  data ← at_ gdt Selector.idx_krnl_data;
  gdt ← set_ gdt Selector.idx_usr_data (SetDpl Three data);
  Ok (gdt, Selector.tss).

Lemma words_size t : Z.of_nat (length (words t)) * 4 = sizeof_TaskStateSeg.
Proof. reflexivity. Qed.

(** The processor reads the base of the I/O permission map in the high half of
    the word at offset 100, which is [trace] here; [io_base] is the next word.
    The map base the processor sees is 0, below the limit of the segment. *)
Lemma io_map_base_is_zero :
  (λ w, Z.shiftr w 16) <$> words GetTaskStateSeg !! 25%nat = Some 0
  ∧ words GetTaskStateSeg !! 26%nat = Some sizeof_TaskStateSeg.
Proof. done. Qed.

(** A user copy of a kernel descriptor: everything but the privilege level. *)
Definition user_copy (k u : Z) : Prop :=
  GetDpl u = Three ∧ SegDesc.seg_of u = SegDesc.seg_of k
  ∧ bit.GetBits 8 (GetAttribute u) 0 4 = bit.GetBits 8 (GetAttribute k) 0 4
  ∧ IsSystem u = IsSystem k ∧ IsPresent u = IsPresent k.

Lemma SetDpl_user_copy k : in_u 64 k → user_copy k (SetDpl Three k).
Proof.
  intros. destruct (Attribute.attribute_setters (GetAttribute k) 0 true Three true
    (GetAttribute_range k)) as (_ & _ & HD & _).
  assert (HA : GetAttribute (SetDpl Three k) = Attribute.SetDpl Three (GetAttribute k))
    by (apply GetAttribute_SetAttribute; in_word).
  unfold user_copy, GetDpl, IsSystem, IsPresent. rewrite HA.
  unfold Attribute.view_of in HD. injection HD as H1 H2 H3 H4.
  rewrite H2, H3, H4. split_and!; try done. by apply SegDesc.seg_of_SetAttribute.
Qed.

(** On a table with free slots 4 to 6, [InitTaskStateSeg] succeeds: slot 4
    describes the task state segment (its address, its 108 bytes, a present
    32-bit task state segment of the kernel), slots 5 and 6 are the kernel's
    code and data with the privilege level of users, the others keep their
    value, and the task register gets the selector of slot 4. *)
Theorem InitTaskStateSeg_installs tss gdt kc kd :
  span_ok gdt → in_u 32 tss →
  descs gdt !! 1%nat = Some kc → descs gdt !! 2%nat = Some kd →
  descs gdt !! 4%nat = Some 0 → descs gdt !! 5%nat = Some 0 → descs gdt !! 6%nat = Some 0 →
  ∃ gdt' dt dc dd, InitTaskStateSeg true tss gdt = Ok (gdt', 0x20) ∧ span_ok gdt'
    ∧ descs gdt' !! 4%nat = Some dt ∧ descs gdt' !! 5%nat = Some dc
    ∧ descs gdt' !! 6%nat = Some dd
    ∧ (∀ i, i ≠ 4%nat → i ≠ 5%nat → i ≠ 6%nat → descs gdt' !! i = descs gdt !! i)
    ∧ SegDesc.seg_of dt = SegDesc.mkSeg tss 107 1 ∧ SegDesc.GetSize dt = 108
    ∧ Attribute.view_of (GetAttribute dt) = Attribute.mkView 9 true Zero true
    ∧ user_copy kc dc ∧ user_copy kd dd.
Proof.
  intros Hok Ht H1 H2 H4 H5 H6.
  set (dt := SegDesc.Format tss 107 (Attribute.make_sys Attribute.Tss32 Zero true) false).
  assert (Hkc : in_u 64 kc) by (destruct Hok as [_ Hf]; eapply Forall_lookup_1 in Hf; eauto).
  assert (Hkd : in_u 64 kd) by (destruct Hok as [_ Hf]; eapply Forall_lookup_1 in Hf; eauto).
  destruct (set_ok gdt 4 0 dt Hok ltac:(in_word) H4) as (g1 & E1 & Hok1 & V1 & K1).
  destruct (set_ok g1 5 0 (SetDpl Three kc) Hok1 ltac:(in_word)) as (g2 & E2 & Hok2 & V2 & K2);
    [by rewrite K1|].
  destruct (set_ok g2 6 0 (SetDpl Three kd) Hok2 ltac:(in_word)) as (g3 & E3 & Hok3 & V3 & K3);
    [by rewrite K2, K1|].
  destruct (SegDesc.SegDesc_roundtrip tss 107
    (Attribute.make_sys Attribute.Tss32 Zero true) false Ht) as (D1 & D2 & D3);
    [done|apply Attribute.Format_range|]. fold dt in D1, D2, D3.
  exists g3, dt, (SetDpl Three kc), (SetDpl Three kd).
  refine (conj _ (conj Hok3 _)).
  - unfold InitTaskStateSeg. rewrite Assert_true by done.
    change (sizeof_TaskStateSeg -w 1) with 107. fold dt.
    assert (A1 : at_ gdt 4 = Ok 0) by by apply (at_ok gdt 4).
    assert (A2 : at_ g1 5 = Ok 0) by (apply (at_ok g1 5); [done|by rewrite K1]).
    assert (A3 : at_ g1 1 = Ok kc) by (apply (at_ok g1 1); [done|by rewrite K1]).
    assert (A4 : at_ g2 6 = Ok 0) by (apply (at_ok g2 6); [done|by rewrite K2, K1]).
    assert (A5 : at_ g2 2 = Ok kd) by (apply (at_ok g2 2); [done|by rewrite K2, K1]).
    change Selector.idx_tss with 4. change Selector.idx_usr_code with 5.
    change Selector.idx_usr_data with 6. change Selector.idx_krnl_code with 1.
    change Selector.idx_krnl_data with 2.
    change (Z.of_nat 4) with 4 in E1. change (Z.of_nat 5) with 5 in E2.
    change (Z.of_nat 6) with 6 in E3.
    rewrite A1, !res_bind_ok. simpl Assert. rewrite res_bind_ok, E1, res_bind_ok, A2, !res_bind_ok.
    simpl Assert. rewrite res_bind_ok, A3, res_bind_ok, E2, res_bind_ok, A4, res_bind_ok.
    simpl Assert. by rewrite res_bind_ok, A5, res_bind_ok, E3.
  - split_and!; try done; [by rewrite K3, K2 by done|by rewrite K3 by done| | |..].
    + intros. by rewrite K3, K2, K1 by done.
    + rewrite D1. apply Attribute.Format_view.
    + by apply SetDpl_user_copy.
    + by apply SetDpl_user_copy.
Qed.

Lemma InitTaskStateSeg_installs_witness :
  let gdt := mkSpan 60 ([0; 0x00CF98000000FFFF; 0x00CF92000000FFFF; 0xC0C0920B80000007]
                        ++ replicate 56 0) in
  ∃ gdt' dt dc dd, InitTaskStateSeg true 0xC0012340 gdt = Ok (gdt', 0x20) ∧ span_ok gdt'
    ∧ descs gdt' !! 4%nat = Some dt ∧ descs gdt' !! 5%nat = Some dc
    ∧ descs gdt' !! 6%nat = Some dd
    ∧ (∀ i, i ≠ 4%nat → i ≠ 5%nat → i ≠ 6%nat → descs gdt' !! i = descs gdt !! i)
    ∧ SegDesc.seg_of dt = SegDesc.mkSeg 0xC0012340 107 1 ∧ SegDesc.GetSize dt = 108
    ∧ Attribute.view_of (GetAttribute dt) = Attribute.mkView 9 true Zero true
    ∧ user_copy 0x00CF98000000FFFF dc ∧ user_copy 0x00CF92000000FFFF dd.
Proof.
  apply (InitTaskStateSeg_installs 0xC0012340
    (mkSpan 60 ([0; 0x00CF98000000FFFF; 0x00CF92000000FFFF; 0xC0C0920B80000007]
                ++ replicate 56 0))); try reflexivity; [|unfold in_u; lia].
  split; [reflexivity|]. simpl. repeat (apply List.Forall_cons; [unfold in_u; lia|]). apply List.Forall_nil.
Defined.
End Tss.
