(* ===== verification/Intr.v ===== *)
(** * Interrupts

    [EFlags] models the flags register of src/include/kernel/io/io.h,
    [IntrHandlerTab] and [IntrDescTab] the tables of
    src/include/kernel/interrupt/intr.h, and [InitIntr] their set-up in
    src/src/kernel/interrupt/intr.cpp. The entry points of the assembly and the
    handlers are addresses, arguments of the definitions that use them. *)
From Stdlib Require Import Strings.Ascii Strings.String.
From S2P Require Import Prelude UtilBit StlString Desc.

Module EFlags.

Definition if_pos : Z := 9.

Definition SetMbs (val : Z) : Z := bit.SetBit 32 val 1.
Definition make (val : Z) : Z := SetMbs val.
Definition Clear (val : Z) : Z := SetMbs 0.
Definition If (val : Z) : bool := bit.IsBitSet 32 val if_pos.
Definition SetIf (val : Z) : Z := bit.SetBit 32 val if_pos.
Definition ResetIf (val : Z) : Z := bit.ResetBit 32 val if_pos.

(** Every value the class makes has the bit that must be set, and the
    interrupt flag is what was asked for. *)
Lemma eflags_fields val :
  in_u 32 val →
  bit.IsBitSet 32 (make val) 1 = true ∧ If (make val) = If val
  ∧ If (SetIf val) = true ∧ If (ResetIf val) = false ∧ If (Clear val) = false
  ∧ bit.IsBitSet 32 (SetIf val) 1 = bit.IsBitSet 32 val 1
  ∧ bit.IsBitSet 32 (ResetIf val) 1 = bit.IsBitSet 32 val 1.
Proof.
  intros. unfold If, make, SetMbs, SetIf, ResetIf. rewrite !bit.IsBitSet_testbit by done.
  rewrite !bit.testbit_SetBit, !bit.testbit_ResetBit by done. by unfold if_pos.
Qed.
End EFlags.

(** The processor's interrupt flag, and the guard that clears it for a block. *)
Module IntrGuard.

(** [IsIntrEnabled] on the flags register. *)
Definition IsIntrEnabled (eflags : Z) : bool := EFlags.If eflags.
Definition EnableIntr (eflags : Z) : Z := EFlags.SetIf eflags.
Definition DisableIntr (eflags : Z) : Z := EFlags.ResetIf eflags.

(** The constructor: the member [enabled_] and the new flags. *)
Definition construct (eflags : Z) : bool * Z :=
  let enabled := IsIntrEnabled eflags in
  (enabled, if enabled then DisableIntr eflags else eflags).

Definition destruct_ (enabled : bool) (eflags : Z) : Z :=
  if enabled then EnableIntr eflags else eflags.

(** A block under a guard runs without interrupts, and leaves the flag as it
    was found when the block itself leaves it off. Guards nest. *)
Lemma guarded_block eflags :
  in_u 32 eflags →
  IsIntrEnabled (construct eflags).2 = false
  ∧ ∀ after, in_u 32 after → IsIntrEnabled after = false →
    IsIntrEnabled (destruct_ (construct eflags).1 after) = IsIntrEnabled eflags.
Proof.
  intros He. unfold construct, destruct_, IsIntrEnabled, EnableIntr, DisableIntr. simpl.
  pose proof (EFlags.eflags_fields eflags He) as (_ & _ & _ & Hr & _).
  destruct (EFlags.If eflags) eqn:E; [|by split]. split; [done|]. intros after Ha _.
  by destruct (EFlags.eflags_fields after Ha) as (_ & _ & Hs & _).
Qed.
End IntrGuard.

(** The number of interrupts, and the interrupt numbers the kernel names. *)
Module Numbers.

Definition count : Z := 0x31.
Definition start_usr_intr_num : Z := 0x20.
Definition max_intr_handler_name_len : Z := 32.

Inductive Intr : Type :=
| PageFault | Clock | Keyboard | PrimaryIdeChnl | SecondaryIdeChnl | SysCall.

Definition to_Z (i : Intr) : Z :=
  match i with
  | PageFault => 0x0E
  | Clock => start_usr_intr_num
  | Keyboard => start_usr_intr_num + 1
  | PrimaryIdeChnl => start_usr_intr_num + 14
  | SecondaryIdeChnl => start_usr_intr_num + 15
  | SysCall => count - 1
  end.

Lemma intr_num_range i : 0 ≤ to_Z i < count.
Proof. by destruct i. Qed.
End Numbers.
Export Numbers (Intr).

(** The characters of a string literal. *)
Definition chars (s : string) : list Z := (λ c, Z.of_nat (nat_of_ascii c)) <$> list_ascii_of_string s.
Definition lit (s : string) : string_view.t := string_view.literal (chars s).
Arguments chars s%_string.
Arguments lit s%_string.

(** The table of handlers: the names, and the array of function pointers it was
    given. *)
Module IntrHandlerTab.
Import Numbers.

Record t := mk { names : list (list Z); handlers : list Z }.

Definition RegisterName (tab : t) (idx : Z) (name : string_view.t) : res t :=
  Assert (idx <? count);;
  arr ← of_option (names tab !! Z.to_nat idx);
  arr' ← (if negb (string_view.empty name) then
            cstring.strcpy_s (Some arr) (max_intr_handler_name_len + 1) (string_view.data name)
          else Ok (<[0%nat := 0]> arr));
  Ok (mk (<[Z.to_nat idx := arr']> (names tab)) (handlers tab)).

Definition RegisterHandler (tab : t) (idx : Z) (handler : Z) : res t :=
  Assert (idx <? count);;
  _ ← of_option (handlers tab !! Z.to_nat idx);
  Ok (mk (names tab) (<[Z.to_nat idx := handler]> (handlers tab))).

Definition Register (tab : t) (idx : Z) (name : string_view.t) (handler : Z) : res t :=
  tab ← RegisterName tab idx name;
  RegisterHandler tab idx handler.

(** The overloads on the interrupts the kernel names. *)
Definition RegisterIntrName (tab : t) (intr : Intr) (name : string_view.t) : res t :=
  RegisterName tab (to_Z intr) name.
Definition RegisterIntrHandler (tab : t) (intr : Intr) (handler : Z) : res t :=
  RegisterHandler tab (to_Z intr) handler.
Definition RegisterIntr (tab : t) (intr : Intr) (name : string_view.t) (handler : Z) : res t :=
  Register tab (to_Z intr) name handler.

Definition GetName (tab : t) (idx : Z) : res string_view.t :=
  Assert (idx <? count);;
  arr ← of_option (names tab !! Z.to_nat idx);
  string_view.of_cptr (Some arr).
Definition GetCount (tab : t) : Z := count.
Definition GetHandlers (tab : t) : list Z := handlers tab.

(** The constructor, on the array of handlers; names are value-initialized. *)
Definition construct (handlers : list Z) (default_name : string_view.t) (default_handler : Z) : res t :=
  for_range (Z.to_nat count) 0 (λ i tab, Register tab i default_name default_handler)
    (mk (replicate (Z.to_nat count) (replicate (Z.to_nat (max_intr_handler_name_len + 1)) 0)) handlers).
End IntrHandlerTab.

(** ** Tables of handlers *)

Module HandlerTabFacts.
Import cstring string_view Numbers IntrHandlerTab.

Definition tab_ok (tab : t) : Prop :=
  length (names tab) = 49%nat ∧ length (handlers tab) = 49%nat
  ∧ Forall (λ arr, length arr = 33%nat) (names tab).

(** The name of an interrupt. *)
Definition name_at (tab : t) (i : nat) (s : list Z) : Prop :=
  ∃ arr, names tab !! i = Some arr ∧ holds arr s.

Lemma name_lookup tab i :
  tab_ok tab → (i < 49)%nat → ∃ arr, names tab !! i = Some arr ∧ length arr = 33%nat.
Proof.
  intros (Hn & _ & Hf) Hi. destruct (lookup_lt_is_Some_2 (names tab) i) as [arr Ha]; [lia|].
  exists arr. split; [done|]. by eapply Forall_lookup_1 in Hf.
Qed.

(** A name is stored up to its first 32 characters; the other names and the
    handlers are kept. *)
Lemma RegisterName_ok tab (i : nat) v s :
  tab_ok tab → (i < 49)%nat → shows v s →
  ∃ tab', RegisterName tab (Z.of_nat i) v = Ok tab' ∧ tab_ok tab'
    ∧ handlers tab' = handlers tab ∧ name_at tab' i (take 32 s)
    ∧ ∀ j, j ≠ i → names tab' !! j = names tab !! j.
Proof.
  intros Hok Hi Hv. destruct (name_lookup tab i Hok Hi) as (arr & Ha & Hl).
  destruct Hok as (Hn & Hh & Hf). unfold RegisterName.
  rewrite Assert_true by (unfold count; lia). rewrite res_bind_ok, Nat2Z.id, Ha. cbn [of_option].
  rewrite res_bind_ok.
  assert (∃ arr', (if negb (empty v) then strcpy_s (Some arr) (max_intr_handler_name_len + 1) (data v)
            else Ok (<[0%nat := 0]> arr)) = Ok arr' ∧ length arr' = 33%nat ∧ holds arr' (take 32 s))
    as (arr' & -> & Hl' & Hs').
  { rewrite (shows_empty v s Hv). case_bool_decide as E; simpl.
    - subst s. destruct arr as [|a arr]; [done|]. exists (0 :: arr). split; [done|].
      split; [done|]. split; [apply not_elem_of_nil|]. by exists arr.
    - destruct s as [|c s]; [done|]. destruct (shows_cons v c s Hv) as (m & Hm & Hc & Hms).
      unfold data. rewrite Hm.
      assert (Hh' : holds (c :: m) (c :: s)) by (apply holds_cons; eauto).
      rewrite (strcpy_s_ok arr (c :: m) (c :: s) (max_intr_handler_name_len + 1) Hh')
        by (unfold max_intr_handler_name_len; lia).
      change (Z.to_nat (max_intr_handler_name_len + 1) - 1)%nat with 32%nat.
      eexists. split; [reflexivity|]. set (t := take 32 (c :: s)).
      assert (length t ≤ 32)%nat by (unfold t; rewrite length_take; lia). split.
      + rewrite length_app. cbn [length]. rewrite length_drop. lia.
      + split; [|eauto]. destruct Hh' as [H0 _]. unfold t.
        intros Hin. apply H0. apply list_elem_of_lookup in Hin as [k Hk].
        apply lookup_take_Some in Hk as [Hk _]. by eapply list_elem_of_lookup_2. }
  rewrite res_bind_ok. eexists. split; [reflexivity|]. simpl.
  refine (conj (conj _ (conj _ _)) (conj _ (conj _ _))); simpl.
  - by rewrite length_insert.
  - done.
  - by apply Forall_insert.
  - done.
  - exists arr'. simpl. rewrite list_lookup_insert_eq by lia. done.
  - intros. by rewrite list_lookup_insert_ne.
Qed.

Lemma RegisterHandler_ok tab (i : nat) h :
  tab_ok tab → (i < 49)%nat →
  RegisterHandler tab (Z.of_nat i) h = Ok (mk (names tab) (<[i := h]> (handlers tab)))
  ∧ tab_ok (mk (names tab) (<[i := h]> (handlers tab))).
Proof.
  intros (Hn & Hh & Hf) Hi. unfold RegisterHandler.
  rewrite Assert_true by (unfold count; lia). rewrite res_bind_ok, Nat2Z.id.
  destruct (lookup_lt_is_Some_2 (handlers tab) i) as [x ->]; [lia|]. simpl.
  split; [done|]. refine (conj _ (conj _ _)); simpl; [done|by rewrite length_insert|done].
Qed.

(** The constructor gives every interrupt the default name and handler. *)
Lemma construct_ok handlers0 v s h :
  length handlers0 = 49%nat → shows v s →
  ∃ tab, construct handlers0 v h = Ok tab ∧ tab_ok tab
    ∧ (∀ i, (i < 49)%nat → name_at tab i (take 32 s))
    ∧ handlers tab = replicate 49 h.
Proof.
  intros Hlen Hv. unfold construct.
  set (body := λ i tab, _). set (start := mk _ handlers0).
  destruct (for_range_inv (λ k tab, tab_ok tab
    ∧ (∀ i, Z.of_nat i < k → name_at tab i (take 32 s))
    ∧ ∀ i, Z.of_nat i < k → handlers tab !! i = Some h) (Z.to_nat count) 0 body start)
    as (tab & -> & Hok & Hnames & Hhs).
  - refine (conj _ (conj _ _)); [|lia|lia].
    by refine (conj _ (conj Hlen (Forall_replicate _ _ _ _))).
  - intros k tab Hk (Hok & Hnames & Hhs). unfold body, Register.
    destruct (RegisterName_ok tab (Z.to_nat k) v s Hok) as (t1 & E1 & Hok1 & Hh1 & Hn1 & Hkeep);
      [unfold count in Hk; lia|done|]. rewrite Z2Nat.id in E1 by lia. rewrite E1, res_bind_ok.
    destruct (RegisterHandler_ok t1 (Z.to_nat k) h Hok1) as [E2 Hok2]; [unfold count in Hk; lia|].
    rewrite Z2Nat.id in E2 by lia. rewrite E2. eexists. split; [reflexivity|].
    refine (conj Hok2 (conj _ _)); simpl; intros i Hi.
    + unfold name_at. simpl. destruct (decide (i = Z.to_nat k)) as [->|]; [exact Hn1|].
      rewrite Hkeep by done. apply Hnames. lia.
    + rewrite Hh1. destruct (decide (i = Z.to_nat k)) as [->|].
      * apply list_lookup_insert_eq. destruct Hok as (_ & -> & _). unfold count in Hk. lia.
      * rewrite list_lookup_insert_ne by done. apply Hhs. lia.
  - exists tab. split; [done|]. split; [done|]. split.
    + intros i Hi. apply Hnames. unfold count. lia.
    + apply list_eq. intros i. destruct (decide (i < 49)%nat) as [Hi|Hi].
      * rewrite lookup_replicate_2 by done. apply Hhs. unfold count. lia.
      * destruct Hok as (_ & Hl & _). rewrite !lookup_ge_None_2; [done| |lia].
        rewrite length_replicate. lia.
Qed.
End HandlerTabFacts.

(** ** The interrupt descriptor table *)

Module IntrDescTab.
Import Numbers.

(** The array of gates; [operator[]] on a number asserts it is in range, the
    one on an interrupt the kernel names does not. *)
Definition set_ (idt : list Z) (idx : Z) (gate : Z) : res (list Z) :=
  Assert (idx <? count);;
  _ ← of_option (idt !! Z.to_nat idx);
  Ok (<[Z.to_nat idx := gate]> idt).
Definition at_ (idt : list Z) (idx : Z) : res Z :=
  Assert (idx <? count);;
  of_option (idt !! Z.to_nat idx).
Definition at_intr (idt : list Z) (intr : Intr) : res Z :=
  of_option (idt !! Z.to_nat (to_Z intr)).

Definition krnl_gate : Z := Attribute.make_sys Attribute.Intr32 Zero true.
Definition user_gate : Z := Attribute.make_sys Attribute.Intr32 Three true.

(** [InitIntrDescTab]: [entries] is the array [intr_entries]. *)
Definition InitIntrDescTab (entries : list Z) (idt : list Z) : res (list Z) :=
  idt ← for_range (Z.to_nat count) 0 (λ i idt,
          entry ← of_option (entries !! Z.to_nat i);
          set_ idt i (GateDesc.Format Selector.krnl_code entry krnl_gate)) idt;
  let sys_call := to_Z SysCall in
  entry ← of_option (entries !! Z.to_nat sys_call);
  set_ idt sys_call (GateDesc.Format Selector.krnl_code entry user_gate).

Lemma set_gate_ok idt (i : nat) g :
  length idt = 49%nat → (i < 49)%nat → set_ idt (Z.of_nat i) g = Ok (<[i := g]> idt).
Proof.
  intros Hl Hi. unfold set_. rewrite Assert_true by (unfold count; lia).
  rewrite res_bind_ok, Nat2Z.id.
  destruct (lookup_lt_is_Some_2 idt i) as [x ->]; [lia|]. done.
Qed.

(** The table after [InitIntrDescTab], gate by gate. *)
Lemma InitIntrDescTab_ok entries idt :
  length entries = 49%nat → length idt = 49%nat →
  ∃ idt', InitIntrDescTab entries idt = Ok idt' ∧ length idt' = 49%nat
    ∧ ∀ i e, entries !! i = Some e →
        idt' !! i = Some (GateDesc.Format Selector.krnl_code e
                            (if decide (i = 48%nat) then user_gate else krnl_gate)).
Proof.
  intros He Hl. unfold InitIntrDescTab.
  set (body := λ i idt, entry ← _; set_ idt i _).
  destruct (for_range_inv (λ k idt, length idt = 49%nat ∧ ∀ i e, Z.of_nat i < k →
      entries !! i = Some e → idt !! i = Some (GateDesc.Format Selector.krnl_code e krnl_gate))
    (Z.to_nat count) 0 body idt) as (t1 & E1 & Hl1 & Hg).
  - split; [done|]. intros. lia.
  - intros k t Hk (Ht & Hg). change (Z.of_nat (Z.to_nat count)) with 49 in Hk. unfold body.
    destruct (lookup_lt_is_Some_2 entries (Z.to_nat k)) as [e Hek]; [lia|]. rewrite Hek.
    cbn [of_option]. rewrite res_bind_ok.
    pose proof (set_gate_ok t (Z.to_nat k) (GateDesc.Format Selector.krnl_code e krnl_gate) Ht) as E.
    rewrite Z2Nat.id in E by lia. rewrite E by lia. eexists. split; [reflexivity|].
    split; [by rewrite length_insert|]. intros i e' Hi Hei.
    destruct (decide (i = Z.to_nat k)) as [->|].
    + rewrite list_lookup_insert_eq by lia. congruence.
    + rewrite list_lookup_insert_ne by done. apply Hg; [lia|done].
  - rewrite E1, res_bind_ok. change (to_Z SysCall) with 48.
    destruct (lookup_lt_is_Some_2 entries 48) as [e He48]; [lia|].
    change (Z.to_nat 48) with 48%nat. rewrite He48. cbn [of_option]. rewrite res_bind_ok.
    pose proof (set_gate_ok t1 48 (GateDesc.Format Selector.krnl_code e user_gate) Hl1 ltac:(lia)) as E.
    change (Z.of_nat 48) with 48 in E. rewrite E. eexists. split; [reflexivity|].
    split; [by rewrite length_insert|]. intros i e' Hei. case_decide as Hi.
    + subst i. rewrite list_lookup_insert_eq by lia. congruence.
    + rewrite list_lookup_insert_ne by done. apply Hg; [|done].
      apply lookup_lt_Some in Hei. change (Z.of_nat (Z.to_nat count)) with 49. lia.
Qed.
End IntrDescTab.

Module InitIntr.
Import Numbers IntrHandlerTab IntrDescTab.

(** The names [RegisterIntrHandlers] gives, in order. *)
Definition exception_names : list (Z * string) :=
  [(0x00, "#DE Divide Error"%string);
   (0x01, "#DB Debug Exception"%string);
   (0x02, "NMI Intr"%string);
   (0x03, "#BP Breakpoint Exception"%string);
   (0x04, "#OF Overflow Exception"%string);
   (0x05, "#BR Bound Range Exceeded Exception"%string);
   (0x06, "#UD Invalid Opcode Exception"%string);
   (0x07, "#NM Device Not Available Exception"%string);
   (0x08, "#DF Double Fault Exception"%string);
   (0x09, "Coprocessor Segment Overrun"%string);
   (0x0A, "#TS Invalid TSS Exception"%string);
   (0x0B, "#NP Segment Not Present"%string);
   (0x0C, "#SS Stack Fault Exception"%string);
   (0x0D, "#GP General Protection Exception"%string);
   (to_Z PageFault, "#PF Page-Fault Exception"%string);
   (0x10, "#MF x87 FPU Floating-Point Error"%string);
   (0x11, "#AC Alignment Check Exception"%string);
   (0x12, "#MC Machine-Check Exception"%string);
   (0x13, "#XF SIMD Floating-Point Exception"%string)].

Fixpoint register_names (l : list (Z * string)) (tab : t) : res t :=
  match l with
  | [] => Ok tab
  | (idx, name) :: l' => tab ← RegisterName tab idx (lit name); register_names l' tab
  end.

Definition RegisterIntrHandlers (tab : t) : res t := register_names exception_names tab.

(** [GetIntrHandlerTab]: the table the first call makes of [intr_handlers]. *)
Definition GetIntrHandlerTab (default_handler : Z) : res t :=
  construct (replicate (Z.to_nat count) 0) (lit "Unknown") default_handler.

(** [DefaultIntrHandler]: it returns at once, or prints the name (and, for a
    page fault, the address in [CR2]) and never returns. *)
Definition DefaultIntrHandler (tab : t) (intr_num cr2 : Z) :
    res (option (string_view.t * option Z)) :=
  if (intr_num =? 0x27) || (intr_num =? 0x2F) then Ok None
  else
    name ← GetName tab intr_num;
    Ok (Some (name, if intr_num =? to_Z PageFault then Some cr2 else None)).

(** ** What the set-up registers *)

Import HandlerTabFacts.

Lemma shows_lit n : 0 ∉ chars n → string_view.shows (lit n) (chars n).
Proof. intros H. split; [done|]. split; [done|]. by exists []. Qed.

Lemma register_names_ok l tab :
  tab_ok tab → NoDup l.*1 →
  Forall (λ x, 0 ≤ x.1 < 49 ∧ 0 ∉ chars x.2) l →
  ∃ tab', register_names l tab = Ok tab' ∧ tab_ok tab' ∧ handlers tab' = handlers tab
    ∧ (∀ k n, (k, n) ∈ l → name_at tab' (Z.to_nat k) (take 32 (chars n)))
    ∧ ∀ i : nat, Z.of_nat i ∉ l.*1 → names tab' !! i = names tab !! i.
Proof.
  revert tab. induction l as [|[k n] l IH]; intros tab Hok Hnd Hl; simpl.
  { exists tab. split_and!; try done. intros k n H. by apply elem_of_nil in H. }
  apply NoDup_cons in Hnd as [Hk Hnd]. apply Forall_cons in Hl as [[Hr H0] Hl].
  cbn [fst snd] in *.
  destruct (RegisterName_ok tab (Z.to_nat k) (lit n) (chars n) Hok ltac:(lia) (shows_lit n H0))
    as (t1 & E1 & Hok1 & Hh1 & Hn1 & Hkeep). rewrite Z2Nat.id in E1 by lia.
  destruct (IH t1 Hok1 Hnd Hl) as (t2 & E2 & Hok2 & Hh2 & Hn2 & Hkeep2).
  exists t2. rewrite E1, res_bind_ok. refine (conj E2 (conj Hok2 (conj _ (conj _ _)))).
  - congruence.
  - intros k' n' H. apply elem_of_cons in H as [H|H]; [|by apply Hn2].
    injection H as -> ->. destruct Hn1 as (arr & Ha & Hs). exists arr. split; [|done].
    rewrite Hkeep2; [done|]. by rewrite Z2Nat.id by lia.
  - intros i Hi. apply not_elem_of_cons in Hi as [Hi1 Hi2]. rewrite Hkeep2 by done.
    apply Hkeep. intros ->. apply Hi1. by rewrite Z2Nat.id by lia.
Qed.

Lemma exception_names_fine :
  NoDup exception_names.*1
  ∧ Forall (λ x, 0 ≤ x.1 < 49 ∧ 0 ∉ chars x.2) exception_names.
Proof.
  split; [by apply (bool_decide_unpack _); vm_compute|].
  apply (bool_decide_unpack _). vm_compute. exact I.
Qed.

(** After [RegisterIntrHandlers] on the fresh table every exception has its
    name, up to 32 characters, every other interrupt is unknown, and every
    handler is the default one. *)
Lemma RegisterIntrHandlers_ok h :
  ∃ tab0 tab, GetIntrHandlerTab h = Ok tab0 ∧ RegisterIntrHandlers tab0 = Ok tab ∧ tab_ok tab
    ∧ handlers tab = replicate 49 h
    ∧ (∀ k n, (k, n) ∈ exception_names → name_at tab (Z.to_nat k) (take 32 (chars n)))
    ∧ ∀ i : nat, (i < 49)%nat → Z.of_nat i ∉ exception_names.*1 → name_at tab i (chars "Unknown").
Proof.
  destruct (construct_ok (replicate 49 0) (lit "Unknown") (chars "Unknown") h)
    as (t0 & E0 & Hok0 & Hn0 & Hh0); [done| |].
  { apply shows_lit. apply (bool_decide_unpack _). vm_compute. exact I. }
  destruct exception_names_fine as [Hnd Hf].
  destruct (register_names_ok exception_names t0 Hok0 Hnd Hf) as (t1 & E1 & Hok1 & Hh1 & Hn1 & Hk1).
  exists t0, t1. refine (conj E0 (conj E1 (conj Hok1 (conj _ (conj Hn1 _))))); [congruence|].
  intros i Hi Hni. unfold name_at. rewrite Hk1 by done. apply Hn0. done.
Qed.

(** The default handler ignores the two spurious interrupts and halts on every
    other, naming it. *)
Lemma DefaultIntrHandler_ok tab (i : nat) s cr2 :
  tab_ok tab → (i < 49)%nat → name_at tab i s →
  (i = 0x27%nat ∨ i = 0x2F%nat) ∧ DefaultIntrHandler tab (Z.of_nat i) cr2 = Ok None
  ∨ (i ≠ 0x27%nat ∧ i ≠ 0x2F%nat) ∧ ∃ v, string_view.shows v s
    ∧ DefaultIntrHandler tab (Z.of_nat i) cr2
      = Ok (Some (v, if decide (i = 14%nat) then Some cr2 else None)).
Proof.
  intros Hok Hi (arr & Ha & Hs). unfold DefaultIntrHandler.
  destruct (Z.eqb_spec (Z.of_nat i) 0x27); [left; split; [lia|done]|].
  destruct (Z.eqb_spec (Z.of_nat i) 0x2F); [left; split; [lia|done]|].
  right. split; [lia|]. destruct (string_view.of_cptr_ok arr s Hs) as (v & Hv & _ & Hsv).
  exists v. split; [done|]. simpl. unfold GetName.
  rewrite Assert_true by (unfold count; lia). rewrite res_bind_ok, Nat2Z.id, Ha.
  cbn [of_option]. rewrite res_bind_ok, Hv, res_bind_ok. do 3 f_equal.
  destruct (Z.eqb_spec (Z.of_nat i) 14), (decide (i = 14%nat)); (done || lia).
Qed.
End InitIntr.
