(* ===== verification/IntrPic.v ===== *)
(** * The interrupt controller and the timer

    [Pic] models src/src/kernel/interrupt/pic.cpp, [Kernel] the composition
    [intr::InitIntr] of src/src/kernel/interrupt/intr.cpp, and [Timer] the
    set-up of the interval timer in src/src/kernel/io/timer.cpp. A port write is
    the pair of a port and a byte; a routine returns the list of its writes, in
    order. *)
From Stdlib Require Import Strings.String.
From S2P Require Import Prelude UtilBit StlString Desc Intr.

(** [io::WriteByteToPort] *)
Definition write := (Z * Z)%type.

Module Pic.
Import Numbers.

Definition port_master_cmd : Z := 0x20.
Definition port_master_data : Z := 0x21.
Definition port_slave_cmd : Z := 0xA0.
Definition port_slave_data : Z := 0xA1.

(** The interrupt requests of src/include/kernel/interrupt/pic.h. *)
Inductive Irq : Type := Clock | Keyboard | SlavePic | PrimaryIdeChnl | SecondaryIdeChnl.
Definition irq_to_Z (i : Irq) : Z :=
  match i with
  | Clock => 0 | Keyboard => 1 | SlavePic => 2 | PrimaryIdeChnl => 14 | SecondaryIdeChnl => 15
  end.

Definition irq_count : Z := 8.
Definition cascade_irq : Z := irq_to_Z SlavePic.
Definition master_start_intr_num : Z := to_Z Numbers.Clock.
Definition slave_start_intr_num : Z := master_start_intr_num + irq_count.

Inductive TriggerMode : Type := Level | Edge.

Definition WriteToPort (val port : Z) : write := (port, val).

Module InitCmdWord1.
Definition ic4_pos : Z := 0.
Definition sngl_pos : Z := ic4_pos + 1.
Definition ltim_pos : Z := 3.
Definition make (val : Z) : Z := bit.SetBit 8 val 4.
Definition SetSingle (single : bool) (val : Z) : Z :=
  if single then bit.SetBit 8 val sngl_pos else bit.ResetBit 8 val sngl_pos.
Definition SetInitCmdWord4 (enable : bool) (val : Z) : Z :=
  if enable then bit.SetBit 8 val ic4_pos else bit.ResetBit 8 val ic4_pos.
Definition SetTriggerMode (mode : TriggerMode) (val : Z) : Z :=
  match mode with
  | Level => bit.SetBit 8 val ltim_pos
  | Edge => bit.ResetBit 8 val ltim_pos
  end.
End InitCmdWord1.

Module InitCmdWord2.
Definition id_pos : Z := 0.
Definition id_len : Z := 3.
Definition SetIrq0IntrNum (num : Z) : res Z :=
  let val := bit.ResetBits 8 (u8 num) id_pos id_len in
  Assert (val =? num);;
  Ok val.
End InitCmdWord2.

(** Initialization Command Word 3 of the master and of the slave. *)
Definition AddCascadeIrq (irq val : Z) : res Z :=
  Assert (irq <? irq_count);;
  Ok (bit.SetBit 8 val irq).
Definition SetCascadeIrq (irq val : Z) : res Z :=
  Assert (irq <? irq_count);;
  Ok (u8 irq).

Module InitCmdWord4.
Definition x86_pos : Z := 0.
Definition aeoi_pos : Z := x86_pos + 1.
Definition Set8086 (enable : bool) (val : Z) : Z :=
  if enable then bit.SetBit 8 val x86_pos else bit.ResetBit 8 val x86_pos.
Definition SetAutoIntrEnd (enable : bool) (val : Z) : Z :=
  if enable then bit.SetBit 8 val aeoi_pos else bit.ResetBit 8 val aeoi_pos.
End InitCmdWord4.

Module OpCmdWord1.
Definition EnableAllIntrs (val : Z) : Z := 0.
Definition DisableAllIntrs (val : Z) : Z := u8 (-1).
Definition SetIntr (intr : Irq) (enable : bool) (val : Z) : Z :=
  let irq := irq_to_Z intr mod irq_count in
  if enable then bit.ResetBit 8 val irq else bit.SetBit 8 val irq.
Definition EnableIntr (intr : Irq) (val : Z) : Z := SetIntr intr true val.
Definition DisableIntr (intr : Irq) (val : Z) : Z := SetIntr intr false val.
End OpCmdWord1.
Import OpCmdWord1.

Definition InitMaster : res (list write) :=
  let icw1 := InitCmdWord1.SetInitCmdWord4 true
                (InitCmdWord1.SetTriggerMode Edge (InitCmdWord1.make 0)) in
  icw2 ← InitCmdWord2.SetIrq0IntrNum master_start_intr_num;
  icw3 ← AddCascadeIrq cascade_irq 0;
  let icw4 := InitCmdWord4.Set8086 true 0 in
  Ok [WriteToPort icw1 port_master_cmd; WriteToPort icw2 port_master_data;
      WriteToPort icw3 port_master_data; WriteToPort icw4 port_master_data].

Definition InitSlave : res (list write) :=
  let icw1 := InitCmdWord1.SetInitCmdWord4 true
                (InitCmdWord1.SetTriggerMode Edge (InitCmdWord1.make 0)) in
  icw2 ← InitCmdWord2.SetIrq0IntrNum slave_start_intr_num;
  icw3 ← SetCascadeIrq cascade_irq 0;
  let icw4 := InitCmdWord4.Set8086 true 0 in
  Ok [WriteToPort icw1 port_slave_cmd; WriteToPort icw2 port_slave_data;
      WriteToPort icw3 port_slave_data; WriteToPort icw4 port_slave_data].

Definition IsMasterIntr (intr : Irq) : bool := irq_to_Z intr <? irq_count.

(** The loop of [InitPgmIntrCtrl] on the two masks. *)
Fixpoint enable_all (intrs : list Irq) (master slave : Z) : Z * Z :=
  match intrs with
  | [] => (master, slave)
  | intr :: intrs' =>
      if IsMasterIntr intr then enable_all intrs' (EnableIntr intr master) slave
      else enable_all intrs' master (EnableIntr intr slave)
  end.

Definition InitPgmIntrCtrl (intrs : list Irq) : res (list write) :=
  m ← InitMaster;
  s ← InitSlave;
  let '(master, slave) := enable_all intrs (DisableAllIntrs 0) (DisableAllIntrs 0) in
  Ok (m ++ s ++ [WriteToPort master port_master_data; WriteToPort slave port_slave_data]).

(** ** The masks *)

Lemma EnableIntr_bit intr val i :
  in_u 8 val → 0 ≤ i →
  Z.testbit (EnableIntr intr val) i = negb (i =? irq_to_Z intr mod 8) && Z.testbit val i.
Proof.
  intros. unfold EnableIntr, SetIntr, irq_count.
  apply bit.testbit_ResetBit; [done|done| |done]. by destruct intr.
Qed.

Lemma bool_decide_cons (x y : Z) l :
  bool_decide (x ∈ y :: l) = (x =? y) || bool_decide (x ∈ l).
Proof.
  destruct (Z.eqb_spec x y); simpl.
  - apply bool_decide_eq_true_2, elem_of_cons. by left.
  - apply bool_decide_ext. rewrite elem_of_cons. naive_solver.
Qed.

(** Bit [i] of the master's mask is cleared by request [i], bit [i] of the
    slave's by request [8 + i]. *)
Lemma enable_all_bits intrs m s i :
  in_u 8 m → in_u 8 s → 0 ≤ i < 8 →
  let '(m', s') := enable_all intrs m s in
  in_u 8 m' ∧ in_u 8 s'
  ∧ Z.testbit m' i = negb (bool_decide (i ∈ irq_to_Z <$> intrs)) && Z.testbit m i
  ∧ Z.testbit s' i = negb (bool_decide (8 + i ∈ irq_to_Z <$> intrs)) && Z.testbit s i.
Proof.
  revert m s. induction intrs as [|intr intrs IH]; intros m s Hm Hs Hi.
  { cbn [enable_all fmap list_fmap]. rewrite !bool_decide_eq_false_2 by apply not_elem_of_nil. done. }
  assert (He : ∀ v, in_u 8 (EnableIntr intr v)) by (intros; apply bit.ResetBit_range; lia).
  assert (Hr : 0 ≤ irq_to_Z intr < 16) by (by destruct intr).
  rewrite fmap_cons, !bool_decide_cons, !negb_orb. cbn [enable_all].
  unfold IsMasterIntr, irq_count. destruct (Z.ltb_spec (irq_to_Z intr) 8) as [Hlt|Hge].
  - specialize (IH (EnableIntr intr m) s (He m) Hs Hi).
    destruct (enable_all intrs _ s) as [m' s']. destruct IH as (H1 & H2 & -> & ->).
    rewrite EnableIntr_bit by (done || lia). rewrite (Z.mod_small (irq_to_Z intr)) by lia.
    destruct (Z.eqb_spec (8 + i) (irq_to_Z intr)); [lia|]. split_and!; try done. btauto.
  - specialize (IH m (EnableIntr intr s) Hm (He s) Hi).
    destruct (enable_all intrs m _) as [m' s']. destruct IH as (H1 & H2 & -> & ->).
    rewrite EnableIntr_bit by (done || lia).
    replace (irq_to_Z intr mod 8) with (irq_to_Z intr - 8) by div_lia.
    destruct (Z.eqb_spec i (irq_to_Z intr)); [lia|].
    replace (8 + i =? irq_to_Z intr) with (i =? irq_to_Z intr - 8)
      by (apply eq_true_iff_eq; rewrite !Z.eqb_eq; lia).
    split_and!; try done. btauto.
Qed.

(** For any set of interrupts, [InitPgmIntrCtrl] programs both chips with
    the four initialization words of an edge-triggered, cascaded 8086 system
    (requests 0 to 7 raise interrupts 0x20 to 0x27, requests 8 to 15 raise 0x28
    to 0x2F, the slave on request 2) and then masks exactly the requests that
    were not asked for. *)
Theorem InitPgmIntrCtrl_masks intrs :
  ∃ master slave,
    InitPgmIntrCtrl intrs
    = Ok [(0x20, 0x11); (0x21, 0x20); (0x21, 0x04); (0x21, 0x01);
          (0xA0, 0x11); (0xA1, 0x28); (0xA1, 0x02); (0xA1, 0x01);
          (0x21, master); (0xA1, slave)]
    ∧ in_u 8 master ∧ in_u 8 slave
    ∧ ∀ intr, 0 ≤ intr < 16 →
        Z.testbit (if intr <? 8 then master else slave) (intr mod 8)
        = negb (bool_decide (intr ∈ irq_to_Z <$> intrs)).
Proof.
  pose proof (λ i, enable_all_bits intrs (DisableAllIntrs 0) (DisableAllIntrs 0) i
    ltac:(done) ltac:(done)) as Hb.
  unfold InitPgmIntrCtrl. destruct (enable_all intrs _ _) as [m s] eqn:E.
  exists m, s. split; [reflexivity|].
  destruct (Hb 0 ltac:(lia)) as (Hm & Hs & _ & _). split; [done|]. split; [done|].
  assert (Hones : ∀ i, 0 ≤ i < 8 → Z.testbit (DisableAllIntrs 0) i = true).
  { intros i Hi. change (DisableAllIntrs 0) with (Z.ones 8). by apply Z.ones_spec_low. }
  intros i Hi. destruct (Z.ltb_spec i 8).
  - rewrite Z.mod_small by lia. destruct (Hb i ltac:(lia)) as (_ & _ & -> & _).
    rewrite Hones by lia. by rewrite andb_true_r.
  - replace (i mod 8) with (i - 8) by div_lia.
    destruct (Hb (i - 8) ltac:(lia)) as (_ & _ & _ & ->).
    rewrite Hones by lia. replace (8 + (i - 8)) with i by lia. by rewrite andb_true_r.
Qed.
End Pic.

(** [intr::InitIntr]: the descriptor table, the names, the controller and the
    table register. *)
Module Kernel.
Import Numbers.

Record state := mkState {
  idt : list Z;
  tab : IntrHandlerTab.t;
  writes : list write;
  idtr : DescTab.DescTabReg
}.

Definition enabled_irqs : list Pic.Irq :=
  [Pic.Keyboard; Pic.Clock; Pic.SlavePic; Pic.PrimaryIdeChnl; Pic.SecondaryIdeChnl].

(** The static table starts with invalid gates; [idt_addr] is its address. *)
Definition InitIntr (entries : list Z) (idt_addr default_handler : Z) : res state :=
  idt ← IntrDescTab.InitIntrDescTab entries (replicate (Z.to_nat count) 0);
  tab ← InitIntr.GetIntrHandlerTab default_handler;
  tab ← InitIntr.RegisterIntrHandlers tab;
  writes ← Pic.InitPgmIntrCtrl enabled_irqs;
  Ok (mkState idt tab writes (DescTab.BuildReg idt_addr count)).

(** What the processor reads in a gate. *)
Definition gate_is (g entry : Z) (dpl : Privilege) : Prop :=
  GateDesc.GetSelector g = Selector.krnl_code ∧ GateDesc.GetFuncOffset g = entry
  ∧ Attribute.view_of (Descriptor.GetAttribute g) = Attribute.mkView 14 true dpl true.

Lemma gate_is_Format e dpl :
  in_u 32 e →
  gate_is (GateDesc.Format Selector.krnl_code e (Attribute.make_sys Attribute.Intr32 dpl true)) e dpl.
Proof.
  intros He. destruct (GateDesc.GateDesc_roundtrip Selector.krnl_code e
    (Attribute.make_sys Attribute.Intr32 dpl true) (Selector.make_range _ _ _) He
    (Attribute.Format_range _ _ _ _)) as [HG _].
  apply pair_eq in HG as [HG H3]. apply pair_eq in HG as [H1 H2].
  refine (conj H1 (conj H2 _)). rewrite H3. apply Attribute.Format_view.
Qed.

(** [InitIntr] always succeeds on the entry points of the assembly: every
    one of the 49 interrupts gets a present 32-bit interrupt gate to its entry
    point in the kernel's code segment, only the one of system calls can be
    raised from user mode, every interrupt has the default handler, and the
    mask leaves the clock, the keyboard, the cascade and both disks on. *)
Theorem InitIntr_gates entries idt_addr h :
  length entries = 49%nat → Forall (in_u 32) entries →
  ∃ st, InitIntr entries idt_addr h = Ok st
    ∧ idtr st = DescTab.mkReg 391 idt_addr
    ∧ length (idt st) = 49%nat
    ∧ (∀ i e, entries !! i = Some e →
        ∃ g, idt st !! i = Some g ∧ gate_is g e (if decide (i = 48%nat) then Three else Zero))
    ∧ HandlerTabFacts.tab_ok (tab st)
    ∧ IntrHandlerTab.handlers (tab st) = replicate 49 h
    ∧ HandlerTabFacts.name_at (tab st) 14 (chars "#PF Page-Fault Exception")
    ∧ drop 8 (writes st) = [(0x21, 0xF8); (0xA1, 0x3F)].
Proof.
  intros Hlen Hf.
  destruct (IntrDescTab.InitIntrDescTab_ok entries (replicate (Z.to_nat count) 0) Hlen)
    as (t & E1 & Hl & Hg); [done|].
  destruct (InitIntr.RegisterIntrHandlers_ok h) as (t0 & t1 & E2 & E3 & Htab & Hh & Hn & _).
  eexists. split; [unfold InitIntr; rewrite E1, res_bind_ok, E2, res_bind_ok, E3; reflexivity|].
  cbn [idtr idt tab writes].
  refine (conj eq_refl (conj Hl (conj _ (conj Htab (conj Hh (conj _ eq_refl)))))).
  - intros i e Hi. eexists. split; [by apply Hg|].
    assert (He : in_u 32 e) by by eapply Forall_lookup_1 in Hf.
    destruct (decide (i = 48%nat)); by apply gate_is_Format.
  - apply (Hn 14 "#PF Page-Fault Exception"%string). by do 14 (apply list_elem_of_further); left.
Qed.

Lemma InitIntr_gates_witness :
  ∃ st, InitIntr (replicate 49 0xC0001000) 0xC0020000 0xC0001234 = Ok st
    ∧ idtr st = DescTab.mkReg 391 0xC0020000
    ∧ length (idt st) = 49%nat
    ∧ (∀ i e, replicate 49 0xC0001000 !! i = Some e →
        ∃ g, idt st !! i = Some g ∧ gate_is g e (if decide (i = 48%nat) then Three else Zero))
    ∧ HandlerTabFacts.tab_ok (tab st)
    ∧ IntrHandlerTab.handlers (tab st) = replicate 49 0xC0001234
    ∧ HandlerTabFacts.name_at (tab st) 14 (chars "#PF Page-Fault Exception")
    ∧ drop 8 (writes st) = [(0x21, 0xF8); (0xA1, 0x3F)].
Proof.
  apply (InitIntr_gates (replicate 49 0xC0001000) 0xC0020000 0xC0001234); [reflexivity|].
  apply Forall_replicate. unfold in_u. lia.
Defined.
End Kernel.

(** The interval timer. *)
Module Timer.
Import Numbers.

Definition port_counter_0 : Z := 0x40.
Definition port_counter_1 : Z := 0x41.
Definition port_counter_2 : Z := 0x42.
Definition port_pit_ctrl : Z := 0x43.

Inductive ReadWriteMode : Type :=
| LatchRead | ReadWriteLowByte | ReadWriteHighByte | ReadWriteLowHighBytes.
Definition ReadWriteMode_to_Z (m : ReadWriteMode) : Z :=
  match m with
  | LatchRead => 0 | ReadWriteLowByte => 1 | ReadWriteHighByte => 2 | ReadWriteLowHighBytes => 3
  end.

Inductive CountMode : Type :=
| IntrOnTerminalCount | HardRetriggerOneShot | RateGenerator
| SquareWaveGenerator | SoftTriggerStrobe | HardTriggerStrobe.
Definition CountMode_to_Z (m : CountMode) : Z :=
  match m with
  | IntrOnTerminalCount => 0 | HardRetriggerOneShot => 1 | RateGenerator => 2
  | SquareWaveGenerator => 3 | SoftTriggerStrobe => 4 | HardTriggerStrobe => 5
  end.

Inductive DigitalMode : Type := Binary | BinaryCodedDecimal.

Module CtrlWord.
Definition bcd_pos : Z := 0.
Definition m_pos : Z := bcd_pos + 1.
Definition m_len : Z := 3.
Definition rw_pos : Z := m_pos + m_len.
Definition rw_len : Z := 2.
Definition sc_pos : Z := rw_pos + rw_len.
Definition sc_len : Z := 2.

Definition SetDigitalMode (mode : DigitalMode) (val : Z) : Z :=
  match mode with
  | BinaryCodedDecimal => bit.SetBit 8 val bcd_pos
  | Binary => bit.ResetBit 8 val bcd_pos
  end.
Definition SetCountMode (mode : CountMode) (val : Z) : Z :=
  bit.SetBits 8 val (CountMode_to_Z mode) m_pos m_len.
Definition SetReadWriteMode (mode : ReadWriteMode) (val : Z) : Z :=
  bit.SetBits 8 val (ReadWriteMode_to_Z mode) rw_pos rw_len.
Definition SetSelectCounter (id : Z) (val : Z) : res Z :=
  Assert (id <? 3);;
  Ok (bit.SetBits 8 val id sc_pos sc_len).
Definition WriteToPort (val : Z) : write := (port_pit_ctrl, val).
End CtrlWord.

(** A division by zero is undefined. *)
Definition CalcInitCounterVal (freq_per_second : Z) : res Z :=
  if freq_per_second =? 0 then Fault else Ok (1193180 / freq_per_second).

Definition InitCounter (freq_per_second : Z) : res (list write) :=
  ctrl ← CtrlWord.SetSelectCounter 0 0;
  let ctrl := CtrlWord.SetDigitalMode Binary
    (CtrlWord.SetReadWriteMode ReadWriteLowHighBytes
      (CtrlWord.SetCountMode RateGenerator ctrl)) in
  init_val ← CalcInitCounterVal freq_per_second;
  Ok [CtrlWord.WriteToPort ctrl;
      (port_counter_0, bit.GetLowByte (u16 init_val));
      (port_counter_0, bit.GetHighByte (u16 init_val))].

(** What [InitTimer] changes: the flag, the ticks and the handler table. *)
Record state := mkState { inited : bool; ticks : Z; tab : IntrHandlerTab.t }.

Definition GetTicks (s : state) : Z := ticks s.
Definition IsTimerInited (s : state) : bool := inited s.

(** [handler] is the address of [ClockIntrHandler]. *)
Definition InitTimer (thread_inited : bool) (handler freq_per_second : Z) (s : state) :
    res (state * list write) :=
  Assert (negb (IsTimerInited s));;
  Assert thread_inited;;
  writes ← InitCounter freq_per_second;
  tab ← IntrHandlerTab.RegisterIntrHandler (tab s) Numbers.Clock handler;
  Ok (mkState true 0 tab, writes).

(** The timer counts down from the value of its two data bytes, low first, 0
    standing for 65536. *)
Definition period (lo hi : Z) : Z := if hi * 256 + lo =? 0 then 65536 else hi * 256 + lo.

Lemma low_high_bytes v : in_u 16 v → bit.GetHighByte v * 256 + bit.GetLowByte v = v.
Proof.
  intros [H0 H1]. unfold bit.GetHighByte, bit.GetLowByte.
  rewrite !GetByte_field, !bit.GetBits_div_mod by (done || lia).
  change (1 * bit.byte_len) with 8. change (2 ^ 8) with 256. change (2 ^ 0) with 1.
  change (2 ^ 16) with 65536 in *. div_lia.
Qed.

(** The counter and the handler of the clock after [InitTimer]. *)
Lemma InitTimer_ok tab h freq t :
  HandlerTabFacts.tab_ok tab → 0 ≤ freq < 2 ^ 32 →
  match InitTimer true h freq (mkState false t tab) with
  | Ok (s, writes) =>
      freq ≠ 0 ∧ s = mkState true 0 (IntrHandlerTab.mk (IntrHandlerTab.names tab)
                                       (<[32%nat := h]> (IntrHandlerTab.handlers tab)))
      ∧ ∃ lo hi, writes = [(0x43, 0x34); (0x40, lo); (0x40, hi)]
        ∧ in_u 8 lo ∧ in_u 8 hi ∧ hi * 256 + lo = (1193180 / freq) mod 65536
        ∧ (19 ≤ freq ≤ 1193180 → period lo hi = 1193180 / freq)
  | Fault => freq = 0
  | _ => False
  end.
Proof.
  intros Hok Hf. unfold InitTimer, InitCounter, CalcInitCounterVal.
  simpl IsTimerInited. change (CtrlWord.SetSelectCounter 0 0) with (Ok 0).
  destruct (Z.eqb_spec freq 0) as [->|Hne]; [done|].
  rewrite !Assert_true, !res_bind_ok by done. cbn [Timer.tab].
  destruct (HandlerTabFacts.RegisterHandler_ok tab 32 h Hok ltac:(lia)) as [E _].
  unfold IntrHandlerTab.RegisterIntrHandler. change (to_Z Numbers.Clock) with (Z.of_nat 32).
  rewrite E, res_bind_ok. split; [done|]. split; [done|].
  pose proof (wrap_range 16 (1193180 / freq) ltac:(lia)) as Hw.
  pose proof (low_high_bytes _ Hw) as HL.
  exists (bit.GetLowByte (u16 (1193180 / freq))), (bit.GetHighByte (u16 (1193180 / freq))).
  split; [reflexivity|]. split; [by apply wrap_range|]. split; [by apply wrap_range|].
  split; [exact HL|]. intros Hr. unfold period. fold u16 in HL. rewrite HL.
  assert (1 ≤ 1193180 / freq) by (apply Z.div_le_lower_bound; lia).
  assert (1193180 / freq < 65536) by (apply Z.div_lt_upper_bound; lia).
  unfold u16. rewrite wrap_small by (unfold in_u; lia).
  destruct (Z.eqb_spec (1193180 / freq) 0); lia.
Qed.

(** C36. [InitTimer] starts the counter in binary rate-generator mode. The value
    programmed is the input frequency divided by the one asked for, rounded
    down, modulo 65536. From 19 up to 1193180 interrupts per second, the input
    frequency, the period is that quotient; below, it wraps and the clock runs
    too fast, and above it is 0, which the counter takes for 65536. The handler
    of the clock is the scheduler's, and the other handlers are kept. Zero
    interrupts per second divide by zero. *)
Theorem InitTimer_period tab h freq t :
  HandlerTabFacts.tab_ok tab → 0 ≤ freq < 2 ^ 32 →
  match InitTimer true h freq (mkState false t tab) with
  | Ok (s, writes) =>
      freq ≠ 0 ∧ s = mkState true 0 (IntrHandlerTab.mk (IntrHandlerTab.names tab)
                                       (<[32%nat := h]> (IntrHandlerTab.handlers tab)))
      ∧ ∃ lo hi, writes = [(0x43, 0x34); (0x40, lo); (0x40, hi)]
        ∧ in_u 8 lo ∧ in_u 8 hi ∧ hi * 256 + lo = (1193180 / freq) mod 65536
        ∧ (19 ≤ freq ≤ 1193180 → period lo hi = 1193180 / freq)
  | Fault => freq = 0
  | _ => False
  end.
Proof. apply InitTimer_ok. Qed.

Lemma InitTimer_period_witness :
  let tab := IntrHandlerTab.mk (replicate 49 (replicate 33 0)) (replicate 49 1) in
  match InitTimer true 0xC0004000 100 (mkState false 5 tab) with
  | Ok (s, writes) =>
      100 ≠ 0 ∧ s = mkState true 0 (IntrHandlerTab.mk (IntrHandlerTab.names tab)
                                     (<[32%nat := 0xC0004000]> (IntrHandlerTab.handlers tab)))
      ∧ ∃ lo hi, writes = [(0x43, 0x34); (0x40, lo); (0x40, hi)]
        ∧ in_u 8 lo ∧ in_u 8 hi ∧ hi * 256 + lo = (1193180 / 100) mod 65536
        ∧ (19 ≤ 100 ≤ 1193180 → period lo hi = 1193180 / 100)
  | Fault => 100 = 0
  | _ => False
  end.
Proof.
  apply (InitTimer_period (IntrHandlerTab.mk (replicate 49 (replicate 33 0)) (replicate 49 1))
    0xC0004000 100 5); [|lia].
  split; [reflexivity|]. split; [reflexivity|]. by apply Forall_replicate.
Defined.
End Timer.
