(* ===== verification/SysCall.v ===== *)
(** * System calls

    [Tab] models the handler table and [InitSysCall] of
    src/include/kernel/syscall/call.h and src/src/kernel/syscall/call.cpp,
    [Usr] the user library of src/src/user: every function is the list of the
    interrupts it raises, a system call number and an argument. The entry of
    the interrupt is assembly: it calls the slot of the table with the number in
    [ECX] on the argument in [EAX]. Kernel functions are named by [fn]; their
    addresses are an argument. *)
From S2P Require Import Prelude UtilBit StlString.

Module Tab.

Definition count : Z := 0x60.

(** The kernel's enumeration of system calls. *)
Inductive SysCallType : Type :=
| GetCurrPid | PrintChar | PrintHex | PrintStr | MemAlloc | MemFree | OpenFile | CloseFile
| WriteFile | ReadFile | SeekFile | DeleteFile | CreateDir | Fork.

Definition to_Z (t : SysCallType) : Z :=
  match t with
  | GetCurrPid => 0 | PrintChar => 1 | PrintHex => 2 | PrintStr => 3 | MemAlloc => 4
  | MemFree => 5 | OpenFile => 6 | CloseFile => 7 | WriteFile => 8 | ReadFile => 9
  | SeekFile => 10 | DeleteFile => 11 | CreateDir => 12 | Fork => 13
  end.

(** The kernel functions that are registered. *)
Inductive fn : Type :=
| Process_GetCurrPid | Console_PrintChar | Console_PrintHex | Console_PrintStr
| mem_Allocate | Process_ForkCurrent | mem_Free | File_Open | File_Read | File_Seek
| File_Write | File_Close | File_Delete | Directory_Create.

(** The private and the public [Register]. *)
Definition Register_ (handlers : list Z) (idx handler : Z) : res (list Z) :=
  Assert (idx <? count);;
  _ ← of_option (handlers !! Z.to_nat idx);
  Ok (<[Z.to_nat idx := handler]> handlers).
Definition Register (func : SysCallType) (handler : Z) (handlers : list Z) : res (list Z) :=
  Register_ handlers (to_Z func) handler.

Definition GetCount : Z := count.
Definition GetHandlers (handlers : list Z) : list Z := handlers.

(** [InitSysCall], in the order of the source. *)
Definition InitSysCall (addr : fn → Z) (handlers : list Z) : res (list Z) :=
  h ← Register GetCurrPid (addr Process_GetCurrPid) handlers;
  h ← Register PrintChar (addr Console_PrintChar) h;
  h ← Register PrintHex (addr Console_PrintHex) h;
  h ← Register PrintStr (addr Console_PrintStr) h;
  h ← Register MemAlloc (addr mem_Allocate) h;
  h ← Register Fork (addr Process_ForkCurrent) h;
  h ← Register MemFree (addr mem_Free) h;
  h ← Register OpenFile (addr File_Open) h;
  h ← Register ReadFile (addr File_Read) h;
  h ← Register SeekFile (addr File_Seek) h;
  h ← Register WriteFile (addr File_Write) h;
  h ← Register CloseFile (addr File_Close) h;
  h ← Register DeleteFile (addr File_Delete) h;
  Register CreateDir (addr Directory_Create) h.

Lemma Register_ok t a h :
  length h = 96%nat →
  Register t a h = Ok (<[Z.to_nat (to_Z t) := a]> h).
Proof.
  intros Hl. unfold Register, Register_.
  assert (0 ≤ to_Z t < 14) by (by destruct t).
  rewrite Assert_true by (unfold count; lia). rewrite res_bind_ok.
  destruct (lookup_lt_is_Some_2 h (Z.to_nat (to_Z t))) as [x ->]; [lia|]. done.
Qed.

(** The function a slot is for. *)
Definition fn_of (t : SysCallType) : fn :=
  match t with
  | GetCurrPid => Process_GetCurrPid | PrintChar => Console_PrintChar
  | PrintHex => Console_PrintHex | PrintStr => Console_PrintStr | MemAlloc => mem_Allocate
  | MemFree => mem_Free | OpenFile => File_Open | CloseFile => File_Close
  | WriteFile => File_Write | ReadFile => File_Read | SeekFile => File_Seek
  | DeleteFile => File_Delete | CreateDir => Directory_Create | Fork => Process_ForkCurrent
  end.

(** Every type gets its function, and nothing else is registered. *)
Lemma InitSysCall_ok addr handlers :
  length handlers = 96%nat →
  ∃ h, InitSysCall addr handlers = Ok h ∧ length h = 96%nat
    ∧ (∀ t, h !! Z.to_nat (to_Z t) = Some (addr (fn_of t)))
    ∧ ∀ i, (14 ≤ i)%nat → h !! i = handlers !! i.
Proof.
  intros Hl. unfold InitSysCall.
  repeat (rewrite Register_ok by (by rewrite ?length_insert); rewrite ?res_bind_ok).
  eexists. split; [reflexivity|]. split; [by rewrite !length_insert|]. split.
  - intros []; simpl;
      repeat (rewrite list_lookup_insert_eq by (rewrite ?length_insert; lia); reflexivity)
      || (repeat rewrite list_lookup_insert_ne by done;
          rewrite list_lookup_insert_eq by (rewrite ?length_insert; lia); reflexivity).
  - intros i Hi. by rewrite !list_lookup_insert_ne by (simpl; lia).
Qed.
End Tab.

(** The kernel's side of a call: which function runs, with which parameters. *)
Module Krnl.
Import Tab.

(** An argument: a word, or the address of a structure of words. *)
Inductive arg : Type := Word (w : Z) | Struct (ws : list Z).

Inductive call : Type :=
| KGetCurrPid | KFork
| KPrintChar (ch : Z) | KPrintHex (num : Z) | KPrintStr (str : Z)
| KAllocate (size : Z) | KFree (base : Z)
| KOpen (path flags : Z) | KClose (desc : Z) | KDelete (path : Z)
| KWrite (desc data size : Z) | KRead (desc buf size : Z) | KSeek (desc offset origin : Z)
| KCreateDir (path : Z).

(** How a registered function reads its argument: the parameter of the function,
    the fields of [OpenArgs], [WriteArgs], [ReadArgs] and [SeekArgs]. *)
Definition decode (f : fn) (a : arg) : option call :=
  match f, a with
  | Process_GetCurrPid, _ => Some KGetCurrPid
  | Process_ForkCurrent, _ => Some KFork
  | Console_PrintChar, Word w => Some (KPrintChar (u8 w))
  | Console_PrintHex, Word w => Some (KPrintHex w)
  | Console_PrintStr, Word w => Some (KPrintStr w)
  | mem_Allocate, Word w => Some (KAllocate w)
  | mem_Free, Word w => Some (KFree w)
  | File_Open, Struct [path; flags] => Some (KOpen path flags)
  | File_Close, Word w => Some (KClose w)
  | File_Delete, Word w => Some (KDelete w)
  | File_Write, Struct [desc; data; size] => Some (KWrite desc data size)
  | File_Read, Struct [desc; buf; size] => Some (KRead desc buf size)
  | File_Seek, Struct [desc; offset; origin] => Some (KSeek desc (s32 offset) origin)
  | Directory_Create, Word w => Some (KCreateDir w)
  | _, _ => None
  end.
End Krnl.

(** The user library; [SysCall] is the interrupt. A character is a byte. *)
Module Usr.
Import Krnl.

(** The user's enumeration, "in the same order". *)
Inductive SysCallType : Type :=
| GetCurrPid | PrintChar_ | PrintHex_ | PrintStr_ | MemAlloc | MemFree | OpenFile | CloseFile
| WriteFile | ReadFile | SeekFile | DeleteFile | CreateDir | Fork_.

Definition to_Z (t : SysCallType) : Z :=
  match t with
  | GetCurrPid => 0 | PrintChar_ => 1 | PrintHex_ => 2 | PrintStr_ => 3 | MemAlloc => 4
  | MemFree => 5 | OpenFile => 6 | CloseFile => 7 | WriteFile => 8 | ReadFile => 9
  | SeekFile => 10 | DeleteFile => 11 | CreateDir => 12 | Fork_ => 13
  end.

(** The interrupts a function raises: numbers and arguments. *)
Definition trace := list (Z * arg).
Definition SysCall (t : SysCallType) (a : arg) : trace := [(to_Z t, a)].

Module Process.
Definition GetCurrPid : trace := SysCall GetCurrPid (Word 0).
Definition Fork : trace := SysCall Fork_ (Word 0).
End Process.

Module mem.
Definition Allocate (size : Z) : trace := SysCall MemAlloc (Word size).
Definition Free (base : Z) : trace := SysCall MemFree (Word base).
End mem.

Module File.
Definition Open (path flags : Z) : trace := SysCall OpenFile (Struct [path; flags]).
Definition Close (desc : Z) : trace := SysCall CloseFile (Word desc).
Definition Delete (path : Z) : trace := SysCall DeleteFile (Word path).
Definition Write (desc data size : Z) : trace := SysCall WriteFile (Struct [desc; data; size]).
Definition Seek (desc offset origin : Z) : trace :=
  SysCall SeekFile (Struct [desc; u32 offset; origin]).
Definition Read (desc buf size : Z) : trace := SysCall ReadFile (Struct [desc; buf; size]).
End File.

Module Directory.
Definition Create (path : Z) : trace := SysCall CreateDir (Word path).
End Directory.

Module Console.
Definition newline : Z := 10.
Definition minus : Z := 45.
Definition PrintChar (ch : Z) : trace := SysCall PrintChar_ (Word (u32 (cstring.schar ch))).
Definition PrintStr (str : Z) : trace := SysCall PrintStr_ (Word str).
Definition PrintHex (num : Z) : trace := SysCall PrintHex_ (Word num).
(** The overload on a signed number; negating the smallest overflows. *)
Definition PrintHex_int (num : Z) : res trace :=
  if 0 <=? num then Ok (PrintHex (u32 num))
  else if num =? - 2 ^ 31 then Fault
  else Ok (PrintChar minus ++ PrintHex (u32 (- num))).
Definition PrintlnStr (str : Z) : trace := PrintStr str ++ PrintChar newline.
Definition PrintlnChar (ch : Z) : trace := PrintChar ch ++ PrintChar newline.
Definition PrintlnHex (num : Z) : trace := PrintHex num ++ PrintChar newline.
Definition PrintlnHex_int (num : Z) : res trace :=
  t ← PrintHex_int num;
  Ok (t ++ PrintChar newline).
End Console.

(** ** The two sides together *)

(** A call of the user library, and what the kernel is meant to run for it. *)
Inductive call : Type :=
| UGetCurrPid | UFork | UAllocate (size : Z) | UFree (base : Z)
| UOpen (path flags : Z) | UClose (desc : Z) | UDelete (path : Z)
| UWrite (desc data size : Z) | USeek (desc offset origin : Z) | URead (desc buf size : Z)
| UCreate (path : Z)
| UPrintChar (ch : Z) | UPrintStr (str : Z) | UPrintHex (num : Z) | UPrintHex_int (num : Z)
| UPrintlnStr (str : Z) | UPrintlnChar (ch : Z) | UPrintlnHex (num : Z)
| UPrintlnHex_int (num : Z).

Definition run (c : call) : res trace :=
  match c with
  | UGetCurrPid => Ok Process.GetCurrPid
  | UFork => Ok Process.Fork
  | UAllocate size => Ok (mem.Allocate size)
  | UFree base => Ok (mem.Free base)
  | UOpen path flags => Ok (File.Open path flags)
  | UClose desc => Ok (File.Close desc)
  | UDelete path => Ok (File.Delete path)
  | UWrite desc data size => Ok (File.Write desc data size)
  | USeek desc offset origin => Ok (File.Seek desc offset origin)
  | URead desc buf size => Ok (File.Read desc buf size)
  | UCreate path => Ok (Directory.Create path)
  | UPrintChar ch => Ok (Console.PrintChar ch)
  | UPrintStr str => Ok (Console.PrintStr str)
  | UPrintHex num => Ok (Console.PrintHex num)
  | UPrintHex_int num => Console.PrintHex_int num
  | UPrintlnStr str => Ok (Console.PrintlnStr str)
  | UPrintlnChar ch => Ok (Console.PrintlnChar ch)
  | UPrintlnHex num => Ok (Console.PrintlnHex num)
  | UPrintlnHex_int num => Console.PrintlnHex_int num
  end.

(** The digits of a signed number. *)
Definition hex_int (num : Z) : list Krnl.call :=
  if 0 <=? num then [KPrintHex num] else [KPrintChar Console.minus; KPrintHex (- num)].

Definition meant (c : call) : list Krnl.call :=
  match c with
  | UGetCurrPid => [KGetCurrPid]
  | UFork => [KFork]
  | UAllocate size => [KAllocate size]
  | UFree base => [KFree base]
  | UOpen path flags => [KOpen path flags]
  | UClose desc => [KClose desc]
  | UDelete path => [KDelete path]
  | UWrite desc data size => [KWrite desc data size]
  | USeek desc offset origin => [KSeek desc offset origin]
  | URead desc buf size => [KRead desc buf size]
  | UCreate path => [KCreateDir path]
  | UPrintChar ch => [KPrintChar ch]
  | UPrintStr str => [KPrintStr str]
  | UPrintHex num => [KPrintHex num]
  | UPrintHex_int num => hex_int num
  | UPrintlnStr str => [KPrintStr str; KPrintChar Console.newline]
  | UPrintlnChar ch => [KPrintChar ch; KPrintChar Console.newline]
  | UPrintlnHex num => [KPrintHex num; KPrintChar Console.newline]
  | UPrintlnHex_int num => hex_int num ++ [KPrintChar Console.newline]
  end.

(** The parameters that have a narrower type than a word. *)
Definition call_ok (c : call) : Prop :=
  match c with
  | UPrintChar ch | UPrintlnChar ch => in_u 8 ch
  | USeek _ offset _ => - 2 ^ 31 ≤ offset < 2 ^ 31
  | UPrintHex_int num | UPrintlnHex_int num => - 2 ^ 31 < num < 2 ^ 31
  | _ => True
  end.

(** The slot [n] of the table holds the address of a function that reads the
    argument as the call [k]. *)
Definition serves (addr : Tab.fn → Z) (h : list Z) (x : Z * arg) (k : Krnl.call) : Prop :=
  ∃ f, h !! Z.to_nat x.1 = Some (addr f) ∧ decode f x.2 = Some k.

Lemma s32_u32 x : - 2 ^ 31 ≤ x < 2 ^ 31 → s32 (u32 x) = x.
Proof.
  intros. unfold s32. rewrite u32_idemp. unfold u32, wrap.
  destruct (Z.ltb_spec (x mod 2 ^ 32) (2 ^ 31)); div_lia.
Qed.

Lemma u8_char c : in_u 8 c → u8 (u32 (cstring.schar c)) = c.
Proof.
  intros [H0 H1]. unfold cstring.schar, u8, u32, wrap. change (2 ^ 8) with 256 in *.
  change (2 ^ 32) with 4294967296. destruct (Z.ltb_spec c 128); div_lia.
Qed.

Section served.
Context (addr : Tab.fn → Z) (h : list Z).
Context (Hh : ∀ t, h !! Z.to_nat (Tab.to_Z t) = Some (addr (Tab.fn_of t))).

Lemma serves_call (t : Tab.SysCallType) n a k :
  n = Tab.to_Z t → decode (Tab.fn_of t) a = Some k → serves addr h (n, a) k.
Proof. intros -> Hd. exists (Tab.fn_of t). split; [apply Hh|done]. Qed.

Lemma serves_app t1 t2 k1 k2 :
  Forall2 (serves addr h) t1 k1 → Forall2 (serves addr h) t2 k2 →
  Forall2 (serves addr h) (t1 ++ t2) (k1 ++ k2).
Proof. apply Forall2_app. Qed.

Lemma serves_char ch : in_u 8 ch → Forall2 (serves addr h) (Console.PrintChar ch) [KPrintChar ch].
Proof.
  intros. constructor; [|constructor]. apply (serves_call Tab.PrintChar); [done|].
  simpl. by rewrite u8_char.
Qed.

Lemma serves_hex num : Forall2 (serves addr h) (Console.PrintHex num) [KPrintHex num].
Proof. constructor; [|constructor]. by apply (serves_call Tab.PrintHex). Qed.

Lemma serves_str str : Forall2 (serves addr h) (Console.PrintStr str) [KPrintStr str].
Proof. constructor; [|constructor]. by apply (serves_call Tab.PrintStr). Qed.

Lemma serves_hex_int num :
  - 2 ^ 31 < num < 2 ^ 31 →
  ∃ t, Console.PrintHex_int num = Ok t ∧ Forall2 (serves addr h) t (hex_int num).
Proof.
  intros. unfold Console.PrintHex_int, hex_int. destruct (Z.leb_spec 0 num).
  - eexists. split; [reflexivity|]. rewrite u32_small by lia. apply serves_hex.
  - destruct (Z.eqb_spec num (- 2 ^ 31)); [lia|]. eexists. split; [reflexivity|].
    rewrite u32_small by lia.
    by apply (serves_app _ _ [_] [_]); [apply serves_char|apply serves_hex].
Qed.
End served.

(** C37. Once the system calls are registered, every function of the user
    library makes the kernel run the function of the same name on the same
    parameters, in order: the numbers of the two enumerations agree, arguments
    survive the trip through the register or the structure (a signed offset, a
    character above 127), and a line is printed as the text and then a new
    line. *)
Theorem user_library_served addr handlers c :
  length handlers = 96%nat → call_ok c →
  ∃ h t, Tab.InitSysCall addr handlers = Ok h ∧ run c = Ok t
    ∧ Forall2 (serves addr h) t (meant c).
Proof.
  intros Hl Hc. destruct (Tab.InitSysCall_ok addr handlers Hl) as (h & Hi & _ & Hh & _).
  exists h. pose proof (serves_call addr h Hh) as HS.
  pose proof (serves_char addr h Hh Console.newline ltac:(done)) as Hnl.
  enough (∃ t, run c = Ok t ∧ Forall2 (serves addr h) t (meant c)) as (t & ? & ?) by eauto.
  destruct c; simpl in Hc |- *; try (eexists; split; [reflexivity|]).
  - constructor; [by apply (HS Tab.GetCurrPid)|constructor].
  - constructor; [by apply (HS Tab.Fork)|constructor].
  - constructor; [by apply (HS Tab.MemAlloc)|constructor].
  - constructor; [by apply (HS Tab.MemFree)|constructor].
  - constructor; [by apply (HS Tab.OpenFile)|constructor].
  - constructor; [by apply (HS Tab.CloseFile)|constructor].
  - constructor; [by apply (HS Tab.DeleteFile)|constructor].
  - constructor; [by apply (HS Tab.WriteFile)|constructor].
  - constructor; [|constructor]. apply (HS Tab.SeekFile); [done|]. simpl. by rewrite s32_u32.
  - constructor; [by apply (HS Tab.ReadFile)|constructor].
  - constructor; [by apply (HS Tab.CreateDir)|constructor].
  - by apply serves_char.
  - by apply serves_str.
  - by apply serves_hex.
  - by apply serves_hex_int.
  - apply (serves_app addr h _ _ [_] [_]); [by apply serves_str|exact Hnl].
  - apply (serves_app addr h _ _ [_] [_]); [by apply serves_char|exact Hnl].
  - apply (serves_app addr h _ _ [_] [_]); [by apply serves_hex|exact Hnl].
  - destruct (serves_hex_int addr h Hh num Hc) as (t & E & Ht).
    exists (t ++ Console.PrintChar Console.newline). unfold Console.PrintlnHex_int. rewrite E.
    split; [reflexivity|]. by apply serves_app.
Qed.

Lemma user_library_served_witness :
  ∃ h t, Tab.InitSysCall (λ f, match f with Tab.File_Seek => 0xC0005000 | _ => 0xC0006000 end)
      (replicate 96 0) = Ok h
    ∧ run (USeek 3 (-10) 2) = Ok t
    ∧ Forall2 (serves (λ f, match f with Tab.File_Seek => 0xC0005000 | _ => 0xC0006000 end) h) t
        (meant (USeek 3 (-10) 2)).
Proof.
  apply (user_library_served (λ f, match f with Tab.File_Seek => 0xC0005000 | _ => 0xC0006000 end)
    (replicate 96 0) (USeek 3 (-10) 2)); [reflexivity|]. simpl. lia.
Defined.
End Usr.
