(* ===== verification/IoDisk.v ===== *)
(** * IDE channels and disks

    [Register] models the registers of src/src/kernel/io/disk/disk.cpp,
    [IdeChnl] the channel of src/include/kernel/io/disk/ide.h and
    src/src/kernel/io/disk/ide.cpp, and [Disk] the transfer of sectors of
    disk.cpp. The device behind the ports is a parameter, the class
    [AtaDevice]; what the code relies on of the ATA specification are the laws
    of the class [AtaLaws]. The specification moves one sector per data request
    and per interrupt; the driver waits once per command, so for more than one
    sector it also relies on a device that has every next sector ready at once,
    the class [Prompt]. *)
From S2P Require Import Prelude UtilBit StlString Desc Intr.

Module Register.

(** The device register: bits 24 to 27 of the address, the disk, the mode. *)
Module DeviceReg.
Definition lba_24_27_pos : Z := 0.
Definition lba_24_27_len : Z := 4.
Definition dev_pos : Z := lba_24_27_pos + lba_24_27_len.
Definition mod_pos : Z := 6.

Definition SetMbs (val : Z) : Z := bit.SetBit 8 (bit.SetBit 8 val 5) 7.
Definition make (val : Z) : Z := SetMbs val.
Definition IsLbaMode (val : Z) : bool := bit.IsBitSet 8 val mod_pos.
Definition SetLbaMode (lba : bool) (val : Z) : Z :=
  if lba then bit.SetBit 8 val mod_pos else bit.ResetBit 8 val mod_pos.
Definition IsMaster (val : Z) : bool := negb (bit.IsBitSet 8 val dev_pos).
Definition SetMaster (master : bool) (val : Z) : Z :=
  if master then bit.ResetBit 8 val dev_pos else bit.SetBit 8 val dev_pos.
Definition SetLba (lba : Z) (val : Z) : Z :=
  let mid := bit.GetBits 32 lba 24 27 in
  bit.SetBits 8 val mid lba_24_27_pos lba_24_27_len.
Definition Format (master : bool) (lba : Z) (lba_mod : bool) : Z :=
  SetLba lba (SetLbaMode lba_mod (SetMaster master (make 0))).
(** [DeviceReg(master, lba, lba_mod)] delegates to the constructor from a value. *)
Definition make_lba (master : bool) (lba : Z) (lba_mod : bool) : Z :=
  make (Format master lba lba_mod).
End DeviceReg.

Module StatusReg.
Definition err_pos : Z := 0.
Definition req_pos : Z := 3.
Definition ready_pos : Z := 6.
Definition busy_pos : Z := 7.
Definition HasError (val : Z) : bool := bit.IsBitSet 8 val err_pos.
Definition IsDataPrepared (val : Z) : bool := bit.IsBitSet 8 val req_pos.
Definition IsDeviceReady (val : Z) : bool := bit.IsBitSet 8 val ready_pos.
Definition IsDeviceBusy (val : Z) : bool := bit.IsBitSet 8 val busy_pos.
End StatusReg.

(** [LbaReg<start_bit>::SetLba] and its three instances. *)
Definition LbaReg_SetLba (start_bit lba : Z) : Z := bit.GetByte 32 lba start_bit.
Definition LbaLowReg (lba : Z) : Z := LbaReg_SetLba 0 lba.
Definition LbaMidReg (lba : Z) : Z := LbaReg_SetLba (1 * bit.byte_len) lba.
Definition LbaHighReg (lba : Z) : Z := LbaReg_SetLba (2 * bit.byte_len) lba.

(** ** The address in the four registers *)

(** The bits asked for are 27 from bit 24 on; only 8 of them exist. *)
Lemma high_bits lba i :
  in_u 32 lba → 0 ≤ i < 4 → Z.testbit (bit.GetBits 32 lba 24 27) i = Z.testbit lba (i + 24).
Proof.
  intros Hl Hi. unfold bit.GetBits. change (27 <? 32) with true. cbv iota.
  change (bit.mask 32 24 27) with (Z.shiftl (Z.ones 8) 24).
  rewrite testbit_wrap, Z.shiftr_spec, Z.land_spec, Z.shiftl_spec by lia.
  destruct (Z.ltb_spec i 32); [|lia]. simpl.
  rewrite Z.ones_spec_low by lia. by rewrite andb_true_r.
Qed.

Lemma DeviceReg_bits master lba i :
  in_u 32 lba → 0 ≤ i < 8 →
  Z.testbit (DeviceReg.make_lba master lba true) i
  = if i <? 4 then Z.testbit lba (i + 24) else if i =? 4 then negb master else true.
Proof.
  intros Hl Hi.
  set (v := DeviceReg.SetLbaMode true (DeviceReg.SetMaster master (DeviceReg.make 0))).
  assert (Hv : in_u 8 v) by (unfold v, DeviceReg.SetLbaMode; in_word).
  unfold DeviceReg.make_lba, DeviceReg.make, DeviceReg.SetMbs, DeviceReg.Format, DeviceReg.SetLba.
  fold v. unfold DeviceReg.lba_24_27_pos, DeviceReg.lba_24_27_len.
  rewrite !bit.testbit_SetBit, bit.testbit_SetBits by in_word. rewrite Z.sub_0_r.
  destruct (Z.ltb_spec i 4).
  - destruct (Z.leb_spec 0 i); [|lia]. destruct (Z.ltb_spec i (0 + 4)); [|lia]. simpl.
    rewrite high_bits by done. destruct (Z.eqb_spec i 7), (Z.eqb_spec i 5); try lia. done.
  - destruct (Z.ltb_spec i (0 + 4)); [lia|]. rewrite andb_false_r.
    assert (i = 4 ∨ i = 5 ∨ i = 6 ∨ i = 7) as [-> | [-> | [-> | ->]]] by lia; by destruct master.
Qed.

(** The registers hold a 28-bit address; the device one also the disk, and the
    address mode. *)
Lemma lba_registers master lba :
  0 ≤ lba < 2 ^ 28 →
  let dev := DeviceReg.make_lba master lba true in
  LbaLowReg lba + LbaMidReg lba * 2 ^ 8 + LbaHighReg lba * 2 ^ 16 + dev mod 2 ^ 4 * 2 ^ 24 = lba
  ∧ Z.testbit dev 4 = negb master ∧ Z.testbit dev 6 = true.
Proof.
  intros Hl dev. assert (Hu : in_u 32 lba) by (unfold in_u; lia).
  split; [|by split; apply (DeviceReg_bits master lba)].
  assert (dev mod 2 ^ 4 = lba / 2 ^ 24) as ->.
  { change (dev mod 2 ^ 4) with (wrap 4 dev). apply Z.bits_inj'; intros i Hi.
    rewrite testbit_wrap, Z.div_pow2_bits by lia. destruct (Z.ltb_spec i 4).
    - unfold dev. rewrite DeviceReg_bits by (done || lia).
      destruct (Z.ltb_spec i 4); [|lia]. simpl. f_equal.
    - simpl. symmetry. apply (testbit_high 28); [done|lia]. }
  unfold LbaLowReg, LbaMidReg, LbaHighReg, LbaReg_SetLba.
  rewrite !GetByte_field, !bit.GetBits_div_mod by done.
  change (1 * bit.byte_len) with 8. change (2 * bit.byte_len) with 16.
  change (2 ^ 28) with 268435456 in *. change (2 ^ 24) with 16777216.
  change (2 ^ 16) with 65536. change (2 ^ 8) with 256. change (2 ^ 0) with 1. div_lia.
Qed.
End Register.

(** ** Channels *)

Module IdeChnl.

Definition primary_base : Z := 0x1F0.
Definition secondary_base : Z := 0x170.
Definition data_offset : Z := 0.
Definition error_offset : Z := 1.
Definition sector_count_offset : Z := 2.
Definition lba_low_offset : Z := 3.
Definition lba_mid_offset : Z := 4.
Definition lba_high_offset : Z := 5.
Definition device_offset : Z := 6.
Definition status_offset : Z := 7.
Definition cmd_offset : Z := status_offset.
Definition alt_status_offset : Z := 0x206.
Definition ctrl_offset : Z := alt_status_offset.

Inductive Type_ : Type := Invalid | Primary | Secondary.
#[export] Instance Type_eq_dec : EqDecision Type_.
Proof. solve_decision. Defined.

Definition max_disk_count : Z := 2.
Definition max_ide_chnl_count : Z := 2.
Definition name_len : Z := 8.

(** The channel without its disks and its mutex: whoever transfers data holds
    the mutex. [disk_done_] is the value of the binary semaphore. *)
Record t := mk {
  name_ : list Z;
  type_ : Type_;
  base_port_ : Z;
  intr_num_ : Z;
  waiting_intr_ : bool;
  disk_done_ : Z
}.

Definition init : t := mk (replicate 9 0) Invalid 0 0 false 0.

Definition GetType (c : t) : Type_ := type_ c.
Definition GetIntrNum (c : t) : Z := intr_num_ c.
Definition IsWaitingForIntr (c : t) : bool := waiting_intr_ c.
Definition NeedToWaitForIntr (wait : bool) (c : t) : t :=
  mk (name_ c) (type_ c) (base_port_ c) (intr_num_ c) wait (disk_done_ c).
Definition SetIntrNum (num : Z) (c : t) : t :=
  mk (name_ c) (type_ c) (base_port_ c) num (waiting_intr_ c) (disk_done_ c).
Definition with_done (done : Z) (c : t) : t :=
  mk (name_ c) (type_ c) (base_port_ c) (intr_num_ c) (waiting_intr_ c) done.

Definition SetType (type : Type_) (c : t) : res t :=
  match type with
  | Primary => Ok (mk (name_ c) type primary_base (intr_num_ c) (waiting_intr_ c) (disk_done_ c))
  | Secondary => Ok (mk (name_ c) type secondary_base (intr_num_ c) (waiting_intr_ c) (disk_done_ c))
  | Invalid => Panic
  end.

Definition SetName (name : string_view.t) (c : t) : res t :=
  arr ← (if string_view.empty name then
           cstring.memset (Some (name_ c)) 0 (name_len + 1)
         else cstring.strcpy_s (Some (name_ c)) (name_len + 1) (string_view.data name));
  Ok (mk arr (type_ c) (base_port_ c) (intr_num_ c) (waiting_intr_ c) (disk_done_ c)).

Definition GetName (c : t) : res string_view.t := string_view.of_cptr (Some (name_ c)).

Definition GetBasePort (c : t) : res Z :=
  Assert (negb (bool_decide (type_ c = Invalid)));;
  Ok (base_port_ c).

Definition port_at (offset : Z) (c : t) : res Z :=
  base ← GetBasePort c;
  Ok (u16 (base + offset)).

Definition GetSectorCountPort : t → res Z := port_at sector_count_offset.
Definition GetLbaLowPort : t → res Z := port_at lba_low_offset.
Definition GetLbaMidPort : t → res Z := port_at lba_mid_offset.
Definition GetLbaHighPort : t → res Z := port_at lba_high_offset.
Definition GetDevicePort : t → res Z := port_at device_offset.
Definition GetStatusPort : t → res Z := port_at status_offset.
Definition GetAltStatusPort : t → res Z := port_at alt_status_offset.
Definition GetCmdPort : t → res Z := port_at cmd_offset.
Definition GetDataPort : t → res Z := port_at data_offset.
Definition GetErrorPort : t → res Z := port_at error_offset.
Definition GetCtrlPort : t → res Z := port_at ctrl_offset.

(** [GetIdeChnlCount], [disks] being the number the BIOS left. *)
Definition GetIdeChnlCount (disks : Z) : res Z :=
  Assert (0 <? disks);;
  let count := metric.RoundUpDivide disks max_disk_count in
  Assert ((0 <? count) && (count <=? max_ide_chnl_count));;
  Ok count.

(** The channel [InitDisk] sets up for each index. *)
Definition type_of_idx (chnl_idx : Z) : res (Type_ * Z) :=
  if chnl_idx =? 0 then Ok (Primary, Numbers.to_Z Numbers.PrimaryIdeChnl)
  else if chnl_idx =? 1 then Ok (Secondary, Numbers.to_Z Numbers.SecondaryIdeChnl)
  else Panic.
Definition init_chnl (chnl_idx : Z) (c : t) : res t :=
  '(type, num) ← type_of_idx chnl_idx;
  c ← SetType type c;
  Ok (SetIntrNum num c).

(** Up to four disks need one or two channels. *)
Lemma GetIdeChnlCount_ok disks :
  1 ≤ disks ≤ 4 → GetIdeChnlCount disks = Ok (if disks <=? 2 then 1 else 2).
Proof.
  intros. assert (disks = 1 ∨ disks = 2 ∨ disks = 3 ∨ disks = 4) as [-> | [-> | [-> | ->]]]
    by lia; reflexivity.
Qed.

(** A channel that was set up: its type and its port agree. A channel that can
    transfer has no completion left over. *)
Definition ready (base : Z) (c : t) : Prop :=
  type_ c ≠ Invalid ∧ base_port_ c = base ∧ 0 ≤ base < 0x1000.
Definition ok (base : Z) (c : t) : Prop := ready base c ∧ disk_done_ c = 0.

Lemma init_chnl_ok i c :
  0 ≤ i < 2 → disk_done_ c = 0 →
  ∃ c', init_chnl i c = Ok c' ∧ ok (if i =? 0 then 0x1F0 else 0x170) c'
    ∧ intr_num_ c' = 0x2E + i ∧ name_ c' = name_ c.
Proof.
  intros Hi Hd. assert (i = 0 ∨ i = 1) as [-> | ->] by lia;
    (eexists; split; [reflexivity|]; done).
Qed.

Lemma port_at_ok base off c :
  ready base c → 0 ≤ off < 0x1000 → port_at off c = Ok (base + off).
Proof.
  intros (Ht & <- & Hb) Ho. unfold port_at, GetBasePort.
  rewrite (bool_decide_eq_false_2 _ Ht). simpl. unfold u16.
  rewrite wrap_small; [done|unfold in_u; lia].
Qed.
End IdeChnl.

(** ** The device behind the ports *)

(** What the processor and time can do to a device: port accesses, the moment a
    command completes (the device raises its interrupt), and waiting. Words are
    pairs of bytes. *)
Class AtaDevice (S : Type) := {
  out_byte : Z → Z → S → S;
  in_byte : Z → S → Z * S;
  out_words : Z → list Z → S → S;
  in_words : Z → Z → S → list Z * S;
  complete : S → S;
  sleep : Z → S → S
}.

(** Two states of a device hold the same sectors. *)
Definition same_data {S} (sector : S → bool → Z → list Z) (s s' : S) : Prop :=
  ∀ d l, sector s' d l = sector s d l.

(** The ATA specification of transfers by the processor, at the ports of one
    channel: [sector] is what the master ([false]) or the slave ([true]) stores,
    [programmed] says that the registers select a disk, an address and a number
    of sectors. Data moves in blocks of 512 bytes: [reading k s blocks] says that
    after [k] polls the first of these blocks is at the data port, and
    [writing k s d lba n] that the device then takes the block of the sector
    [lba], of [n] that are left. The laws say nothing of the time between one
    block and the next. *)
Class AtaLaws (base : Z) (S : Type) `{AtaDevice S} := {
  sector : S → bool → Z → list Z;
  programmed : S → bool → Z → Z → Prop;
  reading : nat → S → list (list Z) → Prop;
  writing : nat → S → bool → Z → Z → Prop;
  sector_length : ∀ s d l, length (sector s d l) = 512%nat;
  out_byte_data : ∀ s off v, 2 ≤ off ≤ 7 → same_data sector s (out_byte (base + off) v s);
  in_byte_data : ∀ s off, same_data sector s (in_byte (base + off) s).2;
  complete_data : ∀ s, same_data sector s (complete s);
  sleep_data : ∀ s t, same_data sector s (sleep t s);
  (** The five registers select [cnt] sectors (256 for 0) from the 28-bit address. *)
  program_law : ∀ s cnt lo mid hi dev,
    in_u 8 cnt → in_u 8 lo → in_u 8 mid → in_u 8 hi → in_u 8 dev → Z.testbit dev 6 = true →
    programmed
      (out_byte (base + 6) dev (out_byte (base + 5) hi (out_byte (base + 4) mid
        (out_byte (base + 3) lo (out_byte (base + 2) cnt s)))))
      (Z.testbit dev 4) (lo + mid * 2 ^ 8 + hi * 2 ^ 16 + dev mod 2 ^ 4 * 2 ^ 24)
      (if cnt =? 0 then 256 else cnt);
  (** READ SECTORS: the interrupt comes when the first sector of the range is at
      the data port, within 30 seconds; the others follow. *)
  read_law : ∀ s d lba n, programmed s d lba n →
    ∃ k, (k < 3000)%nat
      ∧ reading k (complete (out_byte (base + 7) 0x20 s)) (sector s d <$> seqZ lba n);
  (** IDENTIFY DEVICE: the same, with the 512 bytes that describe the disk. *)
  identify_law : ∀ s,
    ∃ k data, (k < 3000)%nat ∧ length data = 512%nat ∧ Forall (in_u 8) data
      ∧ reading k (complete (out_byte (base + 7) 0xEC s)) [data];
  (** WRITE SECTORS: the device asks for the first sector of the range. *)
  write_law : ∀ s d lba n, programmed s d lba n →
    ∃ k, (k < 3000)%nat ∧ writing k (out_byte (base + 7) 0x30 s) d lba n;
  (** The status: busy while polls remain, then ready to transfer. *)
  reading_status : ∀ k s bs, reading k s bs →
    Z.testbit (in_byte (base + 7) s).1 7 = negb (k =? 0)%nat
    ∧ (k = O → Z.testbit (in_byte (base + 7) s).1 3 = true)
    ∧ reading k (in_byte (base + 7) s).2 bs;
  writing_status : ∀ k s d lba n, writing k s d lba n →
    Z.testbit (in_byte (base + 7) s).1 7 = negb (k =? 0)%nat
    ∧ (k = O → Z.testbit (in_byte (base + 7) s).1 3 = true)
    ∧ writing k (in_byte (base + 7) s).2 d lba n;
  reading_sleep : ∀ k s bs, reading (Datatypes.S k) s bs → reading k (sleep 10 s) bs;
  writing_sleep : ∀ k s d lba n, writing (Datatypes.S k) s d lba n → writing k (sleep 10 s) d lba n;
  (** 256 words are one block. *)
  in_words_law : ∀ s b bs, reading 0 s (b :: bs) →
    (in_words base 256 s).1 = b ∧ same_data sector s (in_words base 256 s).2;
  out_words_law : ∀ s d lba n data, writing 0 s d lba n → 0 < n → length data = 512%nat →
    ∀ d' l, sector (out_words base data s) d' l
      = if bool_decide (d' = d) && (l =? lba) then data else sector s d' l;
  (** Repeated input and output take the words one by one. *)
  in_words_app : ∀ s n, 0 ≤ n →
    in_words base (256 + n) s
    = let '(x, s1) := in_words base 256 s in let '(y, s2) := in_words base n s1 in (x ++ y, s2);
  out_words_app : ∀ s x y, length x = 512%nat →
    out_words base (x ++ y) s = out_words base y (out_words base x s)
}.

(** What the ATA specification does not promise, and the driver needs to move
    more than one sector with a command: as soon as one block was moved the next
    one can be, without a wait, a poll or an interrupt in between. The emulated
    drives the system runs on have the whole transfer in a buffer and are like
    that. *)
Class Prompt (base : Z) (S : Type) `{AtaLaws base S} : Prop := {
  prompt_in : ∀ s b bs, reading 0 s (b :: bs) → reading 0 (in_words base 256 s).2 bs;
  prompt_out : ∀ s d lba n data, writing 0 s d lba n → 1 < n → length data = 512%nat →
    writing 0 (out_words base data s) d (lba + 1) (n - 1)
}.

Module Disk.
Import Register IdeChnl.

Definition sector_size : Z := 512.
Definition prim_part_count : Z := 4.
Definition max_logic_part_count : Z := 8.
Definition max_size : Z := metric.MB 80.
Definition max_lba : Z := max_size / sector_size - 1.
Definition max_sector_count_per_access : Z := 256.
Definition boot_disk_idx : Z := 0.

Inductive Cmd : Type := Read | Write | Identify.
Definition Cmd_to_Z (c : Cmd) : Z :=
  match c with Read => 0x20 | Write => 0x30 | Identify => 0xEC end.

(** A disk without its partitions; [ide_chnl_] says whether it is attached. *)
Record t := mk { name_ : list Z; ide_chnl_ : bool; idx_ : Z }.

Definition SetName (name : string_view.t) (dk : t) : res t :=
  arr ← (if string_view.empty name then cstring.memset (Some (name_ dk)) 0 9
         else cstring.strcpy_s (Some (name_ dk)) 9 (string_view.data name));
  Ok (mk arr (ide_chnl_ dk) (idx_ dk)).
Definition GetName (dk : t) : res string_view.t := string_view.of_cptr (Some (name_ dk)).

(** [Attach] to a channel that is not null. *)
Definition Attach (idx : Z) (dk : t) : res t :=
  Assert (idx <? max_disk_count);;
  Ok (mk (name_ dk) true idx).

Definition AdjustSectorCount (count : Z) : res Z :=
  Assert ((0 <? count) && (count <=? max_sector_count_per_access));;
  Ok (if max_sector_count_per_access <=? count then 0 else u8 count).

Section transfer.
Context {S : Type} `{AtaDevice S}.

(** The channel and the device. *)
Definition state : Type := (IdeChnl.t * S)%type.

Definition GetIdeChnl (dk : t) (x : state) : res IdeChnl.t :=
  Assert (ide_chnl_ dk);;
  Ok x.1.

Definition out (port : IdeChnl.t → res Z) (val : Z) (dk : t) (x : state) : res state :=
  c ← GetIdeChnl dk x;
  p ← port c;
  Ok (x.1, out_byte p val x.2).

Definition Select (dk : t) (x : state) : res state :=
  out GetDevicePort (DeviceReg.SetMaster (idx_ dk =? 0) (DeviceReg.make 0)) dk x.

Definition SetSectors (dk : t) (start_lba count : Z) (x : state) : res state :=
  Assert ((0 <? count) && (count <=? max_sector_count_per_access));;
  Assert (start_lba +w count <=? max_lba);;
  n ← AdjustSectorCount count;
  x ← out GetSectorCountPort n dk x;
  x ← out GetLbaLowPort (LbaLowReg start_lba) dk x;
  x ← out GetLbaMidPort (LbaMidReg start_lba) dk x;
  x ← out GetLbaHighPort (LbaHighReg start_lba) dk x;
  out GetDevicePort (DeviceReg.make_lba (idx_ dk =? 0) start_lba true) dk x.

Definition SendCmd (cmd : Cmd) (dk : t) (x : state) : res state :=
  c ← GetIdeChnl dk x;
  out GetCmdPort (Cmd_to_Z cmd) dk (NeedToWaitForIntr true c, x.2).

(** [DiskIntrHandler] on the channel the interrupt is of. *)
Definition ClearCurrIntr (x : state) : res state :=
  p ← GetStatusPort x.1;
  Ok (x.1, (in_byte p x.2).2).
Definition HandleIntr (x : state) : res state :=
  if IsWaitingForIntr x.1 then
    (* [NeedToWaitForIntr(false)] and [Unblock], the semaphore going up to 1 *)
    ClearCurrIntr (with_done 1 (NeedToWaitForIntr false x.1), x.2)
  else Ok x.
Definition DiskIntrHandler (intr_num : Z) (chnls : list IdeChnl.t) (s : S) :
    res (list IdeChnl.t * S) :=
  Assert ((intr_num =? Numbers.to_Z Numbers.PrimaryIdeChnl)
          || (intr_num =? Numbers.to_Z Numbers.SecondaryIdeChnl));;
  let chnl_idx := if intr_num =? Numbers.to_Z Numbers.PrimaryIdeChnl then 0%nat else 1%nat in
  c ← of_option (chnls !! chnl_idx);
  Assert (GetIntrNum c =? intr_num);;
  '(c, s) ← HandleIntr (c, s);
  Ok (<[chnl_idx := c]> chnls, s).

(** [Block]: taking the semaphore, for which the interrupt arrives if it has not
    yet; if the handler does not release it, nobody does. *)
Definition Block (x : state) : res state :=
  x ← (if disk_done_ x.1 =? 0 then HandleIntr (x.1, complete x.2) else Ok x);
  if disk_done_ x.1 =? 0 then NoFuel
  else Ok (with_done (disk_done_ x.1 - 1) x.1, x.2).

Definition sleep_time : Z := 10.
Definition max_wait_time : Z := metric.SecondsToMilliseconds 30.

(** The loop of [BusyWait] on the time waited and the device. *)
Definition busy_body (port : Z) (s : Z * S) : res ((Z * S) + (bool * S)) :=
  let '(wait_time, s) := s in
  if wait_time <? max_wait_time then
    let '(status, s) := in_byte port s in
    if StatusReg.IsDeviceBusy status then Ok (inl (wait_time + sleep_time, sleep sleep_time s))
    else
      let '(status, s) := in_byte port s in
      Ok (inr (StatusReg.IsDataPrepared status, s))
  else Ok (inr (false, s)).

(** One iteration for every 10 ms of 30 s, and one to leave. *)
Definition busy_fuel : nat := 3002.

Definition BusyWait (dk : t) (x : state) : res (bool * state) :=
  c ← GetIdeChnl dk x;
  p ← GetStatusPort c;
  '(ready, s) ← loop busy_fuel (busy_body p) (0, x.2);
  Ok (ready, (x.1, s)).

Definition ReadWords (dk : t) (count : Z) (x : state) : res (list Z * state) :=
  Assert (0 <? count);;
  c ← GetIdeChnl dk x;
  p ← GetDataPort c;
  let '(data, s) := in_words p count x.2 in
  Ok (data, (x.1, s)).

Definition WriteWords (dk : t) (data : list Z) (count : Z) (x : state) : res state :=
  Assert (0 <? count);;
  c ← GetIdeChnl dk x;
  p ← GetDataPort c;
  Ok (x.1, out_words p data x.2).

(** The body of the loop of [ReadSectors]: the sectors read so far, their
    bytes, and the state. *)
Definition read_body (dk : t) (start_lba count : Z) (y : Z * list Z * state) :
    res ((Z * list Z * state) + (list Z * state)) :=
  let '(read_count, buf, x) := y in
  if read_count <? count then
    let curr_count := Z.min (count - read_count) max_sector_count_per_access in
    x ← SetSectors dk (start_lba +w read_count) curr_count x;
    x ← SendCmd Read dk x;
    x ← Block x;
    '(ready, x) ← BusyWait dk x;
    Assert ready;;
    '(data, x) ← ReadWords dk (curr_count * sector_size / 2) x;
    Ok (inl (read_count + curr_count, buf ++ data, x))
  else Ok (inr (buf, x)).

(** [ReadSectors]: the bytes that fill the buffer. *)
Definition ReadSectors (dk : t) (start_lba count : Z) (x : state) : res (list Z * state) :=
  Assert (0 <? count);;
  Assert (start_lba +w count <=? max_lba);;
  x ← Select dk x;
  loop (Datatypes.S (Z.to_nat count)) (read_body dk start_lba count) (0, [], x).

(** The bytes [off] to [off + len] of a buffer. *)
Definition bytes_at (data : list Z) (off len : Z) : res (list Z) :=
  if off + len <=? Z.of_nat (length data)
  then Ok (take (Z.to_nat len) (drop (Z.to_nat off) data)) else Fault.

(** The body of the loop of [WriteSectors], on the bytes of the buffer. *)
Definition write_body (dk : t) (start_lba : Z) (data : list Z) (count : Z) (y : Z * state) :
    res ((Z * state) + state) :=
  let '(written_count, x) := y in
  if written_count <? count then
    let curr_count := Z.min (count - written_count) max_sector_count_per_access in
    x ← SetSectors dk (start_lba +w written_count) curr_count x;
    x ← SendCmd Write dk x;
    '(ready, x) ← BusyWait dk x;
    Assert ready;;
    bytes ← bytes_at data (written_count * sector_size) (curr_count * sector_size);
    x ← WriteWords dk bytes (curr_count * sector_size / 2) x;
    x ← Block x;
    Ok (inl (written_count + curr_count, x))
  else Ok (inr x).

Definition WriteSectors (dk : t) (start_lba : Z) (data : list Z) (count : Z) (x : state) :
    res state :=
  Assert (0 <? count);;
  Assert (start_lba +w count <=? max_lba);;
  x ← Select dk x;
  loop (Datatypes.S (Z.to_nat count)) (write_body dk start_lba data count) (0, x).
End transfer.

(** ** Transfers on a device that keeps the specification *)

Section laws.
Context (base : Z) {S : Type} `{Hdev : AtaDevice S} `{Hlaws : !AtaLaws base S}.

Lemma same_data_refl (s : S) : same_data sector s s.
Proof. done. Qed.
Lemma same_data_trans (s1 s2 s3 : S) :
  same_data sector s1 s2 → same_data sector s2 s3 → same_data sector s1 s3.
Proof. intros H1 H2 d l. by rewrite H2. Qed.

(** The disk's place on its channel. *)
Definition slave (dk : t) : bool := negb (idx_ dk =? 0).

Lemma out_ok off v dk c (s : S) :
  ide_chnl_ dk = true → ready base c → 0 ≤ off < 0x1000 →
  out (port_at off) v dk (c, s) = Ok (c, out_byte (base + off) v s).
Proof.
  intros Hd Hr Ho. unfold out, GetIdeChnl. rewrite Hd. simpl Assert.
  rewrite !res_bind_ok. simpl. by rewrite (port_at_ok base).
Qed.

Lemma Select_ok dk c (s : S) :
  ide_chnl_ dk = true → ready base c →
  ∃ s', Select dk (c, s) = Ok (c, s') ∧ same_data sector s s'.
Proof.
  intros Hd Hr. unfold Select, GetDevicePort. rewrite out_ok by done.
  eexists. split; [reflexivity|]. by apply out_byte_data.
Qed.

Lemma max_lba_eq : max_lba = 163839.
Proof. reflexivity. Qed.

(** [SetSectors] selects the range on the disk. *)
Lemma SetSectors_ok dk lba n c (s : S) :
  ide_chnl_ dk = true → ready base c → 1 ≤ n ≤ 256 → 0 ≤ lba → lba + n ≤ max_lba →
  ∃ s', SetSectors dk lba n (c, s) = Ok (c, s') ∧ programmed s' (slave dk) lba n
    ∧ same_data sector s s'.
Proof.
  intros Hd Hr Hn Hl Hm. rewrite max_lba_eq in Hm.
  unfold SetSectors, AdjustSectorCount, max_sector_count_per_access.
  rewrite !Assert_true by (rewrite ?max_lba_eq, ?u32_small by lia; lia).
  rewrite !res_bind_ok.
  unfold GetSectorCountPort, GetLbaLowPort, GetLbaMidPort, GetLbaHighPort, GetDevicePort.
  rewrite out_ok, res_bind_ok, out_ok, res_bind_ok, out_ok, res_bind_ok, out_ok, res_bind_ok,
    out_ok by done.
  set (cnt := if 256 <=? n then 0 else u8 n).
  destruct (lba_registers (idx_ dk =? 0) lba ltac:(lia)) as (E & E4 & E6).
  set (dev := DeviceReg.make_lba (idx_ dk =? 0) lba true) in *.
  eexists. split; [reflexivity|].
  assert (in_u 8 cnt ∧ (if cnt =? 0 then 256 else cnt) = n) as [Hc1 Hc2].
  { unfold cnt. destruct (Z.leb_spec 256 n); [split; [done|simpl; lia]|].
    split; [by apply wrap_range|]. unfold u8. rewrite wrap_small by (unfold in_u; lia).
    destruct (Z.eqb_spec n 0); lia. }
  unfold sector_count_offset, lba_low_offset, lba_mid_offset, lba_high_offset, device_offset.
  assert (Hdev8 : in_u 8 dev)
    by (unfold dev, DeviceReg.make_lba, DeviceReg.make, DeviceReg.SetMbs; in_word).
  split.
  - pose proof (program_law (base := base) s cnt (LbaLowReg lba) (LbaMidReg lba) (LbaHighReg lba) dev
      Hc1 ltac:(by apply wrap_range) ltac:(by apply wrap_range) ltac:(by apply wrap_range)
      Hdev8 E6) as HP. by rewrite E, E4, Hc2 in HP.
  - do 4 (eapply same_data_trans; [|by apply out_byte_data]). by apply out_byte_data.
Qed.

(** What a poll needs of a device that is about to transfer. *)
Definition polls (P : nat → S → Prop) : Prop :=
  (∀ k s, P k s →
    Z.testbit (in_byte (base + 7) s).1 7 = negb (k =? 0)%nat
    ∧ (k = O → Z.testbit (in_byte (base + 7) s).1 3 = true) ∧ P k (in_byte (base + 7) s).2)
  ∧ ∀ k s, P (Datatypes.S k) s → P k (sleep 10 s).

Lemma reading_polls bs : polls (λ k s, reading k s bs).
Proof. split; [intros; by apply reading_status|intros; by apply reading_sleep]. Qed.
Lemma writing_polls d lba n : polls (λ k s, writing k s d lba n).
Proof. split; [intros; by apply writing_status|intros; by apply writing_sleep]. Qed.

(** A device that becomes ready within 30 seconds is found ready. *)
Lemma BusyWait_ok P dk c (s : S) k :
  polls P → ide_chnl_ dk = true → ready base c → (k < 3000)%nat → P k s →
  ∃ s', BusyWait dk (c, s) = Ok (true, (c, s')) ∧ P O s' ∧ same_data sector s s'.
Proof.
  intros [Hst Hsl] Hd Hr Hk HP. unfold BusyWait, GetIdeChnl. rewrite Hd. simpl Assert.
  rewrite !res_bind_ok. unfold GetStatusPort. cbn [fst].
  rewrite (port_at_ok base) by done. rewrite res_bind_ok. cbn [fst snd].
  change (base + status_offset) with (base + 7).
  destruct (loop_inv
    (λ x, ∃ k', P k' x.2 ∧ (k' ≤ k)%nat ∧ x.1 = 10 * (Z.of_nat k - Z.of_nat k') ∧ same_data sector s x.2)
    (λ x, Z.to_nat (3000 - x.1 / 10)) (λ r, r.1 = true ∧ P O r.2 ∧ same_data sector s r.2)
    (busy_body (base + 7))) with (fuel := busy_fuel) (s := (0, s)) as ([b s'] & -> & Hb & HP' & Hs').
  - intros [t u] (k' & Hu & Hk' & Ht & Hd'). simpl in Hu, Ht, Hd'. unfold busy_body.
    change max_wait_time with 30000. destruct (Z.ltb_spec t 30000); [|lia].
    destruct (Hst k' u Hu) as (H7 & H3 & Hu'). pose proof (in_byte_data (base := base) u 7) as D1.
    destruct (in_byte (base + 7) u) as [v u1]. cbn [fst snd] in H7, H3, Hu', D1.
    unfold StatusReg.IsDeviceBusy. rewrite bit.IsBitSet_testbit by done.
    change StatusReg.busy_pos with 7. rewrite H7. destruct k' as [|k']; simpl negb; cbv iota.
    + right. destruct (Hst O u1 Hu') as (_ & H3' & Hu2). pose proof (in_byte_data (base := base) u1 7) as D2.
      destruct (in_byte (base + 7) u1) as [v2 u2]. cbn [fst snd] in H3', Hu2, D2. eexists. split; [reflexivity|].
      cbn [fst snd]. unfold StatusReg.IsDataPrepared. rewrite bit.IsBitSet_testbit by done.
      split; [by apply H3'|]. split; [done|]. eauto using same_data_trans.
    + left. eexists. split; [reflexivity|]. split.
      * exists k'. simpl. split; [by apply Hsl|]. split; [lia|]. split; [unfold sleep_time; lia|].
        eapply same_data_trans; [|apply (sleep_data (base := base))]. eauto using same_data_trans.
      * simpl. unfold sleep_time. apply Z2Nat.inj_lt; try (div_lia).
  - exists k. simpl. split; [done|]. split; [lia|]. split; [lia|]. apply same_data_refl.
  - cbn [fst]. change (0 / 10) with 0. unfold busy_fuel. lia.
  - simpl in *. subst b. eauto.
Qed.

(** A command sent, completed and taken note of by the handler. *)
Lemma SendCmd_ok cmd dk c (s : S) :
  ide_chnl_ dk = true → ready base c →
  SendCmd cmd dk (c, s)
  = Ok (NeedToWaitForIntr true c, out_byte (base + 7) (Cmd_to_Z cmd) s).
Proof.
  intros Hd Hr. unfold SendCmd, GetIdeChnl. rewrite Hd. simpl Assert. rewrite !res_bind_ok.
  cbn [fst snd]. unfold GetCmdPort. by rewrite out_ok.
Qed.

(** The thread that waits for the completion of the command it sent goes on:
    the flag it set makes the handler release the semaphore. *)
Lemma disk_Block_ok c (s : S) :
  ok base c → waiting_intr_ c = true →
  ∃ c', Block (c, s) = Ok (c', (in_byte (base + 7) (complete s)).2) ∧ ok base c'
    ∧ waiting_intr_ c' = false.
Proof.
  intros [Hr Hz] Hw. unfold Block. cbn [fst snd]. rewrite Hz. change (0 =? 0) with true. cbv iota.
  unfold HandleIntr, IsWaitingForIntr. cbn [fst snd]. rewrite Hw. unfold ClearCurrIntr, GetStatusPort.
  cbn [fst snd]. rewrite (port_at_ok base) by done. rewrite !res_bind_ok. cbn [fst snd].
  eexists. split; [reflexivity|]. done.
Qed.

Lemma length_sectors (s : S) d l :
  Z.of_nat (length (concat (sector s d <$> l))) = 512 * Z.of_nat (length l).
Proof.
  induction l as [|a l IH]; [done|]. rewrite fmap_cons. cbn [concat length].
  rewrite length_app, sector_length. lia.
Qed.

(** The transfer of the blocks of a command: one, or as many as there are when
    the device is prompt. *)
Lemma in_blocks_ok bs (s : S) :
  reading 0 s bs → (0 < length bs)%nat → length bs = 1%nat ∨ Prompt base S →
  ∃ s', in_words base (256 * Z.of_nat (length bs)) s = (concat bs, s') ∧ same_data sector s s'.
Proof.
  revert s. induction bs as [|b bs IH]; intros s HR Hl Hp; [simpl in Hl; lia|].
  destruct (in_words_law _ _ _ HR) as [E1 D1].
  replace (256 * Z.of_nat (length (b :: bs))) with (256 + 256 * Z.of_nat (length bs)) by (simpl length; lia).
  destruct bs as [|b' bs'].
  { change (256 + 256 * Z.of_nat (length [])) with 256. exists (in_words base 256 s).2.
    destruct (in_words base 256 s) as [x s1]. cbn in *. rewrite app_nil_r. by subst x. }
  destruct Hp as [Hp|Hp]; [done|]. pose proof (prompt_in _ _ _ HR) as HR'.
  rewrite in_words_app by lia. destruct (in_words base 256 s) as [x s1]. cbn [fst snd] in *. subst x.
  destruct (IH s1 HR') as (s2 & E2 & D2); [simpl; lia|by right|].
  rewrite E2. exists s2. split; [done|]. by eapply same_data_trans.
Qed.

Lemma out_blocks_ok (n : nat) (s : S) d lba data :
  writing 0 s d lba (Z.of_nat n) → (0 < n)%nat → length data = (512 * n)%nat → n = 1%nat ∨ Prompt base S →
  ∀ d' l, sector (out_words base data s) d' l
    = if bool_decide (d' = d) && (lba <=? l) && (l <? lba + Z.of_nat n)
      then take 512 (drop (Z.to_nat (512 * (l - lba))) data) else sector s d' l.
Proof.
  revert s lba data. induction n as [|n IH]; intros s lba data HW Hn Hl Hp d' l; [lia|].
  set (x := take 512 data). assert (Hx : length x = 512%nat) by (unfold x; rewrite length_take; lia).
  pose proof (out_words_law _ _ _ _ x HW ltac:(lia) Hx d' l) as E1.
  destruct n as [|n].
  { replace data with x at 1 by (unfold x; apply take_ge; lia). rewrite E1.
    destruct (bool_decide (d' = d)); [|done]. cbn [andb].
    destruct (Z.leb_spec lba l), (Z.ltb_spec l (lba + Z.of_nat 1)), (Z.eqb_spec l lba); try lia; cbn [andb]; try done.
    subst l. by rewrite Z.sub_diag. }
  destruct Hp as [Hp|Hp]; [done|].
  rewrite <- (take_drop 512 data) at 1. fold x. rewrite out_words_app by done.
  assert (HW' : writing 0 (out_words base x s) d (lba + 1) (Z.of_nat (Datatypes.S n))).
  { replace (Z.of_nat (Datatypes.S n)) with (Z.of_nat (Datatypes.S (Datatypes.S n)) - 1) by lia.
    apply prompt_out; [done|lia|done]. }
  rewrite (IH _ _ _ HW') by (lia || (rewrite length_drop; lia) || by right). rewrite E1.
  destruct (bool_decide (d' = d)); [|done]. cbn [andb].
  destruct (Z.leb_spec (lba + 1) l), (Z.leb_spec lba l), (Z.eqb_spec l lba),
    (Z.ltb_spec l (lba + 1 + Z.of_nat (Datatypes.S n))), (Z.ltb_spec l (lba + Z.of_nat (Datatypes.S (Datatypes.S n))));
    try lia; cbn [andb]; try done.
  - rewrite drop_drop. do 3 f_equal. lia.
  - subst l. by rewrite Z.sub_diag.
Qed.

(** A command whose data is read: the words of its blocks, from the interrupt on. *)
Lemma read_data_ok cmd dk n c (s : S) bs k :
  ide_chnl_ dk = true → ok base c → 0 < n → n = 256 * Z.of_nat (length bs) → (k < 3000)%nat →
  length bs = 1%nat ∨ Prompt base S →
  reading k (complete (out_byte (base + 7) (Cmd_to_Z cmd) s)) bs →
  let data := concat bs in
  ∃ x2 x3 x4 c' s', SendCmd cmd dk (c, s) = Ok x2 ∧ Block x2 = Ok x3 ∧ BusyWait dk x3 = Ok (true, x4)
    ∧ ReadWords dk n x4 = Ok (data, (c', s')) ∧ ok base c' ∧ same_data sector s s'.
Proof.
  intros Hd [Hr Hz] Hn Hw Hk Hp HR data. set (s2 := out_byte (base + 7) (Cmd_to_Z cmd) s) in *.
  destruct (disk_Block_ok (NeedToWaitForIntr true c) s2) as (c3 & E3 & [Hr3 Hz3] & _); [by split|done|].
  destruct (reading_status _ _ _ HR) as (_ & _ & HR').
  destruct (BusyWait_ok _ dk c3 _ k (reading_polls _) Hd Hr3 Hk HR') as (s4 & E4 & H4 & D4).
  destruct (in_blocks_ok _ _ H4) as (s5 & E5 & D5); [lia|done|]. rewrite <- Hw in E5.
  exists (NeedToWaitForIntr true c, s2). do 2 eexists. exists c3, s5.
  split; [by apply SendCmd_ok|]. split; [exact E3|]. split; [exact E4|]. split; [|split; [done|]].
  - unfold ReadWords, GetIdeChnl. rewrite Hd, !Assert_true by lia.
    rewrite !res_bind_ok. cbn [fst snd]. unfold GetDataPort. rewrite (port_at_ok base) by done.
    rewrite res_bind_ok. unfold data_offset. by rewrite Z.add_0_r, E5.
  - eapply same_data_trans; [by apply (out_byte_data (base := base) s 7)|].
    eapply same_data_trans; [apply (complete_data (base := base))|].
    eapply same_data_trans; [apply (in_byte_data (base := base) _ 7)|]. eauto using same_data_trans.
Qed.

(** One iteration of [ReadSectors], step by step. *)
Lemma read_one_ok dk lba n c (s : S) :
  ide_chnl_ dk = true → ok base c → 1 ≤ n ≤ 256 → 0 ≤ lba → lba + n ≤ max_lba → n = 1 ∨ Prompt base S →
  ∃ x1 x2 x3 x4 c' s',
    SetSectors dk lba n (c, s) = Ok x1 ∧ SendCmd Read dk x1 = Ok x2 ∧ Block x2 = Ok x3
    ∧ BusyWait dk x3 = Ok (true, x4)
    ∧ ReadWords dk (n * sector_size / 2) x4
      = Ok (concat (sector s (slave dk) <$> seqZ lba n), (c', s'))
    ∧ ok base c' ∧ same_data sector s s'.
Proof.
  intros Hd [Hr Hz] Hn Hl Hm Hpr.
  destruct (SetSectors_ok dk lba n c s Hd Hr Hn Hl Hm) as (s1 & E1 & Hp & D1).
  destruct (read_law s1 _ _ _ Hp) as (k & Hk & HR).
  assert (Hdata : sector s1 (slave dk) <$> seqZ lba n = sector s (slave dk) <$> seqZ lba n)
    by (apply list_fmap_ext; intros; apply D1).
  rewrite Hdata in HR.
  destruct (read_data_ok Read dk (n * sector_size / 2) c s1
      (sector s (slave dk) <$> seqZ lba n) k Hd (conj Hr Hz))
    as (x2 & x3 & x4 & c' & s' & E2 & E3 & E4 & E5 & Hok & D2);
    rewrite ?length_fmap, ?length_seqZ; [unfold sector_size; div_lia|unfold sector_size; div_lia|exact Hk| |exact HR|].
  { destruct Hpr as [->|]; [by left|by right]. }
  exists (c, s1), x2, x3, x4, c', s'. eauto 8 using same_data_trans.
Qed.

Lemma seqZ_snoc start m n :
  0 ≤ m → 0 ≤ n → seqZ start (m + n) = seqZ start m ++ seqZ (start + m) n.
Proof. intros. by rewrite seqZ_app. Qed.

(** [ReadSectors] returns the sectors of the range, in order, whatever their
    number on a prompt device: the transfer is cut in accesses of up to 256
    sectors. *)
Lemma ReadSectors_ok dk start count c (s : S) :
  ide_chnl_ dk = true → ok base c → 0 < count → 0 ≤ start → start + count ≤ max_lba →
  count = 1 ∨ Prompt base S →
  ∃ c' s', ReadSectors dk start count (c, s)
      = Ok (concat (sector s (slave dk) <$> seqZ start count), (c', s'))
    ∧ ok base c' ∧ same_data sector s s'.
Proof.
  intros Hd [Hr Hz] Hc Hs Hm Hpr. pose proof max_lba_eq as Hmax. unfold ReadSectors.
  rewrite !Assert_true by (rewrite ?u32_small by lia; lia). rewrite !res_bind_ok.
  destruct (Select_ok dk c s Hd Hr) as (s0 & -> & D0). rewrite res_bind_ok.
  destruct (loop_inv
    (λ y : Z * list Z * @state S, let '(rc, buf, (c', s')) := y in
      0 ≤ rc ≤ count ∧ buf = concat (sector s (slave dk) <$> seqZ start rc)
      ∧ ok base c' ∧ same_data sector s s')
    (λ y, Z.to_nat (count - y.1.1))
    (λ r : list Z * @state S, r.1 = concat (sector s (slave dk) <$> seqZ start count)
          ∧ ok base r.2.1 ∧ same_data sector s r.2.2)
    (read_body dk start count)) with (fuel := Datatypes.S (Z.to_nat count)) (s := (0, @nil Z, ((c, s0) : @state S)))
    as ([buf [c' s']] & -> & Hb & Ho & HD).
  - intros [[rc buf] [c1 s1]] (Hrc & -> & Hok & D1). unfold read_body.
    destruct (Z.ltb_spec rc count) as [Hlt|Hge].
    + left. unfold max_sector_count_per_access. set (n := Z.min (count - rc) 256).
      rewrite u32_small by lia.
      assert (Hn1 : n = 1 ∨ Prompt base S) by (destruct Hpr; [left; lia|by right]).
      destruct (read_one_ok dk (start + rc) n c1 s1 Hd Hok ltac:(lia) ltac:(lia) ltac:(lia) Hn1)
        as (x1 & x2 & x3 & x4 & c2 & s2 & E1 & E2 & E3 & E4 & E5 & Hok2 & D2).
      rewrite E1, res_bind_ok, E2, res_bind_ok, E3, res_bind_ok, E4, res_bind_ok.
      simpl Assert. rewrite res_bind_ok, E5, res_bind_ok. eexists. split; [reflexivity|].
      split; [|cbn [fst snd]; lia]. split; [lia|]. split.
      * rewrite seqZ_snoc, fmap_app, concat_app by lia. f_equal. f_equal.
        apply list_fmap_ext. intros. apply D1.
      * split; [done|]. by eapply same_data_trans.
    + right. eexists. split; [reflexivity|]. cbn [fst snd]. by replace rc with count by lia.
  - split; [lia|]. done.
  - cbn [fst]. lia.
  - cbn [fst snd] in *. subst buf. eauto.
Qed.

(** One iteration of [WriteSectors]. *)
Lemma write_one_ok dk lba n bytes c (s : S) :
  ide_chnl_ dk = true → ok base c → 1 ≤ n ≤ 256 → 0 ≤ lba → lba + n ≤ max_lba →
  Z.of_nat (length bytes) = 512 * n → n = 1 ∨ Prompt base S →
  ∃ x1 x2 x3 x4 c' s',
    SetSectors dk lba n (c, s) = Ok x1 ∧ SendCmd Write dk x1 = Ok x2
    ∧ BusyWait dk x2 = Ok (true, x3)
    ∧ WriteWords dk bytes (n * sector_size / 2) x3 = Ok x4 ∧ Block x4 = Ok (c', s')
    ∧ ok base c'
    ∧ ∀ d l, sector s' d l = if bool_decide (d = slave dk) && (lba <=? l) && (l <? lba + n)
        then take 512 (drop (Z.to_nat (512 * (l - lba))) bytes) else sector s d l.
Proof.
  intros Hd [Hr Hz] Hn Hl Hm Hlen Hpr.
  destruct (SetSectors_ok dk lba n c s Hd Hr Hn Hl Hm) as (s1 & E1 & Hp & D1).
  destruct (write_law s1 _ _ _ Hp) as (k & Hk & HW).
  set (s2 := out_byte (base + 7) 0x30 s1) in *.
  assert (D2 : same_data sector s1 s2) by (apply out_byte_data; lia).
  destruct (BusyWait_ok _ dk (NeedToWaitForIntr true c) _ k (writing_polls _ _ _) Hd Hr Hk HW)
    as (s3 & E3 & H3 & D3).
  destruct (disk_Block_ok (NeedToWaitForIntr true c) (out_words base bytes s3)) as (c5 & E5 & Ho5 & _);
    [by split|done|].
  assert (H3' : writing 0 s3 (slave dk) lba (Z.of_nat (Z.to_nat n))) by by rewrite Z2Nat.id by lia.
  pose proof (out_blocks_ok _ _ _ _ bytes H3' ltac:(lia) ltac:(lia) ltac:(destruct Hpr; [left; lia|by right])) as HO.
  rewrite Z2Nat.id in HO by lia.
  exists (c, s1), (NeedToWaitForIntr true c, s2). do 4 eexists.
  split; [exact E1|]. split; [by apply SendCmd_ok|]. split; [exact E3|]. split; [|split; [exact E5|]].
  - unfold WriteWords, GetIdeChnl. rewrite Hd, !Assert_true by (unfold sector_size; div_lia).
    rewrite !res_bind_ok. cbn [fst snd]. unfold GetDataPort. rewrite (port_at_ok base) by done.
    unfold data_offset. by rewrite res_bind_ok, Z.add_0_r.
  - split; [done|]. intros d l.
    rewrite (in_byte_data (base := base) _ 7), (complete_data (base := base)), HO.
    case_match; [done|]. by rewrite D3, D2, D1.
Qed.

Lemma bytes_at_ok data off len :
  0 ≤ off → 0 ≤ len → off + len ≤ Z.of_nat (length data) →
  bytes_at data off len = Ok (take (Z.to_nat len) (drop (Z.to_nat off) data))
  ∧ Z.of_nat (length (take (Z.to_nat len) (drop (Z.to_nat off) data))) = len.
Proof.
  intros. unfold bytes_at. destruct (Z.leb_spec (off + len) (Z.of_nat (length data))); [|lia].
  split; [done|]. rewrite length_take, length_drop. lia.
Qed.

(** The sector [i] of a buffer. *)
Definition chunk (data : list Z) (i : Z) : list Z := take 512 (drop (Z.to_nat (512 * i)) data).

Lemma chunk_take_drop data off n i :
  0 ≤ off → 0 ≤ i < n →
  chunk (take (Z.to_nat (n * 512)) (drop (Z.to_nat (off * 512)) data)) i = chunk data (off + i).
Proof.
  intros. unfold chunk.
  replace (Z.to_nat (n * 512))
    with (Z.to_nat (512 * i) + (Z.to_nat (n * 512) - Z.to_nat (512 * i)))%nat by lia.
  rewrite <- take_drop_commute, take_take, drop_drop. f_equal; [lia|]. f_equal. lia.
Qed.

(** [WriteSectors] stores the buffer in the sectors of the range and touches no
    other sector of the disk or of its neighbour. *)
Lemma WriteSectors_ok dk start data count c (s : S) :
  ide_chnl_ dk = true → ok base c → 0 < count → 0 ≤ start → start + count ≤ max_lba →
  512 * count ≤ Z.of_nat (length data) → count = 1 ∨ Prompt base S →
  ∃ c' s', WriteSectors dk start data count (c, s) = Ok (c', s')
    ∧ ok base c'
    ∧ ∀ d l, sector s' d l = if bool_decide (d = slave dk) && (start <=? l) && (l <? start + count)
        then chunk data (l - start) else sector s d l.
Proof.
  intros Hd [Hr Hz] Hc Hs Hm Hlen Hpr. pose proof max_lba_eq as Hmax. unfold WriteSectors.
  rewrite !Assert_true by (rewrite ?u32_small by lia; lia). rewrite !res_bind_ok.
  destruct (Select_ok dk c s Hd Hr) as (s0 & -> & D0). rewrite res_bind_ok.
  destruct (loop_inv
    (λ y : Z * @state S, let '(wc, (c', s')) := y in
      0 ≤ wc ≤ count ∧ ok base c'
      ∧ ∀ d l, sector s' d l = if bool_decide (d = slave dk) && (start <=? l) && (l <? start + wc)
          then chunk data (l - start) else sector s d l)
    (λ y, Z.to_nat (count - y.1))
    (λ r : @state S, ok base r.1
      ∧ ∀ d l, sector r.2 d l = if bool_decide (d = slave dk) && (start <=? l) && (l <? start + count)
          then chunk data (l - start) else sector s d l)
    (write_body dk start data count)) with (fuel := Datatypes.S (Z.to_nat count))
      (s := (0, ((c, s0) : @state S))) as ([c' s'] & -> & Ho & HD).
  - intros [wc [c1 s1]] (Hwc & Hok & D1). unfold write_body.
    destruct (Z.ltb_spec wc count) as [Hlt|Hge].
    + left. unfold max_sector_count_per_access. set (n := Z.min (count - wc) 256).
      rewrite u32_small by lia. unfold sector_size.
      destruct (bytes_at_ok data (wc * 512) (n * 512) ltac:(lia) ltac:(lia) ltac:(lia)) as [EB HB].
      set (bytes := take _ (drop _ data)) in *.
      assert (Hn1 : n = 1 ∨ Prompt base S) by (destruct Hpr; [left; lia|by right]).
      destruct (write_one_ok dk (start + wc) n bytes c1 s1 Hd Hok ltac:(lia) ltac:(lia) ltac:(lia)
        ltac:(lia) Hn1) as (x1 & x2 & x3 & x4 & c2 & s2 & E1 & E2 & E3 & E4 & E5 & Hok2 & D2).
      unfold sector_size in E4.
      rewrite E1, res_bind_ok, E2, res_bind_ok, E3, res_bind_ok. simpl Assert.
      rewrite res_bind_ok, EB, res_bind_ok, E4, res_bind_ok, E5, res_bind_ok.
      eexists. split; [reflexivity|]. split; [|cbn [fst snd]; lia]. split; [lia|]. split; [done|].
      intros d l. rewrite D2, D1. destruct (bool_decide (d = slave dk)); [|done].
      destruct (Z.leb_spec (start + wc) l), (Z.ltb_spec l (start + wc + n)); simpl.
      * destruct (Z.leb_spec start l), (Z.ltb_spec l (start + (wc + n))); try lia. simpl.
        fold (chunk bytes (l - (start + wc))). unfold bytes.
        rewrite chunk_take_drop by lia. f_equal. lia.
      * destruct (Z.leb_spec start l), (Z.ltb_spec l (start + (wc + n))), (Z.ltb_spec l (start + wc));
          try lia. done.
      * destruct (Z.ltb_spec l (start + wc)), (Z.ltb_spec l (start + (wc + n))); try lia. done.
      * destruct (Z.ltb_spec l (start + wc)), (Z.ltb_spec l (start + (wc + n))); try lia; done.
    + right. eexists. split; [reflexivity|]. cbn [fst snd]. by replace count with wc by lia.
  - split; [lia|]. split; [done|]. intros d l. rewrite D0.
    destruct (Z.leb_spec start l), (Z.ltb_spec l (start + 0)); try lia; by rewrite ?andb_false_r.
  - cbn [fst]. lia.
  - cbn [fst snd] in *. eauto.
Qed.

Lemma chunks_whole data count :
  Z.of_nat (length data) = 512 * count →
  concat ((λ i, chunk data i) <$> seqZ 0 count) = data.
Proof.
  intros Hlen. assert (∃ n : nat, count = Z.of_nat n) as [n ->] by (exists (Z.to_nat count); lia).
  revert data Hlen. induction n as [|n IH]; intros data Hlen.
  { destruct data; [done|simpl in Hlen; lia]. }
  rewrite seqZ_cons by lia. rewrite fmap_cons. cbn [concat].
  change (Z.succ 0) with (1 + 0). rewrite <- fmap_add_seqZ, <- list_fmap_compose.
  replace (Z.pred (Z.of_nat (Datatypes.S n))) with (Z.of_nat n) by lia.
  transitivity (take 512 data ++ drop 512 data); [|apply take_drop]. f_equal.
  transitivity (concat ((λ i, chunk (drop 512 data) i) <$> seqZ 0 (Z.of_nat n)));
    [|apply IH; rewrite length_drop; lia]. f_equal.
  apply list_fmap_ext. intros i x Hi. apply lookup_seqZ in Hi as [-> Hi]. simpl.
  unfold chunk. rewrite drop_drop. f_equal. f_equal. lia.
Qed.

(** C38. On a device that keeps the ATA specification, [WriteSectors] of one
    sector returns and stores the buffer there and nowhere else, on neither disk
    of the channel; [ReadSectors] of it then returns the buffer, byte for byte,
    and changes nothing. On a device that is also prompt the same holds for any
    number of sectors (they are transferred 256 at a time). A device may need
    time between sectors, for which the driver does not wait: see
    [second_sector_lost]. *)
Theorem sectors_roundtrip dk start data count c (s : S) :
  ide_chnl_ dk = true → ok base c → 0 < count → 0 ≤ start → start + count ≤ 163839 →
  Z.of_nat (length data) = 512 * count → count = 1 ∨ Prompt base S →
  ∃ x1 x2, WriteSectors dk start data count (c, s) = Ok x1
    ∧ (∀ d l, sector x1.2 d l
         = if bool_decide (d = slave dk) && (start <=? l) && (l <? start + count)
           then take 512 (drop (Z.to_nat (512 * (l - start))) data) else sector s d l)
    ∧ ReadSectors dk start count x1 = Ok (data, x2)
    ∧ ∀ d l, sector x2.2 d l = sector x1.2 d l.
Proof.
  intros Hd Hok Hc Hs Hm Hlen Hpr. pose proof max_lba_eq as Hmax.
  destruct (WriteSectors_ok dk start data count c s Hd Hok Hc Hs ltac:(lia) ltac:(lia) Hpr)
    as (c1 & s1 & EW & Hok1 & HW).
  destruct (ReadSectors_ok dk start count c1 s1 Hd Hok1 Hc Hs ltac:(lia) Hpr)
    as (c2 & s2 & ER & _ & HR).
  exists (c1, s1), (c2, s2). split; [exact EW|]. split; [exact HW|]. split; [|exact HR].
  rewrite ER. do 2 f_equal. rewrite <- (chunks_whole data count Hlen). f_equal.
  rewrite <- (Z.add_0_r start) at 1. rewrite <- fmap_add_seqZ.
  rewrite <- list_fmap_compose. apply list_fmap_ext. intros i l Hi.
  apply lookup_seqZ in Hi as [-> Hi]. simpl. rewrite HW, bool_decide_eq_true_2 by done.
  destruct (Z.leb_spec start (start + (0 + Z.of_nat i))),
    (Z.ltb_spec (start + (0 + Z.of_nat i)) (start + count)); try lia.
  simpl. f_equal. lia.
Qed.
End laws.

(** The check of the range is one sector short: the last sector of a disk of
    [max_size] bytes cannot be read, and no device is asked. *)
Lemma last_sector_out_of_reach {S} `{AtaDevice S} dk c (s : S) :
  max_size = 512 * 163840 ∧ ReadSectors dk 163839 1 (c, s) = Panic.
Proof. split; reflexivity. Qed.

(** The interrupt of a channel that waits for none changes nothing; another
    interrupt number is refused. *)
Lemma DiskIntrHandler_ok {S} `{AtaDevice S} num chnls (s : S) i c :
  chnls !! i = Some c → (i < 2)%nat → num = 0x2E + Z.of_nat i → intr_num_ c = num →
  waiting_intr_ c = false →
  DiskIntrHandler num chnls s = Ok (chnls, s).
Proof.
  intros Hi Hlt -> Hn Hw. unfold DiskIntrHandler.
  assert (i = 0%nat ∨ i = 1%nat) as [-> | ->] by lia; simpl;
    rewrite Hi; simpl; unfold GetIntrNum; rewrite Hn; simpl; unfold HandleIntr, IsWaitingForIntr;
    simpl; rewrite Hw; simpl; by rewrite list_insert_id.
Qed.

(** [Disk::Info]: what the identify command returns. *)
Module Info.
Definition serial_len : Z := 20.
Definition model_len : Z := 40.
Definition serial_pos : nat := 20.
Definition model_pos : nat := 54.
Definition sector_count_pos : nat := 120.

(** [SwapBytePairs] on [count] pairs, the source read and the destination
    written at every pair. *)
Definition SwapBytePairs (src dest : list Z) (count : Z) : res (list Z) :=
  for_range (Z.to_nat count) 0 (λ i dest,
    let base := Z.to_nat (i * 2) in
    hi ← of_option (src !! Datatypes.S base);
    lo ← of_option (src !! base);
    _ ← of_option (dest !! Datatypes.S base);
    Ok (<[Datatypes.S base := lo]> (<[base := hi]> dest))) dest.

Record t := mk { serial_ : list Z; model_ : list Z; sector_count_ : Z }.

Definition read_u32 (buf : list Z) (pos : nat) : res Z :=
  b0 ← of_option (buf !! pos);
  b1 ← of_option (buf !! (pos + 1)%nat);
  b2 ← of_option (buf !! (pos + 2)%nat);
  b3 ← of_option (buf !! (pos + 3)%nat);
  Ok (b0 + b1 * 2 ^ 8 + b2 * 2 ^ 16 + b3 * 2 ^ 24).

Definition construct (buf : list Z) : res t :=
  serial ← SwapBytePairs (drop serial_pos buf) (replicate 21 0) (serial_len / 2);
  model ← SwapBytePairs (drop model_pos buf) (replicate 41 0) (model_len / 2);
  count ← read_u32 buf sector_count_pos;
  Ok (mk serial model count).

Definition GetSerial (i : t) : res string_view.t := string_view.of_cptr (Some (serial_ i)).
Definition GetModel (i : t) : res string_view.t := string_view.of_cptr (Some (model_ i)).
Definition GetSectorCount (i : t) : Z := sector_count_ i.
End Info.

(** [GetInfo] *)
Definition GetInfo {S} `{AtaDevice S} (dk : t) (x : state) : res (Info.t * state) :=
  x ← Select dk x;
  x ← SendCmd Identify dk x;
  x ← Block x;
  '(ready, x) ← BusyWait dk x;
  Assert ready;;
  '(data, x) ← ReadWords dk (sector_size / 2) x;
  i ← Info.construct data;
  Ok (i, x).

(** Swapping pairs reverses every two neighbours and leaves the rest. *)
Lemma SwapBytePairs_ok src dest count :
  0 ≤ count → 2 * count ≤ Z.of_nat (length src) → 2 * count ≤ Z.of_nat (length dest) →
  ∃ r, Info.SwapBytePairs src dest count = Ok r ∧ length r = length dest
    ∧ ∀ i : nat, r !! i = if Z.of_nat i <? 2 * count
        then src !! (if Nat.even i then Datatypes.S i else pred i) else dest !! i.
Proof.
  intros Hc Hs Hd. unfold Info.SwapBytePairs. set (body := λ i dest, _).
  destruct (for_range_inv (λ k r, length r = length dest ∧ ∀ i : nat, r !! i
      = if Z.of_nat i <? 2 * k then src !! (if Nat.even i then Datatypes.S i else pred i) else dest !! i)
    (Z.to_nat count) 0 body dest) as (r & -> & Hr).
  - split; [done|]. intros i. destruct (Z.ltb_spec (Z.of_nat i) (2 * 0)); [lia|done].
  - intros k r Hk [Hl Hr]. unfold body. set (b := Z.to_nat (k * 2)).
    destruct (lookup_lt_is_Some_2 src (Datatypes.S b)) as [hi Hhi]; [lia|].
    destruct (lookup_lt_is_Some_2 src b) as [lo Hlo]; [lia|].
    destruct (lookup_lt_is_Some_2 r (Datatypes.S b)) as [x Hx]; [lia|].
    rewrite Hhi, Hlo, Hx. simpl. eexists. split; [reflexivity|].
    split; [by rewrite !length_insert|]. intros i.
    assert (Heven : Nat.even b = true) by (apply Nat.even_spec; exists (Z.to_nat k); lia).
    destruct (decide (i = Datatypes.S b)) as [->|]; [|destruct (decide (i = b)) as [->|]].
    + rewrite list_lookup_insert_eq by (rewrite length_insert; lia).
      destruct (Z.ltb_spec (Z.of_nat (Datatypes.S b)) (2 * (k + 1))); [|lia].
      rewrite Nat.even_succ, <- Nat.negb_even, Heven. simpl. by rewrite Hlo.
    + rewrite list_lookup_insert_ne, list_lookup_insert_eq by lia.
      destruct (Z.ltb_spec (Z.of_nat b) (2 * (k + 1))); [|lia]. by rewrite Heven, Hhi.
    + rewrite !list_lookup_insert_ne by done. rewrite Hr.
      destruct (Z.ltb_spec (Z.of_nat i) (2 * k)), (Z.ltb_spec (Z.of_nat i) (2 * (k + 1)));
        (done || lia).
  - exists r. split; [done|]. by replace (0 + Z.of_nat (Z.to_nat count)) with count in Hr by lia.
Qed.

(** An array with a terminator shows the string in front of the first one. *)
Lemma terminated_holds (arr : list Z) : 0 ∈ arr → ∃ s, cstring.holds arr s.
Proof.
  induction arr as [|c arr IH]; [by intros ?%elem_of_nil|]. intros [<-|H0]%elem_of_cons.
  - exists []. split; [apply not_elem_of_nil|by exists arr].
  - destruct (decide (c = 0)) as [->|Hc].
    + exists []. split; [apply not_elem_of_nil|by exists arr].
    + destruct (IH H0) as (s & Hs). exists (c :: s). apply cstring.holds_cons. eauto.
Qed.

(** The description of a disk: its texts end, and its size is a machine word. *)
Definition info_ok (i : Info.t) : Prop :=
  (∃ s, cstring.holds (Info.serial_ i) s) ∧ (∃ s, cstring.holds (Info.model_ i) s)
  ∧ in_u 32 (Info.sector_count_ i).

Lemma construct_info_ok data :
  length data = 512%nat → Forall (in_u 8) data → ∃ i, Info.construct data = Ok i ∧ info_ok i.
Proof.
  intros Hl Hu. unfold Info.construct.
  assert (Htext : ∀ pos (n : nat), (pos + 2 * n ≤ 512)%nat →
    ∃ r, Info.SwapBytePairs (drop pos data) (replicate (S (2 * n)) 0) (Z.of_nat n) = Ok r ∧ ∃ s, cstring.holds r s).
  { intros pos n Hn. destruct (SwapBytePairs_ok (drop pos data) (replicate (S (2 * n)) 0) (Z.of_nat n))
      as (r & E & Hr & Hat); [lia|rewrite length_drop; lia|rewrite length_replicate; lia|].
    exists r. split; [done|]. apply terminated_holds. apply list_elem_of_lookup. exists (2 * n)%nat.
    rewrite Hat. destruct (Z.ltb_spec (Z.of_nat (2 * n)) (2 * Z.of_nat n)); [lia|].
    by apply lookup_replicate_2; lia. }
  destruct (Htext Info.serial_pos 10%nat) as (serial & E1 & H1); [unfold Info.serial_pos; lia|].
  destruct (Htext Info.model_pos 20%nat) as (model & E2 & H2); [unfold Info.model_pos; lia|].
  change (Info.serial_len / 2) with (Z.of_nat 10). change (Info.model_len / 2) with (Z.of_nat 20).
  change (replicate 21 0) with (replicate (S (2 * 10)) 0). change (replicate 41 0) with (replicate (S (2 * 20)) 0).
  rewrite E1, res_bind_ok, E2, res_bind_ok. unfold Info.read_u32.
  assert (Hb : ∀ i, (i < 512)%nat → ∃ b, data !! i = Some b ∧ 0 ≤ b < 256).
  { intros i Hi. destruct (lookup_lt_is_Some_2 data i) as [b Eb]; [lia|]. exists b. split; [done|].
    exact (proj1 (Forall_lookup _ _) Hu _ _ Eb). }
  destruct (Hb 120%nat) as (b0 & E3 & ?), (Hb 121%nat) as (b1 & E4 & ?), (Hb 122%nat) as (b2 & E5 & ?),
    (Hb 123%nat) as (b3 & E6 & ?); try lia.
  unfold Info.sector_count_pos. change (120 + 1)%nat with 121%nat. change (120 + 2)%nat with 122%nat.
  change (120 + 3)%nat with 123%nat. rewrite E3, E4, E5, E6. cbn [of_option]. rewrite !res_bind_ok. eexists. split; [reflexivity|]. split; [done|]. split; [done|]. cbn. unfold in_u. lia.
Qed.

(** [GetInfo] returns on an attached disk and moves no sector. *)
Lemma GetInfo_ok base {S} `{AtaDevice S} `{!AtaLaws base S} dk c (s : S) :
  ide_chnl_ dk = true → ok base c →
  ∃ i c' s', GetInfo dk (c, s) = Ok (i, (c', s')) ∧ info_ok i ∧ ok base c' ∧ same_data sector s s'.
Proof.
  intros Hd Hok. unfold GetInfo. destruct (Select_ok base dk c s Hd (proj1 Hok)) as (s1 & -> & D1).
  rewrite res_bind_ok. destruct (identify_law s1) as (k & data & Hk & Hl & Hu & HR).
  destruct (read_data_ok base Identify dk (sector_size / 2) c s1 [data] k Hd Hok)
    as (x2 & x3 & x4 & c' & s' & E2 & E3 & E4 & E5 & Hok' & D2); [done|done|done|by left|done|].
  cbn [concat] in E5. rewrite app_nil_r in E5.
  rewrite E2, res_bind_ok, E3, res_bind_ok, E4, res_bind_ok. cbn [Assert]. rewrite res_bind_ok, E5, res_bind_ok.
  destruct (construct_info_ok data Hl Hu) as (i & -> & Hi). rewrite res_bind_ok.
  exists i, c', s'. split; [done|]. split; [done|]. split; [done|]. by eapply same_data_trans.
Qed.
End Disk.

(** ** Devices that keep the specification *)

(** A drive on the primary channel: five registers, the last command, the blocks
    it has still to give, the number it has taken, and the sectors that were
    written. When it is [lazy] it needs an interrupt's time between one block and
    the next, in which it is busy and ignores the data port. *)
Module Drive.

Record t := mk {
  cnt : Z; lo : Z; mid : Z; hi : Z; dev : Z; cmd : Z;
  left : list (list Z); taken : Z; waiting : bool;
  store : gmap (bool * Z) (list Z)
}.

Definition fresh : t := mk 0 0 0 0 0 0 [] 0 false ∅.

Definition sector (e : t) (d : bool) (l : Z) : list Z :=
  take 512 (default [] (store e !! (d, l)) ++ replicate 512 0).

Definition cur_dev (e : t) : bool := Z.testbit (dev e) 4.
Definition cur_lba (e : t) : Z :=
  lo e + mid e * 2 ^ 8 + hi e * 2 ^ 16 + dev e mod 2 ^ 4 * 2 ^ 24.
Definition cur_count (e : t) : Z := if cnt e =? 0 then 256 else cnt e.
Definition cur_data (e : t) : list (list Z) :=
  sector e (cur_dev e) <$> seqZ (cur_lba e) (cur_count e).

(** What the drive says of itself: zeros, and 163840 sectors. *)
Definition identity : list Z := <[121%nat := 128]> (<[122%nat := 2]> (replicate 512 0)).

Definition blank : list Z := replicate 512 0.

(** A command is ready at once. *)
Definition start (c : Z) (e : t) : t :=
  mk (cnt e) (lo e) (mid e) (hi e) (dev e) c
    (if c =? 0x20 then cur_data e else if c =? 0xEC then [identity] else []) 0 false (store e).

Definition write_reg (off v : Z) (e : t) : t :=
  let reg a b c d f := mk a b c d f (cmd e) (left e) (taken e) (waiting e) (store e) in
  if off =? 2 then reg v (lo e) (mid e) (hi e) (dev e)
  else if off =? 3 then reg (cnt e) v (mid e) (hi e) (dev e)
  else if off =? 4 then reg (cnt e) (lo e) v (hi e) (dev e)
  else if off =? 5 then reg (cnt e) (lo e) (mid e) v (dev e)
  else if off =? 6 then reg (cnt e) (lo e) (mid e) (hi e) v
  else if off =? 7 then start v e
  else e.

Section drive.
Context (lazy : bool).

Definition give (e : t) : list Z * t :=
  match left e with
  | b :: bs =>
      if waiting e then (blank, e)
      else (b, mk (cnt e) (lo e) (mid e) (hi e) (dev e) (cmd e) bs (taken e) lazy (store e))
  | [] => (blank, e)
  end.

Fixpoint give_all (n : nat) (e : t) : list Z * t :=
  match n with
  | O => ([], e)
  | S n' => let '(x, e1) := give e in let '(y, e2) := give_all n' e1 in (x ++ y, e2)
  end.

Definition take_block (b : list Z) (e : t) : t :=
  if (cmd e =? 0x30) && negb (waiting e) && (taken e <? cur_count e)
  then mk (cnt e) (lo e) (mid e) (hi e) (dev e) (cmd e) (left e) (taken e + 1) lazy
         (<[(cur_dev e, cur_lba e + taken e) := b]> (store e))
  else e.

Fixpoint take_all (n : nat) (data : list Z) (e : t) : t :=
  match n with
  | O => e
  | S n' => take_all n' (drop 512 data) (take_block (take 512 data) e)
  end.

Definition drive : AtaDevice t := {|
  out_byte p v e := write_reg (p - 0x1F0) v e;
  in_byte p e := (if waiting e then 0x80 else 0x48, e);
  out_words p data e := take_all (length data / 512) data e;
  in_words p count e := give_all (Z.to_nat (count / 256)) e;
  complete e := mk (cnt e) (lo e) (mid e) (hi e) (dev e) (cmd e) (left e) (taken e) false (store e);
  sleep _ e := e
|}.
#[local] Existing Instance drive.

Definition programmed (e : t) (d : bool) (l n : Z) : Prop :=
  cur_dev e = d ∧ cur_lba e = l ∧ cur_count e = n ∧ 0 ≤ n.
Definition reading (k : nat) (e : t) (bs : list (list Z)) : Prop :=
  k = O ∧ waiting e = false ∧ left e = bs.
Definition writing (k : nat) (e : t) (d : bool) (l n : Z) : Prop :=
  k = O ∧ waiting e = false ∧ cmd e = 0x30 ∧ cur_dev e = d ∧ cur_lba e + taken e = l ∧ cur_count e - taken e = n.

Lemma write_reg_store off v e : store (write_reg off v e) = store e.
Proof. unfold write_reg, start. by repeat case_match. Qed.

Lemma sector_512 (e : t) d l : length (sector e d l) = 512%nat.
Proof. unfold sector. rewrite length_take, length_app, length_replicate. lia. Qed.

Lemma give_store e : store (give e).2 = store e.
Proof. unfold give. by repeat case_match. Qed.

Lemma drive_take_block e d l n b :
  writing 0 e d l n → 0 < n → length b = 512%nat →
  ∀ d' l', sector (take_block b e) d' l'
    = if bool_decide (d' = d) && (l' =? l) then b else sector e d' l'.
Proof.
  intros (_ & Hw & Hc & <- & <- & <-) Hn Hb d' l'. unfold take_block. rewrite Hw, Hc.
  destruct (Z.ltb_spec (taken e) (cur_count e)); [|lia]. simpl. unfold sector. simpl.
  destruct (bool_decide_reflect (d' = cur_dev e)) as [->|Hd]; simpl.
  - destruct (Z.eqb_spec l' (cur_lba e + taken e)) as [->|Hl].
    + rewrite lookup_insert_eq. simpl. by rewrite take_app_length'.
    + by rewrite lookup_insert_ne by congruence.
  - by rewrite lookup_insert_ne by congruence.
Qed.

Definition drive_laws : AtaLaws 0x1F0 t.
Proof.
  refine {| IoDisk.sector := sector; IoDisk.programmed := programmed;
            IoDisk.reading := reading; IoDisk.writing := writing |}.
  - apply sector_512.
  - intros s off v _ d l. simpl. unfold sector. by rewrite write_reg_store.
  - done.
  - done.
  - done.
  - intros s c l m h v Hc _ _ _ _ _. simpl. split; [done|]. split; [done|]. split; [done|].
    destruct Hc. case_match; lia.
  - intros s d lba n (<- & <- & <- & _). exists O. split; [lia|]. done.
  - intros s. exists O, identity. split; [lia|]. split; [done|]. split; [|done].
    apply (bool_decide_unpack _). by vm_compute.
  - intros s d lba n (<- & <- & <- & _). exists O. split; [lia|]. split; [done|].
    do 3 (split; [done|]). split; [apply Z.add_0_r|apply Z.sub_0_r].
  - intros k s bs (-> & H & ?). simpl. split; [by rewrite H|]. split; [by rewrite H|done].
  - intros k s d lba n (-> & H & ?). simpl. split; [by rewrite H|]. split; [by rewrite H|done].
  - by intros k s data [? _].
  - by intros k s d lba n [? _].
  - intros s b bs (_ & Hw & Hl). simpl. unfold give. rewrite Hl, Hw, app_nil_r. done.
  - intros s d lba n data HW Hn Hl. simpl. rewrite Hl. simpl. rewrite take_ge by lia.
    by apply (drive_take_block s d lba n).
  - intros s n Hn. simpl. replace ((256 + n) / 256) with (1 + n / 256) by div_lia.
    rewrite Z2Nat.inj_add by div_lia. simpl. destruct (give s) as [x s1]. rewrite app_nil_r.
    by destruct (give_all _ s1).
  - intros s x y Hx. cbn [out_words drive]. rewrite length_app, Hx.
    replace ((512 + length y) / 512)%nat with (S (length y / 512)).
    + change (512 / 512)%nat with 1%nat. cbn [take_all].
      by rewrite take_app_length', drop_app_length', (take_ge x) by lia.
    + replace (512 + length y)%nat with (1 * 512 + length y)%nat by lia. by rewrite Nat.div_add_l by lia.
Defined.
End drive.

(** The drive that has the next block at once, as an emulated one does. *)
#[export] Instance prompt_drive : AtaDevice t := drive false.
#[export] Instance prompt_laws : AtaLaws 0x1F0 t := drive_laws false.
#[export] Instance drive_prompt : Prompt 0x1F0 t.
Proof.
  split.
  - intros s b bs (_ & Hw & Hl). simpl. unfold give. rewrite Hl, Hw. done.
  - intros s d lba n data (_ & Hw & Hc & <- & <- & <-) Hn Hl. simpl. rewrite Hl. simpl. unfold take_block.
    rewrite Hw, Hc. destruct (Z.ltb_spec (taken s) (cur_count s)); [|lia]. simpl.
    split_and!; try done; simpl; unfold cur_lba, cur_count; simpl; lia.
Qed.
End Drive.
Import (hints) Drive.

(** 300 sectors written and read back on the second disk of the primary channel,
    and one sector on a drive that is not prompt. *)
Lemma sectors_roundtrip_witness :
  let dk := Disk.mk (replicate 9 0) true 1 in
  let c := IdeChnl.mk (replicate 9 0) IdeChnl.Primary 0x1F0 0x2E false 0 in
  ∃ x1 x2, Disk.WriteSectors dk 4096 (replicate (Z.to_nat 153600) 7) 300 (c, Drive.fresh) = Ok x1
    ∧ (∀ d l, sector (base := 0x1F0) x1.2 d l
         = if bool_decide (d = Disk.slave dk) && (4096 <=? l) && (l <? 4096 + 300)
           then take 512 (drop (Z.to_nat (512 * (l - 4096))) (replicate (Z.to_nat 153600) 7))
           else sector (base := 0x1F0) Drive.fresh d l)
    ∧ Disk.ReadSectors dk 4096 300 x1 = Ok (replicate (Z.to_nat 153600) 7, x2)
    ∧ ∀ d l, sector (base := 0x1F0) x2.2 d l = sector (base := 0x1F0) x1.2 d l.
Proof.
  apply (Disk.sectors_roundtrip 0x1F0 (Disk.mk (replicate 9 0) true 1) 4096 (replicate (Z.to_nat 153600) 7) 300
    (IdeChnl.mk (replicate 9 0) IdeChnl.Primary 0x1F0 0x2E false 0) Drive.fresh); try lia.
  - reflexivity.
  - split; [|reflexivity]. split; [discriminate|]. split; [reflexivity|lia].
  - rewrite length_replicate, Z2Nat.id; lia.
  - right. apply Drive.drive_prompt.
Defined.

(** A drive that keeps the specification and is not prompt: of two sectors
    written with one call the second is lost, and the driver does not notice. *)
Example second_sector_lost :
  let dk := Disk.mk (replicate 9 0) true 0 in
  let c := IdeChnl.mk (replicate 9 0) IdeChnl.Primary 0x1F0 0x2E false 0 in
  match Disk.WriteSectors (H := Drive.drive true) dk 100 (replicate 1024 7) 2 (c, Drive.fresh) with
  | Ok x => Drive.sector x.2 false 100 = replicate 512 7 ∧ Drive.sector x.2 false 101 = replicate 512 0
  | _ => False
  end.
Proof. vm_compute. done. Qed.
