(* ===== verification/UtilFormat.v ===== *)
(** * String formatting

    [Format] models src/include/kernel/util/format.h and
    src/src/kernel/util/format.cpp. A buffer is the object from the pointer on;
    a routine returns the object it wrote and the length it reports. *)
From S2P Require Import Prelude UtilBit StlString.

Module Format.
Import cstring.

(** [buf[idx] = ch] *)
Definition put (idx : Z) (ch : Z) (buf : mem) : res mem :=
  if idx <? Z.of_nat (length buf) then Ok (<[Z.to_nat idx := ch]> buf) else Fault.

(** A digit, upper case above 9, stored in a [char] of 8 bits. *)
Definition digit_char (digit : Z) : Z :=
  u8 (if digit <? 10 then digit + 48 else digit - 10 + 65).

(** [ConvertUIntToString]; the recursion is on the quotient, so 32 calls are
    enough for a base of at least 2. A division by zero is undefined. *)
Fixpoint ConvertUInt (fuel : nat) (num base : Z) (buf : mem) : res (mem * Z) :=
  match fuel with
  | O => NoFuel
  | S fuel' =>
      if base =? 0 then Fault
      else
        let digit := num mod base in
        let remain := num / base in
        '(buf, len) ← (if 0 <? remain then ConvertUInt fuel' remain base buf else Ok (buf, 0));
        buf ← put len (digit_char digit) buf;
        buf ← put (len + 1) 0 buf;
        Ok (buf, len + 1)
  end.

Definition convert_fuel : nat := 32.
Definition ConvertUIntToString (buf : mem) (num base : Z) : res (mem * Z) :=
  ConvertUInt convert_fuel num base buf.

(** [buf + pos] *)
Definition at_offset (pos : Z) (f : mem → res (mem * Z)) (buf : mem) : res (mem * Z) :=
  if pos <=? Z.of_nat (length buf) then
    '(m, len) ← f (drop (Z.to_nat pos) buf);
    Ok (take (Z.to_nat pos) buf ++ m, len)
  else Fault.

(** [-num] wraps when the result is converted to an unsigned number. *)
Definition ConvertIntToString (buf : mem) (num base : Z) : res (mem * Z) :=
  if num <? 0 then
    if num =? - 2 ^ 31 then Fault
    else
      buf ← put 0 45 buf;
      '(buf, len) ← at_offset 1 (λ m, ConvertUIntToString m (u32 (- num)) base) buf;
      Ok (buf, len + 1)
  else ConvertUIntToString buf num base.

(** The supported arguments. *)
Inductive arg : Type :=
| AUInt (num : Z) | AInt (num : Z) | AChar (ch : Z) | AStr (str : cptr) | AView (str : string_view.t).

(** The overloads of [Format]. *)
Definition Format (a : arg) (buf : mem) : res (mem * Z) :=
  match a with
  | AUInt num => ConvertUIntToString buf num 10
  | AInt num => ConvertIntToString buf num 10
  | AChar ch => buf ← put 0 ch buf; Ok (buf, 1)
  | AStr str =>
      Assert (bool_decide (is_Some str));;
      buf ← strcpy (Some buf) str;
      len ← strlen str;
      Ok (buf, len)
  | AView str =>
      Assert (negb (string_view.empty str));;
      buf ← strcpy (Some buf) (string_view.data str);
      Ok (buf, string_view.size str)
  end.

(** The loop over the format, which copies characters up to the first pair of
    braces: the index and the characters copied. *)
Definition format_body (format : string_view.t) (s : Z * mem * Z) :
    res ((Z * mem * Z) + (option Z * mem * Z)) :=
  let '(i, buf, len) := s in
  if i =? string_view.size format then Ok (inr (None, buf, len))
  else
    c ← string_view.at_ format i;
    braces ← (if (c =? 123) && negb (i + 1 =? string_view.size format) then
                d ← string_view.at_ format (i + 1);
                Ok (d =? 125)
              else Ok false);
    if (braces : bool) then Ok (inr (Some i, buf, len))
    else buf ← put len c buf; Ok (inl (i + 1, buf, len + 1)).

Fixpoint FormatStringBuffer_impl (buf : mem) (format : string_view.t) (args : list arg) :
    res (mem * Z) :=
  match args with
  | [] => if negb (string_view.empty format) then Format (AView format) buf else Ok (buf, 0)
  | a :: args' =>
      '(found, buf, len) ← loop (S (Z.to_nat (string_view.size format))) (format_body format) (0, buf, 0);
      match found with
      | None => Ok (buf, len)
      | Some i =>
          '(buf, n) ← at_offset len (Format a) buf;
          let len := len + n in
          '(buf, n) ← at_offset len
            (λ m, FormatStringBuffer_impl m (string_view.substr format (i + 2) string_view.npos) args') buf;
          Ok (buf, len + n)
      end
  end.

Definition FormatStringBuffer (buf : mem) (format : string_view.t) (args : list arg) : res (mem * Z) :=
  Assert (negb (string_view.empty format));;
  FormatStringBuffer_impl buf format args.

(** "sda5" *)
Example format_demo :
  FormatStringBuffer (replicate 8 0) (string_view.literal [123; 125; 123; 125])
    [AStr (Some [115; 100; 97; 0]); AUInt 5]
  = Ok ([115; 100; 97; 53; 0; 0; 0; 0], 4).
Proof. reflexivity. Qed.

(** ** Numbers *)

(** The digits of a number, most significant first. *)
Fixpoint digits (fuel : nat) (base num : Z) : list Z :=
  match fuel with
  | O => []
  | S fuel' =>
      (if 0 <? num / base then digits fuel' base (num / base) else []) ++ [num mod base]
  end.

Definition value (base : Z) (ds : list Z) : Z := foldl (λ acc d, acc * base + d) 0 ds.

(** The digits are those of the number, in range, without leading zeros. *)
Lemma digits_ok fuel base num :
  2 ≤ base → 0 ≤ num < base ^ Z.of_nat fuel → (0 < fuel)%nat →
  value base (digits fuel base num) = num ∧ Forall (λ d, 0 ≤ d < base) (digits fuel base num)
  ∧ (0 < num → ∃ d ds, digits fuel base num = d :: ds ∧ 0 < d)
  ∧ (num = 0 → digits fuel base num = [0]).
Proof.
  intros Hb. revert num. induction fuel as [|fuel IH]; intros num Hn Hf; [lia|].
  cbn [digits]. pose proof (Z.div_mod num base) as Hdm. pose proof (Z.mod_pos_bound num base) as Hmod.
  destruct (Z.ltb_spec 0 (num / base)) as [Hr|Hr].
  - assert (num / base < base ^ Z.of_nat fuel).
    { apply Z.div_lt_upper_bound; [lia|]. rewrite Nat2Z.inj_succ, Z.pow_succ_r in Hn by lia. lia. }
    assert (0 < fuel)%nat. { destruct fuel; [simpl in *; lia|lia]. }
    destruct (IH (num / base)) as (HV & HF & HH & _); [lia|done|].
    destruct (HH Hr) as (d & ds & E & Hd). split; [|split; [|split]].
    + unfold value in *. rewrite foldl_app, HV. simpl. lia.
    + apply Forall_app. split; [done|]. constructor; [lia|constructor].
    + intros _. rewrite E. by exists d, (ds ++ [num mod base]).
    + intros ->. rewrite Z.div_0_l in Hr by lia. lia.
  - assert (num / base = 0) by (pose proof (Z.div_pos num base); lia).
    assert (num mod base = num) by lia. simpl. split; [unfold value; simpl; lia|].
    split; [constructor; [lia|constructor]|]. split; [intros; exists (num mod base), []; split; [done|lia]|].
    intros ->. by rewrite Z.mod_0_l by lia.
Qed.

Lemma digits_length fuel base num : (length (digits fuel base num) ≤ fuel)%nat.
Proof.
  revert num. induction fuel as [|fuel IH]; intros num; [done|]. cbn [digits].
  rewrite length_app. specialize (IH (num / base)). case_match; simpl; lia.
Qed.

Lemma put_ok idx ch buf :
  0 ≤ idx < Z.of_nat (length buf) → put idx ch buf = Ok (<[Z.to_nat idx := ch]> buf).
Proof. intros. unfold put. by rewrite (proj2 (Z.ltb_lt _ _)) by lia. Qed.

(** [put] at the end of a prefix. *)
Lemma put_app pre x tail ch :
  put (Z.of_nat (length pre)) ch (pre ++ x :: tail) = Ok (pre ++ ch :: tail).
Proof.
  rewrite put_ok by (rewrite length_app; simpl; lia).
  by rewrite Nat2Z.id, insert_app_r_alt, Nat.sub_diag by lia.
Qed.

Lemma ConvertUInt_ok fuel base num buf :
  2 ≤ base → 0 ≤ num < base ^ Z.of_nat fuel → (0 < fuel)%nat →
  let ds := digits fuel base num in
  (length ds < length buf)%nat →
  ConvertUInt fuel num base buf
  = Ok ((digit_char <$> ds) ++ 0 :: drop (S (length ds)) buf, Z.of_nat (length ds)).
Proof.
  intros Hb. cbv zeta. revert num. induction fuel as [|fuel IH]; intros num Hn Hf Hl; [lia|].
  cbn [digits ConvertUInt] in *. destruct (Z.eqb_spec base 0); [lia|].
  destruct (Z.ltb_spec 0 (num / base)) as [Hr|Hr].
  - assert (num / base < base ^ Z.of_nat fuel).
    { apply Z.div_lt_upper_bound; [lia|]. rewrite Nat2Z.inj_succ, Z.pow_succ_r in Hn by lia. lia. }
    assert (0 < fuel)%nat. { destruct fuel; [simpl in *; lia|lia]. }
    rewrite length_app in Hl. simpl in Hl.
    rewrite IH by (try done; lia). rewrite res_bind_ok. cbv beta iota.
    set (ds := digits fuel base (num / base)) in *.
    rewrite <- (length_fmap digit_char ds), put_app, res_bind_ok. rewrite !length_fmap.
    destruct (drop (S (length ds)) buf) as [|y rest] eqn:Ed.
    { apply (f_equal length) in Ed. rewrite length_drop in Ed. simpl in Ed. lia. }
    rewrite fmap_app, !length_app. cbn [length fmap list_fmap].
    replace (Z.of_nat (length ds) + 1)
      with (Z.of_nat (length ((digit_char <$> ds) ++ [digit_char (num mod base)])))
      by (rewrite length_app, length_fmap; simpl; lia).
    replace ((digit_char <$> ds) ++ digit_char (num mod base) :: y :: rest)
      with (((digit_char <$> ds) ++ [digit_char (num mod base)]) ++ y :: rest)
      by (by rewrite <- app_assoc).
    rewrite put_app, res_bind_ok. do 2 f_equal.
    + do 2 f_equal. replace (S (length ds + 1)) with (1 + S (length ds))%nat by lia.
      rewrite Nat.add_comm, <- drop_drop, Ed. done.
    + rewrite length_app, length_fmap. simpl. lia.
  - simpl in Hl |- *. destruct buf as [|x [|y buf]]; simpl in Hl; try lia.
    pose proof (put_app [] x (y :: buf) (digit_char (num mod base))) as E1.
    pose proof (put_app [digit_char (num mod base)] y buf 0) as E2. cbn [length app] in E1, E2.
    change (Z.of_nat 0) with 0 in E1. change (Z.of_nat 1) with (0 + 1) in E2.
    rewrite E1. cbn [mbind res_bind]. by rewrite E2.
Qed.

(** The symbols of the bases up to 36: "0" to "9", then "A" to "Z". *)
Definition symbols : list Z := seqZ 48 10 ++ seqZ 65 26.

Lemma digit_char_symbol d : 0 ≤ d < 36 → symbols !! Z.to_nat d = Some (digit_char d).
Proof.
  intros Hd. assert (Hall : forallb (λ d, bool_decide (symbols !! Z.to_nat d = Some (digit_char d))) (seqZ 0 36) = true)
    by (vm_compute; reflexivity).
  rewrite forallb_forall in Hall. apply (bool_decide_eq_true_1 _), Hall, list_elem_of_In, elem_of_seqZ. lia.
Qed.

(** Up to digit 200 the character is no terminator. *)
Lemma digit_char_pos d : 0 ≤ d < 201 → 0 < digit_char d < 256.
Proof.
  intros Hd. unfold digit_char. destruct (Z.ltb_spec d 10); unfold u8; rewrite wrap_small by (unfold in_u; lia); lia.
Qed.

(** C39. For every 32-bit number and every base of at least 2,
    [ConvertUIntToString] returns, and writes one character per digit of the
    number in that base, most significant first and without leading zeros, and
    then a terminator; the length it reports is that of the digits, and it needs
    one byte more. Up to base 36 the characters are "0" to "9" and "A" to "Z";
    up to base 201 no character is a terminator, so the buffer holds the string.
    Beyond, the characters wrap: the digit 201 is stored as a terminator. *)
Theorem ConvertUIntToString_digits buf num base :
  2 ≤ base → 0 ≤ num < 2 ^ 32 → (33 ≤ length buf)%nat →
  ∃ ds, ConvertUIntToString buf num base
      = Ok ((digit_char <$> ds) ++ 0 :: drop (S (length ds)) buf, Z.of_nat (length ds))
    ∧ value base ds = num ∧ Forall (λ d, 0 ≤ d < base) ds
    ∧ (0 < num → ∃ d ds', ds = d :: ds' ∧ 0 < d) ∧ (num = 0 → ds = [0])
    ∧ (base ≤ 36 → Forall2 (λ d c, symbols !! Z.to_nat d = Some c) ds (digit_char <$> ds))
    ∧ (base ≤ 201 → holds ((digit_char <$> ds) ++ 0 :: drop (S (length ds)) buf) (digit_char <$> ds))
    ∧ digit_char 201 = 0.
Proof.
  intros Hb Hn Hl. unfold ConvertUIntToString, convert_fuel.
  assert (2 ^ 32 ≤ base ^ Z.of_nat 32) by (apply Z.pow_le_mono_l; lia).
  exists (digits 32 base num). split.
  - apply ConvertUInt_ok; [done|lia|lia|]. pose proof (digits_length 32 base num). lia.
  - destruct (digits_ok 32 base num) as (Hv & Hr & Hp & Hz); [lia|lia|lia|].
    split; [done|]. split; [done|]. split; [done|]. split; [done|]. rewrite Forall_forall in Hr. split; [|split; [|done]].
    + intros H36. apply Forall2_fmap_r, Forall_Forall2_diag, Forall_forall. intros d Hd.
      apply digit_char_symbol. specialize (Hr d Hd). lia.
    + intros H201. split; [|by eexists]. intros (d & E & Hd)%list_elem_of_fmap. specialize (Hr d Hd).
      pose proof (digit_char_pos d ltac:(lia)). lia.
Qed.

Lemma ConvertUIntToString_digits_witness :
  ∃ ds, ConvertUIntToString (replicate 33 0) 3735928559 16
      = Ok ((digit_char <$> ds) ++ 0 :: drop (S (length ds)) (replicate 33 0), Z.of_nat (length ds))
    ∧ value 16 ds = 3735928559 ∧ Forall (λ d, 0 ≤ d < 16) ds
    ∧ (0 < 3735928559 → ∃ d ds', ds = d :: ds' ∧ 0 < d) ∧ (3735928559 = 0 → ds = [0])
    ∧ (16 ≤ 36 → Forall2 (λ d c, symbols !! Z.to_nat d = Some c) ds (digit_char <$> ds))
    ∧ (16 ≤ 201 → holds ((digit_char <$> ds) ++ 0 :: drop (S (length ds)) (replicate 33 0)) (digit_char <$> ds))
    ∧ digit_char 201 = 0.
Proof. apply (ConvertUIntToString_digits (replicate 33 0) 3735928559 16); simpl; lia. Defined.

(** ** Formatting *)

(** The characters of an argument. *)
Definition dec (num : Z) : list Z := digit_char <$> digits 32 10 num.
Inductive says : arg → list Z → Prop :=
| says_uint num : 0 ≤ num < 2 ^ 32 → says (AUInt num) (dec num)
| says_int num : 0 ≤ num < 2 ^ 31 → says (AInt num) (dec num)
| says_neg num : - 2 ^ 31 < num < 0 → says (AInt num) (45 :: dec (- num))
| says_char ch : says (AChar ch) [ch]
| says_str m s : holds m s → says (AStr (Some m)) s
| says_view v s : string_view.shows v s → s ≠ [] → says (AView v) s.

(** The format up to its first pair of braces, and the rest after it. *)
Fixpoint find_braces (s : list Z) : list Z * option (list Z) :=
  match s with
  | [] => ([], None)
  | c :: s' =>
      if (c =? 123) && match s' with d :: _ => d =? 125 | [] => false end
      then ([], Some (drop 1 s'))
      else let '(pre, r) := find_braces s' in (c :: pre, r)
  end.

(** What is written: arguments in place of braces, and nothing past the format
    when arguments are left. *)
Fixpoint render (s : list Z) (ts : list (list Z)) : list Z :=
  match ts with
  | [] => s
  | t :: ts' =>
      let '(pre, r) := find_braces s in
      match r with
      | None => pre
      | Some rest => pre ++ t ++ render rest ts'
      end
  end.

(** The buffer starts with the text; bytes after it that were zero still are. *)
Definition writes (buf : mem) (x : res (mem * Z)) (t : list Z) : Prop :=
  ∃ rest, x = Ok (t ++ rest, Z.of_nat (length t)) ∧ length (t ++ rest) = length buf
    ∧ (Forall (λ c, c = 0) buf → Forall (λ c, c = 0) rest).

Lemma writes_terminated buf t :
  (length t < length buf)%nat →
  writes buf (Ok (t ++ 0 :: drop (S (length t)) buf, Z.of_nat (length t))) t.
Proof.
  intros Hl. eexists. split; [reflexivity|]. split.
  - rewrite length_app. cbn [length]. rewrite length_drop. lia.
  - intros Hz. constructor; [done|]. by apply Forall_drop.
Qed.

Lemma writes_dec buf num :
  0 ≤ num < 2 ^ 32 → (length (dec num) < length buf)%nat →
  writes buf (ConvertUIntToString buf num 10) (dec num).
Proof.
  intros Hn Hl. unfold ConvertUIntToString, convert_fuel, dec in *. rewrite length_fmap in Hl.
  assert (2 ^ 32 ≤ 10 ^ Z.of_nat 32) by (apply Z.pow_le_mono_l; lia).
  rewrite ConvertUInt_ok by (done || lia).
  pose proof (writes_terminated buf (digit_char <$> digits 32 10 num)) as H0.
  rewrite length_fmap in H0. by apply H0.
Qed.

(** Writing at an offset, after a prefix. *)
Lemma writes_offset f pre tail t :
  writes tail (f tail) t →
  ∃ rest, at_offset (Z.of_nat (length pre)) f (pre ++ tail)
      = Ok ((pre ++ t) ++ rest, Z.of_nat (length t))
    ∧ length (t ++ rest) = length tail ∧ (Forall (λ c, c = 0) tail → Forall (λ c, c = 0) rest).
Proof.
  intros (rest & E & Hl & Hz). exists rest. unfold at_offset.
  rewrite (proj2 (Z.leb_le _ _)) by (rewrite length_app; lia).
  rewrite Nat2Z.id, drop_app_length, take_app_length, E, res_bind_ok. by rewrite <- app_assoc.
Qed.

Lemma Format_writes a t buf :
  says a t → (length t < length buf)%nat → writes buf (Format a buf) t.
Proof.
  intros Hs Hl. destruct Hs as [num Hn|num Hn|num Hn|ch|m s Hm|v s Hv Hne]; cbn [Format].
  - by apply writes_dec.
  - unfold ConvertIntToString. destruct (Z.ltb_spec num 0); [lia|]. apply writes_dec; [lia|done].
  - unfold ConvertIntToString. destruct (Z.ltb_spec num 0); [|lia].
    destruct (Z.eqb_spec num (- 2 ^ 31)); [lia|].
    destruct buf as [|x buf]; simpl in Hl; [lia|].
    pose proof (put_app [] x buf 45) as E1. cbn [length app] in E1. change (Z.of_nat 0) with 0 in E1.
    rewrite E1, res_bind_ok, u32_small by lia.
    destruct (writes_offset (λ m, ConvertUIntToString m (- num) 10) [45] buf (dec (- num)))
      as (rest & E & Hr & Hz); [apply writes_dec; lia|].
    change (Z.of_nat (length [45])) with 1 in E. cbn [app] in E. rewrite E, res_bind_ok.
    exists rest. cbn [length app]. split; [do 2 f_equal; lia|]. split; [congruence|].
    intros Hb. apply Hz. by apply Forall_inv_tail in Hb.
  - destruct buf as [|x buf]; simpl in Hl; [lia|].
    pose proof (put_app [] x buf ch) as E1. cbn [length app] in E1. change (Z.of_nat 0) with 0 in E1.
    rewrite E1. exists buf. split; [done|]. split; [done|]. apply Forall_inv_tail.
  - simpl. rewrite (strcpy_ok buf m s Hm Hl), res_bind_ok. rewrite (strlen_ok m s Hm), res_bind_ok.
    by apply writes_terminated.
  - rewrite (string_view.shows_empty v s Hv), bool_decide_eq_false_2 by done. simpl.
    destruct Hv as [Hlen Hv]. unfold string_view.data, string_view.size. rewrite Hlen.
    destruct (string_view.str_ v) as [m|]; [|done]. simpl. rewrite (strcpy_ok buf m s Hv Hl), res_bind_ok.
    by apply writes_terminated.
Qed.

(** ** The loop over the format *)

Lemma view_at v s i c :
  string_view.shows v s → s !! i = Some c → string_view.at_ v (Z.of_nat i) = Ok c.
Proof.
  intros [_ Hv] Hi. unfold string_view.at_. destruct (string_view.str_ v) as [m|].
  - destruct Hv as (_ & rest & ->). simpl. rewrite Nat2Z.id, lookup_app_l; [by rewrite Hi|].
    by eapply lookup_lt_Some.
  - by subst s.
Qed.

Lemma find_braces_rest s p r :
  find_braces s = (p, Some r) → r = drop (length p + 2) s ∧ (length p + 2 ≤ length s)%nat.
Proof.
  revert p r. induction s as [|c s IH]; intros p r; cbn [find_braces]; [done|].
  destruct ((c =? 123) && _) eqn:E.
  - intros [= <- <-]. to_prop. destruct s as [|d s]; [done|]. split; [done|simpl; lia].
  - destruct (find_braces s) as [p' r'] eqn:Ef. intros [= <- ->].
    destruct (IH p' r eq_refl) as [-> Hl]. split; [done|simpl; lia].
Qed.

Lemma format_loop_ok v s :
  string_view.shows v s →
  ∀ s2 fuel pre tail, drop (length pre) s = s2 → (length pre + length s2 = length s)%nat →
    (length (find_braces s2).1 ≤ length tail)%nat → (length s2 < fuel)%nat →
    let p := (find_braces s2).1 in
    loop fuel (format_body v) (Z.of_nat (length pre), pre ++ tail, Z.of_nat (length pre))
    = Ok (match (find_braces s2).2 with
          | Some _ => Some (Z.of_nat (length (pre ++ p))) | None => None end,
          (pre ++ p) ++ drop (length p) tail, Z.of_nat (length (pre ++ p))).
Proof.
  intros Hv s2. induction s2 as [|c s2 IH]; intros fuel pre tail Hs2 Hlen Hroom Hf;
    (destruct fuel as [|fuel]; [simpl in Hf; lia|]); rewrite loop_S; unfold format_body at 2;
    unfold string_view.size; destruct Hv as [HL Hv]; rewrite HL.
  - simpl in Hlen. destruct (Z.eqb_spec (Z.of_nat (length pre)) (Z.of_nat (length s))); [|lia].
    cbn [mbind res_bind find_braces fst snd length]. by rewrite !app_nil_r, drop_0.
  - simpl in Hlen, Hf. destruct (Z.eqb_spec (Z.of_nat (length pre)) (Z.of_nat (length s))); [lia|].
    assert (Hc : s !! length pre = Some c) by (by rewrite <- (Nat.add_0_r (length pre)), <- lookup_drop, Hs2).
    rewrite (view_at v s _ c (conj HL Hv) Hc), res_bind_ok.
    assert (Hd : drop (S (length pre)) s = s2)
      by (rewrite <- Nat.add_1_r, <- drop_drop, Hs2; done).
    set (b := match s2 with d :: _ => d =? 125 | [] => false end).
    assert (HB : (if (c =? 123) && negb (Z.of_nat (length pre) + 1 =? Z.of_nat (length s)) then
                    d ← string_view.at_ v (Z.of_nat (length pre) + 1); Ok (d =? 125) else Ok false)
                 = Ok ((c =? 123) && b)).
    { destruct (Z.eqb_spec c 123); [|done]. simpl. unfold b. destruct s2 as [|d s2].
      - simpl in Hlen. destruct (Z.eqb_spec (Z.of_nat (length pre) + 1) (Z.of_nat (length s))); [done|lia].
      - simpl in Hlen. destruct (Z.eqb_spec (Z.of_nat (length pre) + 1) (Z.of_nat (length s))); [lia|]. simpl.
        replace (Z.of_nat (length pre) + 1) with (Z.of_nat (S (length pre))) by lia.
        rewrite (view_at v s _ d (conj HL Hv)); [done|].
        by rewrite <- (Nat.add_0_r (S (length pre))), <- lookup_drop, Hd. }
    rewrite HB, res_bind_ok. cbn [find_braces] in Hroom |- *. fold b in Hroom |- *.
    destruct ((c =? 123) && b); cbn [fst snd length] in Hroom |- *.
    + cbn [mbind res_bind]. by rewrite !app_nil_r, drop_0.
    + destruct (find_braces s2) as [p r] eqn:Ef. cbn [fst snd length] in Hroom |- *.
      destruct tail as [|x tail]; [simpl in Hroom; lia|]. rewrite put_app, res_bind_ok.
      replace (pre ++ c :: tail) with ((pre ++ [c]) ++ tail) by (by rewrite <- app_assoc).
      replace (Z.of_nat (length pre) + 1) with (Z.of_nat (length (pre ++ [c])))
        by (rewrite length_app; simpl; lia).
      cbn [mbind res_bind].
      rewrite (IH fuel (pre ++ [c]) tail); cbn [fst snd]; rewrite <- ?app_assoc; cbn [app]; try done.
      * rewrite length_app. simpl. by rewrite Nat.add_1_r.
      * rewrite length_app. simpl. lia.
      * simpl in Hroom. lia.
      * lia.
Qed.

Lemma impl_writes args ts :
  Forall2 says args ts → ∀ v s buf, string_view.shows v s → Z.of_nat (length s) < 2 ^ 32 - 1 →
  (length (render s ts) < length buf)%nat →
  writes buf (FormatStringBuffer_impl buf v args) (render s ts).
Proof.
  induction 1 as [|a t args ts Ha Hargs IH]; intros v s buf Hv Hs Hroom;
    cbn [FormatStringBuffer_impl render] in *.
  - rewrite (string_view.shows_empty v s Hv). case_bool_decide as E; simpl negb; cbv iota.
    + subst s. exists buf. by split; [|split].
    + apply (Format_writes (AView v)); [by constructor|done].
  - pose proof (format_loop_ok v s Hv s (S (Z.to_nat (string_view.size v))) [] buf eq_refl eq_refl) as HL.
    destruct (find_braces s) as [p [rest|]] eqn:Ef; cbn [fst snd length app] in HL.
    + rewrite !length_app in Hroom. change (Z.of_nat 0) with 0 in HL.
      rewrite HL, res_bind_ok by (try lia; unfold string_view.size; destruct Hv as [-> _]; lia).
      destruct (find_braces_rest s p rest Ef) as [Hrest Hp].
      destruct (writes_offset (Format a) p (drop (length p) buf) t) as (r1 & E1 & L1 & Z1).
      { apply Format_writes; [done|]. rewrite length_drop. lia. }
      rewrite E1, res_bind_ok. cbv beta iota.
      replace (Z.of_nat (length p) + Z.of_nat (length t)) with (Z.of_nat (length (p ++ t)))
        by (rewrite length_app; lia).
      rewrite length_app, length_drop in L1.
      destruct (writes_offset (λ m, FormatStringBuffer_impl m
        (string_view.substr v (Z.of_nat (length p) + 2) string_view.npos) args) (p ++ t) r1
        (render rest ts)) as (r2 & E2 & L2 & Z2).
      { apply IH; [|subst rest; rewrite length_drop; lia|lia].
        subst rest. replace (length p + 2)%nat with (Z.to_nat (Z.of_nat (length p) + 2)) by lia.
        apply string_view.substr_ok; [done|lia|]. change string_view.npos with (2 ^ 32 - 1). lia. }
      rewrite E2, res_bind_ok. exists r2. rewrite <- !app_assoc.
      split; [do 2 f_equal; rewrite !length_app; lia|]. split.
      * rewrite !length_app in *. lia.
      * intros Hz. by apply Z2, Z1, Forall_drop.
    + change (Z.of_nat 0) with 0 in HL.
      rewrite HL, res_bind_ok by (try lia; unfold string_view.size; destruct Hv as [-> _]; lia).
      exists (drop (length p) buf). split; [done|]. split.
      * rewrite length_app, length_drop. lia.
      * intros Hz. by apply Forall_drop.
Qed.

(** C40. [FormatStringBuffer] returns, and writes the format with its pairs of
    braces replaced by the arguments in order, numbers in decimal (the format
    stops at the last pair when arguments are left over); it reports the number
    of characters, stays in a buffer that is one byte longer, and leaves a
    zero-filled buffer zero after the text, hence terminated. *)
Theorem FormatStringBuffer_renders buf v s args ts :
  string_view.shows v s → s ≠ [] → Z.of_nat (length s) < 2 ^ 32 - 1 → Forall2 says args ts →
  (length (render s ts) < length buf)%nat →
  ∃ rest, FormatStringBuffer buf v args
      = Ok (render s ts ++ rest, Z.of_nat (length (render s ts)))
    ∧ length (render s ts ++ rest) = length buf
    ∧ (Forall (λ c, c = 0) buf → Forall (λ c, c = 0) rest).
Proof.
  intros Hv Hne Hs Hargs Hroom. unfold FormatStringBuffer.
  rewrite (string_view.shows_empty v s Hv), bool_decide_eq_false_2 by done.
  simpl Assert. rewrite res_bind_ok. by apply impl_writes.
Qed.

Lemma FormatStringBuffer_renders_witness :
  let v := string_view.literal [123; 125; 123; 125] in
  let ts := [[115; 100; 97]; dec 5] in
  ∃ rest, FormatStringBuffer (replicate 8 0) v [AStr (Some [115; 100; 97; 0]); AUInt 5]
      = Ok (render [123; 125; 123; 125] ts ++ rest,
            Z.of_nat (length (render [123; 125; 123; 125] ts)))
    ∧ length (render [123; 125; 123; 125] ts ++ rest) = length (replicate 8 0)
    ∧ (Forall (λ c, c = 0) (replicate 8 0) → Forall (λ c, c = 0) rest).
Proof.
  apply (FormatStringBuffer_renders (replicate 8 0) (string_view.literal [123; 125; 123; 125])
    [123; 125; 123; 125] [AStr (Some [115; 100; 97; 0]); AUInt 5] [[115; 100; 97]; dec 5]).
  - split; [reflexivity|]. split; [by apply (bool_decide_unpack _)|]. by exists [].
  - discriminate.
  - simpl. lia.
  - constructor; [|constructor; [constructor; lia|constructor]].
    constructor. split; [by apply (bool_decide_unpack _)|]. by exists [].
  - vm_compute. lia.
Defined.

(** A character is written without a terminator: a buffer that is not zero
    holds more than the text afterwards. *)
Example char_not_terminated :
  FormatStringBuffer [120; 120; 120; 120; 0] (string_view.literal [115; 100; 123; 125]) [AChar 97]
  = Ok ([115; 100; 97; 120; 0], 3).
Proof. reflexivity. Qed.
End Format.
