(* ===== verification/IoVideo.v ===== *)
(** * Printing and the console

    [Vga] models the assembly of src/src/kernel/io/video/print.asm on the memory
    of the text screen, [Print] src/src/kernel/io/video/print.cpp and the
    formatted printing of src/include/kernel/io/video/print.h on anything that
    prints a character, and [Debug] the assertions of
    src/src/kernel/debug/assert.cpp. *)
From Stdlib Require Import Strings.String.
From S2P Require Import Prelude UtilBit StlString UtilFormat Desc Intr.

(** Where characters go: the screen, or the list of what was printed. *)
Class TextOut (W : Type) := PrintChar : Z → W → res W.

(** ** The text screen *)

Module Vga.
Definition text_screen_width : Z := 80.
Definition text_screen_height : Z := 25.
Definition screen_size : Z := text_screen_width * text_screen_height.
Definition BS : Z := 8.
Definition HT : Z := 9.
Definition LF : Z := 10.
Definition CR : Z := 13.
Definition tab_width : nat := 2.
Definition blank : Z := 32.

(** [text] are the characters in the words of the video segment, whose other
    bytes are the colors; [cursor] is the position in the registers of the
    controller, as [GetCursorPos] reads and [SetCursorPos] writes it. *)
Record t := mk { text : list Z; cursor : Z }.

(** The sign of a comparison of 16 bits. *)
Definition s16 (x : Z) : Z := if x <? 2 ^ 15 then x else x - 2 ^ 16.

(** [shl bx, 1], a byte to [gs:bx], [shr bx, 1]: the byte may be outside the
    segment. The position loses its highest bit. *)
Definition store (bx ch : Z) (tx : list Z) : res (list Z * Z) :=
  let idx := u16 (2 * bx) / 2 in
  if idx <? Z.of_nat (length tx) then Ok (<[Z.to_nat idx := ch]> tx, idx) else Fault.

(** [.roll_screen]: lines 1 to 24 go up by one, and the last one is filled with
    blanks. *)
Definition move_lines (tx : list Z) : list Z :=
  let n := Z.to_nat (text_screen_width * (text_screen_height - 1)) in
  take n (drop (Z.to_nat text_screen_width) tx) ++ drop n tx.
Definition fill_blank (tx : list Z) : list Z :=
  let n := Z.to_nat (text_screen_width * (text_screen_height - 1)) in
  take n tx ++ replicate (Z.to_nat text_screen_width) blank ++ drop (n + Z.to_nat text_screen_width) tx.
Definition roll_screen (tx : list Z) : t :=
  mk (fill_blank (move_lines tx)) (text_screen_width * (text_screen_height - 1)).

(** [.is_line_feed] and [.is_carriage_ret] *)
Definition line_feed (bx : Z) (tx : list Z) : t :=
  let bx := u16 (bx - bx mod text_screen_width + text_screen_width) in
  if s16 bx <? screen_size then mk tx bx else roll_screen tx.

(** A character that is not a tab. *)
Definition put_char (ch : Z) (v : t) : res t :=
  let bx := cursor v in
  if (ch =? CR) || (ch =? LF) then Ok (line_feed bx (text v))
  else if ch =? BS then
    '(tx, bx) ← store (u16 (bx - 1)) blank (text v);
    Ok (mk tx bx)
  else
    '(tx, bx) ← store bx ch (text v);
    let bx := u16 (bx + 1) in
    if s16 bx <? screen_size then Ok (mk tx bx) else Ok (line_feed bx tx).

(** [PrintChar]; the test for a tab is on the whole argument, the others are on
    its lowest byte. *)
Definition PrintChar (ch : Z) (v : t) : res t :=
  if ch =? HT then for_range tab_width 0 (λ _, put_char blank) v
  else put_char (u8 ch) v.
End Vga.

#[export] Instance vga_out : TextOut Vga.t := Vga.PrintChar.
#[export] Instance trace_out : TextOut (list Z) := λ ch out, Ok (out ++ [ch]).

Fixpoint print_all {W} `{TextOut W} (s : list Z) (w : W) : res W :=
  match s with
  | [] => Ok w
  | c :: s' => w ← PrintChar c w; print_all s' w
  end.

(** ** Printing *)

Module Print.
Section print.
Context {W : Type} `{TextOut W}.

(** [PrintStr] of print.asm: up to the terminator of the string. *)
Fixpoint print_mem (m : cstring.mem) (w : W) : res W :=
  match m with
  | [] => Fault
  | c :: m' => if c =? 0 then Ok w else w ← PrintChar c w; print_mem m' w
  end.
Definition PrintCStr (str : cstring.cptr) (w : W) : res W :=
  match str with Some m => print_mem m w | None => Fault end.

(** [.read_digit]: the digits of a number from the last one on, to the places
    [k - 1], ..., 0 of the buffer. *)
Fixpoint read_digits (k : nat) (n : Z) (buf : list Z) : list Z :=
  match k with
  | O => buf
  | S k' => read_digits k' (Z.shiftr n 4) (<[k' := Format.digit_char (Z.land n 15)]> buf)
  end.
(** [.skip_prefix_0]: the digit after the first one that is not '0', or 8. *)
Definition skip_body (buf : list Z) (edi : Z) : res (Z + Z) :=
  if edi =? 8 then Ok (inr edi)
  else
    c ← of_option (buf !! Z.to_nat edi);
    if c =? 48 then Ok (inl (edi + 1)) else Ok (inr (edi + 1)).
Definition PrintHex (n : Z) (w : W) : res W :=
  let buf := read_digits 8 n (replicate 8 0) in
  edi ← loop 9 (skip_body buf) 0;
  print_all (drop (Z.to_nat (edi - 1)) buf) w.

Definition PrintStr (str : string_view.t) (w : W) : res W :=
  if negb (string_view.empty str) then PrintCStr (string_view.data str) w else Ok w.
Definition PrintlnStr (str : string_view.t) (w : W) : res W :=
  w ← PrintStr str w; PrintChar Vga.LF w.
Definition PrintlnChar (ch : Z) (w : W) : res W := w ← PrintChar ch w; PrintChar Vga.LF w.
Definition PrintlnHex (num : Z) (w : W) : res W := w ← PrintHex num w; PrintChar Vga.LF w.
(** The overloads for signed numbers; [-num] overflows for the least one. *)
Definition PrintHexInt (num : Z) (w : W) : res W :=
  if 0 <=? num then PrintHex (u32 num) w
  else
    w ← PrintChar 45 w;
    if num =? - 2 ^ 31 then Fault else PrintHex (u32 (- num)) w.
Definition PrintlnHexInt (num : Z) (w : W) : res W := w ← PrintHexInt num w; PrintChar Vga.LF w.

(** The overloads of [_printf_impl::Print]. *)
Definition Print (a : Format.arg) (w : W) : res W :=
  match a with
  | Format.AUInt num => PrintHex num w
  | Format.AInt num => PrintHexInt num w
  | Format.AChar ch => PrintChar ch w
  | Format.AView str => PrintStr str w
  | Format.AStr str => Assert (bool_decide (is_Some str));; PrintCStr str w
  end.

(** The loop of [_printf_impl::Printf], which prints the format up to the first
    pair of braces. *)
Definition printf_body (format : string_view.t) (s : Z * W) : res ((Z * W) + (option Z * W)) :=
  let '(i, w) := s in
  if i =? string_view.size format then Ok (inr (None, w))
  else
    c ← string_view.at_ format i;
    braces ← (if (c =? 123) && negb (i + 1 =? string_view.size format) then
                d ← string_view.at_ format (i + 1);
                Ok (d =? 125)
              else Ok false);
    if (braces : bool) then Ok (inr (Some i, w))
    else w ← PrintChar c w; Ok (inl (i + 1, w)).

Fixpoint Printf_impl (format : string_view.t) (args : list Format.arg) (w : W) : res W :=
  match args with
  | [] => PrintStr format w
  | a :: args' =>
      '(found, w) ← loop (S (Z.to_nat (string_view.size format))) (printf_body format) (0, w);
      match found with
      | None => Ok w
      | Some i =>
          w ← Print a w;
          Printf_impl (string_view.substr format (i + 2) string_view.npos) args' w
      end
  end.

Definition Printf (format : string_view.t) (args : list Format.arg) (w : W) : res W :=
  Assert (negb (string_view.empty format));;
  Printf_impl format args w.
End print.

(** "0x{}" *)
Example printf_demo :
  Printf (string_view.literal [48; 120; 123; 125]) [Format.AUInt 48879] [] = Ok (chars "0xBEEF").
Proof. reflexivity. Qed.
End Print.

(** ** What is printed *)

Module PrintFacts.
Import Print.
Section facts.
Context {W : Type} `{TextOut W}.

Lemma print_all_app s s' (w : W) : print_all (s ++ s') w = (w ← print_all s w; print_all s' w).
Proof.
  revert w. induction s as [|c s IH]; intros w; [done|]. cbn [app print_all].
  destruct (PrintChar c w); try done. apply IH.
Qed.

Lemma print_mem_ok m s (w : W) : cstring.holds m s → print_mem m w = print_all s w.
Proof.
  revert m w. induction s as [|c s IH]; intros m w Hm.
  - by apply cstring.holds_nil_inv in Hm as [rest ->].
  - apply cstring.holds_cons in Hm as (Hc & m' & -> & Hm'). cbn [print_mem print_all].
    rewrite (proj2 (Z.eqb_neq c 0)) by done. destruct (PrintChar c w); try done. by apply IH.
Qed.

Lemma PrintStr_ok v s (w : W) : string_view.shows v s → PrintStr v w = print_all s w.
Proof.
  intros Hv. unfold PrintStr. rewrite (string_view.shows_empty v s Hv).
  destruct (decide (s = [])) as [->|Hne]; [by rewrite bool_decide_eq_true_2|].
  rewrite bool_decide_eq_false_2 by done. destruct Hv as [_ Hv]. cbn [negb]. unfold PrintCStr, string_view.data.
  destruct (string_view.str_ v); [by apply print_mem_ok|done].
Qed.

(** ** Hexadecimal numbers *)

Definition hex (num : Z) : list Z := Format.digit_char <$> Format.digits 32 16 num.

(** All the digits of a number that are read, and the ones that are printed. *)
Fixpoint padded (k : nat) (n : Z) : list Z :=
  match k with O => [] | S k' => padded k' (n / 16) ++ [n mod 16] end.
Fixpoint strip (l : list Z) : list Z :=
  match l with
  | [] => []
  | c :: l' => match l' with [] => [c] | _ => if c =? 0 then strip l' else l end
  end.

Lemma length_padded k n : length (padded k n) = k.
Proof. revert n. induction k as [|k IH]; intros n; [done|]. cbn. rewrite length_app, IH. simpl. lia. Qed.

Lemma padded_range k n : Forall (λ d, 0 ≤ d < 16) (padded k n).
Proof.
  revert n. induction k as [|k IH]; intros n; [by constructor|]. cbn. apply Forall_app. split; [done|].
  apply Forall_singleton. by apply Z.mod_pos_bound.
Qed.

Lemma padded_0 k : padded k 0 = replicate k 0.
Proof.
  induction k as [|k IH]; [done|]. cbn [padded]. change (0 / 16) with 0. rewrite IH.
  change (0 mod 16) with 0. by rewrite <- replicate_S_end.
Qed.

Lemma padded_pos k n : 0 < n < 16 ^ Z.of_nat k → Exists (.≠ 0) (padded k n).
Proof.
  revert n. induction k as [|k IH]; intros n Hn; [simpl in Hn; lia|]. cbn [padded]. apply Exists_app.
  rewrite Nat2Z.inj_succ, Z.pow_succ_r in Hn by lia.
  destruct (decide (n / 16 = 0)) as [E|E].
  - right. apply Exists_cons. left. div_lia.
  - left. apply IH. split; [div_lia|]. apply Z.div_lt_upper_bound; lia.
Qed.

Lemma strip_zeros k x : strip (replicate k 0 ++ [x]) = [x].
Proof. induction k as [|k IH]; [done|]. cbn [replicate app strip]. rewrite IH. by destruct k. Qed.

Lemma strip_nonzero l x : Exists (.≠ 0) l → strip (l ++ [x]) = strip l ++ [x].
Proof.
  induction l as [|c l IH]; [by intros ?%Exists_nil|]. intros [Hc|Hl]%Exists_cons.
  - cbn [app strip]. rewrite (proj2 (Z.eqb_neq c 0)) by done. by destruct l.
  - destruct l as [|d l]; [by apply Exists_nil in Hl|]. specialize (IH Hl).
    cbn [app] in IH |- *. cbn [strip]. destruct (c =? 0); [exact IH|done].
Qed.

Lemma digits_strip k n fuel :
  0 ≤ n < 16 ^ Z.of_nat (S k) → (k < fuel)%nat → strip (padded (S k) n) = Format.digits fuel 16 n.
Proof.
  revert n fuel. induction k as [|k IH]; intros n [|fuel] Hn Hf; try lia.
  - cbn [padded Format.digits app strip]. replace (n / 16) with 0 by div_lia. done.
  - assert (Hq : 0 ≤ n / 16 < 16 ^ Z.of_nat (S k)).
    { rewrite Nat2Z.inj_succ, Z.pow_succ_r in Hn by lia. split; [div_lia|apply Z.div_lt_upper_bound; lia]. }
    set (m := S k) in *. cbn [padded Format.digits]. destruct (Z.ltb_spec 0 (n / 16)).
    + rewrite strip_nonzero by (apply padded_pos; lia). by rewrite (IH _ fuel) by lia.
    + replace (n / 16) with 0 by lia. rewrite padded_0. by rewrite strip_zeros.
Qed.

Lemma read_digits_ok k n tail :
  0 ≤ n → read_digits k n (replicate k 0 ++ tail) = (Format.digit_char <$> padded k n) ++ tail.
Proof.
  revert n tail. induction k as [|k IH]; intros n tail Hn; [done|]. cbn [read_digits padded].
  rewrite replicate_S_end, <- app_assoc. cbn [app].
  rewrite insert_app_r_alt by (rewrite length_replicate; lia). rewrite length_replicate, Nat.sub_diag.
  change (<[0%nat := ?d]> (0 :: tail)) with (d :: tail).
  rewrite (Z.shiftr_div_pow2 n 4) by lia. change 15 with (Z.ones 4). rewrite (Z.land_ones n 4) by lia.
  change (2 ^ 4) with 16. rewrite IH by div_lia. by rewrite fmap_app, <- app_assoc.
Qed.

Lemma digit_char_0 d : 0 ≤ d < 16 → (Format.digit_char d =? 48) = (d =? 0).
Proof.
  intros Hd. unfold Format.digit_char, u8. destruct (Z.ltb_spec d 10); rewrite wrap_small by (unfold in_u; lia); lia.
Qed.

(** The loop over the leading zeros. *)
Lemma skip_ok buf ds : ∀ pre fuel,
  buf = pre ++ (Format.digit_char <$> ds) → length buf = 8%nat → ds ≠ [] → Forall (λ d, 0 ≤ d < 16) ds →
  (length ds < fuel)%nat →
  ∃ edi, loop fuel (skip_body buf) (Z.of_nat (length pre)) = Ok edi
    ∧ drop (Z.to_nat (edi - 1)) buf = Format.digit_char <$> strip ds.
Proof.
  induction ds as [|d ds IH]; [done|]. intros pre [|fuel] Hb Hl _ Hds Hf; [simpl in Hf; lia|].
  apply Forall_cons in Hds as [Hd Hds].
  assert (Hlen : (length pre + S (length ds) = 8)%nat).
  { rewrite Hb, length_app, length_fmap in Hl. done. }
  rewrite loop_S. unfold skip_body at 2. destruct (Z.eqb_spec (Z.of_nat (length pre)) 8); [lia|].
  rewrite Nat2Z.id. assert (Hc : buf !! length pre = Some (Format.digit_char d)).
  { by rewrite Hb, lookup_app_r, Nat.sub_diag by lia. }
  rewrite Hc. cbn [of_option mbind res_bind]. rewrite digit_char_0 by done.
  assert (Hhere : drop (Z.to_nat (Z.of_nat (length pre) + 1 - 1)) buf = Format.digit_char <$> d :: ds).
  { replace (Z.to_nat _) with (length pre) by lia. by rewrite Hb, drop_app_length. }
  destruct (Z.eqb_spec d 0) as [Hd0|Hd0].
  - cbn [mbind res_bind]. destruct ds as [|d' ds].
    + destruct fuel as [|fuel]; [simpl in Hf; lia|]. rewrite loop_S. unfold skip_body at 2. simpl in Hlen.
      destruct (Z.eqb_spec (Z.of_nat (length pre) + 1) 8); [|lia]. cbn [mbind res_bind].
      eexists. split; [done|]. exact Hhere.
    + destruct (IH (pre ++ [Format.digit_char d]) fuel) as (edi & He & Hdr); try done.
      * by rewrite <- app_assoc.
      * simpl in Hf |- *. lia.
      * exists edi. rewrite length_app in He. simpl in He.
        replace (Z.of_nat (length pre) + 1) with (Z.of_nat (length pre + 1)) by lia. split; [done|].
        rewrite Hdr. cbn [strip]. by rewrite Hd0.
  - cbn [mbind res_bind]. eexists. split; [done|]. rewrite Hhere. cbn [strip].
    rewrite (proj2 (Z.eqb_neq d 0)) by done. by destruct ds.
Qed.

Lemma PrintHex_ok num (w : W) : 0 ≤ num < 2 ^ 32 → PrintHex num w = print_all (hex num) w.
Proof.
  intros Hn. unfold PrintHex. pose proof (read_digits_ok 8 num [] ltac:(lia)) as Hr. rewrite !app_nil_r in Hr.
  rewrite Hr. destruct (skip_ok (Format.digit_char <$> padded 8 num) (padded 8 num) [] 9) as (edi & He & Hdr).
  - done.
  - by rewrite length_fmap, length_padded.
  - intros E. apply (f_equal length) in E. by rewrite length_padded in E.
  - apply padded_range.
  - rewrite length_padded. lia.
  - cbn [length] in He. change (Z.of_nat 0) with 0 in He. rewrite He, res_bind_ok, Hdr. unfold hex.
    rewrite (digits_strip 7 num 32); [done|change (16 ^ Z.of_nat 8) with (2 ^ 32); lia|lia].
Qed.

(** ** Formats *)

(** The characters of an argument: numbers are hexadecimal. *)
Inductive shown : Format.arg → list Z → Prop :=
| shown_uint num : 0 ≤ num < 2 ^ 32 → shown (Format.AUInt num) (hex num)
| shown_int num : 0 ≤ num < 2 ^ 31 → shown (Format.AInt num) (hex num)
| shown_neg num : - 2 ^ 31 < num < 0 → shown (Format.AInt num) (45 :: hex (- num))
| shown_char ch : shown (Format.AChar ch) [ch]
| shown_str m s : cstring.holds m s → shown (Format.AStr (Some m)) s
| shown_view v s : string_view.shows v s → shown (Format.AView v) s.

Lemma Print_ok a t (w : W) : shown a t → Print a w = print_all t w.
Proof.
  destruct 1 as [num Hn|num Hn|num Hn|ch|m s Hm|v s Hv]; cbn [Print].
  - by apply PrintHex_ok.
  - unfold PrintHexInt. destruct (Z.leb_spec 0 num); [|lia]. rewrite u32_small by lia. apply PrintHex_ok. lia.
  - unfold PrintHexInt. destruct (Z.leb_spec 0 num); [lia|]. destruct (Z.eqb_spec num (- 2 ^ 31)); [lia|].
    rewrite u32_small by lia. cbn [print_all]. destruct (PrintChar 45 w); try done. apply PrintHex_ok. lia.
  - cbn [print_all]. by destruct (PrintChar ch w).
  - by apply print_mem_ok.
  - by apply PrintStr_ok.
Qed.

Lemma printf_loop_ok v s :
  string_view.shows v s →
  ∀ s2 fuel pre (w : W), s = pre ++ s2 → (length s2 < fuel)%nat →
    loop fuel (printf_body v) (Z.of_nat (length pre), w)
    = (w ← print_all (Format.find_braces s2).1 w;
       Ok (match (Format.find_braces s2).2 with
           | Some _ => Some (Z.of_nat (length pre + length (Format.find_braces s2).1)) | None => None end, w)).
Proof.
  intros Hv s2. induction s2 as [|c s2 IH]; intros [|fuel] pre w Hs Hf; try (simpl in Hf; lia);
    pose proof (f_equal length Hs) as Hlen; rewrite length_app in Hlen; cbn [length] in Hlen, Hf;
    rewrite loop_S; unfold printf_body at 2; unfold string_view.size; rewrite (proj1 Hv).
  - by destruct (Z.eqb_spec (Z.of_nat (length pre)) (Z.of_nat (length s))); [|lia].
  - destruct (Z.eqb_spec (Z.of_nat (length pre)) (Z.of_nat (length s))); [lia|].
    rewrite (Format.view_at v s (length pre) c Hv), res_bind_ok
      by (by rewrite Hs, lookup_app_r, Nat.sub_diag by lia).
    set (b := match s2 with d :: _ => d =? 125 | [] => false end).
    assert (HB : (if (c =? 123) && negb (Z.of_nat (length pre) + 1 =? Z.of_nat (length s)) then
                    d ← string_view.at_ v (Z.of_nat (length pre) + 1); Ok (d =? 125) else Ok false)
                 = Ok ((c =? 123) && b)).
    { destruct (Z.eqb_spec c 123); [|done]. unfold b. destruct s2 as [|d s2]; cbn [length] in Hlen.
      - by destruct (Z.eqb_spec (Z.of_nat (length pre) + 1) (Z.of_nat (length s))); [|lia].
      - destruct (Z.eqb_spec (Z.of_nat (length pre) + 1) (Z.of_nat (length s))); [lia|]. cbn [negb andb].
        replace (Z.of_nat (length pre) + 1) with (Z.of_nat (S (length pre))) by lia.
        rewrite (Format.view_at v s _ d Hv); [done|]. rewrite Hs, lookup_app_r by lia.
        by replace (S (length pre) - length pre)%nat with 1%nat by lia. }
    rewrite HB, res_bind_ok. cbn [Format.find_braces]. fold b.
    destruct ((c =? 123) && b); [cbn [fst snd length print_all mbind res_bind]; by rewrite Nat.add_0_r|].
    specialize (IH fuel (pre ++ [c])). rewrite length_app, <- app_assoc in IH. cbn [length app] in IH.
    destruct (Format.find_braces s2) as [p r]. cbn [fst snd length print_all] in *.
    destruct (PrintChar c w) as [w'| | |]; try done. cbn [mbind res_bind].
    replace (Z.of_nat (length pre) + 1) with (Z.of_nat (length pre + 1)) by lia. rewrite IH by (done || lia).
    destruct (print_all p w'); try done. cbn [mbind res_bind]. do 2 f_equal. destruct r; [f_equal; lia|done].
Qed.

Lemma Printf_impl_ok args ts :
  Forall2 shown args ts → ∀ v s (w : W), string_view.shows v s → Z.of_nat (length s) < 2 ^ 32 - 1 →
  Printf_impl v args w = print_all (Format.render s ts) w.
Proof.
  induction 1 as [|a t args ts Ha Hargs IH]; intros v s w Hv Hs; cbn [Printf_impl Format.render].
  { by apply PrintStr_ok. }
  pose proof (printf_loop_ok v s Hv s (S (Z.to_nat (string_view.size v))) [] w eq_refl) as HL.
  cbn [length] in HL. change (Z.of_nat 0) with 0 in HL.
  rewrite HL by (unfold string_view.size; rewrite (proj1 Hv); lia). clear HL.
  destruct (Format.find_braces s) as [p [rest|]] eqn:Ef; cbn [fst snd].
  - destruct (Format.find_braces_rest s p rest Ef) as [Hrest Hp]. rewrite print_all_app.
    destruct (print_all p w) as [w1| | |]; try done. cbn [mbind res_bind].
    rewrite (Print_ok a t w1 Ha), print_all_app. destruct (print_all t w1) as [w2| | |]; try done.
    cbn [mbind res_bind]. apply IH; [|subst rest; rewrite length_drop; lia].
    subst rest. replace (length p + 2)%nat with (Z.to_nat (Z.of_nat (0 + length p) + 2)) by lia.
    apply string_view.substr_ok; [done|lia|]. change string_view.npos with (2 ^ 32 - 1). lia.
  - destruct (print_all p w); done.
Qed.
End facts.

(** C26. [Printf] prints, one character after the other and on anything that
    prints characters, the format with its pairs of braces replaced by the
    arguments in order: strings and characters as they are, and numbers in
    hexadecimal, with exactly the digits [ConvertUIntToString] writes for base
    16. Arguments without braces are not printed. *)
Theorem Printf_renders {W} `{TextOut W} v s args ts (w : W) :
  string_view.shows v s → s ≠ [] → Z.of_nat (length s) < 2 ^ 32 - 1 → Forall2 shown args ts →
  Printf v args w = print_all (Format.render s ts) w
  ∧ ∀ num buf, 0 ≤ num < 2 ^ 32 → (33 ≤ length buf)%nat →
      PrintHex num w = print_all (hex num) w
      ∧ Format.ConvertUIntToString buf num 16
        = Ok (hex num ++ 0 :: drop (S (length (hex num))) buf, Z.of_nat (length (hex num))).
Proof.
  intros Hv Hne Hs Hargs. split.
  - unfold Printf. rewrite (string_view.shows_empty v s Hv), bool_decide_eq_false_2 by done.
    by apply Printf_impl_ok.
  - intros num buf Hn Hl. split; [by apply PrintHex_ok|]. unfold Format.ConvertUIntToString, Format.convert_fuel, hex.
    rewrite length_fmap. pose proof (Format.digits_length 32 16 num). apply Format.ConvertUInt_ok; [lia|lia|lia|lia].
Qed.

(** "\tLine: 0x{}.\n" *)
Lemma Printf_renders_witness :
  let v := string_view.literal (9 :: chars "Line: 0x{}." ++ [10]) in
  Printf v [Format.AUInt 4011] [] = print_all (Format.render (9 :: chars "Line: 0x{}." ++ [10]) [hex 4011]) []
  ∧ ∀ num buf, 0 ≤ num < 2 ^ 32 → (33 ≤ length buf)%nat →
      PrintHex num [] = print_all (hex num) []
      ∧ Format.ConvertUIntToString buf num 16
        = Ok (hex num ++ 0 :: drop (S (length (hex num))) buf, Z.of_nat (length (hex num))).
Proof.
  apply (Printf_renders (string_view.literal (9 :: chars "Line: 0x{}." ++ [10]))
    (9 :: chars "Line: 0x{}." ++ [10]) [Format.AUInt 4011] [hex 4011] ([] : list Z)).
  - split; [reflexivity|]. split; [by apply (bool_decide_unpack _)|]. by exists [].
  - discriminate.
  - vm_compute. done.
  - constructor; [constructor; lia|constructor].
Defined.
End PrintFacts.

(** ** The screen as a window on everything typed *)

Module Terminal.
Import Vga.

(** Everything that was typed since the screen was blank, with the ends of lines
    filled with blanks; the first [top] lines have left the screen. *)
Record t := mk { tape : list Z; top : nat }.

(** A line leaves the screen when the tape reaches its end. *)
Definition scrolled (l : list Z) (n : nat) : t := mk l (Nat.max n (length l / 80 - 24)).

Definition end_line (x : t) : t :=
  scrolled (tape x ++ replicate (80 - length (tape x) mod 80) blank) (top x).
Definition type_one (c : Z) (x : t) : t := scrolled (tape x ++ [c]) (top x).
Definition erase_last (x : t) : option t :=
  if bool_decide (length (tape x) = 80 * top x)%nat then None
  else Some (mk (take (length (tape x) - 1) (tape x)) (top x)).

(** A character is typed; there may be nothing on the screen to erase. *)
Definition type_char (c : Z) (x : t) : option t :=
  if c =? HT then Some (type_one blank (type_one blank x))
  else if (c =? CR) || (c =? LF) then Some (end_line x)
  else if c =? BS then erase_last x
  else Some (type_one c x).
Fixpoint type_all (s : list Z) (x : t) : option t :=
  match s with
  | [] => Some x
  | c :: s' => x ← type_char c x; type_all s' x
  end.

Record shows (v : Vga.t) (x : t) : Prop := {
  sh_text : ∀ i, (i < 2000)%nat → text v !! i = Some (default blank (tape x !! (80 * top x + i)%nat));
  sh_cursor : cursor v = Z.of_nat (length (tape x)) - 80 * Z.of_nat (top x);
  sh_range : (80 * top x ≤ length (tape x) < 80 * top x + 2000)%nat;
  sh_segment : Z.of_nat (length (text v)) ≤ 2 ^ 14
}.

Lemma shows_length v x : shows v x → (2000 ≤ length (text v))%nat.
Proof. intros Hs. pose proof (lookup_lt_Some _ _ _ (sh_text _ _ Hs 1999 ltac:(lia))). lia. Qed.

Lemma s16_small x : 0 ≤ x < 2 ^ 15 → s16 x = x.
Proof. intros. unfold s16. by rewrite (proj2 (Z.ltb_lt _ _)) by lia. Qed.
Lemma u16_small x : 0 ≤ x < 2 ^ 16 → u16 x = x.
Proof. apply wrap_small. Qed.

Lemma store_ok (p : nat) ch tx :
  (p < length tx)%nat → Z.of_nat (length tx) ≤ 2 ^ 14 → store (Z.of_nat p) ch tx = Ok (<[p := ch]> tx, Z.of_nat p).
Proof.
  intros Hp Hl. unfold store. rewrite u16_small by lia.
  replace (2 * Z.of_nat p / 2) with (Z.of_nat p) by div_lia. by rewrite (proj2 (Z.ltb_lt _ _)), Nat2Z.id by lia.
Qed.

(** The screen after a line went up. *)
Lemma roll_lookup tx i :
  (2000 ≤ length tx)%nat →
  text (roll_screen tx) !! i = if decide (i < 1920)%nat then tx !! (i + 80)%nat
    else if decide (i < 2000)%nat then Some blank else tx !! i.
Proof.
  intros Hl. unfold roll_screen, fill_blank, move_lines. cbn [text].
  change (Z.to_nat (text_screen_width * (text_screen_height - 1))) with 1920%nat.
  change (Z.to_nat text_screen_width) with 80%nat. change (1920 + 80)%nat with 2000%nat.
  rewrite take_app_le, take_take, Nat.min_id by (rewrite length_take, length_drop; lia).
  assert (Ht : length (take 1920 (drop 80 tx)) = 1920%nat) by (rewrite length_take, length_drop; lia).
  repeat case_decide.
  - rewrite lookup_app_l by lia. rewrite lookup_take_lt, lookup_drop by lia. f_equal. lia.
  - rewrite lookup_app_r, Ht, lookup_app_l by (rewrite ?length_replicate; lia).
    apply lookup_replicate_2. lia.
  - rewrite !lookup_app_r, Ht, length_replicate by (rewrite ?Ht, ?length_replicate; lia).
    rewrite lookup_drop, lookup_app_r, Ht, lookup_drop by (rewrite ?Ht; lia). f_equal. lia.
Qed.

Lemma length_roll tx : (2000 ≤ length tx)%nat → length (text (roll_screen tx)) = length tx.
Proof.
  intros Hl. unfold roll_screen, fill_blank, move_lines. cbn [text].
  change (Z.to_nat (text_screen_width * (text_screen_height - 1))) with 1920%nat.
  change (Z.to_nat text_screen_width) with 80%nat.
  rewrite !length_app, length_replicate, length_drop, !length_take, !length_app, length_drop, length_take, length_drop.
  lia.
Qed.

(** The screen shows the tape [l] from line [n] on, and the cursor, at [p], may
    be behind the last line. *)
Record window (tx : list Z) (p : Z) (l : list Z) (n : nat) : Prop := {
  wi_text : ∀ i, (i < 2000)%nat → tx !! i = Some (default blank (l !! (80 * n + i)%nat));
  wi_cursor : p = Z.of_nat (length l) - 80 * Z.of_nat n;
  wi_range : (80 * n ≤ length l ≤ 80 * n + 2000)%nat;
  wi_segment : Z.of_nat (length tx) ≤ 2 ^ 14
}.

Lemma shows_window v x : shows v x → window (text v) (cursor v) (tape x) (top x).
Proof. intros [Ht Hc Hr Hs]. split; [done|done|lia|done]. Qed.

Lemma window_length tx p l n : window tx p l n → (2000 ≤ length tx)%nat.
Proof. intros Hw. pose proof (lookup_lt_Some _ _ _ (wi_text _ _ _ _ Hw 1999 ltac:(lia))). lia. Qed.

Lemma lookup_blanks (l : list Z) k i :
  default blank ((l ++ replicate k blank) !! i) = default blank (l !! i).
Proof.
  destruct (decide (i < length l)%nat); [by rewrite lookup_app_l by lia|]. rewrite lookup_app_r by lia.
  rewrite (lookup_ge_None_2 l) by lia. destruct (replicate k blank !! (i - length l)%nat) eqn:E; [|done].
  by apply lookup_replicate in E as [-> _].
Qed.

Lemma window_blanks tx p l n k :
  window tx p l n → p + Z.of_nat k ≤ 2000 → window tx (p + Z.of_nat k) (l ++ replicate k blank) n.
Proof.
  intros [Ht Hc Hr Hs] Hk. split; rewrite ?length_app, ?length_replicate; [|lia..|done].
  intros i Hi. rewrite lookup_blanks. by apply Ht.
Qed.

(** The cursor on the screen, or a line that goes up. *)
Lemma place_ok tx p l n :
  window tx p l n → shows (if p <? 2000 then Vga.mk tx p else roll_screen tx) (scrolled l n).
Proof.
  intros Hw. pose proof (window_length _ _ _ _ Hw) as Hlen. destruct Hw as [Ht Hc Hr Hs].
  unfold scrolled. destruct (Z.ltb_spec p 2000).
  - assert (length l / 80 < n + 25)%nat by (apply Nat.Div0.div_lt_upper_bound; lia).
    replace (Nat.max n (length l / 80 - 24)) with n by lia. split; cbn [text cursor tape top]; try done. lia.
  - assert (length l = 80 * n + 2000)%nat as Hl by lia.
    replace (Nat.max n (length l / 80 - 24)) with (S n)
      by (rewrite Hl; replace (80 * n + 2000)%nat with ((n + 25) * 80)%nat by lia; rewrite Nat.div_mul by lia; lia).
    split; cbn [tape top]; [|change (cursor (roll_screen tx)) with 1920; lia|lia|by rewrite length_roll].
    intros i Hi. rewrite roll_lookup by done. repeat case_decide; [|rewrite lookup_ge_None_2 by lia; done|lia].
    rewrite Ht by lia. do 3 f_equal. lia.
Qed.

Lemma line_feed_ok tx p l n :
  window tx p l n → p < 2000 →
  shows (line_feed p tx) (scrolled (l ++ replicate (80 - length l mod 80) blank) n).
Proof.
  intros Hw Hp. pose proof Hw as [_ Hc Hr _]. unfold line_feed, text_screen_width.
  assert (Hk : Z.of_nat (80 - length l mod 80) = 80 - p mod 80).
  { rewrite Nat2Z.inj_sub by (apply Nat.lt_le_incl, Nat.mod_upper_bound; lia). rewrite Nat2Z.inj_mod. subst p.
    change (Z.of_nat 80) with 80. div_lia. }
  assert (Hle : p + Z.of_nat (80 - length l mod 80) ≤ 2000) by (rewrite Hk; div_lia).
  assert (E : u16 (p - p mod 80 + 80) = p + Z.of_nat (80 - length l mod 80)) by (rewrite Hk, u16_small by div_lia; lia).
  rewrite E, s16_small by lia. apply (place_ok _ _ _ _ (window_blanks _ _ _ _ _ Hw Hle)).
Qed.

Lemma put_char_ok v x c :
  shows v x → c ≠ CR → c ≠ LF → c ≠ BS → ∃ v', put_char c v = Ok v' ∧ shows v' (type_one c x).
Proof.
  intros Hv H1 H2 H3. pose proof (shows_length _ _ Hv) as Hlen. pose proof Hv as [Ht Hc Hr Hs]. unfold put_char.
  rewrite (proj2 (Z.eqb_neq c CR)), (proj2 (Z.eqb_neq c LF)), (proj2 (Z.eqb_neq c BS)) by done. cbn [orb].
  set (p := (length (tape x) - 80 * top x)%nat).
  assert (Hp : cursor v = Z.of_nat p) by lia. rewrite Hp, store_ok by lia. rewrite res_bind_ok.
  assert (Hw : window (<[p := c]> (text v)) (Z.of_nat p + 1) (tape x ++ [c]) (top x)).
  { split; rewrite ?length_app, ?length_insert; cbn [length]; [|lia|lia|done]. intros i Hi.
    destruct (decide (i = p)) as [->|Hne].
    - rewrite list_lookup_insert_eq by lia. rewrite lookup_app_r by lia.
      by replace (80 * top x + p - length (tape x))%nat with 0%nat by lia.
    - rewrite list_lookup_insert_ne, Ht by done. destruct (decide (i < p)%nat).
      + by rewrite lookup_app_l by lia.
      + by rewrite !lookup_ge_None_2 by (rewrite ?length_app; simpl; lia). }
  rewrite u16_small, s16_small by lia. change screen_size with 2000. pose proof (place_ok _ _ _ _ Hw) as Hpl.
  destruct (Z.ltb_spec (Z.of_nat p + 1) 2000); [by eexists|].
  replace (line_feed (Z.of_nat p + 1) (<[p := c]> (text v))) with (roll_screen (<[p := c]> (text v))); [by eexists|].
  unfold line_feed, text_screen_width. replace (Z.of_nat p + 1) with 2000 by lia. done.
Qed.

Lemma backspace_ok v x :
  shows v x → match erase_last x with
              | Some x' => ∃ v', put_char BS v = Ok v' ∧ shows v' x'
              | None => put_char BS v = Fault
              end.
Proof.
  intros Hv. pose proof (shows_length _ _ Hv) as Hlen. pose proof Hv as [Ht Hc Hr Hs].
  unfold put_char, erase_last. cbn [Z.eqb orb]. change (BS =? CR) with false. change (BS =? LF) with false.
  change (BS =? BS) with true. cbn [orb]. case_bool_decide as E.
  - replace (cursor v) with 0 by lia. unfold store. change (u16 (2 * u16 (0 - 1)) / 2) with 32767.
    by rewrite (proj2 (Z.ltb_ge _ _)) by lia.
  - set (p := (length (tape x) - 80 * top x - 1)%nat). replace (cursor v - 1) with (Z.of_nat p) by lia.
    rewrite u16_small by lia. rewrite store_ok by lia. rewrite res_bind_ok. eexists. split; [done|].
    split; cbn [text cursor tape top]; rewrite ?length_take, ?length_insert; [|lia|lia|done].
    intros i Hi. destruct (decide (i = p)) as [->|Hne].
    + rewrite list_lookup_insert_eq by lia. by rewrite lookup_ge_None_2 by (rewrite length_take; lia).
    + rewrite list_lookup_insert_ne, Ht by done. destruct (decide (i < p)%nat).
      * by rewrite lookup_take_lt by lia.
      * by rewrite !lookup_ge_None_2 by (rewrite ?length_take; lia).
Qed.

Lemma PrintChar_ok v x c :
  shows v x → 0 ≤ c < 256 → match type_char c x with
                            | Some x' => ∃ v', Vga.PrintChar c v = Ok v' ∧ shows v' x'
                            | None => Vga.PrintChar c v = Fault
                            end.
Proof.
  intros Hv Hc. unfold Vga.PrintChar, type_char. destruct (Z.eqb_spec c HT) as [->|H1].
  - destruct (put_char_ok v x blank Hv) as (v1 & E1 & Hv1); [done..|].
    destruct (put_char_ok v1 _ blank Hv1) as (v2 & E2 & Hv2); [done..|].
    exists v2. split; [|done]. unfold for_range, tab_width. by rewrite E1, res_bind_ok, E2.
  - unfold u8. rewrite wrap_small by (split; [lia|change (2 ^ 8) with 256; lia]).
    destruct ((c =? CR) || (c =? LF)) eqn:E.
    + eexists. split; [unfold put_char; by rewrite E|].
      apply line_feed_ok; [by apply shows_window|destruct Hv; lia].
    + apply orb_false_iff in E as [?%Z.eqb_neq ?%Z.eqb_neq].
      destruct (Z.eqb_spec c BS) as [->|H4]; [by apply backspace_ok|]. by apply put_char_ok.
Qed.

Lemma print_all_types s : ∀ v x,
  shows v x → Forall (λ c, 0 ≤ c < 256) s → match type_all s x with
                                            | Some x' => ∃ v', print_all s v = Ok v' ∧ shows v' x'
                                            | None => print_all s v = Fault
                                            end.
Proof.
  induction s as [|c s IH]; intros v x Hv Hs; [by exists v|]. apply Forall_cons in Hs as [Hc Hs].
  cbn [type_all]. change (print_all (c :: s) v) with (w ← Vga.PrintChar c v; print_all s w).
  pose proof (PrintChar_ok v x c Hv Hc) as H1.
  destruct (type_char c x) as [x1|]; cbn [mbind option_bind].
  - destruct H1 as (v1 & -> & Hv1). by apply IH.
  - by rewrite H1.
Qed.

(** C25. The screen is a window of 25 lines on everything typed: whatever
    string is printed on a screen that shows the end of a tape, [PrintStr] leaves
    a screen that shows the tape with the string typed at its end, where a tab
    is two blanks, a line feed or a carriage return fills the line with blanks,
    a backspace takes the last character back, and a line goes up when the tape
    reaches the end of the last line. The cursor stays at the end of the tape
    and nothing is written outside the screen; only a backspace at the upper
    left corner of the screen fails, with a write behind the segment. *)
Theorem PrintStr_types str s v x :
  string_view.shows str s → Forall (λ c, 0 ≤ c < 256) s → shows v x →
  match type_all s x with
  | Some x' => ∃ v', Print.PrintStr str v = Ok v' ∧ shows v' x'
  | None => Print.PrintStr str v = Fault
  end.
Proof. intros Hstr Hs Hv. rewrite (PrintFacts.PrintStr_ok str s v Hstr). by apply print_all_types. Qed.

(** The cleared screen. *)
Definition cleared : Vga.t := Vga.mk (replicate 2000 blank) 0.

Lemma cleared_shows : shows cleared (mk [] 0).
Proof.
  split; cbn [text cursor tape top cleared length]; [|done|lia|rewrite length_replicate; lia].
  intros i Hi. by rewrite lookup_replicate_2, lookup_nil by done.
Qed.

(** 25 lines, the first of which leaves the screen, and a backspace. *)
Lemma PrintStr_types_witness :
  let s := concat (replicate 25 [65; 9; 10]) ++ [66; 67; 8] in
  match type_all s (mk [] 0) with
  | Some x' => ∃ v', Print.PrintStr (string_view.literal s) cleared = Ok v' ∧ shows v' x'
  | None => Print.PrintStr (string_view.literal s) cleared = Fault
  end.
Proof.
  apply (PrintStr_types (string_view.literal (concat (replicate 25 [65; 9; 10]) ++ [66; 67; 8]))).
  - split; [reflexivity|]. split; [by apply (bool_decide_unpack _); vm_compute|]. by exists [].
  - apply (bool_decide_unpack _). by vm_compute.
  - apply cleared_shows.
Defined.

(** A backspace on the cleared screen: byte 0xFFFE of a segment of 0x8000. *)
Example backspace_faults : Vga.PrintChar BS cleared = Fault.
Proof. reflexivity. Qed.
End Terminal.

(** ** Assertions *)

Module Debug.
Import Print.

(** [stl::source_location], without the column. *)
Record source_location := mk_location { file_name : list Z; function_name : list Z; line : Z }.

Section debug.
Context {W : Type} `{TextOut W}.

(** A C string as a format's argument. *)
Definition c_str (s : list Z) : Format.arg := Format.AStr (Some (s ++ [0])).
Definition text (s : list Z) : string_view.t := string_view.literal s.

(** What [PanicSpin] prints before it spins with interrupts disabled. *)
Definition PanicSpin (src : source_location) (msg : string_view.t) (w : W) : res W :=
  w ← PrintlnStr (text (Vga.LF :: chars "!!!!! System Panic !!!!!")) w;
  w ← Printf (text (Vga.HT :: chars "File: {}." ++ [Vga.LF])) [c_str (file_name src)] w;
  w ← Printf (text (Vga.HT :: chars "Line: 0x{}." ++ [Vga.LF])) [Format.AUInt (line src)] w;
  w ← Printf (text (Vga.HT :: chars "Function: {}." ++ [Vga.LF])) [c_str (function_name src)] w;
  if negb (string_view.empty msg) then
    Printf (text (Vga.HT :: chars "Message: {}." ++ [Vga.LF])) [Format.AStr (string_view.data msg)] w
  else Ok w.

(** [Assert] in a debug build: whether it returns, and what it printed. *)
Definition Assert_ (cond : bool) (msg : string_view.t) (src : source_location) (w : W) : res (bool * W) :=
  if negb cond then w ← PanicSpin src msg w; Ok (false, w) else Ok (true, w).
End debug.

Example panic_demo :
  Assert_ false string_view.null (mk_location (chars "a.cpp") (chars "f") 31) ([] : list Z)
  = Ok (false, Vga.LF :: chars "!!!!! System Panic !!!!!" ++ Vga.LF :: Vga.HT :: chars "File: a.cpp."
      ++ Vga.LF :: Vga.HT :: chars "Line: 0x1F." ++ Vga.LF :: Vga.HT :: chars "Function: f." ++ [Vga.LF]).
Proof. reflexivity. Qed.
End Debug.
