(* ===== verification/IoConsole.v ===== *)
(** * The console

    [Console] models src/src/kernel/io/video/console.cpp and
    src/include/kernel/io/video/console.h: printing under a mutex, which makes
    what a thread prints come out whole, and reading from the keyboard. The
    functions of a console are seen as the text they hand to [PrintChar]; the
    system of threads that print is the step relation of the mutex with one step
    for every character. *)
From Stdlib Require Import Strings.String.
From S2P Require Import Prelude UtilBit UtilTagList IoFileDesc StlString ThreadSched ThreadSpec ThreadSync UtilBlockQueue IoKeyboard UtilFormat Desc Intr IoVideo.
Import Thread Sched.

Module Console.
Import Mutex.

(** ** The functions *)

(** A call of a function that prints, and its body behind the [lock_guard]. *)
Inductive call :=
| PrintlnStr (str : string_view.t) | PrintStr (str : string_view.t) | PrintCStr (str : cstring.cptr)
| PrintlnChar (ch : Z) | PrintChar (ch : Z)
| PrintlnHex (num : Z) | PrintHex (num : Z) | PrintlnHexInt (num : Z) | PrintHexInt (num : Z)
| Printf (format : string_view.t) (args : list Format.arg).

Definition body {W} `{TextOut W} (c : call) : W → res W :=
  match c with
  | PrintlnStr str => Print.PrintlnStr str
  | PrintStr str => Print.PrintStr str
  | PrintCStr str => Print.PrintCStr str
  | PrintlnChar ch => Print.PrintlnChar ch
  | PrintChar ch => IoVideo.PrintChar ch
  | PrintlnHex num => Print.PrintlnHex num
  | PrintHex num => Print.PrintHex num
  | PrintlnHexInt num => Print.PrintlnHexInt num
  | PrintHexInt num => Print.PrintHexInt num
  | Printf format args => Print.Printf format args
  end.

(** The text of a call that returns. *)
Definition prints (c : call) (s : list Z) : Prop := body c [] = Ok s.

Section console.
Context `{Platform}.

(** [Read], up to a [Pop] that has to wait. *)
Fixpoint Read_from (count : nat) (i : Z) (buf : list Z) (q : BlockQueue.t) (k : kernel) :
    res (list Z * BlockQueue.t * kernel * BlockQueue.outcome) :=
  match count with
  | O => Ok (buf, q, k, BlockQueue.Done)
  | S count' =>
      '(q, k, o, val) ← BlockQueue.Pop Keyboard.buffer_size q k;
      match o with
      | BlockQueue.Done => buf ← Format.put i val buf; Read_from count' (i + 1) buf q k
      | _ => Ok (buf, q, k, o)
      end
  end.
Definition Read (buf : list Z) (count : Z) (q : BlockQueue.t) (k : kernel) :=
  Read_from (Z.to_nat count) 0 buf q k.

(** [Pop] wants interrupts to be disabled, and [Read] does not disable them. *)
Lemma Read_enabled buf count q k : intr_on k = true → 0 < count → Read buf count q k = Panic.
Proof.
  intros Hk Hc. unfold Read. destruct (Z.to_nat count) as [|n] eqn:E; [lia|].
  cbn [Read_from]. unfold BlockQueue.Pop. by rewrite Hk.
Qed.

(** ** Threads that print *)

(** The call a thread is in: its text, and how many characters are out. *)
Record sys := mkSys {
  lock : Mutex.sys; calls : gmap Z (list Z * nat); screen : list Z; finished : list (list Z)
}.

Definition thread (y : Mutex.sys) : Z := curr (mker y).

(** What a step of the mutex may do to a thread: it takes the mutex inside a
    call and gives it back when its text is out; when it has given it back, the
    call returns. *)
Definition enters (cs : gmap Z (list Z * nat)) (y y' : Mutex.sys) : Prop :=
  ∀ p, p ∈ (owners y').*1 → p ∉ (owners y).*1 → is_Some (cs !! p).
Definition leaves (cs : gmap Z (list Z * nat)) (y y' : Mutex.sys) : Prop :=
  ∀ p ph, (p, Holds) ∈ owners y → (p, ph) ∈ owners y' → ph ≠ Holds → ∃ s, cs !! p = Some (s, length s).
Definition releases (y y' : Mutex.sys) : Prop := ∀ p, p ∈ (owners y).*1 → p ∈ (owners y').*1.

Inductive step : sys → sys → Prop :=
| step_call y cs out fin c s :
    outside (mker y) (mwoken y) (owners y) → cs !! thread y = None → prints c s →
    step (mkSys y cs out fin) (mkSys y (<[thread y := (s, 0%nat)]> cs) out fin)
| step_mutex y y' cs out fin :
    Mutex.step y y' → enters cs y y' → leaves cs y y' → releases y y' →
    step (mkSys y cs out fin) (mkSys y' cs out fin)
| step_print y cs out fin s n ch :
    (thread y, Holds) ∈ owners y → cs !! thread y = Some (s, n) → s !! n = Some ch →
    step (mkSys y cs out fin) (mkSys y (<[thread y := (s, S n)]> cs) (out ++ [ch]) fin)
| step_return y y' cs out fin s n :
    Mutex.step y y' → (thread y, Releasing) ∈ owners y → thread y ∉ (owners y').*1 →
    cs !! thread y = Some (s, n) →
    step (mkSys y cs out fin) (mkSys y' (delete (thread y) cs) out (fin ++ [s])).

(** How the owner of a mutex moves. *)
Inductive owner_step : list (Z * phase) → list (Z * phase) → Prop :=
| os_same os : owner_step os os
| os_take p : owner_step [] [(p, Got)]
| os_move p ph ph' : (ph' = Counted → ph = Holds) → (ph' = Releasing → ph = Counted) →
    owner_step [(p, ph)] [(p, ph')]
| os_give p : owner_step [(p, Releasing)] [].

Lemma mutex_owner_step y y' : Mutex.sys_inv y → Mutex.step y y' → owner_step (owners y) (owners y').
Proof.
  intros Hy Hst. destruct Hst as [k m w os m' k' r Hout Hid Hl|k m w os m' k' taken resume Hc Hl
    |k m w os Hin|k m w os m' Hin Hl|k m w os m' k' r Hin Hlt Hl|k m w os m' last Hin Hl
    |k m w os Hin|k m w os m' k' Hin Hl|k m w os c k' Hc Hnw Hleg Hr]; cbn [owners].
  - destruct (Lock_begin_outside _ _ _ _ Hy Hout) as (k1 & Hl' & _). rewrite Hl' in Hl.
    destruct (Semaphore.val_ (sema_ m) =? 0) eqn:E; simplify_eq; [apply os_same|].
    rewrite (owners_of_val m os); [apply os_take|exact (mi_members _ Hy)|by apply Z.eqb_neq].
  - destruct taken; [|apply os_same]. pose proof (mi_members _ Hy) as Hm. cbn [mtx owners] in Hm.
    destruct (decide (Semaphore.val_ (sema_ m) = 0)) as [E|E].
    + pose proof (mi_sema _ Hy) as Hs. cbn [mker mtx mwoken] in Hs.
      assert (Hs0 : Semaphore.sys_inv sema_max (Semaphore.mkSys (set_intr false k) (sema_ m) w))
        by by destruct Hs.
      destruct (Semaphore.Decrease_round_ok _ max_ok _ _ _ Hs0) as (k1 & Hd & _). unfold Lock_round in Hl.
      rewrite Hd, E in Hl. by simplify_eq.
    + rewrite (owners_of_val m os Hm E). apply os_take.
  - destruct (owner_members _ _ _ _ _ Hy Hin) as (-> & _ & -> & _). by apply os_move.
  - destruct (owner_members _ _ _ _ _ Hy Hin) as (-> & _ & -> & _). by apply os_move.
  - apply os_same.
  - destruct (owner_members _ _ _ _ _ Hy Hin) as (-> & _ & -> & _). destruct last; by apply os_move.
  - destruct (owner_members _ _ _ _ _ Hy Hin) as (-> & _ & -> & _). by apply os_move.
  - destruct (owner_members _ _ _ _ _ Hy Hin) as (-> & _ & -> & _). apply os_give.
  - apply os_same.
Qed.

(** The screen is the texts that are complete and the start of the one whose
    thread has the mutex. *)
Definition on_screen (y : sys) : Prop :=
  match owners (lock y) with
  | [] => screen y = concat (finished y)
  | (p, ph) :: _ => ∃ s n, calls y !! p = Some (s, n) ∧ screen y = concat (finished y) ++ take n s
      ∧ (n ≤ length s)%nat ∧ (ph = Counted ∨ ph = Releasing → n = length s)
  end.

Record inv (y : sys) : Prop := {
  in_mutex : Mutex.sys_inv (lock y);
  in_screen : on_screen y;
  in_idle : ∀ p s n, calls y !! p = Some (s, n) → p ∉ (owners (lock y)).*1 → n = 0%nat;
  in_calls : ∀ p s n, calls y !! p = Some (s, n) → ∃ c, prints c s;
  in_finished : Forall (λ s, ∃ c, prints c s) (finished y)
}.

Lemma step_mutex_inv y y' cs out fin :
  inv (mkSys y cs out fin) → Mutex.step y y' → enters cs y y' → leaves cs y y' → releases y y' →
  inv (mkSys y' cs out fin).
Proof.
  intros [Hm Hsc Hid Hcs Hfin] Hst Hen Hle Hre. cbn [lock calls screen finished] in *.
  assert (Hidle : ∀ p s n, cs !! p = Some (s, n) → p ∉ (owners y').*1 → n = 0%nat).
  { intros p s n Hp Hn. apply (Hid p s n Hp). intros Ho. by apply Hn, Hre. }
  split; cbn [lock calls screen finished]; try done; [by apply (mutex_step_inv y)|].
  pose proof (mutex_owner_step _ _ Hm Hst) as Hos. unfold on_screen in *. cbn [lock calls screen finished] in *.
  unfold enters, leaves, releases in *. revert Hen Hle Hre Hsc Hid. destruct Hos as [os|p|p ph ph' Hc Hr|p];
    intros Hen Hle Hre Hsc Hid; [exact Hsc|..].
  - destruct (Hen p) as [[s n] Hp]; [by left|apply not_elem_of_nil|]. exists s, 0%nat.
    rewrite (Hid p s n Hp) in Hp by apply not_elem_of_nil. rewrite app_nil_r.
    split; [done|]. split; [done|]. split; [lia|]. by intros [|].
  - destruct Hsc as (s & n & Hp & Hout & Hn & Hph). exists s, n. split; [done|]. split; [done|]. split; [done|].
    intros [->| ->]; [|by apply Hph; left; apply Hr].
    destruct (Hle p Counted) as (s' & Hp'); [by rewrite (Hc eq_refl); left|by left|done|]. by simplify_eq.
  - exfalso. by apply (not_elem_of_nil p), Hre; left.
Qed.

Lemma step_print_inv y cs out fin s n ch :
  inv (mkSys y cs out fin) → (thread y, Holds) ∈ owners y → cs !! thread y = Some (s, n) → s !! n = Some ch →
  inv (mkSys y (<[thread y := (s, S n)]> cs) (out ++ [ch]) fin).
Proof.
  intros [Hm Hsc Hid Hcs Hfin] Hin Hp Hch. cbn [lock calls screen finished] in *.
  pose proof (owner_only _ _ _ _ (mi_members _ Hm) Hin) as Hos.
  split; cbn [lock calls screen finished]; try done.
  - unfold on_screen in *. cbn [lock calls screen finished] in *. rewrite Hos in Hsc |- *.
    destruct Hsc as (s' & n' & Hp' & -> & _ & _). rewrite Hp in Hp'. simplify_eq. exists s', (S n').
    rewrite lookup_insert_eq. split; [done|]. split; [by rewrite (take_S_r _ _ ch), app_assoc|].
    apply lookup_lt_Some in Hch. split; [lia|]. by intros [|].
  - intros q s' n' Hq Hn. rewrite Hos in Hn. cbn in Hn. apply not_elem_of_cons in Hn as [Hn _].
    rewrite lookup_insert_ne in Hq by done. apply (Hid q s' n' Hq). rewrite Hos. cbn.
    by apply not_elem_of_cons; split; [|apply not_elem_of_nil].
  - intros q s' n' [[<- [= <- <-]]|[_ Hq]]%lookup_insert_Some; [by eapply Hcs|by eapply Hcs].
Qed.

Lemma step_return_inv y y' cs out fin s n :
  inv (mkSys y cs out fin) → Mutex.step y y' → (thread y, Releasing) ∈ owners y →
  thread y ∉ (owners y').*1 → cs !! thread y = Some (s, n) →
  inv (mkSys y' (delete (thread y) cs) out (fin ++ [s])).
Proof.
  intros [Hm Hsc Hid Hcs Hfin] Hst Hin Hno Hp. cbn [lock calls screen finished] in *.
  pose proof (owner_only _ _ _ _ (mi_members _ Hm) Hin) as Hos.
  pose proof (mutex_owner_step _ _ Hm Hst) as Hstep. rewrite Hos in Hstep.
  assert (Hos' : owners y' = []).
  { inversion Hstep as [os E1 E2| |p ph ph' _ _ E1 E2|]; [| |done].
    - rewrite <- E2 in Hno. exfalso. apply Hno. by left.
    - rewrite <- E2 in Hno. exfalso. apply Hno. simplify_eq. by left. }
  split; cbn [lock calls screen finished]; [by apply (mutex_step_inv y)|..].
  - unfold on_screen in *. cbn [lock calls screen finished] in *. rewrite Hos in Hsc. rewrite Hos'.
    destruct Hsc as (s' & n' & Hp' & -> & _ & Hn). rewrite Hp in Hp'. simplify_eq.
    rewrite (Hn (or_intror eq_refl)), firstn_all. by rewrite concat_app, concat_cons, app_nil_r.
  - intros q s' n' [Hne Hq]%lookup_delete_Some _. apply (Hid q s' n' Hq). rewrite Hos. cbn.
    by apply not_elem_of_cons; split; [apply not_eq_sym|apply not_elem_of_nil].
  - intros q s' n' [_ Hq]%lookup_delete_Some. by eapply Hcs.
  - apply Forall_app. split; [done|]. apply Forall_singleton. by eapply Hcs.
Qed.

Lemma console_step_inv y y' : inv y → step y y' → inv y'.
Proof.
  intros Hy Hst. destruct Hst as [y cs out fin c s Hout Hnone Hc|y y' cs out fin Hst Hen Hle Hre
    |y cs out fin s n ch Hin Hp Hch|y y' cs out fin s n Hst Hin Hno Hp].
  - destruct Hy as [Hm Hsc Hid Hcs Hfin], Hout as [_ Ho]. split; cbn [lock calls screen finished] in *; try done.
    + unfold on_screen in *. cbn [lock calls screen finished] in *. destruct (owners y) as [|[p ph] os]; [done|].
      cbn in Ho. apply not_elem_of_cons in Ho as [Hne _]. by setoid_rewrite lookup_insert_ne; [|done].
    + intros p s' n' [[_ [= _ <-]]|[_ Hq]]%lookup_insert_Some; [done|by apply (Hid p s' n' Hq)].
    + intros p s' n' [[_ [= <- _]]|[_ Hq]]%lookup_insert_Some; [by exists c|by eapply Hcs].
  - by eapply step_mutex_inv.
  - by eapply step_print_inv.
  - by eapply step_return_inv.
Qed.

Definition init (y : sys) : Prop :=
  Mutex.sys_init (lock y) ∧ calls y = ∅ ∧ screen y = [] ∧ finished y = [].

(** C27. What a thread prints on the console comes out whole: whatever the
    interleaving of any number of threads that call the functions of the
    console, with preemption between any two characters, the characters handed
    to [PrintChar] are the complete texts of the calls that returned, one after
    the other in the order they returned, followed by the start of the text of
    the call whose thread has the mutex, and by nothing when no thread has it. *)
Theorem console_prints_whole y0 y :
  init y0 → rtc step y0 y →
  (owners (lock y) = [] → screen y = concat (finished y))
  ∧ (∀ p ph, (p, ph) ∈ owners (lock y) →
       ∃ s n, calls y !! p = Some (s, n) ∧ screen y = concat (finished y) ++ take n s ∧ ∃ c, prints c s)
  ∧ Forall (λ s, ∃ c, prints c s) (finished y).
Proof.
  intros (Hl & Hc & Hs & Hf) Hr. assert (Hy : inv y).
  { assert (H0 : inv y0).
    { split; rewrite ?Hc, ?Hf; try done; [by apply (mutex_reachable_inv (lock y0)), rtc_refl|].
      unfold on_screen. destruct Hl as (_ & _ & _ & ->). by rewrite Hs, Hf. }
    clear Hl Hc Hs Hf. induction Hr as [|y0 y1 y2 Hst _ IH]; [done|]. by apply IH, (console_step_inv y0). }
  destruct Hy as [Hm Hsc _ Hcs Hfin]. unfold on_screen in Hsc. split; [|split; [|done]].
  - intros E. by rewrite E in Hsc.
  - intros p ph Hin. rewrite (owner_only _ _ _ _ (mi_members _ Hm) Hin) in Hsc.
    destruct Hsc as (s & n & Hp & Hout & _). exists s, n. split; [done|]. split; [done|]. by eapply Hcs.
Qed.
End console.

#[local] Existing Instance demo_platform.

(** The main thread prints "hi" and is preempted behind the first character. *)
Definition demo_init : sys := mkSys demo_sys ∅ [] [].
Definition demo_text : list Z := chars "hi".

Lemma demo_takes : ∃ k, Lock_begin (mtx demo_sys) demo_kernel = Ok (demo_locked, k, Taken) ∧ curr k = demo_main.
Proof. eexists. split; vm_compute; reflexivity. Qed.

Lemma demo_prints k :
  let cs := <[curr k := (demo_text, 0%nat)]> ∅ in
  rtc step (mkSys (Mutex.mkSys k demo_locked [] [(curr k, Got)]) cs [] [])
    (mkSys (Mutex.mkSys k (mk (sema_ demo_locked) (Some (curr k)) 1) [] [(curr k, Holds)])
       (<[curr k := (demo_text, 1%nat)]> cs) [104] []).
Proof.
  intros cs.
  assert (Hmove : ∀ m m' ph ph', ph ≠ Holds →
    Mutex.step (Mutex.mkSys k m [] [(curr k, ph)]) (Mutex.mkSys k m' [] ((curr k, ph') :: others k [(curr k, ph)])) →
    step (mkSys (Mutex.mkSys k m [] [(curr k, ph)]) cs [] []) (mkSys (Mutex.mkSys k m' [] [(curr k, ph')]) cs [] [])).
  { intros m m' ph ph' Hph Hst. rewrite others_only in Hst. apply step_mutex; [done|by intros p Hp Hn| |by intros p Hp].
    intros p q [= -> Hq]%list_elem_of_singleton. by subst. }
  eapply rtc_l; [|eapply rtc_l; [|apply rtc_once]].
  - apply (Hmove _ (Lock_set_holder demo_locked k) Got Named); [done|]. apply step_set_holder. by left.
  - apply (Hmove _ (mk (sema_ demo_locked) (Some (curr k)) 1) Named Holds); [done|].
    apply step_lock_end; [by left|done].
  - apply (step_print (Mutex.mkSys k (mk (sema_ demo_locked) (Some (curr k)) 1) [] [(curr k, Holds)]) cs [] []
      demo_text 0 104); [by left|apply lookup_insert_eq|done].
Qed.

Lemma console_demo_steps : ∃ k m cs,
  rtc step demo_init (mkSys (Mutex.mkSys k m [] [(demo_main, Holds)]) (<[demo_main := (demo_text, 1%nat)]> cs) [104] []).
Proof.
  destruct demo_takes as (k & Hl & Hk). pose proof (demo_prints k) as Hp. cbv zeta in Hp. rewrite Hk in Hp.
  eexists _, _, _. eapply rtc_l; [|eapply rtc_l; [|exact Hp]].
  - apply (step_call demo_sys ∅ [] [] (PrintStr (string_view.literal demo_text)) demo_text); [|done|done].
    split; apply not_elem_of_nil.
  - apply step_mutex.
    + by apply (step_lock demo_kernel _ [] [] demo_locked k Taken); [split; apply not_elem_of_nil|..].
    + intros p [->|Hn]%elem_of_cons _; [by eexists|by apply elem_of_nil in Hn].
    + intros p ph Hn. by apply elem_of_nil in Hn.
    + intros p Hn. by apply elem_of_nil in Hn.
Qed.

Lemma console_prints_whole_witness :
  ∃ y, rtc step demo_init y ∧ owners (lock y) = [(demo_main, Holds)]
    ∧ ∃ s n, calls y !! demo_main = Some (s, n) ∧ screen y = concat (finished y) ++ take n s ∧ ∃ c, prints c s.
Proof.
  destruct console_demo_steps as (k & m & cs & Hr). eexists. split; [exact Hr|]. split; [reflexivity|].
  assert (Hi : init demo_init) by (split; [exact mutex_demo_init|done]).
  destruct (console_prints_whole demo_init _ Hi Hr) as (_ & Hown & _). apply (Hown demo_main Holds). by left.
Defined.
End Console.
