(* ===== verification/FsBase.v ===== *)
(** * What the file system stands on

    The file system of src/src/kernel/io/disk/part.cpp and
    src/src/kernel/io/disk/file/ reads and writes sectors ([Disk::ReadSectors],
    [Disk::WriteSectors]) and keeps its objects and buffers on the heap
    ([mem::Allocate], [mem::Free]). [Store] and [Heap] are the two interfaces,
    [StoreLaws] and [HeapLaws] what they promise; the disk driver of [IoDisk]
    keeps the first, on a drive that is [Prompt], and the kernel's heap the second
    ([KrnlHeap]). Stateful code is a function in the monad [M]; [runs] is its total
    correctness. [Bytes] has the words of packed structures and the
    copies between buffers. *)
From S2P Require Import Prelude UtilBit MemPool Intr IoDisk.

(** ** A state monad over outcomes *)

Definition M (W A : Type) : Type := W → res (A * W).

#[export] Instance M_ret W : MRet (M W) := λ A a w, Ok (a, w).
#[export] Instance M_bind W : MBind (M W) := λ A B k m w,
  match m w with
  | Ok (a, w') => k a w'
  | Panic => Panic
  | Fault => Fault
  | NoFuel => NoFuel
  end.

Definition lift {W A} (r : res A) : M W A := λ w, a ← r; Ok (a, w).
Definition assert {W} (c : bool) : M W unit := lift (Assert c).
Definition gets {W A} (f : W → A) : M W A := λ w, Ok (f w, w).
Definition modify {W} (f : W → W) : M W unit := λ w, Ok (tt, f w).

(** [for] over the indices [i], [i + 1], ..., [n] of them. *)
Fixpoint for_M {W S} (n : nat) (i : Z) (body : Z → S → M W S) (s : S) : M W S :=
  match n with
  | O => mret s
  | Datatypes.S n' => s' ← body i s; for_M n' (i + 1) body s'
  end.

(** [m] returns from [w], and [Q] holds of what it returns. *)
Definition runs {W A} (m : M W A) (w : W) (Q : A → W → Prop) : Prop :=
  ∃ a w', m w = Ok (a, w') ∧ Q a w'.

Section runs.
Context {W : Type}.

Lemma runs_ret {A} (a : A) (w : W) (Q : A → W → Prop) : Q a w → runs (mret a) w Q.
Proof. intros. by exists a, w. Qed.

Lemma runs_bind {A B} (m : M W A) (k : A → M W B) w Q :
  runs m w (λ a w', runs (k a) w' Q) → runs (m ≫= k) w Q.
Proof.
  intros (a & w' & E & b & w'' & E' & HQ). exists b, w''. split; [|done].
  unfold mbind, M_bind. by rewrite E.
Qed.

Lemma runs_mono {A} (m : M W A) w (P Q : A → W → Prop) :
  runs m w P → (∀ a w', P a w' → Q a w') → runs m w Q.
Proof. intros (a & w' & E & HP) HPQ. exists a, w'. eauto. Qed.

(** Run [m], whose outcome is known, and go on. *)
Lemma runs_step {A B} (m : M W A) (k : A → M W B) w P Q :
  runs m w P → (∀ a w', P a w' → runs (k a) w' Q) → runs (m ≫= k) w Q.
Proof. intros Hm Hk. apply runs_bind. by eapply runs_mono. Qed.

Lemma runs_lift {A} (r : res A) (a : A) w (Q : A → W → Prop) :
  r = Ok a → Q a w → runs (lift r) w Q.
Proof. intros -> HQ. by exists a, w. Qed.

Lemma runs_assert (c : bool) w (Q : unit → W → Prop) :
  c = true → Q tt w → runs (assert c) w Q.
Proof. intros ->. by apply runs_lift. Qed.

Lemma runs_gets {A} (f : W → A) w (Q : A → W → Prop) : Q (f w) w → runs (gets f) w Q.
Proof. intros. by exists (f w), w. Qed.

Lemma runs_modify (f : W → W) w (Q : unit → W → Prop) : Q tt (f w) → runs (modify f) w Q.
Proof. intros. by exists tt, (f w). Qed.

(** The same, followed by a continuation. *)
Lemma bind_ret {A B} (a : A) (k : A → M W B) w Q : runs (k a) w Q → runs (mret a ≫= k) w Q.
Proof. done. Qed.
Lemma bind_lift {A B} (r : res A) (a : A) (k : A → M W B) w Q :
  r = Ok a → runs (k a) w Q → runs (lift r ≫= k) w Q.
Proof. by intros ->. Qed.
Lemma bind_assert {B} (c : bool) (k : unit → M W B) w Q :
  c = true → runs (k tt) w Q → runs (assert c ≫= k) w Q.
Proof. by intros ->. Qed.
Lemma bind_gets {A B} (f : W → A) (k : A → M W B) w Q :
  runs (k (f w)) w Q → runs (gets f ≫= k) w Q.
Proof. done. Qed.
Lemma bind_modify {B} (f : W → W) (k : unit → M W B) w Q :
  runs (k tt) (f w) Q → runs (modify f ≫= k) w Q.
Proof. done. Qed.
Lemma bind_assoc {A B C} (m : M W A) (k : A → M W B) (k' : B → M W C) w Q :
  runs (m ≫= λ a, k a ≫= k') w Q → runs ((m ≫= k) ≫= k') w Q.
Proof.
  intros (c & w' & E & HQ). exists c, w'. split; [|done]. rewrite <- E.
  unfold mbind, M_bind. by destruct (m w) as [[a w1]| | |].
Qed.

(** The invariant rule of a counted loop. *)
Lemma runs_for {S} (I : Z → S → W → Prop) n i (body : Z → S → M W S) s w :
  I i s w →
  (∀ k s w, i ≤ k < i + Z.of_nat n → I k s w → runs (body k s) w (I (k + 1))) →
  runs (for_M n i body s) w (I (i + Z.of_nat n)).
Proof.
  revert i s w. induction n as [|n IH]; intros i s w H0 Hstep; simpl.
  { apply runs_ret. by rewrite Z.add_0_r. }
  eapply runs_step; [apply Hstep; [lia|done]|]. intros s1 w1 H1.
  replace (i + Z.of_nat (Datatypes.S n)) with (i + 1 + Z.of_nat n) by lia.
  apply IH; [done|]. intros k t v Hk. apply Hstep. lia.
Qed.
End runs.

#[global] Arguments for_M {W S} n i body s : simpl never.

(** Run an operation on a part of the state. *)
Definition zoom {W V A} (get : W → V) (put : V → W → W) (m : M V A) : M W A := λ w,
  '(a, v) ← m (get w); Ok (a, put v w).

Lemma runs_zoom {W V A} (get : W → V) (put : V → W → W) (m : M V A) w (P : A → V → Prop) Q :
  runs m (get w) P → (∀ a v, P a v → Q a (put v w)) → runs (zoom get put m) w Q.
Proof.
  intros (a & v & E & HP) HQ. exists a, (put v w). split; [|by apply HQ].
  unfold zoom. by rewrite E.
Qed.

(** ** Bytes *)

Module Bytes.

(** A word in memory, least significant byte first. *)
Definition put32 (x : Z) : list Z :=
  [x mod 2 ^ 8; x / 2 ^ 8 mod 2 ^ 8; x / 2 ^ 16 mod 2 ^ 8; x / 2 ^ 24 mod 2 ^ 8].

Definition get32 (bs : list Z) : Z :=
  match bs with
  | b0 :: b1 :: b2 :: b3 :: _ => b0 + b1 * 2 ^ 8 + b2 * 2 ^ 16 + b3 * 2 ^ 24
  | _ => 0
  end.

(** [n] words, one after the other. *)
Fixpoint get_words (n : nat) (bs : list Z) : list Z :=
  match n with
  | O => []
  | S n' => get32 bs :: get_words n' (drop 4 bs)
  end.

Definition put_words (ws : list Z) : list Z := concat (put32 <$> ws).

(** [stl::memcpy] of [len] bytes from [off] of a buffer, and of bytes to [off]
    of a buffer. *)
Definition slice (buf : list Z) (off len : Z) : res (list Z) :=
  if off + len <=? Z.of_nat (length buf)
  then Ok (take (Z.to_nat len) (drop (Z.to_nat off) buf)) else Fault.

Definition splice (buf : list Z) (off : Z) (data : list Z) : res (list Z) :=
  if off + Z.of_nat (length data) <=? Z.of_nat (length buf)
  then Ok (take (Z.to_nat off) buf ++ data ++ drop (Z.to_nat off + length data) buf) else Fault.

Definition zeros (n : Z) : list Z := replicate (Z.to_nat n) 0.

Lemma length_put32 x : length (put32 x) = 4%nat.
Proof. done. Qed.

Lemma get_put32 x rest : in_u 32 x → get32 (put32 x ++ rest) = x.
Proof. unfold in_u, put32, get32. intros. simpl. div_lia. Qed.

Lemma length_put_words ws : length (put_words ws) = (4 * length ws)%nat.
Proof.
  induction ws as [|w ws IH]; [done|]. unfold put_words in *. rewrite fmap_cons. cbn [concat].
  rewrite length_app, IH. simpl. lia.
Qed.

Lemma get_put_words ws rest :
  Forall (in_u 32) ws → get_words (length ws) (put_words ws ++ rest) = ws.
Proof.
  induction 1 as [|w ws Hw Hws IH]; [done|].
  unfold put_words in *. rewrite fmap_cons. cbn [length get_words concat].
  rewrite <- app_assoc, get_put32 by done. f_equal.
  by rewrite drop_app_length' by done.
Qed.

Lemma slice_ok buf off len :
  0 ≤ off → 0 ≤ len → off + len ≤ Z.of_nat (length buf) →
  slice buf off len = Ok (take (Z.to_nat len) (drop (Z.to_nat off) buf)).
Proof. intros. unfold slice. by rewrite (proj2 (Z.leb_le _ _)). Qed.

Lemma splice_ok (buf : list Z) off (data : list Z) :
  off + Z.of_nat (length data) ≤ Z.of_nat (length buf) →
  splice buf off data = Ok (take (Z.to_nat off) buf ++ data ++ drop (Z.to_nat off + length data) buf).
Proof. intros. unfold splice. by rewrite (proj2 (Z.leb_le _ _)). Qed.

(** A buffer after a copy: the copy inside, the old bytes outside. *)
Lemma lookup_spliced (buf : list Z) off (data : list Z) (i : nat) :
  0 ≤ off → off + Z.of_nat (length data) ≤ Z.of_nat (length buf) →
  (take (Z.to_nat off) buf ++ data ++ drop (Z.to_nat off + length data) buf) !! i
  = if decide (Z.to_nat off ≤ i < Z.to_nat off + length data)%nat
    then data !! (i - Z.to_nat off)%nat else buf !! i.
Proof.
  intros. destruct (decide _) as [Hi|Hi].
  - rewrite lookup_app_r by (rewrite length_take; lia). rewrite length_take.
    rewrite lookup_app_l by lia. f_equal. lia.
  - destruct (decide (i < Z.to_nat off)%nat).
    + rewrite lookup_app_l by (rewrite length_take; lia). by rewrite lookup_take_lt.
    + rewrite lookup_app_r by (rewrite length_take; lia). rewrite length_take.
      rewrite lookup_app_r by lia. rewrite lookup_drop. f_equal. lia.
Qed.

Lemma length_spliced (buf : list Z) off (data : list Z) :
  0 ≤ off → off + Z.of_nat (length data) ≤ Z.of_nat (length buf) →
  length (take (Z.to_nat off) buf ++ data ++ drop (Z.to_nat off + length data) buf) = length buf.
Proof. intros. rewrite !length_app, length_take, length_drop. lia. Qed.

Lemma splice_inv (buf : list Z) off (data buf' : list Z) :
  0 ≤ off → splice buf off data = Ok buf' →
  length buf' = length buf ∧ ∀ i : nat, buf' !! i
    = if decide (Z.to_nat off ≤ i < Z.to_nat off + length data)%nat
      then data !! (i - Z.to_nat off)%nat else buf !! i.
Proof.
  intros Ho. unfold splice. destruct (Z.leb_spec (off + Z.of_nat (length data)) (Z.of_nat (length buf)));
    [|done]. intros [= <-]. split; [by apply length_spliced|]. intros i. by apply lookup_spliced.
Qed.

(** A copy that fits succeeds. *)
Lemma splice_fits (buf : list Z) off (data : list Z) :
  off + Z.of_nat (length data) ≤ Z.of_nat (length buf) → ∃ buf', splice buf off data = Ok buf'.
Proof. intros. eexists. by apply splice_ok. Qed.

End Bytes.

(** ** The two interfaces *)

Import MemInit.

(** Sectors: [read_sectors] fills a buffer, [write_sectors] stores the first
    sectors of one. *)
Class Store (D : Type) := {
  read_sectors : Z → Z → D → res (list Z * D);
  write_sectors : Z → list Z → Z → D → res D
}.

(** The heap: [allocate] is [mem::Allocate], [None] for [nullptr]; the pool of
    a request that names none is that of the current thread. *)
Class Heap (H : Type) := {
  default_pool : PoolType;
  allocate : PoolType → Z → H → res (option Z * H);
  free : PoolType → Z → H → res H
}.

(** The sector [i] of a buffer. *)
Abbreviation chunk := Disk.chunk.

(** [sector_at d l] is what the sector [l] holds; the driver accepts the sectors
    below the last one. *)
Class StoreLaws (D : Type) `{Store D} := {
  sector_at : D → Z → list Z;
  store_ok : D → Prop;
  sector_at_length : ∀ d l, length (sector_at d l) = 512%nat;
  read_sectors_law : ∀ d start count,
    store_ok d → 0 < count → 0 ≤ start → start + count ≤ Disk.max_lba →
    ∃ d', read_sectors start count d = Ok (concat (sector_at d <$> seqZ start count), d')
      ∧ store_ok d' ∧ ∀ l, sector_at d' l = sector_at d l;
  write_sectors_law : ∀ d start data count,
    store_ok d → 0 < count → 0 ≤ start → start + count ≤ Disk.max_lba →
    512 * count ≤ Z.of_nat (length data) →
    ∃ d', write_sectors start data count d = Ok d' ∧ store_ok d'
      ∧ ∀ l, sector_at d' l = if (start <=? l) && (l <? start + count)
          then chunk data (l - start) else sector_at d l
}.

(** The largest buffer the file system asks for is that of [FormatPart]. *)
Definition max_request : Z := 0x4C000.

(** [heap_ok live n h]: the blocks in use are [live], each of its pool, and [n]
    more requests to the pools that are served will be granted; the pool of the
    kernel and that of the current thread are served. A block goes back to its
    own pool, once. *)
Class HeapLaws (H : Type) `{Heap H} := {
  serves : PoolType → Prop;
  serves_kernel : serves Kernel;
  serves_default : serves default_pool;
  heap_ok : gmap Z PoolType → nat → H → Prop;
  allocate_law : ∀ live n h p size,
    serves p → heap_ok live (S n) h → 0 < size ≤ max_request →
    ∃ a h', allocate p size h = Ok (Some a, h') ∧ live !! a = None ∧ heap_ok (<[a := p]> live) n h';
  free_law : ∀ live n h p a,
    heap_ok live n h → live !! a = Some p →
    ∃ h', free p a h = Ok h' ∧ heap_ok (delete a live) (S n) h'
}.

Existing Class serves.
#[export] Existing Instances serves_kernel serves_default.

(** ** Input, output and memory of the file system *)

Section io.
Context {D H : Type} `{Store D} `{Heap H}.

(** The disk and the heap. *)
Definition io : Type := (D * H)%type.

Definition ReadSectors (start count : Z) : M io (list Z) := λ x,
  '(data, d) ← read_sectors start count x.1; Ok (data, (d, x.2)).

Definition WriteSectors (start : Z) (data : list Z) (count : Z) : M io unit := λ x,
  d ← write_sectors start data count x.1; Ok (tt, (d, x.2)).

(** [mem::Allocate], then [mem::AssertAlloc]. *)
Definition new (p : PoolType) (size : Z) : M io Z := λ x,
  '(a, h) ← allocate p size x.2;
  match a with
  | Some a => Ok (a, (x.1, h))
  | None => Panic
  end.

(** [mem::Allocate] of a buffer nobody insists on. *)
Definition try_new (p : PoolType) (size : Z) : M io (option Z) := λ x,
  '(a, h) ← allocate p size x.2; Ok (a, (x.1, h)).

Definition delete_ (p : PoolType) (a : Z) : M io unit := λ x,
  h ← free p a x.2; Ok (tt, (x.1, h)).

Context `{!StoreLaws D} `{!HeapLaws H}.

Definition sector (x : io) (l : Z) : list Z := sector_at x.1 l.

(** The sectors of a range, one after the other. *)
Definition sectors (x : io) (start count : Z) : list Z := concat (sector x <$> seqZ start count).

Definition io_ok (live : gmap Z PoolType) (n : nat) (x : io) : Prop :=
  store_ok x.1 ∧ heap_ok live n x.2.

Definition same_sectors (x x' : io) : Prop := ∀ l, sector x' l = sector x l.

(** [x'] is [x] with [data] in the [count] sectors from [start]. *)
Definition stored (start : Z) (data : list Z) (count : Z) (x x' : io) : Prop :=
  ∀ l, sector x' l = if (start <=? l) && (l <? start + count)
    then chunk data (l - start) else sector x l.

Lemma length_sector x l : length (sector x l) = 512%nat.
Proof. apply sector_at_length. Qed.

Lemma length_fs_sectors x start count :
  0 ≤ count → Z.of_nat (length (sectors x start count)) = 512 * count.
Proof.
  intros Hc. unfold sectors. rewrite <- (Z2Nat.id count) at 2 by done. unfold seqZ.
  generalize (Z.to_nat count) as n; intros n. generalize 0%nat as k.
  induction n as [|n IH]; intros k; [done|]. cbn [seq fmap list_fmap concat].
  rewrite length_app, length_sector. cbn [fmap] in IH. specialize (IH (S k)). lia.
Qed.

Lemma sectors_same x x' start count : same_sectors x x' → sectors x' start count = sectors x start count.
Proof. intros Hs. unfold sectors. f_equal. apply list_fmap_ext. intros. apply Hs. Qed.

Lemma sectors_1 x l : sectors x l 1 = sector x l.
Proof. unfold sectors. simpl. by rewrite app_nil_r. Qed.

Lemma sectors_2 x l : sectors x l 2 = sector x l ++ sector x (l + 1).
Proof. unfold sectors. simpl. rewrite app_nil_r. do 2 f_equal; lia. Qed.

(** What a range holds after a write to it, and after a write elsewhere. *)
Lemma sectors_stored x x' start data count :
  0 ≤ count → 512 * count ≤ Z.of_nat (length data) → stored start data count x x' →
  sectors x' start count = take (Z.to_nat (512 * count)) data.
Proof.
  intros Hc Hl Hst. unfold sectors.
  rewrite <- (Disk.chunks_whole (take (Z.to_nat (512 * count)) data) count)
    by (rewrite length_take; lia).
  f_equal. rewrite <- (Z.add_0_r start) at 1. rewrite <- fmap_add_seqZ, <- list_fmap_compose.
  apply list_fmap_ext. intros i l Hi. apply lookup_seqZ in Hi as [-> Hi]. simpl.
  rewrite Hst, (proj2 (Z.leb_le _ _)), (proj2 (Z.ltb_lt _ _)) by lia. cbn [andb]. unfold Disk.chunk.
  replace (start + (0 + Z.of_nat i) - start) with (Z.of_nat i) by lia.
  replace (Z.to_nat (512 * count))
    with (Z.to_nat (512 * Z.of_nat i) + (Z.to_nat (512 * count) - Z.to_nat (512 * Z.of_nat i)))%nat by lia.
  rewrite <- take_drop_commute, take_take. f_equal. lia.
Qed.

Lemma sectors_elsewhere x x' start data count s c :
  stored start data count x x' → s + c ≤ start ∨ start + count ≤ s →
  sectors x' s c = sectors x s c.
Proof.
  intros Hst Hd. unfold sectors. f_equal. apply list_fmap_ext. intros i l Hi.
  apply lookup_seqZ in Hi as [-> Hi]. rewrite Hst.
  destruct (Z.leb_spec start (s + Z.of_nat i)), (Z.ltb_spec (s + Z.of_nat i) (start + count));
    (done || lia).
Qed.

(** The disk as a sequence of bytes. *)
Definition disk_byte (x : io) (p : Z) : option Z := sector x (p / 512) !! Z.to_nat (p mod 512).

(** The bytes [l] are on the disk from [p] on. *)
Definition bytes_from (x : io) (p : Z) (l : list Z) : Prop :=
  ∀ i v, l !! i = Some v → disk_byte x (p + Z.of_nat i) = Some v.

Lemma sectors_byte x s n i :
  0 ≤ n → (i < Z.to_nat (512 * n))%nat → sectors x s n !! i = disk_byte x (512 * s + Z.of_nat i).
Proof.
  intros Hn. rewrite <- (Z2Nat.id n) by done. generalize (Z.to_nat n) as k; intros k.
  revert s i. induction k as [|k IH]; intros s i Hi; [lia|].
  unfold sectors in *. replace (Z.of_nat (S k)) with (1 + Z.of_nat k) in * by lia.
  rewrite seqZ_cons by lia. replace (Z.pred (1 + Z.of_nat k)) with (Z.of_nat k) by lia.
  cbn [fmap list_fmap concat]. pose proof (length_sector x s) as Hl.
  destruct (decide (i < 512)%nat) as [Hlt|Hge].
  - rewrite lookup_app_l by lia. unfold disk_byte. f_equal; [|f_equal; div_lia].
    replace (Z.of_nat i mod 512) with (Z.of_nat i) by div_lia. f_equal; div_lia.
  - rewrite lookup_app_r, Hl by lia. rewrite (IH (Z.succ s)) by lia. f_equal. lia.
Qed.

Lemma stored_byte x x' start data count p :
  stored start data count x x' → 0 ≤ start → 512 * count ≤ Z.of_nat (length data) → 0 ≤ p →
  disk_byte x' p = if (512 * start <=? p) && (p <? 512 * (start + count))
    then data !! Z.to_nat (p - 512 * start) else disk_byte x p.
Proof.
  intros Hst Hs Hl Hp. unfold disk_byte. rewrite Hst.
  destruct (Z.leb_spec start (p / 512)), (Z.ltb_spec (p / 512) (start + count)),
    (Z.leb_spec (512 * start) p), (Z.ltb_spec p (512 * (start + count))); try div_lia; try done.
  cbn [andb]. unfold Disk.chunk. rewrite lookup_take_lt by div_lia. rewrite lookup_drop. f_equal. div_lia.
Qed.

Lemma same_byte x x' p : same_sectors x x' → disk_byte x' p = disk_byte x p.
Proof. intros Hs. unfold disk_byte. by rewrite Hs. Qed.

Lemma bytes_from_same x x' p l : same_sectors x x' → bytes_from x p l → bytes_from x' p l.
Proof. intros Hs Hb i v Hi. rewrite (same_byte x x') by done. by apply Hb. Qed.

(** What is read at the place of some bytes is these bytes. *)
Lemma bytes_from_slice x s n off l :
  0 ≤ n → 0 ≤ off → off + Z.of_nat (length l) ≤ 512 * n → bytes_from x (512 * s + off) l →
  take (length l) (drop (Z.to_nat off) (sectors x s n)) = l.
Proof.
  intros Hn Ho Hl Hb. pose proof (length_fs_sectors x s n Hn) as Hlen.
  apply list_eq_same_length with (n := length l); [done|rewrite length_take, length_drop; lia|].
  intros i v v' Hi Hv Hv'. rewrite lookup_take_lt, lookup_drop in Hv by done.
  rewrite sectors_byte in Hv by lia. specialize (Hb _ _ Hv').
  replace (512 * s + Z.of_nat (Z.to_nat off + i)) with (512 * s + off + Z.of_nat i) in Hv by lia.
  congruence.
Qed.

(** [x'] is [x] with [l] in the bytes from [p] on. *)
Definition patched (p : Z) (l : list Z) (x x' : io) : Prop :=
  ∀ q, 0 ≤ q → disk_byte x' q
    = if (p <=? q) && (q <? p + Z.of_nat (length l)) then l !! Z.to_nat (q - p) else disk_byte x q.

(** Reading some sectors into a buffer, copying bytes over them and writing them
    back changes these bytes only. *)
Lemma read_modify_write x x' s count off l buf buf1 buf2 :
  0 ≤ s → 0 ≤ count → 0 ≤ off → off + Z.of_nat (length l) ≤ 512 * count →
  512 * count ≤ Z.of_nat (length buf) →
  Bytes.splice buf 0 (sectors x s count) = Ok buf1 → Bytes.splice buf1 off l = Ok buf2 →
  stored s buf2 count x x' → patched (512 * s + off) l x x'.
Proof.
  intros Hs Hc Ho Hl Hb E1 E2 Hst q Hq. pose proof (length_fs_sectors x s count Hc) as Hlen.
  destruct (Bytes.splice_inv _ 0 _ _ ltac:(lia) E1) as [Hlen1 Hb1].
  destruct (Bytes.splice_inv _ off _ _ Ho E2) as [Hlen2 Hb2].
  rewrite (stored_byte _ _ _ _ _ q Hst Hs) by lia.
  destruct (Z.leb_spec (512 * s) q), (Z.ltb_spec q (512 * (s + count))); cbn [andb].
  2-4: destruct (Z.leb_spec (512 * s + off) q),
    (Z.ltb_spec q (512 * s + off + Z.of_nat (length l))); (done || lia).
  rewrite Hb2. destruct (decide _) as [Hd|Hd].
  - destruct (Z.leb_spec (512 * s + off) q), (Z.ltb_spec q (512 * s + off + Z.of_nat (length l)));
      try lia. cbn [andb]. f_equal. lia.
  - rewrite Hb1, decide_True by lia. rewrite sectors_byte by lia.
    destruct (Z.leb_spec (512 * s + off) q), (Z.ltb_spec q (512 * s + off + Z.of_nat (length l)));
      try lia; cbn [andb]; f_equal; lia.
Qed.

Lemma patched_from p l x x' : 0 ≤ p → patched p l x x' → bytes_from x' p l.
Proof.
  intros Hp Hpt i v Hi. pose proof (lookup_lt_Some _ _ _ Hi). rewrite Hpt by lia.
  rewrite (proj2 (Z.leb_le _ _)), (proj2 (Z.ltb_lt _ _)) by lia. cbn [andb].
  by replace (Z.to_nat (p + Z.of_nat i - p)) with i by lia.
Qed.

(** Bytes elsewhere stay. *)
Lemma patched_keeps p l x x' q l' :
  0 ≤ q → patched p l x x' → q + Z.of_nat (length l') ≤ p ∨ p + Z.of_nat (length l) ≤ q →
  bytes_from x q l' → bytes_from x' q l'.
Proof.
  intros Hq Hpt Hd Hb i v Hi. pose proof (lookup_lt_Some _ _ _ Hi). rewrite Hpt by lia.
  destruct (Z.leb_spec p (q + Z.of_nat i)), (Z.ltb_spec (q + Z.of_nat i) (p + Z.of_nat (length l)));
    try lia; by apply Hb.
Qed.

(** Sectors elsewhere stay. *)
Lemma patched_sector x x' p l s :
  0 ≤ s → patched p l x x' → 512 * (s + 1) ≤ p ∨ p + Z.of_nat (length l) ≤ 512 * s → sector x' s = sector x s.
Proof.
  intros Hs Hp Hd. apply list_eq_same_length with (n := 512%nat); [apply length_sector|apply length_sector|].
  intros i v v' Hi Hv Hv'. specialize (Hp (512 * s + Z.of_nat i) ltac:(lia)).
  unfold disk_byte in Hp. replace ((512 * s + Z.of_nat i) / 512) with s in Hp by div_lia.
  replace (Z.to_nat ((512 * s + Z.of_nat i) mod 512)) with i in Hp by div_lia.
  rewrite (proj2 (andb_false_iff _ _)) in Hp; [congruence|].
  destruct (Z.leb_spec p (512 * s + Z.of_nat i)); [right; apply Z.ltb_ge; lia|by left].
Qed.

Lemma ReadSectors_runs live n x start count :
  io_ok live n x → 0 < count → 0 ≤ start → start + count ≤ 163839 →
  runs (ReadSectors start count) x (λ data x',
    data = sectors x start count ∧ io_ok live n x' ∧ same_sectors x x').
Proof.
  intros [Hd Hh] Hc Hs Hm.
  destruct (read_sectors_law x.1 start count Hd Hc Hs) as (d' & E & Hd' & Hsame).
  { exact Hm. }
  eexists _, _. unfold ReadSectors. rewrite E. split; [reflexivity|]. done.
Qed.

Lemma WriteSectors_runs live n x start data count :
  io_ok live n x → 0 < count → 0 ≤ start → start + count ≤ 163839 →
  512 * count ≤ Z.of_nat (length data) →
  runs (WriteSectors start data count) x (λ _ x',
    io_ok live n x' ∧ stored start data count x x').
Proof.
  intros [Hd Hh] Hc Hs Hm Hl.
  destruct (write_sectors_law x.1 start data count Hd Hc Hs) as (d' & E & Hd' & Hst).
  { exact Hm. } { done. }
  eexists _, _. unfold WriteSectors. rewrite E. split; [reflexivity|]. done.
Qed.

Lemma new_runs live n x p `{Hp : !serves p} size :
  io_ok live (S n) x → 0 < size ≤ max_request →
  runs (new p size) x (λ a x',
    live !! a = None ∧ io_ok (<[a := p]> live) n x' ∧ same_sectors x x').
Proof.
  intros [Hd Hh] Hs. destruct (allocate_law _ _ _ p size Hp Hh Hs) as (a & h' & E & Ha & Hh').
  eexists _, _. unfold new. rewrite E. split; [reflexivity|]. done.
Qed.

Lemma try_new_runs live n x p `{Hp : !serves p} size :
  io_ok live (S n) x → 0 < size ≤ max_request →
  runs (try_new p size) x (λ a x',
    ∃ b, a = Some b ∧ live !! b = None ∧ io_ok (<[b := p]> live) n x' ∧ same_sectors x x').
Proof.
  intros [Hd Hh] Hs. destruct (allocate_law _ _ _ p size Hp Hh Hs) as (a & h' & E & Ha & Hh').
  eexists _, _. unfold try_new. rewrite E. split; [reflexivity|]. by exists a.
Qed.

Lemma delete_runs live n x p a :
  io_ok live n x → live !! a = Some p →
  runs (delete_ p a) x (λ _ x', io_ok (delete a live) (S n) x' ∧ same_sectors x x').
Proof.
  intros [Hd Hh] Ha. destruct (free_law _ _ _ _ _ Hh Ha) as (h' & E & Hh').
  eexists _, _. unfold delete_. rewrite E. split; [reflexivity|]. done.
Qed.

Lemma same_sectors_refl x : same_sectors x x.
Proof. done. Qed.
Lemma same_sectors_trans x y z : same_sectors x y → same_sectors y z → same_sectors x z.
Proof. intros Hxy Hyz l. by rewrite Hyz. Qed.
End io.

#[global] Arguments io : clear implicits.

(** ** The disk driver is such a store, on a prompt device *)

#[export] Instance disk_store {S} `{AtaDevice S} : Store (Disk.t * (IdeChnl.t * S)) := {
  read_sectors start count d :=
    '(data, x) ← Disk.ReadSectors d.1 start count d.2; Ok (data, (d.1, x));
  write_sectors start data count d :=
    x ← Disk.WriteSectors d.1 start data count d.2; Ok (d.1, x)
}.

#[export] Instance disk_store_laws {base S} `{AtaDevice S} `{!AtaLaws base S} `{!Prompt base S} :
    StoreLaws (Disk.t * (IdeChnl.t * S)).
Proof.
  refine {|
    sector_at d l := IoDisk.sector d.2.2 (Disk.slave d.1) l;
    store_ok d := Disk.ide_chnl_ d.1 = true ∧ IdeChnl.ok base d.2.1 |}.
  - intros. apply IoDisk.sector_length.
  - intros [dk [c s]] start count [Hd Hok] Hc Hs Hm. cbn [fst snd] in *.
    destruct (Disk.ReadSectors_ok base dk start count c s Hd Hok Hc Hs Hm ltac:(by right))
      as (c' & s' & E & Hok' & Hsame).
    exists (dk, (c', s')). cbn [read_sectors disk_store fst snd]. rewrite E. done.
  - intros [dk [c s]] start data count [Hd Hok] Hc Hs Hm Hl. cbn [fst snd] in *.
    destruct (Disk.WriteSectors_ok base dk start data count c s Hd Hok Hc Hs Hm Hl ltac:(by right))
      as (c' & s' & E & Hok' & Hst).
    exists (dk, (c', s')). cbn [write_sectors disk_store fst snd]. rewrite E.
    split; [done|]. split; [done|]. intros l. cbn [fst snd].
    rewrite Hst, bool_decide_eq_true_2 by done. done.
Defined.

(** ** A disk and a heap in memory

    The simplest implementations, for concrete runs. *)
Module Ram.

Abbreviation disk := (gmap Z (list Z)).

Definition at_ (d : disk) (l : Z) : list Z := take 512 (default [] (d !! l) ++ replicate 512 0).

Definition in_reach (start count : Z) : bool :=
  (0 <? count) && (0 <=? start) && (start + count <=? Disk.max_lba).

Fixpoint store_from (n : nat) (l : Z) (data : list Z) (d : disk) : disk :=
  match n with
  | O => d
  | S n' => <[l := take 512 data]> (store_from n' (l + 1) (drop 512 data) d)
  end.

#[export] Instance ram_store : Store disk := {
  read_sectors start count d :=
    Assert (in_reach start count);; Ok (concat (at_ d <$> seqZ start count), d);
  write_sectors start data count d :=
    Assert (in_reach start count && (512 * count <=? Z.of_nat (length data)));;
    Ok (store_from (Z.to_nat count) start data d)
}.

Lemma at_512 d l : length (at_ d l) = 512%nat.
Proof. unfold at_. rewrite length_take, length_app, length_replicate. lia. Qed.

Lemma store_from_lookup n l data d l' :
  (512 * n ≤ length data)%nat →
  at_ (store_from n l data d) l'
  = if (l <=? l') && (l' <? l + Z.of_nat n) then chunk data (l' - l) else at_ d l'.
Proof.
  revert l data. induction n as [|n IH]; intros l data Hlen.
  { simpl. destruct (Z.leb_spec l l'), (Z.ltb_spec l' (l + Z.of_nat 0)); try done; lia. }
  simpl store_from. destruct (decide (l' = l)) as [->|Hne].
  - unfold at_. rewrite lookup_insert_eq. simpl default.
    rewrite (proj2 (Z.leb_le l l)), (proj2 (Z.ltb_lt l _)) by lia. simpl. unfold Disk.chunk.
    rewrite Z.sub_diag. simpl drop. rewrite take_app_le, take_take by (rewrite length_take; lia).
    by rewrite Nat.min_id.
  - unfold at_ at 1. rewrite lookup_insert_ne by done. fold (at_ (store_from n (l + 1) (drop 512 data) d) l').
    rewrite IH by (rewrite length_drop; lia).
    destruct (Z.leb_spec (l + 1) l'), (Z.leb_spec l l'), (Z.ltb_spec l' (l + 1 + Z.of_nat n)),
      (Z.ltb_spec l' (l + Z.of_nat (S n))); try lia; try done.
    simpl. unfold Disk.chunk. rewrite drop_drop. f_equal. f_equal. lia.
Qed.

#[export] Instance ram_store_laws : StoreLaws disk.
Proof.
  refine {| sector_at := at_; store_ok _ := True |}.
  - apply at_512.
  - intros d start count _ Hc Hs Hm. exists d. cbn [read_sectors ram_store]. unfold in_reach.
    rewrite (proj2 (Z.ltb_lt _ _)), !(proj2 (Z.leb_le _ _)) by done. done.
  - intros d start data count _ Hc Hs Hm Hl. eexists. cbn [write_sectors ram_store]. unfold in_reach.
    rewrite (proj2 (Z.ltb_lt _ _)), !(proj2 (Z.leb_le _ _)) by done.
    split; [reflexivity|]. split; [done|]. intros l. rewrite store_from_lookup by lia.
    by rewrite Z2Nat.id by lia.
Defined.

(** Blocks are never used again: the next one, and those in use. *)
Record heap := mk_heap { next : Z; used : gmap Z PoolType }.
#[export] Instance pool_type_eq_dec : EqDecision PoolType.
Proof. solve_decision. Defined.

#[export] Instance ram_heap : Heap heap := {
  default_pool := MemInit.Kernel;
  allocate p size h :=
    Assert (0 <? size);; Ok (Some (next h), mk_heap (next h + size) (<[next h := p]> (used h)));
  free p a h :=
    if bool_decide (used h !! a = Some p) then Ok (mk_heap (next h) (delete a (used h))) else Fault
}.

#[export] Instance ram_heap_laws : HeapLaws heap.
Proof.
  refine {| serves _ := True; heap_ok live _ h := used h = live ∧ ∀ a, is_Some (live !! a) → a < next h |}.
  - done.
  - done.
  - intros live n h p size _ [Hu Hlt] [Hs _]. exists (next h). eexists. cbn [allocate ram_heap].
    rewrite (proj2 (Z.ltb_lt _ _)) by done. split; [reflexivity|]. split; [|split].
    + apply eq_None_not_Some. intros Ha. specialize (Hlt _ Ha). lia.
    + simpl. by rewrite Hu.
    + intros a Ha. simpl. destruct (decide (a = next h)) as [->|]; [lia|].
      rewrite lookup_insert_ne in Ha by done. specialize (Hlt _ Ha). lia.
  - intros live n h p a [Hu Hlt] Ha. eexists. cbn [free ram_heap].
    rewrite bool_decide_eq_true_2 by (by rewrite Hu). split; [reflexivity|]. split.
    + simpl. by rewrite Hu.
    + intros b Hb. simpl. apply Hlt. destruct (decide (b = a)) as [->|].
      * by rewrite lookup_delete_eq in Hb.
      * by rewrite lookup_delete_ne in Hb.
Defined.

Definition fresh : io disk heap := (∅, mk_heap 0x1000 ∅).

Lemma fresh_ok n : io_ok ∅ n fresh.
Proof. split; [done|]. split; [done|]. intros a [x Hx]. by rewrite lookup_empty in Hx. Qed.

End Ram.
