(* ===== verification/IoPart.v ===== *)
(** * Partitions and the scan of a disk

    [Part] models [Disk::Part] of src/include/kernel/io/disk/disk.h and
    src/src/kernel/io/disk/part.cpp; [PartScan] the boot records and
    [Disk::ScanParts] of src/src/kernel/io/disk/disk.cpp, which follows the
    extended boot records of a disk and registers its partitions. *)
From S2P Require Import Prelude UtilBit UtilBitmap StlString UtilFormat MemPool IoDisk FsBase.

Module Part.
Import string_view.

Definition name_len : Z := 8.

(** [disk_] says whether the partition is on a disk. *)
Record t := mk { start_lba_ : Z; sector_count_ : Z; name_ : list Z; disk_ : bool }.

Definition init : t := mk 0 0 (replicate 9 0) false.

Definition GetName (p : t) : res string_view.t := of_cptr (Some (name_ p)).
Definition GetStartLba (p : t) : Z := start_lba_ p.
Definition GetSectorCount (p : t) : Z := sector_count_ p.

Definition SetName (name : string_view.t) (p : t) : res t :=
  arr ← (if empty name then cstring.memset (Some (name_ p)) 0 9
         else cstring.strcpy_s (Some (name_ p)) 9 (data name));
  Ok (mk (start_lba_ p) (sector_count_ p) arr (disk_ p)).

(** The assertion of [GetDisk]. *)
Definition GetDisk (p : t) : res unit := Assert (disk_ p).

Definition IsValid (p : t) : bool := disk_ p && (0 <? sector_count_ p).

End Part.

Module PartScan.
Import Bytes.

(** ** The boot record *)

Definition Empty : Z := 0.
Definition ExtPart : Z := 5.
Definition end_sig : Z := 0xAA55.
Definition data_size : Z := 446.

(** The fields of [PartTabEntry] that are read. *)
Record PartTabEntry := mk_entry { type : Z; start_lba : Z; sector_count : Z }.

(** The entry at an offset of a boot record, and the signature at its end. *)
Definition entry_at (rec : list Z) (off : nat) : PartTabEntry :=
  let bs := drop off rec in
  mk_entry (default 0 (bs !! 4%nat)) (get32 (drop 8 bs)) (get32 (drop 12 bs)).

Definition parts (rec : list Z) : list PartTabEntry :=
  (λ i, entry_at rec (446 + 16 * i)%nat) <$> seq 0 4.

Definition sig (rec : list Z) : Z :=
  default 0 (rec !! 510%nat) + default 0 (rec !! 511%nat) * 2 ^ 8.

(** ** The scan *)

(** A partition of the disk, for its tag in the list of partitions. *)
Inductive part_ref := Prim (idx : nat) | Logic (idx : nat).

(** The static variables of [ScanParts], the partitions of the disk and those
    it adds to [GetDiskParts()], in order. *)
Record state := mk {
  ext_lba_base : Z; prim_idx : Z; logic_idx : Z;
  prim_parts_ : list Part.t; logic_parts_ : list Part.t;
  disk_parts : list part_ref
}.

Definition IsInExtPart (st : state) : bool := negb (ext_lba_base st =? 0).

Definition reset (st : state) : state :=
  mk 0 0 0 (prim_parts_ st) (logic_parts_ st) (disk_parts st).
Definition set_ext_lba_base (lba : Z) (st : state) : state :=
  mk lba (prim_idx st) (logic_idx st) (prim_parts_ st) (logic_parts_ st) (disk_parts st).

(** The name of a partition: that of the disk and a number. *)
Definition part_name (disk_name : list Z) (num : Z) : res (list Z) :=
  '(buf, _) ← Format.FormatStringBuffer (zeros 8) (string_view.literal [123; 125; 123; 125])
    [Format.AStr (Some disk_name); Format.AUInt num];
  Ok buf.

(** The fields set for a partition that was found. *)
Definition found_part (disk_name : list Z) (start count num : Z) (p : Part.t) : res Part.t :=
  let p := Part.mk start count (Part.name_ p) true in
  buf ← part_name disk_name num;
  name ← string_view.of_cptr (Some buf);
  Part.SetName name p.

Definition add_logic (disk_name : list Z) (lba : Z) (e : PartTabEntry) (st : state) : res state :=
  let i := Z.to_nat (logic_idx st) in
  p ← of_option (logic_parts_ st !! i);
  p ← found_part disk_name (lba +w start_lba e) (sector_count e)
        (logic_idx st +w 1 +w Disk.prim_part_count) p;
  Ok (mk (ext_lba_base st) (prim_idx st) (logic_idx st +w 1) (prim_parts_ st)
        (<[i := p]> (logic_parts_ st)) (disk_parts st ++ [Logic i])).

Definition add_prim (disk_name : list Z) (lba : Z) (e : PartTabEntry) (st : state) : res state :=
  let i := Z.to_nat (prim_idx st) in
  p ← of_option (prim_parts_ st !! i);
  p ← found_part disk_name (lba +w start_lba e) (sector_count e) (prim_idx st +w 1) p;
  Ok (mk (ext_lba_base st) (prim_idx st +w 1) (logic_idx st) (<[i := p]> (prim_parts_ st))
        (logic_parts_ st) (disk_parts st ++ [Prim i])).

Section scan.
Context {D H : Type} `{Store D} `{Heap H}.

Definition world : Type := (io D H * state)%type.
Definition on_io {A} (m : M (io D H) A) : M world A := zoom fst (λ x w, (x, w.2)) m.
Definition get_state : M world state := gets snd.
Definition put_state (st : state) : M world unit := modify (λ w, (w.1, st)).

(** One entry of the table of the boot record at [lba]; [rec] scans another. *)
Definition scan_entry (disk_name : list Z) (rec : Z → M world unit) (lba : Z)
    (e : PartTabEntry) : M world unit :=
  st ← get_state;
  if type e =? ExtPart then
    if IsInExtPart st then rec (ext_lba_base st +w start_lba e)
    else put_state (set_ext_lba_base (start_lba e) st);; rec (start_lba e)
  else if negb (type e =? Empty) then
    st ← lift (if IsInExtPart st then add_logic disk_name lba e st else add_prim disk_name lba e st);
    put_state st
  else mret tt.

Fixpoint scan_entries (disk_name : list Z) (rec : Z → M world unit) (lba : Z)
    (es : list PartTabEntry) : M world unit :=
  match es with
  | [] => mret tt
  | e :: es' => scan_entry disk_name rec lba e;; scan_entries disk_name rec lba es'
  end.

(** [ScanParts(lba, new_disk)]. The records of a disk can form a cycle without
    logical partitions, on which the code does not return; [fuel] bounds the
    depth of its recursion. *)
Fixpoint ScanParts_at (fuel : nat) (disk_name : list Z) (lba : Z) (new_disk : bool) :
    M world unit :=
  match fuel with
  | O => lift NoFuel
  | S fuel' =>
      (if new_disk then modify (λ w, (w.1, reset w.2)) else mret tt);;
      st ← get_state;
      assert (prim_idx st <? Disk.prim_part_count);;
      if Disk.max_logic_part_count <=? logic_idx st then mret tt
      else
        boot_record ← on_io (new default_pool 512);
        rec ← on_io (ReadSectors lba 1);
        assert (sig rec =? end_sig);;
        scan_entries disk_name (λ l, ScanParts_at fuel' disk_name l false) lba (parts rec);;
        on_io (delete_ default_pool boot_record)
  end.

(** One call for the master boot record, one for each of eight logical
    partitions, and one that finds that there is no room for another. *)
Definition scan_fuel : nat := 10.
Definition ScanParts (disk_name : list Z) : M world unit := ScanParts_at scan_fuel disk_name 0 true.

End scan.
#[global] Arguments world : clear implicits.

(** ** Names *)

(** The partition [p] is the one found at [start], named [s] and [num]. *)
Definition registered (s : list Z) (num : Z) (pc : Z * Z) (p : Part.t) : Prop :=
  Part.start_lba_ p = pc.1 ∧ Part.sector_count_ p = pc.2 ∧ Part.disk_ p = true
  ∧ cstring.holds (Part.name_ p) (s ++ Format.dec num) ∧ length (Part.name_ p) = 9%nat.

Lemma dec_short num : 0 ≤ num < 13 → (0 < length (Format.dec num) ≤ 2)%nat ∧ 0 ∉ Format.dec num.
Proof.
  assert (Hall : Forall (λ k, (0 < length (Format.dec k) ≤ 2)%nat ∧ 0 ∉ Format.dec k) (seqZ 0 13))
    by (apply (bool_decide_unpack _); vm_compute; exact I).
  intros Hn. rewrite Forall_forall in Hall. apply Hall, elem_of_seqZ. lia.
Qed.

Lemma part_name_ok dname s num :
  cstring.holds dname s → (length s ≤ 5)%nat → 0 ≤ num < 13 →
  ∃ buf, part_name dname num = Ok buf ∧ cstring.holds buf (s ++ Format.dec num).
Proof.
  intros Hs Hl Hn. destruct (dec_short num Hn) as [Hd Hz].
  set (v := string_view.literal [123; 125; 123; 125]).
  assert (Hv : string_view.shows v [123; 125; 123; 125])
    by (split; [done|split; [by apply (bool_decide_unpack _)|by exists []]]).
  assert (Hr : Format.render [123; 125; 123; 125] [s; Format.dec num] = s ++ Format.dec num)
    by (simpl; by rewrite app_nil_r).
  destruct (Format.impl_writes [Format.AStr (Some dname); Format.AUInt num] [s; Format.dec num])
    with (v := v) (s := [123; 125; 123; 125]) (buf := zeros 8) as (rest & E & Hlen & Hrest).
  - constructor; [by constructor|]. constructor; [constructor; lia|constructor].
  - exact Hv.
  - simpl. lia.
  - rewrite Hr, length_app. change (length (zeros 8)) with 8%nat. lia.
  - rewrite Hr in E, Hlen. unfold part_name, Format.FormatStringBuffer. fold v.
    change (string_view.empty v) with false. simpl Assert. rewrite res_bind_ok, E, res_bind_ok.
    eexists. split; [reflexivity|]. split.
    + rewrite elem_of_app. intros [H0|H0]; [by destruct Hs|done].
    + destruct rest as [|r rest].
      * change (length (zeros 8)) with 8%nat in Hlen. rewrite !length_app in Hlen. simpl in Hlen. lia.
      * assert (Forall (λ c, c = 0) (r :: rest)) as [-> _]%Forall_cons; [|by exists rest].
        apply Hrest. by apply Forall_replicate.
Qed.

Lemma found_part_ok dname s start count num p :
  cstring.holds dname s → (length s ≤ 5)%nat → 0 ≤ num < 13 → length (Part.name_ p) = 9%nat →
  ∃ p', found_part dname start count num p = Ok p' ∧ registered s num (start, count) p'.
Proof.
  intros Hs Hl Hn Hp. destruct (dec_short num Hn) as [Hd Hz].
  destruct (part_name_ok dname s num Hs Hl Hn) as (buf & E & Hb).
  unfold found_part. rewrite E, res_bind_ok.
  destruct (string_view.of_cptr_ok buf _ Hb) as (v & Ev & Hstr & Hv). rewrite Ev, res_bind_ok.
  unfold Part.SetName. rewrite (string_view.shows_empty v _ Hv), bool_decide_eq_false_2.
  2:{ intros H0%(f_equal length). rewrite length_app in H0. simpl in H0. lia. }
  unfold string_view.data. rewrite Hstr. cbn [Part.name_].
  rewrite (cstring.strcpy_s_ok _ buf _ 9 Hb) by (rewrite Hp; lia).
  rewrite take_ge by (rewrite length_app; simpl; lia). rewrite res_bind_ok.
  eexists. split; [reflexivity|]. split_and!; try done; cbn [Part.name_].
  - split; [by destruct Hb|]. by eexists.
  - rewrite length_app. cbn [length]. rewrite length_drop, Hp, length_app. lia.
Qed.

(** ** The partitions of a disk *)

Section layout.
Context {D H : Type} `{Store D} `{Heap H} `{!StoreLaws D} `{!HeapLaws H}.

Definition is_part (e : PartTabEntry) : Prop := type e ≠ Empty ∧ type e ≠ ExtPart.

(** The boot record at [lba] has these entries. *)
Definition record (x : io D H) (lba : Z) (es : list PartTabEntry) : Prop :=
  0 ≤ lba < 163838 ∧ sig (sector x lba) = end_sig ∧ parts (sector x lba) = es.

(** The extended boot records from [lba] on, in the extended partition at
    [base]: each has the logical partition behind it, then the next record. *)
Inductive ebr_chain (x : io D H) (base : Z) : Z → list (Z * Z) → Prop :=
| ebr_last lba e e1 e2 e3 :
    record x lba [e; e1; e2; e3] → is_part e → Forall (λ e, type e = Empty) [e1; e2; e3] →
    ebr_chain x base lba [(lba +w start_lba e, sector_count e)]
| ebr_next lba e n e2 e3 ls :
    record x lba [e; n; e2; e3] → is_part e → type n = ExtPart →
    Forall (λ e, type e = Empty) [e2; e3] →
    ebr_chain x base (base +w start_lba n) ls →
    ebr_chain x base lba ((lba +w start_lba e, sector_count e) :: ls).

(** The master boot record: primary partitions, then perhaps an extended one. *)
Inductive disk_layout (x : io D H) : list (Z * Z) → list (Z * Z) → Prop :=
| layout_prim ps es :
    record x 0 (ps ++ es) → Forall is_part ps → Forall (λ e, type e = Empty) es →
    disk_layout x ((λ e, (u32 (start_lba e), sector_count e)) <$> ps) []
| layout_ext ps e es ls :
    record x 0 (ps ++ e :: es) → Forall is_part ps → type e = ExtPart → start_lba e ≠ 0 →
    Forall (λ e, type e = Empty) es → ebr_chain x (start_lba e) (start_lba e) ls →
    disk_layout x ((λ e, (u32 (start_lba e), sector_count e)) <$> ps) ls.

(** [st] is [st0] after primary partitions [ps] and logical ones [ls] of the disk
    [s] were found, in an extended partition at [base], 0 for none yet. *)
Record scanned (s : list Z) (st0 : state) (base : Z) (ps ls : list (Z * Z)) (st : state) : Prop := {
  scanned_base : ext_lba_base st = base;
  scanned_prim_idx : prim_idx st = Z.of_nat (length ps);
  scanned_logic_idx : logic_idx st = Z.of_nat (length ls);
  scanned_prim_len : length (prim_parts_ st) = 4%nat;
  scanned_logic_len : length (logic_parts_ st) = 8%nat;
  scanned_prim : ∀ i pc, ps !! i = Some pc →
    ∃ p, prim_parts_ st !! i = Some p ∧ registered s (Z.of_nat i + 1) pc p;
  scanned_prim_rest : ∀ i, (length ps ≤ i)%nat → prim_parts_ st !! i = prim_parts_ st0 !! i;
  scanned_logic : ∀ i pc, ls !! i = Some pc →
    ∃ p, logic_parts_ st !! i = Some p ∧ registered s (Z.of_nat i + 5) pc p;
  scanned_logic_rest : ∀ i, (length ls ≤ i)%nat → logic_parts_ st !! i = logic_parts_ st0 !! i;
  scanned_tags : disk_parts st
    = disk_parts st0 ++ (Prim <$> seq 0 (length ps)) ++ (Logic <$> seq 0 (length ls))
}.

(** The arrays of a disk before a scan. *)
Definition blank (st : state) : Prop :=
  length (prim_parts_ st) = 4%nat ∧ length (logic_parts_ st) = 8%nat
  ∧ Forall (λ p, length (Part.name_ p) = 9%nat) (prim_parts_ st ++ logic_parts_ st).

Context (dname s : list Z) (Hname : cstring.holds dname s) (Hshort : (length s ≤ 5)%nat).

Lemma reset_scanned st : blank st → scanned s st 0 [] [] (reset st).
Proof. intros (? & ? & _). split; try done. simpl. by rewrite app_nil_r. Qed.

Lemma add_prim_ok st0 st lba e ps :
  blank st0 → scanned s st0 0 ps [] st → (length ps < 4)%nat →
  ∃ st', add_prim dname lba e st = Ok st'
    ∧ scanned s st0 0 (ps ++ [(lba +w start_lba e, sector_count e)]) [] st'.
Proof.
  intros (Hp0 & Hl0 & Hn) [Eb Ep El Lp Ll Hp Hpr Hl Hlr Ht] Hlen. unfold add_prim.
  rewrite Ep, Nat2Z.id.
  destruct (lookup_lt_is_Some_2 (prim_parts_ st) (length ps)) as [p Hpl]; [lia|].
  rewrite Hpl. simpl of_option. rewrite res_bind_ok.
  assert (Hn9 : length (Part.name_ p) = 9%nat).
  { rewrite Forall_app in Hn. destruct Hn as [Hn _]. rewrite Hpr in Hpl by done.
    by eapply (Forall_lookup_1 _ _ _ _ Hn). }
  rewrite !u32_small by lia.
  destruct (found_part_ok dname s (lba +w start_lba e) (sector_count e) (Z.of_nat (length ps) + 1) p
    Hname Hshort ltac:(lia) Hn9) as (p' & E & Hreg).
  rewrite E, res_bind_ok. eexists. split; [reflexivity|]. split; simpl; try done.
  - rewrite length_app. simpl. lia.
  - by rewrite length_insert.
  - intros i pc Hi. destruct (decide (i = length ps)) as [->|Hne].
    + rewrite list_lookup_insert_eq by (apply lookup_lt_Some in Hpl; lia).
      rewrite lookup_app_r, Nat.sub_diag in Hi by done. simplify_eq/=. eauto.
    + rewrite list_lookup_insert_ne by done. apply Hp.
      pose proof (lookup_lt_Some _ _ _ Hi) as Hlt. rewrite length_app in Hlt. simpl in Hlt.
      by rewrite lookup_app_l in Hi by lia.
  - intros i Hi. rewrite length_app in Hi. simpl in Hi.
    rewrite list_lookup_insert_ne by lia. apply Hpr. lia.
  - rewrite Ht. simpl. rewrite length_app, seq_app, fmap_app, !app_nil_r. simpl. by rewrite app_assoc.
Qed.

Lemma add_logic_ok st0 st base lba e ps ls :
  blank st0 → scanned s st0 base ps ls st → (length ls < 8)%nat →
  ∃ st', add_logic dname lba e st = Ok st'
    ∧ scanned s st0 base ps (ls ++ [(lba +w start_lba e, sector_count e)]) st'.
Proof.
  intros (Hp0 & Hl0 & Hn) [Eb Ep El Lp Ll Hp Hpr Hl Hlr Ht] Hlen. unfold add_logic.
  rewrite El, Nat2Z.id.
  destruct (lookup_lt_is_Some_2 (logic_parts_ st) (length ls)) as [p Hpl]; [lia|].
  rewrite Hpl. simpl of_option. rewrite res_bind_ok.
  assert (Hn9 : length (Part.name_ p) = 9%nat).
  { rewrite Forall_app in Hn. destruct Hn as [_ Hn]. rewrite Hlr in Hpl by done.
    by eapply (Forall_lookup_1 _ _ _ _ Hn). }
  change Disk.prim_part_count with 4. rewrite (u32_small (Z.of_nat (length ls) + 1)), (u32_small (Z.of_nat (length ls) + 1 + 4)) by lia.
  destruct (found_part_ok dname s (lba +w start_lba e) (sector_count e) (Z.of_nat (length ls) + 1 + 4) p
    Hname Hshort ltac:(lia) Hn9) as (p' & E & Hreg).
  rewrite E, res_bind_ok. eexists. split; [reflexivity|]. split; simpl; try done.
  - rewrite length_app. simpl. lia.
  - by rewrite length_insert.
  - intros i pc Hi. destruct (decide (i = length ls)) as [->|Hne].
    + rewrite list_lookup_insert_eq by (apply lookup_lt_Some in Hpl; lia).
      rewrite lookup_app_r, Nat.sub_diag in Hi by done. simplify_eq/=.
      exists p'. split; [done|]. by replace (Z.of_nat (length ls) + 5) with (Z.of_nat (length ls) + 1 + 4) by lia.
    + rewrite list_lookup_insert_ne by done. apply Hl.
      pose proof (lookup_lt_Some _ _ _ Hi) as Hlt. rewrite length_app in Hlt. simpl in Hlt.
      by rewrite lookup_app_l in Hi by lia.
  - intros i Hi. rewrite length_app in Hi. simpl in Hi.
    rewrite list_lookup_insert_ne by lia. apply Hlr. lia.
  - rewrite Ht, length_app, seq_app, fmap_app. simpl. by rewrite <- !app_assoc.
Qed.

(** ** The scan *)

Lemma runs_on_io {A} (m : M (io D H) A) (x : io D H) (st : state) P (Q : A → world D H → Prop) :
  runs m x P → (∀ a x', P a x' → Q a (x', st)) → runs (on_io m) (x, st) Q.
Proof. intros Hm HQ. eapply runs_zoom; [exact Hm|]. intros a v Ha. by apply HQ. Qed.

Lemma scan_cons rec lba e es (w : world D H) (P Q : unit → world D H → Prop) :
  runs (scan_entry dname rec lba e) w P →
  (∀ w', P tt w' → runs (scan_entries dname rec lba es) w' Q) →
  runs (scan_entries dname rec lba (e :: es)) w Q.
Proof. intros He Hes. cbn [scan_entries]. eapply runs_step; [exact He|]. by intros []. Qed.

Lemma scan_empty rec lba es (w : world D H) (Q : unit → world D H → Prop) :
  Forall (λ e, type e = Empty) es → Q tt w → runs (scan_entries dname rec lba es) w Q.
Proof.
  intros Hes HQ. induction Hes as [|e es He Hes IH]; [by apply runs_ret|].
  cbn [scan_entries]. unfold scan_entry at 1, get_state. apply bind_assoc, bind_gets.
  rewrite He. by apply bind_ret.
Qed.

(** An entry that is a partition is added where the scan is. *)
Lemma scan_part (rec : Z → M (world D H) unit) lba e (x : io D H) st st' (Q : unit → world D H → Prop) :
  is_part e →
  (if IsInExtPart st then add_logic dname lba e st else add_prim dname lba e st) = Ok st' →
  Q tt (x, st') → runs (scan_entry dname rec lba e) (x, st) Q.
Proof.
  intros [He1 He2] E HQ. unfold scan_entry, get_state. apply bind_gets.
  destruct (Z.eqb_spec (type e) ExtPart); [done|]. destruct (Z.eqb_spec (type e) Empty); [done|].
  cbn [negb]. apply (bind_lift _ st' _ _ _ E). by apply runs_modify.
Qed.

(** The scan of one boot record: a block for it, its entries, the block back. *)
Lemma visit_record (x : io D H) lba es (new_disk : bool) fuel n live (x1 : io D H) st (Q : state → Prop) :
  let st1 := if new_disk then reset st else st in
  record x lba es → same_sectors x x1 → io_ok live (S fuel + n) x1 →
  prim_idx st1 < 4 → logic_idx st1 < 8 →
  (∀ live' (x2 : io D H), same_sectors x x2 → io_ok live' (fuel + n) x2 →
    runs (scan_entries dname (λ l, ScanParts_at (D := D) (H := H) fuel dname l false) lba es) (x2, st1)
      (λ _ (w : world D H), same_sectors x w.1 ∧ io_ok live' (fuel + n) w.1 ∧ Q w.2)) →
  runs (ScanParts_at (D := D) (H := H) (S fuel) dname lba new_disk) (x1, st) (λ _ (w : world D H),
    same_sectors x w.1 ∧ io_ok live (S fuel + n) w.1 ∧ Q w.2).
Proof.
  intros st1 (Hl & Hsig & Hes) Hsame Hio Hp Hlo Hrun. cbn [ScanParts_at].
  apply (runs_step _ _ _ (λ _ (w : world D H), w = (x1, st1)));
    [destruct new_disk; [by apply runs_modify|by apply runs_ret]|]. intros _ ? ->.
  apply bind_gets, bind_assert; [by apply Z.ltb_lt|]. cbn [snd].
  rewrite (proj2 (Z.leb_gt _ _)) by done.
  eapply runs_step; [eapply (runs_on_io _ _ _ _ (λ a (w : world D H), live !! a = None
    ∧ io_ok (<[a := default_pool]> live) (fuel + n) w.1 ∧ same_sectors x1 w.1 ∧ w.2 = st1));
    [by apply (new_runs live (fuel + n) x1 default_pool); [exact Hio|done]|by intros a x' (? & ? & ?)]|].
  intros a [x2 s2] (Ha & Hio2 & Hs2 & E2). cbn [fst snd] in *. subst s2.
  eapply runs_step; [eapply (runs_on_io _ _ _ _ (λ r (w : world D H), r = sector x lba
    ∧ io_ok (<[a := default_pool]> live) (fuel + n) w.1 ∧ same_sectors x w.1 ∧ w.2 = st1));
    [apply (ReadSectors_runs _ _ _ lba 1 Hio2); lia|]|].
  { intros r x' (-> & ? & ?). rewrite sectors_1. split; [by rewrite Hs2, Hsame|].
    split; [done|]. split; [|done]. eauto using same_sectors_trans. }
  intros r [x3 s3] (-> & Hio3 & Hs3 & E3). cbn [fst snd] in *. subst s3.
  apply bind_assert; [by apply Z.eqb_eq|]. rewrite Hes.
  eapply runs_step; [by apply Hrun|]. intros _ [x4 st4] (Hs4 & Hio4 & HQ). cbn [fst snd] in *.
  eapply runs_on_io; [apply (delete_runs _ _ _ default_pool a Hio4), lookup_insert_eq|].
  intros _ x5 [Hio5 Hs5]. rewrite delete_insert_id in Hio5 by done. cbn [fst snd].
  split; [by eapply same_sectors_trans|]. done.
Qed.

(** Eight logical partitions fill the array, and the scan goes no further. *)
Lemma full_runs (x : io D H) lba base ds ls fuel n live (x1 : io D H) st st0 ps :
  same_sectors x x1 → io_ok live (S fuel + n) x1 → scanned s st0 base ps ds st →
  (length ps < 4)%nat → length ds = 8%nat →
  runs (ScanParts_at (S fuel) dname lba false) (x1, st) (λ _ (w : world D H),
    same_sectors x w.1 ∧ io_ok live (S fuel + n) w.1
    ∧ scanned s st0 base ps (take 8 (ds ++ ls)) w.2).
Proof.
  intros Hsame Hio Hsc Hps E8. pose proof Hsc as [_ Ep El _ _ _ _ _ _ _]. cbn [ScanParts_at].
  apply bind_ret, bind_gets, bind_assert; cbn [snd].
  { rewrite Ep. apply Z.ltb_lt. change Disk.prim_part_count with 4. lia. }
  rewrite El, E8. apply runs_ret. cbn [fst snd]. split; [done|]. split; [done|].
  by rewrite take_app_le, take_ge by lia.
Qed.

(** A chain of extended boot records, when [ds] were found before it. *)
Lemma chain_runs x base lba ls :
  ebr_chain x base lba ls → base ≠ 0 → ∀ ds fuel n live (x1 : io D H) st st0 ps,
  same_sectors x x1 → io_ok live (fuel + n) x1 → blank st0 → scanned s st0 base ps ds st →
  (length ps < 4)%nat → (length ds ≤ 8)%nat → (9 - length ds ≤ fuel)%nat →
  runs (ScanParts_at fuel dname lba false) (x1, st) (λ _ (w : world D H),
    same_sectors x w.1 ∧ io_ok live (fuel + n) w.1
    ∧ scanned s st0 base ps (take 8 (ds ++ ls)) w.2).
Proof.
  intros Hch Hbase. induction Hch as [lba e e1 e2 e3 Hrec He Hes|lba e nx e2 e3 ls Hrec He Hn Hes Hch IH];
    intros ds fuel n live x1 st st0 ps Hsame Hio Hb Hsc Hps Hds Hf;
    (destruct fuel as [|fuel]; [lia|]); pose proof Hsc as [Eb Ep El _ _ _ _ _ _ _];
    (destruct (decide (length ds = 8)%nat) as [E8|];
      [apply full_runs with (base := base) (ps := ps); try done; lia|]);
    (apply (visit_record x lba _ false) with (1 := Hrec); [done|done|lia|lia|]);
    intros live' x2 Hs2 Hio2;
    destruct (add_logic_ok st0 st base lba e ps ds Hb Hsc ltac:(lia)) as (st' & Eadd & Hsc');
    (eapply scan_cons; [apply (scan_part _ _ _ _ _ st' (λ _ (w : world D H), w = (x2, st')) He);
      [unfold IsInExtPart; rewrite Eb, (proj2 (Z.eqb_neq _ _)) by done; exact Eadd|done]|]);
    intros ? ->.
  - apply scan_empty; [done|]. cbn [fst snd]. rewrite take_ge by (rewrite length_app; simpl; lia). done.
  - eapply scan_cons; unfold scan_entry, get_state.
    { apply bind_gets. rewrite Hn. cbn [snd]. change (ExtPart =? ExtPart) with true. cbv iota. unfold IsInExtPart.
    pose proof Hsc' as [Eb' _ _ _ _ _ _ _ _ _]. rewrite Eb', (proj2 (Z.eqb_neq _ _)) by done. cbn [negb].
      apply (IH (ds ++ [(lba +w start_lba e, sector_count e)]) fuel n live' x2 st' st0 ps); try done;
        rewrite length_app; simpl; lia. }
    intros w (? & ? & Hw). apply scan_empty; [done|]. by rewrite <- app_assoc in Hw.
Qed.

(** The primary partitions of the master boot record, then the rest of it. *)
Lemma scan_prims rec es rest (x : io D H) st0 st ps (Q : unit → world D H → Prop) :
  Forall is_part es → blank st0 → scanned s st0 0 ps [] st → (length ps + length es ≤ 4)%nat →
  (∀ st', scanned s st0 0 (ps ++ ((λ e, (u32 (start_lba e), sector_count e)) <$> es)) [] st' →
    runs (scan_entries dname rec 0 rest) (x, st') Q) →
  runs (scan_entries dname rec 0 (es ++ rest)) (x, st) Q.
Proof.
  intros Hes Hb. revert st ps. induction Hes as [|e es He Hes IH]; intros st ps Hsc Hlen HQ.
  { apply HQ. by rewrite app_nil_r. }
  simpl in Hlen. destruct (add_prim_ok st0 st 0 e ps Hb Hsc ltac:(lia)) as (st' & E & Hsc').
  rewrite Z.add_0_l in Hsc'. cbn [app].
  eapply scan_cons; [apply (scan_part _ _ _ _ _ st' (λ _ (w : world D H), w = (x, st')) He)|].
  - pose proof Hsc as [Eb _ _ _ _ _ _ _ _ _]. unfold IsInExtPart. by rewrite Eb.
  - done.
  - intros ? ->. apply (IH st' (ps ++ [(u32 (start_lba e), sector_count e)])); [done| |].
    + rewrite length_app. simpl. lia.
    + intros st2 Hst2. apply HQ. by rewrite <- app_assoc in Hst2.
Qed.

(** The scan of a disk with well-formed records. *)
Lemma ScanParts_ok x live n st ps ls :
  io_ok live (10 + n) x → blank st → disk_layout x ps ls →
  runs (ScanParts dname) (x, st) (λ _ w,
    same_sectors x w.1 ∧ io_ok live (10 + n) w.1
    ∧ ∃ base, scanned s st base ps (take 8 ls) w.2).
Proof.
  intros Hio Hb Hlay. pose proof (reset_scanned st Hb) as Hsc.
  destruct Hlay as [ps es Hrec Hps Hes|ps e es ls Hrec Hps He Hne Hes Hch].
  - apply (visit_record x 0 _ true 9 n live x st (λ st', ∃ base, scanned s st base _ (take 8 _) st') Hrec);
      [done|exact Hio|done|done|].
    intros live' x2 Hs2 Hio2.
    assert (length (ps ++ es) = 4%nat) as Hlen by (destruct Hrec as (_ & _ & <-); done).
    rewrite length_app in Hlen.
    apply (scan_prims _ _ _ _ st _ [] _ Hps Hb Hsc); [simpl; lia|]. intros st' Hst'.
    apply scan_empty; [done|]. cbn [fst snd]. eauto.
  - apply (visit_record x 0 _ true 9 n live x st (λ st', ∃ base, scanned s st base _ (take 8 _) st') Hrec);
      [done|exact Hio|done|done|].
    intros live' x2 Hs2 Hio2.
    assert (length (ps ++ e :: es) = 4%nat) as Hlen by (destruct Hrec as (_ & _ & <-); done).
    rewrite length_app in Hlen. simpl in Hlen.
    apply (scan_prims _ _ _ _ st _ [] _ Hps Hb Hsc); [simpl; lia|]. intros st' Hst'.
    eapply scan_cons; unfold scan_entry, get_state.
    { apply bind_gets. rewrite He. cbn [snd]. change (ExtPart =? ExtPart) with true. cbv iota.
      pose proof Hst' as [Eb _ _ _ _ _ _ _ _ _]. unfold IsInExtPart. rewrite Eb. cbn [negb Z.eqb].
      apply bind_modify. cbn [fst].
      apply (chain_runs x _ _ _ Hch Hne [] 9 n live' x2 _ st ((λ e, (u32 (start_lba e), sector_count e)) <$> ps));
        [done|done|done| |cbn [app length]; rewrite ?length_fmap; lia|simpl; lia|simpl; lia].
      destruct Hst' as [? ? ? ? ? ? ? ? ? ?]. by split. }
    intros w (Hs & Hio3 & Hw). apply scan_empty; [done|]. cbn [app] in Hw. eauto.
Qed.

(** C20. On a disk whose boot records are well formed (primary partitions in the
    master boot record, then perhaps an extended partition whose chain of
    records leads to the logical ones), the scan returns, leaves every sector as
    it was and every block it allocated free, and registers exactly the
    partitions of the disk: their addresses relative to the right record, their
    sizes, the names of the disk numbered from 1 and from 5, in order, and the
    first eight logical ones when there are more. *)
Theorem ScanParts_finds x live n st ps ls :
  io_ok live (10 + n) x → blank st → disk_layout x ps ls →
  runs (ScanParts dname) (x, st) (λ _ w,
    same_sectors x w.1 ∧ io_ok live (10 + n) w.1
    ∧ ∃ base, scanned s st base ps (take 8 ls) w.2).
Proof. apply ScanParts_ok. Qed.
End layout.

(** ** Concrete disks *)

#[local] Existing Instance Ram.ram_store.
#[local] Existing Instance Ram.ram_store_laws.
#[local] Existing Instance Ram.ram_heap.
#[local] Existing Instance Ram.ram_heap_laws.

Definition entry_bytes (e : PartTabEntry) : list Z :=
  [0; 0; 0; 0; type e; 0; 0; 0] ++ put32 (start_lba e) ++ put32 (sector_count e).
Definition record_bytes (es : list PartTabEntry) : list Z :=
  zeros 446 ++ concat (entry_bytes <$> es) ++ [0x55; 0xAA].

Definition no_entry : PartTabEntry := mk_entry 0 0 0.

(** A primary partition of 2000 sectors, and two logical ones of 500. *)
Definition demo_mbr : list PartTabEntry :=
  [mk_entry 0x83 63 2000; mk_entry 5 3000 4000; no_entry; no_entry].
Definition demo_ebr1 : list PartTabEntry :=
  [mk_entry 0x83 63 500; mk_entry 5 1000 600; no_entry; no_entry].
Definition demo_ebr2 : list PartTabEntry := [mk_entry 0x83 63 500; no_entry; no_entry; no_entry].

Definition demo_disk : io Ram.disk Ram.heap :=
  (<[0 := record_bytes demo_mbr]> (<[3000 := record_bytes demo_ebr1]>
    (<[4000 := record_bytes demo_ebr2]> ∅)), Ram.fresh.2).

Definition blank_state : state := mk 7 7 7 (replicate 4 Part.init) (replicate 8 Part.init) [].

(** "sdb" *)
Definition demo_name : list Z := [115; 100; 98; 0; 0; 0; 0; 0; 0].

Lemma demo_layout : disk_layout demo_disk [(63, 2000)] [(3063, 500); (4063, 500)].
Proof.
  assert (Hr : ∀ lba es, bool_decide (sig (sector demo_disk lba) = end_sig) = true →
    parts (sector demo_disk lba) = es → 0 ≤ lba < 163838 → record demo_disk lba es).
  { intros lba es E1%bool_decide_eq_true_1 E2 Hl. by split. }
  assert (Hp : is_part (mk_entry 0x83 63 500) ∧ is_part (mk_entry 0x83 63 2000)) by done.
  destruct Hp as [Hp1 Hp2].
  assert (He : Forall (λ e, type e = Empty) [no_entry; no_entry]) by (by repeat constructor).
  apply (layout_ext demo_disk [mk_entry 0x83 63 2000] (mk_entry 5 3000 4000) [no_entry; no_entry]);
    [apply Hr; [vm_compute; reflexivity..|lia]|by constructor|done|done|done|].
  apply (ebr_next demo_disk 3000 3000 (mk_entry 0x83 63 500) (mk_entry 5 1000 600) no_entry no_entry
    [(4063, 500)]); [apply Hr; [vm_compute; reflexivity..|lia]|done|done|done|].
  change (3000 +w start_lba (mk_entry 5 1000 600)) with 4000.
  apply (ebr_last demo_disk 3000 4000 (mk_entry 0x83 63 500) no_entry no_entry no_entry);
    [apply Hr; [vm_compute; reflexivity..|lia]|done|by constructor].
Qed.

Lemma ScanParts_finds_witness :
  runs (ScanParts demo_name) (demo_disk, blank_state) (λ _ w,
    same_sectors demo_disk w.1 ∧ io_ok ∅ (10 + 0) w.1
    ∧ ∃ base, scanned [115; 100; 98] blank_state base [(63, 2000)]
        (take 8 [(3063, 500); (4063, 500)]) w.2).
Proof.
  apply (ScanParts_finds demo_name [115; 100; 98]).
  - split; [by apply (bool_decide_unpack _)|]. by exists [0; 0; 0; 0; 0].
  - simpl. lia.
  - split; [done|]. split; [done|]. intros a [x Hx]. by rewrite lookup_empty in Hx.
  - split; [done|]. split; [done|]. by repeat constructor.
  - apply demo_layout.
Defined.

(** The address of the extended partition is kept after its records were
    scanned: a primary partition behind it in the table is taken for a logical
    one (the fifth entry here would be "sdb2"). *)
Example primary_after_extended :
  let d := <[0 := record_bytes [mk_entry 0x83 63 2000; mk_entry 5 3000 4000;
                                mk_entry 0x83 8000 700; no_entry]]> demo_disk.1 in
  match ScanParts demo_name (d, demo_disk.2, blank_state) with
  | Ok (_, w) => disk_parts w.2
  | _ => []
  end = [Prim 0; Logic 0; Logic 1; Logic 2].
Proof. vm_compute. reflexivity. Qed.
End PartScan.
