(* ===== verification/FsData.v ===== *)
(** * The data of the file system

    The structures of src/include/kernel/io/disk/file/: [SuperBlock], [IdxNode]
    (an index node), [Directory] and [DirEntry], [File] and the system's open
    file table [FileTab]. The structures that are saved in sectors have their
    images, [encode] and [decode]. *)
From S2P Require Import Prelude UtilBit UtilBitmap StlString IoPath IoFileDesc IoDisk FsBase.

Definition sector_size : Z := Disk.sector_size.
Definition max_file_count_per_part : Z := 0x1000.
Definition bit_count_per_sector : Z := sector_size * bit.byte_len.
Definition root_inode_idx : Z := 0.
Definition boot_sector_count : Z := 1.

(** ** The super block *)

Module SuperBlock.
Import Bytes.

Definition sign : Z := 0x11223344.
Definition start_lba : Z := boot_sector_count.

Record t := mk {
  sign_ : Z;
  part_start_lba : Z; part_sector_count : Z; part_inode_count : Z;
  block_bitmap_start_lba : Z; block_bitmap_sector_count : Z;
  inode_bitmap_start_lba : Z; inode_bitmap_sector_count : Z;
  inodes_start_lba : Z; inodes_sector_count : Z;
  data_start_lba : Z; root_inode_idx : Z
}.

Definition IsSignValid (b : t) : bool := sign_ b =? sign.

Definition words (b : t) : list Z :=
  [sign_ b; part_start_lba b; part_sector_count b; part_inode_count b;
   block_bitmap_start_lba b; block_bitmap_sector_count b;
   inode_bitmap_start_lba b; inode_bitmap_sector_count b;
   inodes_start_lba b; inodes_sector_count b; data_start_lba b; root_inode_idx b].

Definition of_words (ws : list Z) : t :=
  let w i := default 0 (ws !! i) in
  mk (w 0%nat) (w 1%nat) (w 2%nat) (w 3%nat) (w 4%nat) (w 5%nat) (w 6%nat) (w 7%nat)
     (w 8%nat) (w 9%nat) (w 10%nat) (w 11%nat).

(** [sizeof(SuperBlock)] *)
Definition size : Z := 48.

(** [PaddedSuperBlock]: a whole sector. *)
Definition encode (b : t) : list Z := put_words (words b) ++ zeros (sector_size - size).
Definition decode (bs : list Z) : t := of_words (get_words 12 bs).

Definition wf (b : t) : Prop := Forall (in_u 32) (words b).

Lemma length_encode b : length (encode b) = 512%nat.
Proof. unfold encode. rewrite length_app, length_put_words. done. Qed.

Lemma decode_encode b rest : wf b → decode (encode b ++ rest) = b.
Proof.
  intros Hb. unfold decode, encode. rewrite <- app_assoc.
  change 12%nat with (length (words b)). rewrite get_put_words by done. by destruct b.
Qed.
End SuperBlock.

(** ** Index nodes *)

Module IdxNode.
Import Bytes.

Definition direct_block_count : nat := 12.

(** An index node in memory. Its tag is in the list of open nodes of the
    partition; [pad] are the three bytes after [write_deny]. *)
Record t := mk {
  idx : Z; size : Z; open_times : Z; write_deny : bool; pad : list Z;
  direct_lbas_ : list Z; indirect_tab_lba_ : Z
}.

(** [sizeof(IdxNode)]: the two links of the tag, then the fields. *)
Definition bytes : Z := 76.

(** A node on the zero-filled memory of the heap, or on the stack. *)
Definition zero : t := mk 0 0 0 false [0; 0; 0] (replicate direct_block_count 0) 0.

Definition Init (n : t) : t :=
  mk metric.npos 0 0 false (pad n) (direct_lbas_ n) (indirect_tab_lba_ n).

Definition with_open_times (k : Z) (n : t) : t :=
  mk (idx n) (size n) k (write_deny n) (pad n) (direct_lbas_ n) (indirect_tab_lba_ n).
Definition with_write_deny (b : bool) (n : t) : t :=
  mk (idx n) (size n) (open_times n) b (pad n) (direct_lbas_ n) (indirect_tab_lba_ n).
Definition with_idx (i : Z) (n : t) : t :=
  mk i (size n) (open_times n) (write_deny n) (pad n) (direct_lbas_ n) (indirect_tab_lba_ n).
Definition with_size (k : Z) (n : t) : t :=
  mk (idx n) k (open_times n) (write_deny n) (pad n) (direct_lbas_ n) (indirect_tab_lba_ n).

Definition IsOpen (n : t) : bool := negb (open_times n =? 0).
Definition GetIndirectTabLba (n : t) : Z := indirect_tab_lba_ n.
Definition SetIndirectTabLba (lba : Z) (n : t) : t :=
  mk (idx n) (size n) (open_times n) (write_deny n) (pad n) (direct_lbas_ n) lba.
Definition GetDirectLba (i : Z) (n : t) : res Z :=
  Assert (i <? Z.of_nat direct_block_count);; of_option (direct_lbas_ n !! Z.to_nat i).
Definition SetDirectLba (i lba : Z) (n : t) : res t :=
  Assert (i <? Z.of_nat direct_block_count);;
  Ok (mk (idx n) (size n) (open_times n) (write_deny n) (pad n)
        (<[Z.to_nat i := lba]> (direct_lbas_ n)) (indirect_tab_lba_ n)).

(** [CloneToPure]: the copy is closed, not being written, and in no list. *)
Definition CloneToPure (n : t) : t :=
  mk (idx n) (size n) 0 false (pad n) (direct_lbas_ n) (indirect_tab_lba_ n).

(** The image of a node that is in no list: the links of its tag are null. *)
Definition encode (n : t) : list Z :=
  put_words [0; 0; idx n; size n; open_times n] ++ [Z.b2z (write_deny n)] ++ pad n
  ++ put_words (direct_lbas_ n ++ [indirect_tab_lba_ n]).

(** The fields that [stl::memcpy] gives a node, its tag apart. *)
Definition decode (bs : list Z) : t :=
  let w i := get32 (drop i bs) in
  let lbas := get_words 13 (drop 24 bs) in
  mk (w 8%nat) (w 12%nat) (w 16%nat) (negb (default 0 (bs !! 20%nat) =? 0))
     (take 3 (drop 21 bs)) (take direct_block_count lbas) (default 0 (lbas !! direct_block_count)).

Record wf (n : t) : Prop := {
  wf_words : Forall (in_u 32) [idx n; size n; open_times n];
  wf_pad : length (pad n) = 3%nat;
  wf_direct : length (direct_lbas_ n) = direct_block_count;
  wf_lbas : Forall (in_u 32) (direct_lbas_ n ++ [indirect_tab_lba_ n])
}.

Lemma length_node_encode n : wf n → length (encode n) = 76%nat.
Proof.
  intros [_ Hp Hd _]. unfold encode. rewrite !length_app, !length_put_words, length_app, Hp, Hd. done.
Qed.

Lemma decode_node_encode n rest : wf n → decode (encode n ++ rest) = n.
Proof.
  intros [Hw Hp Hd Hl]. destruct n as [i sz ot wd pd ds ind]. cbn [idx size open_times write_deny pad
    direct_lbas_ indirect_tab_lba_] in *.
  repeat match goal with Hf : Forall _ (_ :: _) |- _ => apply Forall_cons in Hf as [? Hf] end.
  destruct pd as [|p0 [|p1 [|p2 [|]]]]; try done.
  unfold decode, encode, put_words. cbn [fmap list_fmap concat idx size open_times write_deny pad
    direct_lbas_ indirect_tab_lba_ app]. 
  assert (Hlbas : get_words 13 ((concat (put32 <$> ds ++ [ind])) ++ rest) = ds ++ [ind]).
  { replace 13%nat with (length (ds ++ [ind])) by (rewrite length_app, Hd; done).
    by apply get_put_words. }
  cbn [put32 app drop lookup list_lookup default take]. rewrite !drop_0, !Hlbas, take_0.
  rewrite take_app_length' by done. rewrite lookup_app_r by (rewrite Hd; done). rewrite Hd, Nat.sub_diag.
  f_equal; [|..]; try (unfold get32; unfold in_u in *; div_lia); try done.
  by destruct wd.
Qed.
End IdxNode.

(** ** Directories *)

Module DirEntry.
Import Bytes.

(** [FileType]; a type read from a sector may be any word. *)
Definition Unknown : Z := 0.
Definition Regular : Z := 1.
Definition Directory : Z := 2.

(** [name] is the array of [Path::max_name_len + 1] characters, [pad] the three
    bytes behind it. *)
Record t := mk { type : Z; name : list Z; pad : list Z; inode_idx : Z }.

(** [sizeof(DirEntry)] *)
Definition bytes : Z := 28.
Definition dir_entry_count_per_sector : Z := sector_size / bytes.

Definition init : t := mk Unknown (replicate Path.name_size 0) [0; 0; 0] metric.npos.
(** An entry whose bytes are zero. *)
Definition cleared : t := mk Unknown (replicate Path.name_size 0) [0; 0; 0] 0.

Definition SetName (nm : string_view.t) (e : t) : res t :=
  Assert (negb (string_view.empty nm));;
  arr ← cstring.strcpy_s (Some (name e)) (Z.of_nat Path.name_size) (string_view.data nm);
  Ok (mk (type e) arr (pad e) (inode_idx e)).

Definition with_inode (i : Z) (e : t) : t := mk (type e) (name e) (pad e) i.
Definition with_type (ty : Z) (e : t) : t := mk ty (name e) (pad e) (inode_idx e).

Definition encode (e : t) : list Z := put32 (type e) ++ name e ++ pad e ++ put32 (inode_idx e).
Definition decode (bs : list Z) : t :=
  mk (get32 bs) (take Path.name_size (drop 4 bs)) (take 3 (drop 21 bs)) (get32 (drop 24 bs)).

(** The entry [j] of a sector, and the sector with another one there. *)
Definition get_entry (sec : list Z) (j : Z) : res t :=
  bs ← slice sec (j * bytes) bytes; Ok (decode bs).
Definition put_entry (sec : list Z) (j : Z) (e : t) : res (list Z) := splice sec (j * bytes) (encode e).

(** [entry.name.data() == name]: the characters of the array, up to its first
    null, are those of the name. *)
Definition name_is (e : t) (nm : string_view.t) : res bool :=
  v ← string_view.of_cptr (Some (name e)); string_view.eqb v nm.

Record wf (e : t) : Prop := {
  wf_type : in_u 32 (type e);
  wf_inode : in_u 32 (inode_idx e);
  wf_name : length (name e) = Path.name_size;
  wf_pad : length (pad e) = 3%nat
}.

Lemma length_entry_encode e : wf e → length (encode e) = 28%nat.
Proof. intros [_ _ Hn Hp]. unfold encode. rewrite !length_app, Hn, Hp. done. Qed.

Lemma decode_entry_encode e rest : wf e → decode (encode e ++ rest) = e.
Proof.
  intros [Ht Hi Hn Hp]. destruct e as [ty nm pd i]. cbn [type name pad inode_idx] in *.
  unfold decode, encode. cbn [type name pad inode_idx]. rewrite <- !app_assoc.
  rewrite get_put32 by done. f_equal.
  - rewrite drop_app_length' by done. by rewrite take_app_length' by done.
  - change 21%nat with (4 + 17)%nat. rewrite <- drop_drop, drop_app_length' by done.
    rewrite drop_app_length' by done. by rewrite take_app_length' by done.
  - change 24%nat with (4 + (17 + 3))%nat. rewrite <- !drop_drop, drop_app_length' by done.
    rewrite drop_app_length' by done. rewrite drop_app_length' by done. by rewrite get_put32.
Qed.
End DirEntry.

Module Directory.
(** [inode] is the address of the open index node. *)
Record t := mk { inode : option Z; pos : Z }.
Definition init : t := mk None 0.
Definition min_entry_count : Z := 2.
Definition IsOpen (d : t) : bool := bool_decide (is_Some (inode d)).
Definition with_pos (p : Z) (d : t) : t := mk (inode d) p.
Definition Rewind (d : t) : t := with_pos 0 d.
End Directory.

(** ** Open files *)

Module File.
(** [OpenMode], a set of flags. *)
Definition ReadOnly : Z := 0.
Definition WriteOnly : Z := 1.
Definition ReadWrite : Z := 2.
Definition CreateNew : Z := 4.
Definition IsSet (flags flag : Z) : bool := negb (Z.land flags flag =? 0).
Definition writes (flags : Z) : bool := IsSet flags WriteOnly || IsSet flags ReadWrite.

Inductive SeekOrigin := Begin | Curr | End_.

Record t := mk { flags : Z; inode : option Z; pos : Z }.
Definition init : t := mk 0 None 0.
Definition Clear (f : t) : t := mk 0 None 0.
Definition IsOpen (f : t) : bool := bool_decide (is_Some (inode f)).
Definition with_pos (p : Z) (f : t) : t := mk (flags f) (inode f) p.

(** [File(File&& o)]: the new file and the one it was moved from. *)
Definition Move (o : t) : t * t := (o, Clear o).
End File.

Module FileTab.
Definition max_open_file_times : nat := 32.

(** The array [files_]. *)
Abbreviation t := (list File.t).
Definition init : t := replicate max_open_file_times File.init.

Fixpoint find_free (i : nat) (files : t) : option nat :=
  match files with
  | [] => None
  | f :: files' => if File.IsOpen f then find_free (S i) files' else Some i
  end.

(** The first closed entry past the standard streams, [npos] when the table is
    full. *)
Definition GetFreeDesc (tab : t) : Z :=
  match find_free FileDesc.std_stream_count (drop FileDesc.std_stream_count tab) with
  | Some i => Z.of_nat i
  | None => metric.npos
  end.

(** [operator[]] *)
Definition get (desc : Z) (tab : t) : res File.t :=
  Assert (desc <? Z.of_nat (length tab));; of_option (tab !! Z.to_nat desc).
Definition set_ (desc : Z) (f : File.t) (tab : t) : t := <[Z.to_nat desc := f]> tab.
Definition GetSize (tab : t) : Z := Z.of_nat (length tab).

Lemma find_free_spec i (files : t) :
  match find_free i files with
  | Some k => ∃ j f, k = (i + j)%nat ∧ files !! j = Some f ∧ File.IsOpen f = false
      ∧ ∀ j' g, (j' < j)%nat → files !! j' = Some g → File.IsOpen g = true
  | None => ∀ f, f ∈ files → File.IsOpen f = true
  end.
Proof.
  revert i. induction files as [|f files IH]; intros i; simpl; [by intros f Hf%elem_of_nil|].
  destruct (File.IsOpen f) eqn:Ef.
  - specialize (IH (S i)). destruct (find_free (S i) files).
    + destruct IH as (j & g & -> & Hg & Ho & Hb). exists (S j), g. split_and!; [lia|done|done|].
      intros [|j'] h Hj Hh; simplify_eq/=; [done|]. apply (Hb j'); [lia|done].
    + intros g [->|Hg]%elem_of_cons; [done|by apply IH].
  - exists 0%nat, f. split_and!; [lia|done|done|lia].
Qed.

(** A descriptor the table offers is that of its first closed entry. *)
Lemma GetFreeDesc_spec (tab : t) :
  GetFreeDesc tab = metric.npos
    ∧ (∀ f, f ∈ drop FileDesc.std_stream_count tab → File.IsOpen f = true)
  ∨ ∃ i f, GetFreeDesc tab = Z.of_nat i ∧ (3 ≤ i)%nat ∧ tab !! i = Some f ∧ File.IsOpen f = false.
Proof.
  unfold GetFreeDesc. pose proof (find_free_spec FileDesc.std_stream_count
    (drop FileDesc.std_stream_count tab)) as Hs.
  destruct (find_free _ _) as [k|]; [right|by left].
  destruct Hs as (j & f & -> & Hf & Ho & _). exists (FileDesc.std_stream_count + j)%nat, f.
  split; [done|]. split; [unfold FileDesc.std_stream_count; lia|]. split; [|done].
  by rewrite lookup_drop in Hf.
Qed.
End FileTab.
