(* ===== verification/FsFormat.v ===== *)
(** * Creating a file system

    [FormatPart] of src/src/kernel/io/disk/part.cpp, and the members of
    [PaddedSuperBlock] of src/src/kernel/io/disk/file/super_block.cpp that write
    the super block, the two bitmaps, the index nodes and the root directory of
    an empty file system. *)
From S2P Require Import Prelude UtilBit UtilBitmap StlString IoPath MemPool IoDisk FsBase IoPart FsData.
Import metric.

Module FsFormat.
Import Bytes.

Section format.
Context {D H : Type} `{Store D} `{Heap H}.

(** [CalcSectorCountForBlockBitmap]: the sectors of the bitmap and its bits. *)
Definition CalcSectorCountForBlockBitmap (free_sector_count : Z) : Z * Z :=
  let block_bitmap_sector_count := RoundUpDivide free_sector_count bit_count_per_sector in
  let block_bitmap_bit_len := free_sector_count -w block_bitmap_sector_count in
  (RoundUpDivide block_bitmap_bit_len bit_count_per_sector, block_bitmap_bit_len).

(** The writers use a zeroed buffer and return it. *)
Definition WriteBlockBitmap (b : SuperBlock.t) (bit_len : Z) (io_buf : list Z) : M (io D H) (list Z) :=
  assert (SuperBlock.block_bitmap_sector_count b *w sector_size <=? Z.of_nat (length io_buf));;
  let buf := zeros (Z.of_nat (length io_buf)) in
  let round_up_bit_len := SuperBlock.block_bitmap_sector_count b *w bit_count_per_sector in
  assert (bit_len <=? round_up_bit_len);;
  bm ← lift (Bitmap.Init (Some buf) (round_up_bit_len / bit.byte_len) true);
  bm ← lift (Bitmap.ForceAlloc bm root_inode_idx 1);
  bm ← lift (Bitmap.ForceAlloc bm bit_len (round_up_bit_len -w bit_len));
  buf ← lift (of_option (Bitmap.bits_ bm));
  WriteSectors (SuperBlock.block_bitmap_start_lba b) buf (SuperBlock.block_bitmap_sector_count b);;
  mret buf.

Definition WriteNodeBitmap (b : SuperBlock.t) (io_buf : list Z) : M (io D H) (list Z) :=
  assert (SuperBlock.inode_bitmap_sector_count b *w sector_size <=? Z.of_nat (length io_buf));;
  let buf := zeros (Z.of_nat (length io_buf)) in
  bm ← lift (Bitmap.Init (Some buf) (SuperBlock.inode_bitmap_sector_count b *w sector_size) true);
  bm ← lift (Bitmap.ForceAlloc bm root_inode_idx 1);
  buf ← lift (of_option (Bitmap.bits_ bm));
  WriteSectors (SuperBlock.inode_bitmap_start_lba b) buf (SuperBlock.inode_bitmap_sector_count b);;
  mret buf.

(** The node of the root directory, in the zeroed buffer. *)
Definition WriteRootDirNode (b : SuperBlock.t) (io_buf : list Z) : M (io D H) (list Z) :=
  assert (SuperBlock.inodes_sector_count b *w sector_size <=? Z.of_nat (length io_buf));;
  let buf := zeros (Z.of_nat (length io_buf)) in
  let root := IdxNode.with_size (Directory.min_entry_count * DirEntry.bytes)
    (IdxNode.with_idx root_inode_idx IdxNode.zero) in
  root ← lift (IdxNode.SetDirectLba 0 (SuperBlock.data_start_lba b) root);
  buf ← lift (splice buf (root_inode_idx * IdxNode.bytes) (IdxNode.encode root));
  WriteSectors (SuperBlock.inodes_start_lba b) buf (SuperBlock.inodes_sector_count b);;
  mret buf.

(** The two entries of the root directory; its parent is itself. *)
Definition WriteRootDirEntries (b : SuperBlock.t) (io_buf : list Z) : M (io D H) (list Z) :=
  let sector_count := RoundUpDivide (Directory.min_entry_count * DirEntry.bytes) sector_size in
  assert (sector_count *w sector_size <=? Z.of_nat (length io_buf));;
  let buf := zeros (Z.of_nat (length io_buf)) in
  curr_dir ← lift (DirEntry.SetName Path.curr_dir_name DirEntry.cleared);
  let curr_dir := DirEntry.with_type DirEntry.Directory (DirEntry.with_inode root_inode_idx curr_dir) in
  parent_dir ← lift (DirEntry.SetName Path.parent_dir_name DirEntry.cleared);
  let parent_dir := DirEntry.with_type DirEntry.Directory (DirEntry.with_inode root_inode_idx parent_dir) in
  buf ← lift (DirEntry.put_entry buf 0 curr_dir);
  buf ← lift (DirEntry.put_entry buf 1 parent_dir);
  WriteSectors (SuperBlock.data_start_lba b) buf sector_count;;
  mret buf.

Definition WriteTo (b : SuperBlock.t) (part : Part.t) (block_bitmap_bit_len : Z) : M (io D H) unit :=
  lift (Part.GetDisk part);;
  WriteSectors (Part.GetStartLba part +w SuperBlock.start_lba) (SuperBlock.encode b)
    (RoundUpDivide 512 sector_size);;
  let io_buf_size := Z.max (Z.max (SuperBlock.inode_bitmap_sector_count b)
    (SuperBlock.inodes_sector_count b)) (SuperBlock.block_bitmap_sector_count b) *w sector_size in
  addr ← new default_pool io_buf_size;
  let io_buf := zeros io_buf_size in
  io_buf ← WriteBlockBitmap b block_bitmap_bit_len io_buf;
  io_buf ← WriteNodeBitmap b io_buf;
  io_buf ← WriteRootDirNode b io_buf;
  WriteRootDirEntries b io_buf;;
  delete_ default_pool addr.

(** The super block of a partition, and the bits of its block bitmap. *)
Definition super_block_sector_count : Z := RoundUpDivide 512 sector_size.
Definition inode_bitmap_sector_count : Z := max_file_count_per_part / bit_count_per_sector.
Definition inodes_sector_count : Z := RoundUpDivide (max_file_count_per_part *w IdxNode.bytes) sector_size.
Definition used_sector_count : Z :=
  boot_sector_count + super_block_sector_count + inode_bitmap_sector_count + inodes_sector_count.

Definition new_super_block (start count block_bitmap_sector_count : Z) : SuperBlock.t :=
  let block_bitmap_start_lba := start +w SuperBlock.start_lba +w super_block_sector_count in
  let inode_bitmap_start_lba := block_bitmap_start_lba +w block_bitmap_sector_count in
  let inodes_start_lba := inode_bitmap_start_lba +w inode_bitmap_sector_count in
  SuperBlock.mk SuperBlock.sign start count max_file_count_per_part
    block_bitmap_start_lba block_bitmap_sector_count
    inode_bitmap_start_lba inode_bitmap_sector_count
    inodes_start_lba inodes_sector_count (inodes_start_lba +w inodes_sector_count) root_inode_idx.

Definition FormatPart (part : Part.t) : M (io D H) unit :=
  assert (max_file_count_per_part mod bit_count_per_sector =? 0);;
  let free_sector_count := Part.GetSectorCount part -w used_sector_count in
  let '(block_bitmap_sector_count, block_bitmap_bit_len) :=
    CalcSectorCountForBlockBitmap free_sector_count in
  WriteTo (new_super_block (Part.GetStartLba part) (Part.GetSectorCount part) block_bitmap_sector_count)
    part block_bitmap_bit_len.
End format.

(** ** A bitmap at the beginning of a larger buffer *)

Definition extend (rest : list Z) (b : Bitmap.t) : Bitmap.t :=
  Bitmap.mk (Bitmap.byte_len_ b) ((λ l, l ++ rest) <$> Bitmap.bits_ b).

Lemma SetBit_extend rest b i v b' :
  Bitmap.SetBit b i v = Ok b' → Bitmap.SetBit (extend rest b) i v = Ok (extend rest b').
Proof.
  unfold Bitmap.SetBit, Bitmap.read_byte. destruct b as [n [l|]]; cbn [Bitmap.bits_ Bitmap.byte_len_ extend fmap option_fmap option_map];
    [|discriminate]. intros Hs.
  rewrite !bool_decide_eq_true_2 in * by eauto. cbn [Assert] in *. rewrite !res_bind_ok in *.
  destruct (i / bit.byte_len <? n); [|done]. cbn [Assert] in *. rewrite !res_bind_ok in *.
  destruct (l !! Z.to_nat (i / bit.byte_len)) as [x|] eqn:Ex; [|done].
  rewrite lookup_app_l, Ex by (by apply lookup_lt_Some in Ex). simpl of_option in *. rewrite !res_bind_ok in *.
  injection Hs as <-. unfold extend. simpl. by rewrite insert_app_l by (by apply lookup_lt_Some in Ex).
Qed.

Lemma Set_extend rest b begin count b' :
  Bitmap.Set_ b begin count = Ok b' → Bitmap.Set_ (extend rest b) begin count = Ok (extend rest b').
Proof.
  unfold Bitmap.Set_. destruct b as [n [l|]]; [|done]. cbn [Bitmap.bits_ extend fmap option_fmap option_map].
  rewrite !bool_decide_eq_true_2 by eauto. cbn [Assert]. rewrite !res_bind_ok.
  destruct (0 <? count); [|done]. cbn [Assert]. rewrite !res_bind_ok.
  change (Bitmap.mk n (Some (l ++ rest))) with (extend rest (Bitmap.mk n (Some l))).
  generalize (Bitmap.mk n (Some l)) as b. generalize 0 as i.
  induction (Z.to_nat count) as [|k IH]; intros i b Hr.
  { injection Hr as <-. done. }
  unfold for_range in *. fold (@for_range Bitmap.t) in *.
  apply res_bind_inv in Hr as (b1 & E1 & Hr). rewrite (SetBit_extend _ _ _ _ _ E1), res_bind_ok. by apply IH.
Qed.

Lemma ForceAlloc_extend rest b begin count b' :
  Bitmap.ForceAlloc b begin count = Ok b' →
  Bitmap.ForceAlloc (extend rest b) begin count = Ok (extend rest b').
Proof. unfold Bitmap.ForceAlloc. case_match; [apply Set_extend|]. by intros [= <-]. Qed.

(** Marking bits of a well-formed bitmap, none at all included. *)
Lemma ForceAlloc_ok b begin count :
  Bitmap.wf b → 0 ≤ begin → 0 ≤ count → begin + count ≤ Bitmap.cap b →
  ∃ b', Bitmap.ForceAlloc b begin count = Ok b' ∧ Bitmap.updated b b' begin count true.
Proof.
  intros Hb Hs Hc Hle. unfold Bitmap.ForceAlloc. destruct (Z.ltb_spec 0 count).
  - by apply Bitmap.Set_ok.
  - exists b. split; [done|]. replace count with 0 by lia. by apply Bitmap.updated_refl.
Qed.

(** A zeroed bitmap of [n] bytes at the beginning of a zeroed buffer of [len]. *)
Lemma zero_bitmap_extend n len :
  0 < n → n ≤ len → n * bit.byte_len < npos →
  Bitmap.Init (Some (zeros len)) n true = Ok (extend (zeros (len - n)) (Bitmap.mk n (Some (zeros n))))
  ∧ Bitmap.wf (Bitmap.mk n (Some (zeros n)))
  ∧ ∀ i, Bitmap.alloc_at (Bitmap.mk n (Some (zeros n))) i = false.
Proof.
  intros Hn Hlen Hc. split; [|split].
  - unfold Bitmap.Init, Bitmap.Clear. cbn [Bitmap.bits_ Bitmap.byte_len_].
    rewrite bool_decide_eq_true_2 by eauto. rewrite (proj2 (Z.ltb_lt 0 n)) by done. cbn [andb Assert]. rewrite res_bind_ok.
    unfold zeros at 1. rewrite length_replicate, Z2Nat.id, (proj2 (Z.ltb_ge _ _)) by lia.
    unfold extend. simpl. unfold Bitmap.zeros, zeros. rewrite drop_replicate. do 5 f_equal. lia.
  - split; cbn [Bitmap.bits_ Bitmap.byte_len_]; [|done|done].
    exists (zeros n). split; [done|]. unfold zeros. rewrite length_replicate. split; [lia|].
    by apply Forall_replicate.
  - intros i. unfold Bitmap.alloc_at. cbn [Bitmap.bits_]. case_match eqn:E; [|done].
    apply lookup_replicate in E as [-> _]. apply Z.testbit_0_l.
Qed.

(** ** What each writer stores *)

Section writers.
Context {D H : Type} `{Store D} `{Heap H} `{!StoreLaws D} `{!HeapLaws H}.

(** [c] sectors of a bitmap whose bits are those of [p]. *)
Definition bitmap_sectors (l : list Z) (c : Z) (p : Z → bool) : Prop :=
  Z.of_nat (length l) = 512 * c ∧ Bitmap.wf (Bitmap.mk (512 * c) (Some l))
  ∧ ∀ i, 0 ≤ i < 4096 * c → Bitmap.alloc_at (Bitmap.mk (512 * c) (Some l)) i = p i.

(** A zeroed bitmap of [c] sectors, the bits of two ranges marked. *)
Lemma mark_bits c len b1 n1 b2 n2 :
  0 < c ≤ 100 → 512 * c ≤ len → 0 ≤ b1 → 0 ≤ n1 → b1 + n1 ≤ 4096 * c →
  0 ≤ b2 → 0 ≤ n2 → b2 + n2 ≤ 4096 * c →
  ∃ l bm, (bm ← Bitmap.Init (Some (zeros len)) (512 * c) true;
      bm ← Bitmap.ForceAlloc bm b1 n1; Bitmap.ForceAlloc bm b2 n2) = Ok bm
    ∧ Bitmap.bits_ bm = Some (l ++ zeros (len - 512 * c))
    ∧ bitmap_sectors l c (λ i, ((b1 <=? i) && (i <? b1 + n1)) || ((b2 <=? i) && (i <? b2 + n2))).
Proof.
  intros Hc Hlen ? ? ? ? ? ?. set (b := Bitmap.mk (512 * c) (Some (zeros (512 * c)))).
  assert (Hcap : Bitmap.cap b = 4096 * c) by (unfold Bitmap.cap, bit.byte_len; simpl; lia).
  destruct (zero_bitmap_extend (512 * c) len) as (E & Hwf & Hz); [lia|done| |].
  { rewrite npos_eq. unfold bit.byte_len. lia. }
  destruct (ForceAlloc_ok b b1 n1) as (bm1 & E1 & Hwf1 & Hl1 & Ha1); [done|done|done|lia|].
  destruct (ForceAlloc_ok bm1 b2 n2) as (bm2 & E2 & Hwf2 & Hl2 & Ha2); [done|done|done| |].
  { unfold Bitmap.cap. rewrite Hl1. fold (Bitmap.cap b). lia. }
  destruct (Bitmap.wf_bits _ Hwf2) as (l & Hl & Hll & _).
  assert (Hbm2 : bm2 = Bitmap.mk (512 * c) (Some l)).
  { destruct bm2. simpl in Hl, Hl2. subst. f_equal. by rewrite Hl1. }
  exists l, (extend (zeros (len - 512 * c)) bm2). split; [|split].
  - rewrite E, res_bind_ok. fold b. rewrite (ForceAlloc_extend _ _ _ _ _ E1), res_bind_ok.
    by apply ForceAlloc_extend.
  - unfold extend. simpl. by rewrite Hl.
  - rewrite Hbm2 in *. simpl in Hll. split; [done|]. split; [done|]. intros i Hi.
    rewrite Ha2, Ha1, Hz by lia.
    destruct (Z.leb_spec b1 i), (Z.ltb_spec i (b1 + n1)), (Z.leb_spec b2 i), (Z.ltb_spec i (b2 + n2)); done.
Qed.

(** What a writer does: it stores [l] in the sectors from [start]. *)
Definition writes_sectors (m : M (io D H) (list Z)) live n (x : io D H) (len : nat) start count
    (P : list Z → Prop) : Prop :=
  runs m x (λ buf x', length buf = len ∧ io_ok live n x' ∧ ∃ l, P l
    ∧ stored start (l ++ zeros (Z.of_nat len - 512 * count)) count x x'
    ∧ Z.of_nat (length l) = 512 * count).

Lemma length_zeros n : 0 ≤ n → Z.of_nat (length (zeros n)) = n.
Proof. intros. unfold zeros. rewrite length_replicate. lia. Qed.

(** The last step of a writer. *)
Lemma write_buffer live n (x : io D H) (len : nat) start count l (P : list Z → Prop) :
  io_ok live n x → 0 < count → 0 ≤ start → start + count ≤ 163839 →
  Z.of_nat (length l) = 512 * count → 512 * count ≤ Z.of_nat len → P l →
  writes_sectors (let buf := l ++ zeros (Z.of_nat len - 512 * count) in
    WriteSectors start buf count;; mret buf) live n x len start count P.
Proof.
  intros Hio Hc Hs Hm Hl Hlen HP. pose proof (length_zeros (Z.of_nat len - 512 * count)) as Hz.
  unfold writes_sectors. eapply runs_step; [apply (WriteSectors_runs live n); try done|].
  { rewrite length_app. lia. }
  intros _ x' [Hio' Hst]. apply runs_ret. split; [rewrite length_app; lia|]. eauto.
Qed.

Context (b : SuperBlock.t).

Lemma WriteBlockBitmap_ok live n x io_buf bit_len :
  let c := SuperBlock.block_bitmap_sector_count b in
  io_ok live n x → 0 < c ≤ 100 → 0 ≤ SuperBlock.block_bitmap_start_lba b →
  SuperBlock.block_bitmap_start_lba b + c ≤ 163839 → 512 * c ≤ Z.of_nat (length io_buf) →
  0 < bit_len ≤ 4096 * c →
  writes_sectors (WriteBlockBitmap b bit_len io_buf) live n x (length io_buf)
    (SuperBlock.block_bitmap_start_lba b) c
    (λ l, bitmap_sectors l c (λ i, (i =? 0) || (bit_len <=? i))).
Proof.
  intros c Hio Hc Hs Hm Hlen Hb. unfold writes_sectors, WriteBlockBitmap. fold c.
  unfold sector_size, bit_count_per_sector, sector_size. change Disk.sector_size with 512.
  change (512 * bit.byte_len) with 4096. rewrite !(u32_small (c * _)), (u32_small (c * 4096 - bit_len)) by lia.
  apply bind_assert; [apply Z.leb_le; lia|]. cbv zeta. apply bind_assert; [apply Z.leb_le; lia|].
  destruct (mark_bits c (Z.of_nat (length io_buf)) root_inode_idx 1 bit_len (c * 4096 - bit_len))
    as (l & bm & E & Hbits & Hl); [lia|lia|done|lia|unfold root_inode_idx; lia|lia|lia|lia|].
  replace (c * 4096 / bit.byte_len) with (512 * c) by (unfold bit.byte_len; div_lia).
  apply res_bind_inv in E as (bm0 & E0 & E). apply res_bind_inv in E as (bm1 & E1 & E2).
  apply (bind_lift _ _ _ _ _ E0), (bind_lift _ _ _ _ _ E1), (bind_lift _ _ _ _ _ E2).
  apply (bind_lift _ (l ++ zeros (Z.of_nat (length io_buf) - 512 * c))); [by rewrite Hbits|].
  apply (write_buffer live n x); try done; [lia|by destruct Hl|].
  destruct Hl as (Hl1 & Hl2 & Hl3). split; [done|]. split; [done|]. intros i Hi. rewrite Hl3 by done.
  unfold root_inode_idx. destruct (Z.leb_spec 0 i), (Z.ltb_spec i (0 + 1)), (Z.leb_spec bit_len i),
    (Z.ltb_spec i (bit_len + (c * 4096 - bit_len))), (Z.eqb_spec i 0); try lia; done.
Qed.

Lemma WriteNodeBitmap_ok live n x io_buf :
  let c := SuperBlock.inode_bitmap_sector_count b in
  io_ok live n x → 0 < c ≤ 100 → 0 ≤ SuperBlock.inode_bitmap_start_lba b →
  SuperBlock.inode_bitmap_start_lba b + c ≤ 163839 → 512 * c ≤ Z.of_nat (length io_buf) →
  writes_sectors (WriteNodeBitmap b io_buf) live n x (length io_buf)
    (SuperBlock.inode_bitmap_start_lba b) c (λ l, bitmap_sectors l c (λ i, i =? 0)).
Proof.
  intros c Hio Hc Hs Hm Hlen. unfold writes_sectors, WriteNodeBitmap. fold c.
  unfold sector_size. change Disk.sector_size with 512.
  rewrite (u32_small (c * 512)) by lia. apply bind_assert; [apply Z.leb_le; lia|]. cbv zeta.
  destruct (mark_bits c (Z.of_nat (length io_buf)) root_inode_idx 1 0 0)
    as (l & bm & E & Hbits & Hl); [lia|lia|done|lia|unfold root_inode_idx; lia|lia|lia|lia|].
  replace (c * 512) with (512 * c) by lia.
  apply res_bind_inv in E as (bm0 & E0 & E). apply res_bind_inv in E as (bm1 & E1 & E2).
  injection E2 as ->. apply (bind_lift _ _ _ _ _ E0), (bind_lift _ _ _ _ _ E1).
  apply (bind_lift _ (l ++ zeros (Z.of_nat (length io_buf) - 512 * c))); [by rewrite Hbits|].
  apply (write_buffer live n x); try done; [lia|by destruct Hl|].
  destruct Hl as (Hl1 & Hl2 & Hl3). split; [done|]. split; [done|]. intros i Hi. rewrite Hl3 by done.
  unfold root_inode_idx. destruct (Z.leb_spec 0 i), (Z.ltb_spec i (0 + 1)), (Z.ltb_spec i (0 + 0)),
    (Z.eqb_spec i 0); try lia; done.
Qed.

(** The node and the entries of an empty root directory. *)
Definition root_node (data_start : Z) : IdxNode.t :=
  IdxNode.mk 0 56 0 false [0; 0; 0] (data_start :: replicate 11 0) 0.
Definition dot_entry : DirEntry.t :=
  DirEntry.mk DirEntry.Directory (46 :: replicate 16 0) [0; 0; 0] 0.
Definition dotdot_entry : DirEntry.t :=
  DirEntry.mk DirEntry.Directory (46 :: 46 :: replicate 15 0) [0; 0; 0] 0.

(** Copying to the beginning of a zeroed buffer, and behind what is there. *)
Lemma splice_zeros l len data :
  Z.of_nat (length l) + Z.of_nat (length data) ≤ len →
  splice (l ++ zeros (len - Z.of_nat (length l))) (Z.of_nat (length l)) data
  = Ok ((l ++ data) ++ zeros (len - Z.of_nat (length (l ++ data)))).
Proof.
  intros Hl. pose proof (length_zeros (len - Z.of_nat (length l))) as Hz.
  rewrite splice_ok by (rewrite length_app; lia). rewrite Nat2Z.id, take_app_length' by done.
  rewrite drop_app_ge by lia. unfold zeros. rewrite drop_replicate, length_app, <- app_assoc.
  do 4 f_equal. lia.
Qed.

Lemma WriteRootDirNode_ok live n x io_buf :
  let c := SuperBlock.inodes_sector_count b in
  io_ok live n x → 0 < c ≤ 1000 → 0 ≤ SuperBlock.inodes_start_lba b →
  SuperBlock.inodes_start_lba b + c ≤ 163839 → 512 * c ≤ Z.of_nat (length io_buf) →
  writes_sectors (WriteRootDirNode b io_buf) live n x (length io_buf)
    (SuperBlock.inodes_start_lba b) c
    (λ l, l = IdxNode.encode (root_node (SuperBlock.data_start_lba b)) ++ zeros (512 * c - 76)).
Proof.
  intros c Hio Hc Hs Hm Hlen. unfold writes_sectors, WriteRootDirNode. fold c.
  unfold sector_size. change Disk.sector_size with 512.
  rewrite (u32_small (c * 512)) by lia. apply bind_assert; [apply Z.leb_le; lia|]. cbv zeta.
  apply (bind_lift _ (root_node (SuperBlock.data_start_lba b))); [reflexivity|].
  set (root := root_node _). assert (Hr : length (IdxNode.encode root) = 76%nat)
    by (unfold IdxNode.encode; rewrite !length_app, !length_put_words; done).
  set (rest := zeros (512 * c - 76)).
  assert (Hl : Z.of_nat (length (IdxNode.encode root ++ rest)) = 512 * c)
    by (unfold rest; rewrite length_app, Hr, Nat2Z.inj_add, length_zeros by lia; lia).
  apply (bind_lift _ ((IdxNode.encode root ++ rest) ++ zeros (Z.of_nat (length io_buf) - 512 * c))).
  { pose proof (splice_zeros [] (Z.of_nat (length io_buf)) (IdxNode.encode root)) as E.
    rewrite Z.sub_0_r in E. cbn [app length] in E. change (Z.of_nat 0) with 0 in E.
    change (root_inode_idx * IdxNode.bytes) with 0. rewrite E by (rewrite Hr; lia).
    rewrite <- app_assoc. do 2 f_equal. unfold rest, zeros. rewrite <- replicate_add, Hr. f_equal. lia. }
  apply (write_buffer live n x); [done|lia|done|done|done|lia|done].
Qed.

Lemma WriteRootDirEntries_ok live n x io_buf :
  io_ok live n x → 0 ≤ SuperBlock.data_start_lba b → SuperBlock.data_start_lba b + 1 ≤ 163839 →
  512 ≤ Z.of_nat (length io_buf) →
  writes_sectors (WriteRootDirEntries b io_buf) live n x (length io_buf)
    (SuperBlock.data_start_lba b) 1
    (λ l, l = DirEntry.encode dot_entry ++ DirEntry.encode dotdot_entry ++ zeros 456).
Proof.
  intros Hio Hs Hm Hlen. unfold writes_sectors, WriteRootDirEntries.
  change (RoundUpDivide (Directory.min_entry_count * DirEntry.bytes) sector_size) with 1.
  apply bind_assert; [apply Z.leb_le; exact Hlen|]. cbv zeta.
  apply (bind_lift _ (DirEntry.mk 0 (46 :: replicate 16 0) [0; 0; 0] 0)); [reflexivity|].
  apply (bind_lift _ (DirEntry.mk 0 (46 :: 46 :: replicate 15 0) [0; 0; 0] 0)); [reflexivity|].
  change (DirEntry.with_type _ (DirEntry.with_inode _ (DirEntry.mk 0 (46 :: replicate 16 0) _ _)))
    with dot_entry.
  change (DirEntry.with_type _ (DirEntry.with_inode _ (DirEntry.mk 0 (46 :: 46 :: _) _ _)))
    with dotdot_entry.
  set (len := Z.of_nat (length io_buf)) in *. set (e1 := DirEntry.encode dot_entry).
  set (e2 := DirEntry.encode dotdot_entry).
  apply (bind_lift _ (e1 ++ zeros (len - 28))).
  { pose proof (splice_zeros [] len e1) as E. rewrite Z.sub_0_r in E. apply E. simpl. lia. }
  apply (bind_lift _ ((e1 ++ e2) ++ zeros (len - 56))).
  { apply (splice_zeros e1 len e2). simpl. lia. }
  replace ((e1 ++ e2) ++ zeros (len - 56)) with ((e1 ++ e2 ++ zeros 456) ++ zeros (len - 512 * 1)).
  { apply (write_buffer live n x); [done|lia|done|done|reflexivity|lia|done]. }
  rewrite <- !app_assoc. do 2 f_equal. unfold zeros. rewrite <- replicate_add. f_equal. lia.
Qed.
End writers.

(** ** The file system of a partition *)

Section created.
Context {D H : Type} `{Store D} `{Heap H} `{!StoreLaws D} `{!HeapLaws H}.

(** The areas of a partition of [count] sectors at [start], one behind the other
    after its boot sector; the data area has [bits] sectors. *)
Record layout (start count bits : Z) (b : SuperBlock.t) : Prop := {
  layout_wf : SuperBlock.wf b;
  layout_sign : SuperBlock.IsSignValid b = true;
  layout_part : SuperBlock.part_start_lba b = start ∧ SuperBlock.part_sector_count b = count;
  layout_inode_count : SuperBlock.part_inode_count b = 4096;
  layout_block_bitmap : SuperBlock.block_bitmap_start_lba b = start + 2;
  layout_block_bits : 0 < bits ≤ 4096 * SuperBlock.block_bitmap_sector_count b;
  layout_tight : 4096 * (SuperBlock.block_bitmap_sector_count b - 1) < bits;
  layout_inode_bitmap : SuperBlock.inode_bitmap_start_lba b
    = SuperBlock.block_bitmap_start_lba b + SuperBlock.block_bitmap_sector_count b;
  layout_inode_bits : SuperBlock.inode_bitmap_sector_count b = 1;
  layout_inodes : SuperBlock.inodes_start_lba b = SuperBlock.inode_bitmap_start_lba b + 1;
  layout_inodes_count : SuperBlock.inodes_sector_count b = 608;
  layout_data : SuperBlock.data_start_lba b = SuperBlock.inodes_start_lba b + 608;
  layout_inside : SuperBlock.data_start_lba b + bits ≤ start + count;
  layout_root : SuperBlock.root_inode_idx b = 0
}.

(** An empty file system: the super block, one block and one node in use, the
    node of the root directory, and its two entries. *)
Record empty_fs (x : io D H) (bits : Z) (b : SuperBlock.t) : Prop := {
  fs_super_block : SuperBlock.decode (sector x (SuperBlock.part_start_lba b + 1)) = b;
  fs_block_bitmap :
    let c := SuperBlock.block_bitmap_sector_count b in
    bitmap_sectors (sectors x (SuperBlock.block_bitmap_start_lba b) c) c
      (λ i, (i =? 0) || (bits <=? i));
  fs_inode_bitmap : bitmap_sectors (sector x (SuperBlock.inode_bitmap_start_lba b)) 1 (λ i, i =? 0);
  fs_inodes : sectors x (SuperBlock.inodes_start_lba b) 608
    = IdxNode.encode (root_node (SuperBlock.data_start_lba b)) ++ zeros (512 * 608 - 76);
  fs_root : sector x (SuperBlock.data_start_lba b)
    = DirEntry.encode dot_entry ++ DirEntry.encode dotdot_entry ++ zeros 456
}.

(** The sizes [FormatPart] computes. *)
Lemma bitmap_sizes count c bits :
  613 ≤ count ≤ 163839 → CalcSectorCountForBlockBitmap (count - 611) = (c, bits) →
  0 < c ≤ 41 ∧ 0 < bits ≤ 4096 * c ∧ 4096 * (c - 1) < bits ∧ c + bits ≤ count - 611.
Proof.
  intros Hn [= <- <-]. set (f := count - 611).
  change bit_count_per_sector with 4096.
  pose proof (RoundUpDivide_spec f 4096 ltac:(lia) ltac:(lia) ltac:(lia)) as Hr.
  set (r := RoundUpDivide f 4096) in *. assert (Hr1 : 1 ≤ r) by lia.
  rewrite (u32_small (f - r)) by lia.
  pose proof (RoundUpDivide_spec (f - r) 4096 ltac:(lia) ltac:(lia) ltac:(lia)) as Hc. lia.
Qed.

Lemma new_super_block_layout start count c bits :
  0 ≤ start → start + count ≤ 163839 → 613 ≤ count →
  0 < c ≤ 41 → 0 < bits ≤ 4096 * c → 4096 * (c - 1) < bits → c + bits ≤ count - 611 →
  layout start count bits (new_super_block start count c).
Proof.
  intros Hs Hm Hn Hc Hb Ht Hle. unfold new_super_block.
  change (SuperBlock.start_lba) with 1. change super_block_sector_count with 1.
  change inode_bitmap_sector_count with 1. change inodes_sector_count with 608.
  rewrite (u32_small (start + 1)), (u32_small (start + 1 + 1)), (u32_small (start + 1 + 1 + c)),
    (u32_small (start + 1 + 1 + c + 1)), (u32_small (start + 1 + 1 + c + 1 + 608)) by lia.
  split; cbn [SuperBlock.part_start_lba SuperBlock.part_sector_count SuperBlock.part_inode_count
    SuperBlock.block_bitmap_start_lba SuperBlock.block_bitmap_sector_count
    SuperBlock.inode_bitmap_start_lba SuperBlock.inode_bitmap_sector_count
    SuperBlock.inodes_start_lba SuperBlock.inodes_sector_count SuperBlock.data_start_lba
    SuperBlock.root_inode_idx]; try done; try lia.
  unfold SuperBlock.wf, SuperBlock.words, in_u. cbn.
  repeat constructor; cbn; try lia; done.
Qed.

(** The range a writer stored to, read back from its final state. *)
Lemma stored_range (x x' : io D H) start l rest count :
  0 ≤ count → Z.of_nat (length l) = 512 * count → stored start (l ++ rest) count x x' →
  sectors x' start count = l.
Proof.
  intros Hc Hl Hst. rewrite (sectors_stored x x' start (l ++ rest) count Hc) by (rewrite ?length_app; (lia || done)).
  apply take_app_length'. lia.
Qed.

(** Follow a range back through the writes to other ranges. *)
Ltac elsewhere :=
  repeat match goal with
  | Hst : stored ?s ?data ?n ?y ?x |- context [sectors ?x ?s' ?c] =>
      rewrite (sectors_elsewhere y x s data n s' c Hst) by lia
  | Hsame : same_sectors ?y ?x |- context [sectors ?x ?s' ?c] =>
      rewrite (sectors_same y x s' c Hsame)
  end.

Lemma WriteTo_ok part live n (x : io D H) start count bits b :
  io_ok live (S n) x → Part.disk_ part = true → Part.start_lba_ part = start →
  0 ≤ start → start + count ≤ 163839 → layout start count bits b →
  SuperBlock.block_bitmap_sector_count b ≤ 41 →
  runs (WriteTo b part bits) x (λ _ x', io_ok live (S n) x' ∧ empty_fs x' bits b
    ∧ ∀ l, l ≤ start ∨ SuperBlock.data_start_lba b < l → sector x' l = sector x l).
Proof.
  intros Hio Hd Estart Hs Hm Hlay Hc41.
  pose proof Hlay as [Hwf _ [Eps _] _ Ebb Hbits Htight Eib Eic Ein Einc Eda Hin _].
  unfold WriteTo, Part.GetStartLba. rewrite Estart, Eic, Einc.
  set (c := SuperBlock.block_bitmap_sector_count b) in *.
  apply (bind_lift _ tt); [unfold Part.GetDisk; by rewrite Hd|]. change SuperBlock.start_lba with 1.
  change (RoundUpDivide 512 sector_size) with 1. rewrite (u32_small (start + 1)) by lia.
  pose proof (SuperBlock.length_encode b) as Hlen.
  eapply runs_step; [apply (WriteSectors_runs live (S n) x (start + 1) (SuperBlock.encode b) 1 Hio); lia|].
  intros _ x1 [Hio1 Hst1].
  replace (Z.max (Z.max 1 608) c *w sector_size) with 311296
    by (replace (Z.max (Z.max 1 608) c) with 608 by lia; reflexivity).
  cbv zeta. set (len := Z.to_nat 311296).
  assert (Hz : Z.of_nat len = 311296) by (unfold len; lia).
  eapply runs_step; [apply (new_runs live n x1 default_pool 311296 Hio1); unfold max_request; lia|].
  intros a x2 (Ha & Hio2 & Hsame2). set (live2 := <[a := default_pool]> live) in *.
  assert (Hlz : length (zeros 311296) = len) by apply length_replicate.
  eapply runs_step; [apply (WriteBlockBitmap_ok b live2 n x2 (zeros 311296) bits Hio2);
    fold c; rewrite ?Hlz; lia|].
  rewrite Hlz. intros buf3 x3 (Hl3 & Hio3 & l3 & HP3 & Hst3 & Hl3').
  eapply runs_step; [apply (WriteNodeBitmap_ok b live2 n x3 buf3 Hio3); rewrite ?Eic, ?Hl3; lia|].
  rewrite Hl3, Eic. intros buf4 x4 (Hl4 & Hio4 & l4 & HP4 & Hst4 & Hl4').
  eapply runs_step; [apply (WriteRootDirNode_ok b live2 n x4 buf4 Hio4); rewrite ?Einc, ?Hl4; lia|].
  rewrite Hl4, Einc. intros buf5 x5 (Hl5 & Hio5 & l5 & HP5 & Hst5 & Hl5').
  eapply runs_step; [apply (WriteRootDirEntries_ok b live2 n x5 buf5 Hio5); rewrite ?Hl5; lia|].
  rewrite Hl5. intros buf6 x6 (Hl6 & Hio6 & l6 & HP6 & Hst6 & Hl6').
  eapply runs_mono; [apply (delete_runs live2 n x6 default_pool a Hio6), lookup_insert_eq|].
  intros _ x7 [Hio7 Hsame7]. unfold live2 in Hio7. rewrite delete_insert_id in Hio7 by done.
  fold c in Hst3, Hl3', HP3.
  pose proof (stored_range _ _ _ _ _ c ltac:(lia) Hl3' Hst3) as R3.
  pose proof (stored_range _ _ _ _ _ 1 ltac:(lia) Hl4' Hst4) as R4.
  pose proof (stored_range _ _ _ _ _ 608 ltac:(lia) Hl5' Hst5) as R5.
  pose proof (stored_range _ _ _ _ _ 1 ltac:(lia) Hl6' Hst6) as R6.
  pose proof (stored_range x x1 (start + 1) (SuperBlock.encode b) [] 1 ltac:(lia) ltac:(lia)) as R1.
  rewrite app_nil_r in R1. specialize (R1 Hst1).
  split; [exact Hio7|]. split; [split|].
  - rewrite Eps, <- sectors_1. elsewhere. rewrite R1, <- (app_nil_r (SuperBlock.encode b)).
    by apply SuperBlock.decode_encode.
  - fold c. cbv zeta. elsewhere. by rewrite R3.
  - rewrite <- sectors_1. elsewhere. by rewrite R4.
  - elsewhere. by rewrite R5.
  - rewrite <- sectors_1. elsewhere. by rewrite R6.
  - intros l Hl. rewrite <- !sectors_1. by elsewhere.
Qed.

Lemma FormatPart_ok part live n (x : io D H) :
  let start := Part.start_lba_ part in
  let count := Part.sector_count_ part in
  io_ok live (S n) x → Part.disk_ part = true → 0 ≤ start → 613 ≤ count → start + count ≤ 163839 →
  runs (FormatPart part) x (λ _ x', io_ok live (S n) x' ∧ ∃ bits b,
    layout start count bits b ∧ empty_fs x' bits b
    ∧ ∀ l, l ≤ start ∨ SuperBlock.data_start_lba b < l → sector x' l = sector x l).
Proof.
  intros start count Hio Hd Hs Hn Hm. unfold FormatPart, Part.GetSectorCount, Part.GetStartLba.
  fold start count. apply bind_assert; [reflexivity|]. change used_sector_count with 611.
  rewrite (u32_small (count - 611)) by lia. cbv zeta.
  destruct (CalcSectorCountForBlockBitmap (count - 611)) as [c bits] eqn:Ec.
  destruct (bitmap_sizes count c bits ltac:(lia) Ec) as (Hc & Hb & Ht & Hle).
  pose proof (new_super_block_layout start count c bits Hs Hm Hn Hc Hb Ht Hle) as Hlay.
  set (b := new_super_block start count c) in *.
  assert (SuperBlock.block_bitmap_sector_count b ≤ 41) by (simpl; lia).
  eapply runs_mono; [by apply (WriteTo_ok part live n x start count bits b)|].
  intros _ x' (Hio' & Hfs & Hrest). split; [done|]. by exists bits, b.
Qed.

(** The super block is one sector, at byte 512 of the partition. The comment of
    super_block.h and docs/Kernel/File System.md say that it is 4096 bytes long
    and starts at byte 4096; formatting, testing and mounting a partition all
    follow the code, so they agree with each other and not with the documents. *)
Lemma super_block_place :
  SuperBlock.start_lba * sector_size = 512 ∧ super_block_sector_count * sector_size = 512.
Proof. split; reflexivity. Qed.

(** C19. [FormatPart] returns on every partition of at least 613 sectors that the
    driver can reach. It lays the super block, the bitmap of blocks, the bitmap
    of nodes, the nodes and the data out one behind the other inside the
    partition, and leaves an empty file system there: the super block is the
    sector behind the boot sector (the documents give it 4096 bytes at offset
    4096, see [super_block_place]) and reads back, the root directory has the first node and the first block and the two
    entries of an empty directory, every other node and block is free, and the
    bits of the bitmap behind the last block are marked. No other sector
    changes, and the buffer is given back. *)
Theorem FormatPart_creates part live n (x : io D H) :
  let start := Part.start_lba_ part in
  let count := Part.sector_count_ part in
  io_ok live (S n) x → Part.disk_ part = true → 0 ≤ start → 613 ≤ count → start + count ≤ 163839 →
  runs (FormatPart part) x (λ _ x', io_ok live (S n) x' ∧ ∃ bits b,
    layout start count bits b ∧ empty_fs x' bits b
    ∧ ∀ l, l ≤ start ∨ SuperBlock.data_start_lba b < l → sector x' l = sector x l).
Proof. apply FormatPart_ok. Qed.
End created.

#[local] Existing Instance Ram.ram_store.
#[local] Existing Instance Ram.ram_store_laws.
#[local] Existing Instance Ram.ram_heap.
#[local] Existing Instance Ram.ram_heap_laws.

(** The partition of 2000 sectors behind the first 63 of an empty disk. *)
Definition demo_part : Part.t := Part.mk 63 2000 (replicate 9 0) true.

Lemma FormatPart_creates_witness :
  runs (FormatPart demo_part) Ram.fresh (λ _ x', io_ok ∅ 1 x' ∧ ∃ bits b,
    layout 63 2000 bits b ∧ empty_fs x' bits b
    ∧ ∀ l, l ≤ 63 ∨ SuperBlock.data_start_lba b < l → sector x' l = sector Ram.fresh l).
Proof.
  apply (FormatPart_creates demo_part ∅ 0 Ram.fresh); [apply Ram.fresh_ok|reflexivity|simpl; lia..].
Defined.
End FsFormat.
