(* ===== verification/FsPart.v ===== *)
(** * A mounted partition

    [FilePart] models the members of [Disk::FilePart] of
    src/src/kernel/io/disk/part.cpp that keep the bitmaps and the index nodes:
    loading the super block and the bitmaps, allocating and freeing nodes and
    blocks, and opening, saving, clearing, deleting and closing index nodes
    ([IdxNode::Close] of src/src/kernel/io/disk/file/inode.cpp). The open nodes
    are objects of the heap at their addresses, and the list of open nodes is
    the sequence of these addresses, which is what [TagList] refines. *)
From S2P Require Import Prelude UtilBit UtilBitmap StlString IoPath IoFileDesc MemPool IoDisk FsBase IoPart FsData FsFormat.
Import metric.

Module FilePart.
Import Bytes.

(** [Disk::FilePart], the fields of [Part] in [base]. *)
Record t := mk {
  base : Part.t; super_block_ : option SuperBlock.t;
  block_bitmap_ : Bitmap.t; inode_bitmap_ : Bitmap.t;
  open_inodes_ : list Z
}.

Definition with_super_block (b : SuperBlock.t) (p : t) : t :=
  mk (base p) (Some b) (block_bitmap_ p) (inode_bitmap_ p) (open_inodes_ p).
Definition with_block_bitmap (b : Bitmap.t) (p : t) : t :=
  mk (base p) (super_block_ p) b (inode_bitmap_ p) (open_inodes_ p).
Definition with_inode_bitmap (b : Bitmap.t) (p : t) : t :=
  mk (base p) (super_block_ p) (block_bitmap_ p) b (open_inodes_ p).
Definition with_open_inodes (l : list Z) (p : t) : t :=
  mk (base p) (super_block_ p) (block_bitmap_ p) (inode_bitmap_ p) l.

Inductive BitmapType := Node | Block.

(** ** The state of the file system

    The device and the heap, the mounted partition, the objects on the heap
    (index nodes and directories) by address, the root directory, the file
    table of the system and the descriptor table of the running task. *)
Section world.
Context {D H : Type} `{Store D} `{Heap H}.

Record world := mk_world {
  dev : io D H; part : t;
  nodes : gmap Z IdxNode.t; dirs : gmap Z Directory.t; root_dir : Directory.t;
  files : FileTab.t; descs : FileDescTab.t
}.

Definition with_dev (x : io D H) (w : world) : world :=
  mk_world x (part w) (nodes w) (dirs w) (root_dir w) (files w) (descs w).
Definition with_part (p : t) (w : world) : world :=
  mk_world (dev w) p (nodes w) (dirs w) (root_dir w) (files w) (descs w).
Definition with_nodes (m : gmap Z IdxNode.t) (w : world) : world :=
  mk_world (dev w) (part w) m (dirs w) (root_dir w) (files w) (descs w).
Definition with_dirs (m : gmap Z Directory.t) (w : world) : world :=
  mk_world (dev w) (part w) (nodes w) m (root_dir w) (files w) (descs w).
Definition with_root_dir (d : Directory.t) (w : world) : world :=
  mk_world (dev w) (part w) (nodes w) (dirs w) d (files w) (descs w).
Definition with_files (tab : FileTab.t) (w : world) : world :=
  mk_world (dev w) (part w) (nodes w) (dirs w) (root_dir w) tab (descs w).
Definition with_descs (tab : FileDescTab.t) (w : world) : world :=
  mk_world (dev w) (part w) (nodes w) (dirs w) (root_dir w) (files w) tab.

Definition on_dev {A} (m : M (io D H) A) : M world A := zoom dev with_dev m.

(** [GetDisk().ReadSectors] and [GetDisk().WriteSectors] *)
Definition GetDisk : M world unit := λ w, lift (Part.GetDisk (base (part w))) w.
Definition disk_read (start count : Z) : M world (list Z) :=
  GetDisk;; on_dev (ReadSectors start count).
Definition disk_write (start : Z) (data : list Z) (count : Z) : M world unit :=
  GetDisk;; on_dev (WriteSectors start data count).

Definition GetSuperBlock : M world SuperBlock.t :=
  b ← gets (λ w, super_block_ (part w)); assert (bool_decide (is_Some b));; lift (of_option b).

(** The node at an address, and its update. *)
Definition node_at (a : Z) : M world IdxNode.t := m ← gets nodes; lift (of_option (m !! a)).
Definition set_node (a : Z) (n : IdxNode.t) : M world unit :=
  modify (λ w, with_nodes (<[a := n]> (nodes w)) w).

(** ** Index node positions *)

Record IdxNodePos := mk_pos { is_across_sectors : bool; lba : Z; offset_in_sector : Z }.

Definition GetIdxNodePos (idx : Z) : M world IdxNodePos :=
  assert (idx <? max_file_count_per_part);;
  let offset := idx *w IdxNode.bytes in
  let offset_in_sector := offset mod sector_size in
  b ← GetSuperBlock;
  let lba := SuperBlock.inodes_start_lba b +w offset / sector_size in
  p ← gets part;
  assert (lba <? Part.GetStartLba (base p) +w Part.GetSectorCount (base p));;
  mret (mk_pos (sector_size - offset_in_sector <? IdxNode.bytes) lba offset_in_sector).

(** The sectors a node is in. *)
Definition pos_sector_count (p : IdxNodePos) : Z := if is_across_sectors p then 2 else 1.

Definition indirect_sector_count_per_inode : nat := 128.
Definition sector_count_per_inode : Z :=
  Z.of_nat IdxNode.direct_block_count + Z.of_nat indirect_sector_count_per_inode.

(** [LoadNodeLbas]: the blocks of a node, 0 for none. *)
Definition LoadNodeLbas (n : IdxNode.t) : M world (list Z) :=
  if negb (IdxNode.GetIndirectTabLba n =? 0) then
    tab ← disk_read (IdxNode.GetIndirectTabLba n) 1;
    mret (IdxNode.direct_lbas_ n ++ get_words indirect_sector_count_per_inode tab)
  else mret (IdxNode.direct_lbas_ n ++ replicate indirect_sector_count_per_inode 0).

(** ** Mounting *)

Definition load_bitmap (start count : Z) : M world Bitmap.t :=
  let byte_len := count *w sector_size in
  bits ← on_dev (new default_pool byte_len);
  data ← disk_read start count;
  lift (Bitmap.Init (Some data) byte_len false).

Definition LoadBlockBitmap : M world unit :=
  b ← GetSuperBlock;
  bm ← load_bitmap (SuperBlock.block_bitmap_start_lba b) (SuperBlock.block_bitmap_sector_count b);
  modify (λ w, with_part (with_block_bitmap bm (part w)) w).

Definition LoadNodeBitmap : M world unit :=
  b ← GetSuperBlock;
  bm ← load_bitmap (SuperBlock.inode_bitmap_start_lba b) (SuperBlock.inode_bitmap_sector_count b);
  modify (λ w, with_part (with_inode_bitmap bm (part w)) w).

Definition LoadSuperBlock : M world unit :=
  p ← gets part;
  assert (bool_decide (super_block_ p = None));;
  let sector_count := RoundUpDivide 512 sector_size in
  addr ← on_dev (new default_pool (sector_count * sector_size));
  buf ← disk_read (Part.start_lba_ (base p) +w SuperBlock.start_lba) sector_count;
  _ ← on_dev (new default_pool SuperBlock.size);
  modify (λ w, with_part (with_super_block (SuperBlock.decode buf) (part w)) w);;
  on_dev (delete_ default_pool addr);;
  LoadBlockBitmap;; LoadNodeBitmap.

(** ** The bitmaps *)

Definition AllocNode : M world Z :=
  p ← gets part;
  '(bm, idx) ← lift (Bitmap.Alloc (inode_bitmap_ p) 1);
  modify (with_part (with_inode_bitmap bm p));;
  mret idx.

Definition FreeNode (idx : Z) : M world unit :=
  p ← gets part;
  bm ← lift (Bitmap.Free (inode_bitmap_ p) idx 1);
  modify (with_part (with_inode_bitmap bm p)).

Definition AllocBlock : M world Z :=
  p ← gets part;
  '(bm, idx) ← lift (Bitmap.Alloc (block_bitmap_ p) 1);
  modify (with_part (with_block_bitmap bm p));;
  if negb (idx =? npos) then b ← GetSuperBlock; mret (idx +w SuperBlock.data_start_lba b)
  else mret npos.

Definition FreeBlock (lba : Z) : M world unit :=
  b ← GetSuperBlock;
  let start_lba := SuperBlock.data_start_lba b in
  assert (start_lba <=? lba);;
  p ← gets part;
  bm ← lift (Bitmap.Free (block_bitmap_ p) (lba -w start_lba) 1);
  modify (with_part (with_block_bitmap bm p)).

(** The sector of the bitmap the bit is in goes to the disk. *)
Definition SyncBitmap (type : BitmapType) (bit_idx : Z) : M world unit :=
  let sector_offset := bit_idx / bit_count_per_sector in
  let byte_offset := sector_offset *w sector_size in
  b ← GetSuperBlock;
  p ← gets part;
  let '(start, bm) := match type with
    | Node => (SuperBlock.inode_bitmap_start_lba b, inode_bitmap_ p)
    | Block => (SuperBlock.block_bitmap_start_lba b, block_bitmap_ p)
    end in
  bits ← lift (of_option (Bitmap.GetBits bm));
  data ← lift (slice bits byte_offset sector_size);
  disk_write (sector_offset +w start) data 1.

Definition SyncNodeBitmap (idx : Z) : M world unit := SyncBitmap Node idx.

Definition SyncBlockBitmap (lba : Z) : M world unit :=
  b ← GetSuperBlock;
  let start_lba := SuperBlock.data_start_lba b in
  assert (start_lba <=? lba);;
  SyncBitmap Block (lba -w start_lba).

(** ** Index nodes *)

(** The address of the open node [idx], the first of the list. *)
Fixpoint find_open (idx : Z) (l : list Z) : M world (option Z) :=
  match l with
  | [] => mret None
  | a :: l' => n ← node_at a; if IdxNode.idx n =? idx then mret (Some a) else find_open idx l'
  end.

Definition OpenNode (idx : Z) : M world Z :=
  assert (idx <? max_file_count_per_part);;
  p ← gets part;
  found ← find_open idx (open_inodes_ p);
  match found with
  | Some a =>
      n ← node_at a;
      set_node a (IdxNode.with_open_times (IdxNode.open_times n +w 1) n);;
      mret a
  | None =>
      a ← on_dev (new MemInit.Kernel IdxNode.bytes);
      pos ← GetIdxNodePos idx;
      let sector_count := pos_sector_count pos in
      addr ← on_dev (new default_pool (sector_count * sector_size));
      buf ← disk_read (lba pos) sector_count;
      img ← lift (slice buf (offset_in_sector pos) IdxNode.bytes);
      on_dev (delete_ default_pool addr);;
      set_node a (IdxNode.with_open_times 1 (IdxNode.decode img));;
      modify (λ w, with_part (with_open_inodes (open_inodes_ (part w) ++ [a]) (part w)) w);;
      mret a
  end.

(** [IdxNode::Close]. A node that leaves the list has been put in it. *)
Definition CloseNode (a : Z) : M world unit :=
  n ← node_at a;
  let open_times := IdxNode.open_times n -w 1 in
  if open_times =? 0 then
    p ← gets part;
    assert (bool_decide (a ∈ open_inodes_ p));;
    modify (λ w, with_nodes (delete a (nodes w))
      (with_part (with_open_inodes (filter (.≠ a) (open_inodes_ p)) p) w));;
    on_dev (delete_ MemInit.Kernel a)
  else set_node a (IdxNode.with_open_times open_times n).

(** [SyncNode]; the buffer is left with the sectors of the node. *)
Definition SyncNode (n : IdxNode.t) (io_buf : list Z) : M world (list Z) :=
  assert (2 * sector_size <=? Z.of_nat (length io_buf));;
  let pure := IdxNode.CloneToPure n in
  pos ← GetIdxNodePos (IdxNode.idx n);
  let sector_count := pos_sector_count pos in
  data ← disk_read (lba pos) sector_count;
  io_buf ← lift (splice io_buf 0 data);
  io_buf ← lift (splice io_buf (offset_in_sector pos) (IdxNode.encode pure));
  disk_write (lba pos) io_buf sector_count;;
  mret io_buf.

Definition ZeroFillNode (idx : Z) (io_buf : list Z) : M world (list Z) :=
  assert (2 * sector_size <=? Z.of_nat (length io_buf));;
  assert (idx <? max_file_count_per_part);;
  pos ← GetIdxNodePos idx;
  let sector_count := pos_sector_count pos in
  data ← disk_read (lba pos) sector_count;
  io_buf ← lift (splice io_buf 0 data);
  io_buf ← lift (splice io_buf (offset_in_sector pos) (zeros IdxNode.bytes));
  disk_write (lba pos) io_buf sector_count;;
  mret io_buf.

(** The blocks of a node that are not 0 go back. *)
Fixpoint free_blocks (lbas : list Z) : M world unit :=
  match lbas with
  | [] => mret tt
  | lba :: lbas' =>
      (if negb (lba =? 0) then FreeBlock lba;; SyncBlockBitmap lba else mret tt);;
      free_blocks lbas'
  end.

Definition DeleteNode (idx : Z) : M world unit :=
  a ← OpenNode idx;
  n ← node_at a;
  lbas ← LoadNodeLbas n;
  free_blocks lbas;;
  free_blocks [IdxNode.GetIndirectTabLba n];;
  FreeNode idx;;
  SyncNodeBitmap idx;;
  io_buf ← on_dev (try_new default_pool (2 * sector_size));
  match io_buf with
  | Some addr => ZeroFillNode idx (zeros (2 * sector_size));; on_dev (delete_ default_pool addr)
  | None => mret tt
  end;;
  CloseNode a.

End world.
#[global] Arguments world : clear implicits.

(** ** Steps of a run on a mounted partition *)

Section steps.
Context {D H : Type} `{Store D} `{Heap H} `{!StoreLaws D} `{!HeapLaws H}.
Local Abbreviation world := (FilePart.world D H).

(** The partition is on the disk. *)
Definition attached (w : world) : Prop := Part.disk_ (base (part w)) = true.

Lemma bind_read {A} (w : world) live n start count (k : list Z → M world A) Q :
  attached w → io_ok live n (dev w) → 0 < count → 0 ≤ start → start + count ≤ 163839 →
  (∀ x', io_ok live n x' → same_sectors (dev w) x' →
    runs (k (sectors (dev w) start count)) (with_dev x' w) Q) →
  runs (disk_read start count ≫= k) w Q.
Proof.
  intros Hd Hio Hc Hs Hm Hk. unfold disk_read, GetDisk. apply bind_assoc.
  eapply (runs_step _ _ _ (λ _ w', w' = w)).
  { exists tt, w. unfold lift, Part.GetDisk. by rewrite Hd. }
  intros _ ? ->. eapply runs_step.
  - eapply (runs_zoom _ _ _ _ _ (λ data w', data = sectors (dev w) start count ∧ ∃ x',
      w' = with_dev x' w ∧ io_ok live n x' ∧ same_sectors (dev w) x'));
      [by apply (ReadSectors_runs live n)|]. intros data x' (-> & ? & ?). eauto.
  - intros data w' (-> & x' & -> & ? & ?). by apply Hk.
Qed.

Lemma bind_write {A} (w : world) live n start data count (k : unit → M world A) Q :
  attached w → io_ok live n (dev w) → 0 < count → 0 ≤ start → start + count ≤ 163839 →
  512 * count ≤ Z.of_nat (length data) →
  (∀ x', io_ok live n x' → stored start data count (dev w) x' → runs (k tt) (with_dev x' w) Q) →
  runs (disk_write start data count ≫= k) w Q.
Proof.
  intros Hd Hio Hc Hs Hm Hl Hk. unfold disk_write, GetDisk. apply bind_assoc.
  eapply (runs_step _ _ _ (λ _ w', w' = w)).
  { exists tt, w. unfold lift, Part.GetDisk. by rewrite Hd. }
  intros _ ? ->. eapply runs_step.
  - eapply (runs_zoom _ _ _ _ _ (λ _ w', ∃ x', w' = with_dev x' w ∧ io_ok live n x'
      ∧ stored start data count (dev w) x')); [by apply (WriteSectors_runs live n)|].
    intros ? x' (? & ?). eauto.
  - intros [] w' (x' & -> & ? & ?). by apply Hk.
Qed.

Lemma bind_new {A} (w : world) live n p `{Hp : !serves p} size (k : Z → M world A) Q :
  io_ok live (S n) (dev w) → 0 < size ≤ max_request →
  (∀ a x', live !! a = None → io_ok (<[a := p]> live) n x' → same_sectors (dev w) x' →
    runs (k a) (with_dev x' w) Q) →
  runs (on_dev (new p size) ≫= k) w Q.
Proof.
  intros Hio Hs Hk. eapply runs_step.
  - eapply (runs_zoom _ _ _ _ _ (λ a w', live !! a = None ∧ ∃ x', w' = with_dev x' w
      ∧ io_ok (<[a := p]> live) n x' ∧ same_sectors (dev w) x')); [by apply (new_runs live n)|].
    intros a x' (? & ? & ?). eauto.
  - intros a w' (? & x' & -> & ? & ?). by apply Hk.
Qed.

Lemma bind_delete {A} (w : world) live n p a (k : unit → M world A) Q :
  io_ok live n (dev w) → live !! a = Some p →
  (∀ x', io_ok (delete a live) (S n) x' → same_sectors (dev w) x' → runs (k tt) (with_dev x' w) Q) →
  runs (on_dev (delete_ p a) ≫= k) w Q.
Proof.
  intros Hio Ha Hk. eapply runs_step.
  - eapply (runs_zoom _ _ _ _ _ (λ _ w', ∃ x', w' = with_dev x' w
      ∧ io_ok (delete a live) (S n) x' ∧ same_sectors (dev w) x')); [by apply (delete_runs live n)|].
    intros ? x' (? & ?). eauto.
  - intros [] w' (x' & -> & ? & ?). by apply Hk.
Qed.

(** ** A mounted partition *)

Record mounted (bits : Z) (b : SuperBlock.t) (w : world) : Prop := {
  m_super_block : super_block_ (part w) = Some b;
  m_disk : attached w;
  m_start : Part.start_lba_ (base (part w)) = SuperBlock.part_start_lba b;
  m_count : Part.sector_count_ (base (part w)) = SuperBlock.part_sector_count b;
  m_layout : FsFormat.layout (SuperBlock.part_start_lba b) (SuperBlock.part_sector_count b) bits b;
  m_range : 0 ≤ SuperBlock.part_start_lba b
    ∧ SuperBlock.part_start_lba b + SuperBlock.part_sector_count b ≤ 163839;
  m_block_bitmap : Bitmap.wf (block_bitmap_ (part w))
    ∧ Bitmap.byte_len_ (block_bitmap_ (part w)) = 512 * SuperBlock.block_bitmap_sector_count b;
  m_inode_bitmap : Bitmap.wf (inode_bitmap_ (part w)) ∧ Bitmap.byte_len_ (inode_bitmap_ (part w)) = 512
}.

Lemma mounted_dev bits b w x : mounted bits b w → mounted bits b (with_dev x w).
Proof. by intros []. Qed.

Lemma bind_super_block {A} bits b (w : world) (k : SuperBlock.t → M world A) Q :
  mounted bits b w → runs (k b) w Q → runs (GetSuperBlock ≫= k) w Q.
Proof.
  intros [Hb _ _ _ _ _ _ _] Hk. unfold GetSuperBlock. apply bind_assoc, bind_gets. rewrite Hb.
  apply bind_assoc, bind_assert; [by apply bool_decide_eq_true_2; eauto|]. by apply (bind_lift _ b).
Qed.

(** The place of a node: its sectors, and its first byte on the disk. *)
Definition pos_of (b : SuperBlock.t) (idx : Z) : IdxNodePos :=
  let off := 76 * idx mod 512 in
  mk_pos (512 - off <? 76) (SuperBlock.inodes_start_lba b + 76 * idx / 512) off.
Definition node_addr (b : SuperBlock.t) (idx : Z) : Z :=
  512 * SuperBlock.inodes_start_lba b + 76 * idx.

(** The nodes are in front of the data. *)
Lemma node_addr_range bits b w idx :
  mounted bits b w → 0 ≤ idx < 4096 →
  512 * SuperBlock.inodes_start_lba b ≤ node_addr b idx
  ∧ node_addr b idx + 76 ≤ 512 * SuperBlock.data_start_lba b.
Proof.
  intros Hm Hi. pose proof Hm as [_ _ _ _ [_ _ _ _ Ebb Hbits _ Eib _ Ein _ Eda _ _] [Hs Hr] _ _]. unfold node_addr. lia.
Qed.

Lemma pos_facts bits b w idx :
  mounted bits b w → 0 ≤ idx < 4096 →
  let p := pos_of b idx in
  node_addr b idx = 512 * lba p + offset_in_sector p
  ∧ 0 ≤ offset_in_sector p ∧ offset_in_sector p + 76 ≤ 512 * pos_sector_count p
  ∧ 1 ≤ pos_sector_count p ≤ 2 ∧ SuperBlock.inodes_start_lba b ≤ lba p
  ∧ lba p + pos_sector_count p ≤ SuperBlock.data_start_lba b
  ∧ 0 ≤ lba p ∧ lba p + pos_sector_count p ≤ 163839.
Proof.
  intros [_ _ _ _ Hlay [Hs Hm] _ _] Hi p. subst p.
  destruct Hlay as [_ _ _ _ Ebb Hbits _ Eib _ Ein _ Eda Hin _].
  unfold pos_of, node_addr, pos_sector_count. cbn [is_across_sectors lba offset_in_sector].
  destruct (Z.ltb_spec (512 - 76 * idx mod 512) 76); div_lia.
Qed.

Lemma bind_pos {A} bits b (w : world) idx (k : IdxNodePos → M world A) Q :
  mounted bits b w → 0 ≤ idx < 4096 → runs (k (pos_of b idx)) w Q →
  runs (GetIdxNodePos idx ≫= k) w Q.
Proof.
  intros Hm Hi Hk. pose proof (pos_facts bits b w idx Hm Hi) as (_ & _ & _ & _ & _ & Hle & Hl0 & _).
  pose proof Hm as [_ _ Es Ec Hlay [Hs Hr] _ _]. pose proof Hlay as [_ _ _ _ _ Hb _ _ _ _ _ _ Hin _].
  unfold GetIdxNodePos. apply bind_assoc, bind_assert; [apply Z.ltb_lt; unfold max_file_count_per_part; lia|]. cbv zeta.
  change IdxNode.bytes with 76. change sector_size with 512.
  rewrite (u32_small (idx * 76)) by lia. rewrite (Z.mul_comm idx 76).
  apply bind_assoc, (bind_super_block bits b); [done|].
  unfold pos_of in Hle, Hl0. cbn [lba is_across_sectors offset_in_sector pos_sector_count] in Hle, Hl0.
  assert (1 ≤ pos_sector_count (pos_of b idx)) by (unfold pos_sector_count; case_match; lia).
  unfold pos_of in *.
  apply bind_assoc, bind_gets. unfold Part.GetStartLba, Part.GetSectorCount. rewrite Es, Ec.
  rewrite !u32_small by lia.
  apply bind_assoc, bind_assert; [apply Z.ltb_lt; lia|]. exact Hk.
Qed.

(** ** Saving and loading index nodes *)

Lemma wf_pure n : IdxNode.wf n → IdxNode.wf (IdxNode.CloneToPure n).
Proof.
  intros [Hw Hp Hd Hl]. split; [|done|done|done].
  apply Forall_cons in Hw as [Hi Hw]. apply Forall_cons in Hw as [Hs _].
  by apply Forall_cons; split; [|apply Forall_cons; split; [|apply Forall_singleton]].
Qed.

(** The sectors of a node into the buffer, the bytes [l] over them, and back to
    the disk. *)
Definition patch_node (b : SuperBlock.t) (idx : Z) (l io_buf : list Z) : M world (list Z) :=
  let p := pos_of b idx in
  data ← disk_read (lba p) (pos_sector_count p);
  io_buf ← lift (splice io_buf 0 data);
  io_buf ← lift (splice io_buf (offset_in_sector p) l);
  disk_write (lba p) io_buf (pos_sector_count p);;
  mret io_buf.

Lemma patch_node_ok bits b (w : world) live n idx l io_buf :
  mounted bits b w → io_ok live n (dev w) → 0 ≤ idx < 4096 → length l = 76%nat →
  1024 ≤ Z.of_nat (length io_buf) →
  runs (patch_node b idx l io_buf) w (λ io_buf' w', ∃ x', w' = with_dev x' w ∧ io_ok live n x'
    ∧ length io_buf' = length io_buf ∧ patched (node_addr b idx) l (dev w) x').
Proof.
  intros Hm Hio Hi Hl Hb. unfold patch_node. cbv zeta.
  destruct (pos_facts bits b w idx Hm Hi) as (Ha & Ho & Hle & Hc & _ & _ & Hl0 & Hr).
  set (p := pos_of b idx) in *.
  apply (bind_read w live n); [by destruct Hm|done|lia|lia|lia|]. intros x1 Hio1 Hs1.
  pose proof (length_fs_sectors (dev w) (lba p) (pos_sector_count p) ltac:(lia)) as Hlen.
  destruct (splice_fits io_buf 0 (sectors (dev w) (lba p) (pos_sector_count p))) as [b1 E1]; [lia|].
  destruct (splice_inv _ 0 _ _ ltac:(lia) E1) as [Hlen1 _].
  destruct (splice_fits b1 (offset_in_sector p) l) as [b2 E2]; [lia|].
  destruct (splice_inv _ _ _ _ Ho E2) as [Hlen2 _].
  apply (bind_lift _ _ _ _ _ E1), (bind_lift _ _ _ _ _ E2).
  apply (bind_write _ live n); [by destruct Hm|done|lia|lia|lia|lia|]. intros x2 Hio2 Hst2.
  apply runs_ret. exists x2. split; [done|]. split; [done|]. split; [lia|]. rewrite Ha.
  rewrite <- (sectors_same _ _ _ _ Hs1) in E1.
  intros q Hq. rewrite <- (same_byte _ _ _ Hs1).
  by apply (read_modify_write x1 x2 (lba p) (pos_sector_count p) (offset_in_sector p) l io_buf b1 b2);
    [lia|lia|lia|lia|lia|..].
Qed.

Lemma SyncNode_patch bits b (w : world) node io_buf Q :
  mounted bits b w → 0 ≤ IdxNode.idx node < 4096 → 1024 ≤ Z.of_nat (length io_buf) →
  runs (patch_node b (IdxNode.idx node) (IdxNode.encode (IdxNode.CloneToPure node)) io_buf) w Q →
  runs (SyncNode node io_buf) w Q.
Proof.
  intros Hm Hi Hb Hr. unfold SyncNode. apply bind_assert; [apply Z.leb_le; exact Hb|]. cbv zeta.
  by apply (bind_pos bits b).
Qed.

(** [SyncNode] stores the image of the node, closed and not being written, at
    its place, and touches no other byte of the disk. *)
Lemma SyncNode_ok bits b (w : world) live n node io_buf :
  mounted bits b w → io_ok live n (dev w) → IdxNode.wf node → 0 ≤ IdxNode.idx node < 4096 →
  1024 ≤ Z.of_nat (length io_buf) →
  runs (SyncNode node io_buf) w (λ io_buf' w', ∃ x', w' = with_dev x' w ∧ io_ok live n x'
    ∧ length io_buf' = length io_buf
    ∧ patched (node_addr b (IdxNode.idx node)) (IdxNode.encode (IdxNode.CloneToPure node)) (dev w) x').
Proof.
  intros Hm Hio Hwf Hi Hb. apply (SyncNode_patch bits b); [done..|].
  apply (patch_node_ok bits b w live n); [done..| |done].
  by apply IdxNode.length_node_encode, wf_pure.
Qed.

Lemma ZeroFillNode_ok bits b (w : world) live n idx io_buf :
  mounted bits b w → io_ok live n (dev w) → 0 ≤ idx < 4096 → 1024 ≤ Z.of_nat (length io_buf) →
  runs (ZeroFillNode idx io_buf) w (λ io_buf' w', ∃ x', w' = with_dev x' w ∧ io_ok live n x'
    ∧ length io_buf' = length io_buf ∧ patched (node_addr b idx) (zeros 76) (dev w) x').
Proof.
  intros Hm Hio Hi Hb. unfold ZeroFillNode. apply bind_assert; [apply Z.leb_le; exact Hb|].
  apply bind_assert; [apply Z.ltb_lt; unfold max_file_count_per_part; lia|]. cbv zeta.
  apply (bind_pos bits b); [done..|].
  by apply (patch_node_ok bits b w live n idx (zeros IdxNode.bytes)).
Qed.

(** ** Opening index nodes *)

(** The list of open nodes: objects on the heap, each once, none for the same
    node, all open. *)
Record opens_ok (live : gmap Z MemInit.PoolType) (w : world) : Prop := {
  opens_nodup : NoDup (open_inodes_ (part w));
  opens_live : ∀ a, a ∈ open_inodes_ (part w) →
    ∃ n, nodes w !! a = Some n ∧ live !! a = Some MemInit.Kernel ∧ 0 < IdxNode.open_times n;
  opens_inj : ∀ a a' n n', a ∈ open_inodes_ (part w) → a' ∈ open_inodes_ (part w) →
    nodes w !! a = Some n → nodes w !! a' = Some n' → IdxNode.idx n = IdxNode.idx n' → a = a'
}.

(** No open object is the node [idx]. *)
Definition not_open (idx : Z) (w : world) : Prop :=
  ∀ a n, a ∈ open_inodes_ (part w) → nodes w !! a = Some n → IdxNode.idx n ≠ idx.

Lemma node_at_ok {A} a node (w : world) (k : IdxNode.t → M world A) Q :
  nodes w !! a = Some node → runs (k node) w Q → runs (node_at a ≫= k) w Q.
Proof.
  intros Ha Hk. unfold node_at. apply bind_assoc, bind_gets. apply (bind_lift _ node); [|done].
  by rewrite Ha.
Qed.

Lemma find_open_ok idx l (w : world) :
  (∀ a, a ∈ l → is_Some (nodes w !! a)) →
  runs (find_open idx l) w (λ r w', w' = w ∧ match r with
    | Some a => a ∈ l ∧ ∃ n, nodes w !! a = Some n ∧ IdxNode.idx n = idx
    | None => ∀ a n, a ∈ l → nodes w !! a = Some n → IdxNode.idx n ≠ idx
    end).
Proof.
  induction l as [|a l IH]; intros Hl; cbn [find_open].
  { apply runs_ret. split; [done|]. by intros a n Ha%elem_of_nil. }
  destruct (Hl a) as [node Ha]; [by constructor|]. apply (node_at_ok _ node); [done|].
  destruct (Z.eqb_spec (IdxNode.idx node) idx) as [He|Hne].
  - apply runs_ret. split; [done|]. split; [by constructor|]. eauto.
  - eapply runs_mono; [apply IH; intros a' Ha'; apply Hl; by constructor|].
    intros [a'|] w' [-> Hr]; (split; [done|]).
    + destruct Hr as [Ha' Hr]. split; [by constructor|]. done.
    + intros a' n [->|Ha']%elem_of_cons Hn; [congruence|by eapply Hr].
Qed.

(** A node that is not open is read from the disk into a new object. *)
Lemma OpenNode_loads bits b (w : world) live n idx node :
  mounted bits b w → opens_ok live w → io_ok live (S (S n)) (dev w) → 0 ≤ idx < 4096 →
  not_open idx w → IdxNode.wf node → bytes_from (dev w) (node_addr b idx) (IdxNode.encode node) →
  runs (OpenNode idx) w (λ a w', live !! a = None ∧ ∃ x', same_sectors (dev w) x'
    ∧ io_ok (<[a := MemInit.Kernel]> live) (S n) x'
    ∧ w' = with_part (with_open_inodes (open_inodes_ (part w) ++ [a]) (part w))
        (with_nodes (<[a := IdxNode.with_open_times 1 node]> (nodes w)) (with_dev x' w))).
Proof.
  intros Hm [_ Hlive _] Hio Hi Hno Hwf Hbytes. unfold OpenNode.
  apply bind_assert; [apply Z.ltb_lt; unfold max_file_count_per_part; lia|]. apply bind_gets.
  eapply runs_step; [apply find_open_ok; intros a Ha; destruct (Hlive a Ha) as (? & -> & _); eauto|].
  intros [a|] ? [-> Hr]; [destruct Hr as (Ha & node' & Hn & He); exfalso; by eapply Hno|].
  apply (bind_new w live (S n) MemInit.Kernel); [done|done|]. intros a x1 Ha Hio1 Hs1.
  apply (bind_pos bits b); [by apply mounted_dev|done|]. cbv zeta.
  destruct (pos_facts bits b w idx Hm Hi) as (Haddr & Ho & Hle & Hc & _ & _ & Hl0 & Hr').
  set (p := pos_of b idx) in *.
  apply (bind_new _ (<[a := MemInit.Kernel]> live) n default_pool); [exact Hio1|unfold sector_size, max_request; change Disk.sector_size with 512; lia|].
  intros addr x2 Haddr' Hio2 Hs2. cbn [dev with_dev] in Hs2.
  apply (bind_read _ (<[addr := default_pool]> (<[a := MemInit.Kernel]> live)) n); [by destruct Hm|exact Hio2|lia|lia|lia|]. intros x3 Hio3 Hs3.
  cbn [dev with_dev] in *.
  assert (Hs02 : same_sectors (dev w) x2) by (by eapply same_sectors_trans).
  rewrite (sectors_same _ _ _ _ Hs02).
  pose proof (length_fs_sectors (dev w) (lba p) (pos_sector_count p) ltac:(lia)) as Hlen.
  pose proof (IdxNode.length_node_encode node Hwf) as Henc.
  apply (bind_lift _ (IdxNode.encode node)).
  { change IdxNode.bytes with 76. rewrite slice_ok by lia. f_equal. change (Z.to_nat 76) with 76%nat.
    rewrite <- Henc. apply bytes_from_slice; [lia|lia|lia|by rewrite <- Haddr]. }
  apply (bind_delete _ (<[addr := default_pool]> (<[a := MemInit.Kernel]> live)) n default_pool addr); [exact Hio3|apply lookup_insert_eq|].
  intros x4 Hio4 Hs4. rewrite delete_insert_id in Hio4 by done. cbn [dev with_dev] in *.
  unfold set_node. apply bind_modify, bind_modify, runs_ret. split; [done|].
  exists x4. split; [eauto using same_sectors_trans|]. split; [done|].
  pose proof (IdxNode.decode_node_encode node [] Hwf) as Hdec. rewrite app_nil_r in Hdec. by rewrite Hdec.
Qed.

(** C11. An index node that [SyncNode] saved is the one [OpenNode] loads: the
    object it returns has the size and the blocks that were saved, is open once
    and not being written, whatever the node and the sectors it crosses; the
    images of all other nodes, and every byte outside the image, are those from
    before, and no memory is lost but that of the object. *)
Theorem SyncNode_OpenNode bits b (w : world) live n node io_buf :
  mounted bits b w → opens_ok live w → io_ok live (S (S n)) (dev w) →
  IdxNode.wf node → 0 ≤ IdxNode.idx node < 4096 → 1024 ≤ Z.of_nat (length io_buf) →
  not_open (IdxNode.idx node) w →
  runs (SyncNode node io_buf;; OpenNode (IdxNode.idx node)) w (λ a w',
    live !! a = None ∧ io_ok (<[a := MemInit.Kernel]> live) (S n) (dev w')
    ∧ nodes w' = <[a := IdxNode.with_open_times 1 (IdxNode.CloneToPure node)]> (nodes w)
    ∧ open_inodes_ (part w') = open_inodes_ (part w) ++ [a]
    ∧ (∀ j m, 0 ≤ j < 4096 → j ≠ IdxNode.idx node → IdxNode.wf m →
        bytes_from (dev w) (node_addr b j) (IdxNode.encode m) →
        bytes_from (dev w') (node_addr b j) (IdxNode.encode m))
    ∧ ∀ q, 0 ≤ q → q < node_addr b (IdxNode.idx node) ∨ node_addr b (IdxNode.idx node) + 76 ≤ q →
        disk_byte (dev w') q = disk_byte (dev w) q).
Proof.
  intros Hm Ho Hio Hwf Hi Hb Hno.
  destruct (pos_facts bits b w _ Hm Hi) as (Haddr & Hoff & _ & _ & _ & _ & Hl0 & _).
  pose proof (IdxNode.length_node_encode _ (wf_pure _ Hwf)) as Henc.
  eapply runs_step; [by apply (SyncNode_ok bits b w live (S (S n)))|].
  intros buf' ? (x1 & -> & Hio1 & _ & Hp).
  eapply runs_mono; [apply (OpenNode_loads bits b _ live n _ (IdxNode.CloneToPure node));
    [by apply mounted_dev|by destruct Ho|exact Hio1|done|exact Hno|by apply wf_pure|
     by apply (patched_from _ _ (dev w)); [lia|]]|].
  intros a ? (Ha & x2 & Hs2 & Hio2 & ->). cbn [dev with_dev nodes with_nodes part with_part open_inodes_
    with_open_inodes] in *. split; [done|]. split; [done|]. split; [done|]. split; [done|]. split.
  - intros j m Hj Hne Hwm Hbm. apply (bytes_from_same _ _ _ _ Hs2).
    pose proof (IdxNode.length_node_encode m Hwm) as Hlm.
    destruct (pos_facts bits b w j Hm Hj) as (Hj1 & Hj2 & _ & _ & _ & _ & Hj3 & _).
    assert (0 ≤ node_addr b j) as Hj0 by lia.
    apply (patched_keeps _ _ _ _ _ _ Hj0 Hp); [|done].
    rewrite Henc, Hlm. unfold node_addr. lia.
  - intros q Hq Hout. rewrite (same_byte _ _ _ Hs2), Hp, Henc by done.
    destruct (Z.leb_spec (node_addr b (IdxNode.idx node)) q),
      (Z.ltb_spec q (node_addr b (IdxNode.idx node) + Z.of_nat 76)); try done; lia.
Qed.
(** ** Mounting *)

Lemma bind_some_super_block {A} b (w : world) (k : SuperBlock.t → M world A) Q :
  super_block_ (part w) = Some b → runs (k b) w Q → runs (GetSuperBlock ≫= k) w Q.
Proof.
  intros Hb Hk. unfold GetSuperBlock. apply bind_assoc, bind_gets. rewrite Hb.
  apply bind_assoc, bind_assert; [by apply bool_decide_eq_true_2; eauto|]. by apply (bind_lift _ b).
Qed.

(** The bitmap of some sectors: a buffer that stays on the heap. *)
Lemma bind_load_bitmap {A} (w : world) live n start count (k : Bitmap.t → M world A) Q :
  attached w → io_ok live (S n) (dev w) → 0 < count ≤ 100 → 0 ≤ start → start + count ≤ 163839 →
  (∀ a x', live !! a = None → io_ok (<[a := default_pool]> live) n x' → same_sectors (dev w) x' →
    runs (k (Bitmap.mk (512 * count) (Some (sectors (dev w) start count)))) (with_dev x' w) Q) →
  runs (load_bitmap start count ≫= k) w Q.
Proof.
  intros Hd Hio Hc Hs Hm Hk. unfold load_bitmap. change sector_size with 512.
  rewrite (u32_small (count * 512)), (Z.mul_comm count 512) by lia. cbv zeta.
  apply bind_assoc, (bind_new w live n default_pool); [done|unfold max_request; lia|]. intros a x1 Ha Hio1 Hs1.
  apply bind_assoc, (bind_read _ (<[a := default_pool]> live) n); [done|done|lia|lia|lia|].
  intros x2 Hio2 Hs2. cbn [dev with_dev] in *. rewrite (sectors_same _ _ _ _ Hs1).
  eapply bind_lift; [|apply (Hk a x2); [done|done|by eapply same_sectors_trans]].
  unfold Bitmap.Init. by rewrite bool_decide_eq_true_2, (proj2 (Z.ltb_lt 0 (512 * count))) by (eauto || lia).
Qed.

(** The partition with the super block [b] and the bitmaps of the disk. *)
Definition loaded (x : io D H) (b : SuperBlock.t) (p : t) : t :=
  let c := SuperBlock.block_bitmap_sector_count b in
  mk (base p) (Some b)
    (Bitmap.mk (512 * c) (Some (sectors x (SuperBlock.block_bitmap_start_lba b) c)))
    (Bitmap.mk 512 (Some (sector x (SuperBlock.inode_bitmap_start_lba b)))) (open_inodes_ p).

Lemma LoadSuperBlock_ok bits b (w : world) live n :
  attached w → super_block_ (part w) = None →
  Part.start_lba_ (base (part w)) = SuperBlock.part_start_lba b →
  FsFormat.layout (SuperBlock.part_start_lba b) (SuperBlock.part_sector_count b) bits b →
  0 ≤ SuperBlock.part_start_lba b →
  SuperBlock.part_start_lba b + SuperBlock.part_sector_count b ≤ 163839 →
  io_ok live (S (S (S n))) (dev w) →
  SuperBlock.decode (sector (dev w) (SuperBlock.part_start_lba b + 1)) = b →
  runs LoadSuperBlock w (λ _ w', ∃ live' x', io_ok live' n x' ∧ same_sectors (dev w) x'
    ∧ live ⊆ live' ∧ w' = with_part (loaded (dev w) b (part w)) (with_dev x' w)).
Proof.
  intros Hd Hn Es Hlay Hs Hm Hio Hb. unfold LoadSuperBlock.
  pose proof Hlay as [_ _ _ _ Ebb Hbits Ht Eib Eic Ein _ Eda Hin _].
  apply bind_gets, bind_assert; [by apply bool_decide_eq_true_2|]. cbv zeta.
  change (RoundUpDivide 512 sector_size) with 1. change (1 * sector_size) with 512.
  apply (bind_new w live (S (S n)) default_pool); [done|by unfold max_request|]. intros a x1 Ha Hio1 Hs1.
  change SuperBlock.start_lba with 1. rewrite Es, (u32_small (SuperBlock.part_start_lba b + 1)) by lia.
  apply (bind_read _ (<[a := default_pool]> live) (S (S n))); [done|done|lia|lia|lia|]. intros x2 Hio2 Hs2.
  apply (bind_new _ (<[a := default_pool]> live) (S n) default_pool); [done|by unfold max_request|]. intros a3 x3 Ha3 Hio3 Hs3.
  cbn [dev with_dev] in *. rewrite sectors_1, Hs1, Hb. apply bind_modify.
  assert (Hne : a ≠ a3) by (intros ->; by rewrite lookup_insert_eq in Ha3).
  apply (bind_delete _ (<[a3 := default_pool]> (<[a := default_pool]> live)) (S n) default_pool a);
    [done|by rewrite lookup_insert_ne, lookup_insert_eq by done|]. intros x4 Hio4 Hs4.
  rewrite delete_insert_ne, delete_insert_id in Hio4 by done.
  cbn [dev with_dev part with_part] in *. set (live4 := <[a3 := default_pool]> live) in *.
  assert (Hs04 : same_sectors (dev w) x4) by eauto using same_sectors_trans.
  unfold LoadBlockBitmap, LoadNodeBitmap. set (c := SuperBlock.block_bitmap_sector_count b) in *.
  apply bind_assoc, (bind_some_super_block b); [done|]. fold c.
  apply bind_assoc, (bind_load_bitmap _ live4 (S n)); [done|done|lia|lia|lia|].
  intros a5 x5 Ha5 Hio5 Hs5. cbn [dev with_dev part with_part] in *. apply bind_modify.
  apply (bind_some_super_block b); [done|]. rewrite Eic.
  apply (bind_load_bitmap _ (<[a5 := default_pool]> live4) n); [done|done|lia|lia|lia|].
  intros a6 x6 Ha6 Hio6 Hs6. cbn [dev with_dev part with_part] in *.
  exists tt. eexists. split; [reflexivity|].
  exists (<[a6 := default_pool]> (<[a5 := default_pool]> live4)), x6.
  split; [done|]. split; [eauto using same_sectors_trans|]. split.
  { assert (live !! a3 = None).
    { rewrite lookup_insert_ne in Ha3 by done. done. }
    etrans; [|by apply insert_subseteq]. etrans; [|by apply insert_subseteq].
    by apply insert_subseteq. }
  assert (Hs05 : same_sectors (dev w) x5) by eauto using same_sectors_trans.
  unfold loaded. fold c. rewrite (sectors_same _ _ _ _ Hs04), (sectors_same _ _ _ _ Hs05), sectors_1.
  by destruct w.
Qed.
End steps.

(** ** A partition in memory

    The partition of 2000 sectors behind the first 63, mounted with its root
    directory's node and block in use. *)
#[local] Existing Instance Ram.ram_store.
#[local] Existing Instance Ram.ram_store_laws.
#[local] Existing Instance Ram.ram_heap.
#[local] Existing Instance Ram.ram_heap_laws.

Definition demo_block : SuperBlock.t := FsFormat.new_super_block 63 2000 1.
Definition demo_bits : Z := 1388.
Definition demo_bitmap (bs : list Z) : Bitmap.t := Bitmap.mk 512 (Some bs).

Definition demo_world (x : io Ram.disk Ram.heap) (ns : gmap Z IdxNode.t) (tab : FileTab.t) : world Ram.disk Ram.heap :=
  mk_world x
    (mk FsFormat.demo_part (Some demo_block)
       (demo_bitmap ([1] ++ replicate 172 0 ++ [240] ++ replicate 338 255))
       (demo_bitmap ([1] ++ replicate 511 0)) [])
    ns ∅ Directory.init tab ([0; 1; 2] ++ replicate 5 npos).

Lemma demo_bitmap_wf bs :
  length bs = 512%nat → forallb (λ v, (0 <=? v) && (v <? 256)) bs = true → Bitmap.wf (demo_bitmap bs).
Proof.
  intros Hl Hb. split; [|done|done]. exists bs. split; [done|]. split; [simpl; lia|].
  apply Forall_forall. intros v Hv. apply list_elem_of_In in Hv.
  apply (proj1 (forallb_forall _ _) Hb), andb_true_iff in Hv as [?%Z.leb_le ?%Z.ltb_lt].
  by split; [|change (2 ^ 8) with 256].
Qed.

Lemma demo_mounted x ns tab : mounted demo_bits demo_block (demo_world x ns tab).
Proof.
  split; try done; [by apply FsFormat.new_super_block_layout|..]; by split; [apply demo_bitmap_wf|].
Qed.

Lemma demo_opens live x ns tab : opens_ok live (demo_world x ns tab).
Proof. split; [apply NoDup_nil_2|intros a Ha|intros a a' n n' Ha]; by apply elem_of_nil in Ha. Qed.

(** The second node, of a file of 700 bytes in two blocks. *)
Definition demo_node : IdxNode.t := IdxNode.mk 1 700 2 true [0; 0; 0] ([674; 675] ++ replicate 10 0) 0.

Lemma demo_node_wf : IdxNode.wf demo_node.
Proof. split; [|done|done|]; repeat (apply Forall_cons; split; [by split|]); by apply Forall_nil_2. Qed.

Lemma SyncNode_OpenNode_witness :
  let w := demo_world Ram.fresh ∅ [] in
  runs (SyncNode demo_node (zeros 1024);; OpenNode 1) w (λ a w',
    (∅ : gmap Z MemInit.PoolType) !! a = None
    ∧ io_ok (<[a := MemInit.Kernel]> ∅) 1 (dev w')
    ∧ nodes w' = <[a := IdxNode.with_open_times 1 (IdxNode.CloneToPure demo_node)]> (nodes w)
    ∧ open_inodes_ (part w') = open_inodes_ (part w) ++ [a]
    ∧ (∀ j m, 0 ≤ j < 4096 → j ≠ 1 → IdxNode.wf m →
        bytes_from (dev w) (node_addr demo_block j) (IdxNode.encode m) →
        bytes_from (dev w') (node_addr demo_block j) (IdxNode.encode m))
    ∧ ∀ q, 0 ≤ q → q < node_addr demo_block 1 ∨ node_addr demo_block 1 + 76 ≤ q →
        disk_byte (dev w') q = disk_byte (dev w) q).
Proof.
  apply (SyncNode_OpenNode demo_bits demo_block (demo_world Ram.fresh ∅ []) ∅ 0 demo_node (zeros 1024)).
  - apply demo_mounted.
  - apply demo_opens.
  - apply Ram.fresh_ok.
  - apply demo_node_wf.
  - done.
  - done.
  - intros a n Ha. by apply elem_of_nil in Ha.
Defined.
End FilePart.
