(* ===== verification/FsFile.v ===== *)
(** * Open files

    [FsFile] models the members of [Disk::FilePart] of
    src/src/kernel/io/disk/part.cpp that open, read, write and seek files by
    their index nodes, [File::Close] of src/src/kernel/io/disk/file/file.cpp,
    [FileDesc::Close] and the wrappers of [io::File] and [io::sc::File] of
    src/src/kernel/io/file/file.cpp. A file is its index in the table of the
    system. *)
From S2P Require Import Prelude UtilBit UtilBitmap IoFileDesc MemPool IoDisk FsBase IoPart FsData FsFormat FsPart.
Import metric.

Module FsFile.
Import Bytes FilePart.

Section file.
Context {D H : Type} `{Store D} `{Heap H}.
Local Abbreviation world := (FilePart.world D H).

(** ** The tables *)

Definition file_at (d : Z) : M world File.t := tab ← gets files; lift (FileTab.get d tab).
Definition set_file (d : Z) (f : File.t) : M world unit :=
  modify (λ w, with_files (FileTab.set_ d f (files w)) w).

(** [File::GetNode]: the address of the node of an open file. *)
Definition GetNode (f : File.t) : M world Z :=
  assert (File.IsOpen f);; lift (of_option (File.inode f)).

(** [tsk::ProcFileDescTab::GetGlobal] and [SyncGlobal] on the table of the
    running task. *)
Definition GetGlobal (desc : Z) : M world Z :=
  tab ← gets descs; lift (FileDescTab.GetGlobal desc tab).
Definition SyncGlobal (global : Z) : M world Z :=
  tab ← gets descs;
  let '(tab', desc) := FileDescTab.SyncGlobal global tab in
  modify (with_descs tab');; mret desc.

(** [FileTab::Contain] *)
Fixpoint contain (inode_idx : Z) (fs : list File.t) : M world bool :=
  match fs with
  | [] => mret false
  | f :: fs' =>
      match File.inode f with
      | None => contain inode_idx fs'
      | Some a =>
          n ← node_at a;
          if IdxNode.idx n =? inode_idx then mret true else contain inode_idx fs'
      end
  end.
Definition Contain (inode_idx : Z) : M world bool :=
  tab ← gets files; contain inode_idx (drop FileDesc.std_stream_count tab).

(** ** Opening and closing *)

(** [OpenFile] by the index of a node: a local descriptor, [npos] on failure. *)
Definition OpenFileNode (inode_idx flags : Z) : M world Z :=
  tab ← gets files;
  let desc := FileTab.GetFreeDesc tab in
  if negb (FileDesc.IsValid desc) then mret npos
  else
    a ← OpenNode inode_idx;
    n ← node_at a;
    ok ← (if File.writes flags then
            if negb (IdxNode.write_deny n) then set_node a (IdxNode.with_write_deny true n);; mret true
            else CloseNode a;; mret false
          else mret true);
    if negb ok then mret npos
    else
      assert (desc <? FileTab.GetSize tab);;
      set_file desc (File.mk flags (Some a) 0);;
      SyncGlobal desc.

(** [fs::File::Close] *)
Definition CloseFile (d : Z) : M world unit :=
  f ← file_at d;
  match File.inode f with
  | None => mret tt
  | Some a =>
      (if File.writes (File.flags f) then
         n ← node_at a;
         assert (IdxNode.write_deny n);;
         set_node a (IdxNode.with_write_deny false n)
       else mret tt);;
      CloseNode a
  end;;
  set_file d (File.Clear f).

(** [FileDesc::Close] *)
Definition CloseDesc (desc : Z) : M world unit :=
  if FileDesc.IsValid desc && (Z.of_nat FileDesc.std_stream_count <=? desc) then
    global ← GetGlobal desc;
    tab ← gets files;
    assert (global <? FileTab.GetSize tab);;
    CloseFile global;;
    tab ← gets descs;
    tab ← lift (FileDescTab.Reset desc tab);
    modify (with_descs tab)
  else mret tt.

(** [FileDescTab::Fork] on the table of the running task: every open file gets
    one more holder. *)
Fixpoint fork_descs (ds : list Z) : M world unit :=
  match ds with
  | [] => mret tt
  | d :: ds' =>
      (if FileDesc.IsValid d then
         f ← file_at d;
         assert (File.IsOpen f);;
         a ← GetNode f;
         n ← node_at a;
         assert (0 <? IdxNode.open_times n);;
         set_node a (IdxNode.with_open_times (IdxNode.open_times n +w 1) n)
       else mret tt);;
      fork_descs ds'
  end.
Definition ForkDescs : M world unit :=
  tab ← gets descs; fork_descs (drop FileDesc.std_stream_count tab).

(** The global descriptor behind a local one. *)
Definition global_file (desc : Z) : M world Z :=
  idx ← GetGlobal desc;
  tab ← gets files;
  assert (idx <? FileTab.GetSize tab);;
  mret idx.

(** ** Seeking *)

(** The offset is a signed number that is converted to an unsigned one. *)
Definition SeekFile (d : Z) (offset : Z) (origin : File.SeekOrigin) : M world Z :=
  f ← file_at d;
  a ← GetNode f;
  n ← node_at a;
  let size := IdxNode.size n in
  let pos := match origin with
    | File.Begin => Z.min (u32 offset) size
    | File.Curr => Z.min (File.pos f +w offset) size
    | File.End_ => Z.min (size +w offset) size
    end in
  set_file d (File.with_pos pos f);;
  assert (pos <=? size);;
  mret pos.

(** ** Reading *)

Local Abbreviation lba_array := (list Z).
Definition no_lbas : lba_array := replicate (Z.to_nat sector_count_per_inode) 0.

(** [lbas[i] = inode.GetDirectLba(i)], which must be a block. *)
Definition load_direct (n : IdxNode.t) (i : Z) (lbas : lba_array) : M world lba_array :=
  lba ← lift (IdxNode.GetDirectLba i n);
  assert (negb (lba =? 0));;
  mret (<[Z.to_nat i := lba]> lbas).

(** The table of indirect blocks behind the direct ones. *)
Definition load_indirect (n : IdxNode.t) (lbas : lba_array) : M world lba_array :=
  let tab_lba := IdxNode.GetIndirectTabLba n in
  assert (negb (tab_lba =? 0));;
  tab ← disk_read tab_lba 1;
  mret (take IdxNode.direct_block_count lbas ++ get_words indirect_sector_count_per_inode tab).

(** The blocks from which [ReadFile] reads. *)
Definition read_lbas (n : IdxNode.t) (start end_ : Z) : M world lba_array :=
  let direct := Z.of_nat IdxNode.direct_block_count in
  if start =? end_ then
    if end_ <? direct then load_direct n start no_lbas else load_indirect n no_lbas
  else if end_ <? direct then
    for_M (Z.to_nat (end_ - start + 1)) start (load_direct n) no_lbas
  else if (start <? direct) && (direct <=? end_) then
    lbas ← for_M (Z.to_nat (direct - start)) start (load_direct n) no_lbas;
    load_indirect n lbas
  else load_indirect n no_lbas.

(** The loop of [ReadFile], with the bytes that are in the buffer already. *)
Fixpoint read_chunks (fuel : nat) (d : Z) (lbas : lba_array) (size : Z) (out : list Z) :
    M world (list Z) :=
  match fuel with
  | O => lift NoFuel
  | S fuel' =>
      let read_size := Z.of_nat (length out) in
      if read_size <? size then
        f ← file_at d;
        let sector_idx := File.pos f / sector_size in
        let offset_in_sector := File.pos f mod sector_size in
        let chunk_size := Z.min (size - read_size) (sector_size - offset_in_sector) in
        lba ← lift (of_option (lbas !! Z.to_nat sector_idx));
        io_buf ← disk_read lba 1;
        chunk ← lift (slice io_buf offset_in_sector chunk_size);
        set_file d (File.with_pos (File.pos f +w chunk_size) f);;
        read_chunks fuel' d lbas size (out ++ chunk)
      else mret out
  end.

(** A sector for every block of a file, one more when the access starts inside
    one, and a last test. *)
Definition io_fuel : nat := 143.

(** [ReadFile]: the bytes that are put in the buffer. *)
Definition ReadFile (d : Z) (size : Z) : M world (list Z) :=
  f ← file_at d;
  assert (File.IsOpen f);;
  a ← GetNode f;
  n ← node_at a;
  assert (File.pos f <=? IdxNode.size n);;
  let size := Z.min size (IdxNode.size n - File.pos f) in
  if size =? 0 then mret []
  else
    lbas_addr ← on_dev (new default_pool (sector_count_per_inode * 4));
    io_addr ← on_dev (new default_pool sector_size);
    let start_sector_idx := File.pos f / sector_size in
    let end_sector_idx := (File.pos f +w size) / sector_size in
    assert ((start_sector_idx <=? end_sector_idx) && (end_sector_idx <? sector_count_per_inode));;
    lbas ← read_lbas n start_sector_idx end_sector_idx;
    out ← read_chunks io_fuel d lbas size [];
    on_dev (delete_ default_pool io_addr);;
    on_dev (delete_ default_pool lbas_addr);;
    mret out.

(** ** Writing *)

(** The blocks to which [WriteFile] writes: they were found, or there is no
    space left, the two buffers freed or not. *)
Inductive collected := Blocks (lbas : lba_array) | NoSpace (buffers_freed : bool).

(** The last sector of the file when it is not full. *)
Definition load_last (n : IdxNode.t) (lbas : lba_array) : M world lba_array :=
  load_direct n (IdxNode.size n / sector_size) lbas.

(** Put a new block at index [i] of the node. *)
Definition place_direct (a i lba : Z) : M world unit :=
  n ← node_at a;
  old ← lift (IdxNode.GetDirectLba i n);
  assert (old =? 0);;
  n ← lift (IdxNode.SetDirectLba i lba n);
  set_node a n.
Definition place_either (a i lba : Z) : M world unit :=
  if i <? Z.of_nat IdxNode.direct_block_count then place_direct a i lba else mret tt.
Definition place_none (a i lba : Z) : M world unit := mret tt.

(** Allocate blocks for the [count] sectors from [i] on; whether it failed. *)
Fixpoint alloc_blocks (place : Z → Z → M world unit) (check_first : bool) (count : nat) (i : Z)
    (lbas : lba_array) : M world (lba_array * bool) :=
  match count with
  | O => mret (lbas, false)
  | S count' =>
      old ← lift (of_option (lbas !! Z.to_nat i));
      (if check_first then assert (old =? 0) else mret tt);;
      new_sector_lba ← AllocBlock;
      if negb (new_sector_lba =? npos) then
        place i new_sector_lba;;
        assert (old =? 0);;
        SyncBlockBitmap new_sector_lba;;
        alloc_blocks place check_first count' (i + 1) (<[Z.to_nat i := new_sector_lba]> lbas)
      else mret (lbas, true)
  end.

(** Give blocks back, up to the first that was not allocated; [clear] takes the
    block out of the node. *)
Fixpoint free_new_blocks (lba_of : Z → M world Z) (clear : Z → M world unit) (count : nat) (i : Z) :
    M world unit :=
  match count with
  | O => mret tt
  | S count' =>
      lba ← lba_of i;
      if negb (lba =? 0) then
        clear i;; FreeBlock lba;; SyncBlockBitmap lba;;
        free_new_blocks lba_of clear count' (i + 1)
      else mret tt
  end.

Definition direct_of (a i : Z) : M world Z := n ← node_at a; lift (IdxNode.GetDirectLba i n).
Definition lba_in (lbas : lba_array) (i : Z) : M world Z := lift (of_option (lbas !! Z.to_nat i)).

Definition clear_direct (a i : Z) : M world unit :=
  n ← node_at a; n ← lift (IdxNode.SetDirectLba i 0 n); set_node a n.
Definition clear_either (a i : Z) : M world unit :=
  if i <? Z.of_nat IdxNode.direct_block_count then
    lba ← direct_of a i; assert (negb (lba =? 0));; clear_direct a i
  else mret tt.

(** The table of indirect blocks goes to its sector. *)
Definition save_indirect (tab_lba : Z) (lbas : lba_array) : M world unit :=
  disk_write tab_lba (put_words (drop IdxNode.direct_block_count lbas)) 1.

(** The new data fits the last sector. *)
Definition collect_last (a : Z) (new_sector_count : Z) : M world collected :=
  n ← node_at a;
  lbas ← (if new_sector_count <=? Z.of_nat IdxNode.direct_block_count then load_last n no_lbas
          else load_indirect n no_lbas);
  mret (Blocks lbas).

(** The new sectors are direct blocks. *)
Definition collect_direct (a curr_sector_count new_sector_count : Z) : M world collected :=
  n ← node_at a;
  lbas ← (if negb (IdxNode.size n mod sector_size =? 0) then load_last n no_lbas else mret no_lbas);
  let count := Z.to_nat (new_sector_count - curr_sector_count) in
  r ← alloc_blocks (place_direct a) true count curr_sector_count lbas;
  match r with
  | (lbas, false) => mret (Blocks lbas)
  | (_, true) =>
      free_new_blocks (direct_of a) (clear_direct a) count curr_sector_count;;
      mret (NoSpace true)
  end.

(** The new sectors are direct and indirect blocks, behind a new table. *)
Definition collect_both (a curr_sector_count new_sector_count : Z) : M world collected :=
  n ← node_at a;
  lbas ← (if negb (IdxNode.size n mod sector_size =? 0) then load_last n no_lbas else mret no_lbas);
  indirect_tab_lba ← AllocBlock;
  if indirect_tab_lba =? npos then mret (NoSpace false)
  else
    assert (IdxNode.GetIndirectTabLba n =? 0);;
    set_node a (IdxNode.SetIndirectTabLba indirect_tab_lba n);;
    let count := Z.to_nat (new_sector_count - curr_sector_count) in
    r ← alloc_blocks (place_either a) false count curr_sector_count lbas;
    match r with
    | (lbas, false) => save_indirect indirect_tab_lba lbas;; mret (Blocks lbas)
    | (lbas, true) =>
        free_new_blocks (lba_in lbas) (clear_either a) count curr_sector_count;;
        n ← node_at a;
        assert (negb (IdxNode.GetIndirectTabLba n =? 0));;
        set_node a (IdxNode.SetIndirectTabLba 0 n);;
        FreeBlock indirect_tab_lba;; SyncBlockBitmap indirect_tab_lba;;
        mret (NoSpace true)
    end.

(** The new sectors are indirect blocks of the table the node has. *)
Definition collect_indirect (a curr_sector_count new_sector_count : Z) : M world collected :=
  n ← node_at a;
  lbas ← load_indirect n no_lbas;
  let count := Z.to_nat (new_sector_count - curr_sector_count) in
  r ← alloc_blocks (place_none a) false count curr_sector_count lbas;
  match r with
  | (lbas, false) => save_indirect (IdxNode.GetIndirectTabLba n) lbas;; mret (Blocks lbas)
  | (lbas, true) =>
      free_new_blocks (lba_in lbas) (λ _, mret tt) count curr_sector_count;;
      mret (NoSpace true)
  end.

Definition collect (a curr_sector_count new_sector_count : Z) : M world collected :=
  let direct := Z.of_nat IdxNode.direct_block_count in
  if curr_sector_count =? new_sector_count then collect_last a new_sector_count
  else if new_sector_count <=? direct then collect_direct a curr_sector_count new_sector_count
  else if (curr_sector_count <=? direct) && (direct <? new_sector_count) then
    collect_both a curr_sector_count new_sector_count
  else collect_indirect a curr_sector_count new_sector_count.

(** The loop of [WriteFile]: the size written and the buffer. *)
Fixpoint write_chunks (fuel : nat) (d a : Z) (lbas : lba_array) (data : list Z) (size : Z)
    (is_first_write : bool) (written_size : Z) (io_buf : list Z) : M world (Z * list Z) :=
  match fuel with
  | O => lift NoFuel
  | S fuel' =>
      if written_size <? size then
        n ← node_at a;
        let sector_idx := IdxNode.size n / sector_size in
        let offset_in_sector := IdxNode.size n mod sector_size in
        let chunk_size := Z.min (size - written_size) (sector_size - offset_in_sector) in
        lba ← lift (of_option (lbas !! Z.to_nat sector_idx));
        io_buf ← (if is_first_write then
                    old ← disk_read lba 1; lift (splice (zeros (2 * sector_size)) 0 old)
                  else mret (zeros (2 * sector_size)));
        chunk ← lift (slice data written_size chunk_size);
        io_buf ← lift (splice io_buf offset_in_sector chunk);
        disk_write lba io_buf 1;;
        f ← file_at d;
        set_file d (File.with_pos (File.pos f +w chunk_size) f);;
        set_node a (IdxNode.with_size (IdxNode.size n +w chunk_size) n);;
        write_chunks fuel' d a lbas data size false (written_size + chunk_size) io_buf
      else mret (written_size, io_buf)
  end.

(** The second half of [WriteFile]: the file has its blocks, the data is written
    to them, the node is saved and the buffers are freed. *)
Definition write_blocks (d a : Z) (f : File.t) (curr_size : Z) (lbas data : list Z) (size lbas_addr io_addr : Z) :
    M world Z :=
  set_file d (File.with_pos (curr_size -w 1) f);;
  '(written_size, io_buf) ← write_chunks io_fuel d a lbas data size true 0 (zeros (2 * sector_size));
  n ← node_at a;
  SyncNode n io_buf;;
  on_dev (delete_ default_pool io_addr);; on_dev (delete_ default_pool lbas_addr);;
  mret written_size.

Definition WriteFile (d : Z) (data : list Z) (size : Z) : M world Z :=
  f ← file_at d;
  assert (File.IsOpen f);;
  a ← GetNode f;
  n ← node_at a;
  let curr_size := IdxNode.size n in
  if sector_count_per_inode * sector_size <? curr_size +w size then mret 0
  else
    lbas_addr ← on_dev (new default_pool (sector_count_per_inode * 4));
    io_addr ← on_dev (new default_pool (2 * sector_size));
    let curr_sector_count := RoundUpDivide curr_size sector_size in
    let new_sector_count := RoundUpDivide (curr_size +w size) sector_size in
    assert ((curr_sector_count <=? new_sector_count) && (new_sector_count <=? sector_count_per_inode));;
    c ← collect a curr_sector_count new_sector_count;
    match c with
    | NoSpace freed =>
        (if freed then on_dev (delete_ default_pool io_addr);; on_dev (delete_ default_pool lbas_addr)
         else mret tt);;
        mret 0
    | Blocks lbas => write_blocks d a f curr_size lbas data size lbas_addr io_addr
    end.

(** ** By descriptors: the members of [FilePart], [io::File] and the system calls *)

Definition WriteDesc (desc : Z) (data : list Z) (size : Z) : M world Z :=
  d ← global_file desc; WriteFile d data size.
Definition ReadDesc (desc : Z) (size : Z) : M world (list Z) :=
  d ← global_file desc; ReadFile d size.
Definition SeekDesc (desc : Z) (offset : Z) (origin : File.SeekOrigin) : M world Z :=
  d ← global_file desc; SeekFile d offset origin.

(** An [io::File] is its descriptor. *)
Definition IsOpenDesc (desc : Z) : bool := FileDesc.IsValid desc.
Definition FileWrite (desc : Z) (data : list Z) (size : Z) : M world Z :=
  assert (IsOpenDesc desc);; WriteDesc desc data size.
Definition FileRead (desc : Z) (size : Z) : M world (list Z) :=
  assert (IsOpenDesc desc);; ReadDesc desc size.
Definition FileSeek (desc : Z) (offset : Z) (origin : File.SeekOrigin) : M world Z :=
  assert (IsOpenDesc desc);; SeekDesc desc offset origin.
(** [File::Close], and the destructor that calls it. *)
Definition FileClose (desc : Z) : M world Z :=
  if IsOpenDesc desc then CloseDesc desc;; mret metric.npos else mret desc.

(** The system calls work on an [io::File] made for the call, which is destroyed,
    hence closed, when the call ends. *)
Definition sc_Write (desc : Z) (data : list Z) (size : Z) : M world Z :=
  r ← FileWrite desc data size; FileClose desc;; mret r.
Definition sc_Read (desc : Z) (size : Z) : M world (list Z) :=
  r ← FileRead desc size; FileClose desc;; mret r.
Definition sc_Seek (desc : Z) (offset : Z) (origin : File.SeekOrigin) : M world Z :=
  r ← FileSeek desc offset origin; FileClose desc;; mret r.
Definition sc_Close (desc : Z) : M world unit := d ← FileClose desc; FileClose d;; mret tt.
End file.

(** ** The contents of a file *)

Section contents.
Context {D H : Type} `{Store D} `{Heap H} `{!StoreLaws D} `{!HeapLaws H}.
Local Abbreviation world := (FilePart.world D H).

(** The blocks of a node, direct and indirect. *)
Definition node_blocks (x : io D H) (n : IdxNode.t) : list Z :=
  IdxNode.direct_lbas_ n ++
    (if IdxNode.indirect_tab_lba_ n =? 0 then replicate indirect_sector_count_per_inode 0
     else get_words indirect_sector_count_per_inode (sector x (IdxNode.indirect_tab_lba_ n))).

(** The sectors of some blocks, one after the other, and the bytes of a file. *)
Definition block_data (x : io D H) (lbas : list Z) : list Z := concat (sector x <$> lbas).
Definition content (x : io D H) (n : IdxNode.t) : list Z :=
  take (Z.to_nat (IdxNode.size n)) (block_data x (node_blocks x n)).

Lemma length_get_words n bs : length (get_words n bs) = n.
Proof. revert bs. induction n as [|n IH]; intros bs; [done|]. cbn [get_words length]. by rewrite IH. Qed.

Lemma length_node_blocks x n : IdxNode.wf n → length (node_blocks x n) = 140%nat.
Proof.
  intros [_ _ Hd _]. unfold node_blocks. rewrite length_app, Hd. case_match;
    by rewrite ?length_replicate, ?length_get_words.
Qed.

Lemma length_block_data x lbas : length (block_data x lbas) = (512 * length lbas)%nat.
Proof.
  unfold block_data. induction lbas as [|l lbas IH]; [done|]. rewrite fmap_cons. cbn [concat].
  rewrite length_app, length_sector, IH. simpl. lia.
Qed.

(** Reading inside a block. *)
Lemma block_data_read x lbas (k : nat) lba (off c : nat) :
  lbas !! k = Some lba → (off + c ≤ 512)%nat →
  take c (drop (512 * k + off) (block_data x lbas)) = take c (drop off (sector x lba)).
Proof.
  intros Hk Hle. unfold block_data. rewrite <- (take_drop_middle lbas k lba Hk).
  rewrite fmap_app, concat_app. cbn [fmap list_fmap concat].
  pose proof (length_block_data x (take k lbas)) as Hl. unfold block_data in Hl.
  rewrite length_take, Nat.min_l in Hl by (apply lookup_lt_Some in Hk; lia).
  rewrite <- drop_drop, drop_app_length' by done.
  rewrite drop_app_le by (rewrite length_sector; lia).
  rewrite take_app_le by (rewrite length_drop, length_sector; lia). done.
Qed.

Lemma block_data_same x x' lbas : same_sectors x x' → block_data x' lbas = block_data x lbas.
Proof. intros Hs. unfold block_data. f_equal. apply list_fmap_ext. intros. apply Hs. Qed.

(** ** Reading *)

Lemma load_direct_ok n i lba lbas (w : world) :
  IdxNode.direct_lbas_ n !! Z.to_nat i = Some lba → 0 ≤ i < 12 → lba ≠ 0 →
  runs (load_direct n i lbas) w (λ r w', w' = w ∧ r = <[Z.to_nat i := lba]> lbas).
Proof.
  intros Hl Hi Hne. unfold load_direct.
  apply (bind_lift _ lba).
  { unfold IdxNode.GetDirectLba. change (Z.of_nat IdxNode.direct_block_count) with 12.
    rewrite Assert_true by (apply Z.ltb_lt; lia). rewrite res_bind_ok. by rewrite Hl. }
  apply bind_assert; [by apply negb_true_iff, Z.eqb_neq|]. by apply runs_ret.
Qed.

(** The direct blocks of a range. *)
Lemma load_range_ok n start (k : nat) (w : world) :
  IdxNode.wf n → 0 ≤ start → start + Z.of_nat k ≤ 12 →
  (∀ i, start ≤ i < start + Z.of_nat k → ∃ lba, IdxNode.direct_lbas_ n !! Z.to_nat i = Some lba ∧ lba ≠ 0) →
  runs (for_M k start (load_direct n) no_lbas) w (λ r w', w' = w ∧ length r = 140%nat
    ∧ ∀ i, start ≤ i < start + Z.of_nat k → r !! Z.to_nat i = IdxNode.direct_lbas_ n !! Z.to_nat i).
Proof.
  intros Hwf Hs Hk Hb.
  eapply runs_mono; [apply (runs_for (λ j r w', w' = w ∧ length r = 140%nat ∧
    ∀ i, start ≤ i < j → r !! Z.to_nat i = IdxNode.direct_lbas_ n !! Z.to_nat i))|].
  - split; [done|]. split; [done|]. lia.
  - intros j r w' Hj (-> & Hl & Hr). destruct (Hb j ltac:(lia)) as (lba & Hlba & Hne).
    eapply runs_mono; [apply (load_direct_ok n j lba r w Hlba ltac:(lia) Hne)|].
    intros r' w' [-> ->]. split; [done|]. split; [by rewrite length_insert|]. intros i Hi.
    destruct (decide (i = j)) as [->|].
    + rewrite list_lookup_insert_eq by lia. done.
    + rewrite list_lookup_insert_ne by lia. apply Hr. lia.
  - done.
Qed.

(** The direct blocks that were loaded, and the table behind them. *)
Lemma load_indirect_ok bits b live m n lbas (w : world) :
  mounted bits b w → io_ok live m (dev w) → length lbas = 140%nat →
  0 < IdxNode.indirect_tab_lba_ n < 163838 →
  runs (load_indirect n lbas) w (λ r w', ∃ x', w' = with_dev x' w ∧ io_ok live m x'
    ∧ same_sectors (dev w) x' ∧ length r = 140%nat
    ∧ (∀ i, 0 ≤ i < 12 → r !! Z.to_nat i = lbas !! Z.to_nat i)
    ∧ ∀ i, 12 ≤ i < 140 → r !! Z.to_nat i
      = get_words indirect_sector_count_per_inode (sector (dev w) (IdxNode.indirect_tab_lba_ n))
          !! Z.to_nat (i - 12)).
Proof.
  intros Hm Hio Hl Ht. unfold load_indirect, IdxNode.GetIndirectTabLba.
  apply bind_assert; [apply negb_true_iff, Z.eqb_neq; lia|].
  apply (bind_read w live m); [by destruct Hm|done|lia|lia|lia|]. intros x1 Hio1 Hs1.
  rewrite sectors_1. apply runs_ret. exists x1. split; [done|]. split; [done|]. split; [done|].
  assert (Htk : length (take IdxNode.direct_block_count lbas) = 12%nat)
    by (rewrite length_take, Hl; done).
  split; [|split].
  - rewrite length_app, Htk, length_get_words. done.
  - intros i Hi. rewrite lookup_app_l by lia. apply lookup_take_lt. unfold IdxNode.direct_block_count. lia.
  - intros i Hi. rewrite lookup_app_r, Htk by lia. f_equal. lia.
Qed.

(** The blocks of a node in a range of sectors are on the disk, and so is the
    table if there is one. *)
Definition blocks_in (x : io D H) (n : IdxNode.t) (start end_ : Z) : Prop :=
  (IdxNode.indirect_tab_lba_ n = 0 ∨ 0 < IdxNode.indirect_tab_lba_ n < 163838)
  ∧ ∀ i, start ≤ i ≤ end_ → ∃ lba, node_blocks x n !! Z.to_nat i = Some lba ∧ 0 < lba < 163838.

Lemma blocks_direct x n start end_ i :
  IdxNode.wf n → blocks_in x n start end_ → start ≤ i ≤ end_ → 0 ≤ i < 12 →
  node_blocks x n !! Z.to_nat i = IdxNode.direct_lbas_ n !! Z.to_nat i
  ∧ ∃ lba, IdxNode.direct_lbas_ n !! Z.to_nat i = Some lba ∧ lba ≠ 0.
Proof.
  intros [_ _ Hd _] [_ Hb] Hi Hi'. destruct (Hb i Hi) as (lba & Hl & Hr).
  assert (E : node_blocks x n !! Z.to_nat i = IdxNode.direct_lbas_ n !! Z.to_nat i).
  { unfold node_blocks. rewrite lookup_app_l; [done|]. rewrite Hd. unfold IdxNode.direct_block_count. lia. }
  split; [done|]. rewrite E in Hl. exists lba. split; [done|lia].
Qed.

Lemma blocks_indirect x n start end_ i :
  IdxNode.wf n → blocks_in x n start end_ → start ≤ i ≤ end_ → 12 ≤ i < 140 →
  0 < IdxNode.indirect_tab_lba_ n < 163838
  ∧ node_blocks x n !! Z.to_nat i
    = get_words indirect_sector_count_per_inode (sector x (IdxNode.indirect_tab_lba_ n)) !! Z.to_nat (i - 12).
Proof.
  intros [_ _ Hd _] [Ht Hb] Hi Hi'. destruct (Hb i Hi) as (lba & Hl & Hr).
  unfold node_blocks in *. rewrite lookup_app_r in Hl |- * by (rewrite Hd; unfold IdxNode.direct_block_count; lia).
  rewrite Hd in *. replace (Z.to_nat i - IdxNode.direct_block_count)%nat with (Z.to_nat (i - 12)) in *
    by (unfold IdxNode.direct_block_count; lia).
  destruct (Z.eqb_spec (IdxNode.indirect_tab_lba_ n) 0) as [E|E]; [|split; [lia|done]].
  apply lookup_replicate in Hl as [-> _]. lia.
Qed.

(** The blocks [ReadFile] collects are those of the node. *)
Lemma read_lbas_ok bits b live m n start end_ (w : world) :
  mounted bits b w → io_ok live m (dev w) → IdxNode.wf n → 0 ≤ start ≤ end_ → end_ < 140 →
  blocks_in (dev w) n start end_ →
  runs (read_lbas n start end_) w (λ r w', ∃ x', w' = with_dev x' w ∧ io_ok live m x'
    ∧ same_sectors (dev w) x'
    ∧ ∀ i, start ≤ i ≤ end_ → r !! Z.to_nat i = node_blocks (dev w) n !! Z.to_nat i).
Proof.
  intros Hm Hio Hwf Hs He Hb. unfold read_lbas. change (Z.of_nat IdxNode.direct_block_count) with 12.
  assert (Hnone : length no_lbas = 140%nat) by apply length_replicate.
  assert (Hstay : ∀ r : list Z, (∀ i, start ≤ i ≤ end_ → r !! Z.to_nat i = node_blocks (dev w) n !! Z.to_nat i) →
    ∃ x', w = with_dev x' w ∧ io_ok live m x' ∧ same_sectors (dev w) x'
    ∧ ∀ i, start ≤ i ≤ end_ → r !! Z.to_nat i = node_blocks (dev w) n !! Z.to_nat i).
  { intros r Hr. exists (dev w). by destruct w. }
  assert (Hind : ∀ (lbas : list Z) lo, length lbas = 140%nat → start ≤ lo ≤ end_ → 12 ≤ end_ →
    (∀ i, start ≤ i ≤ end_ → i < 12 → lbas !! Z.to_nat i = IdxNode.direct_lbas_ n !! Z.to_nat i) →
    runs (load_indirect n lbas) w (λ r w', ∃ x', w' = with_dev x' w ∧ io_ok live m x'
      ∧ same_sectors (dev w) x'
      ∧ ∀ i, start ≤ i ≤ end_ → r !! Z.to_nat i = node_blocks (dev w) n !! Z.to_nat i)).
  { intros lbas lo Hl Hlo H12 Hd. destruct (blocks_indirect _ _ _ _ end_ Hwf Hb ltac:(lia) ltac:(lia)) as [Ht _].
    eapply runs_mono; [by apply (load_indirect_ok bits b live m)|].
    intros r w' (x' & -> & Hio' & Hs' & _ & Hr1 & Hr2). exists x'. split; [done|]. split; [done|].
    split; [done|]. intros i Hi. destruct (decide (i < 12)).
    - rewrite Hr1, Hd by lia. symmetry. by apply (blocks_direct _ _ start end_); [..|lia].
    - rewrite Hr2 by lia. symmetry. by apply (blocks_indirect _ _ start end_); [..|lia]. }
  destruct (Z.eqb_spec start end_) as [<-|Hne]; [|].
  - destruct (Z.ltb_spec start 12) as [Hlt|Hge].
    + destruct (blocks_direct _ _ _ _ start Hwf Hb ltac:(lia) ltac:(lia)) as (E & lba & Hlba & Hne).
      eapply runs_mono; [apply (load_direct_ok n start lba no_lbas w Hlba ltac:(lia) Hne)|].
      intros r w' [-> ->]. apply Hstay. intros i Hi. replace i with start by lia.
      rewrite list_lookup_insert_eq by lia. by rewrite E.
    + apply (Hind _ start); [done|lia|lia|lia].
  - destruct (Z.ltb_spec end_ 12) as [Hlt|Hge]; [|destruct (Z.ltb_spec start 12) as [Hlt|Hge']].
    + eapply runs_mono; [apply (load_range_ok n start (Z.to_nat (end_ - start + 1)) w Hwf)|]; [lia|lia| |].
      { intros i Hi. by apply (blocks_direct (dev w) n start end_); [..|lia|lia]. }
      intros r w' (-> & _ & Hr). apply Hstay. intros i Hi. rewrite Hr by lia. symmetry.
      by apply (blocks_direct _ _ start end_); [..|lia].
    + rewrite (proj2 (Z.leb_le _ _)) by done. cbn [andb].
      eapply runs_step; [apply (load_range_ok n start (Z.to_nat (12 - start)) w Hwf)|]; [lia|lia| |].
      { intros i Hi. by apply (blocks_direct (dev w) n start end_); [..|lia|lia]. }
      intros r w' (-> & Hl & Hr). apply (Hind r start); [done|lia|lia|]. intros i Hi Hi'. apply Hr. lia.
    + cbn [andb]. apply (Hind _ start); [done|lia|lia|lia].
Qed.

Lemma bind_file {A} d f (w : world) (k : File.t → M world A) Q :
  0 ≤ d → files w !! Z.to_nat d = Some f → runs (k f) w Q → runs (file_at d ≫= k) w Q.
Proof.
  intros Hd Hf Hk. unfold file_at. apply bind_assoc, bind_gets. apply (bind_lift _ f); [|done].
  unfold FileTab.get. pose proof (lookup_lt_Some _ _ _ Hf). rewrite Assert_true by (apply Z.ltb_lt; lia).
  rewrite res_bind_ok. by rewrite Hf.
Qed.

(** The sectors that are left to read. *)
Definition sectors_left (pos end_ : Z) : Z :=
  if pos <? end_ then (end_ - 1) / 512 - pos / 512 + 1 else 0.

Lemma sectors_left_nonneg pos end_ : 0 ≤ sectors_left pos end_.
Proof. unfold sectors_left. destruct (Z.ltb_spec pos end_); div_lia. Qed.

(** A step ends at the end of a sector, or at the end. *)
Lemma sectors_left_step pos end_ :
  0 ≤ pos < end_ → sectors_left (pos + Z.min (end_ - pos) (512 - pos mod 512)) end_ < sectors_left pos end_.
Proof.
  intros Hp. unfold sectors_left. destruct (Z.ltb_spec pos end_); [|lia].
  destruct (Z.ltb_spec (pos + Z.min (end_ - pos) (512 - pos mod 512)) end_); div_lia.
Qed.

(** The loop of [ReadFile] from an offset to [pos0 + size]; [T] are the bytes of
    the blocks, of which [out] were read. *)
Lemma read_chunks_ok bits b live m d (lbas : list Z) pos0 size (fuel : nat) : ∀ (w : world) f out blocks,
  let T := block_data (dev w) blocks in
  let pos := pos0 + Z.of_nat (length out) in
  mounted bits b w → io_ok live m (dev w) → 0 ≤ d → files w !! Z.to_nat d = Some f → File.pos f = pos →
  0 ≤ pos0 → pos0 + size ≤ 71680 → Z.of_nat (length out) ≤ size → length blocks = 140%nat →
  out = take (length out) (drop (Z.to_nat pos0) T) →
  (∀ i, pos0 / 512 ≤ i ≤ (pos0 + size) / 512 →
    lbas !! Z.to_nat i = blocks !! Z.to_nat i
    ∧ ∃ lba, blocks !! Z.to_nat i = Some lba ∧ 0 < lba < 163838) →
  sectors_left pos (pos0 + size) < Z.of_nat fuel →
  runs (read_chunks fuel d lbas size out) w (λ r w',
    r = take (Z.to_nat size) (drop (Z.to_nat pos0) T) ∧ ∃ x',
      w' = with_files (<[Z.to_nat d := File.with_pos (pos0 + size) f]> (files w)) (with_dev x' w)
      ∧ io_ok live m x' ∧ same_sectors (dev w) x').
Proof.
  induction fuel as [|fuel IH]; intros w f out blocks T pos Hm Hio Hd Hf Hpos H0' Hle Hout Hlb HT Hb Hfuel.
  { pose proof (sectors_left_nonneg pos (pos0 + size)). lia. }
  cbn [read_chunks]. destruct (Z.ltb_spec (Z.of_nat (length out)) size) as [Hlt|Hge].
  - apply (bind_file d f); [done..|]. rewrite Hpos. cbv zeta. change sector_size with 512.
    set (c := Z.min (size - Z.of_nat (length out)) (512 - pos mod 512)).
    assert (Hc : 0 < c ∧ c ≤ size - Z.of_nat (length out) ∧ c ≤ 512 - pos mod 512) by (unfold c; div_lia).
    destruct (Hb (pos / 512)) as (El & lba & Elba & Hlba); [unfold pos; div_lia|].
    apply (bind_lift _ lba); [by rewrite El, Elba|].
    apply (bind_read w live m); [by destruct Hm|done|lia|lia|lia|]. intros x1 Hio1 Hs1.
    rewrite sectors_1. pose proof (length_sector (dev w) lba) as Hlen.
    apply (bind_lift _ (take (Z.to_nat c) (drop (Z.to_nat (pos mod 512)) (sector (dev w) lba))));
      [apply slice_ok; div_lia|].
    apply bind_modify. rewrite u32_small by (unfold pos; lia).
    set (chunk := take _ (drop _ (sector (dev w) lba))).
    assert (Hlc : Z.of_nat (length chunk) = c)
      by (unfold chunk; rewrite length_take, length_drop, Hlen; div_lia).
    assert (Hchunk : chunk = take (Z.to_nat c) (drop (length out) (drop (Z.to_nat pos0) T))).
    { rewrite drop_drop. unfold T.
      replace (Z.to_nat pos0 + length out)%nat with (512 * Z.to_nat (pos / 512) + Z.to_nat (pos mod 512))%nat
        by (unfold pos; div_lia).
      unfold chunk. symmetry. apply block_data_read; [done|div_lia]. }
    assert (Hout' : out ++ chunk = take (length (out ++ chunk)) (drop (Z.to_nat pos0) T)).
    { rewrite length_app, <- take_take_drop, <- HT. f_equal. rewrite Hchunk at 1. f_equal. lia. }
    unfold T in Hout'. rewrite <- (block_data_same _ _ blocks Hs1) in Hout'.
    eapply runs_mono; [apply (IH _ (File.with_pos (pos + c) f) (out ++ chunk) blocks)|].
    + by destruct Hm.
    + exact Hio1.
    + done.
    + cbn [files with_files with_dev]. unfold FileTab.set_. rewrite list_lookup_insert_eq; [done|].
      by apply lookup_lt_Some in Hf.
    + simpl. rewrite length_app. unfold pos. lia.
    + done.
    + done.
    + rewrite length_app. lia.
    + done.
    + exact Hout'.
    + done.
    + rewrite length_app. pose proof (sectors_left_step pos (pos0 + size) ltac:(unfold pos; lia)) as Hstep.
      replace (pos0 + size - pos) with (size - Z.of_nat (length out)) in Hstep by (unfold pos; lia).
      fold c in Hstep. replace (pos0 + Z.of_nat (length out + length chunk)) with (pos + c)
        by (unfold pos; lia). lia.
    + intros r w' (-> & x' & -> & Hio' & Hs'). cbn [dev files with_files with_dev] in *. split.
      * by rewrite (block_data_same _ _ blocks Hs1).
      * exists x'. split; [|split; [done|by eapply same_sectors_trans]].
        unfold with_files, with_dev, FileTab.set_. cbn. by rewrite list_insert_insert_eq.
  - apply runs_ret. assert (Hsz : Z.of_nat (length out) = size) by lia. split.
    + rewrite HT at 1. f_equal. lia.
    + exists (dev w). split; [|done]. rewrite list_insert_id; [by destruct w|].
      rewrite Hf. f_equal. destruct f. simpl in Hpos. unfold File.with_pos. simpl. f_equal. unfold pos in *. lia.
Qed.

(** C6. [ReadFile] returns the bytes of the file from the access offset on, as
    many as were asked for and as there are, moves the offset behind them, and
    changes nothing else: the blocks it collects are those of the node, direct,
    indirect or both, and its buffers are given back. The block at the end of
    the access must exist even when the access ends right before it. *)
Theorem ReadFile_reads bits b live m d size f a n (w : world) :
  let size' := Z.min size (IdxNode.size n - File.pos f) in
  mounted bits b w → io_ok live (S (S m)) (dev w) → 0 ≤ d → files w !! Z.to_nat d = Some f →
  File.inode f = Some a → nodes w !! a = Some n → IdxNode.wf n → 0 ≤ size →
  0 ≤ File.pos f ≤ IdxNode.size n → IdxNode.size n < 71680 →
  (0 < size' → blocks_in (dev w) n (File.pos f / 512) ((File.pos f + size') / 512)) →
  runs (ReadFile d size) w (λ out w',
    out = take (Z.to_nat size') (drop (Z.to_nat (File.pos f)) (content (dev w) n)) ∧ ∃ x',
      w' = with_files (<[Z.to_nat d := File.with_pos (File.pos f + size') f]> (files w)) (with_dev x' w)
      ∧ io_ok live (S (S m)) x' ∧ same_sectors (dev w) x').
Proof.
  intros size' Hm Hio Hd Hf Ha Hn Hwf Hsz Hpos Hmax Hb. unfold ReadFile.
  assert (Hopen : File.IsOpen f = true) by (unfold File.IsOpen; rewrite Ha; by apply bool_decide_eq_true_2; eauto).
  apply (bind_file d f); [done..|]. apply bind_assert; [done|].
  unfold GetNode. apply bind_assoc, bind_assert; [done|]. apply (bind_lift _ a); [by rewrite Ha|].
  apply (node_at_ok a n); [done|]. apply bind_assert; [apply Z.leb_le; lia|]. cbv zeta. fold size'.
  destruct (Z.eqb_spec size' 0) as [E0|Hne].
  { rewrite E0. apply runs_ret. split; [done|]. exists (dev w).
    rewrite list_insert_id; [by destruct w|]. rewrite Hf. f_equal. destruct f. unfold File.with_pos. simpl.
    f_equal. lia. }
  assert (Hs' : 0 < size' ∧ File.pos f + size' ≤ IdxNode.size n) by (unfold size' in *; lia).
  assert (Hend : (File.pos f + size') / 512 < 140) by div_lia.
  change sector_size with 512. change sector_count_per_inode with 140. rewrite (u32_small (File.pos f + size')) by lia.
  apply (bind_new w live (S m) default_pool); [done|done|]. intros a1 x1 Ha1 Hio1 Hs1.
  apply (bind_new _ (<[a1 := default_pool]> live) m default_pool); [done|done|]. intros a2 x2 Ha2 Hio2 Hs2.
  cbn [dev with_dev] in *. assert (Hs02 : same_sectors (dev w) x2) by (by eapply same_sectors_trans).
  apply bind_assert; [apply andb_true_iff; split; [apply Z.leb_le|apply Z.ltb_lt]; [div_lia|lia]|].
  set (live2 := <[a2 := default_pool]> (<[a1 := default_pool]> live)) in *.
  set (lo := File.pos f / 512) in *. set (hi := (File.pos f + size') / 512) in *.
  destruct (Hb ltac:(lia)) as [Htab Hblk].
  assert (Hnb : node_blocks x2 n = node_blocks (dev w) n)
    by (unfold node_blocks; case_match; [done|by rewrite Hs02]).
  eapply runs_step; [apply (read_lbas_ok bits b live2 m n lo hi); [by destruct Hm|done|done|unfold lo, hi; div_lia|done|]|].
  { split; [done|]. cbn [dev with_dev]. by rewrite Hnb. }
  intros lbas w' (x3 & -> & Hio3 & Hs3 & Hl). cbn [dev with_dev] in *.
  assert (Hs03 : same_sectors (dev w) x3) by (by eapply same_sectors_trans).
  eapply runs_step; [apply (read_chunks_ok bits b live2 m d lbas (File.pos f) size' io_fuel _ f []
    (node_blocks (dev w) n))|].
  - by destruct Hm.
  - exact Hio3.
  - done.
  - exact Hf.
  - simpl. lia.
  - lia.
  - lia.
  - simpl. lia.
  - by apply length_node_blocks.
  - done.
  - intros i Hi. rewrite Hl, Hnb by done. split; [done|]. by apply Hblk.
  - cbn [length]. rewrite Z.add_0_r. unfold sectors_left, io_fuel.
    destruct (Z.ltb_spec (File.pos f) (File.pos f + size')); div_lia.
  - intros out w' (-> & x4 & -> & Hio4 & Hs4). cbn [dev with_dev files with_files] in *.
    apply (bind_delete _ live2 m default_pool a2); [exact Hio4|apply lookup_insert_eq|]. intros x5 Hio5 Hs5.
    unfold live2 in Hio5. rewrite delete_insert_id in Hio5 by done. cbn [dev with_dev with_files] in *.
    apply (bind_delete _ (<[a1 := default_pool]> live) (S m) default_pool a1); [exact Hio5|apply lookup_insert_eq|].
    intros x6 Hio6 Hs6. rewrite delete_insert_id in Hio6 by done. cbn [dev with_dev with_files] in *.
    apply runs_ret. split.
    + rewrite (block_data_same (dev w) x3) by done. unfold content.
      replace (Z.to_nat (IdxNode.size n))
        with (Z.to_nat (File.pos f) + Z.to_nat (IdxNode.size n - File.pos f))%nat by lia.
      rewrite <- take_drop_commute, take_take. f_equal. lia.
    + exists x6. split; [done|]. split; [done|]. eauto using same_sectors_trans.
Qed.
End contents.

#[local] Existing Instance Ram.ram_store.
#[local] Existing Instance Ram.ram_store_laws.
#[local] Existing Instance Ram.ram_heap.
#[local] Existing Instance Ram.ram_heap_laws.

(** A file open for reading behind its first 3 bytes. *)
Definition demo_disk : io Ram.disk Ram.heap :=
  ({[ 674 := [72; 101; 108; 108; 111; 44; 32; 119; 111; 114; 108; 100] ]}, snd Ram.fresh).
Definition demo_file : File.t := File.mk File.ReadOnly (Some 0x2000) 3.
Definition demo_open : IdxNode.t := IdxNode.with_open_times 1 (IdxNode.CloneToPure demo_node).
Definition demo_files : FilePart.world Ram.disk Ram.heap :=
  demo_world demo_disk {[ 0x2000 := demo_open ]} [demo_file].

Lemma demo_disk_ok n : io_ok ∅ n demo_disk.
Proof. apply (Ram.fresh_ok n). Qed.

Lemma demo_open_wf : IdxNode.wf demo_open.
Proof. split; [|done|done|]; repeat (apply Forall_cons; split; [by split|]); by apply Forall_nil_2. Qed.

Lemma ReadFile_reads_witness :
  runs (ReadFile 0 9) demo_files (λ out w',
    out = take (Z.to_nat 9) (drop (Z.to_nat 3) (content demo_disk demo_open)) ∧ ∃ x',
      w' = with_files (<[Z.to_nat 0 := File.with_pos (3 + 9) demo_file]> (files demo_files)) (with_dev x' demo_files)
      ∧ io_ok ∅ 2 x' ∧ same_sectors demo_disk x').
Proof.
  apply (ReadFile_reads demo_bits demo_block ∅ 0 0 9 demo_file 0x2000 demo_open demo_files).
  - apply demo_mounted.
  - apply demo_disk_ok.
  - done.
  - done.
  - done.
  - done.
  - apply demo_open_wf.
  - done.
  - done.
  - done.
  - intros _. split; [by left|]. intros i [Hl Hh]. change (0 ≤ i) in Hl. change (i ≤ 0) in Hh. assert (i = 0) as -> by lia. by exists 674.
Defined.
End FsFile.
