(* ===== verification/FsWrite.v ===== *)
(** * Appending to files

    What [WriteFile] does to a file whose blocks stay direct ones: blocks are
    taken from the bitmap, the bytes go behind those of the file, and the node is
    saved. The blocks of other files are free of it because blocks in use are
    marked in the bitmap. *)
From S2P Require Import Prelude UtilBit UtilBitmap IoFileDesc MemPool IoDisk FsBase IoPart FsData FsFormat FsPart FsFile.
Import metric.

Module FsWrite.
Import Bytes FilePart FsFile.

Section writes.
Context {D H : Type} `{Store D} `{Heap H} `{!StoreLaws D} `{!HeapLaws H}.
Local Abbreviation world := (FilePart.world D H).

(** ** The bytes of blocks *)

Lemma block_split (x : io D H) blocks (k : nat) lba :
  blocks !! k = Some lba →
  block_data x blocks = block_data x (take k blocks) ++ sector x lba ++ block_data x (drop (S k) blocks)
  ∧ length (block_data x (take k blocks)) = (512 * k)%nat.
Proof.
  intros Hk. split.
  - unfold block_data. rewrite <- (take_drop_middle blocks k lba Hk) at 1.
    by rewrite fmap_app, concat_app.
  - rewrite length_block_data, length_take. apply lookup_lt_Some in Hk. lia.
Qed.

(** Bytes that go behind the first [512 * k + off] of some blocks. *)
Lemma block_data_append (x x' : io D H) blocks (k off : nat) lba c :
  blocks !! k = Some lba → (off + length c ≤ 512)%nat →
  take (off + length c) (sector x' lba) = take off (sector x lba) ++ c →
  (∀ l, l ∈ take k blocks → sector x' l = sector x l) →
  take (512 * k + off + length c) (block_data x' blocks)
  = take (512 * k + off) (block_data x blocks) ++ c.
Proof.
  intros Hk Hle Hs Hold. destruct (block_split x' blocks k lba Hk) as [-> Hl'].
  destruct (block_split x blocks k lba Hk) as [-> Hl].
  assert (E : block_data x' (take k blocks) = block_data x (take k blocks)).
  { unfold block_data. f_equal. apply list_fmap_ext. intros i l Hi. apply Hold.
    by eapply list_elem_of_lookup_2. }
  rewrite E. rewrite !(take_app_ge (block_data x (take k blocks))) by lia. rewrite Hl, <- app_assoc. f_equal.
  replace (512 * k + off + length c - 512 * k)%nat with (off + length c)%nat by lia.
  replace (512 * k + off - 512 * k)%nat with off by lia.
  rewrite !take_app_le by (rewrite length_sector; lia). done.
Qed.

(** The bytes of the first blocks depend on these only. *)
Lemma block_data_prefix (x x' : io D H) blocks n :
  (∀ i l, (512 * i < n)%nat → blocks !! i = Some l → sector x' l = sector x l) →
  take n (block_data x' blocks) = take n (block_data x blocks).
Proof.
  revert n. induction blocks as [|l blocks IH]; intros n Hs; [done|].
  unfold block_data in *. rewrite !fmap_cons. cbn [concat].
  destruct (decide (n = 0%nat)) as [->|Hn]; [done|].
  rewrite (Hs 0%nat l) by (done || lia). rewrite !take_app, !length_sector. f_equal.
  apply IH. intros i l' Hi Hl. apply (Hs (S i) l'); [lia|done].
Qed.

(** ** The loop that writes *)

(** The sector that is written at offset [off]: the bytes before are those of
    the sector, read into the buffer or none. *)
Lemma written_sector (base buf c old : list Z) (off : Z) :
  Z.of_nat (length base) = 1024 → 0 ≤ off → off + Z.of_nat (length c) ≤ 512 →
  length old = 512%nat → take (Z.to_nat off) base = take (Z.to_nat off) old →
  splice base off c = Ok buf →
  Z.of_nat (length buf) = 1024
  ∧ take (Z.to_nat off + length c) (take 512 buf) = take (Z.to_nat off) old ++ c.
Proof.
  intros Hl Ho Hc Hold Hpre E. rewrite splice_ok in E by lia. injection E as <-. split.
  - rewrite !length_app, length_take, length_drop. lia.
  - rewrite take_take, Nat.min_l by lia. rewrite app_assoc, take_app_le.
    + rewrite take_ge by (rewrite length_app, length_take; lia). by rewrite Hpre.
    + rewrite length_app, length_take. lia.
Qed.
(** The blocks a write of the bytes from [start] to [end_] goes to. *)
Definition writable (lbas blocks : list Z) (start end_ : Z) : Prop :=
  (∀ i, start / 512 ≤ i → 512 * i < end_ → lbas !! Z.to_nat i = blocks !! Z.to_nat i
    ∧ ∃ lba, blocks !! Z.to_nat i = Some lba ∧ 0 < lba < 163839)
  ∧ ∀ i j l, 512 * Z.of_nat i < end_ → 512 * Z.of_nat j < end_ →
      blocks !! i = Some l → blocks !! j = Some l → i = j.

(** The sectors [x'] of these blocks apart are those of [x]. *)
Definition rest_same (blocks : list Z) (start end_ : Z) (x x' : io D H) : Prop :=
  ∀ l, (∀ i, start / 512 ≤ i → 512 * i < end_ → blocks !! Z.to_nat i ≠ Some l) → sector x' l = sector x l.

(** The world when the loop has written up to [size] bytes of the file. *)
Definition grown (x : io D H) (d a : Z) (f : File.t) (n : IdxNode.t) (pos size : Z) (w : world) : world :=
  with_nodes (<[a := IdxNode.with_size size n]> (nodes w))
    (with_files (<[Z.to_nat d := File.with_pos pos f]> (files w)) (with_dev x w)).

Lemma grown_grown x x' d a f n pos pos' size size' w :
  (Z.to_nat d < length (files w))%nat →
  grown x' d a (File.with_pos pos f) (IdxNode.with_size size n) pos' size' (grown x d a f n pos size w)
  = grown x' d a f n pos' size' w.
Proof.
  intros Hd. unfold grown, with_nodes, with_files, with_dev. cbn [nodes files dev part dirs root_dir descs].
  by rewrite insert_insert_eq, list_insert_insert_eq.
Qed.

(** The buffer of a round: the sector when it is the first, else zeros, and
    nothing of the sector is to be kept. *)
Lemma bind_buffer {A} (w : world) live m first lba (off : nat) (k : list Z → M world A) Q :
  attached w → io_ok live m (dev w) → 0 < lba < 163839 → (off ≤ 512)%nat →
  (first = true ∨ off = 0%nat) →
  (∀ base x', Z.of_nat (length base) = 1024 → take off base = take off (sector (dev w) lba) →
    io_ok live m x' → same_sectors (dev w) x' → runs (k base) (with_dev x' w) Q) →
  runs ((if first then old ← disk_read lba 1; lift (splice (zeros (2 * sector_size)) 0 old)
         else mret (zeros (2 * sector_size))) ≫= k) w Q.
Proof.
  intros Hd Hio Hlba Hoff Hf Hk. pose proof (length_sector (dev w) lba) as Hl. destruct first.
  - apply bind_assoc, (bind_read w live m); [done|done|lia|lia|lia|]. intros x' Hio' Hs'. rewrite sectors_1.
    eapply bind_lift; [apply splice_ok; rewrite Hl; by change (Z.of_nat (length (zeros (2 * sector_size)))) with 1024|].
    apply (Hk _ x'); [|..]; [| |done|done].
    + change (take (Z.to_nat 0) _) with (@nil Z). rewrite app_nil_l, length_app, length_drop, Hl.
      change (length (zeros (2 * sector_size))) with 1024%nat. lia.
    + change (take (Z.to_nat 0) _) with (@nil Z). rewrite app_nil_l. apply take_app_le. lia.
  - apply bind_ret. replace w with (with_dev (dev w) w) by (by destruct w).
    destruct Hf as [|Hoff0]; [done|]. subst off. by apply Hk.
Qed.

Lemma writable_later lbas blocks start start' end_ :
  start ≤ start' → writable lbas blocks start end_ → writable lbas blocks start' end_.
Proof. intros Hs [Hb Hi]. split; [|done]. intros i Hi1 Hi2. apply Hb; [div_lia|done]. Qed.

(** The bytes of a round go behind those before. *)
Lemma append_round (x x1 x2 : io D H) (blocks lbas buf ck P data : list Z) lba s written end_ :
  let c := Z.of_nat (length ck) in
  0 ≤ s → 0 ≤ written → s < end_ → c ≤ 512 - s mod 512 → writable lbas blocks s end_ →
  blocks !! Z.to_nat (s / 512) = Some lba → same_sectors x x1 → stored lba buf 1 x1 x2 →
  take (Z.to_nat (s mod 512) + length ck) (take 512 buf) = take (Z.to_nat (s mod 512)) (sector x lba) ++ ck →
  ck = take (Z.to_nat c) (drop (Z.to_nat written) data) →
  take (Z.to_nat s) (block_data x blocks) = P ++ take (Z.to_nat written) data →
  take (Z.to_nat (s + c)) (block_data x2 blocks) = P ++ take (Z.to_nat (written + c)) data.
Proof.
  intros c Hs Hw He Hc [_ Hinj] Hl Hs1 Hst Hsec Hck HT.
  assert (Hsame : ∀ l, l ≠ lba → sector x2 l = sector x l).
  { intros l Hne. rewrite Hst, (proj2 (andb_false_iff _ _)); [apply Hs1|].
    destruct (Z.leb_spec lba l), (Z.ltb_spec l (lba + 1)); auto; lia. }
  assert (Hat : sector x2 lba = take 512 buf).
  { rewrite Hst, (proj2 (Z.leb_le _ _)), (proj2 (Z.ltb_lt _ _)) by lia. cbn [andb].
    unfold Disk.chunk. by rewrite Z.sub_diag. }
  replace (Z.to_nat (s + c)) with (512 * Z.to_nat (s / 512) + Z.to_nat (s mod 512) + length ck)%nat by (unfold c; div_lia).
  rewrite (block_data_append x x2 blocks _ _ lba ck); [|done|unfold c in *; div_lia|by rewrite Hat|].
  - replace (512 * Z.to_nat (s / 512) + Z.to_nat (s mod 512))%nat with (Z.to_nat s) by div_lia.
    rewrite HT, <- app_assoc. f_equal. rewrite Hck at 1. rewrite take_take_drop. f_equal. lia.
  - intros l [j Hj]%list_elem_of_lookup. apply lookup_take_Some in Hj as [Hj Hlt]. apply Hsame. intros ->.
    pose proof (Hinj j (Z.to_nat (s / 512)) lba) as E. rewrite (E ltac:(div_lia) ltac:(div_lia) Hj Hl) in Hlt. lia.
Qed.

Lemma write_chunks_ok bits b live m d (lbas data blocks P : list Z) s0 (fuel : nat) :
  let size := Z.of_nat (length data) in
  0 ≤ d → 0 ≤ s0 → Z.of_nat (length P) = s0 → s0 + size ≤ 71680 → length blocks = 140%nat →
  ∀ (w : world) f n a first written buf,
  let s := s0 + written in
  mounted bits b w → io_ok live m (dev w) → files w !! Z.to_nat d = Some f → nodes w !! a = Some n →
  IdxNode.size n = s → 0 ≤ File.pos f < 2 ^ 32 → 0 ≤ written ≤ size → Z.of_nat (length buf) = 1024 →
  (first = true ∨ s mod 512 = 0 ∨ written = size) → writable lbas blocks s (s0 + size) →
  take (Z.to_nat s) (block_data (dev w) blocks) = P ++ take (Z.to_nat written) data →
  sectors_left s (s0 + size) < Z.of_nat fuel →
  runs (write_chunks fuel d a lbas data size first written buf) w (λ r w',
    r.1 = size ∧ Z.of_nat (length r.2) = 1024 ∧ ∃ x',
      w' = grown x' d a f n (u32 (File.pos f + (size - written))) (s0 + size) w
      ∧ io_ok live m x' ∧ take (Z.to_nat (s0 + size)) (block_data x' blocks) = P ++ data
      ∧ rest_same blocks s (s0 + size) (dev w) x').
Proof.
  intros size Hd Hs0 HP Hmax Hlb. induction fuel as [|fuel IH];
    intros w f n a first written buf s Hm Hio Hf Hn Hsz Hpos Hw Hbuf Hfirst Hb HT Hfuel.
  { pose proof (sectors_left_nonneg s (s0 + size)). lia. }
  cbn [write_chunks]. destruct (Z.ltb_spec written size) as [Hlt|Hge].
  - apply (node_at_ok a n); [done|]. cbv zeta. rewrite Hsz. change sector_size with 512.
    set (c := Z.min (size - written) (512 - s mod 512)).
    assert (Hc : 0 < c ∧ c ≤ size - written ∧ c ≤ 512 - s mod 512) by (unfold c; div_lia).
    destruct Hb as [Hb Hinj]. destruct (Hb (s / 512)) as (El & lba & Elba & Hlba); [div_lia|unfold s; div_lia|].
    apply (bind_lift _ lba); [by rewrite El, Elba|].
    apply (bind_buffer w live m first lba (Z.to_nat (s mod 512))); [by destruct Hm|done|done|div_lia| |].
    { destruct Hfirst as [->|[E|]]; [by left|right; lia|lia]. }
    intros base x1 Hlbase Hbase Hio1 Hs1.
    set (ck := take (Z.to_nat c) (drop (Z.to_nat written) data)).
    apply (bind_lift _ ck); [apply slice_ok; unfold size in *; lia|].
    assert (Hlck : Z.of_nat (length ck) = c) by (unfold ck; rewrite length_take, length_drop; unfold size in *; lia).
    destruct (splice_fits base (s mod 512) ck) as [buf' E']; [div_lia|].
    destruct (written_sector base buf' ck (sector (dev w) lba) (s mod 512)) as [Hlbuf' Hsec];
      [done|div_lia|div_lia|apply length_sector|done|done|].
    apply (bind_lift _ _ _ _ _ E').
    apply (bind_write _ live m); [by destruct Hm|exact Hio1|lia|lia|lia|lia|]. intros x2 Hio2 Hst2.
    cbn [dev with_dev] in *. apply (bind_file d f); [done..|]. unfold set_file, set_node, FileTab.set_.
    apply bind_modify, bind_modify. rewrite (u32_small (s + c)) by (unfold s in *; lia).
    pose proof (lookup_lt_Some _ _ _ Hf) as Hdl.
    eapply runs_mono; [apply (IH (grown x2 d a f n (u32 (File.pos f + c)) (s + c) w)
      (File.with_pos (u32 (File.pos f + c)) f) (IdxNode.with_size (s + c) n) a false (written + c) buf')|].
    + by destruct Hm.
    + exact Hio2.
    + apply list_lookup_insert_eq. done.
    + apply lookup_insert_eq.
    + cbn. unfold s. lia.
    + apply u32_range.
    + lia.
    + done.
    + right. replace (s0 + (written + c)) with (s + c) by (unfold s; lia).
      destruct (decide (written + c = size)); [by right|left]. unfold c in *. div_lia.
    + apply (writable_later _ _ s); [unfold s; lia|done].
    + replace (s0 + (written + c)) with (s + c) by (unfold s; lia). rewrite <- Hlck.
      apply (append_round (dev w) x1 x2 blocks lbas buf' ck P data lba s written (s0 + size));
        solve [done|by split|rewrite Hlck; tauto|unfold s; lia|by rewrite Hlck].
    + replace (s0 + (written + c)) with (s + c) by (unfold s; lia).
      assert (Ec : c = Z.min (s0 + size - s) (512 - s mod 512)) by (unfold c; f_equal; unfold s; lia).
      pose proof (sectors_left_step s (s0 + size) ltac:(unfold s; lia)) as Hstep. rewrite <- Ec in Hstep. lia.
    + intros r w' (Hr1 & Hr2 & x' & -> & Hio' & HT' & Hrest). split; [done|]. split; [done|]. exists x'.
      split; [|split; [done|split; [done|]]].
      * rewrite grown_grown by done. cbn [File.pos File.with_pos]. rewrite u32_add_l. do 2 f_equal. lia.
      * intros l Hl. rewrite Hrest.
        -- cbn. rewrite Hst2, (proj2 (andb_false_iff _ _)); [apply Hs1|].
           assert (l ≠ lba) by (intros ->; apply (Hl (s / 512)); [lia|unfold s; div_lia|done]).
           destruct (Z.leb_spec lba l), (Z.ltb_spec l (lba + 1)); auto; lia.
        -- intros i Hi1 Hi2. apply Hl; [div_lia|done].
  - apply runs_ret. assert (written = size) as -> by lia. split; [done|]. split; [done|].
    exists (dev w). unfold s in *. rewrite Z.sub_diag, Z.add_0_r, u32_small by done. split; [|split; [done|split]].
    + unfold grown. rewrite list_insert_id, insert_id; [by destruct w|..].
      * rewrite Hn. f_equal. destruct n. cbn in Hsz. by subst.
      * rewrite Hf. by destruct f.
    + rewrite HT. f_equal. apply take_ge. unfold size. lia.
    + by intros l _.
Qed.
(** ** Blocks from the bitmap *)

Definition bitmap (w : world) : Bitmap.t := block_bitmap_ (part w).

(** The bits behind the last block are marked, and the sectors of the bitmap,
    that of index [but] apart, are those of the bytes in memory. *)
Definition tail_marked (bits : Z) (w : world) : Prop :=
  ∀ i, bits ≤ i < Bitmap.cap (bitmap w) → Bitmap.alloc_at (bitmap w) i = true.
Definition saved_but (but : option Z) (b : SuperBlock.t) (w : world) : Prop :=
  ∃ bs, Bitmap.bits_ (bitmap w) = Some bs ∧ ∀ p v, but ≠ Some (Z.of_nat p / 512) → bs !! p = Some v →
    disk_byte (dev w) (512 * SuperBlock.block_bitmap_start_lba b + Z.of_nat p) = Some v.

(** A mounted partition whose bitmap of blocks is on the disk. *)
Record allocating (but : option Z) (bits : Z) (b : SuperBlock.t) (w : world) : Prop := {
  al_mounted : mounted bits b w;
  al_tail : tail_marked bits w;
  al_saved : saved_but but b w
}.

(** At least [k] blocks are free. *)
Definition free_blocks (bits : Z) (w : world) (k : nat) : Prop :=
  ∃ l, NoDup l ∧ length l = k ∧ ∀ i, i ∈ l → 0 ≤ i < bits ∧ Bitmap.alloc_at (bitmap w) i = false.

(** A block of the partition that is in use. *)
Definition in_use (bits : Z) (b : SuperBlock.t) (w : world) (lba : Z) : Prop :=
  ∃ i, 0 ≤ i < bits ∧ lba = SuperBlock.data_start_lba b + i ∧ Bitmap.alloc_at (bitmap w) i = true.

Lemma in_use_range bits b w lba :
  mounted bits b w → in_use bits b w lba →
  SuperBlock.data_start_lba b ≤ lba < 163839 ∧ 0 < lba.
Proof.
  intros [_ _ _ _ Hlay [Hs Hr] _ _] (i & Hi & -> & _).
  destruct Hlay as [_ _ _ _ Ebb Hbits _ Eib _ Ein _ Eda Hin _]. lia.
Qed.

Lemma byte_ext x y : in_u 8 x → in_u 8 y → (∀ m, 0 ≤ m < 8 → Z.testbit x m = Z.testbit y m) → x = y.
Proof.
  intros Hx Hy Hb. apply Z.bits_inj'. intros m Hm. destruct (decide (m < 8)); [apply Hb; lia|].
  unfold in_u in *. rewrite <- (Z.mod_small x (2 ^ 8)), <- (Z.mod_small y (2 ^ 8)) by done.
  by rewrite !Z.mod_pow2_bits_high by lia.
Qed.

(** Marking a bit changes no byte but its own. *)
Lemma updated_byte bm bm' i bs bs' p :
  Bitmap.wf bm → Bitmap.updated bm bm' i 1 true → Bitmap.bits_ bm = Some bs → Bitmap.bits_ bm' = Some bs' →
  Z.of_nat p ≠ i / 8 → bs' !! p = bs !! p.
Proof.
  intros [(l & E & Hl & Hb) _ _] ([(l' & E' & Hl' & Hb') _ _] & Hlen & Hu) Ebs Ebs' Hp.
  rewrite E in Ebs. injection Ebs as <-. rewrite E' in Ebs'. injection Ebs' as <-. rename l into bs, l' into bs'.
  destruct (bs !! p) as [x|] eqn:Ex.
  - destruct (lookup_lt_is_Some_2 bs' p) as [y Ey].
    { apply lookup_lt_Some in Ex. lia. }
    rewrite Ey. f_equal. pose proof (Forall_lookup_1 _ _ _ _ Hb Ex). pose proof (Forall_lookup_1 _ _ _ _ Hb' Ey).
    apply byte_ext; [done..|]. intros m Hm. specialize (Hu (8 * Z.of_nat p + m) ltac:(lia)).
    unfold Bitmap.alloc_at, bit.byte_len in Hu. rewrite E, E' in Hu.
    replace ((8 * Z.of_nat p + m) / 8) with (Z.of_nat p) in Hu by div_lia.
    replace ((8 * Z.of_nat p + m) mod 8) with m in Hu by div_lia. rewrite Nat2Z.id, Ex, Ey in Hu.
    rewrite Hu. destruct (Z.leb_spec i (8 * Z.of_nat p + m)), (Z.ltb_spec (8 * Z.of_nat p + m) (i + 1)); try done.
    exfalso. apply Hp. div_lia.
  - apply lookup_ge_None in Ex. apply lookup_ge_None. lia.
Qed.
Definition with_bitmap (bm : Bitmap.t) (w : world) : world :=
  with_part (with_block_bitmap bm (part w)) w.

(** The bit [i] is marked in memory; its sector is not saved yet. *)
Lemma allocating_mark bits b w bm i :
  allocating None bits b w → Bitmap.updated (bitmap w) bm i 1 true → 0 ≤ i < bits →
  allocating (Some (i / 4096)) bits b (with_bitmap bm w).
Proof.
  intros [Hm Ht (bs & Ebs & Hs)] Hu Hi. pose proof Hm as [_ _ _ _ _ _ [Hwf Hlen] _].
  pose proof Hu as (Hwf' & Hlen' & Ha). split.
  - destruct Hm. split; try done. split; [done|]. cbn. rewrite Hlen'. exact Hlen.
  - intros j Hj. change (bitmap (with_bitmap bm w)) with bm in *. unfold Bitmap.cap in Hj. rewrite Hlen' in Hj.
    rewrite Ha by lia. case_match; [done|]. by apply Ht.
  - destruct (Bitmap.wf_bits _ Hwf') as (bs' & Ebs' & _). exists bs'. split; [done|]. intros p v Hp Hv.
    apply Hs; [done|]. rewrite <- Hv. symmetry.
    apply (updated_byte (bitmap w) bm i bs bs'); [done..|]. intros E. apply Hp. f_equal. rewrite E. div_lia.
Qed.

Lemma free_blocks_mark bits w bm i k :
  free_blocks bits w (S k) → Bitmap.updated (bitmap w) bm i 1 true →
  free_blocks bits (with_bitmap bm w) k.
Proof.
  intros (l & Hnd & Hl & Hf) (_ & _ & Ha).
  assert (Hkeep : ∀ j, j ∈ l → j ≠ i → 0 ≤ j < bits ∧ Bitmap.alloc_at bm j = false).
  { intros j Hj Hne. destruct (Hf j Hj) as [? Hz]. split; [done|]. rewrite Ha by lia.
    destruct (Z.leb_spec i j), (Z.ltb_spec j (i + 1)); try done. lia. }
  destruct (decide (i ∈ l)) as [Hin|Hin].
  - exists (filter (.≠ i) l). split; [by apply NoDup_filter|].
    rewrite (length_filter_ne i l Hnd Hin) in Hl. split; [lia|].
    intros j [Hne Hj]%list_elem_of_filter. by apply Hkeep.
  - destruct l as [|x l]; [done|]. apply NoDup_cons in Hnd as [Hx Hnd]. exists l. split; [done|].
    split; [simpl in Hl; lia|]. intros j Hj. apply Hkeep; [by constructor|]. intros ->. apply Hin. by constructor.
Qed.

Lemma AllocBlock_ok bits b (w : world) k :
  allocating None bits b w → free_blocks bits w (S k) →
  runs AllocBlock w (λ lba w', ∃ i bm, 0 ≤ i < bits ∧ lba = SuperBlock.data_start_lba b + i
    ∧ Bitmap.alloc_at (bitmap w) i = false ∧ Bitmap.updated (bitmap w) bm i 1 true ∧ w' = with_bitmap bm w).
Proof.
  intros [Hm Ht _] (l & _ & Hl & Hf). pose proof Hm as [_ _ _ _ Hlay [Hs Hr] [Hwf Hlen] _].
  pose proof Hlay as [_ _ _ _ Ebb Hbits _ Eib _ Ein _ Eda Hin _].
  assert (Hcap : Bitmap.cap (bitmap w) = 4096 * SuperBlock.block_bitmap_sector_count b).
  { unfold Bitmap.cap, bitmap, bit.byte_len. rewrite Hlen. lia. }
  destruct l as [|x l]; [done|]. destruct (Hf x) as [Hx Hfree]; [by constructor|].
  unfold AllocBlock. apply bind_gets.
  destruct (Bitmap.Alloc_ok (bitmap w) 1 Hwf ltac:(lia)) as ([bm i] & E & Hp).
  apply (bind_lift _ _ _ _ _ E). apply bind_modify.
  destruct Hp as [(_ & _ & Hno)|(Hnp & (H0' & H1' & Hrun) & _ & Hu)].
  { exfalso. apply (Hno x). split; [lia|]. split; [lia|]. intros j Hj. by replace j with x by lia. }
  assert (Hib : i < bits).
  { apply Z.nle_gt. intros Hge. specialize (Ht i ltac:(lia)). by rewrite (Hrun i) in Ht by lia. }
  rewrite (proj2 (Z.eqb_neq i npos) Hnp). cbn [negb].
  apply (bind_super_block bits b).
  { destruct Hu as (Hwf' & Hlen' & _). destruct Hm. split; try done. split; [done|]. cbn. by rewrite Hlen'. }
  apply runs_ret. exists i, bm. rewrite u32_small by lia. rewrite (Hrun i) by lia.
  split; [lia|]. split; [lia|]. done.
Qed.

(** An operation whose result is the result of all. *)
Lemma runs_tail {A} (m : M world A) w Q : runs (m ≫= mret) w Q → runs m w Q.
Proof.
  intros (a & w' & E & HQ). exists a, w'. split; [|done]. unfold mbind, M_bind in E.
  destruct (m w) as [[? ?]| | |]; done.
Qed.

(** The sector of the bit goes to the disk; no sector but that changes. *)
Lemma SyncBlockBitmap_ok bits b (w : world) live m i :
  allocating (Some (i / 4096)) bits b w → io_ok live m (dev w) → 0 ≤ i < bits →
  runs (SyncBlockBitmap (SuperBlock.data_start_lba b + i)) w (λ _ w', ∃ x', w' = with_dev x' w ∧ io_ok live m x'
    ∧ allocating None bits b w' ∧ ∀ l, l ≠ SuperBlock.block_bitmap_start_lba b + i / 4096 →
        sector x' l = sector (dev w) l).
Proof.
  intros [Hm Ht (bs & Ebs & Hsv)] Hio Hi. pose proof Hm as [_ Hd _ _ Hlay [Hs Hr] [Hwf Hlen] _].
  pose proof Hlay as [_ _ _ _ Ebb Hbits Htight Eib _ Ein _ Eda Hin _].
  destruct (Bitmap.wf_bits _ Hwf) as (bs' & Ebs' & Hl & _). unfold bitmap in Ebs. rewrite Ebs' in Ebs. injection Ebs as ->.
  unfold SyncBlockBitmap. apply (bind_super_block bits b); [done|]. apply bind_assert; [apply Z.leb_le; lia|].
  rewrite u32_small by lia. replace (SuperBlock.data_start_lba b + i - SuperBlock.data_start_lba b) with i by lia.
  unfold SyncBitmap. change bit_count_per_sector with 4096. change sector_size with 512. cbv zeta.
  rewrite (u32_small (i / 4096 * 512)) by div_lia.
  apply (bind_super_block bits b); [done|]. apply bind_gets.
  apply (bind_lift _ bs); [unfold Bitmap.GetBits; by rewrite Ebs'|].
  set (ck := take 512 (drop (Z.to_nat (i / 4096 * 512)) bs)).
  assert (Hj : 0 ≤ i / 4096 < SuperBlock.block_bitmap_sector_count b) by div_lia.
  apply (bind_lift _ ck); [apply slice_ok; lia|].
  assert (Hlck : length ck = 512%nat) by (unfold ck; rewrite length_take, length_drop; lia).
  rewrite u32_small by lia.
  apply runs_tail, (bind_write _ live m); [done|done|lia|lia|lia|lia|]. intros x' Hio' Hst. apply runs_ret.
  replace (i / 4096 + SuperBlock.block_bitmap_start_lba b)
    with (SuperBlock.block_bitmap_start_lba b + i / 4096) in Hst by lia.
  assert (Hrest : ∀ l, l ≠ SuperBlock.block_bitmap_start_lba b + i / 4096 → sector x' l = sector (dev w) l).
  { intros l Hne. rewrite Hst, (proj2 (andb_false_iff _ _)); [done|].
    destruct (Z.leb_spec (SuperBlock.block_bitmap_start_lba b + i / 4096) l),
      (Z.ltb_spec l (SuperBlock.block_bitmap_start_lba b + i / 4096 + 1)); auto; lia. }
  exists x'. split; [done|]. split; [done|]. split; [|done]. split; [by destruct Hm|done|].
  exists bs. split; [done|]. intros p v _ Hv. pose proof (lookup_lt_Some _ _ _ Hv) as Hp. cbn [dev with_dev].
  rewrite (stored_byte _ _ _ _ _ _ Hst) by lia.
  destruct (decide (Z.of_nat p / 512 = i / 4096)) as [E|Hne].
  - rewrite (proj2 (Z.leb_le _ _)), (proj2 (Z.ltb_lt _ _)) by div_lia. cbn [andb]. unfold ck.
    rewrite lookup_take_lt by div_lia. rewrite lookup_drop, <- Hv. f_equal. div_lia.
  - rewrite (proj2 (andb_false_iff _ _)); [apply Hsv; [congruence|done]|].
    destruct (Z.leb_spec (512 * (SuperBlock.block_bitmap_start_lba b + i / 4096))
      (512 * SuperBlock.block_bitmap_start_lba b + Z.of_nat p)); [right; apply Z.ltb_ge; div_lia|by left].
Qed.
(** ** Blocks for a node *)

Definition with_direct (ds : list Z) (n : IdxNode.t) : IdxNode.t :=
  IdxNode.mk (IdxNode.idx n) (IdxNode.size n) (IdxNode.open_times n) (IdxNode.write_deny n)
    (IdxNode.pad n) ds (IdxNode.indirect_tab_lba_ n).

Lemma place_direct_ok a i lba n (w : world) :
  nodes w !! a = Some n → 0 ≤ i < 12 → IdxNode.direct_lbas_ n !! Z.to_nat i = Some 0 →
  runs (place_direct a i lba) w (λ _ w',
    w' = with_nodes (<[a := with_direct (<[Z.to_nat i := lba]> (IdxNode.direct_lbas_ n)) n]> (nodes w)) w).
Proof.
  intros Hn Hi Hd. unfold place_direct. apply (node_at_ok a n); [done|].
  apply (bind_lift _ 0).
  { unfold IdxNode.GetDirectLba. change (Z.of_nat IdxNode.direct_block_count) with 12.
    rewrite Assert_true by (apply Z.ltb_lt; lia). rewrite res_bind_ok. by rewrite Hd. }
  apply bind_assert; [done|].
  eapply bind_lift; [|by apply runs_modify].
  unfold IdxNode.SetDirectLba. change (Z.of_nat IdxNode.direct_block_count) with 12.
    rewrite Assert_true by (apply Z.ltb_lt; lia). by rewrite res_bind_ok.
Qed.

(** A sector that is not one of the bitmap of blocks. *)
Definition off_bitmap (b : SuperBlock.t) (l : Z) : Prop :=
  l < SuperBlock.block_bitmap_start_lba b ∨ SuperBlock.inode_bitmap_start_lba b ≤ l.

Lemma in_use_mark bits b w bm i lba :
  Bitmap.updated (bitmap w) bm i 1 true → 0 ≤ i < bits →
  in_use bits b (with_bitmap bm w) lba ↔ in_use bits b w lba ∨ lba = SuperBlock.data_start_lba b + i.
Proof.
  intros (_ & _ & Ha) Hi. unfold in_use. change (bitmap (with_bitmap bm w)) with bm. split.
  - intros (j & Hj & -> & Hb). rewrite Ha in Hb by lia.
    destruct (Z.leb_spec i j), (Z.ltb_spec j (i + 1)); try (left; eauto; done).
    right. lia.
  - intros [(j & Hj & -> & Hb)| ->].
    + exists j. split; [done|]. split; [done|]. rewrite Ha by lia. by case_match.
    + exists i. split; [done|]. split; [done|]. rewrite Ha by lia.
      by rewrite (proj2 (Z.leb_le _ _)), (proj2 (Z.ltb_lt _ _)) by lia.
Qed.

(** What allocating blocks [ls] leaves of the world. *)
Record allocated (bits : Z) (b : SuperBlock.t) live m (ls : list Z) (w w' : world) : Prop := {
  ad_ok : allocating None bits b w';
  ad_io : io_ok live m (dev w');
  ad_nodup : NoDup ls;
  ad_use : ∀ l, in_use bits b w' l ↔ in_use bits b w l ∨ l ∈ ls;
  ad_fresh : ∀ l, l ∈ ls → ¬ in_use bits b w l;
  ad_sectors : ∀ l, off_bitmap b l → sector (dev w') l = sector (dev w) l;
  ad_rest : ∃ bm x, w' = with_nodes (nodes w') (with_bitmap bm (with_dev x w))
}.

Lemma allocated_nil bits b live m w :
  allocating None bits b w → io_ok live m (dev w) → allocated bits b live m [] w w.
Proof.
  intros Hal Hio. split; try done; [apply NoDup_nil_2| | |].
  - intros l. split; [by left|]. by intros [?|?%elem_of_nil].
  - by intros l ?%elem_of_nil.
  - exists (bitmap w), (dev w). unfold with_nodes, with_bitmap, with_part, with_dev, bitmap. cbn.
    destruct w as [? [] ? ? ? ? ?]. done.
Qed.

Lemma allocated_cons bits b live m lba ls w w1 w2 :
  allocated bits b live m [lba] w w1 → allocated bits b live m ls w1 w2 →
  allocated bits b live m (lba :: ls) w w2.
Proof.
  intros A1 A2. destruct A1 as [_ _ _ Hu1 Hf1 Hs1 (bm1 & x1 & E1)].
  destruct A2 as [Hok Hio Hnd Hu2 Hf2 Hs2 (bm2 & x2 & E2)].
  assert (Hlba : in_use bits b w1 lba) by (apply Hu1; right; by apply list_elem_of_singleton).
  split; [done|done| | | | |].
  - apply NoDup_cons. split; [|done]. intros Hin. by apply (Hf2 lba).
  - intros l. rewrite Hu2, Hu1, !elem_of_cons, elem_of_nil. tauto.
  - intros l [->|Hl]%elem_of_cons Hin.
    + apply (Hf1 lba); [by apply list_elem_of_singleton|done].
    + apply (Hf2 l Hl), Hu1. by left.
  - intros l Hl. by rewrite Hs2, Hs1.
  - exists bm2, x2. rewrite E2. rewrite E1. done.
Qed.
Lemma allocating_nodes but bits b w ns : allocating but bits b w → allocating but bits b (with_nodes ns w).
Proof. intros [Hm Ht Hs]. split; [by destruct Hm|done|done]. Qed.

(** One block is allocated, with a change of the nodes before its bit is saved. *)
Lemma allocated_one bits b live m w bm x i ns :
  allocating None bits b w → Bitmap.updated (bitmap w) bm i 1 true → 0 ≤ i < bits →
  Bitmap.alloc_at (bitmap w) i = false → io_ok live m x →
  allocating None bits b (with_dev x (with_nodes ns (with_bitmap bm w))) →
  (∀ l, l ≠ SuperBlock.block_bitmap_start_lba b + i / 4096 → sector x l = sector (dev w) l) →
  allocated bits b live m [SuperBlock.data_start_lba b + i] w (with_dev x (with_nodes ns (with_bitmap bm w))).
Proof.
  intros [Hm _ _] Hu Hi Hfree Hio Hal Hs. pose proof Hm as [_ _ _ _ Hlay [Hs0 Hr] _ _].
  destruct Hlay as [_ _ _ _ Ebb Hbits Htight Eib _ Ein _ Eda Hin _]. split; [done|done| | | | |].
  - apply NoDup_singleton.
  - intros l. rewrite list_elem_of_singleton. by apply (in_use_mark bits b w bm i l).
  - intros l ->%list_elem_of_singleton (j & Hj & E & Hb). replace j with i in Hb by lia. congruence.
  - intros l Hl. apply Hs. unfold off_bitmap in Hl. div_lia.
  - by exists bm, x.
Qed.

Lemma alloc_direct_ok bits b live m a : ∀ (count : nat) i lbas w n,
  allocating None bits b w → io_ok live m (dev w) → free_blocks bits w count →
  nodes w !! a = Some n → 0 ≤ i → i + Z.of_nat count ≤ 12 → length (IdxNode.direct_lbas_ n) = 12%nat →
  (∀ j, (Z.to_nat i ≤ j < Z.to_nat i + count)%nat →
    IdxNode.direct_lbas_ n !! j = Some 0 ∧ lbas !! j = Some 0) →
  runs (alloc_blocks (place_direct a) true count i lbas) w (λ r w', r.2 = false ∧ ∃ ls, length ls = count
    ∧ r.1 = list_inserts (Z.to_nat i) ls lbas ∧ allocated bits b live m ls w w'
    ∧ nodes w' = <[a := with_direct (list_inserts (Z.to_nat i) ls (IdxNode.direct_lbas_ n)) n]> (nodes w)).
Proof.
  induction count as [|count IH]; intros i lbas w n Hal Hio Hf Hn Hi Hle Hl12 Hz; cbn [alloc_blocks].
  { apply runs_ret. split; [done|]. exists []. split; [done|]. split; [done|]. split; [by apply allocated_nil|].
    rewrite insert_id; [done|]. rewrite Hn. by destruct n. }
  destruct (Hz (Z.to_nat i) ltac:(lia)) as [Hzd Hzl].
  apply (bind_lift _ 0); [by rewrite Hzl|]. apply bind_assert; [done|].
  eapply runs_step; [by apply (AllocBlock_ok bits b w count)|].
  intros lba w1 (j & bm & Hj & -> & Hfree & Hu & ->).
  assert (Hrange : SuperBlock.data_start_lba b + j < 163839 ∧ 0 < SuperBlock.data_start_lba b).
  { pose proof (al_mounted _ _ _ _ Hal) as Hm. destruct (in_use_range bits b (with_bitmap bm w) (SuperBlock.data_start_lba b + j)) as [? ?].
    - by destruct (al_mounted _ _ _ _ (allocating_mark _ _ _ _ _ Hal Hu Hj)).
    - apply (in_use_mark bits b w bm j); [done|done|by right].
    - destruct Hm as [_ _ _ _ [_ _ _ _ Ebb Hbits _ Eib _ Ein _ Eda _ _] [? ?] _ _]. lia. }
  rewrite (proj2 (Z.eqb_neq _ _)) by (rewrite npos_eq; lia). cbn [negb].
  set (lba := SuperBlock.data_start_lba b + j) in *.
  eapply runs_step; [by apply (place_direct_ok a i lba n); [|lia|]|]. intros _ w2 ->.
  apply bind_assert; [done|]. set (n1 := with_direct (<[Z.to_nat i := lba]> (IdxNode.direct_lbas_ n)) n).
  change (nodes (with_bitmap bm w)) with (nodes w).
  set (w2 := with_nodes (<[a := n1]> (nodes w)) (with_bitmap bm w)).
  eapply runs_step.
  { apply (SyncBlockBitmap_ok bits b w2 live m j); [|exact Hio|done].
    by apply allocating_nodes, allocating_mark. }
  intros _ w3 (x & -> & Hio' & Hal' & Hs).
  pose proof (allocated_one bits b live m w bm x j _ Hal Hu Hj Hfree Hio' Hal' Hs) as H1'. fold lba in H1'.
  eapply runs_mono; [apply (IH (i + 1) (<[Z.to_nat i := lba]> lbas) (with_dev x w2) n1)|].
  - done.
  - done.
  - by apply (free_blocks_mark bits w bm j count).
  - apply lookup_insert_eq.
  - lia.
  - lia.
  - cbn. by rewrite length_insert.
  - intros k Hk. cbn. rewrite !list_lookup_insert_ne by lia. apply Hz. lia.
  - intros r w' (Hr & ls & Hl & Hr1 & H2' & En). split; [done|]. exists (lba :: ls). split; [simpl; lia|].
    replace (Z.to_nat (i + 1)) with (S (Z.to_nat i)) in * by lia.
    split; [|split].
    + rewrite Hr1. cbn [list_inserts]. symmetry. apply list_insert_inserts_lt. lia.
    + eapply allocated_cons; [exact H1'|exact H2'].
    + rewrite En. cbn [nodes with_nodes with_dev w2]. rewrite insert_insert_eq. f_equal.
      unfold n1, with_direct. cbn. f_equal. rewrite <- list_insert_inserts_lt by lia. done.
Qed.
(** ** Small files *)

(** The number of blocks of a file of [size] bytes. *)
Definition block_count (size : Z) : nat := Z.to_nat ((size + 511) / 512).

(** A file whose blocks are all direct: blocks in use, each once, and no other. *)
Record small_file (bits : Z) (b : SuperBlock.t) (w : world) (n : IdxNode.t) : Prop := {
  sf_wf : IdxNode.wf n;
  sf_size : 0 ≤ IdxNode.size n ≤ 6144;
  sf_table : IdxNode.indirect_tab_lba_ n = 0;
  sf_blocks : ∃ ds, IdxNode.direct_lbas_ n = ds ++ replicate (12 - block_count (IdxNode.size n)) 0
    ∧ length ds = block_count (IdxNode.size n) ∧ NoDup ds ∧ ∀ l, l ∈ ds → in_use bits b w l
}.

(** The blocks [ds] of a file and the new ones [ls]. *)
Definition direct_and (ds ls : list Z) : list Z := ds ++ ls ++ replicate (12 - (length ds + length ls)) 0.

Lemma inserts_direct (ds ls : list Z) (k : nat) rest :
  (length ds + length ls ≤ 12)%nat → length ds = k → rest = replicate (12 - k) 0 →
  list_inserts k ls (ds ++ rest) = direct_and ds ls.
Proof.
  intros Hle <- ->. pose proof (list_inserts_app_r ls ds (replicate (12 - length ds) 0) 0) as E.
  rewrite Nat.add_0_r in E. rewrite E. unfold direct_and. f_equal.
  replace (12 - length ds)%nat with (length ls + (12 - (length ds + length ls)))%nat by lia.
  rewrite replicate_add. apply list_inserts_0_r. by rewrite length_replicate.
Qed.

(** Reading and writing a file of direct blocks concerns these. *)
Lemma direct_writable (ds ls lbas tail : list Z) s e :
  0 ≤ s < e → e ≤ 6144 → length ds = block_count s → (length ds + length ls)%nat = block_count e →
  NoDup (ds ++ ls) → (∀ l, l ∈ ds ++ ls → 0 < l < 163839) →
  (s mod 512 ≠ 0 → lbas !! Z.to_nat (s / 512) = ds !! Z.to_nat (s / 512)) →
  (∀ j, (j < length ls)%nat → lbas !! (length ds + j)%nat = ls !! j) →
  writable lbas (direct_and ds ls ++ tail) s e.
Proof.
  intros Hs He HD Hls Hnd Hr Hlast Hnew. unfold block_count in *.
  assert (Hlk : ∀ i, (i < length (ds ++ ls))%nat → (direct_and ds ls ++ tail) !! i = (ds ++ ls) !! i).
  { intros i Hi. unfold direct_and. rewrite app_assoc, lookup_app_l by (rewrite length_app; lia).
    by rewrite lookup_app_l. }
  split.
  - intros i Hi1 Hi2. assert (Hi : (Z.to_nat i < length (ds ++ ls))%nat) by (rewrite length_app; div_lia).
    rewrite Hlk by done. destruct (lookup_lt_is_Some_2 _ _ Hi) as [l Hl]. split.
    + destruct (decide (Z.to_nat i < length ds)%nat) as [Hlt|Hge].
      * assert (i = s / 512) as -> by div_lia. rewrite lookup_app_l by done. apply Hlast. div_lia.
      * rewrite lookup_app_r by lia. rewrite <- Hnew by (rewrite length_app in Hi; lia). f_equal. lia.
    + exists l. split; [done|]. apply Hr. by eapply list_elem_of_lookup_2.
  - intros i j l Hi Hj Hli Hlj.
    rewrite Hlk in Hli, Hlj by (rewrite length_app; div_lia). by eapply NoDup_lookup.
Qed.
Lemma load_last_ok n (w : world) ds rest :
  IdxNode.direct_lbas_ n = ds ++ rest → 0 ≤ IdxNode.size n ≤ 6144 → length ds = block_count (IdxNode.size n) →
  IdxNode.size n mod 512 ≠ 0 → (∀ l, l ∈ ds → 0 < l < 163839) →
  runs (load_last n no_lbas) w (λ lbas w', w' = w ∧ length lbas = 140%nat
    ∧ lbas !! Z.to_nat (IdxNode.size n / 512) = ds !! Z.to_nat (IdxNode.size n / 512)
    ∧ ∀ j, (length ds ≤ j < 140)%nat → lbas !! j = Some 0).
Proof.
  intros Ed Hs Hl Hm Hr. unfold block_count in Hl. set (i := IdxNode.size n / 512).
  assert (Hi : 0 ≤ i < 12 ∧ (Z.to_nat i < length ds)%nat) by (unfold i; div_lia).
  destruct (lookup_lt_is_Some_2 ds (Z.to_nat i)) as [lba Hlba]; [lia|].
  assert (Hlr : 0 < lba < 163839) by (apply Hr; by eapply list_elem_of_lookup_2).
  unfold load_last. change sector_size with 512. fold i.
  assert (Hn : length no_lbas = 140%nat) by apply length_replicate.
  eapply runs_mono; [apply (load_direct_ok n i lba no_lbas w); [rewrite Ed; by rewrite lookup_app_l by lia|lia|lia]|].
  intros r w' [-> ->]. split; [done|]. rewrite length_insert, list_lookup_insert_eq by lia. split; [done|].
  split; [done|]. intros j Hj. rewrite list_lookup_insert_ne by (unfold i; div_lia).
  apply lookup_replicate_2. change (Z.to_nat sector_count_per_inode) with 140%nat. lia.
Qed.

(** [WriteFile] finds the blocks for the bytes from [s] to [e] of a small file,
    new ones [ls] at its end. *)
Lemma collect_small_ok bits b live m a n e (w : world) :
  let s := IdxNode.size n in
  allocating None bits b w → io_ok live m (dev w) → nodes w !! a = Some n → small_file bits b w n →
  s < e ≤ 6144 → free_blocks bits w (block_count e - block_count s) →
  runs (collect a (Z.of_nat (block_count s)) (Z.of_nat (block_count e))) w (λ c w', ∃ lbas ls ds,
    c = Blocks lbas ∧ IdxNode.direct_lbas_ n = ds ++ replicate (12 - block_count s) 0
    ∧ length ds = block_count s ∧ length ls = (block_count e - block_count s)%nat
    ∧ allocated bits b live m ls w w' ∧ nodes w' = <[a := with_direct (direct_and ds ls) n]> (nodes w)
    ∧ (s mod 512 ≠ 0 → lbas !! Z.to_nat (s / 512) = ds !! Z.to_nat (s / 512))
    ∧ ∀ j, (j < length ls)%nat → lbas !! (length ds + j)%nat = ls !! j).
Proof.
  intros s Hal Hio Hn [Hwf Hsz _ (ds & Ed & Hl & _ & Hin)] He Hf. fold s in Hsz, Ed, Hl.
  assert (Hr : ∀ l, l ∈ ds → 0 < l < 163839).
  { intros l Hld. destruct (in_use_range bits b w l) as [[? ?] ?]; [by destruct Hal|by apply Hin|done]. }
  assert (Hb : (block_count s ≤ block_count e ≤ 12)%nat) by (unfold block_count; div_lia).
  pose proof (IdxNode.wf_direct _ Hwf) as Hl12. change IdxNode.direct_block_count with 12%nat in Hl12.
  unfold collect. change (Z.of_nat IdxNode.direct_block_count) with 12.
  destruct (Z.eqb_spec (Z.of_nat (block_count s)) (Z.of_nat (block_count e))) as [Eq|Hne].
  - unfold collect_last. apply (node_at_ok a n); [done|]. change (Z.of_nat IdxNode.direct_block_count) with 12.
    rewrite (proj2 (Z.leb_le _ _)) by lia.
    assert (Hm : s mod 512 ≠ 0) by (unfold block_count in Eq; div_lia).
    eapply runs_step; [by apply (load_last_ok n w ds _ Ed)|]. intros lbas ? (-> & _ & Hlast & _).
    apply runs_ret. exists lbas, [], ds. split; [done|]. split; [done|]. split; [done|].
    split; [simpl; lia|]. split; [by apply allocated_nil|]. split; [|split; [done|simpl; lia]].
    rewrite insert_id; [done|]. rewrite Hn. f_equal. unfold direct_and. rewrite app_nil_l, Nat.add_0_r, Hl, <- Ed.
    by destruct n.
  - rewrite (proj2 (Z.leb_le _ 12)) by lia. unfold collect_direct. apply (node_at_ok a n); [done|]. fold s.
    change sector_size with 512.
    eapply (runs_step _ _ _ (λ lbas w', w' = w ∧ length lbas = 140%nat
      ∧ (s mod 512 ≠ 0 → lbas !! Z.to_nat (s / 512) = ds !! Z.to_nat (s / 512))
      ∧ ∀ j, (length ds ≤ j < 140)%nat → lbas !! j = Some 0)).
    { destruct (Z.eqb_spec (s mod 512) 0) as [E0|Hm]; cbn [negb].
      - apply runs_ret. split; [done|]. split; [apply length_replicate|]. split; [done|].
        intros j Hj. apply lookup_replicate_2. change (Z.to_nat sector_count_per_inode) with 140%nat. lia.
      - eapply runs_mono; [by apply (load_last_ok n w ds _ Ed)|]. intros lbas ? (? & ? & ? & ?). done. }
    intros lbas ? (-> & Hl140 & Hlast & Hz). cbv zeta.
    replace (Z.to_nat (Z.of_nat (block_count e) - Z.of_nat (block_count s)))
      with (block_count e - block_count s)%nat by lia.
    eapply runs_step; [apply (alloc_direct_ok bits b live m a _ (Z.of_nat (block_count s)) lbas w n);
      [done|done|done|done|lia|lia|done|]|].
    { intros j Hj. rewrite Nat2Z.id in Hj. split; [|apply Hz; lia].
      rewrite Ed, lookup_app_r by lia. apply lookup_replicate_2. lia. }
    intros [lbas' failed] w' (Hfd & ls & Hls & Hr1 & Had & En). cbn [fst snd] in *. subst failed lbas'.
    rewrite Nat2Z.id in *. apply runs_ret. eexists _, ls, ds. split; [reflexivity|].
    split; [done|]. split; [done|]. split; [done|]. split; [done|]. split; [|split].
    + rewrite En, Ed. by rewrite (inserts_direct ds ls (block_count s)) by (done || lia).
    + intros Hm. rewrite list_lookup_inserts_lt by (unfold block_count; div_lia). by apply Hlast.
    + intros j Hj. rewrite list_lookup_inserts by lia. f_equal. lia.
Qed.
(** ** The whole operation *)

Lemma block_data_app (x : io D H) l1 l2 : block_data x (l1 ++ l2) = block_data x l1 ++ block_data x l2.
Proof. unfold block_data. by rewrite fmap_app, concat_app. Qed.

(** The bytes of a file that its blocks [ds] hold. *)
Lemma block_data_take (x : io D H) ds tail (n : nat) :
  (n ≤ 512 * length ds)%nat → take n (block_data x (ds ++ tail)) = take n (block_data x ds).
Proof. intros Hn. rewrite block_data_app. apply take_app_le. by rewrite length_block_data. Qed.

Lemma block_data_in (x x' : io D H) ds :
  (∀ l, l ∈ ds → sector x' l = sector x l) → block_data x' ds = block_data x ds.
Proof.
  intros Hs. unfold block_data. f_equal. apply list_fmap_ext. intros i l Hi. apply Hs.
  by eapply list_elem_of_lookup_2.
Qed.

Lemma round_up s : 0 ≤ s ≤ 6144 → RoundUpDivide s sector_size = Z.of_nat (block_count s).
Proof.
  intros Hs. unfold RoundUpDivide, block_count. change sector_size with 512.
  rewrite u32_sub_l, u32_small by lia. replace (s + 512 - 1) with (s + 511) by lia. div_lia.
Qed.

Lemma block_count_le s : 0 ≤ s ≤ 6144 → s ≤ 512 * Z.of_nat (block_count s) ∧ (block_count s ≤ 12)%nat.
Proof. intros. unfold block_count. div_lia. Qed.

Definition node_after (ds ls : list Z) (e : Z) (n : IdxNode.t) : IdxNode.t :=
  IdxNode.with_size e (with_direct (direct_and ds ls) n).

Lemma node_after_small bits b (w : world) n ds ls e :
  IdxNode.wf n → IdxNode.indirect_tab_lba_ n = 0 → 0 ≤ e ≤ 6144 → mounted bits b w →
  (length ds + length ls)%nat = block_count e → NoDup (ds ++ ls) →
  (∀ l, l ∈ ds ++ ls → in_use bits b w l) → small_file bits b w (node_after ds ls e n).
Proof.
  intros [Hw Hp Hd Hl] Ht He Hm Hlen Hnd Hin. destruct (block_count_le e He) as [_ H12].
  split; cbn [node_after IdxNode.size IdxNode.with_size with_direct IdxNode.indirect_tab_lba_ IdxNode.direct_lbas_];
    [|done|done|].
  - split; cbn [node_after IdxNode.size IdxNode.with_size with_direct IdxNode.indirect_tab_lba_ IdxNode.idx
      IdxNode.open_times IdxNode.direct_lbas_ IdxNode.pad].
    + apply Forall_cons in Hw as [Hi Hw]. apply Forall_cons in Hw as [_ Hw].
      apply Forall_cons. split; [done|]. apply Forall_cons. split; [|done].
      unfold in_u. change (2 ^ 32) with 4294967296. lia.
    + done.
    + unfold direct_and. rewrite !length_app, length_replicate.
      change IdxNode.direct_block_count with 12%nat. lia.
    + rewrite Ht. unfold direct_and. rewrite app_assoc. repeat (apply Forall_app; split).
      1,2: apply Forall_forall; intros l Hlx; destruct (in_use_range bits b w l) as [[? ?] ?];
        [done|apply Hin, elem_of_app; tauto|]; unfold in_u; change (2 ^ 32) with 4294967296; lia.
      * by apply Forall_replicate.
      * by apply Forall_singleton.
  - exists (ds ++ ls). unfold direct_and. rewrite app_assoc, !length_app, Hlen. done.
Qed.

(** [w'] is [w] when [data] has been appended to the file of descriptor [d]. *)
Record appended (bits : Z) (b : SuperBlock.t) (d a : Z) (f : File.t) (n : IdxNode.t) (data : list Z)
    (w w' : world) : Prop := {
  ap_ok : allocating None bits b w';
  ap_node : ∃ n', nodes w' = <[a := n']> (nodes w) ∧ small_file bits b w' n'
    ∧ IdxNode.size n' = IdxNode.size n + Z.of_nat (length data)
    ∧ content (dev w') n' = content (dev w) n ++ data
    ∧ bytes_from (dev w') (node_addr b (IdxNode.idx n)) (IdxNode.encode (IdxNode.CloneToPure n'));
  ap_files : files w' = <[Z.to_nat d
    := File.with_pos (IdxNode.size n + Z.of_nat (length data) - 1) f]> (files w);
  ap_others : ∀ l, in_use bits b w l →
    in_use bits b w' l ∧ (l ∉ IdxNode.direct_lbas_ n → sector (dev w') l = sector (dev w) l)
}.
(** Writing the new bytes and the node leaves the other sectors. *)
Section result.
Context (bits : Z) (b : SuperBlock.t) (n : IdxNode.t) (data ds ls : list Z) (w w1 : world) (x3 x5 : io D H).
Let s := IdxNode.size n.
Let e := s + Z.of_nat (length data).
Let blocks := direct_and ds ls ++ replicate indirect_sector_count_per_inode 0.
Let n' := node_after ds ls e n.
Context (Hm : mounted bits b w1) (Hi : 0 ≤ IdxNode.idx n < 4096).
Context (Hls : (length ds + length ls)%nat = block_count e) (Hse : 0 ≤ s) (He : e ≤ 6144).
Context (Hin : ∀ l, l ∈ ds ++ ls → in_use bits b w1 l).
Context (Hrest : rest_same blocks s e (dev w1) x3).
Context (Hp : patched (node_addr b (IdxNode.idx n)) (IdxNode.encode (IdxNode.CloneToPure n')) x3 x5).
Context (Henc : length (IdxNode.encode (IdxNode.CloneToPure n')) = 76%nat).

Lemma written_blocks i l : 0 ≤ i → 512 * i < e → blocks !! Z.to_nat i = Some l → l ∈ ds ++ ls.
Proof.
  intros Hi0 Hie Hl. unfold blocks, direct_and in Hl. rewrite app_assoc, lookup_app_l in Hl.
  - rewrite lookup_app_l in Hl; [by eapply list_elem_of_lookup_2|].
    rewrite length_app, Hls. unfold block_count. div_lia.
  - rewrite !length_app, length_replicate. unfold block_count in Hls. div_lia.
Qed.

(** No block: the sectors in front of the data, and the blocks of others. *)
Lemma untouched l : l ∉ ds ++ ls → sector x3 l = sector (dev w1) l.
Proof.
  intros Hl. apply Hrest. intros i Hi1 Hi2 E. apply Hl.
  apply (written_blocks i l); [div_lia|done|done].
Qed.

Lemma in_front l : l < SuperBlock.data_start_lba b → l ∉ ds ++ ls.
Proof. intros Hl Hx. destruct (in_use_range bits b w1 l Hm (Hin l Hx)). lia. Qed.

Lemma node_in_front :
  512 * SuperBlock.inodes_start_lba b ≤ node_addr b (IdxNode.idx n)
  ∧ node_addr b (IdxNode.idx n) + 76 ≤ 512 * SuperBlock.data_start_lba b.
Proof. by apply (node_addr_range bits b w1). Qed.

Lemma data_sector l : SuperBlock.data_start_lba b ≤ l → sector x5 l = sector x3 l.
Proof.
  intros Hl. pose proof node_in_front as [? ?]. pose proof Hm as [_ _ _ _ [_ _ _ _ Ebb Hbits _ Eib _ Ein _ Eda _ _] [Hs Hr] _ _].
  apply (patched_sector x3 x5 _ _ l ltac:(lia) Hp). rewrite Henc. lia.
Qed.

Lemma still_saved : saved_but None b w1 → saved_but None b (with_dev x5 w1).
Proof.
  intros (bs & Ebs & Hsv). exists bs. split; [done|]. intros p v Hnone Hv. rewrite <- (Hsv p v Hnone Hv).
  pose proof (lookup_lt_Some _ _ _ Hv) as Hlt. pose proof node_in_front as [? ?].
  pose proof Hm as [_ _ _ _ [_ _ _ _ Ebb Hbits _ Eib Eic Ein _ Eda _ _] [Hs Hr] [Hwf Hlen] _].
  destruct (Bitmap.wf_bits _ Hwf) as (bs' & Ebs' & Hl & _). unfold bitmap in Ebs. rewrite Ebs' in Ebs.
  injection Ebs as ->. set (q := 512 * SuperBlock.block_bitmap_start_lba b + Z.of_nat p).
  assert (Hq : 0 ≤ q < 512 * SuperBlock.inode_bitmap_start_lba b) by (unfold q; lia).
  cbn [dev with_dev]. rewrite Hp, (proj2 (andb_false_iff _ _)) by (try (left; apply Z.leb_gt); lia).
  unfold disk_byte. rewrite untouched; [done|]. apply in_front. div_lia.
Qed.
(** The bytes of the file before and after. *)
Lemma content_before (x : io D H) (ns : nat) :
  IdxNode.indirect_tab_lba_ n = 0 → IdxNode.direct_lbas_ n = ds ++ replicate ns 0 → s ≤ 512 * Z.of_nat (length ds) →
  (∀ l, l ∈ ds → sector (dev w1) l = sector x l) →
  take (Z.to_nat s) (block_data (dev w1) blocks) = content x n.
Proof.
  intros Ht Ed Hle Hs. unfold content, node_blocks, blocks, direct_and. rewrite Ht, Ed, <- !app_assoc.
  rewrite !block_data_take by lia. f_equal. by apply block_data_in.
Qed.

Lemma content_after :
  IdxNode.indirect_tab_lba_ n = 0 → (∀ l, l ∈ ds ++ ls → sector x5 l = sector x3 l) →
  content x5 n' = take (Z.to_nat e) (block_data x3 blocks).
Proof.
  intros Ht Hs. unfold content, node_blocks, n', node_after, blocks.
  cbn [IdxNode.size IdxNode.with_size with_direct IdxNode.indirect_tab_lba_ IdxNode.direct_lbas_]. rewrite Ht.
  unfold direct_and. rewrite Z.eqb_refl. set (zs := replicate (12 - _) 0). set (tail := replicate _ 0).
  replace ((ds ++ ls ++ zs) ++ tail) with ((ds ++ ls) ++ zs ++ tail) by (by rewrite <- !app_assoc).
  destruct (block_count_le e) as [? _]; [lia|].
  rewrite (block_data_take x5 (ds ++ ls)), (block_data_take x3 (ds ++ ls)) by (rewrite length_app; lia).
  f_equal. by apply block_data_in.
Qed.

(** The final state: the file has grown and nothing else of the partition changed. *)
Lemma appended_ok d a f live m x0 :
  small_file bits b w n → (0 < length data)%nat → nodes w !! a = Some n →
  IdxNode.direct_lbas_ n = ds ++ replicate (12 - block_count s) 0 → length ds = block_count s →
  same_sectors (dev w) x0 → allocated bits b live m ls (with_dev x0 w) w1 →
  take (Z.to_nat e) (block_data x3 blocks) = take (Z.to_nat s) (block_data (dev w1) blocks) ++ data →
  NoDup (ds ++ ls) → (∀ l, l ∈ ds → in_use bits b w l) →
  appended bits b d a f n data w (with_nodes (<[a := n']> (nodes w))
    (with_files (<[Z.to_nat d := File.with_pos (e - 1) f]> (files w)) (with_dev x5 w1))).
Proof.
  intros [Hwf Hsz Ht _] Hlen Hn Ed Hds Hx0 [[_ Htail Hsv] _ _ Huse Hfresh Hsec _] Hgrow Hnd Hold.
  destruct (block_count_le s) as [Hsle _]; [lia|].
  assert (Hdata : ∀ l, in_use bits b w1 l → SuperBlock.data_start_lba b ≤ l)
    by (intros l Hl; destruct (in_use_range bits b w1 l Hm Hl) as [[? ?] ?]; done).
  assert (Hkept : ∀ l, SuperBlock.data_start_lba b ≤ l → sector (dev w1) l = sector (dev w) l).
  { intros l Hl. rewrite Hsec; [apply Hx0|right].
    pose proof Hm as [_ _ _ _ [_ _ _ _ Ebb Hbits _ Eib Eic Ein _ Eda _ _] _ _ _]. lia. }
  assert (Huse' : ∀ l, in_use bits b w l → in_use bits b w1 l) by (intros l Hl; apply Huse; by left).
  split.
  - split; [by destruct Hm|done|by apply still_saved].
  - exists n'. split; [done|]. split; [|split; [done|split]].
    + apply node_after_small; try done; [lia|by destruct Hm].
    + cbn [dev with_nodes with_files with_dev]. rewrite content_after; [|done|].
      * rewrite Hgrow. f_equal. apply (content_before (dev w) (12 - block_count s)); [done|done|lia|].
        intros l Hl. apply Hkept, Hdata, Huse', Hold, Hl.
      * intros l Hl. apply data_sector, Hdata, Hin, Hl.
    + apply (patched_from _ _ x3); [|done]. pose proof node_in_front as [? _].
      pose proof Hm as [_ _ _ _ [_ _ _ _ Ebb Hbits _ Eib Eic Ein _ Eda _ _] [? ?] _ _]. lia.
  - done.
  - intros l Hl. split; [by apply Huse'|]. intros Hd. cbn [dev with_nodes with_files with_dev].
    pose proof (Hdata l (Huse' l Hl)) as Hge. rewrite data_sector, untouched; [by apply Hkept| |done].
    intros [Hx|Hx]%elem_of_app; [apply Hd; rewrite Ed; apply elem_of_app; by left|by apply (Hfresh l)].
Qed.
End result.
Lemma allocating_dev but bits b w x :
  same_sectors (dev w) x → allocating but bits b w → allocating but bits b (with_dev x w).
Proof.
  intros Hx [Hm Ht (bs & E & Hs)]. split; [by apply mounted_dev|done|]. exists bs. split; [done|].
  intros p v Hp Hv. cbn [dev with_dev]. rewrite (same_byte _ _ _ Hx). by apply Hs.
Qed.

(** [write_blocks], once the blocks [ds] and [ls] are there. *)
Section second_half.
Context (bits : Z) (b : SuperBlock.t) (live : gmap Z MemInit.PoolType) (m : nat) (d a : Z) (f : File.t) (n : IdxNode.t).
Context (data ds ls lbas : list Z) (a1 a2 : Z) (x0 : io D H) (w w1 : world).
Local Abbreviation s := (IdxNode.size n).
Local Abbreviation e := (IdxNode.size n + Z.of_nat (length data)).
Local Abbreviation live2 := (<[a2 := default_pool]> (<[a1 := default_pool]> live)).
Local Abbreviation blocks := (direct_and ds ls ++ replicate indirect_sector_count_per_inode 0).
Local Abbreviation f' := (File.with_pos (s -w 1) f).
Local Abbreviation w2 := (with_files (<[Z.to_nat d := f']> (files w)) w1).
Local Abbreviation n1 := (with_direct (direct_and ds ls) n).
Local Abbreviation n' := (node_after ds ls e n).
Context (Ha1 : live !! a1 = None) (Ha2 : <[a1 := default_pool]> live !! a2 = None).
Context (Hsm : small_file bits b w n) (Hlen : (0 < length data)%nat) (He : e ≤ 6144) (Hidx : 0 ≤ IdxNode.idx n < 4096).
Context (Hd : 0 ≤ d) (Hf : files w !! Z.to_nat d = Some f) (Hn : nodes w !! a = Some n).
Context (Ed : IdxNode.direct_lbas_ n = ds ++ replicate (12 - block_count s) 0) (Hds : length ds = block_count s).
Context (Hls : (length ds + length ls)%nat = block_count e) (Hx0 : same_sectors (dev w) x0).
Context (Had : allocated bits b live2 m ls (with_dev x0 w) w1).
Context (En : nodes w1 = <[a := n1]> (nodes w)).
Context (Hlast : s mod 512 ≠ 0 → lbas !! Z.to_nat (s / 512) = ds !! Z.to_nat (s / 512)).
Context (Hnew : ∀ j, (j < length ls)%nat → lbas !! (length ds + j)%nat = ls !! j).

Lemma old_blocks : 0 ≤ s ≤ 6144 ∧ NoDup ds ∧ ∀ l, l ∈ ds → in_use bits b w l.
Proof.
  destruct Hsm as [_ Hsz _ (ds' & Ed' & _ & Hnd & Hold)]. split; [done|].
  assert (ds' = ds) as -> by (rewrite Ed' in Ed; by apply app_inj_2 in Ed as [-> _]). done.
Qed.
Lemma all_in_use l : l ∈ ds ++ ls → in_use bits b w1 l.
Proof.
  destruct old_blocks as (_ & _ & Hold). pose proof Had as [_ _ _ Huse _ _ _]. intros Hl. apply Huse.
  apply elem_of_app in Hl as [Hl|Hl]; [left; by apply Hold|by right].
Qed.
Lemma all_distinct : NoDup (ds ++ ls).
Proof.
  destruct old_blocks as (_ & Hnd & Hold). pose proof Had as [_ _ Hndl _ Hfresh _ _].
  apply NoDup_app. split; [done|]. split; [|done]. intros l Hl Hl'. apply (Hfresh l Hl'), Hold, Hl.
Qed.
Lemma all_writable : writable lbas blocks s e.
Proof.
  destruct old_blocks as (? & _ & _). pose proof Had as [[Hm1 _ _] _ _ _ _ _ _].
  assert (Hr : ∀ l, l ∈ ds ++ ls → 0 < l < 163839).
  { intros l Hl. destruct (in_use_range bits b w1 l Hm1 (all_in_use l Hl)) as [[? ?] ?]. done. }
  apply direct_writable; try done; [lia|apply all_distinct].
Qed.

(** The loop writes all the data after the old content. *)
Lemma chunks_written Q :
  (∀ x3 buf, io_ok live2 m x3 →
    take (Z.to_nat e) (block_data x3 blocks) = take (Z.to_nat s) (block_data (dev w1) blocks) ++ data →
    rest_same blocks s e (dev w1) x3 → length buf = 1024%nat →
    Q (Z.of_nat (length data), buf) (grown x3 d a f' n1 (e - 1) e w2)) →
  runs (write_chunks io_fuel d a lbas data (Z.of_nat (length data)) true 0 (zeros (2 * sector_size))) w2 Q.
Proof.
  intros HQ. destruct old_blocks as (Hsz & _ & _). pose proof Had as [[Hm1 _ _] Hio1 _ _ _ _ _].
  destruct (block_count_le s) as [Hsle Hs12]; [lia|]. destruct (block_count_le e) as [Hele He12]; [lia|].
  assert (Hlb : length blocks = 140%nat).
  { unfold direct_and. rewrite !length_app, !length_replicate.
    change indirect_sector_count_per_inode with 128%nat. lia. }
  eapply runs_mono; [apply (write_chunks_ok bits b live2 m d lbas data blocks
    (take (Z.to_nat s) (block_data (dev w1) blocks)) s io_fuel) with (n := n1) (f := f') (w := w2)|]; try done.
  - lia.
  - rewrite length_take, length_block_data, Hlb. lia.
  - lia.
  - by destruct Hm1.
  - cbn. rewrite list_lookup_insert_eq; [done|]. by apply lookup_lt_Some in Hf.
  - cbn. rewrite En. apply lookup_insert_eq.
  - cbn. lia.
  - cbn. apply u32_range.
  - lia.
  - by left.
  - rewrite Z.add_0_r. apply all_writable.
  - cbn. rewrite Z.add_0_r, app_nil_r. done.
  - rewrite Z.add_0_r. unfold sectors_left, io_fuel. case_match; div_lia.
  - intros [ws buf] w3 (Hr1 & Hr2 & x3 & -> & Hio3 & Hgrow & Hrest). cbn [fst snd] in *. subst ws.
    rewrite Z.add_0_r in Hrest. pose proof (HQ x3 buf Hio3 Hgrow Hrest ltac:(lia)) as HQ'.
    assert (Epos : u32 (File.pos f' + (Z.of_nat (length data) - 0)) = e - 1)
      by (cbn [File.pos File.with_pos]; rewrite u32_add_l, u32_small; lia).
    by rewrite Epos.
Qed.

Lemma write_blocks_ok :
  runs (write_blocks d a f s lbas data (Z.of_nat (length data)) a1 a2) w1 (λ r w', r = Z.of_nat (length data)
    ∧ appended bits b d a f n data w w' ∧ io_ok live (S (S m)) (dev w')).
Proof.
  destruct old_blocks as (Hsz & Hnd & Hold). pose proof Had as [[Hm1 _ _] _ _ _ _ _ (bm & y & E1)].
  assert (Ef1 : files w1 = files w) by (by rewrite E1).
  unfold write_blocks, set_file, FileTab.set_. apply bind_modify. rewrite Ef1.
  apply runs_bind, chunks_written. intros x3 buf Hio3 Hgrow Hrest Hbuf.
  set (w3 := grown x3 d a f' n1 (e - 1) e w2).
  assert (Hm3 : mounted bits b w3) by (by destruct Hm1).
  apply (node_at_ok a n'); [apply lookup_insert_eq|].
  assert (Hsm' : small_file bits b w1 n').
  { apply node_after_small; try done; [by destruct Hsm|by destruct Hsm|lia|apply all_distinct|apply all_in_use]. }
  eapply runs_step; [apply (SyncNode_ok bits b w3 live2 m n' buf);
    [exact Hm3|exact Hio3|by destruct Hsm'|done|lia]|].
  intros buf' ? (x4 & -> & Hio4 & _ & Hp).
  apply (bind_delete _ live2 m default_pool a2); [exact Hio4|apply lookup_insert_eq|]. intros x5 Hio5 Hs5.
  rewrite delete_insert_id in Hio5 by done.
  apply (bind_delete _ (<[a1 := default_pool]> live) (S m) default_pool a1); [exact Hio5|apply lookup_insert_eq|].
  intros x6 Hio6 Hs6. rewrite delete_insert_id in Hio6 by done. cbn [dev with_dev] in *.
  apply runs_ret. split; [done|]. split; [|exact Hio6].
  assert (Hp6 : patched (node_addr b (IdxNode.idx n)) (IdxNode.encode (IdxNode.CloneToPure n')) x3 x6).
  { intros q Hq. rewrite (same_byte x4); [by apply Hp|by eapply same_sectors_trans]. }
  replace (with_dev x6 _) with (with_nodes (<[a := n']> (nodes w))
    (with_files (<[Z.to_nat d := File.with_pos (e - 1) f]> (files w)) (with_dev x6 w1))).
  - apply (appended_ok bits b n data ds ls w w1 x3 x6 Hm1 Hidx Hls ltac:(lia) He all_in_use Hrest Hp6
      ltac:(apply IdxNode.length_node_encode, wf_pure; by destruct Hsm') d a f live2 m x0); try done.
    apply all_distinct.
  - unfold w3, grown, with_nodes, with_files, with_dev.
    cbn [nodes files part dirs root_dir descs dev]. rewrite En, insert_insert_eq.
    f_equal. by rewrite list_insert_insert_eq.
Qed.
End second_half.

(** C7. Appending to a file whose blocks are and stay direct ones (6144 bytes),
    on a partition with enough free blocks: [WriteFile] returns the size written;
    the content of the file is its old content followed by the data; its node in
    memory and the one on the disk have the new size and blocks; the new blocks
    were free and are marked, in memory and in the bitmap on the disk; the blocks
    in use by others keep their bytes; and the buffers are given back. The access
    offset ends one byte before the end of the file. *)
Theorem WriteFile_appends bits b live m d f a n data (w : world) :
  let size := Z.of_nat (length data) in
  let e := IdxNode.size n + size in
  allocating None bits b w → io_ok live (S (S m)) (dev w) → 0 ≤ d → files w !! Z.to_nat d = Some f →
  File.inode f = Some a → nodes w !! a = Some n → small_file bits b w n → 0 ≤ IdxNode.idx n < 4096 →
  (0 < length data)%nat → e ≤ 6144 → free_blocks bits w (block_count e - block_count (IdxNode.size n)) →
  runs (WriteFile d data size) w (λ r w',
    r = size ∧ appended bits b d a f n data w w' ∧ io_ok live (S (S m)) (dev w')).
Proof.
  intros size e Hal Hio Hd Hf Ha Hn Hsm Hidx Hlen He Hfree. unfold WriteFile.
  pose proof Hsm as [Hwf Hsz Htab _]. set (s := IdxNode.size n) in *.
  assert (Hsize : 0 < size) by (unfold size; lia).
  assert (Hopen : File.IsOpen f = true) by (unfold File.IsOpen; rewrite Ha; by apply bool_decide_eq_true_2; eauto).
  apply (bind_file d f); [done..|]. apply bind_assert; [done|].
  unfold GetNode. apply bind_assoc, bind_assert; [done|]. apply (bind_lift _ a); [by rewrite Ha|].
  apply (node_at_ok a n); [done|]. cbv zeta. fold s. rewrite (u32_small (s + size)) by (unfold e in *; lia). fold e.
  change (sector_count_per_inode * sector_size) with 71680. rewrite (proj2 (Z.ltb_ge 71680 e)) by lia.
  apply (bind_new w live (S m) default_pool); [done|done|]. intros a1 x1 Ha1 Hio1 Hs1.
  apply (bind_new _ (<[a1 := default_pool]> live) m default_pool); [done|done|]. intros a2 x2 Ha2 Hio2 Hs2.
  cbn [dev with_dev] in *. assert (Hs02 : same_sectors (dev w) x2) by (by eapply same_sectors_trans).
  set (live2 := <[a2 := default_pool]> (<[a1 := default_pool]> live)) in *.
  rewrite !round_up by (unfold e in *; lia).
  assert (Hbc : (block_count s ≤ block_count e ≤ 12)%nat) by (unfold block_count, e in *; div_lia).
  apply bind_assert; [apply andb_true_iff; split; apply Z.leb_le; [|change sector_count_per_inode with 140]; lia|].
  change (with_dev x2 (with_dev x1 w)) with (with_dev x2 w). set (w0 := with_dev x2 w).
  eapply runs_step; [apply (collect_small_ok bits b live2 m a n e w0);
    [by apply allocating_dev|exact Hio2|done| |fold s; unfold e; lia|exact Hfree]|].
  { destruct Hsm as [? ? ? Hb]. by split. }
  intros c w1 (lbas & ls & ds & -> & Ed & Hds & Hls & Had & En & Hlast & Hnew). fold s in Ed, Hds, Hls, Hlast.
  apply (write_blocks_ok bits b live m d a f n data ds ls lbas a1 a2 x2 w w1); try done.
  fold s size e. lia.
Qed.
End writes.

#[local] Existing Instance Ram.ram_store.
#[local] Existing Instance Ram.ram_store_laws.
#[local] Existing Instance Ram.ram_heap.
#[local] Existing Instance Ram.ram_heap_laws.

(** A file of three bytes in block 676, to which 600 bytes are appended. *)
Definition demo_bytes : list Z := [3] ++ replicate 172 0 ++ [240] ++ replicate 338 255.
Definition demo_short : IdxNode.t := IdxNode.mk 1 3 1 true [0; 0; 0] (676 :: replicate 11 0) 0.
Definition demo_append : FilePart.world Ram.disk Ram.heap :=
  with_bitmap (demo_bitmap demo_bytes)
    (demo_world ({[ 65 := demo_bytes; 676 := [97; 98; 99] ]}, snd Ram.fresh) {[ 0x2000 := demo_short ]}
       [File.mk File.ReadWrite (Some 0x2000) 0]).

Lemma demo_append_mounted : mounted demo_bits demo_block demo_append.
Proof.
  split; try done; [by apply FsFormat.new_super_block_layout|..]; by split; [apply demo_bitmap_wf|].
Qed.

Lemma demo_append_allocating : allocating None demo_bits demo_block demo_append.
Proof.
  split; [apply demo_append_mounted| |].
  - intros i Hi. change (1388 ≤ i < 4096) in Hi.
    assert (Hall : forallb (λ k, Bitmap.alloc_at (bitmap demo_append) (Z.of_nat k)) (seq 1388 2708) = true)
      by by vm_compute.
    rewrite <- (Z2Nat.id i) by lia. apply (proj1 (forallb_forall _ _) Hall), in_seq. lia.
  - exists demo_bytes. split; [done|]. intros p v _ Hp.
    pose proof (lookup_lt_Some _ _ _ Hp) as Hlt. change (length demo_bytes) with 512%nat in Hlt.
    change (SuperBlock.block_bitmap_start_lba demo_block) with 65. unfold disk_byte.
    replace ((512 * 65 + Z.of_nat p) / 512) with 65 by div_lia.
    replace ((512 * 65 + Z.of_nat p) mod 512) with (Z.of_nat p) by div_lia. by rewrite Nat2Z.id.
Qed.

Lemma demo_short_small : small_file demo_bits demo_block demo_append demo_short.
Proof.
  split; [|done|done|].
  - split; [|done|done|]; repeat (apply Forall_cons; split; [by split|]); by apply Forall_nil_2.
  - exists [676]. split; [done|]. split; [done|]. split; [apply NoDup_singleton|].
    intros l ->%list_elem_of_singleton. by exists 1.
Qed.

Lemma WriteFile_appends_witness :
  runs (WriteFile 0 (replicate 600 65) 600) demo_append (λ r w', r = 600
    ∧ appended demo_bits demo_block 0 0x2000 (File.mk File.ReadWrite (Some 0x2000) 0) demo_short
        (replicate 600 65) demo_append w' ∧ io_ok ∅ 2 (dev w')).
Proof.
  apply (WriteFile_appends demo_bits demo_block ∅ 0 0 (File.mk File.ReadWrite (Some 0x2000) 0) 0x2000
    demo_short (replicate 600 65) demo_append).
  - apply demo_append_allocating.
  - apply (Ram.fresh_ok 2).
  - done.
  - done.
  - done.
  - done.
  - apply demo_short_small.
  - done.
  - simpl. lia.
  - done.
  - exists [2]. split; [apply NoDup_singleton|]. split; [done|].
    intros i ->%list_elem_of_singleton. by split.
Defined.
End FsWrite.
