(* ===== verification/FsOpen.v ===== *)
(** * Open nodes and open files

    The tables of the file system over time: the list of open index nodes, whose
    objects count their holders, and the system's table of open files. [tables_ok]
    says that every object counts exactly the files that refer to it and the
    other holders (directories), and is marked as being written when one file
    writes it. Opening a node adds a holder, closing it removes one, and an entry
    of the file table takes a holder over; the operations of FsPart and FsFile
    are sequences of such steps. *)
From S2P Require Import Prelude UtilBit UtilBitmap IoFileDesc MemPool IoDisk FsBase IoPart FsData FsFormat FsPart FsFile.
Import metric.

Module FsOpen.
Import Bytes FilePart FsFile.

(** ** Counting the entries of the file table *)

Fixpoint count (p : File.t → bool) (fs : list File.t) : Z :=
  match fs with
  | [] => 0
  | f :: fs' => Z.b2z (p f) + count p fs'
  end.

Definition refers (a : Z) (f : File.t) : bool := bool_decide (File.inode f = Some a).
Definition writing (a : Z) (f : File.t) : bool := refers a f && File.writes (File.flags f).

(** The files open on the node at [a], and those that write it. *)
Definition refs (a : Z) (fs : list File.t) : Z := count (refers a) fs.
Definition writers (a : Z) (fs : list File.t) : Z := count (writing a) fs.

Lemma count_range p fs : 0 ≤ count p fs ≤ Z.of_nat (length fs).
Proof. induction fs as [|f fs IH]; [done|]. simpl count. simpl length. destruct (p f); simpl Z.b2z; lia. Qed.

Lemma count_insert p fs d f f' :
  fs !! d = Some f → count p (<[d := f']> fs) = count p fs - Z.b2z (p f) + Z.b2z (p f').
Proof.
  revert d. induction fs as [|g fs IH]; intros [|d] Hd; simplify_eq/=; [lia|]. rewrite (IH _ Hd). lia.
Qed.

Lemma count_pos p fs d f : fs !! d = Some f → p f = true → 0 < count p fs.
Proof.
  revert d. induction fs as [|g fs IH]; intros [|d] Hd Hp; simplify_eq/=.
  - rewrite Hp. pose proof (count_range p fs). simpl Z.b2z. lia.
  - specialize (IH _ Hd Hp). destruct (p g); simpl Z.b2z; lia.
Qed.

Lemma count_unique p fs d d' f f' :
  count p fs ≤ 1 → fs !! d = Some f → fs !! d' = Some f' → p f = true → p f' = true → d = d'.
Proof.
  revert d d'. induction fs as [|g fs IH]; intros [|d] [|d'] Hc Hd Hd' Hp Hp'; simplify_eq/=; [done|..].
  - pose proof (count_pos p fs d' f' Hd' Hp'). rewrite Hp in Hc. simpl Z.b2z in Hc. lia.
  - pose proof (count_pos p fs d f Hd Hp). rewrite Hp' in Hc. simpl Z.b2z in Hc. lia.
  - f_equal. apply IH; [|done..]. destruct (p g); simpl Z.b2z in Hc; lia.
Qed.

Lemma count_none p fs : (∀ f, f ∈ fs → p f = false) → count p fs = 0.
Proof.
  induction fs as [|g fs IH]; intros Hf; [done|]. simpl. rewrite Hf, IH; [done| |by constructor].
  intros f Hin. apply Hf. by constructor.
Qed.

(** ** The invariant *)

Section tables.
Context {D H : Type} `{Store D} `{Heap H} `{!StoreLaws D} `{!HeapLaws H}.
Local Abbreviation world := (FilePart.world D H).

(** A node is saved at its place, not being written. *)
Definition on_disk (x : io D H) (b : SuperBlock.t) (idx : Z) : Prop :=
  ∃ n, IdxNode.wf n ∧ IdxNode.idx n = idx ∧ IdxNode.write_deny n = false
    ∧ bytes_from x (node_addr b idx) (IdxNode.encode n).

(** One more holder of the node [idx]. *)
Definition bump (idx : Z) (others : Z → Z) : Z → Z := λ i, others i + Z.b2z (i =? idx).

(** [others] are the holders of each node that are not files, [saved] the nodes
    that may be opened, and [room] the number of nodes that may be open. *)
Context (bits : Z) (b : SuperBlock.t) (saved : Z → Prop) (room : nat).

Record tables_ok (others : Z → Z) (w : world) : Prop := {
  t_mounted : mounted bits b w;
  t_heap : ∃ live m, opens_ok live w ∧ io_ok live (S m) (dev w)
    ∧ (m + length (open_inodes_ (part w)) = room)%nat;
  t_len : length (files w) = FileTab.max_open_file_times;
  t_others : ∀ i, 0 ≤ others i ∧ (not_open i w → others i = 0);
  t_file : ∀ d f a, files w !! d = Some f → File.inode f = Some a → a ∈ open_inodes_ (part w);
  t_node : ∀ a n, a ∈ open_inodes_ (part w) → nodes w !! a = Some n →
    IdxNode.open_times n = others (IdxNode.idx n) + refs a (files w)
    ∧ IdxNode.write_deny n = (0 <? writers a (files w)) ∧ writers a (files w) ≤ 1;
  t_disk : ∀ i, saved i → 0 ≤ i < 4096 ∧ on_disk (dev w) b i
}.

Lemma on_disk_same (x x' : io D H) i : same_sectors x x' → on_disk x b i → on_disk x' b i.
Proof. intros Hs (n & ? & ? & ? & ?). exists n. eauto using bytes_from_same. Qed.

(** What the files alone refer to does not count a new object. *)
Lemma refs_new w others a :
  tables_ok others w → a ∉ open_inodes_ (part w) → refs a (files w) = 0 ∧ writers a (files w) = 0.
Proof.
  intros Ht Ha. assert (Hr : ∀ f, f ∈ files w → refers a f = false).
  { intros f [d Hd]%list_elem_of_lookup. unfold refers. apply bool_decide_eq_false_2.
    intros E. by apply Ha, (t_file _ _ Ht d f). }
  split; apply count_none; [done|]. intros f Hf. unfold writing. by rewrite Hr.
Qed.
(** ** Changing an object of the list *)

Lemma opens_set live (w : world) a n n' :
  opens_ok live w → nodes w !! a = Some n → IdxNode.idx n' = IdxNode.idx n →
  0 < IdxNode.open_times n' → opens_ok live (with_nodes (<[a := n']> (nodes w)) w).
Proof.
  intros [Hnd Hl Hinj] Ha Hi Hpos. split; cbn [part nodes with_nodes].
  - done.
  - intros a' Ha'. destruct (Hl a' Ha') as (m & Hm & Hlive & Hp). destruct (decide (a' = a)) as [->|Hne].
    + exists n'. rewrite lookup_insert_eq. by simplify_eq.
    + exists m. by rewrite lookup_insert_ne.
  - assert (Hback : ∀ x m, <[a := n']> (nodes w) !! x = Some m →
      ∃ m', nodes w !! x = Some m' ∧ IdxNode.idx m' = IdxNode.idx m).
    { intros x m Hx. destruct (decide (x = a)) as [->|Hne].
      - rewrite lookup_insert_eq in Hx. simplify_eq. eauto.
      - rewrite lookup_insert_ne in Hx by done. eauto. }
    intros a1 a2 m1 m2 H1' H2' (m1' & Hm1 & E1)%Hback (m2' & Hm2 & E2)%Hback E.
    apply (Hinj a1 a2 m1' m2'); [done..|congruence].
Qed.

Lemma not_open_set (w : world) a n n' i :
  nodes w !! a = Some n → IdxNode.idx n' = IdxNode.idx n →
  not_open i (with_nodes (<[a := n']> (nodes w)) w) → not_open i w.
Proof.
  intros Ha Hi Hno a' m Ha' Hm. destruct (decide (a' = a)) as [->|Hne].
  - rewrite Ha in Hm. injection Hm as <-. rewrite <- Hi. apply (Hno a n' Ha'). apply lookup_insert_eq.
  - apply (Hno a' m Ha'). cbn [nodes with_nodes]. by rewrite lookup_insert_ne.
Qed.

(** One more holder is counted in the object of an open node. *)
Lemma hold_open others w a n :
  tables_ok others w → a ∈ open_inodes_ (part w) → nodes w !! a = Some n →
  tables_ok (bump (IdxNode.idx n) others)
    (with_nodes (<[a := IdxNode.with_open_times (IdxNode.open_times n + 1) n]> (nodes w)) w).
Proof.
  intros [Hm (live & m & Ho & Hio & Hr) Hl Hot Hf Hn Hd] Ha Hna. set (n' := IdxNode.with_open_times _ n).
  destruct (opens_live _ _ Ho a Ha) as (? & ? & _ & Hpos). simplify_eq.
  split; cbn [part nodes files dev with_nodes].
  - by destruct Hm.
  - exists live, m. split; [|done]. apply (opens_set live w a n n'); [done|done|done|simpl; lia].
  - done.
  - intros i. destruct (Hot i) as [H1' H2']. split; [unfold bump; destruct (i =? _); simpl; lia|].
    intros Hno. apply (not_open_set w a n n' i Hna) in Hno; [|done].
    unfold bump. rewrite (H2' Hno). destruct (Z.eqb_spec i (IdxNode.idx n)) as [->|]; [|done].
    by destruct (Hno a n Ha Hna).
  - done.
  - intros a' m' Ha' Hm'. destruct (decide (a' = a)) as [->|Hne].
    + rewrite lookup_insert_eq in Hm'. injection Hm' as <-. unfold bump. cbn [n' IdxNode.idx IdxNode.with_open_times
        IdxNode.open_times IdxNode.write_deny]. destruct (Hn a n Ha Hna) as (E & ? & ?).
      rewrite Z.eqb_refl, E. simpl. split; [lia|done].
    + rewrite lookup_insert_ne in Hm' by done. destruct (Hn a' m' Ha' Hm') as (E & ? & ?).
      split; [|done]. rewrite E. unfold bump. rewrite (proj2 (Z.eqb_neq _ _)); [simpl; lia|].
      intros Ei. by apply Hne, (opens_inj _ _ Ho a' a m' n).
  - done.
Qed.

(** A new object with one holder joins the list. *)
Lemma hold_new others w live m x a n :
  tables_ok others w → opens_ok live w → live !! a = None → not_open (IdxNode.idx n) w →
  IdxNode.open_times n = 1 → IdxNode.write_deny n = false →
  io_ok (<[a := MemInit.Kernel]> live) (S m) x → same_sectors (dev w) x →
  (S m + length (open_inodes_ (part w)) = room)%nat →
  tables_ok (bump (IdxNode.idx n) others)
    (with_part (with_open_inodes (open_inodes_ (part w) ++ [a]) (part w))
      (with_nodes (<[a := n]> (nodes w)) (with_dev x w))).
Proof.
  intros Ht Ho Ha Hno H1' Hwd Hio Hs Hr. pose proof Ht as [Hm _ Hl Hot Hf Hn Hd].
  assert (Hnew : a ∉ open_inodes_ (part w)).
  { intros Hin. destruct (opens_live _ _ Ho a Hin) as (? & _ & E & _). by rewrite Ha in E. }
  destruct (refs_new w others a Ht Hnew) as [Hr0 Hw0].
  assert (Hold : ∀ x' m', x' ∈ open_inodes_ (part w) ++ [a] → <[a := n]> (nodes w) !! x' = Some m' →
    x' = a ∧ m' = n ∨ x' ≠ a ∧ x' ∈ open_inodes_ (part w) ∧ nodes w !! x' = Some m').
  { intros x' m' [Hin| ->%list_elem_of_singleton]%elem_of_app Hx'.
    - right. assert (x' ≠ a) by congruence. by rewrite lookup_insert_ne in Hx'.
    - left. rewrite lookup_insert_eq in Hx'. by simplify_eq. }
  split; cbn [part nodes files dev with_nodes with_part with_dev open_inodes_ with_open_inodes].
  - by destruct Hm.
  - exists (<[a := MemInit.Kernel]> live), m. split; [|split; [done|rewrite length_app; simpl; lia]].
    destruct Ho as [Hnd Hli Hinj]. split; cbn [part nodes with_nodes with_part open_inodes_ with_open_inodes].
    + apply NoDup_app. split; [done|]. split; [|apply NoDup_singleton].
      by intros x' Hin ->%list_elem_of_singleton.
    + intros x' [Hin| ->%list_elem_of_singleton]%elem_of_app.
      * assert (x' ≠ a) by congruence. rewrite !lookup_insert_ne by done. by apply Hli.
      * exists n. rewrite !lookup_insert_eq. split; [done|]. split; [done|lia].
    + intros a1 a2 m1 m2 Hi1 Hi2 Hm1 Hm2 E.
      destruct (Hold _ _ Hi1 Hm1) as [[-> ->]|(_ & Hi1' & Hm1')],
        (Hold _ _ Hi2 Hm2) as [[-> ->]|(_ & Hi2' & Hm2')]; [done|..|by eapply Hinj].
      * by destruct (Hno a2 m2).
      * by destruct (Hno a1 m1).
  - done.
  - intros i. destruct (Hot i) as [Hp Hz]. split; [unfold bump; destruct (i =? _); simpl; lia|].
    intros Hno'. unfold bump. destruct (Z.eqb_spec i (IdxNode.idx n)) as [->|Hne].
    + destruct (Hno' a n); cbn [part nodes with_nodes with_part open_inodes_ with_open_inodes]; [|apply lookup_insert_eq|done].
      apply elem_of_app. right. by apply list_elem_of_singleton.
    + rewrite Hz; [done|]. intros x' m' Hin Hx'. apply (Hno' x' m');
        cbn [part nodes with_nodes with_part open_inodes_ with_open_inodes]; [by apply elem_of_app; left|].
      rewrite lookup_insert_ne; [done|]. intros <-. done.
  - intros d f x' Hd' Hx'. apply elem_of_app. left. by eapply Hf.
  - intros x' m' Hin Hx'. destruct (Hold _ _ Hin Hx') as [[-> ->]|(Hne & Hin' & Hx'')].
    + rewrite H1', Hwd, Hr0, Hw0. unfold bump. rewrite Z.eqb_refl.
      destruct (Hot (IdxNode.idx n)) as [_ ->]; [|done]. split; [done|]. by split.
    + destruct (Hn x' m' Hin' Hx'') as (E & ? & ?). split; [|done]. rewrite E. unfold bump.
      rewrite (proj2 (Z.eqb_neq _ _)); [simpl; lia|]. by apply (Hno x' m').
  - intros i Hi. destruct (Hd i Hi). split; [done|]. by apply (on_disk_same (dev w)).
Qed.
(** ** The operations on nodes *)

Lemma open_times_range others w a n :
  tables_ok others w → a ∈ open_inodes_ (part w) → nodes w !! a = Some n →
  0 < IdxNode.open_times n ≤ others (IdxNode.idx n) + 32.
Proof.
  intros [_ (live & m & Ho & _ & _) Hl _ _ Hn _] Ha Hna.
  destruct (opens_live _ _ Ho a Ha) as (? & ? & _ & ?). simplify_eq.
  destruct (Hn a n Ha Hna) as (E & _). pose proof (count_range (refers a) (files w)) as Hc.
  rewrite Hl in Hc. change (Z.of_nat FileTab.max_open_file_times) with 32 in Hc. unfold refs in E. lia.
Qed.

Lemma OpenNode_tables others w idx :
  tables_ok others w → saved idx → others idx + 33 < 2 ^ 32 →
  (length (open_inodes_ (part w)) < room)%nat →
  runs (OpenNode idx) w (λ a w', tables_ok (bump idx others) w' ∧ files w' = files w
    ∧ (length (open_inodes_ (part w')) ≤ S (length (open_inodes_ (part w))))%nat
    ∧ a ∈ open_inodes_ (part w') ∧ ∃ n, nodes w' !! a = Some n ∧ IdxNode.idx n = idx).
Proof.
  intros Ht Hsv Hmax Hroom. pose proof Ht as [Hm (live & m & Ho & Hio & Hr) _ _ _ _ Hd].
  destruct m as [|m]; [lia|]. destruct (Hd idx Hsv) as [Hi (n & Hwf & <- & Hwd & Hb)].
  assert (Hnodes : ∀ a, a ∈ open_inodes_ (part w) → is_Some (nodes w !! a))
    by (intros a Ha; destruct (opens_live _ _ Ho a Ha) as (? & -> & _); eauto).
  destruct (find_open_ok (IdxNode.idx n) (open_inodes_ (part w)) w Hnodes) as ([a|] & ? & E & -> & Hf).
  - destruct Hf as (Ha & n0 & Hn0 & E0). unfold OpenNode.
    apply bind_assert; [apply Z.ltb_lt; unfold max_file_count_per_part; lia|]. apply bind_gets.
    eapply (runs_step _ _ _ (λ r w', r = Some a ∧ w' = w)); [by exists (Some a), w|].
    intros ? ? [-> ->]. apply (node_at_ok a n0); [done|]. unfold set_node. apply bind_modify, runs_ret.
    pose proof (open_times_range _ _ _ _ Ht Ha Hn0) as Hk. rewrite E0 in Hk. rewrite u32_small by lia.
    split; [rewrite <- E0; by apply hold_open|]. split; [done|]. split; [cbn; lia|]. split; [done|].
    eexists. split; [apply lookup_insert_eq|done].
  - eapply runs_mono; [apply (OpenNode_loads bits b w live m _ n); done|].
    intros a w' (Ha & x & Hs & Hio' & ->).
    split; [by apply (hold_new others w live m x a (IdxNode.with_open_times 1 n)); [..|lia]|].
    split; [done|]. cbn [part nodes with_nodes with_part with_dev open_inodes_ with_open_inodes].
    split; [rewrite length_app; simpl; lia|].
    split; [apply elem_of_app; right; by apply list_elem_of_singleton|].
    eexists. split; [apply lookup_insert_eq|done].
Qed.
(** A holder of a node that has others is gone. *)
Lemma drop_holder others w a n :
  tables_ok (bump (IdxNode.idx n) others) w → a ∈ open_inodes_ (part w) → nodes w !! a = Some n →
  1 < IdxNode.open_times n → (∀ i, 0 ≤ others i) →
  tables_ok others (with_nodes (<[a := IdxNode.with_open_times (IdxNode.open_times n - 1) n]> (nodes w)) w).
Proof.
  intros [Hm (live & m & Ho & Hio & Hr) Hl Hot Hf Hn Hd] Ha Hna Hk Hpos.
  set (n' := IdxNode.with_open_times _ n).
  split; cbn [part nodes files dev with_nodes].
  - by destruct Hm.
  - exists live, m. split; [|done]. apply (opens_set live w a n n'); [done|done|done|simpl; lia].
  - done.
  - intros i. split; [done|]. intros Hno. apply (not_open_set w a n n' i Hna) in Hno; [|done].
    apply Hot in Hno. unfold bump in Hno. specialize (Hpos i). destruct (i =? _); simpl in Hno; lia.
  - done.
  - intros a' m' Ha' Hm'. destruct (decide (a' = a)) as [->|Hne].
    + rewrite lookup_insert_eq in Hm'. injection Hm' as <-. destruct (Hn a n Ha Hna) as (E & ? & ?).
      unfold bump in E. rewrite Z.eqb_refl in E. simpl in E. split; [simpl; lia|done].
    + rewrite lookup_insert_ne in Hm' by done. destruct (Hn a' m' Ha' Hm') as (E & ? & ?).
      split; [|done]. rewrite E. unfold bump. rewrite (proj2 (Z.eqb_neq _ _)); [simpl; lia|].
      intros Ei. by apply Hne, (opens_inj _ _ Ho a' a m' n).
  - done.
Qed.

(** The object whose last holder is gone leaves the list. *)
Definition removed (x : io D H) (a : Z) (w : world) : world :=
  with_dev x (with_nodes (delete a (nodes w))
    (with_part (with_open_inodes (filter (.≠ a) (open_inodes_ (part w))) (part w)) w)).

Lemma drop_last others w live m x a n :
  tables_ok (bump (IdxNode.idx n) others) w → a ∈ open_inodes_ (part w) → nodes w !! a = Some n →
  IdxNode.open_times n = 1 → (∀ i, 0 ≤ others i) → opens_ok live w →
  (m + length (open_inodes_ (part w)) = room)%nat →
  io_ok (delete a live) (S (S m)) x → same_sectors (dev w) x → tables_ok others (removed x a w).
Proof.
  intros [Hm _ Hl Hot Hf Hn Hd] Ha Hna H1' Hpos Ho Hr Hio Hs.
  destruct (Hn a n Ha Hna) as (E & _ & _). unfold bump in E. rewrite Z.eqb_refl in E. simpl in E.
  pose proof (count_range (refers a) (files w)) as Hc. unfold refs in E. specialize (Hpos (IdxNode.idx n)) as Hp0.
  assert (Hin : ∀ x', x' ∈ filter (.≠ a) (open_inodes_ (part w)) ↔ x' ≠ a ∧ x' ∈ open_inodes_ (part w))
    by (intros; by rewrite list_elem_of_filter).
  assert (Hat : ∀ x' m', x' ∈ filter (.≠ a) (open_inodes_ (part w)) → delete a (nodes w) !! x' = Some m' →
    x' ≠ a ∧ x' ∈ open_inodes_ (part w) ∧ nodes w !! x' = Some m').
  { intros x' m' [Hne Hi]%Hin Hx'. by rewrite lookup_delete_ne in Hx'. }
  unfold removed. split; cbn [part nodes files dev with_nodes with_part with_dev open_inodes_ with_open_inodes].
  - by destruct Hm.
  - exists (delete a live), (S m). split; [|split; [done|]].
    + destruct Ho as [Hnd Hli Hinj].
      split; cbn [part nodes with_nodes with_part with_dev open_inodes_ with_open_inodes].
      * by apply NoDup_filter.
      * intros x' [Hne Hi]%Hin. rewrite !lookup_delete_ne by done. by apply Hli.
      * intros a1 a2 m1 m2 Hi1 Hi2 (_ & ? & ?)%(Hat _ _ Hi1) (_ & ? & ?)%(Hat _ _ Hi2). by apply Hinj.
    + rewrite <- Hr, (length_filter_ne a (open_inodes_ (part w))); [lia|by destruct Ho|done].
  - done.
  - intros i. split; [done|]. intros Hno. destruct (decide (i = IdxNode.idx n)) as [->|Hne]; [lia|].
    assert (Hz : bump (IdxNode.idx n) others i = 0).
    { apply Hot. intros x' m' Hi Hx'. destruct (decide (x' = a)) as [->|Hxa]; [congruence|].
      apply (Hno x' m'); cbn [part nodes with_nodes with_part with_dev open_inodes_ with_open_inodes];
        [by apply Hin|by rewrite lookup_delete_ne]. }
    unfold bump in Hz. rewrite (proj2 (Z.eqb_neq _ _) Hne) in Hz. simpl in Hz. lia.
  - intros d f x' Hd' Hx'. apply Hin. split; [|by eapply Hf]. intros ->.
    pose proof (count_pos (refers a) (files w) d f Hd') as Hcp. unfold refers in Hcp at 1.
    rewrite bool_decide_eq_true_2 in Hcp by done. specialize (Hcp eq_refl). lia.
  - intros x' m' Hi (Hne & Hi' & Hx')%(Hat _ _ Hi). destruct (Hn x' m' Hi' Hx') as (E' & ? & ?).
    split; [|done]. rewrite E'. unfold bump. rewrite (proj2 (Z.eqb_neq _ _)); [simpl; lia|].
    intros Ei. by apply Hne, (opens_inj _ _ Ho x' a m' n).
  - intros i Hi. destruct (Hd i Hi). split; [done|]. by apply (on_disk_same (dev w)).
Qed.
(** [IdxNode::Close], seen with the file table [fs] the caller is about to have. *)
Lemma CloseNode_tables others w fs a n :
  tables_ok (bump (IdxNode.idx n) others) (with_files fs w) → a ∈ open_inodes_ (part w) →
  nodes w !! a = Some n → (∀ i, 0 ≤ others i) → others (IdxNode.idx n) + 34 < 2 ^ 32 →
  runs (CloseNode a) w (λ _ w', tables_ok others (with_files fs w') ∧ files w' = files w
    ∧ (length (open_inodes_ (part w')) ≤ length (open_inodes_ (part w)))%nat).
Proof.
  intros Ht Ha Hna Hpos Hmax. pose proof (open_times_range _ _ _ _ Ht Ha Hna) as Hk.
  assert (Hb : bump (IdxNode.idx n) others (IdxNode.idx n) = others (IdxNode.idx n) + 1)
    by (unfold bump; by rewrite Z.eqb_refl).
  pose proof Ht as [_ (live & m & Ho & Hio & Hr) _ _ _ _ _].
  unfold CloseNode. apply (node_at_ok a n); [done|]. cbv zeta. rewrite u32_small by lia.
  destruct (Z.eqb_spec (IdxNode.open_times n - 1) 0) as [E|Hne].
  - apply bind_gets, bind_assert; [by apply bool_decide_eq_true_2|]. apply bind_modify.
    destruct (opens_live _ _ Ho a Ha) as (n0 & _ & Hlive & _).
    eapply runs_zoom; [apply (delete_runs live (S m)); [exact Hio|exact Hlive]|].
    intros [] x [Hio' Hs]. split; [|split; [done|]].
    + apply (drop_last others (with_files fs w) live m x a n); try done; lia.
    + cbn. rewrite (length_filter_ne a (open_inodes_ (part w))); [lia|by destruct Ho|done].
  - unfold set_node. exists tt. eexists. split; [reflexivity|]. split; [|split; [done|done]].
    by apply (drop_holder others (with_files fs w) a n); [..|lia|].
Qed.
(** ** The operations on files *)

(** An entry of the file table that refers to the node at [a], or to none, gets
    another such value: the holder it is or was joins or leaves the others. *)
Lemma retarget others others' w d f f' a n v :
  tables_ok others w → files w !! d = Some f → a ∈ open_inodes_ (part w) → nodes w !! a = Some n →
  (File.inode f = None ∨ File.inode f = Some a) → (File.inode f' = None ∨ File.inode f' = Some a) →
  let k := writers a (files w) - Z.b2z (writing a f) + Z.b2z (writing a f') in
  v = (0 <? k) → k ≤ 1 → (∀ i, 0 ≤ others' i) →
  (∀ i, others' i = others i + (if i =? IdxNode.idx n then Z.b2z (refers a f) - Z.b2z (refers a f') else 0)) →
  tables_ok others' (with_files (<[d := f']> (files w))
    (with_nodes (<[a := IdxNode.with_write_deny v n]> (nodes w)) w)).
Proof.
  intros [Hm (live & m & Ho & Hio & Hr) Hl Hot Hf Hn Hd] Hfd Ha Hna Hi Hi' k Hv Hk Hpos Hoth.
  set (n' := IdxNode.with_write_deny v n).
  assert (Hoff : ∀ x g, x ≠ a → File.inode g = None ∨ File.inode g = Some a → refers x g = false).
  { intros x g Hne Hg. unfold refers. apply bool_decide_eq_false_2. destruct Hg; congruence. }
  destruct (opens_live _ _ Ho a Ha) as (? & ? & _ & Hp). simplify_eq.
  split; cbn [part nodes files dev with_nodes with_files].
  - by destruct Hm.
  - exists live, m. split; [|done]. by destruct (opens_set live w a n n').
  - by rewrite length_insert.
  - intros i. split; [done|]. intros Hno. apply (not_open_set w a n n' i Hna) in Hno; [|done].
    rewrite Hoth. destruct (Hot i) as [_ ->]; [|done]. rewrite (proj2 (Z.eqb_neq _ _)); [done|].
    intros ->. by apply (Hno a n Ha).
  - intros d' g x Hg Hx. destruct (decide (d' = d)) as [->|Hne].
    + rewrite list_lookup_insert_eq in Hg by (by eapply lookup_lt_Some). injection Hg as <-.
      destruct Hi' as [Hi'|Hi']; rewrite Hi' in Hx; by simplify_eq.
    + rewrite list_lookup_insert_ne in Hg by done. by eapply Hf.
  - intros x m' Hx Hm'. unfold refs, writers. rewrite !(count_insert _ _ _ _ _ Hfd).
    destruct (decide (x = a)) as [->|Hne].
    + rewrite lookup_insert_eq in Hm'. injection Hm' as <-. destruct (Hn a n Ha Hna) as (E & _ & _).
      unfold refs in E. cbn [n' IdxNode.idx IdxNode.with_write_deny IdxNode.open_times IdxNode.write_deny].
      rewrite Hoth, Z.eqb_refl, E. unfold k, writers in *. split; [lia|done].
    + rewrite lookup_insert_ne in Hm' by done. destruct (Hn x m' Hx Hm') as (E & ? & ?).
      assert (Hw : ∀ g, refers x g = false → writing x g = false) by (intros g Hg; unfold writing; by rewrite Hg).
      rewrite !Hw, (Hoff x f), (Hoff x f') by auto. simpl Z.b2z. rewrite !Z.sub_0_r, !Z.add_0_r.
      split; [|done]. unfold refs in E. rewrite E, Hoth, (proj2 (Z.eqb_neq _ _)); [lia|].
      intros Ei. by apply Hne, (opens_inj _ _ Ho x a m' n).
  - done.
Qed.
Lemma tables_descs others w tab : tables_ok others w → tables_ok others (with_descs tab w).
Proof.
  intros [Hm (live & m & Ho & ?) ? ? ? ? ?]. split; try done; [by destruct Hm|].
  exists live, m. split; [by destruct Ho|done].
Qed.

Lemma with_files_same (w : world) : with_files (files w) w = w.
Proof. by destruct w. Qed.
Lemma with_nodes_same (w : world) : with_nodes (nodes w) w = w.
Proof. by destruct w. Qed.

Lemma with_write_deny_same n : IdxNode.with_write_deny (IdxNode.write_deny n) n = n.
Proof. by destruct n. Qed.

Lemma closed_entry f a : File.IsOpen f = false → File.inode f = None ∧ refers a f = false ∧ writing a f = false.
Proof.
  unfold File.IsOpen, writing, refers. intros Hf%bool_decide_eq_false.
  destruct (File.inode f); [exfalso; eauto|done].
Qed.

Lemma opened_entry flags a : refers a (File.mk flags (Some a) 0) = true
  ∧ writing a (File.mk flags (Some a) 0) = File.writes flags.
Proof. unfold writing, refers. cbn [File.inode File.flags]. by rewrite bool_decide_eq_true_2. Qed.

(** A closed entry takes a holder over. *)
Lemma attach others w d f flags a n :
  tables_ok (bump (IdxNode.idx n) others) w → files w !! d = Some f → File.IsOpen f = false →
  a ∈ open_inodes_ (part w) → nodes w !! a = Some n → (∀ i, 0 ≤ others i) →
  (File.writes flags = true → IdxNode.write_deny n = false) →
  tables_ok others (with_files (<[d := File.mk flags (Some a) 0]> (files w))
    (with_nodes (<[a := IdxNode.with_write_deny (File.writes flags || IdxNode.write_deny n) n]> (nodes w)) w)).
Proof.
  intros Ht Hfd Hc Ha Hna Hpos Hwd. destruct (closed_entry f a Hc) as (Hi & Hr & Hw).
  destruct (opened_entry flags a) as [Hr' Hw'].
  destruct (t_node _ _ Ht a n Ha Hna) as (_ & Hd & Hle). pose proof (count_range (writing a) (files w)) as Hge.
  fold (writers a (files w)) in Hge.
  apply (retarget (bump (IdxNode.idx n) others) others w d f _ a n); [done..|by left|by right| | |done|].
  - rewrite Hw, Hw', Hd. destruct (File.writes flags); simpl Z.b2z; cbn [orb]; [|f_equal; lia].
    symmetry. apply Z.ltb_lt. lia.
  - rewrite Hw, Hw'. destruct (File.writes flags); simpl Z.b2z; [|lia].
    rewrite (Hwd eq_refl) in Hd. symmetry in Hd. apply Z.ltb_ge in Hd. lia.
  - intros i. rewrite Hr, Hr'. unfold bump. destruct (i =? IdxNode.idx n); simpl; lia.
Qed.

(** An open entry gives its holder up. *)
Lemma detach others w d f a n :
  tables_ok others w → files w !! d = Some f → File.inode f = Some a → nodes w !! a = Some n →
  tables_ok (bump (IdxNode.idx n) others) (with_files (<[d := File.Clear f]> (files w))
    (with_nodes (<[a := IdxNode.with_write_deny
      (negb (File.writes (File.flags f)) && IdxNode.write_deny n) n]> (nodes w)) w))
  ∧ (File.writes (File.flags f) = true → IdxNode.write_deny n = true).
Proof.
  intros Ht Hfd Hi Hna. pose proof (t_file _ _ Ht d f a Hfd Hi) as Ha.
  destruct (t_node _ _ Ht a n Ha Hna) as (_ & Hd & Hle).
  assert (Hr : refers a f = true) by (by apply bool_decide_eq_true_2).
  assert (Hw : writing a f = File.writes (File.flags f)) by (unfold writing; by rewrite Hr).
  assert (Hlt : File.writes (File.flags f) = true → 0 < writers a (files w)).
  { intros E. apply (count_pos _ _ d f); [done|]. by rewrite Hw. }
  split; [|intros E; rewrite Hd; by apply Z.ltb_lt, Hlt].
  destruct (closed_entry (File.Clear f) a) as (Hi' & Hr' & Hw'); [done|].
  apply (retarget others _ w d f _ a n); [done..|by right|by left| | | |].
  - rewrite Hw, Hw', Hd. destruct (File.writes (File.flags f)) eqn:E; simpl Z.b2z; cbn [andb negb]; [|f_equal; lia].
    specialize (Hlt eq_refl). symmetry. apply Z.ltb_ge. lia.
  - rewrite Hw, Hw'. destruct (File.writes (File.flags f)); simpl Z.b2z; lia.
  - intros i. destruct (t_others _ _ Ht i) as [? _]. unfold bump. destruct (i =? _); simpl; lia.
  - intros i. rewrite Hr, Hr'. unfold bump. destruct (i =? IdxNode.idx n); simpl; lia.
Qed.
Lemma OpenFileNode_tables others w idx flags :
  tables_ok others w → saved idx → others idx + 64 < 2 ^ 32 →
  (length (open_inodes_ (part w)) < room)%nat →
  runs (OpenFileNode idx flags) w (λ _ w', tables_ok others w'
    ∧ (length (open_inodes_ (part w')) ≤ S (length (open_inodes_ (part w))))%nat).
Proof.
  intros Ht Hsv Hmax Hroom. unfold OpenFileNode. apply bind_gets. cbv zeta.
  assert (Hpos : ∀ i, 0 ≤ others i) by (intros i; by destruct (t_others _ _ Ht i)).
  destruct (FileTab.GetFreeDesc_spec (files w)) as [[-> _]|(d & f & E & _ & Hfd & Hc)].
  { apply runs_ret. split; [done|lia]. }
  pose proof (lookup_lt_Some _ _ _ Hfd) as Hlt. pose proof (t_len _ _ Ht) as Hl.
  rewrite E. replace (FileDesc.IsValid (Z.of_nat d)) with true.
  2:{ symmetry. apply FileDescTab.IsValid_spec. rewrite Hl in Hlt. unfold FileTab.max_open_file_times in Hlt.
      rewrite npos_eq. lia. }
  cbn [negb]. eapply runs_step; [apply (OpenNode_tables others w idx); [done|done|lia|done]|].
  intros a w1 (Ht1 & Ef & Hlen & Ha & n & Hna & Ei). rewrite <- Ei in Ht1. rewrite <- Ef in *.
  apply (node_at_ok a n); [done|].
  destruct (negb (File.writes flags) || negb (IdxNode.write_deny n)) eqn:Eok.
  - assert (Hwd : File.writes flags = true → IdxNode.write_deny n = false).
    { intros Ew. rewrite Ew in Eok. by apply negb_true_iff in Eok. }
    pose proof (attach others w1 d f flags a n Ht1 Hfd Hc Ha Hna Hpos Hwd) as Ht2.
    eapply (runs_step _ _ _ (λ ok w', ok = true ∧ w' = with_nodes
      (<[a := IdxNode.with_write_deny (File.writes flags || IdxNode.write_deny n) n]> (nodes w1)) w1)).
    { destruct (File.writes flags); cbn [orb].
      - rewrite (Hwd eq_refl). cbn [negb]. unfold set_node. apply bind_modify, runs_ret. done.
      - apply runs_ret. split; [done|]. rewrite with_write_deny_same, insert_id by done. by destruct w1. }
    intros ok w2 [-> ->]. cbn [negb]. apply bind_assert; [apply Z.ltb_lt; unfold FileTab.GetSize; lia|].
    unfold set_file, FileTab.set_. apply bind_modify. cbn [files with_nodes]. rewrite Nat2Z.id.
    unfold SyncGlobal. apply bind_gets. destruct (FileDescTab.SyncGlobal _ _) as [tab desc].
    apply bind_modify, runs_ret. split; [by apply tables_descs|]. by destruct w.
  - apply orb_false_iff in Eok as [->%negb_false_iff ->%negb_false_iff]. cbn [negb]. apply bind_assoc.
    eapply runs_step; [apply (CloseNode_tables others w1 (files w1) a n);
      [by rewrite with_files_same|done|done|done|rewrite Ei; lia]|].
    intros _ w2 (Ht2 & Ef2 & ?). rewrite <- Ef2, with_files_same in Ht2.
    apply bind_ret. cbn [negb]. apply runs_ret. split; [done|lia].
Qed.

Lemma clear_closed others w d f :
  tables_ok others w → files w !! d = Some f → File.inode f = None →
  tables_ok others (with_files (<[d := File.Clear f]> (files w)) w).
Proof.
  intros [Hm (live & m & Ho & ?) Hl Hot Hf Hn Hd] Hfd Hi.
  assert (Hc : ∀ a, refers a f = false ∧ writing a f = false).
  { intros a. unfold writing, refers. by rewrite Hi. }
  split; try done; cbn [part nodes files dev with_files].
  - by destruct Hm.
  - exists live, m. split; [by destruct Ho|done].
  - by rewrite length_insert.
  - intros d' g x Hg Hx. destruct (decide (d' = d)) as [->|Hne].
    + rewrite list_lookup_insert_eq in Hg by (by eapply lookup_lt_Some). by injection Hg as <-.
    + rewrite list_lookup_insert_ne in Hg by done. by eapply Hf.
  - intros a n Ha Hna. unfold refs, writers. rewrite !(count_insert _ _ _ _ _ Hfd).
    destruct (Hc a) as [-> ->]. simpl Z.b2z. rewrite !Z.sub_0_r, !Z.add_0_r. by apply Hn.
Qed.

Lemma CloseFile_tables others w d :
  tables_ok others w → 0 ≤ d < 32 → (∀ i, others i + 64 < 2 ^ 32) →
  runs (CloseFile d) w (λ _ w', tables_ok others w'
    ∧ (length (open_inodes_ (part w')) ≤ length (open_inodes_ (part w)))%nat).
Proof.
  intros Ht Hd Hmax. pose proof (t_len _ _ Ht) as Hl. unfold FileTab.max_open_file_times in Hl.
  assert (Hpos : ∀ i, 0 ≤ others i) by (intros i; by destruct (t_others _ _ Ht i)).
  destruct (lookup_lt_is_Some_2 (files w) (Z.to_nat d)) as [f Hfd]; [lia|].
  unfold CloseFile. apply (bind_file d f); [lia|done|].
  destruct (File.inode f) as [a|] eqn:Ei.
  - pose proof (t_file _ _ Ht _ f a Hfd Ei) as Ha.
    destruct (t_heap _ _ Ht) as (live & m & Ho & _ & _).
    destruct (opens_live _ _ Ho a Ha) as (n & Hna & _ & _).
    destruct (detach others w _ f a n Ht Hfd Ei Hna) as [Ht1 Hwd].
    set (n1 := IdxNode.with_write_deny _ n) in Ht1.
    set (w1 := with_nodes (<[a := n1]> (nodes w)) w) in Ht1.
    eapply runs_step.
    { eapply (runs_step _ _ _ (λ _ w', w' = w1)).
      - unfold w1, n1. destruct (File.writes (File.flags f)); cbn [negb andb].
        + apply (node_at_ok a n); [done|]. rewrite (Hwd eq_refl). apply bind_assert; [done|].
          unfold set_node. by exists tt, w1.
        + apply runs_ret. rewrite with_write_deny_same, insert_id by done. by destruct w.
      - intros _ ? ->. apply (CloseNode_tables others w1 (<[Z.to_nat d := File.Clear f]> (files w)) a n1);
          [exact Ht1|exact Ha|apply lookup_insert_eq|done|specialize (Hmax (IdxNode.idx n1)); lia]. }
    intros _ w2 (Ht2 & Ef & ?). exists tt. eexists. split; [reflexivity|]. unfold FileTab.set_. rewrite Ef. done.
  - apply bind_ret. exists tt. eexists. split; [reflexivity|]. unfold FileTab.set_. split; [|done].
    by apply clear_closed.
Qed.
(** ** Sequences of opens and closes *)

Inductive file_op := OpenOp (inode_idx flags : Z) | CloseOp (d : Z).

Definition run_op (op : file_op) : M world unit :=
  match op with
  | OpenOp idx flags => OpenFileNode idx flags;; mret tt
  | CloseOp d => CloseFile d
  end.

Fixpoint run_ops (ops : list file_op) : M world unit :=
  match ops with
  | [] => mret tt
  | op :: ops' => run_op op;; run_ops ops'
  end.

Definition op_ok (op : file_op) : Prop :=
  match op with OpenOp idx _ => saved idx | CloseOp d => 0 ≤ d < 32 end.

Lemma run_op_ok others w op :
  tables_ok others w → op_ok op → (∀ i, others i + 64 < 2 ^ 32) →
  (length (open_inodes_ (part w)) < room)%nat →
  runs (run_op op) w (λ _ w', tables_ok others w'
    ∧ (length (open_inodes_ (part w')) ≤ S (length (open_inodes_ (part w))))%nat).
Proof.
  intros Ht Hop Hmax Hroom. destruct op as [idx flags|d]; cbn [run_op].
  - eapply runs_step; [by apply (OpenFileNode_tables others w)|]. intros ? w2 Hw2. by apply runs_ret.
  - eapply runs_mono; [by apply (CloseFile_tables others w)|]. intros _ w' [? ?]. split; [done|lia].
Qed.

Lemma run_ops_ok others ops w :
  tables_ok others w → Forall op_ok ops → (∀ i, others i + 64 < 2 ^ 32) →
  (length (open_inodes_ (part w)) + length ops ≤ room)%nat →
  runs (run_ops ops) w (λ _ w', tables_ok others w').
Proof.
  intros Ht Hops Hmax Hroom. revert w Ht Hroom. induction Hops as [|op ops Hop _ IH]; intros w Ht Hroom.
  { by apply runs_ret. }
  simpl in Hroom. cbn [run_ops]. eapply runs_step; [apply (run_op_ok others w op); [done|done|done|lia]|].
  intros _ w' [Ht' Hlen]. apply IH; [done|lia].
Qed.

(** C10. Whatever files are opened and closed, in any order and with any flags:
    every call returns, so the assertion of [File::Close] on the write flag
    never fails; the objects of open nodes stay a set of live blocks of the
    kernel's heap, one for each node, each counting exactly the files that refer
    to it and its other holders, and freed with the last of them; and no two
    open files ever write the same node. *)
Theorem open_files_exclusion others ops w :
  tables_ok others w → Forall op_ok ops → (∀ i, others i + 64 < 2 ^ 32) →
  (length (open_inodes_ (part w)) + length ops ≤ room)%nat →
  runs (run_ops ops) w (λ _ w', tables_ok others w' ∧
    ∀ d d' f f' a, files w' !! d = Some f → files w' !! d' = Some f' →
      File.inode f = Some a → File.inode f' = Some a →
      File.writes (File.flags f) = true → File.writes (File.flags f') = true → d = d').
Proof.
  intros Ht Hops Hmax Hroom. eapply runs_mono; [by apply (run_ops_ok others)|].
  intros ret w' Ht'. split; [done|]. intros d d' f f' a Hd Hd' Hi Hi' Hw Hw'.
  pose proof (t_file _ _ Ht' d f a Hd Hi) as Ha.
  destruct (t_heap _ _ Ht') as (live & m & Ho & _). destruct (opens_live _ _ Ho a Ha) as (n & Hn & _).
  destruct (t_node _ _ Ht' a n Ha Hn) as (_ & _ & Hle).
  apply (count_unique (writing a) (files w') d d' f f'); [done..| |];
    unfold writing, refers; rewrite bool_decide_eq_true_2; done.
Qed.
End tables.

#[local] Existing Instance Ram.ram_store.
#[local] Existing Instance Ram.ram_store_laws.
#[local] Existing Instance Ram.ram_heap.
#[local] Existing Instance Ram.ram_heap_laws.

(** The node 0 of an empty disk, opened for writing twice and closed once. *)
Definition demo_closed : FilePart.world Ram.disk Ram.heap := demo_world Ram.fresh ∅ FileTab.init.
Definition demo_ops : list file_op :=
  [OpenOp 0 File.WriteOnly; OpenOp 0 File.ReadWrite; OpenOp 0 File.ReadOnly; CloseOp 3].

Lemma demo_tables : tables_ok demo_bits demo_block (λ i, i = 0) 8 (λ _, 0) demo_closed.
Proof.
  split.
  - apply demo_mounted.
  - exists ∅, 8%nat. split; [apply demo_opens|]. split; [apply Ram.fresh_ok|done].
  - done.
  - done.
  - intros d f a Hd Hi. apply lookup_replicate in Hd as [-> _]. done.
  - intros a n Ha. by apply elem_of_nil in Ha.
  - intros i ->. split; [done|]. exists IdxNode.zero. split; [|split; [done|split; [done|]]].
    + split; [|done|done|]; repeat (apply Forall_cons; split; [by split|]); by apply Forall_nil_2.
    + intros i v Hi. change (replicate 76 0 !! i = Some v) in Hi. apply lookup_replicate in Hi as [-> _].
      unfold disk_byte, sector. change (sector_at _ ?l) with (replicate 512 0).
      apply lookup_replicate_2. div_lia.
Qed.

Lemma open_files_exclusion_witness :
  runs (run_ops demo_ops) demo_closed (λ _ w',
    tables_ok demo_bits demo_block (λ i, i = 0) 8 (λ _, 0) w' ∧
    ∀ d d' f f' a, files w' !! d = Some f → files w' !! d' = Some f' →
      File.inode f = Some a → File.inode f' = Some a →
      File.writes (File.flags f) = true → File.writes (File.flags f') = true → d = d').
Proof.
  apply (open_files_exclusion demo_bits demo_block (λ i, i = 0) 8 (λ _, 0) demo_ops demo_closed).
  - apply demo_tables.
  - by repeat constructor.
  - done.
  - simpl. lia.
Defined.
End FsOpen.
