(* ===== verification/FsDir.v ===== *)
(** * Directories and paths

    [FsDir] models the members of [Disk::FilePart] of
    src/src/kernel/io/disk/part.cpp that work on directories: searching,
    reading, adding and deleting entries, following a path, and creating,
    opening and deleting files and directories by their paths; and
    [Directory::Close] of src/src/kernel/io/disk/file/dir.cpp. A directory is
    the static root directory or an object of the heap. *)
From S2P Require Import Prelude UtilBit UtilBitmap StlString IoPath IoFileDesc MemPool IoDisk FsBase IoPart FsData FsFormat FsPart FsFile.
Import metric.

Module FsDir.
Import Bytes FilePart FsFile.

(** A pointer to a directory. *)
Inductive dir_ref := RootDir | DirAt (addr : Z).

(** [PathSearchRecord]; [searched] is the array of the path. *)
Record record := mk_record {
  searched : list Z; parent : option dir_ref; type : Z; inode_idx : Z
}.

Section dir.
Context {D H : Type} `{Store D} `{Heap H}.
Local Abbreviation world := (FilePart.world D H).

(** ** Directory objects *)

Definition dir_at (r : dir_ref) : M world Directory.t :=
  match r with
  | RootDir => gets root_dir
  | DirAt a => m ← gets dirs; lift (of_option (m !! a))
  end.
Definition set_dir (r : dir_ref) (d : Directory.t) : M world unit :=
  match r with
  | RootDir => modify (with_root_dir d)
  | DirAt a => modify (λ w, with_dirs (<[a := d]> (dirs w)) w)
  end.

(** [Directory::GetNode]: the address of the node. *)
Definition DirNode (r : dir_ref) : M world Z :=
  d ← dir_at r; assert (Directory.IsOpen d);; lift (of_option (Directory.inode d)).
Definition GetNodeIdx (r : dir_ref) : M world Z :=
  a ← DirNode r; n ← node_at a; mret (IdxNode.idx n).
Definition IsEmpty (r : dir_ref) : M world bool :=
  a ← DirNode r; n ← node_at a;
  mret (IdxNode.size n =? Directory.min_entry_count * DirEntry.bytes).

(** [Directory::Close] does nothing to the root directory. *)
Definition CloseDir (r : dir_ref) : M world unit :=
  match r with
  | RootDir => mret tt
  | DirAt addr =>
      a ← DirNode r;
      CloseNode a;;
      modify (λ w, with_dirs (delete addr (dirs w)) w);;
      on_dev (delete_ default_pool addr)
  end.

(** [sizeof(Directory)] *)
Definition dir_bytes : Z := 8.

(** [OpenDir] by the index of a node. *)
Definition OpenDirNode (idx : Z) : M world dir_ref :=
  addr ← on_dev (new default_pool dir_bytes);
  a ← OpenNode idx;
  modify (λ w, with_dirs (<[addr := Directory.mk (Some a) 0]> (dirs w)) w);;
  mret (DirAt addr).

Definition OpenRootDir : M world unit :=
  d ← gets root_dir;
  b ← GetSuperBlock;
  a ← OpenNode (SuperBlock.root_inode_idx b);
  modify (with_root_dir (Directory.mk (Some a) 0));;
  match Directory.inode d with
  | Some old => CloseNode old
  | None => mret tt
  end.

(** ** Entries *)

(** [LoadDirEntries]: the entries of a sector. *)
Definition entries_of (sec : list Z) : list DirEntry.t :=
  (λ j, DirEntry.decode (take 28 (drop (Z.to_nat (28 * j)) sec)))
    <$> seqZ 0 DirEntry.dir_entry_count_per_sector.
Definition LoadDirEntries (lba : Z) : M world (list DirEntry.t) :=
  sec ← disk_read lba 1; mret (entries_of sec).

(** The first entry of a list with the name. *)
Fixpoint find_name (name : string_view.t) (es : list DirEntry.t) : res (option DirEntry.t) :=
  match es with
  | [] => Ok None
  | e :: es' =>
      eq ← DirEntry.name_is e name;
      if (eq : bool) then Ok (Some e) else find_name name es'
  end.

Fixpoint search_blocks (name : string_view.t) (lbas : list Z) : M world (option DirEntry.t) :=
  match lbas with
  | [] => mret None
  | lba :: lbas' =>
      if lba =? 0 then search_blocks name lbas'
      else
        es ← LoadDirEntries lba;
        found ← lift (find_name name es);
        match found with
        | Some e => mret (Some e)
        | None => search_blocks name lbas'
        end
  end.

Definition SearchDirEntry (r : dir_ref) (name : string_view.t) : M world (option DirEntry.t) :=
  d ← dir_at r;
  assert (Directory.IsOpen d);;
  assert (negb (string_view.empty name) && (string_view.size name <=? Path.max_len));;
  a ← DirNode r;
  n ← node_at a;
  lbas ← LoadNodeLbas n;
  search_blocks name lbas.

(** The entry at an access offset, when [pos] bytes of entries were passed. *)
Fixpoint entry_from (target pos : Z) (es : list DirEntry.t) : res (Z * option DirEntry.t) :=
  match es with
  | [] => Ok (pos, None)
  | e :: es' =>
      if negb (DirEntry.type e =? DirEntry.Unknown) then
        if pos <? target then entry_from target (pos +w DirEntry.bytes) es'
        else Assert (pos =? target);; Ok (pos, Some e)
      else entry_from target pos es'
  end.

Fixpoint read_blocks (target pos : Z) (lbas : list Z) : M world (option DirEntry.t) :=
  match lbas with
  | [] => mret None
  | lba :: lbas' =>
      if lba =? 0 then read_blocks target pos lbas'
      else
        es ← LoadDirEntries lba;
        '(pos, found) ← lift (entry_from target pos es);
        match found with
        | Some e => mret (Some e)
        | None => read_blocks target pos lbas'
        end
  end.

(** [ReadDir]; the pointer it returns is into an array that is gone, the entry
    is what it designated. *)
Definition ReadDir (r : dir_ref) : M world (option DirEntry.t) :=
  d ← dir_at r;
  assert (Directory.IsOpen d);;
  a ← DirNode r;
  n ← node_at a;
  if IdxNode.size n <=? Directory.pos d then mret None
  else
    lbas ← LoadNodeLbas n;
    found ← read_blocks (Directory.pos d) 0 lbas;
    match found with
    | Some e => set_dir r (Directory.with_pos (Directory.pos d +w DirEntry.bytes) d);; mret (Some e)
    | None => mret None
    end.

(** The node of a directory has at least the size of two entries. *)
Definition dir_size_ok (n : IdxNode.t) : bool :=
  (Directory.min_entry_count * DirEntry.bytes <=? IdxNode.size n)
  && (IdxNode.size n mod DirEntry.bytes =? 0).

(** A new block at index [i] of the directory with node [a]. The test of the
    indirect table declares a variable of its own, so the table that is written
    at the end is the one from before, address 0 when there was none. *)
Definition link_new_block (a i new_sector_lba : Z) (lbas : list Z) : M world bool :=
  n ← node_at a;
  if i <? Z.of_nat IdxNode.direct_block_count then
    n ← lift (IdxNode.SetDirectLba i new_sector_lba n);
    set_node a n;; mret true
  else
    let indirect_tab_lba := IdxNode.GetIndirectTabLba n in
    ok ← (if indirect_tab_lba =? 0 then
            new_tab ← AllocBlock;
            if negb (new_tab =? npos) then
              set_node a (IdxNode.SetIndirectTabLba new_tab n);; SyncBlockBitmap new_tab;; mret true
            else FreeBlock new_sector_lba;; SyncBlockBitmap new_sector_lba;; mret false
          else mret true);
    match ok with
    | true => save_indirect indirect_tab_lba lbas;; mret true
    | false => mret false
    end.

(** The place of the first unused entry of a sector. *)
Fixpoint find_unused (j : Z) (es : list DirEntry.t) : option Z :=
  match es with
  | [] => None
  | e :: es' => if DirEntry.type e =? DirEntry.Unknown then Some j else find_unused (j + 1) es'
  end.

Definition grow_dir (a : Z) : M world unit :=
  n ← node_at a; set_node a (IdxNode.with_size (IdxNode.size n +w DirEntry.bytes) n).

(** The loop of [SyncDirEntry] from the block [i] on; [todo] are the blocks from
    there on. *)
Fixpoint sync_entry_at (a i : Z) (todo lbas : list Z) (entry : DirEntry.t) (io_buf : list Z) :
    M world (bool * list Z) :=
  match todo with
  | [] => mret (false, io_buf)
  | lba :: todo' =>
      if lba =? 0 then
        new_sector_lba ← AllocBlock;
        if new_sector_lba =? npos then mret (false, io_buf)
        else
          SyncBlockBitmap new_sector_lba;;
          ok ← link_new_block a i new_sector_lba (<[Z.to_nat i := new_sector_lba]> lbas);
          match ok with
          | false => mret (false, io_buf)
          | true =>
              io_buf ← lift (splice (zeros (Z.of_nat (length io_buf))) 0 (DirEntry.encode entry));
              disk_write new_sector_lba io_buf 1;;
              grow_dir a;;
              mret (true, io_buf)
          end
      else
        sec ← disk_read lba 1;
        io_buf ← lift (splice io_buf 0 sec);
        match find_unused 0 (entries_of sec) with
        | Some j =>
            io_buf ← lift (DirEntry.put_entry io_buf j entry);
            disk_write lba io_buf 1;;
            grow_dir a;;
            mret (true, io_buf)
        | None => sync_entry_at a (i + 1) todo' lbas entry io_buf
        end
  end.

Definition SyncDirEntry (r : dir_ref) (entry : DirEntry.t) (io_buf : list Z) :
    M world (bool * list Z) :=
  assert (sector_size <=? Z.of_nat (length io_buf));;
  a ← DirNode r;
  n ← node_at a;
  assert (dir_size_ok n);;
  lbas ← LoadNodeLbas n;
  sync_entry_at a 0 lbas lbas entry io_buf.

(** ** Deleting an entry *)

(** An entry with the node that is neither of the two of every directory. *)
Definition entry_of_node (inode_idx : Z) (e : DirEntry.t) : res bool :=
  dot ← DirEntry.name_is e Path.curr_dir_name;
  dotdot ← DirEntry.name_is e Path.parent_dir_name;
  Ok (negb dot && negb dotdot && (DirEntry.inode_idx e =? inode_idx)).

(** The number of entries in use, and the place of the one with the node. *)
Fixpoint scan_block (inode_idx j : Z) (es : list DirEntry.t) (count : Z) (found : option Z) :
    res (Z * option Z) :=
  match es with
  | [] => Ok (count, found)
  | e :: es' =>
      if negb (DirEntry.type e =? DirEntry.Unknown) then
        is_it ← entry_of_node inode_idx e;
        if (is_it : bool) then
          Assert (bool_decide (found = None));;
          scan_block inode_idx (j + 1) es' (count + 1) (Some j)
        else scan_block inode_idx (j + 1) es' (count + 1) found
      else scan_block inode_idx (j + 1) es' count found
  end.

(** The block [i] of the directory with node [a] is free. *)
Definition unlink_block (a i : Z) (lbas : list Z) : M world unit :=
  n ← node_at a;
  if i <? Z.of_nat IdxNode.direct_block_count then
    n ← lift (IdxNode.SetDirectLba i 0 n); set_node a n
  else
    let indirect_block_count := length (filter (.≠ 0) (drop IdxNode.direct_block_count lbas)) in
    assert (bool_decide (0 < indirect_block_count)%nat);;
    let indirect_tab_lba := IdxNode.GetIndirectTabLba n in
    if bool_decide (1 < indirect_block_count)%nat then
      save_indirect indirect_tab_lba (<[Z.to_nat i := 0]> lbas)
    else
      FreeBlock indirect_tab_lba;; SyncBlockBitmap indirect_tab_lba;;
      set_node a (IdxNode.SetIndirectTabLba 0 n).

Fixpoint delete_entry_at (a inode_idx i : Z) (todo lbas io_buf : list Z) : M world (bool * list Z) :=
  match todo with
  | [] => mret (false, io_buf)
  | lba :: todo' =>
      if lba =? 0 then delete_entry_at a inode_idx (i + 1) todo' lbas io_buf
      else
        sec ← disk_read lba 1;
        io_buf ← lift (splice (zeros (Z.of_nat (length io_buf))) 0 sec);
        '(entry_count, found) ← lift (scan_block inode_idx 0 (entries_of sec) 0 None);
        assert (Directory.min_entry_count <=? entry_count);;
        match found with
        | None => delete_entry_at a inode_idx (i + 1) todo' lbas io_buf
        | Some j =>
            io_buf ←
              (if entry_count =? Directory.min_entry_count + 1 then
                 FreeBlock lba;; SyncBlockBitmap lba;; unlink_block a i lbas;; mret io_buf
               else
                 io_buf ← lift (splice io_buf (j * DirEntry.bytes) (zeros DirEntry.bytes));
                 disk_write lba io_buf 1;; mret io_buf);
            n ← node_at a;
            let n := IdxNode.with_size (IdxNode.size n -w DirEntry.bytes) n in
            set_node a n;;
            io_buf ← SyncNode n io_buf;
            mret (true, io_buf)
        end
  end.

Definition DeleteDirEntry (r : dir_ref) (inode_idx : Z) (io_buf : list Z) : M world (bool * list Z) :=
  assert (2 * sector_size <=? Z.of_nat (length io_buf));;
  a ← DirNode r;
  n ← node_at a;
  assert (dir_size_ok n);;
  lbas ← LoadNodeLbas n;
  delete_entry_at a inode_idx 0 lbas lbas io_buf.

Definition DeleteDir (parent child : dir_ref) : M world bool :=
  p ← dir_at parent;
  c ← dir_at child;
  assert (Directory.IsOpen p && Directory.IsOpen c);;
  addr ← on_dev (new default_pool (2 * sector_size));
  idx ← GetNodeIdx child;
  r ← DeleteDirEntry parent idx (zeros (2 * sector_size));
  (if bool_decide (r.1 = true) then DeleteNode idx else mret tt);;
  on_dev (delete_ default_pool addr);;
  mret r.1.

(** ** Following a path *)

(** The views of a path object. *)
Definition view (path : list Z) : res string_view.t := string_view.of_cptr (Some path).
Definition on_path {A} (f : string_view.t → res A) (path : list Z) : M world A :=
  lift (v ← view path; f v).

(** [VisitorArg]: the record and the index of the parent directory's node. *)
Record VisitorArg := mk_arg { rec : record; parent_inode_idx : Z }.

(** One name of the path. The directory that was found is opened by the index
    in the record, which only a regular file sets. *)
Definition search_step (sub_path name : string_view.t) (arg : VisitorArg) :
    M world (VisitorArg * bool) :=
  let r := rec arg in
  sp ← lift (Path.Join (searched r) name);
  assert (bool_decide (is_Some (parent r)));;
  p ← lift (of_option (parent r));
  found ← SearchDirEntry p name;
  match found with
  | Some e =>
      if DirEntry.type e =? DirEntry.Directory then
        parent_idx ← GetNodeIdx p;
        CloseDir p;;
        p' ← OpenDirNode (inode_idx r);
        mret (mk_arg (mk_record sp (Some p') DirEntry.Directory (inode_idx r)) parent_idx, true)
      else if DirEntry.type e =? DirEntry.Regular then
        mret (mk_arg (mk_record sp (Some p) DirEntry.Regular (DirEntry.inode_idx e))
                (parent_inode_idx arg), false)
      else lift Panic
  | None =>
      mret (mk_arg (mk_record sp (Some p) DirEntry.Unknown (inode_idx r)) (parent_inode_idx arg), false)
  end.

(** The visitor of [Path::Visit], with the state of the file system. *)
Definition search_visitor : Path.visitor (world * VisitorArg) := λ sub_path name wa,
  '(r, w) ← search_step sub_path name wa.2 wa.1; Ok ((w, r.1), r.2).

(** [SearchPath] on a fresh record: whether the path is found, and the record. *)
Definition SearchPath (path : list Z) : M world (bool * record) :=
  absolute ← on_path Path.IsAbsolute path;
  assert absolute;;
  is_root ← on_path Path.IsRootDir path;
  sp ← lift (Path.make string_view.null);
  match (is_root : bool) with
  | true =>
      sp ← lift (Path.Clear sp);
      mret (true, mk_record sp (Some RootDir) DirEntry.Directory root_inode_idx)
  | false =>
      let arg := mk_arg (mk_record sp (Some RootDir) DirEntry.Unknown npos) root_inode_idx in
      v ← lift (view path);
      arg ← (λ w, '(wa, _) ← Path.Visit v search_visitor (w, arg); Ok (wa.2, wa.1));
      let r := rec arg in
      p ← lift (of_option (parent r));
      d ← dir_at p;
      assert (Directory.IsOpen d);;
      if negb (type r =? DirEntry.Unknown) then
        if type r =? DirEntry.Directory then
          CloseDir p;;
          p' ← OpenDirNode (parent_inode_idx arg);
          mret (true, mk_record (searched r) (Some p') (type r) (inode_idx r))
        else mret (true, r)
      else mret (false, r)
  end.

(** The parent of a record, which [SearchPath] sets. *)
Definition parent_of (r : record) : M world dir_ref :=
  assert (bool_decide (is_Some (parent r)));; lift (of_option (parent r)).

(** [OpenDir]: the directory, [None] for [nullptr]. *)
Definition OpenDir (path : list Z) : M world (option dir_ref) :=
  absolute ← on_path Path.IsAbsolute path;
  assert absolute;;
  is_root ← on_path Path.IsRootDir path;
  match (is_root : bool) with
  | true => mret (Some RootDir)
  | false =>
      '(found, r) ← SearchPath path;
      p ← parent_of r;
      match (found : bool) with
      | false => mret None
      | true =>
          if type r =? DirEntry.Regular then mret None
          else CloseDir p;; d ← OpenDirNode (inode_idx r); mret (Some d)
      end
  end.

(** ** Creating and deleting *)

(** [CreateFile]; the object of the node is not freed on failure. *)
Definition create_rollback (addr desc inode_idx : Z) : M world Z :=
  on_dev (delete_ default_pool addr);;
  (if FileDesc.IsValid desc then f ← file_at desc; set_file desc (File.Clear f) else mret tt);;
  (if negb (inode_idx =? npos) then FreeNode inode_idx else mret tt);;
  mret npos.

Definition CreateFile (r : dir_ref) (name : string_view.t) (flags : Z) : M world Z :=
  d ← dir_at r;
  assert (Directory.IsOpen d);;
  let io_buf := zeros (2 * sector_size) in
  addr ← on_dev (new default_pool (2 * sector_size));
  a ← on_dev (new default_pool IdxNode.bytes);
  idx ← AllocNode;
  tab ← gets files;
  let desc := FileTab.GetFreeDesc tab in
  if (idx =? npos) || negb (FileDesc.IsValid desc) then create_rollback addr desc idx
  else
    set_node a (IdxNode.with_idx idx (IdxNode.Init IdxNode.zero));;
    assert (desc <? FileTab.GetSize tab);;
    set_file desc (File.mk flags (Some a) 0);;
    entry ← lift (DirEntry.SetName name DirEntry.init);
    let entry := DirEntry.with_inode idx (DirEntry.with_type DirEntry.Regular entry) in
    '(ok, io_buf) ← SyncDirEntry r entry io_buf;
    match (ok : bool) with
    | false => create_rollback addr desc idx
    | true =>
        da ← DirNode r;
        dn ← node_at da;
        io_buf ← SyncNode dn io_buf;
        n ← node_at a;
        SyncNode n io_buf;;
        SyncNodeBitmap idx;;
        n ← node_at a;
        set_node a (IdxNode.with_open_times 1 n);;
        modify (λ w, with_part (with_open_inodes (open_inodes_ (part w) ++ [a]) (part w)) w);;
        on_dev (delete_ default_pool addr);;
        SyncGlobal desc
    end.

(** [OpenFile] by a path. *)
Definition OpenFile (path : list Z) (flags : Z) : M world Z :=
  absolute ← on_path Path.IsAbsolute path;
  assert absolute;;
  is_dir ← on_path Path.IsDir path;
  match (is_dir : bool) with
  | true => mret npos
  | false =>
      '(found, r) ← SearchPath path;
      p ← parent_of r;
      depth ← on_path Path.GetDepth path;
      searched_depth ← on_path Path.GetDepth (searched r);
      let create := File.IsSet flags File.CreateNew in
      let failed := (type r =? DirEntry.Directory) || negb (depth =? searched_depth)
        || (negb found && negb create) || (found && create) in
      desc ← (if failed then mret npos
              else if (found : bool) then OpenFileNode (inode_idx r) flags
              else name ← on_path Path.GetFileName path; CreateFile p name flags);
      CloseDir p;;
      mret desc
  end.

Definition DeleteFile (path : list Z) : M world bool :=
  absolute ← on_path Path.IsAbsolute path;
  assert absolute;;
  is_dir ← on_path Path.IsDir path;
  match (is_dir : bool) with
  | true => mret false
  | false =>
      '(found, r) ← SearchPath path;
      p ← parent_of r;
      in_use ← (if negb found || (type r =? DirEntry.Directory) then mret true
                else Contain (inode_idx r));
      match (in_use : bool) with
      | true => CloseDir p;; mret false
      | false =>
          addr ← on_dev (new default_pool (2 * sector_size));
          DeleteDirEntry p (inode_idx r) (zeros (2 * sector_size));;
          DeleteNode (inode_idx r);;
          on_dev (delete_ default_pool addr);;
          CloseDir p;;
          mret true
      end
  end.

Definition create_dir_failed (addr idx lba : Z) (p : dir_ref) : M world bool :=
  on_dev (delete_ default_pool addr);;
  (if negb (idx =? npos) then FreeNode idx else mret tt);;
  (if negb (lba =? npos) then FreeBlock lba else mret tt);;
  CloseDir p;;
  mret false.

(** The two entries of the new directory go over what is in the buffer, which
    [SyncNode] filled with sectors of index nodes. *)
Definition write_dir_entries (idx parent_idx lba : Z) (io_buf : list Z) : M world (list Z) :=
  e0 ← lift (DirEntry.get_entry io_buf 0);
  e0 ← lift (DirEntry.SetName Path.curr_dir_name e0);
  io_buf ← lift (DirEntry.put_entry io_buf 0
    (DirEntry.with_type DirEntry.Directory (DirEntry.with_inode idx e0)));
  e1 ← lift (DirEntry.get_entry io_buf 1);
  e1 ← lift (DirEntry.SetName Path.parent_dir_name e1);
  io_buf ← lift (DirEntry.put_entry io_buf 1
    (DirEntry.with_type DirEntry.Directory (DirEntry.with_inode parent_idx e1)));
  disk_write lba io_buf (RoundUpDivide (Directory.min_entry_count * DirEntry.bytes) sector_size);;
  mret io_buf.

Definition CreateDir (path : list Z) : M world bool :=
  absolute ← on_path Path.IsAbsolute path;
  assert absolute;;
  let io_buf := zeros (2 * sector_size) in
  addr ← on_dev (new default_pool (2 * sector_size));
  '(found, r) ← SearchPath path;
  p ← parent_of r;
  name ← on_path Path.GetFileName (searched r);
  idx ← AllocNode;
  lba ← AllocBlock;
  depth ← on_path Path.GetDepth path;
  searched_depth ← on_path Path.GetDepth (searched r);
  if found || negb (depth =? searched_depth) || (idx =? npos) || (lba =? npos) then
    create_dir_failed addr idx lba p
  else
    entry ← lift (DirEntry.SetName name DirEntry.init);
    let entry := DirEntry.with_inode idx (DirEntry.with_type DirEntry.Directory entry) in
    '(ok, io_buf) ← SyncDirEntry p entry io_buf;
    match (ok : bool) with
    | false => create_dir_failed addr idx lba p
    | true =>
        pa ← DirNode p;
        pn ← node_at pa;
        io_buf ← SyncNode pn io_buf;
        parent_idx ← GetNodeIdx p;
        io_buf ← write_dir_entries idx parent_idx lba io_buf;
        SyncBlockBitmap lba;;
        let n := IdxNode.with_idx idx (IdxNode.Init IdxNode.zero) in
        n ← lift (IdxNode.SetDirectLba 0 lba n);
        let n := IdxNode.with_size (Directory.min_entry_count * DirEntry.bytes) n in
        SyncNode n io_buf;;
        SyncNodeBitmap idx;;
        on_dev (delete_ default_pool addr);;
        CloseDir p;;
        mret true
    end.
End dir.
End FsDir.
