(* ===== verification/FsDirMap.v ===== *)
(** * Directories as maps

    A directory of FsDir is read as a finite map from names to entries:
    [SearchDirEntry] looks a name up in it, and [SyncDirEntry] inserts an entry
    under its name. The map is that of the entries in the sectors of the
    directory's blocks. *)
From S2P Require Import Prelude UtilBit UtilBitmap StlString IoPath IoFileDesc MemPool IoDisk FsBase IoPart FsData FsFormat FsPart FsFile FsDir.
Import metric.

Module DirMap.
Import Bytes FilePart FsFile FsDir.

(** ** Names *)

(** The string in an array of characters: up to the first null. *)
Fixpoint cname (l : list Z) : list Z :=
  match l with
  | [] => []
  | c :: l' => if c =? 0 then [] else c :: cname l'
  end.
Definition ename (e : DirEntry.t) : list Z := cname (DirEntry.name e).
Definition terminated (e : DirEntry.t) : Prop := 0 ∈ DirEntry.name e.

#[global] Instance terminated_dec e : Decision (terminated e).
Proof. unfold terminated. apply _. Defined.

Lemma cname_holds l : 0 ∈ l → cstring.holds l (cname l).
Proof.
  induction l as [|c l IH]; [by intros ?%elem_of_nil|]. intros Hin. cbn.
  destruct (Z.eqb_spec c 0) as [->|Hc]; [split; [by intros ?%elem_of_nil|by exists l]|].
  apply elem_of_cons in Hin as [|Hin]; [congruence|]. apply cstring.holds_cons. split; [done|]. eauto.
Qed.

Lemma holds_cname l s : cstring.holds l s → cname l = s ∧ 0 ∈ l.
Proof.
  intros [Hs (rest & ->)]. split; [|apply elem_of_app; right; by left].
  induction s as [|c s IH]; [done|]. cbn. apply not_elem_of_cons in Hs as [Hc Hs].
  destruct (Z.eqb_spec c 0); [congruence|]. by rewrite IH.
Qed.

(** The first entry with a name. *)
Definition find_entry (s : list Z) (es : list DirEntry.t) : option DirEntry.t :=
  snd <$> list_find (λ e, ename e = s) es.

Lemma find_entry_cons s e es :
  find_entry s (e :: es) = if decide (ename e = s) then Some e else find_entry s es.
Proof. unfold find_entry. cbn. case_decide; [done|]. by destruct (list_find _ es) as [[]|]. Qed.

Lemma find_entry_app s es es' :
  find_entry s (es ++ es') = match find_entry s es with Some e => Some e | None => find_entry s es' end.
Proof.
  induction es as [|e es IH]; [done|]. cbn [app]. rewrite !find_entry_cons. by case_decide.
Qed.

Lemma name_is_ok v s e :
  string_view.shows v s → terminated e → DirEntry.name_is e v = Ok (bool_decide (ename e = s)).
Proof.
  intros Hv He. destruct (string_view.of_cptr_ok _ _ (cname_holds _ He)) as (u & Eu & _ & Hu).
  unfold DirEntry.name_is. rewrite Eu. apply (string_view.eqb_ok u v _ _ Hu Hv).
Qed.

Lemma find_name_ok v s es :
  string_view.shows v s → Forall terminated es → find_name v es = Ok (find_entry s es).
Proof.
  intros Hv. induction 1 as [|e es He Hes IH]; [done|]. cbn [find_name].
  rewrite find_entry_cons, (name_is_ok v s e Hv He). cbn [mbind res_bind]. case_decide as E.
  - by rewrite bool_decide_eq_true_2.
  - by rewrite bool_decide_eq_false_2.
Qed.

(** An entry in the place of one without a name. *)
Lemma find_entry_insert s es k old e :
  es !! k = Some old → ename old ≠ s → find_entry (ename e) es = None →
  find_entry s (<[k := e]> es) = if decide (s = ename e) then Some e else find_entry s es.
Proof.
  revert k. induction es as [|e' es IH]; [done|]. intros [|k] Hk Hold Hn; rewrite find_entry_cons in Hn.
  - injection Hk as ->. change (<[0%nat := e]> (old :: es)) with (e :: es). rewrite !find_entry_cons.
    destruct (decide (ename old = ename e)); [done|]. destruct (decide (ename e = s)) as [<-|Hne].
    + by rewrite decide_True by done.
    + rewrite (decide_False (P := s = ename e)) by congruence. by rewrite decide_False by done.
  - change (<[S k := e]> (e' :: es)) with (e' :: <[k := e]> es). rewrite !find_entry_cons.
    destruct (decide (ename e' = ename e)) as [|Hne]; [done|]. rewrite (IH k Hk Hold Hn).
    destruct (decide (s = ename e)) as [->|]; [by rewrite decide_False|done].
Qed.

(** ** The entries of a sector *)

Lemma entries_lookup sec (j : nat) :
  (j < 18)%nat → entries_of sec !! j = Some (DirEntry.decode (take 28 (drop (28 * j) sec))).
Proof.
  intros Hj. unfold entries_of. change DirEntry.dir_entry_count_per_sector with 18.
  rewrite list_lookup_fmap, lookup_seqZ_lt by lia. simpl. do 4 f_equal. lia.
Qed.
Lemma length_entries sec : length (entries_of sec) = 18%nat.
Proof. reflexivity. Qed.

(** Another entry in one place. *)
Lemma entries_insert sec sec' (j : nat) e :
  DirEntry.wf e → (j < 18)%nat → length sec = 512%nat → length sec' = 512%nat →
  (∀ i : nat, sec' !! i = if decide (28 * j ≤ i < 28 * j + 28)%nat then DirEntry.encode e !! (i - 28 * j)%nat else sec !! i) →
  entries_of sec' = <[j := e]> (entries_of sec).
Proof.
  intros He Hj Hl Hl' Hs. pose proof (DirEntry.length_entry_encode e He) as Hle.
  apply list_eq_same_length with (n := 18%nat); [by rewrite ?length_insert, length_entries..|].
  intros k x y Hk Hx Hy. rewrite entries_lookup in Hx by lia. apply (inj Some) in Hx as <-.
  destruct (decide (k = j)) as [->|Hne].
  - rewrite list_lookup_insert_eq in Hy by (rewrite length_entries; lia). injection Hy as <-.
    assert (E : take 28 (drop (28 * j) sec') = DirEntry.encode e).
    { apply list_eq_same_length with (n := 28%nat); [done|rewrite length_take, length_drop; lia|].
      intros i v v' Hi Hv Hv'. rewrite lookup_take_lt, lookup_drop, Hs in Hv by lia.
      rewrite decide_True in Hv by lia. replace (28 * j + i - 28 * j)%nat with i in Hv by lia. congruence. }
    rewrite E. rewrite <- (app_nil_r (DirEntry.encode e)). by apply DirEntry.decode_entry_encode.
  - rewrite list_lookup_insert_ne, entries_lookup in Hy by (done || lia). apply (inj Some) in Hy as <-. f_equal.
    apply list_eq_same_length with (n := 28%nat); [rewrite length_take, length_drop; lia..|].
    intros i v v' Hi Hv Hv'. rewrite lookup_take_lt, lookup_drop in Hv, Hv' by lia.
    rewrite Hs, decide_False in Hv by lia. congruence.
Qed.

(** [find_unused] finds the first entry that is not in use. *)
Lemma find_unused_spec j0 es j :
  find_unused j0 es = Some j → j0 ≤ j ∧ ∃ e, es !! Z.to_nat (j - j0) = Some e ∧ DirEntry.type e = DirEntry.Unknown.
Proof.
  revert j0. induction es as [|e es IH]; intros j0; [done|]. cbn [find_unused].
  destruct (Z.eqb_spec (DirEntry.type e) DirEntry.Unknown) as [E|E].
  - intros [= <-]. split; [lia|]. exists e. by rewrite Z.sub_diag.
  - intros Hf. destruct (IH _ Hf) as (Hle & e' & He' & Ht). split; [lia|]. exists e'.
    by replace (Z.to_nat (j - j0)) with (S (Z.to_nat (j - (j0 + 1)))) by lia.
Qed.

Section map.
Context {D H : Type} `{Store D} `{Heap H} `{!StoreLaws D} `{!HeapLaws H}.
Local Abbreviation world := (FilePart.world D H).

(** ** The entries of a directory *)

Definition block_entries (x : io D H) (l : Z) : list DirEntry.t :=
  if l =? 0 then [] else entries_of (sector x l).
Definition dir_entries (x : io D H) (lbas : list Z) : list DirEntry.t := concat (block_entries x <$> lbas).
Definition in_disk (l : Z) : Prop := l = 0 ∨ 0 < l < 163839.

Lemma dir_entries_cons x l lbas : dir_entries x (l :: lbas) = block_entries x l ++ dir_entries x lbas.
Proof. done. Qed.
Lemma dir_entries_app x ls ls' : dir_entries x (ls ++ ls') = dir_entries x ls ++ dir_entries x ls'.
Proof. unfold dir_entries. by rewrite fmap_app, concat_app. Qed.
Lemma dir_entries_same x x' lbas : same_sectors x x' → dir_entries x' lbas = dir_entries x lbas.
Proof.
  intros Hs. unfold dir_entries. f_equal. apply list_fmap_ext. intros i l _. unfold block_entries. by rewrite Hs.
Qed.
Lemma dir_entries_others x x' lbas l :
  (∀ l', l' ≠ l → sector x' l' = sector x l') → l ∉ lbas → dir_entries x' lbas = dir_entries x lbas.
Proof.
  intros Hs Hl. unfold dir_entries. f_equal. apply list_fmap_ext. intros i l' Hi. unfold block_entries.
  rewrite Hs; [done|]. intros ->. apply Hl. by eapply list_elem_of_lookup_2.
Qed.

Lemma LoadNodeLbas_ok live m n (w : world) :
  attached w → io_ok live m (dev w) → IdxNode.indirect_tab_lba_ n = 0 ∨ 0 < IdxNode.indirect_tab_lba_ n < 163839 →
  runs (LoadNodeLbas n) w (λ lbas w', lbas = node_blocks (dev w) n ∧ ∃ x', w' = with_dev x' w
    ∧ io_ok live m x' ∧ same_sectors (dev w) x').
Proof.
  intros Hd Hio Ht. unfold LoadNodeLbas, node_blocks, IdxNode.GetIndirectTabLba.
  destruct (Z.eqb_spec (IdxNode.indirect_tab_lba_ n) 0) as [E|E]; cbn [negb].
  - apply runs_ret. split; [done|]. exists (dev w). split; [by destruct w|]. split; [done|apply same_sectors_refl].
  - apply (bind_read w live m); [done|done|lia|lia|lia|]. intros x' Hio' Hs. rewrite sectors_1.
    apply runs_ret. split; [done|]. by exists x'.
Qed.

Lemma search_blocks_ok live m v s lbas : ∀ w : world,
  attached w → io_ok live m (dev w) → string_view.shows v s →
  Forall in_disk lbas → Forall terminated (dir_entries (dev w) lbas) →
  runs (search_blocks v lbas) w (λ found w', found = find_entry s (dir_entries (dev w) lbas)
    ∧ ∃ x', w' = with_dev x' w ∧ io_ok live m x' ∧ same_sectors (dev w) x').
Proof.
  induction lbas as [|l lbas IH]; intros w Hd Hio Hv Hin Ht; cbn [search_blocks].
  { apply runs_ret. split; [done|]. exists (dev w). split; [by destruct w|]. split; [done|apply same_sectors_refl]. }
  apply Forall_cons in Hin as [Hl Hin]. rewrite dir_entries_cons in *. apply Forall_app in Ht as [Ht1 Ht2].
  unfold block_entries in *. destruct (Z.eqb_spec l 0) as [E|E]; [by apply IH|].
  destruct Hl as [|Hl]; [done|]. unfold LoadDirEntries. apply bind_assoc.
  apply (bind_read w live m); [done|done|lia|lia|lia|]. intros x1 Hio1 Hs1. rewrite sectors_1.
  apply bind_ret. apply (bind_lift _ _ _ _ _ (find_name_ok v s _ Hv Ht1)).
  rewrite find_entry_app. destruct (find_entry s (entries_of (sector (dev w) l))) as [e|].
  - apply runs_ret. split; [done|]. by exists x1.
  - eapply runs_mono; [apply IH; try done|].
    + by rewrite (dir_entries_same _ _ _ Hs1).
    + cbn [dev with_dev]. intros found w' [-> (x' & -> & Hio' & Hs')]. rewrite (dir_entries_same _ _ _ Hs1).
      split; [done|]. exists x'. split; [done|]. split; [done|]. by eapply same_sectors_trans.
Qed.
(** Bytes over the entry [j] of the block [l]. *)
Lemma patched_sectors (x x' : io D H) l j e :
  0 ≤ l → (j < 18)%nat → DirEntry.wf e → patched (512 * l + 28 * Z.of_nat j) (DirEntry.encode e) x x' →
  (∀ l', 0 ≤ l' → l' ≠ l → sector x' l' = sector x l')
  ∧ entries_of (sector x' l) = <[j := e]> (entries_of (sector x l)).
Proof.
  intros Hl Hj He Hp. pose proof (DirEntry.length_entry_encode e He) as Hle.
  assert (Hbyte : ∀ l' (i : nat), 0 ≤ l' → (i < 512)%nat → sector x' l' !! i
    = if decide (l' = l ∧ (28 * j ≤ i < 28 * j + 28)%nat) then DirEntry.encode e !! (i - 28 * j)%nat else sector x l' !! i).
  { intros l' i Hl' Hi. specialize (Hp (512 * l' + Z.of_nat i) ltac:(lia)). unfold disk_byte in Hp.
    replace ((512 * l' + Z.of_nat i) / 512) with l' in Hp by div_lia.
    replace (Z.to_nat ((512 * l' + Z.of_nat i) mod 512)) with i in Hp by div_lia. rewrite Hp, Hle.
    destruct (Z.leb_spec (512 * l + 28 * Z.of_nat j) (512 * l' + Z.of_nat i)),
      (Z.ltb_spec (512 * l' + Z.of_nat i) (512 * l + 28 * Z.of_nat j + Z.of_nat 28)), (decide _);
      cbn [andb]; try done; try lia. f_equal. lia. }
  split.
  - intros l' Hl' Hne. apply list_eq_same_length with (n := 512%nat); [apply length_sector..|].
    intros i v v' Hi Hv Hv'. rewrite Hbyte, decide_False in Hv by (done || naive_solver). congruence.
  - apply entries_insert; [done|done|apply length_sector..|]. intros i.
    destruct (decide (i < 512)%nat) as [Hi|Hi].
    + rewrite Hbyte by done. repeat case_decide; (done || naive_solver).
    + rewrite decide_False by lia. rewrite !lookup_ge_None_2; [done|rewrite length_sector; lia..].
Qed.

(** The blocks before the place are full; the place is in the block [l]. *)
Definition full_block (x : io D H) (k : Z) : Prop :=
  0 < k < 163839 ∧ find_unused 0 (entries_of (sector x k)) = None.

Lemma full_blocks_same (x x' : io D H) pre : same_sectors x x' → Forall (full_block x) pre → Forall (full_block x') pre.
Proof. intros Hs Hp. eapply Forall_impl; [exact Hp|]. intros k [Hk Hf]. split; [done|]. by rewrite Hs. Qed.

Definition grown (n : IdxNode.t) : IdxNode.t := IdxNode.with_size (IdxNode.size n +w DirEntry.bytes) n.

Lemma sync_entry_at_ok live m a n e l post j pre : ∀ i lbas io_buf (w : world),
  attached w → io_ok live m (dev w) → nodes w !! a = Some n → DirEntry.wf e →
  512 ≤ Z.of_nat (length io_buf) → Forall (full_block (dev w)) pre → 0 < l < 163839 →
  find_unused 0 (entries_of (sector (dev w) l)) = Some (Z.of_nat j) →
  runs (sync_entry_at a i (pre ++ l :: post) lbas e io_buf) w (λ r w', r.1 = true ∧ ∃ x',
    w' = with_nodes (<[a := grown n]> (nodes w)) (with_dev x' w) ∧ io_ok live m x'
    ∧ patched (512 * l + 28 * Z.of_nat j) (DirEntry.encode e) (dev w) x').
Proof.
  induction pre as [|k pre IH]; intros i lbas io_buf w Hd Hio Hn He Hb Hpre Hl Hj; cbn [app sync_entry_at].
  - destruct (Z.eqb_spec l 0); [lia|].
    apply (bind_read w live m); [done|done|lia|lia|lia|]. intros x1 Hio1 Hs1. rewrite sectors_1.
    pose proof (length_sector (dev w) l) as Hlen. pose proof (DirEntry.length_entry_encode e He) as Hle.
    destruct (splice_fits io_buf 0 (sector (dev w) l)) as [b1 E1]; [lia|].
    destruct (splice_inv _ 0 _ _ ltac:(lia) E1) as [Hlen1 _]. apply (bind_lift _ _ _ _ _ E1). rewrite Hj.
    destruct (find_unused_spec _ _ _ Hj) as (_ & old & Hold & _). rewrite Z.sub_0_r, Nat2Z.id in Hold.
    pose proof (lookup_lt_Some _ _ _ Hold) as Hj18. rewrite length_entries in Hj18.
    destruct (splice_fits b1 (Z.of_nat j * 28) (DirEntry.encode e)) as [b2 E2]; [lia|].
    destruct (splice_inv _ (Z.of_nat j * 28) _ _ ltac:(lia) E2) as [Hlen2 _]. apply (bind_lift _ _ _ _ _ E2).
    apply (bind_write _ live m); [done|done|lia|lia|lia|lia|]. intros x2 Hio2 Hst.
    unfold grow_dir. apply bind_assoc, (node_at_ok a n); [done|]. apply bind_modify, runs_ret.
    split; [done|]. exists x2. split; [done|]. split; [done|]. intros q Hq. rewrite <- (same_byte _ _ _ Hs1).
    rewrite <- (sectors_1 (dev w)), <- (sectors_same _ _ _ _ Hs1) in E1. rewrite (Z.mul_comm 28).
    by apply (read_modify_write x1 x2 l 1 _ _ io_buf b1 b2); [lia..|done|done|done|].
  - apply Forall_cons in Hpre as [[Hk Hf] Hpre]. destruct (Z.eqb_spec k 0); [lia|].
    apply (bind_read w live m); [done|done|lia|lia|lia|]. intros x1 Hio1 Hs1. rewrite sectors_1.
    pose proof (length_sector (dev w) k) as Hlen.
    destruct (splice_fits io_buf 0 (sector (dev w) k)) as [b1 E1]; [lia|].
    destruct (splice_inv _ 0 _ _ ltac:(lia) E1) as [Hlen1 _]. apply (bind_lift _ _ _ _ _ E1). rewrite Hf.
    eapply runs_mono; [apply IH; [exact Hd|exact Hio1|exact Hn|exact He|lia|by apply (full_blocks_same (dev w))|exact Hl|cbn [dev with_dev]; by rewrite Hs1]|].
    intros r w' (Hr & x' & -> & Hio' & Hp). split; [done|]. exists x'. split; [done|]. split; [done|].
    intros q Hq. rewrite <- (same_byte _ _ _ Hs1). by apply Hp.
Qed.
(** ** Searching and inserting *)

Definition dir_of (r : dir_ref) (w : world) : option Directory.t :=
  match r with RootDir => Some (root_dir w) | DirAt p => dirs w !! p end.

(** An open directory with the node [n] at [a]: its blocks are different sectors
    of the disk, and every name in them ends. *)
Record dir_ok (live : gmap Z MemInit.PoolType) (m : nat) (r : dir_ref) (a : Z) (n : IdxNode.t) (w : world) : Prop := {
  do_disk : attached w;
  do_io : io_ok live m (dev w);
  do_open : ∃ d, dir_of r w = Some d ∧ Directory.inode d = Some a;
  do_node : nodes w !! a = Some n;
  do_size : dir_size_ok n = true;
  do_table : in_disk (IdxNode.indirect_tab_lba_ n);
  do_blocks : Forall in_disk (node_blocks (dev w) n);
  do_apart : ∀ l, 0 < l → l ∈ node_blocks (dev w) n → l ≠ IdxNode.indirect_tab_lba_ n;
  do_distinct : NoDup (filter (λ b, 0 < b) (node_blocks (dev w) n));
  do_names : Forall terminated (dir_entries (dev w) (node_blocks (dev w) n))
}.

Lemma dir_at_ok {A} r d (w : world) (k : Directory.t → M world A) Q :
  dir_of r w = Some d → runs (k d) w Q → runs (dir_at r ≫= k) w Q.
Proof.
  intros Hd Hk. destruct r as [|p]; cbn in *.
  - injection Hd as <-. by apply bind_gets.
  - unfold dir_at. apply bind_assoc, bind_gets. apply (bind_lift _ d); [by rewrite Hd|done].
Qed.

Lemma DirNode_ok {A} r d a (w : world) (k : Z → M world A) Q :
  dir_of r w = Some d → Directory.inode d = Some a → runs (k a) w Q → runs (DirNode r ≫= k) w Q.
Proof.
  intros Hd Ha Hk. unfold DirNode. apply bind_assoc, (dir_at_ok r d); [done|]. apply bind_assoc, bind_assert.
  { unfold Directory.IsOpen. rewrite Ha. done. }
  apply (bind_lift _ a); [by rewrite Ha|done].
Qed.

(** What [SearchDirEntry] returns for every name that a path can have. *)
Definition searches (r : dir_ref) (w : world) (es : list DirEntry.t) : Prop :=
  ∀ v s, string_view.shows v s → s ≠ [] → Z.of_nat (length s) ≤ Path.max_len →
    runs (SearchDirEntry r v) w (λ found w', found = find_entry s es ∧ ∃ x', w' = with_dev x' w ∧ same_sectors (dev w) x').

Lemma SearchDirEntry_ok live m r a n (w : world) :
  dir_ok live m r a n w → searches r w (dir_entries (dev w) (node_blocks (dev w) n)).
Proof.
  intros [Hd Hio (d & Hr & Ha) Hn _ Ht Hb _ _ Hz] v s Hv Hs Hl. unfold SearchDirEntry.
  apply (dir_at_ok r d); [done|]. apply bind_assert; [unfold Directory.IsOpen; by rewrite Ha|].
  apply bind_assert.
  { rewrite (string_view.shows_empty _ _ Hv), bool_decide_eq_false_2 by done. apply Z.leb_le.
    unfold string_view.size. by destruct Hv as [-> _]. }
  apply (DirNode_ok r d a); [done|done|]. apply (node_at_ok a n); [done|].
  eapply runs_step; [by apply (LoadNodeLbas_ok live m)|]. intros lbas w1 (-> & x1 & -> & Hio1 & Hs1).
  eapply runs_mono; [apply (search_blocks_ok live m v s)|]; [done|done|done|done|..].
  - by rewrite (dir_entries_same _ _ _ Hs1).
  - cbn [dev with_dev]. intros found w' [-> (x' & -> & Hio' & Hs')].
    rewrite (dir_entries_same _ _ _ Hs1). split; [done|]. exists x'. split; [done|]. by eapply same_sectors_trans.
Qed.

(** A place in the directory: behind full blocks, the entry [j] of the block [l]. *)
Record place (x : io D H) (lbas : list Z) (pre : list Z) (l : Z) (j : nat) : Prop := {
  pl_blocks : ∃ post, lbas = pre ++ l :: post;
  pl_full : Forall (full_block x) pre;
  pl_used : 0 < l;
  pl_free : find_unused 0 (entries_of (sector x l)) = Some (Z.of_nat j)
}.
Definition place_index (pre : list Z) (j : nat) : nat := (18 * length pre + j)%nat.

Lemma length_full_entries (x : io D H) pre :
  Forall (full_block x) pre → length (dir_entries x pre) = (18 * length pre)%nat.
Proof.
  induction 1 as [|k pre [Hk _] Hpre IH]; [done|]. rewrite dir_entries_cons, length_app, IH. unfold block_entries.
  destruct (Z.eqb_spec k 0); [lia|]. rewrite length_entries. cbn [length]. lia.
Qed.

(** The entries of the directory with another one in the block [l]. *)
Lemma dir_entries_insert (x x' : io D H) pre l post j e :
  let lbas := pre ++ l :: post in
  0 < l → (j < 18)%nat → Forall in_disk lbas → NoDup (filter (λ b, 0 < b) lbas) →
  (∀ k, k ∈ lbas → 0 < k → k ≠ l → sector x' k = sector x k) →
  entries_of (sector x' l) = <[j := e]> (entries_of (sector x l)) →
  dir_entries x' lbas = <[(length (dir_entries x pre) + j)%nat := e]> (dir_entries x lbas).
Proof.
  intros lbas Hl Hj Hin Hnd Hs He.
  assert (Hrest : ∀ ls, ls ⊆ lbas → Forall in_disk ls → l ∉ filter (λ b, 0 < b) ls → dir_entries x' ls = dir_entries x ls).
  { clear - Hs Hl. intros ls Hsub Hls. induction Hls as [|k ls Hk Hls IH]; intros Hn; [done|].
    rewrite !dir_entries_cons. assert (l ∉ filter (λ b, 0 < b) ls) as Hn'.
    { intros Hc. apply Hn. rewrite list_elem_of_filter in *. destruct Hc. split; [done|by right]. }
    rewrite IH by (done || (intros k' Hk'; apply Hsub; by right)). f_equal.
    unfold block_entries. destruct (Z.eqb_spec k 0); [done|]. f_equal.
    apply Hs; [apply Hsub; by left|destruct Hk; lia|].
    intros ->. apply Hn. rewrite list_elem_of_filter. split; [done|by left]. }
  unfold lbas in *.
  apply Forall_app in Hin as [Hin1 [Hl' Hin2]%Forall_cons]. rewrite filter_app, filter_cons_True in Hnd by done.
  apply NoDup_app in Hnd as (_ & Hd1 & [Hd2 _]%NoDup_cons).
  rewrite !dir_entries_app, !dir_entries_cons.
  rewrite (Hrest pre), (Hrest post); try done;
    [|intros k Hk; apply elem_of_app; right; by right|intros k Hk; apply elem_of_app; by left
     |intros Hc; by apply (Hd1 _ Hc), list_elem_of_here].
  rewrite insert_app_r. f_equal. unfold block_entries. destruct (Z.eqb_spec l 0); [lia|].
  rewrite He, insert_app_l; [done|]. by rewrite length_entries.
Qed.

Lemma place_old (x : io D H) lbas pre l j :
  place x lbas pre l j → ∃ old, dir_entries x lbas !! place_index pre j = Some old ∧ DirEntry.type old = DirEntry.Unknown.
Proof.
  intros [(post & ->) Hf Hl Hj]. destruct (find_unused_spec _ _ _ Hj) as (_ & old & Hold & Ht).
  rewrite Z.sub_0_r, Nat2Z.id in Hold. exists old. split; [|done]. unfold place_index.
  rewrite dir_entries_app, <- (length_full_entries x pre Hf), lookup_app_r, Nat.add_comm, Nat.add_sub by lia.
  rewrite dir_entries_cons. unfold block_entries. destruct (Z.eqb_spec l 0); [lia|].
  rewrite lookup_app_l; [done|]. by eapply lookup_lt_Some.
Qed.
(** The directory with the node [n'], which has the same blocks, after an entry
    was written over another one. *)
Lemma dir_ok_changed live m r a n n' (w : world) x' pre l post j e :
  dir_ok live m r a n w → node_blocks (dev w) n = pre ++ l :: post → 0 < l → (j < 18)%nat →
  DirEntry.wf e → terminated e → io_ok live m x' →
  IdxNode.direct_lbas_ n' = IdxNode.direct_lbas_ n → IdxNode.indirect_tab_lba_ n' = IdxNode.indirect_tab_lba_ n →
  dir_size_ok n' = true →
  (∀ k, k ∈ IdxNode.indirect_tab_lba_ n :: node_blocks (dev w) n → 0 < k → k ≠ l → sector x' k = sector (dev w) k) →
  entries_of (sector x' l) = <[j := e]> (entries_of (sector (dev w) l)) →
  dir_ok live m r a n' (with_nodes (<[a := n']> (nodes w)) (with_dev x' w))
  ∧ node_blocks x' n' = node_blocks (dev w) n
  ∧ dir_entries x' (node_blocks (dev w) n)
    = <[(length (dir_entries (dev w) pre) + j)%nat := e]> (dir_entries (dev w) (node_blocks (dev w) n)).
Proof.
  intros [Hd Hio Ho Hn Hsz Ht Hb Hap Hnd Hz] Hpost Hl Hj He Hterm Hio' Hdir Htab Hsz' Hs Hes.
  assert (Hblocks : node_blocks x' n' = node_blocks (dev w) n).
  { unfold node_blocks. rewrite Hdir, Htab. case_match; [done|].
    rewrite Hs; [done|by left|destruct Ht; lia|]. intros Heq. apply (Hap l Hl); [|by rewrite <- Heq].
    rewrite Hpost. apply elem_of_app. right. by left. }
  assert (Hins : dir_entries x' (node_blocks (dev w) n)
    = <[(length (dir_entries (dev w) pre) + j)%nat := e]> (dir_entries (dev w) (node_blocks (dev w) n))).
  { rewrite Hpost in Hb, Hnd, Hs |- *. apply dir_entries_insert; try done. intros k Hk. apply Hs. by right. }
  split; [|done]. split; cbn [dev with_dev with_nodes nodes]; rewrite ?Hblocks, ?Htab; try done.
  - by rewrite lookup_insert_eq.
  - rewrite Hins. by apply Forall_insert.
Qed.

(** The directory after an entry was written in a place. *)
Lemma dir_ok_inserted live m r a n (w : world) x' pre l j e :
  dir_ok live m r a n w → place (dev w) (node_blocks (dev w) n) pre l j → DirEntry.wf e → terminated e →
  IdxNode.size n + DirEntry.bytes < 2 ^ 32 → io_ok live m x' →
  patched (512 * l + 28 * Z.of_nat j) (DirEntry.encode e) (dev w) x' →
  let w' := with_nodes (<[a := grown n]> (nodes w)) (with_dev x' w) in
  dir_ok live m r a (grown n) w' ∧ dir_entries x' (node_blocks x' (grown n))
    = <[place_index pre j := e]> (dir_entries (dev w) (node_blocks (dev w) n)).
Proof.
  intros Hdir Hpl He Hterm Hmax Hio' Hp. pose proof Hpl as [(post & Hpost) Hf Hl Hj].
  destruct (find_unused_spec _ _ _ Hj) as (_ & old & Hold & _). rewrite Z.sub_0_r, Nat2Z.id in Hold.
  apply lookup_lt_Some in Hold. rewrite length_entries in Hold.
  destruct (patched_sectors (dev w) x' l j e ltac:(lia) Hold He Hp) as [Hs Hes].
  destruct (dir_ok_changed live m r a n (grown n) w x' pre l post j e) as (Hdir' & Hblocks & Hins); try done.
  - pose proof (do_size _ _ _ _ _ _ Hdir) as Hsz. unfold dir_size_ok in *.
    apply andb_true_iff in Hsz as [Hlo%Z.leb_le Hmod%Z.eqb_eq].
    unfold grown, DirEntry.bytes, Directory.min_entry_count in *. cbn [IdxNode.size IdxNode.with_size].
    rewrite u32_small by lia. apply andb_true_iff. split; [apply Z.leb_le; lia|apply Z.eqb_eq; div_lia].
  - intros k _ Hk Hne. apply Hs; [lia|done].
  - split; [exact Hdir'|]. unfold place_index. by rewrite <- (length_full_entries (dev w) pre Hf), Hblocks, Hins.
Qed.

(** C8. A directory is a map from names to entries. In an open directory, whose
    blocks are different sectors and whose names end, [SearchDirEntry] of any
    name that a path can have returns the first entry with it. When no entry has
    the name of [e] and the first entry that is not in use, behind full blocks,
    has no name, [SyncDirEntry] returns [true] after it changed the 28 bytes of
    that entry on the disk and nothing else, and the size of the node: the
    entries are the old ones with [e] in that place, the directory is again one
    in which [SearchDirEntry] can search, and it returns [e] for the name of [e]
    and for every other name what it returned before. *)
Theorem SyncDirEntry_SearchDirEntry live m r a n (w : world) pre l j e io_buf :
  let es := dir_entries (dev w) (node_blocks (dev w) n) in
  dir_ok live m r a n w → place (dev w) (node_blocks (dev w) n) pre l j →
  (∀ old, es !! place_index pre j = Some old → ename old = []) →
  DirEntry.wf e → terminated e → find_entry (ename e) es = None →
  IdxNode.size n + DirEntry.bytes < 2 ^ 32 → sector_size ≤ Z.of_nat (length io_buf) →
  searches r w es
  ∧ runs (SyncDirEntry r e io_buf) w (λ ok w',
      let es' := dir_entries (dev w') (node_blocks (dev w') (grown n)) in
      ok.1 = true ∧ dir_ok live m r a (grown n) w'
      ∧ patched (512 * l + 28 * Z.of_nat j) (DirEntry.encode e) (dev w) (dev w')
      ∧ es' = <[place_index pre j := e]> es ∧ searches r w' es'
      ∧ ∀ s, s ≠ [] → find_entry s es' = if decide (s = ename e) then Some e else find_entry s es).
Proof.
  intros es Hdir Hpl Hun He Hterm Hnew Hmax Hb. split; [by eapply SearchDirEntry_ok|].
  pose proof Hdir as [Hd Hio (d & Hr & Ha) Hn Hsz Ht Hblocks _ _ _].
  pose proof Hpl as [(post & Hpost) Hf Hl Hj]. unfold SyncDirEntry.
  apply bind_assert; [by apply Z.leb_le|]. apply (DirNode_ok r d a); [done|done|]. apply (node_at_ok a n); [done|].
  apply bind_assert; [done|]. eapply runs_step; [by apply (LoadNodeLbas_ok live m)|].
  intros lbas w1 (-> & x1 & -> & Hio1 & Hs1). rewrite Hpost at 1.
  assert (0 < l < 163839) as Hl'.
  { rewrite Hpost in Hblocks. apply Forall_app in Hblocks as [_ [[]  _]%Forall_cons]; [lia|done]. }
  eapply runs_mono; [apply (sync_entry_at_ok live m a n e l post j pre)|]; cbn [dev with_dev];
    [done|done|done|done|done|by apply (full_blocks_same (dev w))|done|by rewrite Hs1|].
  intros [ok buf] w' (Hok & x' & -> & Hio' & Hp). split; [done|]. cbn [dev with_dev with_nodes nodes].
  assert (Hp' : patched (512 * l + 28 * Z.of_nat j) (DirEntry.encode e) (dev w) x').
  { intros q Hq. rewrite <- (same_byte _ _ _ Hs1). by apply Hp. }
  destruct (dir_ok_inserted live m r a n w x' pre l j e) as [Hdir' Hins]; try done.
  split; [done|]. split; [done|]. split; [done|]. split; [by eapply SearchDirEntry_ok|].
  intros s Hs. rewrite Hins. destruct (place_old _ _ _ _ _ Hpl) as (old & Hold & _).
  apply (find_entry_insert s _ _ old); [done| |done]. by rewrite (Hun old Hold).
Qed.
End map.

(** ** A root directory with its two entries *)

#[local] Existing Instance Ram.ram_store.
#[local] Existing Instance Ram.ram_store_laws.
#[local] Existing Instance Ram.ram_heap.
#[local] Existing Instance Ram.ram_heap_laws.

Definition demo_entry (ty : Z) (s : list Z) (idx : Z) : DirEntry.t :=
  DirEntry.mk ty (s ++ replicate (17 - length s) 0) [0; 0; 0] idx.
Definition demo_dir_disk : io Ram.disk Ram.heap :=
  ({[ 674 := DirEntry.encode (demo_entry DirEntry.Directory [46] 0)
    ++ DirEntry.encode (demo_entry DirEntry.Directory [46; 46] 0) ]}, snd Ram.fresh).
Definition demo_dir_node : IdxNode.t := IdxNode.mk 0 56 1 false [0; 0; 0] (674 :: replicate 11 0) 0.
Definition demo_dir : FilePart.world Ram.disk Ram.heap :=
  with_root_dir (Directory.mk (Some 0x2000) 0) (demo_world demo_dir_disk {[ 0x2000 := demo_dir_node ]} []).

(** The file "a" with node 1 is added. *)
Lemma SyncDirEntry_SearchDirEntry_witness :
  let e := demo_entry DirEntry.Regular [97] 1 in
  let es := dir_entries (dev demo_dir) (node_blocks (dev demo_dir) demo_dir_node) in
  searches RootDir demo_dir es
  ∧ runs (SyncDirEntry RootDir e (zeros 1024)) demo_dir (λ ok w',
      let es' := dir_entries (dev w') (node_blocks (dev w') (grown demo_dir_node)) in
      ok.1 = true ∧ dir_ok ∅ 0 RootDir 0x2000 (grown demo_dir_node) w'
      ∧ patched (512 * 674 + 28 * Z.of_nat 2) (DirEntry.encode e) (dev demo_dir) (dev w')
      ∧ es' = <[place_index [] 2 := e]> es ∧ searches RootDir w' es'
      ∧ ∀ s, s ≠ [] → find_entry s es' = if decide (s = ename e) then Some e else find_entry s es).
Proof.
  apply (SyncDirEntry_SearchDirEntry ∅ 0 RootDir 0x2000 demo_dir_node demo_dir [] 674 2
    (demo_entry DirEntry.Regular [97] 1) (zeros 1024)).
  - split; try done; [apply (Ram.fresh_ok 0)|by eexists|..].
    + by left.
    + apply Forall_cons; split; [by right|]. apply Forall_forall. intros l Hl. left.
      vm_compute in Hl. repeat (apply elem_of_cons in Hl as [->|Hl]; [done|]). by apply elem_of_nil in Hl.
    + intros l Hl _. cbn. lia.
    + apply (bool_decide_unpack _). by vm_compute.
    + apply (bool_decide_unpack _). by vm_compute.
  - split; [by eexists|by apply Forall_nil_2|done|by vm_compute].
  - intros old Hold. vm_compute in Hold. by injection Hold as <-.
  - by split.
  - apply (bool_decide_unpack _). by vm_compute.
  - by vm_compute.
  - done.
  - done.
Defined.
End DirMap.
