(* ===== verification/FsDirDel.v ===== *)
(** * Deleting entries of directories

    On the map that a directory is in FsDirMap, [DeleteDirEntry] deletes the
    entry of a node. *)
From S2P Require Import Prelude UtilBit UtilBitmap StlString IoPath IoFileDesc MemPool IoDisk FsBase IoPart FsData FsFormat FsPart FsFile FsDir FsDirMap.
Import metric.

Module DirDel.
Import Bytes FilePart FsFile FsDir DirMap.

(** ** The entry of a node *)

Definition used (e : DirEntry.t) : bool := negb (DirEntry.type e =? DirEntry.Unknown).
Definition dot : list Z := [46].
Definition dotdot : list Z := [46; 46].
Definition names_node (idx : Z) (e : DirEntry.t) : bool :=
  negb (bool_decide (ename e = dot)) && negb (bool_decide (ename e = dotdot)) && (DirEntry.inode_idx e =? idx).
Definition target (idx : Z) (e : DirEntry.t) : bool := used e && names_node idx e.
Definition count_used (es : list DirEntry.t) : Z := Z.of_nat (length (filter (λ e, used e = true) es)).

Lemma count_used_cons e es : count_used (e :: es) = (if used e then 1 else 0) + count_used es.
Proof. unfold count_used. rewrite filter_cons. destruct (used e); cbn [length]; case_decide; cbn [length]; (done || lia). Qed.

Lemma entry_of_node_ok idx e : terminated e → entry_of_node idx e = Ok (names_node idx e).
Proof.
  intros He. unfold entry_of_node.
  rewrite (name_is_ok Path.curr_dir_name dot e) by (done || (apply Path.literal_shows; by apply (bool_decide_unpack _))).
  rewrite res_bind_ok. rewrite (name_is_ok Path.parent_dir_name dotdot e) by (done || (apply Path.literal_shows; by apply (bool_decide_unpack _))).
  done.
Qed.

(** A block without the entry, and one with it. *)
Lemma scan_block_none idx es : Forall terminated es → Forall (λ e, target idx e = false) es → ∀ j c f,
  scan_block idx j es c f = Ok (c + count_used es, f).
Proof.
  induction 1 as [|e es He Hes IH]; intros Hn j c f; [unfold count_used; cbn; by rewrite Z.add_0_r|].
  apply Forall_cons in Hn as [Ht Hn]. cbn [scan_block]. rewrite count_used_cons. unfold target, used in *.
  destruct (DirEntry.type e =? DirEntry.Unknown); cbn [negb andb] in *.
  - rewrite (IH Hn). do 2 f_equal.
  - rewrite (entry_of_node_ok idx e He), res_bind_ok, Ht, (IH Hn). do 2 f_equal. lia.
Qed.

Lemma scan_block_one idx es1 e es2 :
  Forall terminated (es1 ++ e :: es2) → target idx e = true →
  Forall (λ e, target idx e = false) es1 → Forall (λ e, target idx e = false) es2 → ∀ j c,
  scan_block idx j (es1 ++ e :: es2) c None
  = Ok (c + count_used (es1 ++ e :: es2), Some (j + Z.of_nat (length es1))).
Proof.
  intros Ht He H1 H2. induction H1 as [|e1 es1 Hf H1 IH]; intros j c;
    cbn [app] in *; apply Forall_cons in Ht as [Ht1 Ht]; cbn [scan_block]; rewrite count_used_cons.
  - unfold target in He. apply andb_true_iff in He as [Hu Hn]. unfold used in Hu |- *. rewrite Hu.
    rewrite (entry_of_node_ok idx e Ht1), res_bind_ok, Hn. cbn [bool_decide Assert mbind res_bind].
    rewrite bool_decide_eq_true_2 by done. cbn [Assert mbind res_bind].
    rewrite (scan_block_none idx es2 Ht H2). do 2 f_equal; [lia|f_equal; cbn; lia].
  - unfold target, used in *. destruct (DirEntry.type e1 =? DirEntry.Unknown); cbn [negb andb] in *.
    + rewrite (IH Ht). do 2 f_equal. cbn [length]. f_equal. lia.
    + rewrite (entry_of_node_ok idx e1 Ht1), res_bind_ok, Hf, (IH Ht). do 2 f_equal; [lia|].
      cbn [length]. f_equal. lia.
Qed.

(** A cleared entry has no name. *)
Lemma find_entry_delete s es k e :
  es !! k = Some e → (∀ k' e', es !! k' = Some e' → ename e' = ename e → k' = k) → s ≠ [] →
  find_entry s (<[k := DirEntry.cleared]> es) = if decide (s = ename e) then None else find_entry s es.
Proof.
  intros Hk Hu Hs. revert k Hk Hu. induction es as [|e1 es IH]; intros [|k] Hk Hu; try done.
  - injection Hk as ->. change (<[0%nat := DirEntry.cleared]> (e :: es)) with (DirEntry.cleared :: es).
    rewrite !find_entry_cons. rewrite decide_False by (by intros <-).
    repeat case_decide; try congruence. subst s.
    clear IH. unfold find_entry. apply fmap_None, list_find_None, Forall_lookup. intros i e' Hi E.
    by specialize (Hu (S i) e' Hi E).
  - change (<[S k := DirEntry.cleared]> (e1 :: es)) with (e1 :: <[k := DirEntry.cleared]> es).
    rewrite !find_entry_cons. rewrite (IH k Hk).
    + case_decide as E1; case_decide as E2; try done. exfalso. subst s. by specialize (Hu 0%nat e1 eq_refl E2).
    + intros k' e' Hk' E. specialize (Hu (S k') e' Hk' E). lia.
Qed.

Section del.
Context {D H : Type} `{Store D} `{Heap H} `{!StoreLaws D} `{!HeapLaws H}.
Local Abbreviation world := (FilePart.world D H).

Definition shrunk (n : IdxNode.t) : IdxNode.t := IdxNode.with_size (IdxNode.size n -w DirEntry.bytes) n.

(** The entry [j] of the block [l] is the one of the node [idx], and it is one
    of at least four in its block. *)
Record removable (idx : Z) (x : io D H) (lbas pre : list Z) (l : Z) (j : nat) (e : DirEntry.t) : Prop := {
  rv_blocks : ∃ post, lbas = pre ++ l :: post;
  rv_before : Forall (λ k, k ≠ 0 → 2 ≤ count_used (entries_of (sector x k))) pre;
  rv_used : 0 < l;
  rv_count : 4 ≤ count_used (entries_of (sector x l));
  rv_entry : entries_of (sector x l) !! j = Some e;
  rv_target : target idx e = true;
  rv_only : ∀ k e', dir_entries x lbas !! k = Some e' → target idx e' = true → k = (length (dir_entries x pre) + j)%nat
}.

Lemma cleared_bytes : DirEntry.encode DirEntry.cleared = zeros DirEntry.bytes.
Proof. reflexivity. Qed.
Lemma cleared_wf : DirEntry.wf DirEntry.cleared.
Proof. by split. Qed.
Lemma cleared_terminated : terminated DirEntry.cleared.
Proof. by left. Qed.

Lemma mounted_nodes bits b (w : world) ns : mounted bits b w → mounted bits b (with_nodes ns w).
Proof. by intros []. Qed.

(** The blocks before do not have the entry, and its block has it once. *)
Lemma removable_before idx (x : io D H) lbas pre l j e :
  removable idx x lbas pre l j e → Forall terminated (dir_entries x lbas) →
  Forall (λ k, k ≠ 0 → Forall terminated (entries_of (sector x k))
    ∧ 2 ≤ count_used (entries_of (sector x k))
    ∧ Forall (λ e, target idx e = false) (entries_of (sector x k))) pre.
Proof.
  intros [(post & ->) Hb _ _ _ _ Ho] Ht. apply Forall_forall. intros k Hk Hk0.
  apply list_elem_of_split in Hk as (p1 & p2 & ->).
  pose proof (proj1 (Forall_forall _ _) Hb k ltac:(apply elem_of_app; right; by left) Hk0) as Hc.
  assert (Hin : ∀ i e', entries_of (sector x k) !! i = Some e' →
    dir_entries x ((p1 ++ k :: p2) ++ l :: post) !! (length (dir_entries x p1) + i)%nat = Some e').
  { intros i e' Hi. rewrite <- app_assoc. cbn [app]. rewrite dir_entries_app, dir_entries_cons.
    rewrite lookup_app_r, Nat.add_comm, Nat.add_sub by lia. unfold block_entries.
    destruct (Z.eqb_spec k 0); [done|]. rewrite lookup_app_l; [done|by eapply lookup_lt_Some]. }
  split; [|split; [done|]]; apply Forall_lookup; intros i e' Hi.
  - apply (proj1 (Forall_forall _ _) Ht). by eapply list_elem_of_lookup_2, Hin.
  - apply not_true_is_false. intros He. specialize (Ho _ _ (Hin i e' Hi) He).
    rewrite dir_entries_app, length_app, dir_entries_cons, length_app in Ho. unfold block_entries in Ho.
    destruct (Z.eqb_spec k 0); [done|]. rewrite length_entries in Ho. pose proof (lookup_lt_Some _ _ _ Hi) as Hlt.
    rewrite length_entries in Hlt. lia.
Qed.

Lemma removable_index idx (x : io D H) lbas pre l j e i e' :
  removable idx x lbas pre l j e → entries_of (sector x l) !! i = Some e' →
  dir_entries x lbas !! (length (dir_entries x pre) + i)%nat = Some e'.
Proof.
  intros [(post & ->) _ Hl _ _ _ _] Hi. rewrite dir_entries_app, dir_entries_cons.
  rewrite lookup_app_r, Nat.add_comm, Nat.add_sub by lia. unfold block_entries.
  destruct (Z.eqb_spec l 0); [lia|]. rewrite lookup_app_l; [done|by eapply lookup_lt_Some].
Qed.

Lemma removable_scan idx (x : io D H) lbas pre l j e :
  removable idx x lbas pre l j e → Forall terminated (dir_entries x lbas) →
  scan_block idx 0 (entries_of (sector x l)) 0 None
  = Ok (count_used (entries_of (sector x l)), Some (Z.of_nat j)).
Proof.
  intros Hr Ht. pose proof Hr as [_ _ _ _ He Htg Ho].
  assert (Hall : Forall terminated (entries_of (sector x l))).
  { apply Forall_lookup. intros i e' Hi. apply (proj1 (Forall_forall _ _) Ht).
    by eapply list_elem_of_lookup_2, removable_index. }
  assert (Hother : ∀ i e', entries_of (sector x l) !! i = Some e' → i ≠ j → target idx e' = false).
  { intros i e' Hi Hne. apply not_true_is_false. intros Hte.
    specialize (Ho _ _ (removable_index _ _ _ _ _ _ _ _ _ Hr Hi) Hte). lia. }
  pose proof (lookup_lt_Some _ _ _ He) as Hj. rewrite <- (take_drop_middle _ _ _ He) in Hall, Hother |- *.
  set (es1 := take j (entries_of (sector x l))) in *. set (es2 := drop (S j) (entries_of (sector x l))) in *.
  assert (Hl1 : length es1 = j) by (unfold es1; rewrite length_take; lia).
  rewrite (scan_block_one idx es1 e es2 Hall Htg); [by rewrite Hl1| |].
  - apply Forall_lookup. intros i e' Hi. pose proof (lookup_lt_Some _ _ _ Hi). apply (Hother i); [|lia].
    by rewrite lookup_app_l by lia.
  - apply Forall_lookup. intros i e' Hi. apply (Hother (length es1 + S i)%nat); [|lia].
    rewrite lookup_app_r by lia. by replace (length es1 + S i - length es1)%nat with (S i) by lia.
Qed.

(** The disk after the deletion: the entry [p] is cleared and the node saved. *)
Definition deleted_bytes (b : SuperBlock.t) (n' : IdxNode.t) (p : Z) (x x' : io D H) : Prop :=
  ∃ x1, patched p (DirEntry.encode DirEntry.cleared) x x1
    ∧ patched (node_addr b (IdxNode.idx n')) (IdxNode.encode (IdxNode.CloneToPure n')) x1 x'.

Lemma delete_entry_at_ok bits b live m a n idx l j post pre : ∀ i lbas io_buf (w : world),
  mounted bits b w → io_ok live m (dev w) → nodes w !! a = Some n → IdxNode.wf n → 0 ≤ IdxNode.idx n < 4096 →
  IdxNode.wf (shrunk n) → 1024 ≤ Z.of_nat (length io_buf) → Forall in_disk (pre ++ [l]) → 0 < l →
  (j < 18)%nat → 4 ≤ count_used (entries_of (sector (dev w) l)) →
  scan_block idx 0 (entries_of (sector (dev w) l)) 0 None = Ok (count_used (entries_of (sector (dev w) l)), Some (Z.of_nat j)) →
  Forall (λ k, k ≠ 0 → Forall terminated (entries_of (sector (dev w) k))
    ∧ 2 ≤ count_used (entries_of (sector (dev w) k))
    ∧ Forall (λ e, target idx e = false) (entries_of (sector (dev w) k))) pre →
  runs (delete_entry_at a idx i (pre ++ l :: post) lbas io_buf) w (λ r w', r.1 = true ∧ ∃ x',
    w' = with_dev x' (with_nodes (<[a := shrunk n]> (nodes w)) w) ∧ io_ok live m x'
    ∧ deleted_bytes b (shrunk n) (512 * l + 28 * Z.of_nat j) (dev w) x').
Proof.
  induction pre as [|k pre IH]; intros i lbas io_buf w Hm Hio Hn Hwf Hidx Hwf' Hb Hin Hl Hj Hc Hscan Hpre;
    cbn [app delete_entry_at].
  - destruct (Z.eqb_spec l 0); [lia|]. cbn [app] in Hin. apply Forall_cons in Hin as [[|Hl'] _]; [lia|].
    apply (bind_read w live m); [by destruct Hm|done|lia|lia|lia|]. intros x1 Hio1 Hs1. rewrite sectors_1.
    pose proof (length_sector (dev w) l) as Hlen.
    assert (Hz : length (zeros (Z.of_nat (length io_buf))) = length io_buf) by (unfold zeros; rewrite length_replicate; lia).
    destruct (splice_fits (zeros (Z.of_nat (length io_buf))) 0 (sector (dev w) l)) as [b1 E1]; [lia|].
    destruct (splice_inv _ 0 _ _ ltac:(lia) E1) as [Hlen1 _]. apply (bind_lift _ _ _ _ _ E1).
    apply (bind_lift _ _ _ _ _ Hscan). cbn beta iota.
    apply bind_assert; [apply Z.leb_le; change Directory.min_entry_count with 2; lia|].
    change (Directory.min_entry_count + 1) with 3. destruct (Z.eqb_spec (count_used (entries_of (sector (dev w) l))) 3); [lia|].
    destruct (splice_fits b1 (Z.of_nat j * DirEntry.bytes) (zeros DirEntry.bytes)) as [b2 E2].
    { change (length (zeros DirEntry.bytes)) with 28%nat. unfold DirEntry.bytes. lia. }
    destruct (splice_inv _ (Z.of_nat j * DirEntry.bytes) _ _ ltac:(unfold DirEntry.bytes; lia) E2) as [Hlen2 _].
    apply bind_assoc, (bind_lift _ _ _ _ _ E2), bind_assoc.
    apply (bind_write _ live m); [by destruct Hm|done|lia|lia|lia|lia|]. intros x2 Hio2 Hst. apply bind_ret.
    apply (node_at_ok a n); [done|]. cbv zeta. fold (shrunk n). unfold set_node. apply bind_modify.
    eapply runs_step; [apply (SyncNode_ok bits b _ live m); [by apply mounted_nodes, mounted_dev, mounted_dev|done|done|done|lia]|].
    intros buf w' (x3 & -> & Hio3 & _ & Hp3). apply runs_ret. split; [done|]. exists x3. split; [done|]. split; [done|].
    exists x2. split; [|exact Hp3]. intros q Hq. rewrite <- (same_byte _ _ _ Hs1). rewrite cleared_bytes.
    rewrite <- (sectors_1 (dev w)), <- (sectors_same _ _ _ _ Hs1) in E1. rewrite (Z.mul_comm 28).
    apply (read_modify_write x1 x2 l 1 _ _ (zeros (Z.of_nat (length io_buf))) b1 b2); try done; try lia.
    + change (length (zeros DirEntry.bytes)) with 28%nat. lia.
  - apply Forall_cons in Hpre as [Hk Hpre]. cbn [app] in Hin. apply Forall_cons in Hin as [Hkd Hin].
    destruct (Z.eqb_spec k 0) as [Hk0|Hk0]; [by apply IH|]. destruct Hkd as [|Hkd]; [done|].
    destruct (Hk Hk0) as (Ht & Hc2 & Hnt).
    apply (bind_read w live m); [by destruct Hm|done|lia|lia|lia|]. intros x1 Hio1 Hs1. rewrite sectors_1.
    pose proof (length_sector (dev w) k) as Hlen.
    assert (Hz : length (zeros (Z.of_nat (length io_buf))) = length io_buf) by (unfold zeros; rewrite length_replicate; lia).
    destruct (splice_fits (zeros (Z.of_nat (length io_buf))) 0 (sector (dev w) k)) as [b1 E1]; [lia|].
    destruct (splice_inv _ 0 _ _ ltac:(lia) E1) as [Hlen1 _]. apply (bind_lift _ _ _ _ _ E1).
    apply (bind_lift _ _ _ _ _ (scan_block_none idx _ Ht Hnt 0 0 None)). cbn beta iota.
    apply bind_assert; [apply Z.leb_le; change Directory.min_entry_count with 2; lia|].
    eapply runs_mono; [apply (IH (i + 1) lbas b1); cbn [dev with_dev]; rewrite ?Hs1; try done;
      [by apply mounted_dev|lia|]|].
    + eapply Forall_impl; [exact Hpre|]. cbn beta. intros k' Hk'. by rewrite Hs1.
    + intros r w' (Hr & x' & -> & Hio' & x2 & Hp1 & Hp2). split; [done|]. exists x'. split; [done|]. split; [done|].
      exists x2. split; [|done]. intros q Hq. rewrite <- (same_byte _ _ _ Hs1). by apply Hp1.
Qed.

Lemma shrunk_wf n : IdxNode.wf n → IdxNode.wf (shrunk n).
Proof.
  intros [Hw Hp Hd Hl]. split; [|done|done|done].
  apply Forall_cons in Hw as [Hi Hw]. apply Forall_cons in Hw as [_ Hw].
  apply Forall_cons; split; [done|]. apply Forall_cons; split; [apply u32_range|done].
Qed.

(** The blocks of a directory are behind the nodes. *)
Definition in_data (b : SuperBlock.t) (x : io D H) (n : IdxNode.t) : Prop :=
  Forall (λ k, k = 0 ∨ SuperBlock.data_start_lba b ≤ k) (IdxNode.indirect_tab_lba_ n :: node_blocks x n).

(** The directory after the deletion. *)
Lemma dir_ok_deleted bits b live m r a n (w : world) x' pre l post j :
  dir_ok live m r a n w → mounted bits b w → IdxNode.wf n → 0 ≤ IdxNode.idx n < 4096 → 3 * DirEntry.bytes ≤ IdxNode.size n →
  in_data b (dev w) n → node_blocks (dev w) n = pre ++ l :: post → 0 < l → (j < 18)%nat → io_ok live m x' →
  deleted_bytes b (shrunk n) (512 * l + 28 * Z.of_nat j) (dev w) x' →
  dir_ok live m r a (shrunk n) (with_dev x' (with_nodes (<[a := shrunk n]> (nodes w)) w))
  ∧ node_blocks x' (shrunk n) = node_blocks (dev w) n
  ∧ dir_entries x' (node_blocks (dev w) n)
    = <[(length (dir_entries (dev w) pre) + j)%nat := DirEntry.cleared]> (dir_entries (dev w) (node_blocks (dev w) n)).
Proof.
  intros Hdir Hm Hwf Hidx Hsz Hdata Hpost Hl Hj Hio' (x1 & Hp1 & Hp2).
  destruct (patched_sectors (dev w) x1 l j _ ltac:(lia) Hj cleared_wf Hp1) as [Hs Hes].
  destruct (node_addr_range bits b w _ Hm Hidx) as [_ Hfront].
  assert (Hfar : ∀ k, k ∈ IdxNode.indirect_tab_lba_ n :: node_blocks (dev w) n → 0 < k → sector x' k = sector x1 k).
  { intros k Hk Hk0. apply (proj1 (Forall_forall _ _) Hdata) in Hk as [|Hk]; [lia|].
    apply (patched_sector x1 x' _ _ k ltac:(lia) Hp2). right.
    rewrite IdxNode.length_node_encode by (by apply wf_pure, shrunk_wf). cbn [shrunk IdxNode.with_size IdxNode.idx]. lia. }
  change (with_dev x' (with_nodes ?ns w)) with (with_nodes ns (with_dev x' w)).
  apply (dir_ok_changed live m r a n (shrunk n) w x' pre l post j); try done.
  - apply cleared_terminated.
  - pose proof (do_size _ _ _ _ _ _ Hdir) as Hsz'. destruct Hwf as [Hw _ _ _].
    apply Forall_cons in Hw as [_ Hw]. apply Forall_cons in Hw as [[_ Hmax] _].
    unfold dir_size_ok in *. apply andb_true_iff in Hsz' as [_ Hmod%Z.eqb_eq].
    unfold shrunk, DirEntry.bytes, Directory.min_entry_count in *. cbn [IdxNode.size IdxNode.with_size].
    rewrite u32_small by lia. apply andb_true_iff. split; [apply Z.leb_le; lia|apply Z.eqb_eq; div_lia].
  - intros k Hk Hk0 Hne. rewrite (Hfar k Hk Hk0). apply Hs; [lia|done].
  - rewrite Hfar; [done| |done]. rewrite Hpost. right. apply elem_of_app. right. by left.
Qed.

(** C9. Deleting the entry of a node from a directory, the map of names to
    entries. When the directory has one entry for the node [idx], its name is
    that of no other entry, the block with it has at least four entries in use
    and the blocks before at least two, [DeleteDirEntry] returns [true]; the 28
    bytes of the entry are cleared on the disk, the node is smaller by one entry
    in memory and on the disk, and no other byte of the disk changes; the
    directory is again one in which [SearchDirEntry] can search, it finds nothing
    under the name of the entry, and under every other name what it found
    before. *)
Theorem DeleteDirEntry_SearchDirEntry bits b live m r a n idx (w : world) pre l j e io_buf :
  let es := dir_entries (dev w) (node_blocks (dev w) n) in
  let p := 512 * l + 28 * Z.of_nat j in
  dir_ok live m r a n w → mounted bits b w → IdxNode.wf n → 0 ≤ IdxNode.idx n < 4096 →
  3 * DirEntry.bytes ≤ IdxNode.size n → in_data b (dev w) n →
  removable idx (dev w) (node_blocks (dev w) n) pre l j e →
  (∀ k e', es !! k = Some e' → ename e' = ename e → k = (length (dir_entries (dev w) pre) + j)%nat) →
  2 * sector_size ≤ Z.of_nat (length io_buf) →
  runs (DeleteDirEntry r idx io_buf) w (λ ok w',
    let es' := dir_entries (dev w') (node_blocks (dev w') (shrunk n)) in
    ok.1 = true ∧ nodes w' = <[a := shrunk n]> (nodes w) ∧ dir_ok live m r a (shrunk n) w'
    ∧ bytes_from (dev w') (node_addr b (IdxNode.idx n)) (IdxNode.encode (IdxNode.CloneToPure (shrunk n)))
    ∧ es' = <[(length (dir_entries (dev w) pre) + j)%nat := DirEntry.cleared]> es
    ∧ searches r w' es'
    ∧ (∀ s, s ≠ [] → find_entry s es' = if decide (s = ename e) then None else find_entry s es)
    ∧ ∀ q, 0 ≤ q → ¬ (p ≤ q < p + 28) → ¬ (node_addr b (IdxNode.idx n) ≤ q < node_addr b (IdxNode.idx n) + 76) →
        disk_byte (dev w') q = disk_byte (dev w) q).
Proof.
  intros es p Hdir Hm Hwf Hidx Hsz Hdata Hrv Hname Hb. unfold DeleteDirEntry.
  pose proof Hdir as [Hd Hio (d & Hr & Ha) Hn Hsize Ht Hblocks _ _ Hz]. unfold sector_size in Hb.
  apply bind_assert; [by apply Z.leb_le|]. apply (DirNode_ok r d a); [done|done|]. apply (node_at_ok a n); [done|].
  apply bind_assert; [done|]. eapply runs_step; [by apply (LoadNodeLbas_ok live m)|].
  intros lbas w1 (-> & x1 & -> & Hio1 & Hs1). pose proof Hrv as [(post & Hpost) _ Hl Hc He _ _]. rewrite Hpost at 1.
  pose proof (lookup_lt_Some _ _ _ He) as Hj. rewrite length_entries in Hj.
  eapply runs_mono; [apply (delete_entry_at_ok bits b live m a n idx l j post pre); cbn [dev with_dev]; rewrite ?Hs1; try done|].
  - by apply mounted_dev.
  - by apply shrunk_wf.
  - rewrite Hpost in Hblocks. apply Forall_app in Hblocks as [Hpre [Hl' _]%Forall_cons].
    apply Forall_app. split; [done|by apply Forall_singleton].
  - by eapply removable_scan.
  - eapply Forall_impl; [by eapply removable_before|]. cbn beta. intros k Hk. by rewrite Hs1.
  - intros [ok buf] w' (Hok & x' & -> & Hio' & x2 & Hp1 & Hp2). cbn [dev with_dev with_nodes nodes] in *.
    assert (Hdel : deleted_bytes b (shrunk n) p (dev w) x').
    { exists x2. split; [|done]. intros q Hq. rewrite <- (same_byte _ _ _ Hs1). by apply Hp1. }
    destruct (dir_ok_deleted bits b live m r a n w x' pre l post j) as (Hdir' & Hnb & Hins); try done.
    split; [done|]. split; [done|]. split; [exact Hdir'|]. split; [|split; [by rewrite Hnb|split; [|split]]].
    + apply (patched_from _ _ x2); [|exact Hp2]. pose proof (node_addr_range bits b w _ Hm Hidx).
      pose proof Hm as [_ _ _ _ [_ _ _ _ Ebb Hbits _ Eib _ Ein _ Eda _ _] [Hs Hrg] _ _]. lia.
    + eapply SearchDirEntry_ok. exact Hdir'.
    + intros s Hs. rewrite Hnb, Hins. apply find_entry_delete; [|done|done]. by eapply removable_index.
    + intros q Hq Hq1 Hq2. destruct Hdel as (x3 & Hp3 & Hp4). rewrite Hp4, Hp3 by done.
      rewrite IdxNode.length_node_encode by (by apply wf_pure, shrunk_wf).
      change (length (DirEntry.encode DirEntry.cleared)) with 28%nat. cbn [shrunk IdxNode.with_size IdxNode.idx].
      rewrite !(proj2 (andb_false_iff _ _)); [done|..];
        rewrite Z.leb_gt, Z.ltb_ge; lia.
Qed.
End del.

(** ** A root directory with two files *)

#[local] Existing Instance Ram.ram_store.
#[local] Existing Instance Ram.ram_store_laws.
#[local] Existing Instance Ram.ram_heap.
#[local] Existing Instance Ram.ram_heap_laws.

Definition demo_files_disk : io Ram.disk Ram.heap :=
  ({[ 675 := concat (DirEntry.encode <$> [demo_entry DirEntry.Directory dot 0; demo_entry DirEntry.Directory dotdot 0;
      demo_entry DirEntry.Regular [97] 1; demo_entry DirEntry.Regular [98] 2]) ]}, snd Ram.fresh).
Definition demo_files_node : IdxNode.t := IdxNode.mk 0 112 1 false [0; 0; 0] (675 :: replicate 11 0) 0.
Definition demo_files_dir : FilePart.world Ram.disk Ram.heap :=
  with_root_dir (Directory.mk (Some 0x2000) 0) (demo_world demo_files_disk {[ 0x2000 := demo_files_node ]} []).

(** The entries as they are, for lookups at every place. *)
Definition demo_entries : list DirEntry.t :=
  [demo_entry DirEntry.Directory dot 0; demo_entry DirEntry.Directory dotdot 0;
   demo_entry DirEntry.Regular [97] 1; demo_entry DirEntry.Regular [98] 2] ++ replicate 14 DirEntry.cleared.
Lemma demo_entries_eq : dir_entries (dev demo_files_dir) (node_blocks (dev demo_files_dir) demo_files_node) = demo_entries.
Proof. by vm_compute. Qed.

Lemma demo_files_ok : dir_ok ∅ 0 RootDir 0x2000 demo_files_node demo_files_dir.
Proof.
  split; try done; [apply (Ram.fresh_ok 0)|by eexists|..].
  - by left.
  - apply Forall_cons; split; [by right|]. apply Forall_forall. intros l Hl. left.
    vm_compute in Hl. repeat (apply elem_of_cons in Hl as [->|Hl]; [done|]). by apply elem_of_nil in Hl.
  - intros l Hl _. cbn. lia.
  - apply (bool_decide_unpack _). by vm_compute.
  - apply (bool_decide_unpack _). by vm_compute.
Qed.

Lemma demo_only (P : DirEntry.t → bool) k e :
  (forallb (λ i, if demo_entries !! i is Some e then (i =? 2)%nat || negb (P e) else true) (seq 0 18) = true) →
  demo_entries !! k = Some e → P e = true → k = 2%nat.
Proof.
  intros Hall Hk He. pose proof (lookup_lt_Some _ _ _ Hk) as Hlt. change (length demo_entries) with 18%nat in Hlt.
  pose proof (proj1 (forallb_forall _ _) Hall k ltac:(apply in_seq; lia)) as Hb. cbn beta in Hb.
  rewrite Hk, He in Hb. destruct (Nat.eqb_spec k 2); [done|]. done.
Qed.

(** The file "a" is deleted. *)
Lemma DeleteDirEntry_SearchDirEntry_witness :
  let e := demo_entry DirEntry.Regular [97] 1 in
  let es := dir_entries (dev demo_files_dir) (node_blocks (dev demo_files_dir) demo_files_node) in
  let p := 512 * 675 + 28 * Z.of_nat 2 in
  runs (DeleteDirEntry RootDir 1 (zeros 1024)) demo_files_dir (λ ok w',
    let es' := dir_entries (dev w') (node_blocks (dev w') (shrunk demo_files_node)) in
    ok.1 = true ∧ nodes w' = <[0x2000 := shrunk demo_files_node]> (nodes demo_files_dir)
    ∧ dir_ok ∅ 0 RootDir 0x2000 (shrunk demo_files_node) w'
    ∧ bytes_from (dev w') (node_addr demo_block (IdxNode.idx demo_files_node))
        (IdxNode.encode (IdxNode.CloneToPure (shrunk demo_files_node)))
    ∧ es' = <[(length (dir_entries (dev demo_files_dir) []) + 2)%nat := DirEntry.cleared]> es
    ∧ searches RootDir w' es'
    ∧ (∀ s, s ≠ [] → find_entry s es' = if decide (s = ename e) then None else find_entry s es)
    ∧ ∀ q, 0 ≤ q → ¬ (p ≤ q < p + 28) →
        ¬ (node_addr demo_block (IdxNode.idx demo_files_node) ≤ q < node_addr demo_block (IdxNode.idx demo_files_node) + 76) →
        disk_byte (dev w') q = disk_byte (dev demo_files_dir) q).
Proof.
  apply (DeleteDirEntry_SearchDirEntry demo_bits demo_block ∅ 0 RootDir 0x2000 demo_files_node 1 demo_files_dir [] 675 2
    (demo_entry DirEntry.Regular [97] 1) (zeros 1024)).
  - apply demo_files_ok.
  - destruct (demo_mounted demo_files_disk {[ 0x2000 := demo_files_node ]} []). by split.
  - split; [|done|done|]; repeat (apply Forall_cons; split; [by split|]); by apply Forall_nil_2.
  - done.
  - done.
  - unfold in_data. apply (bool_decide_unpack _). by vm_compute.
  - split; [by eexists|by apply Forall_nil_2|done|by vm_compute|by vm_compute|by vm_compute|].
    intros k e'. rewrite demo_entries_eq. apply (demo_only (target 1)). by vm_compute.
  - intros k e'. rewrite demo_entries_eq. intros Hk He.
    apply (demo_only (λ e, bool_decide (ename e = [97])) k e'); [by vm_compute|done|by apply bool_decide_eq_true_2].
  - done.
Defined.
End DirDel.
