(* ===== verification/FsInit.v ===== *)
(** * Initializing the file system

    [InitFileSys] and [MountDefaultPart] of src/src/kernel/io/disk/part.cpp on
    the disks of all channels: every partition without a file system gets one,
    then the default partition is mounted and its root directory opened. The
    theorem composes the formatting of [FsFormat], the mounting of [FsPart] and
    the opening of nodes. *)
From S2P Require Import Prelude UtilBit UtilBitmap StlString IoPath IoFileDesc MemPool IoDisk FsBase IoPart FsData FsFormat FsPart FsFile FsDir.
Import metric.

Module FsInit.
Import Bytes FilePart FsFile FsDir FsFormat.

Section init.
Context {D H : Type} `{Store D} `{Heap H}.

(** The step of [InitFileSys] for one partition. *)
Definition init_part (p : Part.t) : M (io D H) unit :=
  if Part.IsValid p then
    sec ← ReadSectors (Part.GetStartLba p +w SuperBlock.start_lba) (RoundUpDivide 512 sector_size);
    if negb (SuperBlock.IsSignValid (SuperBlock.decode sec)) then FormatPart p else mret tt
  else mret tt.

(** Its loop over the primary and the logical partitions of a disk. *)
Fixpoint init_parts (ps : list Part.t) : M (io D H) unit :=
  match ps with
  | [] => mret tt
  | p :: ps' => init_part p;; init_parts ps'
  end.

(** "sdb1" *)
Definition default_part : string_view.t := string_view.literal [115; 100; 98; 49].

(** A disk with its partitions, and what [InitFileSys] starts from: the disks of
    each channel, their number, the list of partitions that scanning them made
    (channel, disk and partition), whether the disks and the memory have been
    initialized, and the heap. No partition is the default one yet. *)
Record disk := mk_disk { store : D; prim_parts : list Part.t; logic_parts : list Part.t }.
Record system := mk_system {
  chnls : list (list disk); disk_count : Z; disk_parts : list (nat * nat * PartScan.part_ref);
  disk_inited : bool; mem_inited : bool; heap : H
}.

(** The disks of a channel from [disk_idx] on; the one at the index of the boot
    disk is skipped. *)
Fixpoint init_disks (disk_count disk_idx inited_disk_count : Z) (ds : list disk) (h : H) :
    res (list disk * Z * H) :=
  match ds with
  | [] => Ok ([], inited_disk_count, h)
  | d :: ds' =>
      if inited_disk_count =? disk_count then Ok (ds, inited_disk_count, h)
      else
        '(_, (s, h)) ←
          (if negb (disk_idx =? Disk.boot_disk_idx) then
             init_parts (prim_parts d ++ logic_parts d) (store d, h)
           else Ok (tt, (store d, h)));
        '(ds', n, h) ← init_disks disk_count (disk_idx + 1) (inited_disk_count + 1) ds' h;
        Ok (mk_disk s (prim_parts d) (logic_parts d) :: ds', n, h)
  end.

Fixpoint init_chnls (disk_count inited_disk_count : Z) (cs : list (list disk)) (h : H) :
    res (list (list disk) * H) :=
  match cs with
  | [] => Ok ([], h)
  | ds :: cs' =>
      '(ds, n, h) ← init_disks disk_count 0 inited_disk_count ds h;
      '(cs', h) ← init_chnls disk_count n cs' h;
      Ok (ds :: cs', h)
  end.

(** The partition of a tag, and its disk. *)
Definition part_at (cs : list (list disk)) (tag : nat * nat * PartScan.part_ref) : option (D * Part.t) :=
  let '(c, i, r) := tag in
  ds ← cs !! c;
  d ← ds !! i;
  p ← match r with
      | PartScan.Prim j => prim_parts d !! j
      | PartScan.Logic j => logic_parts d !! j
      end;
  Some (store d, p).

(** The first partition of the list with the name of the default one. *)
Fixpoint find_part (cs : list (list disk)) (tags : list (nat * nat * PartScan.part_ref)) :
    res (option (D * Part.t)) :=
  match tags with
  | [] => Ok None
  | tag :: tags' =>
      sp ← of_option (part_at cs tag);
      name ← Part.GetName sp.2;
      eq ← string_view.eqb name default_part;
      if (eq : bool) then Ok (Some sp) else find_part cs tags'
  end.

(** The state when nothing is mounted: no open node, no open file. *)
Definition unmounted (x : io D H) (p : Part.t) (fd : FileDescTab.t) : FilePart.world D H :=
  mk_world x (FilePart.mk p None Bitmap.default Bitmap.default []) ∅ ∅ Directory.init FileTab.init fd.

(** [MountDefaultPart], then [OpenRootDir]. *)
Definition mount (cs : list (list disk)) (tags : list (nat * nat * PartScan.part_ref)) (h : H)
    (fd : FileDescTab.t) : res (FilePart.world D H) :=
  found ← find_part cs tags;
  match found with
  | None => Panic
  | Some (s, p) =>
      '(_, w) ← (LoadSuperBlock;; OpenRootDir) (unmounted (s, h) p fd);
      Ok w
  end.

(** [InitFileSys]: a block for the super block, which is never freed, the
    partitions of all disks, and the mounting of the default one. *)
Definition InitFileSys (s : system) (fd : FileDescTab.t) : res (FilePart.world D H) :=
  Assert (disk_inited s);;
  Assert (mem_inited s);;
  '(super_block, h) ← allocate default_pool 512 (heap s);
  Assert (bool_decide (is_Some super_block));;
  '(cs, h) ← init_chnls (disk_count s) 0 (chnls s) h;
  mount cs (disk_parts s) h fd.
End init.

Section mounts.
Context {D H : Type} `{Store D} `{Heap H} `{!StoreLaws D} `{!HeapLaws H}.

Lemma empty_fs_same (x x' : io D H) bits b : same_sectors x x' → empty_fs x bits b → empty_fs x' bits b.
Proof.
  intros Hs [F1 F2 F3 F4 F5]. split; cbv zeta in *; rewrite ?(sectors_same x x') by done; by rewrite ?Hs.
Qed.

Lemma init_parts_skip ps (x : io D H) :
  Forall (λ p, Part.IsValid p = false) ps → init_parts ps x = Ok (tt, x).
Proof.
  induction 1 as [|p ps Hp _ IH]; [done|]. cbn [init_parts]. unfold mbind, M_bind.
  unfold init_part at 1. by rewrite Hp.
Qed.

(** A partition without a file system gets an empty one. *)
Lemma init_part_formats p live n (x : io D H) :
  let start := Part.start_lba_ p in
  let count := Part.sector_count_ p in
  io_ok live (S n) x → Part.IsValid p = true → Part.disk_ p = true →
  0 ≤ start → 613 ≤ count → start + count ≤ 163839 →
  SuperBlock.IsSignValid (SuperBlock.decode (sector x (start + 1))) = false →
  runs (init_part p) x (λ _ x', io_ok live (S n) x'
    ∧ ∃ bits b, layout start count bits b ∧ empty_fs x' bits b).
Proof.
  intros start count Hio Hv Hd Hs Hn Hm Hsig. unfold init_part. rewrite Hv. unfold Part.GetStartLba.
  fold start. change SuperBlock.start_lba with 1. change (RoundUpDivide 512 sector_size) with 1.
  rewrite u32_small by lia.
  eapply runs_step; [apply (ReadSectors_runs live (S n)); [done|lia|lia|lia]|].
  intros data x1 (-> & Hio1 & Hs1). rewrite sectors_1, Hsig. cbn [negb].
  eapply runs_mono; [apply (FormatPart_ok p live n x1); [done|done|done|done|done]|].
  intros _ x' (? & bits & b & ? & ? & _). eauto.
Qed.

(** The root node of an empty file system is on the disk. *)
Lemma empty_root_node (x : io D H) bits b :
  empty_fs x bits b → 0 ≤ SuperBlock.inodes_start_lba b →
  bytes_from x (node_addr b 0) (IdxNode.encode (root_node (SuperBlock.data_start_lba b))).
Proof.
  intros [_ _ _ Hn _] Hs i v Hi. unfold node_addr. rewrite Z.mul_0_r, Z.add_0_r.
  assert (Hl : (i < 76)%nat).
  { apply lookup_lt_Some in Hi. unfold IdxNode.encode in Hi.
    by rewrite !length_app, !length_put_words in Hi. }
  rewrite <- sectors_byte with (n := 608) by lia. rewrite Hn. by apply lookup_app_l_Some.
Qed.
Lemma root_node_wf d : 0 ≤ d ≤ 163839 → IdxNode.wf (root_node d).
Proof.
  intros Hd. split; [|done|done|]; repeat (apply Forall_cons; split); try apply Forall_nil_2;
    unfold in_u; change (2 ^ 32) with 4294967296; cbn [IdxNode.idx IdxNode.size IdxNode.open_times IdxNode.indirect_tab_lba_
      root_node]; lia.
Qed.

(** An empty file system that has just been mounted: the root directory is
    open, alone, and the bitmaps have its node and its block in use. *)
Record mounted_empty (fd : FileDescTab.t) (bits : Z) (b : SuperBlock.t) (n : nat) (w : FilePart.world D H) :
    Prop := {
  me_mounted : mounted bits b w;
  me_fs : empty_fs (dev w) bits b;
  me_root : ∃ a live, opens_ok live w ∧ io_ok live n (dev w)
    ∧ root_dir w = Directory.mk (Some a) 0 ∧ open_inodes_ (part w) = [a]
    ∧ nodes w = {[a := IdxNode.with_open_times 1 (root_node (SuperBlock.data_start_lba b))]};
  me_blocks : ∀ i, 0 ≤ i < 4096 * SuperBlock.block_bitmap_sector_count b →
    Bitmap.alloc_at (block_bitmap_ (part w)) i = (i =? 0) || (bits <=? i);
  me_nodes : ∀ i, 0 ≤ i < 4096 → Bitmap.alloc_at (inode_bitmap_ (part w)) i = (i =? 0);
  me_rest : dirs w = ∅ ∧ files w = FileTab.init ∧ descs w = fd
}.

Lemma loaded_mounted bits b (x x' : io D H) p fd :
  let w := unmounted x p fd in
  Part.disk_ p = true → Part.start_lba_ p = SuperBlock.part_start_lba b →
  Part.sector_count_ p = SuperBlock.part_sector_count b →
  layout (SuperBlock.part_start_lba b) (SuperBlock.part_sector_count b) bits b →
  0 ≤ SuperBlock.part_start_lba b →
  SuperBlock.part_start_lba b + SuperBlock.part_sector_count b ≤ 163839 → empty_fs x bits b →
  mounted bits b (with_part (loaded x b (part w)) (with_dev x' w)).
Proof.
  intros w Hd Es Ec Hlay Hs Hm [_ (Hl & Hw & _) (Hl' & Hw' & _) _ _].
  by split; cbn [part with_part loaded base super_block_ block_bitmap_ inode_bitmap_ unmounted].
Qed.

Lemma mount_empty p fd live n (x : io D H) bits b :
  let start := Part.start_lba_ p in
  let count := Part.sector_count_ p in
  io_ok live (S (S (S (S (S n))))) x → Part.disk_ p = true → 0 ≤ start → start + count ≤ 163839 →
  layout start count bits b → empty_fs x bits b →
  runs (LoadSuperBlock;; OpenRootDir) (unmounted x p fd) (λ _ w, mounted_empty fd bits b (S n) w).
Proof.
  intros start count Hio Hd Hs Hm Hlay Hfs. pose proof Hlay as [_ _ [Es Ec] _ Ebb Hbits Ht Eib _ Ein _ Eda Hin Eroot].
  rewrite <- Es, <- Ec in Hlay. pose proof Hfs as [Hb (_ & _ & Hbb) (_ & _ & Hib) _ _].
  set (w := unmounted x p fd).
  eapply runs_step; [apply (LoadSuperBlock_ok bits b w live (S (S n)));
    [done|done|done|exact Hlay|lia|lia|exact Hio|exact Hb]|].
  intros _ w1 (live1 & x1 & Hio1 & Hs1 & _ & ->).
  pose proof (loaded_mounted bits b x x1 p fd Hd ltac:(done) ltac:(done) Hlay ltac:(lia) ltac:(lia) Hfs) as Hmt.
  cbv zeta in Hmt. fold w in Hmt. set (w1 := with_part (loaded x b (part w)) (with_dev x1 w)) in *.
  pose proof (empty_fs_same x x1 bits b Hs1 Hfs) as Hfs1.
  unfold OpenRootDir. apply bind_gets, (bind_super_block bits b); [done|]. rewrite Eroot.
  eapply runs_step; [apply (OpenNode_loads bits b w1 live1 n 0 (root_node (SuperBlock.data_start_lba b)))|].
  - done.
  - split; [apply NoDup_nil_2|intros ? Ha|intros ? ? ? ? Ha]; by apply elem_of_nil in Ha.
  - exact Hio1.
  - done.
  - intros ? ? Ha. by apply elem_of_nil in Ha.
  - apply root_node_wf. lia.
  - by apply empty_root_node with bits; [|lia].
  - intros a ? (Ha & x2 & Hs2 & Hio2 & ->). apply bind_modify. cbn [Directory.inode].
    apply runs_ret. split.
    + by destruct Hmt.
    + by apply (empty_fs_same x1).
    + exists a, (<[a := MemInit.Kernel]> live1). split; [|done]. split.
      * apply NoDup_singleton.
      * intros a' ->%list_elem_of_singleton. eexists. split; [apply lookup_insert_eq|].
        split; [apply lookup_insert_eq|done].
      * by intros a1 a2 ? ? ->%list_elem_of_singleton ->%list_elem_of_singleton.
    + exact Hbb.
    + exact Hib.
    + done.
Qed.
(** When all disks have been counted, the others are left alone. *)
Lemma init_disks_done k i (ds : list (disk (D:=D))) (h : H) : init_disks k i k ds h = Ok (ds, k, h).
Proof. destruct ds; [done|]. cbn [init_disks]. by rewrite Z.eqb_refl. Qed.

Lemma init_chnls_done k (cs : list (list (disk (D:=D)))) (h : H) : init_chnls k k cs h = Ok (cs, h).
Proof.
  induction cs as [|ds cs IH]; [done|]. cbn [init_chnls].
  by rewrite init_disks_done, res_bind_ok, IH, res_bind_ok.
Qed.

(** The first channel of two disks of which the second gets file systems. *)
Lemma init_chnls_second d0 d1 (ds : list (disk (D:=D))) cs (h h' : H) st :
  init_parts (prim_parts d1 ++ logic_parts d1) (store d1, h) = Ok (tt, (st, h')) →
  init_chnls 2 0 ((d0 :: d1 :: ds) :: cs) h
  = Ok ((d0 :: mk_disk st (prim_parts d1) (logic_parts d1) :: ds) :: cs, h').
Proof.
  intros E. cbn [init_chnls init_disks].
  change (0 =? 2) with false. change (0 + 1 =? 2) with false. change (0 =? Disk.boot_disk_idx) with true.
  change (0 + 1 =? Disk.boot_disk_idx) with false. cbn [negb]. rewrite res_bind_ok, E, res_bind_ok.
  change (0 + 1 + 1) with 2. rewrite init_disks_done, !res_bind_ok, init_chnls_done, res_bind_ok.
  by destruct d0.
Qed.

(** On a machine with a boot disk and a second disk whose first partition
    has the name of the default partition and no file system, [InitFileSys]
    returns, whatever the other sectors hold: the partition gets an empty file
    system, is mounted with the bitmaps and the super block that are on the
    disk, and the root directory's node, alone open, is the one on the disk, of
    the size of its two entries. Formatting, loading the super block and the
    bitmaps, and opening a node agree on where everything is. *)
Theorem InitFileSys_mounts s (d0 d1 : disk (D:=D)) ds cs p rest tags live n fd :
  let start := Part.start_lba_ p in
  let count := Part.sector_count_ p in
  disk_inited s = true → mem_inited s = true → disk_count s = 2 →
  chnls s = (d0 :: d1 :: ds) :: cs → prim_parts d1 = p :: rest →
  Forall (λ q, Part.IsValid q = false) (rest ++ logic_parts d1) →
  disk_parts s = (0%nat, 1%nat, PartScan.Prim 0) :: tags →
  (name ← Part.GetName p; string_view.eqb name default_part) = Ok true →
  Part.IsValid p = true → 0 ≤ start → 613 ≤ count → start + count ≤ 163839 →
  store_ok (store d1) → heap_ok live (6 + n) (heap s) →
  SuperBlock.IsSignValid (SuperBlock.decode (sector_at (store d1) (start + 1))) = false →
  ∃ w bits b, InitFileSys s fd = Ok w ∧ layout start count bits b ∧ mounted_empty fd bits b (S n) w.
Proof.
  intros start count Hdi Hmi Hc Hcs Hp Hrest Htags Hname Hv Hs Hn Hm Hst Hh Hsig.
  assert (Hd : Part.disk_ p = true) by (unfold Part.IsValid in Hv; by apply andb_true_iff in Hv as [? _]).
  unfold InitFileSys. rewrite Hdi, Hmi. cbn [Assert]. rewrite !res_bind_ok.
  destruct (allocate_law live (5 + n) (heap s) default_pool 512 serves_default Hh ltac:(by unfold max_request))
    as (a & h1 & E1 & _ & Hh1). rewrite E1, res_bind_ok.
  destruct (init_part_formats p _ (4 + n) (store d1, h1) (conj Hst Hh1) Hv Hd Hs Hn Hm Hsig)
    as ([] & [st h2] & E2 & Hio2 & bits & b & Hlay & Hfs).
  rewrite bool_decide_eq_true_2 by eauto. cbn [Assert]. rewrite res_bind_ok, Hcs, Hc.
  rewrite (init_chnls_second d0 d1 ds cs h1 h2 st), res_bind_ok.
  2:{ rewrite Hp. cbn [app init_parts]. unfold mbind, M_bind. rewrite E2. by apply init_parts_skip. }
  destruct (mount_empty p fd _ n (st, h2) bits b Hio2 Hd Hs Hm Hlay Hfs) as ([] & w & E3 & Hw).
  exists w, bits, b. split; [|done]. unfold mount. rewrite Htags, Hp. cbn [find_part].
  change (part_at _ _) with (Some (st, p)). apply res_bind_inv in Hname as (nm & En & Eq).
  cbn [of_option]. rewrite res_bind_ok. cbn [snd]. by rewrite En, res_bind_ok, Eq, !res_bind_ok, E3.
Qed.
End mounts.

#[local] Existing Instance Ram.ram_store.
#[local] Existing Instance Ram.ram_store_laws.
#[local] Existing Instance Ram.ram_heap.
#[local] Existing Instance Ram.ram_heap_laws.

(** Two empty disks, the second with one partition. *)
Definition sdb1 : Part.t := Part.mk 63 2000 [115; 100; 98; 49; 0; 0; 0; 0; 0] true.
Definition demo_fd : FileDescTab.t := [0; 1; 2] ++ replicate 5 npos.
Definition demo_system : system (D:=Ram.disk) (H:=Ram.heap) :=
  mk_system
    [[mk_disk ∅ (replicate 4 Part.init) (replicate 8 Part.init);
      mk_disk ∅ (sdb1 :: replicate 3 Part.init) (replicate 8 Part.init)]; []]
    2 [(0%nat, 1%nat, PartScan.Prim 0)] true true (snd Ram.fresh).

Lemma InitFileSys_mounts_witness :
  ∃ w bits b, InitFileSys demo_system demo_fd = Ok w ∧ layout 63 2000 bits b
    ∧ mounted_empty demo_fd bits b 1 w.
Proof.
  apply (InitFileSys_mounts demo_system (mk_disk ∅ (replicate 4 Part.init) (replicate 8 Part.init))
    (mk_disk ∅ (sdb1 :: replicate 3 Part.init) (replicate 8 Part.init)) [] [[]] sdb1
    (replicate 3 Part.init) [] ∅ 0 demo_fd); try done.
  - by repeat constructor.
  - by apply (Ram.fresh_ok 6).
Defined.
End FsInit.
