(* ===== verification/FsBoot.v ===== *)
(** * Initializing the disks

    [InitDisk] of src/src/kernel/io/disk/disk.cpp: the channels and disks of the
    machine get their names, types and handlers, every disk but the boot disk of
    a channel is scanned, and what is found is printed. The result is what
    [InitFileSys] of FsInit starts from, and the theorem runs one after the
    other. *)
From Stdlib Require Import Strings.String.
From S2P Require Import Prelude UtilBit UtilBitmap StlString UtilFormat Desc Intr IoVideo IoPath IoFileDesc MemPool IoDisk FsBase IoPart FsData FsFormat FsPart FsFile FsDir FsInit.
Import metric.

Module InitDisk.
Import Bytes.

(** A disk of a channel: the object, its sectors and its partitions. *)
Record drive {D : Type} := mk_drive {
  disk_ : Disk.t; store : D; prim_parts_ : list Part.t; logic_parts_ : list Part.t
}.
#[global] Arguments drive : clear implicits.
#[global] Arguments mk_drive {D}.
Record chnl {D : Type} := mk_chnl { chnl_ : IdeChnl.t; disks_ : list (drive D) }.
#[global] Arguments chnl : clear implicits.
#[global] Arguments mk_chnl {D}.

(** The channels, [GetDiskParts()] (channel, disk and partition of each tag), the
    table of interrupt handlers, the heap, and what was printed. *)
Record state {D H : Type} := mk {
  chnls : list (chnl D); parts : list (nat * nat * PartScan.part_ref);
  handlers : IntrHandlerTab.t; heap : H; out : list Z; disk_inited : bool
}.
#[global] Arguments state : clear implicits.
#[global] Arguments mk {D H}.

Definition text (s : string) : string_view.t := string_view.literal (chars s).
Definition tabs (n : nat) (s : string) : string_view.t :=
  string_view.literal (replicate n Vga.HT ++ chars s ++ [Vga.LF]).

(** What printing needs of a disk: [GetInfo]. On the driver it is that of IoDisk. *)
Class Identify (D : Type) := GetInfo : Disk.t → D → res (Disk.Info.t * D).
#[export] Instance disk_identify {S} `{AtaDevice S} : Identify (Disk.t * (IdeChnl.t * S)) :=
  λ dk d, '(i, x) ← Disk.GetInfo dk d.2; Ok (i, (d.1, x)).
#[export] Instance ram_identify : Identify Ram.disk :=
  λ dk d, Assert (Disk.ide_chnl_ dk);; Ok (Disk.Info.mk (zeros 21) (zeros 41) 163840, d).

Section init.
Context {D H : Type} `{Store D} `{Identify D} `{Heap H}.
Local Abbreviation state := (state D H).
Local Abbreviation drive := (drive D).

(** ** The state *)

Definition with_chnls (cs : list (chnl D)) (s : state) : state :=
  mk cs (parts s) (handlers s) (heap s) (out s) (disk_inited s).
Definition with_parts (ps : list (nat * nat * PartScan.part_ref)) (s : state) : state :=
  mk (chnls s) ps (handlers s) (heap s) (out s) (disk_inited s).
Definition with_handlers (t : IntrHandlerTab.t) (s : state) : state :=
  mk (chnls s) (parts s) t (heap s) (out s) (disk_inited s).
Definition with_heap (h : H) (s : state) : state :=
  mk (chnls s) (parts s) (handlers s) h (out s) (disk_inited s).
Definition with_out (o : list Z) (s : state) : state :=
  mk (chnls s) (parts s) (handlers s) (heap s) o (disk_inited s).
Definition with_inited (b : bool) (s : state) : state :=
  mk (chnls s) (parts s) (handlers s) (heap s) (out s) b.

Definition chnl_at (c : nat) : M state (chnl D) := cs ← gets chnls; lift (of_option (cs !! c)).
Definition set_chnl (c : nat) (x : chnl D) : M state unit :=
  modify (λ s, with_chnls (<[c := x]> (chnls s)) s).
(** [IdeChnl::GetDisk] *)
Definition GetDisk (c i : nat) : M state drive :=
  x ← chnl_at c;
  assert (Z.of_nat i <? IdeChnl.max_disk_count);;
  lift (of_option (disks_ x !! i)).
Definition set_drive (c i : nat) (d : drive) : M state unit :=
  x ← chnl_at c; set_chnl c (mk_chnl (chnl_ x) (<[i := d]> (disks_ x))).

(** [IdeChnl::GetMasterDisk], [GetSlaveDisk] and [GetDisks]. *)
Definition GetMasterDisk (c : nat) : M state drive := GetDisk c 0.
Definition GetSlaveDisk (c : nat) : M state drive := GetDisk c 1.
Definition GetDisks (c : nat) : M state (list drive) := x ← chnl_at c; mret (disks_ x).

(** The partitions of a disk: [Disk::GetPrimaryParts], [GetLogicParts] and the
    members that take an index. *)
Definition GetPrimaryParts (d : drive) : list Part.t := prim_parts_ d.
Definition GetLogicParts (d : drive) : list Part.t := logic_parts_ d.
Definition GetPrimaryPart (d : drive) (idx : Z) : res Part.t :=
  Assert (idx <? Disk.prim_part_count);;
  of_option (GetPrimaryParts d !! Z.to_nat idx).
Definition GetLogicPart (d : drive) (idx : Z) : res Part.t :=
  Assert (idx <? Disk.max_logic_part_count);;
  of_option (GetLogicParts d !! Z.to_nat idx).

Definition print (f : list Z → res (list Z)) : M state unit :=
  o ← gets out; o ← lift (f o); modify (with_out o).
Definition printf (format : string_view.t) (args : list Format.arg) : M state unit :=
  print (Print.Printf format args).

(** ** Printing a disk *)

Fixpoint print_parts (head : string) (ps : list Part.t) : M state unit :=
  match ps with
  | [] => mret tt
  | p :: ps' =>
      (if Part.IsValid p then
         name ← lift (Part.GetName p);
         printf (tabs 3 head) [Format.AView name];;
         printf (tabs 4 "Start Sector: {}") [Format.AUInt (Part.GetStartLba p)];;
         printf (tabs 4 "Sectors: {}") [Format.AUInt (Part.GetSectorCount p)]
       else mret tt);;
      print_parts head ps'
  end.

Definition PrintDiskInfo (c i : nat) : M state unit :=
  d ← GetDisk c i;
  '(info, st) ← lift (GetInfo (disk_ d) (store d));
  set_drive c i (mk_drive (disk_ d) st (prim_parts_ d) (logic_parts_ d));;
  serial ← lift (Disk.Info.GetSerial info);
  printf (tabs 3 "Serial Number: {}") [Format.AView serial];;
  model ← lift (Disk.Info.GetModel info);
  printf (tabs 3 "Model: {}") [Format.AView model];;
  let count := Disk.Info.GetSectorCount info in
  printf (tabs 3 "Sectors: {}") [Format.AUInt count];;
  printf (tabs 3 "Capacity: {} MB") [Format.AUInt (count *w Disk.sector_size / MB 1)];;
  print_parts "Primary Part {}" (GetPrimaryParts d);;
  print_parts "Logic Part {}" (GetLogicParts d).

(** Numbers are printed in base 16, here without the prefix that says so: a disk
    of 80 megabytes is shown as one of 50. *)
Example capacity_in_hex :
  Print.Printf (tabs 3 "Capacity: {} MB") [Format.AUInt 80] []
  = Ok (replicate 3 Vga.HT ++ chars "Capacity: 50 MB" ++ [Vga.LF]).
Proof. by vm_compute. Qed.

(** ** Setting up *)

(** [GetDiskCount], with the byte of the BIOS. *)
Definition GetDiskCount (bios : Z) : res Z := Assert (0 <? bios);; Ok bios.

(** A name in an array of eight characters, as a string. *)
Definition make_name (format : string_view.t) (a : Format.arg) : res string_view.t :=
  '(buf, _) ← Format.FormatStringBuffer (zeros 8) format [a];
  string_view.of_cptr (Some buf).
Definition disk_name (c i : nat) : res string_view.t :=
  make_name (text "sd{}") (Format.AChar (u8 (97 + Z.of_nat c * IdeChnl.max_disk_count + Z.of_nat i))).
Definition chnl_name (c : nat) : res string_view.t := make_name (text "ide{}") (Format.AUInt (Z.of_nat c)).

(** [ScanParts] on a disk of the system. *)
Definition scan (c i : nat) : M state unit :=
  d ← GetDisk c i;
  h ← gets heap;
  '(_, (x, st)) ← lift (PartScan.ScanParts (Disk.name_ (disk_ d))
    ((store d, h), PartScan.mk 0 0 0 (prim_parts_ d) (logic_parts_ d) []));
  set_drive c i (mk_drive (disk_ d) x.1 (PartScan.prim_parts_ st) (PartScan.logic_parts_ st));;
  modify (λ s, with_parts (parts s ++ ((λ r, (c, i, r)) <$> PartScan.disk_parts st)) (with_heap x.2 s)).

Definition init_drive (c i : nat) : M state unit :=
  d ← GetDisk c i;
  name ← lift (disk_name c i);
  dk ← lift (Disk.SetName name (disk_ d));
  shown ← lift (Disk.GetName dk);
  printf (tabs 2 "Initializing the disk '{}'.") [Format.AView shown];;
  dk ← lift (Disk.Attach (Z.of_nat i) dk);
  set_drive c i (mk_drive dk (store d) (prim_parts_ d) (logic_parts_ d));;
  (if negb (Z.of_nat i =? Disk.boot_disk_idx) then scan c i else mret tt);;
  PrintDiskInfo c i.

(** The disks of a channel, [n] of them from [i] on, while there are some left;
    the number of those that were initialized. *)
Fixpoint init_drives (disk_count : Z) (c n i : nat) (inited : Z) : M state Z :=
  match n with
  | O => mret inited
  | S n' =>
      if inited =? disk_count then mret inited
      else init_drive c i;; init_drives disk_count c n' (S i) (inited + 1)
  end.

Definition init_chnl (disk_handler disk_count : Z) (c : nat) (inited : Z) : M state Z :=
  x ← chnl_at c;
  name ← lift (chnl_name c);
  ch ← lift (IdeChnl.SetName name (chnl_ x));
  shown ← lift (IdeChnl.GetName ch);
  printf (tabs 1 "Initializing the IDE channel '{}'.") [Format.AView shown];;
  ch ← lift (IdeChnl.init_chnl (Z.of_nat c) ch);
  set_chnl c (mk_chnl ch (disks_ x));;
  t ← gets handlers;
  t ← lift (IntrHandlerTab.RegisterHandler t (IdeChnl.GetIntrNum ch) disk_handler);
  modify (with_handlers t);;
  init_drives disk_count c (Z.to_nat IdeChnl.max_disk_count) 0 inited.

Fixpoint init_chnls (disk_handler disk_count : Z) (n c : nat) (inited : Z) : M state unit :=
  match n with
  | O => mret tt
  | S n' =>
      inited ← init_chnl disk_handler disk_count c inited;
      init_chnls disk_handler disk_count n' (S c) inited
  end.

(** [InitDisk]; [bios] is the byte at 0x475, [disk_handler] the address of
    [DiskIntrHandler]. *)
Definition InitDisk (bios disk_handler : Z) (mem_inited intr_on : bool) : M state unit :=
  s ← gets disk_inited;
  assert (negb s);;
  assert mem_inited;;
  assert intr_on;;
  print (Print.PrintlnStr (text "Initializing disks."));;
  count ← lift (GetDiskCount bios);
  n ← lift (IdeChnl.GetIdeChnlCount count);
  init_chnls disk_handler count (Z.to_nat n) 0 0;;
  modify (with_inited true);;
  print (Print.PrintStr (string_view.literal (chars "Disks have been initialized." ++ [Vga.LF]))).

(** What [InitFileSys] starts from. *)
Definition to_disk (d : drive) : FsInit.disk := FsInit.mk_disk (store d) (prim_parts_ d) (logic_parts_ d).
Definition to_system (bios : Z) (mem_inited : bool) (s : state) : FsInit.system :=
  FsInit.mk_system ((λ c, to_disk <$> disks_ c) <$> chnls s) bios (parts s) (disk_inited s) mem_inited (heap s).
End init.

(** [GetInfo] of an attached disk returns a description whose texts end, and
    moves no sector. *)
Class IdentifyLaws (D : Type) `{StoreLaws D} `{Identify D} :=
  GetInfo_law : ∀ dk d, Disk.ide_chnl_ dk = true → store_ok d →
    ∃ i d', GetInfo dk d = Ok (i, d') ∧ Disk.info_ok i ∧ store_ok d' ∧ ∀ l, sector_at d' l = sector_at d l.

#[export] Instance disk_identify_laws {base S} `{AtaDevice S} `{!AtaLaws base S} `{!Prompt base S} :
    IdentifyLaws (Disk.t * (IdeChnl.t * S)).
Proof.
  intros dk [dk' [c s]] Hd [Hd' Hok]. cbn [fst snd] in *.
  destruct (Disk.GetInfo_ok base dk c s Hd Hok) as (i & c' & s' & E & Hi & Hok' & Hsame).
  exists i, (dk', (c', s')). unfold GetInfo, disk_identify. cbn [fst snd]. rewrite E, res_bind_ok.
  split; [done|]. split; [done|]. split; [done|]. intros l. apply Hsame.
Qed.
#[local] Existing Instance Ram.ram_store.
#[local] Existing Instance Ram.ram_store_laws.
#[export] Instance ram_identify_laws : IdentifyLaws Ram.disk.
Proof.
  intros dk d Hd _. exists (Disk.Info.mk (zeros 21) (zeros 41) 163840), d. unfold GetInfo, ram_identify.
  rewrite Hd. split; [done|]. split; [|done]. by split_and!; [apply Disk.terminated_holds; left..|].
Qed.

(** ** Printing always returns *)

Lemma trace_prints (t o : list Z) : print_all t o = Ok (o ++ t).
Proof.
  revert o. induction t as [|c t IH]; intros o; [by rewrite app_nil_r|].
  cbn [print_all]. unfold PrintChar, trace_out. by rewrite res_bind_ok, IH, <- app_assoc.
Qed.

Section facts.
Context {D H : Type} `{Store D} `{Identify D} `{Heap H} `{!StoreLaws D} `{!IdentifyLaws D} `{!HeapLaws H}.
Local Abbreviation state := (state D H).
Local Abbreviation drive := (drive D).

Lemma print_runs (f : list Z → res (list Z)) (t : list Z) (s : state) Q :
  f (out s) = print_all t (out s) → Q tt (with_out (out s ++ t) s) → runs (print f) s Q.
Proof.
  intros E HQ. unfold print. apply bind_gets. eapply bind_lift; [rewrite E; apply trace_prints|]. by apply runs_modify.
Qed.

Definition printable (f : list Z) : Prop := f ≠ [] ∧ 0 ∉ f ∧ Z.of_nat (length f) < 2 ^ 32 - 1.

Lemma printf_runs f a t (s : state) Q :
  printable f → PrintFacts.shown a t →
  (∀ o, Q tt (with_out o s)) → runs (printf (string_view.literal f) [a]) s Q.
Proof.
  intros (Hne & Hz & Hl) Ha HQ. pose proof (Path.literal_shows f Hz) as Hv.
  apply (print_runs _ (Format.render f [t])); [|done]. unfold Print.Printf.
  rewrite (string_view.shows_empty _ f Hv), bool_decide_eq_false_2 by done.
  apply PrintFacts.Printf_impl_ok; [|done..]. by repeat constructor.
Qed.

Lemma bind_printf {A} f a t (k : unit → M state A) (s : state) Q :
  printable f → PrintFacts.shown a t →
  (∀ o, runs (k tt) (with_out o s) Q) → runs (printf (string_view.literal f) [a] ≫= k) s Q.
Proof. intros Hf Ha HQ. by eapply runs_bind, printf_runs. Qed.

Lemma name_shows arr str :
  cstring.holds arr str → ∃ v, string_view.of_cptr (Some arr) = Ok v ∧ PrintFacts.shown (Format.AView v) str.
Proof.
  intros Hs. destruct (string_view.of_cptr_ok arr str Hs) as (v & E & _ & Hv). exists v. split; [done|].
  by constructor.
Qed.

(** A partition that is printed has a name that ends, and its numbers are words. *)
Definition printable_part (p : Part.t) : Prop :=
  (∃ str, cstring.holds (Part.name_ p) str) ∧ in_u 32 (Part.start_lba_ p) ∧ in_u 32 (Part.sector_count_ p).

Lemma print_parts_runs head ps (s : state) Q :
  printable (replicate 3 Vga.HT ++ chars head ++ [Vga.LF]) → Forall printable_part ps →
  (∀ o, Q tt (with_out o s)) → runs (print_parts head ps) s Q.
Proof.
  intros Hh Hps. revert s. induction Hps as [|p ps ((str & Hstr) & Hst & Hct) Hps IH]; intros s HQ.
  { apply runs_ret. specialize (HQ (out s)). by destruct s. }
  cbn [print_parts]. assert (Hrest : ∀ o, runs (print_parts head ps) (with_out o s) Q) by (intros o; by apply IH).
  destruct (Part.IsValid p); [|specialize (Hrest (out s)); by destruct s].
  destruct (name_shows _ _ Hstr) as (v & Ev & Hv). apply bind_assoc. eapply bind_lift; [exact Ev|].
  apply bind_assoc. eapply bind_printf; [done|exact Hv|]. intros o1.
  apply bind_assoc. eapply bind_printf; [by apply (bool_decide_unpack _)|by constructor|]. intros o2.
  eapply bind_printf; [by apply (bool_decide_unpack _)|by constructor|]. intros o3. apply Hrest.
Qed.

(** The description of a disk is printed, and no sector changes. *)
Lemma PrintDiskInfo_runs ch ds cs ps t (h : H) o b i d Q :
  ds !! i = Some d → (i < 2)%nat → store_ok (store d) → Disk.ide_chnl_ (disk_ d) = true →
  Forall printable_part (prim_parts_ d) → Forall printable_part (logic_parts_ d) →
  (∀ st o', store_ok st → (∀ l, sector_at st l = sector_at (store d) l) →
    Q tt (mk (mk_chnl ch (<[i := mk_drive (disk_ d) st (prim_parts_ d) (logic_parts_ d)]> ds) :: cs) ps t h o' b)) →
  runs (PrintDiskInfo 0 i) (mk (mk_chnl ch ds :: cs) ps t h o b) Q.
Proof.
  intros Hd Hi Hst Hat Hps Hls HQ.
  destruct (GetInfo_law (disk_ d) (store d) Hat Hst) as (info & st & E & (Hser & Hmod & Hcount) & Hst' & Hsame).
  destruct Hser as [ser Hser], Hmod as [model Hmod].
  destruct (name_shows _ _ Hser) as (v1 & E1 & Hv1), (name_shows _ _ Hmod) as (v2 & E2 & Hv2).
  unfold PrintDiskInfo, GetDisk, chnl_at. apply bind_assoc, bind_assoc, bind_gets. eapply bind_lift; [done|].
  apply bind_assoc, bind_assert; [by apply Z.ltb_lt; change IdeChnl.max_disk_count with 2; lia|]. cbn [disks_].
  rewrite Hd. eapply bind_lift; [done|]. eapply bind_lift; [exact E|]. cbv beta iota.
  unfold set_drive, chnl_at, set_chnl. apply bind_assoc, bind_assoc, bind_gets. eapply bind_lift; [done|].
  apply bind_modify. unfold with_chnls. cbn [disks_ chnls parts handlers heap out disk_inited chnl_].
  change (<[0%nat := ?x]> (?y :: cs)) with (x :: cs). set (s1 := mk _ ps t h o b).
  eapply bind_lift; [exact E1|]. eapply bind_printf; [by apply (bool_decide_unpack _)|exact Hv1|]. intros o1.
  eapply bind_lift; [exact E2|]. eapply bind_printf; [by apply (bool_decide_unpack _)|exact Hv2|]. intros o2.
  eapply bind_printf; [by apply (bool_decide_unpack _)|by constructor|]. intros o3.
  eapply bind_printf; [by apply (bool_decide_unpack _)|constructor|]; [|intros o4].
  { pose proof (wrap_range 32 (Disk.Info.GetSectorCount info * Disk.sector_size) ltac:(lia)) as Hw.
    unfold in_u in Hw. change (MB 1) with 1048576. unfold u32. div_lia. }
  eapply runs_bind, print_parts_runs; [by apply (bool_decide_unpack _)|done|]. intros o5.
  apply print_parts_runs; [by apply (bool_decide_unpack _)|done|]. intros o'. by apply HQ.
Qed.

(** ** The disks of the first channel *)

(** A disk before [InitDisk], and the object of the disk [i] after it. *)
Definition no_parts (n : nat) : list Part.t := replicate n Part.init.
Definition blank_drive (st : D) : drive :=
  mk_drive (Disk.mk (replicate 9 0) false 0) st (no_parts 4) (no_parts 8).
Definition name_array (name : string) : list Z := chars name ++ replicate (9 - length (chars name)) 0.
Definition ready_disk (i : nat) : Disk.t :=
  Disk.mk (name_array (if (i =? 0)%nat then "sda" else "sdb")) true (Z.of_nat i).

Lemma disk_named i :
  (i < 2)%nat → ∃ v dk v' str, disk_name 0 i = Ok v ∧ Disk.SetName v (Disk.mk (replicate 9 0) false 0) = Ok dk
    ∧ Disk.GetName dk = Ok v' ∧ string_view.shows v' str ∧ Disk.Attach (Z.of_nat i) dk = Ok (ready_disk i).
Proof.
  intros Hi. assert (i = 0 ∨ i = 1)%nat as [-> | ->] by lia.
  - exists (string_view.mk (Some [115; 100; 97; 0; 0; 0; 0; 0]) 3), (Disk.mk (name_array "sda") false 0),
      (string_view.mk (Some (name_array "sda")) 3), (chars "sda"). split_and!; try (by vm_compute).
    split; [done|]. split; [by apply (bool_decide_unpack _)|]. by exists (replicate 5 0).
  - exists (string_view.mk (Some [115; 100; 98; 0; 0; 0; 0; 0]) 3), (Disk.mk (name_array "sdb") false 0),
      (string_view.mk (Some (name_array "sdb")) 3), (chars "sdb"). split_and!; try (by vm_compute).
    split; [done|]. split; [by apply (bool_decide_unpack _)|]. by exists (replicate 5 0).
Qed.

Lemma no_parts_printable n : Forall printable_part (no_parts n).
Proof.
  apply Forall_replicate. split; [|done]. exists []. split; [apply not_elem_of_nil|]. by exists (replicate 8 0).
Qed.

(** The part of [init_drive] that names and attaches the disk. *)
Lemma init_drive_named ch ds cs ps t (h : H) o b i st Q :
  ds !! i = Some (blank_drive st) → (i < 2)%nat →
  (∀ o', runs ((if negb (Z.of_nat i =? Disk.boot_disk_idx) then scan 0 i else mret tt);; PrintDiskInfo 0 i)
     (mk (mk_chnl ch (<[i := mk_drive (ready_disk i) st (no_parts 4) (no_parts 8)]> ds) :: cs) ps t h o' b) Q) →
  runs (init_drive 0 i) (mk (mk_chnl ch ds :: cs) ps t h o b) Q.
Proof.
  intros Hd Hi HQ. destruct (disk_named i Hi) as (v & dk & v' & str & E1 & E2 & E3 & Hv & E4).
  unfold init_drive, GetDisk, chnl_at. apply bind_assoc, bind_assoc, bind_gets. eapply bind_lift; [done|].
  apply bind_assoc, bind_assert; [by apply Z.ltb_lt; change IdeChnl.max_disk_count with 2; lia|]. cbn [disks_].
  rewrite Hd. eapply bind_lift; [done|]. eapply bind_lift; [exact E1|]. cbn [disk_ blank_drive].
  eapply bind_lift; [exact E2|]. eapply bind_lift; [exact E3|].
  eapply bind_printf; [by apply (bool_decide_unpack _)|by constructor|]. intros o1.
  eapply bind_lift; [exact E4|]. unfold set_drive, chnl_at, set_chnl.
  apply bind_assoc, bind_assoc, bind_gets. eapply bind_lift; [done|]. apply bind_modify. exact (HQ o1).
Qed.

Lemma init_boot_runs ch st ds cs ps t (h : H) o b Q :
  store_ok st →
  (∀ st' o', store_ok st' → (∀ l, sector_at st' l = sector_at st l) →
    Q tt (mk (mk_chnl ch (mk_drive (ready_disk 0) st' (no_parts 4) (no_parts 8) :: ds) :: cs) ps t h o' b)) →
  runs (init_drive 0 0) (mk (mk_chnl ch (blank_drive st :: ds) :: cs) ps t h o b) Q.
Proof.
  intros Hst HQ. eapply init_drive_named; [done|lia|]. intros o1. apply bind_ret. cbn [list_insert].
  eapply PrintDiskInfo_runs; [done|lia|done|done|apply no_parts_printable..|]. exact HQ.
Qed.

(** The scan of a disk with one partition. *)
Definition one_part (start count : Z) (p : Part.t) : Prop :=
  PartScan.registered (chars "sdb") 1 (start, count) p.

Lemma scan_runs live n ch d0 st (h : H) start count cs ps t o b Q :
  io_ok live (10 + n) (st, h) → PartScan.disk_layout (st, h) [(start, count)] [] →
  (∀ p st' h', io_ok live (10 + n) (st', h') → same_sectors (st, h) (st', h') → one_part start count p →
    Q tt (mk (mk_chnl ch [d0; mk_drive (ready_disk 1) st' (p :: no_parts 3) (no_parts 8)] :: cs)
      (ps ++ [(0%nat, 1%nat, PartScan.Prim 0)]) t h' o b)) →
  runs (scan 0 1) (mk (mk_chnl ch [d0; mk_drive (ready_disk 1) st (no_parts 4) (no_parts 8)] :: cs) ps t h o b) Q.
Proof.
  intros Hio Hlay HQ. unfold scan, GetDisk, chnl_at. apply bind_assoc, bind_assoc, bind_gets.
  eapply bind_lift; [done|]. apply bind_assoc, bind_assert; [done|]. cbn [disks_]. eapply bind_lift; [done|].
  apply bind_gets. cbn [disk_ store prim_parts_ logic_parts_ heap].
  assert (Hname : cstring.holds (Disk.name_ (ready_disk 1)) (chars "sdb")).
  { split; [by apply (bool_decide_unpack _)|]. by exists (replicate 5 0). }
  assert (Hb : PartScan.blank (PartScan.mk 0 0 0 (no_parts 4) (no_parts 8) [])).
  { split; [done|]. split; [done|]. apply (bool_decide_unpack _). by vm_compute. }
  destruct (PartScan.ScanParts_ok (Disk.name_ (ready_disk 1)) (chars "sdb") Hname ltac:(simpl; lia)
    (st, h) live n _ _ _ Hio Hb Hlay) as (u & [[st' h'] sc] & E & Hs & Hio' & base & Hsc).
  eapply bind_lift; [exact E|]. cbn [fst snd] in *. destruct Hsc as [_ _ _ Lp Ll Hp Hpr _ Hlr Ht].
  destruct (Hp 0%nat _ eq_refl) as (p & Ep & Hreg). cbn [length PartScan.prim_parts_ PartScan.logic_parts_] in *.
  assert (Eprim : PartScan.prim_parts_ sc = p :: no_parts 3).
  { apply list_eq. intros [|i]; [done|]. rewrite (Hpr (S i)) by lia. done. }
  assert (Elogic : PartScan.logic_parts_ sc = no_parts 8).
  { apply list_eq. intros i. apply Hlr. cbn. lia. }
  unfold set_drive, chnl_at, set_chnl. apply bind_assoc, bind_assoc, bind_gets. eapply bind_lift; [done|].
  apply bind_modify, runs_modify. rewrite Eprim, Elogic, Ht. apply (HQ p); done.
Qed.

Lemma init_second_runs live n ch d0 st (h : H) start count cs ps t o b Q :
  io_ok live (10 + n) (st, h) → PartScan.disk_layout (st, h) [(start, count)] [] →
  in_u 32 start → in_u 32 count →
  (∀ p st' h' o', io_ok live (10 + n) (st', h') → same_sectors (st, h) (st', h') → one_part start count p →
    Q tt (mk (mk_chnl ch [d0; mk_drive (ready_disk 1) st' (p :: no_parts 3) (no_parts 8)] :: cs)
      (ps ++ [(0%nat, 1%nat, PartScan.Prim 0)]) t h' o' b)) →
  runs (init_drive 0 1) (mk (mk_chnl ch [d0; blank_drive st] :: cs) ps t h o b) Q.
Proof.
  intros Hio Hlay Hs Hc HQ. eapply init_drive_named; [done|lia|]. intros o1. cbn [list_insert].
  eapply runs_bind, scan_runs; [exact Hio|exact Hlay|]. intros p st1 h1 Hio1 Hs1 Hp.
  pose proof Hp as (Est & Ect & _ & Hname & _). cbn [fst snd] in *.
  eapply PrintDiskInfo_runs; [done|lia|apply Hio1|done| |apply no_parts_printable|].
  - apply Forall_cons. split; [|apply (no_parts_printable 3)]. split; [eauto|]. rewrite Est, Ect. done.
  - intros st2 o2 Hst2 Hsame. cbn [list_insert disk_ prim_parts_ logic_parts_]. apply HQ; [|  |done].
    + split; [done|]. apply Hio1.
    + intros l. unfold sector in *. cbn [fst] in *. rewrite Hsame. apply Hs1.
Qed.

(** ** The first channel *)

Definition ready_chnl : IdeChnl.t := IdeChnl.mk (name_array "ide0") IdeChnl.Primary 0x1F0 0x2E false 0.

Lemma init_chnl_runs (handler : Z) live n st0 st1 (h : H) start count cs t o Q :
  HandlerTabFacts.tab_ok t → store_ok st0 → io_ok live (10 + n) (st1, h) →
  PartScan.disk_layout (st1, h) [(start, count)] [] → in_u 32 start → in_u 32 count →
  (∀ p st0' st1' h' o', store_ok st0' → (∀ l, sector_at st0' l = sector_at st0 l) →
    io_ok live (10 + n) (st1', h') → same_sectors (st1, h) (st1', h') → one_part start count p →
    Q 2 (mk (mk_chnl ready_chnl [mk_drive (ready_disk 0) st0' (no_parts 4) (no_parts 8);
                                 mk_drive (ready_disk 1) st1' (p :: no_parts 3) (no_parts 8)] :: cs)
      [(0%nat, 1%nat, PartScan.Prim 0)]
      (IntrHandlerTab.mk (IntrHandlerTab.names t) (<[46%nat := handler]> (IntrHandlerTab.handlers t))) h' o' false)) →
  runs (init_chnl handler 2 0 0)
    (mk (mk_chnl IdeChnl.init [blank_drive st0; blank_drive st1] :: cs) [] t h o false) Q.
Proof.
  intros Ht Hst0 Hio Hlay Hs Hc HQ. unfold init_chnl, chnl_at. apply bind_assoc, bind_gets.
  eapply bind_lift; [done|]. eapply bind_lift; [by vm_compute|]. cbn [chnl_]. eapply bind_lift; [by vm_compute|].
  eapply bind_lift; [by vm_compute|]. eapply bind_printf; [by apply (bool_decide_unpack _)| |].
  { apply PrintFacts.shown_view with (s := chars "ide0"). split; [done|].
    split; [by apply (bool_decide_unpack _)|]. by exists (replicate 4 0). }
  intros o1. eapply bind_lift; [done|]. unfold set_chnl. apply bind_modify, bind_gets. cbn [IdeChnl.GetIntrNum].
  destruct (HandlerTabFacts.RegisterHandler_ok t 46 handler Ht ltac:(lia)) as [E _].
  eapply bind_lift; [exact E|]. apply bind_modify. change (Z.to_nat IdeChnl.max_disk_count) with 2%nat.
  cbn [init_drives]. change (0 =? 2) with false. change (0 + 1 =? 2) with false. cbv iota.
  eapply runs_bind, init_boot_runs; [done|]. intros st0' o2 Hst0' Hsame0.
  eapply runs_bind, init_second_runs; [exact Hio|exact Hlay|done|done|]. intros p st1' h' o3 Hio' Hsame1 Hp.
  apply runs_ret. by apply HQ.
Qed.

(** The name of the first partition of the second disk is the default one. *)
Lemma one_part_default start count p :
  one_part start count p → (name ← Part.GetName p; string_view.eqb name FsInit.default_part) = Ok true.
Proof.
  intros (_ & _ & _ & Hname & _). unfold Part.GetName. destruct (string_view.of_cptr_ok _ _ Hname) as (v & -> & _ & Hv).
  rewrite res_bind_ok. erewrite string_view.eqb_ok; [|exact Hv|by apply Path.literal_shows, (bool_decide_unpack _)].
  done.
Qed.

(** The machine after both initializers. *)
Lemma boot_disks_ok (handler : Z) live n st0 st1 (h : H) start count cs t o fd :
  HandlerTabFacts.tab_ok t → store_ok st0 → io_ok live (10 + n) (st1, h) →
  PartScan.disk_layout (st1, h) [(start, count)] [] →
  0 ≤ start → 613 ≤ count → start + count ≤ 163839 →
  SuperBlock.IsSignValid (SuperBlock.decode (sector_at st1 (start + 1))) = false →
  ∃ s' st0' st1' p w bits b,
    InitDisk 2 handler true true
      (mk (mk_chnl IdeChnl.init [blank_drive st0; blank_drive st1] :: cs) [] t h o false) = Ok (tt, s')
    ∧ chnls s' = mk_chnl ready_chnl [mk_drive (ready_disk 0) st0' (no_parts 4) (no_parts 8);
                                     mk_drive (ready_disk 1) st1' (p :: no_parts 3) (no_parts 8)] :: cs
    ∧ (∀ l, sector_at st0' l = sector_at st0 l) ∧ (∀ l, sector_at st1' l = sector_at st1 l)
    ∧ one_part start count p ∧ parts s' = [(0%nat, 1%nat, PartScan.Prim 0)]
    ∧ IntrHandlerTab.handlers (handlers s') = <[46%nat := handler]> (IntrHandlerTab.handlers t)
    ∧ disk_inited s' = true
    ∧ FsInit.InitFileSys (to_system 2 true s') fd = Ok w ∧ FsFormat.layout start count bits b
    ∧ FsInit.mounted_empty fd bits b (5 + n) w.
Proof.
  intros Ht Hst0 Hio Hlay Hs Hc Hm Hsig. set (s := mk _ _ _ _ _ _).
  assert (Hinit : runs (InitDisk 2 handler true true) s (λ _ s', ∃ st0' st1' h' p t' o',
    s' = mk (mk_chnl ready_chnl [mk_drive (ready_disk 0) st0' (no_parts 4) (no_parts 8);
        mk_drive (ready_disk 1) st1' (p :: no_parts 3) (no_parts 8)] :: cs) [(0%nat, 1%nat, PartScan.Prim 0)] t' h' o' true
    ∧ (∀ l, sector_at st0' l = sector_at st0 l) ∧ io_ok live (10 + n) (st1', h')
    ∧ same_sectors (st1, h) (st1', h') ∧ one_part start count p
    ∧ IntrHandlerTab.handlers t' = <[46%nat := handler]> (IntrHandlerTab.handlers t))).
  { unfold InitDisk. apply bind_gets, bind_assert, bind_assert, bind_assert; [done..|].
    eapply runs_bind, print_runs with (t := chars "Initializing disks." ++ [Vga.LF]).
    { unfold Print.PrintlnStr. rewrite PrintFacts.print_all_app.
      erewrite PrintFacts.PrintStr_ok; [done|]. by apply Path.literal_shows, (bool_decide_unpack _). }
    do 2 (eapply bind_lift; [done|]). cbn [Z.to_nat Pos.to_nat Pos.iter_op init_chnls].
    apply bind_assoc. eapply runs_bind, init_chnl_runs; [done|done|exact Hio|exact Hlay|unfold in_u; lia..|].
    intros p st0' st1' h' o' Hst0' Hsame0 Hio' Hsame1 Hp. apply bind_ret, bind_modify.
    eapply print_runs; [by apply PrintFacts.PrintStr_ok, Path.literal_shows, (bool_decide_unpack _)|].
    exists st0', st1', h', p. eauto 10. }
  destruct Hinit as ([] & s' & E & st0' & st1' & h' & p & t' & o' & Es' & Hsame0 & [Hst1 Hh] & Hsame1 & Hp & Hhd).
  pose proof Hp as (Est & Ect & Hd & _). cbn [fst snd] in *.
  destruct (FsInit.InitFileSys_mounts (to_system 2 true s')
    (FsInit.mk_disk st0' (no_parts 4) (no_parts 8)) (FsInit.mk_disk st1' (p :: no_parts 3) (no_parts 8)) []
    ((λ c, to_disk <$> disks_ c) <$> cs) p (no_parts 3) [] live (4 + n) fd) as (w & bits & b & Ew & Hlay' & Hw);
    rewrite ?Est, ?Ect; try (by rewrite ?Es').
  - apply (bool_decide_unpack _). by vm_compute.
  - by eapply one_part_default.
  - unfold Part.IsValid. rewrite Hd, Ect. by apply Z.ltb_lt; lia.
  - cbn [FsInit.store]. pose proof (Hsame1 (start + 1)) as Hsec. unfold sector in Hsec. cbn [fst] in Hsec. by rewrite Hsec.
  - rewrite Est, Ect in Hlay'. exists s', st0', st1', p, w, bits, b. rewrite E, Es'. rewrite Es' in Ew.
    split_and!; done.
Qed.

(** C5. Starting the disks and then the file systems. On a machine with a boot
    disk and a second disk that holds one partition and no file system, and an
    interrupt table, a heap and channels as their initializers leave them,
    [InitDisk] returns: the channel is "ide0" on the primary ports with the disk
    handler at its interrupt, the disks are "sda" and "sdb" and attached, the
    second one's partition is found and listed, and no sector has changed,
    whatever the disks answer to the identify command. [InitFileSys] then
    recognizes that partition as the default one, formats and mounts it, and its
    bitmaps, super block and root directory are those of an empty file system;
    the super block is where the code puts it, see [FsFormat.super_block_place]. *)
Theorem InitDisk_InitFileSys (handler : Z) live n st0 st1 (h : H) start count cs t o fd :
  HandlerTabFacts.tab_ok t → store_ok st0 → io_ok live (10 + n) (st1, h) →
  PartScan.disk_layout (st1, h) [(start, count)] [] →
  0 ≤ start → 613 ≤ count → start + count ≤ 163839 →
  SuperBlock.IsSignValid (SuperBlock.decode (sector_at st1 (start + 1))) = false →
  ∃ s' st0' st1' p w bits b,
    InitDisk 2 handler true true
      (mk (mk_chnl IdeChnl.init [blank_drive st0; blank_drive st1] :: cs) [] t h o false) = Ok (tt, s')
    ∧ chnls s' = mk_chnl ready_chnl [mk_drive (ready_disk 0) st0' (no_parts 4) (no_parts 8);
                                     mk_drive (ready_disk 1) st1' (p :: no_parts 3) (no_parts 8)] :: cs
    ∧ (∀ l, sector_at st0' l = sector_at st0 l) ∧ (∀ l, sector_at st1' l = sector_at st1 l)
    ∧ one_part start count p ∧ parts s' = [(0%nat, 1%nat, PartScan.Prim 0)]
    ∧ IntrHandlerTab.handlers (handlers s') = <[46%nat := handler]> (IntrHandlerTab.handlers t)
    ∧ disk_inited s' = true
    ∧ FsInit.InitFileSys (to_system 2 true s') fd = Ok w ∧ FsFormat.layout start count bits b
    ∧ FsInit.mounted_empty fd bits b (5 + n) w.
Proof. apply boot_disks_ok. Qed.
End facts.

#[local] Existing Instance Ram.ram_heap.
#[local] Existing Instance Ram.ram_heap_laws.

(** An empty boot disk, and one with a partition of 2000 sectors. *)
Definition demo_sdb : Ram.disk :=
  {[0 := PartScan.record_bytes [PartScan.mk_entry 0x83 63 2000; PartScan.no_entry; PartScan.no_entry; PartScan.no_entry]]}.
Definition demo_handlers : IntrHandlerTab.t :=
  IntrHandlerTab.mk (replicate 49 (replicate 33 0)) (replicate 49 0xC0001500).

Lemma demo_sdb_layout {H} (h : H) : PartScan.disk_layout (demo_sdb, h) [(63, 2000)] [].
Proof.
  apply (PartScan.layout_prim _ [PartScan.mk_entry 0x83 63 2000] [PartScan.no_entry; PartScan.no_entry; PartScan.no_entry]);
    [split; [lia|]|by repeat constructor|by repeat constructor].
  split; by vm_compute.
Qed.

Lemma InitDisk_InitFileSys_witness :
  ∃ s' st0' st1' p w bits b,
    InitDisk 2 0xC0002000 true true
      (mk [mk_chnl IdeChnl.init [blank_drive ∅; blank_drive demo_sdb]] [] demo_handlers Ram.fresh.2 [] false) = Ok (tt, s')
    ∧ chnls s' = [mk_chnl ready_chnl [mk_drive (ready_disk 0) st0' (no_parts 4) (no_parts 8);
                                      mk_drive (ready_disk 1) st1' (p :: no_parts 3) (no_parts 8)]]
    ∧ (∀ l, sector_at st0' l = sector_at (∅ : Ram.disk) l) ∧ (∀ l, sector_at st1' l = sector_at demo_sdb l)
    ∧ one_part 63 2000 p ∧ parts s' = [(0%nat, 1%nat, PartScan.Prim 0)]
    ∧ IntrHandlerTab.handlers (handlers s') = <[46%nat := 0xC0002000]> (IntrHandlerTab.handlers demo_handlers)
    ∧ disk_inited s' = true
    ∧ FsInit.InitFileSys (to_system 2 true s') FsInit.demo_fd = Ok w ∧ FsFormat.layout 63 2000 bits b
    ∧ FsInit.mounted_empty FsInit.demo_fd bits b 5 w.
Proof.
  apply (InitDisk_InitFileSys 0xC0002000 ∅ 0 ∅ demo_sdb Ram.fresh.2 63 2000 [] demo_handlers [] FsInit.demo_fd).
  - split; [done|]. split; [done|]. by apply Forall_replicate.
  - done.
  - split; [done|]. apply (Ram.fresh_ok 10).
  - apply demo_sdb_layout.
  - lia.
  - lia.
  - lia.
  - by vm_compute.
Defined.
End InitDisk.
