(* ===== verification/Proc.v ===== *)
(** * Processes

    [Process] models src/include/kernel/process/proc.h and
    src/src/kernel/process/proc.cpp: the object of a process, its creation, the
    frame with which it enters user mode, and fork. The system a process lives
    in has the threads of ThreadSched, the memory of MemMap and the objects of
    processes at their addresses. The pages of thread and process objects come
    from the kernel's heap; their contents are the objects, not words of the
    memory. What a fork does to open files is an operation of the file system,
    the class [OpenFiles]. *)
From S2P Require Import Prelude UtilBit UtilBitmap IoFileDesc StlString MemPage MemPool MemMap MemPages MemHeap ThreadSched Desc Intr FsBase FsPart FsFile.
Import Page.

(** [FileDescTab::Fork] on the open files of the system. *)
Class OpenFiles (F : Type) := fork_file_descs : list Z → M F unit.

#[export] Instance file_system {D A : Type} `{Store D} `{Heap A} : OpenFiles (FilePart.world D A) :=
  FsFile.fork_descs.

Module Process.

(** [AllocPageAtAddr(type, addr_pool, vr_addr)] for user memory. *)
Definition AllocPageAtAddr_in (ap : PagePool.t) (vr_addr : Z) (m : Machine.t) : res (Machine.t * (PagePool.t * Z)) :=
  '(m', a) ← Pages.alloc_page_at MemInit.User vr_addr
    (Machine.mk (Machine.ram m) (Machine.page_dir m) (Machine.pools m) (Some ap));
  ap ← Pages.addr_pool MemInit.User m';
  Ok (Machine.mk (Machine.ram m') (Machine.page_dir m') (Machine.pools m') (Machine.usr_addr_pool m), (ap, a)).

(** [stl::memcpy(dst, src, 4 * n)] of aligned regions, a word at a time. *)
Definition copy_words (dst src n : Z) (m : Machine.t) : res Machine.t :=
  for_range (Z.to_nat n) 0
    (fun i m => v ← Machine.load (src +w 4 * i) m; Machine.store (dst +w 4 * i) v m) m.

(** The object of a process; a thread is its address. *)
Record t := mk {
  vr_addrs_ : PagePool.t;
  mem_block_descs_ : list MemHeap.desc;
  page_dir_ : Z;
  pid_ : Z;
  parent_pid_ : Z;
  file_descs_ : list Z;
  main_thd_ : option Z
}.
Definition with_vr_addrs (p : PagePool.t) (x : t) : t :=
  mk p (mem_block_descs_ x) (page_dir_ x) (pid_ x) (parent_pid_ x) (file_descs_ x) (main_thd_ x).
Definition with_descs (l : list MemHeap.desc) (x : t) : t :=
  mk (vr_addrs_ x) l (page_dir_ x) (pid_ x) (parent_pid_ x) (file_descs_ x) (main_thd_ x).
Definition with_page_dir (a : Z) (x : t) : t :=
  mk (vr_addrs_ x) (mem_block_descs_ x) a (pid_ x) (parent_pid_ x) (file_descs_ x) (main_thd_ x).
Definition with_pids (pid parent : Z) (x : t) : t :=
  mk (vr_addrs_ x) (mem_block_descs_ x) (page_dir_ x) pid parent (file_descs_ x) (main_thd_ x).
Definition with_file_descs (l : list Z) (x : t) : t :=
  mk (vr_addrs_ x) (mem_block_descs_ x) (page_dir_ x) (pid_ x) (parent_pid_ x) l (main_thd_ x).
Definition with_main_thd (a : option Z) (x : t) : t :=
  mk (vr_addrs_ x) (mem_block_descs_ x) (page_dir_ x) (pid_ x) (parent_pid_ x) (file_descs_ x) a.

(** A page of zeros as a process. *)
Definition zero_process : t :=
  mk (PagePool.mk 0 0 (Bitmap.mk 0 None)) [] 0 0 0 (replicate Thread.max_open_file_count 0) None.

Definition default_priority : Z := 31.
Definition image_base : Z := 0x8048000.
Definition usr_stack_base : Z := krnl_base - page_size.

(** [intr::IntrStack], the frame an interrupt leaves on a kernel stack. *)
Record IntrStack := mkIntrStack {
  intr_num : Z; edi : Z; esi : Z; ebp : Z; esp : Z; ebx : Z; edx : Z; ecx : Z; eax : Z;
  gs : Z; fs : Z; es : Z; ds : Z;
  err_code : Z; old_eip : Z; old_cs : Z; eflags : Z; old_esp : Z; old_ss : Z
}.

(** The addresses of the code that new threads start in. *)
Class Entries := { StartProcess_addr : Z }.

Section os.
Context {F : Type} `{OpenFiles F} `{Thread.Platform} `{Entries}.

(** The system: the scheduler's state, the memory, the processes, the counter
    of [CreateNewPid], and the open files. *)
Record os := mkOs {
  krnl : Thread.kernel;
  mach : Machine.t;
  procs : gmap Z t;
  last_pid : Z;
  open_files : F
}.
Definition with_krnl (k : Thread.kernel) (s : os) : os := mkOs k (mach s) (procs s) (last_pid s) (open_files s).
Definition with_mach (m : Machine.t) (s : os) : os := mkOs (krnl s) m (procs s) (last_pid s) (open_files s).
Definition with_last_pid (n : Z) (s : os) : os := mkOs (krnl s) (mach s) (procs s) n (open_files s).
Definition with_open_files (f : F) (s : os) : os := mkOs (krnl s) (mach s) (procs s) (last_pid s) f.

(** What the scheduler sees of a process. *)
Definition view (x : t) : Thread.Process := Thread.mkProcess (page_dir_ x) (file_descs_ x).
Definition with_procs (ps : gmap Z t) (s : os) : os :=
  mkOs (Thread.set_procs (view <$> ps) (krnl s)) (mach s) ps (last_pid s) (open_files s).

(** The parts of the system as its own operations. *)
Definition on_krnl (f : Thread.kernel → res Thread.kernel) : M os unit :=
  λ s, k ← f (krnl s); Ok (tt, with_krnl k s).
Definition on_krnl_ {A} (f : Thread.kernel → res (A * Thread.kernel)) : M os A :=
  λ s, '(a, k) ← f (krnl s); Ok (a, with_krnl k s).
Definition on_mach (f : Machine.t → res Machine.t) : M os unit :=
  λ s, m ← f (mach s); Ok (tt, with_mach m s).
Definition on_mach_ {A} (f : Machine.t → res (Machine.t * A)) : M os A :=
  λ s, '(m, a) ← f (mach s); Ok (a, with_mach m s).
Definition ask_mach {A} (f : Machine.t → res A) : M os A := λ s, a ← f (mach s); Ok (a, s).
Definition on_files {A} (f : M F A) : M os A :=
  λ s, '(a, x) ← f (open_files s); Ok (a, with_open_files x s).

Definition thd_at (a : Z) : M os Thread.t := k ← gets krnl; lift (Thread.get_thd a k).
Definition proc_at (a : Z) : M os t := ps ← gets procs; lift (of_option (ps !! a)).
Definition set_proc (a : Z) (x : t) : M os unit := modify (λ s, with_procs (<[a := x]> (procs s)) s).
Definition upd_proc (a : Z) (f : t → t) : M os unit := x ← proc_at a; set_proc a (f x).

(** [io::SetCr3] *)
Definition SetCr3 (a : Z) : M os unit :=
  modify (λ s, mkOs (Thread.set_cr3 a (krnl s))
    (Machine.mk (Machine.ram (mach s)) a (Machine.pools (mach s)) (Machine.usr_addr_pool (mach s)))
    (procs s) (last_pid s) (open_files s)).

(** [Thread::LoadPageDir], with the memory: the address of a page directory is
    looked up in the directory that is loaded. *)
Definition LoadPageDir (this : Z) : M os unit :=
  x ← thd_at this;
  match Thread.proc_ x with
  | Some p =>
      pr ← proc_at p;
      pa ← ask_mach (Mapping.GetPhyAddr (page_dir_ pr));
      SetCr3 pa
  | None => k ← gets krnl; SetCr3 (Thread.krnl_phy_addr k)
  end.

(** [mem::AllocPages] with [mem::AssertAlloc]. *)
Definition alloc_pages (count : Z) : M os Z :=
  a ← on_mach_ (Pages.AllocPages MemInit.Kernel count);
  assert (negb (a =? 0));;
  mret a.

(** [Process::GetCurrent]: the process of the current thread. *)
Definition GetCurrent : M os (option Z) :=
  k ← gets krnl;
  x ← thd_at (Thread.curr k);
  mret (Thread.proc_ x).

(** [mem::AllocPageAtAddr] for user memory: the pool is the process's. *)
Definition AllocPageAtAddr_usr (vr_addr : Z) : M os Z :=
  p ← GetCurrent;
  assert (bool_decide (is_Some p));;
  p ← lift (of_option p);
  pr ← proc_at p;
  '(ap, a) ← on_mach_ (AllocPageAtAddr_in (vr_addrs_ pr) vr_addr);
  set_proc p (with_vr_addrs ap pr);;
  mret a.

(** The frame [StartProcess] jumps to user mode with. *)
Definition StartProcess (code : Z) : M os IntrStack :=
  assert (negb (code =? 0));;
  stack ← AllocPageAtAddr_usr usr_stack_base;
  assert (negb (stack =? 0));;
  mret (mkIntrStack 0 0 0 0 0 0 0 0 0 0 Selector.usr_data Selector.usr_data Selector.usr_data
          0 code Selector.usr_code (EFlags.SetIf (EFlags.make 0)) (stack +w page_size) Selector.usr_data).

(** The bitmap of the pool is in fresh pages, which are cleared. *)
Definition InitVrAddrPool (this : Z) : M os unit :=
  let byte_len := (krnl_base - image_base) / page_size / 8 in
  let page_count := CalcPageCount byte_len in
  bits ← alloc_pages page_count;
  upd_proc this (with_vr_addrs (VrAddrPool.Init image_base (MemInit.zero_bitmap byte_len))).

Definition InitMemBlockDescTab (this : Z) : M os unit :=
  descs ← lift MemHeap.MemBlockDescTab_Init;
  upd_proc this (with_descs descs).

Definition InitPageDir (this : Z) : M os unit :=
  page_dir ← on_mach_ (Pages.AllocPages MemInit.Kernel 1);
  upd_proc this (with_page_dir page_dir);;
  assert (negb (page_dir =? 0));;
  on_mach (copy_words (page_dir +w 4 * VrAddr.krnl_page_dir_start)
             (page_dir_base +w 4 * VrAddr.krnl_page_dir_start) VrAddr.krnl_page_dir_count);;
  phy_addr ← ask_mach (Mapping.GetPhyAddr page_dir);
  on_mach (Machine.store (page_dir +w 4 * page_dir_self_ref) (PageEntry.Format phy_addr true false true)).

Definition CreateNewPid : M os Z :=
  n ← gets last_pid;
  modify (with_last_pid (n +w 1));;
  mret (n +w 1).

Definition CreateThread (this : Z) (name : string_view.t) (priority callback arg : Z) : M os Z :=
  page ← on_mach_ (Pages.AllocPages MemInit.Kernel 1);
  on_krnl_ (Thread.Create (if page =? 0 then None else Some page) name priority callback arg (Some this)).

Definition Init (this : Z) (name : string_view.t) (code : Z) : M os unit :=
  assert (negb (code =? 0));;
  InitVrAddrPool this;;
  InitPageDir this;;
  InitMemBlockDescTab this;;
  x ← proc_at this;
  tab ← lift (FileDescTab.Init (file_descs_ x));
  set_proc this (with_file_descs tab x);;
  pid ← CreateNewPid;
  upd_proc this (with_pids pid metric.npos);;
  thd ← CreateThread this name default_priority StartProcess_addr code;
  upd_proc this (with_main_thd (Some thd)).

(** [mem::AllocPages<Process>]: a page of the kernel as a process. *)
Definition alloc_process : M os Z :=
  proc ← alloc_pages 1;
  set_proc proc zero_process;;
  mret proc.

Definition Create (name : string_view.t) (code : Z) : M os Z :=
  proc ← alloc_process;
  Init proc name code;;
  mret proc.

Definition GetMainThread (x : t) : res Z :=
  Assert (bool_decide (is_Some (main_thd_ x)));; of_option (main_thd_ x).

Definition GetCurrPid : M os Z :=
  p ← GetCurrent;
  match p with
  | Some p => pr ← proc_at p; mret (pid_ pr)
  | None => mret 0
  end.

(** ** Fork *)

Definition CopyFileDescTabTo (this child : Z) : M os unit :=
  x ← proc_at this;
  upd_proc child (with_file_descs (file_descs_ x));;
  on_files (fork_file_descs (drop FileDesc.std_stream_count (file_descs_ x))).

(** One page of [CopyMemTo]. *)
Definition copy_page (this child buf i : Z) : M os unit :=
  x ← proc_at this;
  alloc ← lift (Bitmap.IsAlloc (VrAddrPool.GetBitmap (vr_addrs_ x)) i);
  if alloc : bool then
    let addr := VrAddrPool.GetStartAddr (vr_addrs_ x) +w i *w page_size in
    on_mach (copy_words buf addr (page_size / 4));;
    y ← proc_at child;
    thd ← lift (of_option (main_thd_ y));
    LoadPageDir thd;;
    y ← proc_at child;
    '(ap, a) ← on_mach_ (AllocPageAtAddr_in (vr_addrs_ y) addr);
    set_proc child (with_vr_addrs ap y);;
    on_mach (copy_words addr buf (page_size / 4));;
    thd ← lift (of_option (main_thd_ x));
    LoadPageDir thd
  else mret tt.

Definition CopyMemTo (this child buf buf_size : Z) : M os unit :=
  assert (negb (buf =? 0) && (page_size <=? buf_size));;
  x ← proc_at this;
  y ← proc_at child;
  assert (bool_decide (is_Some (main_thd_ x)) && bool_decide (is_Some (main_thd_ y)));;
  thd ← lift (of_option (main_thd_ y));
  c ← thd_at thd;
  assert (bool_decide (Thread.proc_ c = Some child));;
  for_M (Z.to_nat (Bitmap.GetCapacity (VrAddrPool.GetBitmap (vr_addrs_ x)))) 0
    (λ i _, copy_page this child buf i) tt.

(** [main_thd_->proc_ = child] *)
Definition set_thread_proc (thd proc : Z) : M os unit :=
  on_krnl (Thread.upd_thd thd (λ x,
    Thread.mk (Thread.name_ x) (Thread.krnl_stack_ x) (Thread.status_ x) (Thread.priority_ x)
      (Thread.remain_ticks_ x) (Thread.elapsed_ticks_ x) (Some proc) (Thread.stack_guard_ x)
      (Thread.file_descs_ x) (Thread.words x))).

(** [main_thd_->Fork()]: the thread's page is a page of the kernel. *)
Definition fork_thread (thd : Z) : M os Z :=
  page ← on_mach_ (Pages.AllocPages MemInit.Kernel 1);
  on_krnl_ (Thread.Fork (if page =? 0 then None else Some page) thd).

Definition Fork (this : Z) : M os Z :=
  k ← gets krnl;
  assert (negb (Thread.intr_on k));;
  x ← proc_at this;
  child ← alloc_process;
  pid ← CreateNewPid;
  upd_proc child (with_pids pid (pid_ x));;
  InitMemBlockDescTab child;;
  InitVrAddrPool child;;
  InitPageDir child;;
  thd ← lift (of_option (main_thd_ x));
  thd' ← fork_thread thd;
  upd_proc child (with_main_thd (Some thd'));;
  set_thread_proc thd' child;;
  CopyFileDescTabTo this child;;
  buf ← on_mach_ (Pages.AllocPages MemInit.Kernel 1);
  CopyMemTo this child buf page_size;;
  on_mach (Pages.FreePages buf 1);;
  y ← proc_at child;
  mret (pid_ y).

Definition ForkCurrent : M os Z :=
  proc ← GetCurrent;
  assert (bool_decide (is_Some proc));;
  proc ← lift (of_option proc);
  Fork proc.
End os.
End Process.
