(* ===== verification/ProcCopy.v ===== *)
(** * Copying the memory of a process

    What [CopyMemTo] of src/src/kernel/process/proc.cpp (Proc) does: the child
    gets pages of its own with the words of its parent at the addresses of its
    parent, and the parent's memory stays as it is. [forking] is the invariant of
    its loop, over the owners of frames of MemSpace. *)
From S2P Require Import Prelude UtilBit UtilBitmap MemPage MemPool MemMap MemPages MemSpace ThreadSched FsBase Proc.
Import Page VrAddr Machine Mapping Pages KernelPages Space Process.

Module Copy.

(** ** Copying words between frames *)

(** [m'] is [m] with [n] words from the frame [fs] at word [b] in the frame
    [fd] at word [a]. *)
Record copied (fd a fs b n : Z) (m m' : Machine.t) : Prop := {
  cp_dir : page_dir m' = page_dir m;
  cp_pools : pools m' = pools m ∧ usr_addr_pool m' = usr_addr_pool m;
  cp_words : ∀ j, 0 ≤ j < n → word m' (fd + 4 * (a + j)) = word m (fs + 4 * (b + j));
  cp_rest : ∀ x, (∀ j, 0 ≤ j < n → x ≠ fd + 4 * (a + j)) → word m' x = word m x
}.

Section copy.
Context (own : Z → owner) (d : Z) (m : Machine.t) (dst src fd fs a b : Z).
Context (Hf : frames_ok own m) (Hs : space_ok own d m).
Context (Hdst : translate (space d m) dst = Some fd) (Hsrc : translate (space d m) src = Some fs).
Context (Hda : 0 ≤ dst ∧ dst mod 4096 = 0 ∧ dst + 4096 ≤ 2 ^ 32).
Context (Hsa : 0 ≤ src ∧ src mod 4096 = 0 ∧ src + 4096 ≤ 2 ^ 32).
Context (Hfd : fd mod 4096 = 0) (Hfs : fs mod 4096 = 0) (Hne : fd ≠ fs) (Htab : ¬ tables d (own fd)).

(** Writes to the target change no translation. *)
Lemma copied_space n mi :
  0 ≤ a → a + n ≤ 1024 → copied fd a fs b n (space d m) mi →
  frames_ok own mi → space_ok own d mi ∧ ∀ x, translate mi x = translate (space d m) x.
Proof.
  intros Ha Hn [C1 [C2 C3] _ C4] Hfi.
  destruct (tables_agree own d m Hs own mi) as (H1 & _ & H2);
    [done| |split; [done|intros x; by rewrite <- H2, space_same]].
  intros g j Hg Hj Ho. apply C4. intros i Hi E. apply frame_word_inj in E as [-> _]; done || lia.
Qed.

Lemma copied_frames n mi :
  copied fd a fs b n (space d m) mi → (∀ x, in_u 32 (word mi x)) → frames_ok own mi.
Proof.
  intros [_ [C2 _] _ _] Hw. destruct Hf as [_ F2 F3 F4 F5].
  assert (E1 : krnl_pool mi = krnl_pool m) by (unfold krnl_pool; by rewrite C2).
  assert (E2 : usr_pool mi = usr_pool m) by (unfold usr_pool; by rewrite C2).
  split; rewrite ?E1, ?E2; try done. intros x. unfold is_free. rewrite E1, E2. apply F5.
Qed.

Lemma word_addr va k o : 0 ≤ va → va + 4096 ≤ 2 ^ 32 → 0 ≤ k → 0 ≤ o → k + o < 1024 →
  (va + 4 * k) +w 4 * o = va + 4 * (k + o).
Proof. intros. rewrite u32_small; lia. Qed.

Lemma translate_word mi va f k :
  0 ≤ va → va mod 4096 = 0 → va + 4096 ≤ 2 ^ 32 → 0 ≤ k < 1024 → translate mi va = Some f →
  translate mi (va + 4 * k) = Some (f + 4 * k).
Proof.
  intros H0 Hal Hr Hk Ht. destruct (page_offset va (4 * k)) as (Hsp & E1 & E2); [lia..|].
  rewrite (translate_same_page _ _ _ Hsp), Ht. simpl. rewrite E1, E2. f_equal. lia.
Qed.

Lemma copy_words_ok n :
  0 ≤ a → 0 ≤ b → 0 ≤ n → a + n ≤ 1024 → b + n ≤ 1024 →
  ∃ m', copy_words (dst + 4 * a) (src + 4 * b) n (space d m) = Ok m'
    ∧ copied fd a fs b n (space d m) m' ∧ frames_ok own m' ∧ space_ok own d m'
    ∧ ∀ x, translate m' x = translate (space d m) x.
Proof.
  intros Ha Hb Hn Han Hbn. unfold copy_words.
  destruct (for_range_inv (λ i mi, copied fd a fs b i (space d m) mi ∧ ∀ x, in_u 32 (word mi x))
    (Z.to_nat n) 0 (λ i mi, v ← load ((src + 4 * b) +w 4 * i) mi; store ((dst + 4 * a) +w 4 * i) v mi) (space d m))
    as (m' & HR & HC & HW).
  - split; [split; try done; intros; lia|apply (fo_words _ _ Hf)].
  - intros k mi Hk [HC HW]. rewrite Z.add_0_l, Z2Nat.id in Hk by lia.
    assert (Hfi : frames_ok own mi) by (by eapply copied_frames).
    destruct (copied_space k mi) as [Hsi Hti]; [lia|lia|done|done|].
    rewrite !word_addr by lia. unfold load, store.
    rewrite (translate_word mi src fs) by (done || lia || by rewrite Hti). simpl.
    rewrite (translate_word mi dst fd) by (done || lia || by rewrite Hti). simpl.
    eexists. split; [done|]. destruct HC as [C1 [C2 C3] C4 C5]. split; [split|].
    + done.
    + done.
    + intros j Hj. destruct (decide (j = k)) as [->|].
      * rewrite word_set_eq. apply C5. intros i Hi E. apply frame_word_inj in E as [E _]; done || lia.
      * rewrite word_set_ne by lia. apply C4. lia.
    + intros x Hx. rewrite word_set_ne by (apply not_eq_sym, Hx; lia). apply C5. intros j Hj. apply Hx. lia.
    + intros x. destruct (decide (fd + 4 * (a + k) = x)) as [<-|].
      * rewrite word_set_eq. apply HW.
      * by rewrite word_set_ne.
  - rewrite Z.add_0_l, Z2Nat.id in HC by lia. exists m'. split; [done|]. split; [done|].
    assert (Hfi : frames_ok own m') by (by eapply copied_frames). split; [done|].
    by apply (copied_space n m').
Qed.
End copy.

(** A whole page. *)
Lemma copy_page_ok own d m dst src fd fs :
  frames_ok own m → space_ok own d m →
  translate (space d m) dst = Some fd → translate (space d m) src = Some fs →
  0 ≤ dst ∧ dst mod 4096 = 0 ∧ dst + 4096 ≤ 2 ^ 32 → 0 ≤ src ∧ src mod 4096 = 0 ∧ src + 4096 ≤ 2 ^ 32 →
  fd mod 4096 = 0 → fs mod 4096 = 0 → fd ≠ fs → ¬ tables d (own fd) →
  ∃ m', copy_words dst src (page_size / 4) (space d m) = Ok m' ∧ page_dir m' = d
    ∧ pools m' = pools m ∧ usr_addr_pool m' = usr_addr_pool m ∧ frames_ok own m'
    ∧ (∀ w, 0 ≤ w < 1024 → word m' (fd + 4 * w) = word m (fs + 4 * w))
    ∧ (∀ f j, f mod 4096 = 0 → 0 ≤ j < 1024 → f ≠ fd → word m' (f + 4 * j) = word m (f + 4 * j)).
Proof.
  intros Hf Hs Hdst Hsrc Hda Hsa Hfd Hfs Hne Ht.
  destruct (copy_words_ok own d m dst src fd fs 0 0 Hf Hs Hdst Hsrc Hda Hsa Hfd Hfs Hne Ht 1024)
    as (m' & HC & [C1 [C2 C3] C4 C5] & Hf' & _); [lia..|].
  rewrite !Z.mul_0_r, !Z.add_0_r in HC. exists m'. split_and!; try done.
  intros f j Hfl Hj Hff. apply C5. intros k Hk E. apply frame_word_inj in E as [? _]; done || lia.
Qed.

(** ** The memory of a parent and of its child *)

Definition page_addr (ap : PagePool.t) (i : Z) : Z := PagePool.page_at ap i.
(** A page-aligned address of the kernel's part, below the window on the tables. *)
Definition krnl_page (va : Z) : Prop :=
  0 ≤ va ∧ va mod 4096 = 0 ∧ va + 4096 ≤ 2 ^ 32 ∧ plain va ∧ 768 ≤ GetPageDirEntryIdx va.
(** The pool of addresses of a process lies below the kernel. *)
Definition usr_pool_ok (ap : PagePool.t) : Prop :=
  PagePool.ok ap ∧ page_addr ap (PagePool.capacity ap) ≤ krnl_base.
(** How many of the first [i] pages are taken. *)
Definition taken_below (ap : PagePool.t) (i : Z) : Z := i - PagePool.nfree (PagePool.taken ap) 0 i.

(** The user memory of the directory [d]: what is taken is mapped at pages of
    its own, the rest is not mapped. *)
Record usr_space (own : Z → owner) (d : Z) (ap : PagePool.t) (m : Machine.t) : Prop := {
  us_space : space_ok own d m;
  us_mapped : ∀ i, 0 ≤ i < PagePool.capacity ap → PagePool.taken ap i = true →
    ∃ f, translate (space d m) (page_addr ap i) = Some f ∧ own f = Usr d ∧ f mod 4096 = 0;
  us_unmapped : ∀ i, 0 ≤ i < PagePool.capacity ap → PagePool.taken ap i = false →
    translate (space d m) (page_addr ap i) = None
}.

Lemma usr_page_fields ap i :
  usr_pool_ok ap → 0 ≤ i < PagePool.capacity ap →
  0 ≤ page_addr ap i ∧ page_addr ap i mod 4096 = 0 ∧ page_addr ap i + 4096 ≤ 2 ^ 32
  ∧ plain (page_addr ap i) ∧ GetPageDirEntryIdx (page_addr ap i) < 768
  ∧ PagePool.start_addr_ ap +w i *w page_size = page_addr ap i.
Proof.
  intros [Hok Hle] Hi. destruct (PagePool.page_addr_ok ap i Hok Hi) as [E Hr].
  pose proof (PagePool.page_at_aligned ap i Hok) as Ha. fold (page_addr ap i) in *.
  assert (Hk : page_addr ap i + 4096 ≤ krnl_base) by (unfold page_addr, PagePool.page_at in *; lia).
  unfold krnl_base in Hk. assert (GetPageDirEntryIdx (page_addr ap i) < 768).
  { rewrite GetPageDirEntryIdx_eq by lia. apply Z.div_lt_upper_bound; lia. }
  split_and!; try done; try lia. unfold plain. lia.
Qed.

Lemma page_addr_inj ap i j : page_addr ap i = page_addr ap j → i = j.
Proof. unfold page_addr, PagePool.page_at. lia. Qed.

Lemma same_page_eq a b :
  0 ≤ a < 2 ^ 32 → 0 ≤ b < 2 ^ 32 → a mod 4096 = 0 → b mod 4096 = 0 → same_page a b → a = b.
Proof. intros Ha Hb. intros Ha' Hb' [E1 E2]. rewrite !GetPageDirEntryIdx_eq, !GetPageTabEntryIdx_eq in * by done. div_lia. Qed.

Lemma taken_below_step ap i :
  0 ≤ i → taken_below ap (i + 1) = taken_below ap i + if PagePool.taken ap i then 1 else 0.
Proof.
  intros Hi. unfold taken_below. rewrite PagePool.nfree_split by lia. rewrite Z.add_0_l.
  rewrite (PagePool.nfree_const (PagePool.taken ap) i 1 (PagePool.taken ap i)); [case_match; lia|lia|].
  intros j Hj. by replace j with i by lia.
Qed.
Lemma taken_below_mono ap i n : 0 ≤ i → 0 ≤ n → taken_below ap i ≤ taken_below ap (i + n).
Proof.
  intros. unfold taken_below. rewrite PagePool.nfree_split by lia.
  pose proof (PagePool.nfree_range (PagePool.taken ap) (0 + i) n). lia.
Qed.

(** [d1] refers to the kernel's page tables of [d0]. *)
Definition shares_kernel (d0 d1 : Z) (m : Machine.t) : Prop :=
  ∀ k, 768 ≤ k < 1023 → pde (space d1 m) k = pde (space d0 m) k.

Lemma shares_translate d0 d1 m a :
  shares_kernel d0 d1 m → plain a → 768 ≤ GetPageDirEntryIdx a →
  translate (space d1 m) a = translate (space d0 m) a.
Proof.
  intros Hs Ha Hk. pose proof (GetPageDirEntryIdx_range a). unfold plain in Ha.
  unfold translate. cbv zeta. rewrite !(Hs (GetPageDirEntryIdx a)) by lia. reflexivity.
Qed.

(** The parent [d0] and the child [d1] after a copy of memory, which was [m0]
    before: both have the same pages of user memory, at different frames, with
    the words the parent's had; they share the kernel's memory. *)
Record memory_copied (own : Z → owner) (d0 d1 : Z) (ap apc : PagePool.t) (m0 m : Machine.t) : Prop := {
  mc_parent : usr_space own d0 ap m;
  mc_child : usr_space own d1 apc m;
  mc_pool : PagePool.ok apc ∧ PagePool.start_addr_ apc = PagePool.start_addr_ ap
    ∧ PagePool.capacity apc = PagePool.capacity ap
    ∧ ∀ i, 0 ≤ i < PagePool.capacity ap → PagePool.taken apc i = PagePool.taken ap i;
  mc_words : ∀ i w, 0 ≤ i < PagePool.capacity ap → PagePool.taken ap i = true → 0 ≤ w < 1024 →
    load (page_addr ap i + 4 * w) (space d1 m) = load (page_addr ap i + 4 * w) (space d0 m0)
    ∧ load (page_addr ap i + 4 * w) (space d0 m) = load (page_addr ap i + 4 * w) (space d0 m0);
  mc_distinct : ∀ i j g, 0 ≤ i < PagePool.capacity ap → 0 ≤ j < PagePool.capacity ap →
    PagePool.taken ap i = true → PagePool.taken ap j = true →
    translate (space d1 m) (page_addr ap i) = Some g → translate (space d1 m) (page_addr ap j) = Some g → i = j;
  mc_krnl : shares_kernel d0 d1 m
}.

(** The address space of a child before the copy: the kernel's pages are those
    of the parent, and no page of the user's part is taken or mapped. *)
Record empty_child (own0 : Z → owner) (d0 d1 : Z) (ap apc : PagePool.t) (m0 : Machine.t) : Prop := {
  ec_space : space_ok own0 d1 m0;
  ec_krnl : shares_kernel d0 d1 m0;
  ec_pool : PagePool.ok apc ∧ PagePool.start_addr_ apc = PagePool.start_addr_ ap
    ∧ PagePool.capacity apc = PagePool.capacity ap ∧ ∀ j, 0 ≤ j → PagePool.taken apc j = false;
  ec_unmapped : ∀ i, 0 ≤ i < PagePool.capacity ap → translate (space d1 m0) (page_addr ap i) = None
}.

Section memory.
Context (own0 : Z → owner) (m0 : Machine.t) (d0 d1 buf fb : Z) (ap : PagePool.t).
Local Abbreviation page := (page_addr ap).
Local Abbreviation cap := (PagePool.capacity ap).
Context (Hap : usr_pool_ok ap) (Hpar : usr_space own0 d0 ap m0).
Context (Hbuf : krnl_page buf) (Hfb : translate (space d0 m0) buf = Some fb).
Context (Hfo : own0 fb = Other) (Hfa : fb mod 4096 = 0) (Hd : d0 ≠ d1).

(** The memory while the child gets the first [i] pages: [own] and [apc] are
    the owners and the child's pool so far. *)
Record forking (i : Z) (own : Z → owner) (apc : PagePool.t) (m : Machine.t) : Prop := {
  fk_frames : frames_ok own m;
  fk_takes : takes own0 own;
  fk_parent : space_ok own d0 m ∧ ∀ a, translate (space d0 m) a = translate (space d0 m0) a;
  fk_child : space_ok own d1 m;
  fk_krnl : ∀ a, plain a → 768 ≤ GetPageDirEntryIdx a →
    translate (space d1 m) a = translate (space d0 m0) a;
  fk_pdes : (∀ k, 0 ≤ k < 1024 → pde (space d0 m) k = pde (space d0 m0) k)
    ∧ ∀ k, 768 ≤ k < 1023 → pde (space d1 m) k = pde (space d1 m0) k;
  fk_words : ∀ f j, f mod 4096 = 0 → 0 ≤ j < 1024 → own0 f ≠ Free → own0 f ≠ Tab d1 → f ≠ fb →
    word m (f + 4 * j) = word m0 (f + 4 * j);
  fk_within : pool_within (krnl_pool m0) (krnl_pool m);
  fk_krnl_count : PagePool.free_count_ (krnl_pool m0) - taken_below ap i
    ≤ PagePool.free_count_ (krnl_pool m);
  fk_usr_count : PagePool.free_count_ (usr_pool m) = PagePool.free_count_ (usr_pool m0) - taken_below ap i;
  fk_addrs : usr_addr_pool m = usr_addr_pool m0
    ∧ MemInit.krnl_addr_pool (pools m) = MemInit.krnl_addr_pool (pools m0);
  fk_pool : PagePool.ok apc ∧ PagePool.start_addr_ apc = PagePool.start_addr_ ap
    ∧ PagePool.capacity apc = cap ∧ ∀ j, 0 ≤ j → PagePool.taken apc j = PagePool.taken ap j && (j <? i);
  fk_mapped : ∀ j, 0 ≤ j < cap → PagePool.taken apc j = true →
    ∃ g, translate (space d1 m) (page j) = Some g ∧ own g = Usr d1 ∧ own0 g = Free ∧ g mod 4096 = 0;
  fk_distinct : ∀ j j' g, 0 ≤ j < cap → 0 ≤ j' < cap → PagePool.taken apc j = true →
    PagePool.taken apc j' = true → translate (space d1 m) (page j) = Some g →
    translate (space d1 m) (page j') = Some g → j = j';
  fk_unmapped : ∀ j, 0 ≤ j < cap → PagePool.taken apc j = false → translate (space d1 m) (page j) = None
}.

(** The first [n] pages that are taken hold the parent's words. *)
Definition same_pages (n : Z) (m : Machine.t) : Prop :=
  ∀ j f g, 0 ≤ j < cap → j < n → PagePool.taken ap j = true →
    translate (space d0 m0) (page j) = Some f → translate (space d1 m) (page j) = Some g →
    ∀ w, 0 ≤ w < 1024 → word m (g + 4 * w) = word m0 (f + 4 * w).

(** Writing the words of a frame that is no table. *)
Lemma forking_write i own apc m m' h :
  forking i own apc m → frames_ok own m' → pools m' = pools m → usr_addr_pool m' = usr_addr_pool m →
  (∀ f j, f mod 4096 = 0 → 0 ≤ j < 1024 → f ≠ h → word m' (f + 4 * j) = word m (f + 4 * j)) →
  own h = Usr d1 ∧ own0 h = Free ∨ h = fb →
  forking i own apc m' ∧ ∀ a, translate (space d1 m') a = translate (space d1 m) a.
Proof.
  intros [F1 F2 [F3 F4] F5 F6 Fp F7 Fw F8 F9 F10 F11 F12 F13 F14] Hf Hp Hu Hw Hh.
  assert (Ho : own h = Usr d1 ∨ own h = Other).
  { destruct Hh as [[? _]| ->]; [by left|right]. rewrite F2; [done|congruence]. }
  assert (Ha : ∀ d, agree own (tables d) m m').
  { intros d f j Hfa' Hj Hfo'. apply Hw; [done|done|]. intros ->. destruct Ho, Hfo'; congruence. }
  destruct (tables_agree own d0 m F3 own m' (takes_refl own) (Ha d0)) as (H1 & Hd0 & H2).
  destruct (tables_agree own d1 m F5 own m' (takes_refl own) (Ha d1)) as (H3 & Hd1 & H4).
  assert (Ek : krnl_pool m' = krnl_pool m) by (unfold krnl_pool; by rewrite Hp).
  assert (Eu : usr_pool m' = usr_pool m) by (unfold usr_pool; by rewrite Hp).
  split; [|done]. split; rewrite ?Ek, ?Eu, ?Hp, ?Hu; try done.
  - split; [done|]. intros a. by rewrite H2.
  - intros a ? ?. rewrite H4. by apply F6.
  - destruct Fp as [Fp0 Fp1]. split; [intros k Hk; by rewrite Hd0, Fp0|].
    intros k Hk. rewrite Hd1 by lia. by apply Fp1.
  - intros f j ? ? Hn Ht Hb. rewrite Hw; [by apply F7|done|done|]. intros ->.
    destruct Hh as [[_ ?]|?]; congruence.
  - intros j ? ?. rewrite H4. by apply F12.
  - intros j j' g ? ? ? ?. rewrite !H4. by apply F13.
  - intros j ? ?. rewrite H4. by apply F14.
Qed.

Lemma same_pages_write i own apc m m' h n :
  forking i own apc m → n ≤ i → same_pages n m →
  (∀ a, translate (space d1 m') a = translate (space d1 m) a) →
  (∀ f j, f mod 4096 = 0 → 0 ≤ j < 1024 → f ≠ h → word m' (f + 4 * j) = word m (f + 4 * j)) →
  (∀ j, 0 ≤ j < n → j < cap → PagePool.taken ap j = true → translate (space d1 m) (page j) ≠ Some h) →
  same_pages n m'.
Proof.
  intros HF Hn Hs Ht Hw Hh j f g Hj Hjn Htk Hf Hg w Hx. rewrite Ht in Hg.
  destruct (fk_pool _ _ _ _ HF) as (_ & _ & _ & Hp). destruct (fk_mapped _ _ _ _ HF j Hj) as (g' & Hg' & _ & _ & Hga).
  { rewrite Hp, Htk by lia. apply andb_true_iff. split; [done|]. apply Z.ltb_lt. lia. }
  assert (g' = g) as -> by congruence. rewrite Hw; [by apply (Hs j)|done|done|].
  intros ->. by apply (Hh j); [lia|lia|..].
Qed.

(** The parent's page goes to the buffer. *)
Lemma copy_out i own apc m f :
  forking i own apc m → page_dir m = d0 → 0 ≤ i < cap → PagePool.taken ap i = true →
  translate (space d0 m0) (page i) = Some f → same_pages i m →
  ∃ m1, copy_words buf (page i) (page_size / 4) m = Ok m1 ∧ page_dir m1 = d0 ∧ forking i own apc m1
    ∧ (∀ w, 0 ≤ w < 1024 → word m1 (fb + 4 * w) = word m0 (f + 4 * w)) ∧ same_pages i m1.
Proof.
  intros HF Hdir Hi Htk Hf Hs. destruct (us_mapped _ _ _ _ Hpar i Hi Htk) as (f' & Hf' & Hfu & Hfal).
  assert (f' = f) as -> by congruence. pose proof (fk_takes _ _ _ _ HF) as Ht.
  destruct (fk_parent _ _ _ _ HF) as [Hs0 Htr].
  destruct (usr_page_fields ap i Hap Hi) as (P1 & P2 & P3 & _). destruct Hbuf as (B1 & B2 & B3 & _).
  assert (Hob : own fb = Other) by (rewrite Ht; [done|congruence]).
  destruct (copy_page_ok own d0 m buf (page i) fb f (fk_frames _ _ _ _ HF) Hs0)
    as (m1 & HC & Hd1 & Hp1 & Hu1 & Hf1 & Hw1 & Hr1); try done; try (by rewrite Htr).
  { congruence. } { rewrite Hob. intros [|]; done. }
  rewrite (space_same d0 m Hdir) in HC. exists m1. split; [done|]. split; [done|].
  destruct (forking_write i own apc m m1 fb HF Hf1 Hp1 Hu1 Hr1) as [HF1 Ht1]; [by right|].
  split; [done|]. split.
  - intros w Hw. rewrite Hw1 by done. apply (fk_words _ _ _ _ HF); try done; congruence.
  - apply (same_pages_write i own apc m m1 fb i HF); try done; try lia.
    intros j Hj Hjc Hjt. destruct (fk_pool _ _ _ _ HF) as (_ & _ & _ & Hp).
    destruct (fk_mapped _ _ _ _ HF j) as (g & Hg & Hgo & _); [lia| |congruence].
    rewrite Hp, Hjt by lia. apply Z.ltb_lt. lia.
Qed.

(** The buffer goes to the child's page. *)
Lemma copy_in i own apc m f g :
  forking (i + 1) own apc m → page_dir m = d1 → 0 ≤ i < cap → PagePool.taken ap i = true →
  translate (space d0 m0) (page i) = Some f → translate (space d1 m) (page i) = Some g →
  (∀ w, 0 ≤ w < 1024 → word m (fb + 4 * w) = word m0 (f + 4 * w)) → same_pages i m →
  ∃ m1, copy_words (page i) buf (page_size / 4) m = Ok m1 ∧ page_dir m1 = d1
    ∧ forking (i + 1) own apc m1 ∧ same_pages (i + 1) m1.
Proof.
  intros HF Hdir Hi Htk Hf Hg Hb Hs.
  destruct (fk_pool _ _ _ _ HF) as (_ & _ & _ & Hp).
  assert (Hpt : ∀ j, 0 ≤ j < i + 1 → PagePool.taken ap j = true → PagePool.taken apc j = true).
  { intros j Hj Hjt. rewrite Hp, Hjt by lia. apply Z.ltb_lt. lia. }
  destruct (fk_mapped _ _ _ _ HF i Hi (Hpt i ltac:(lia) Htk)) as (g' & Hg' & Hgo & Hg0 & Hgal).
  assert (g' = g) as -> by congruence. destruct (usr_page_fields ap i Hap Hi) as (P1 & P2 & P3 & _).
  destruct Hbuf as (B1 & B2 & B3 & B4 & B5).
  destruct (copy_page_ok own d1 m (page i) buf g fb (fk_frames _ _ _ _ HF) (fk_child _ _ _ _ HF))
    as (m1 & HC & Hd1 & Hp1 & Hu1 & Hf1 & Hw1 & Hr1); try done.
  { by rewrite (fk_krnl _ _ _ _ HF). } { congruence. } { rewrite Hgo. intros [|]; done. }
  rewrite (space_same d1 m Hdir) in HC. exists m1. split; [done|]. split; [done|].
  destruct (forking_write (i + 1) own apc m m1 g HF Hf1 Hp1 Hu1 Hr1) as [HF1 Ht1]; [by left|].
  split; [done|]. intros j x y Hj Hji Hjt Hx Hy w Hw. destruct (decide (j = i)) as [->|Hne].
  - rewrite Ht1 in Hy. assert (y = g) as -> by congruence. assert (x = f) as -> by congruence.
    rewrite Hw1 by done. by apply Hb.
  - assert (Hsw : same_pages i m1); [|by apply (Hsw j x y); try done; lia].
    apply (same_pages_write (i + 1) own apc m m1 g i HF); try done; try lia.
    intros k Hk Hkc Hkt Hkg. assert (k = i); [|lia].
    apply (fk_distinct _ _ _ _ HF k i g); try done; [lia|apply Hpt; [lia|done]|apply Hpt; [lia|done]].
Qed.

Lemma other_page j i :
  0 ≤ j < cap → 0 ≤ i < cap → j ≠ i → plain (page j) ∧ ¬ same_page (page j) (page i).
Proof.
  intros Hj Hi Hne. destruct (usr_page_fields ap j Hap Hj) as (? & ? & ? & ? & _).
  destruct (usr_page_fields ap i Hap Hi) as (? & ? & ? & ? & _). split; [done|].
  intros E. apply Hne, (page_addr_inj ap). by apply same_page_eq; try lia.
Qed.

(** The child gets a page at the address of the parent's. *)
Section child_page.
Context (i : Z) (own own' : Z → owner) (apc apc' : PagePool.t) (m m' : Machine.t) (g : Z).
Context (HF : forking i own apc m) (Hi : 0 ≤ i < cap) (Htk : PagePool.taken ap i = true).
Context (Hok : PagePool.ok apc') (Hch : PagePool.changed apc apc' i 1 true).
Context (Hup : usr_page own d1 m (page i) own' m' g).

Lemma child_taken j : 0 ≤ j → PagePool.taken apc' j = PagePool.taken ap j && (j <? i + 1).
Proof.
  intros Hj. destruct Hch as (_ & _ & _ & E). destruct (fk_pool _ _ _ _ HF) as (_ & _ & _ & E').
  rewrite E, E' by done. destruct (decide (j = i)) as [->|].
  - rewrite Z.leb_refl, Htk. destruct (Z.ltb_spec i (i + 1)); [done|lia].
  - destruct (Z.leb_spec i j), (Z.ltb_spec j (i + 1)), (Z.ltb_spec j i); simpl; done || lia.
Qed.

Lemma child_translate j : 0 ≤ j < cap → j ≠ i →
  translate (space d1 m') (page j) = translate (space d1 m) (page j).
Proof.
  intros Hj Hne. destruct (other_page j i Hj Hi Hne). rewrite (space_same d1 m' (up_dir _ _ _ _ _ _ _ Hup)).
  by apply (up_others _ _ _ _ _ _ _ Hup).
Qed.

Lemma child_translate_new : translate (space d1 m') (page i) = Some g.
Proof.
  destruct (usr_page_fields ap i Hap Hi) as (P1 & P2 & P3 & P4 & _).
  rewrite (space_same d1 m' (up_dir _ _ _ _ _ _ _ Hup)).
  rewrite (up_page _ _ _ _ _ _ _ Hup (page i)) by done.
  destruct (page_offset (page i) 0) as (_ & _ & ->); [lia..|]. by rewrite Z.add_0_r.
Qed.

Lemma child_forking : forking (i + 1) own' apc' m'.
Proof.
  pose proof HF as [F1 F2 [F3 F4] F5 F6 Fp F7 Fw F8 F9 F10 (F11a & F11b & F11c & _) F12 F13 F14].
  pose proof Hup as [U1 [U2 U3] Uw U4 U5 U6 U7 U8 U9 (Ug & Ug' & Uga) U10 Up U11 U12].
  assert (Hkeep : ∀ f, own f ≠ Free → own f ≠ Tab d1 → own' f ≠ Tab d1) by (intros f ? ?; by rewrite U8).
  destruct (tables_agree own d0 m F3 own' m' U8) as (H1 & Hd0 & H2).
  { intros f j ? ? Ho. apply U10; [done|done|]. apply Hkeep; destruct Ho; congruence. }
  assert (Hold : ∀ j, 0 ≤ j < cap → PagePool.taken apc' j = true → j ≠ i → PagePool.taken apc j = true).
  { intros j Hj Hjt Hne. destruct (fk_pool _ _ _ _ HF) as (_ & _ & _ & E). rewrite child_taken in Hjt by lia.
    rewrite E by lia. apply andb_true_iff in Hjt as [-> Hlt%Z.ltb_lt]. apply Z.ltb_lt. lia. }
  pose proof (taken_below_step ap i (proj1 Hi)) as Hstep. rewrite Htk in Hstep.
  split; try done.
  - by eapply takes_trans.
  - split; [done|]. intros a. by rewrite H2.
  - intros a Ha Hk. rewrite (space_same d1 m' U1), U12; [by apply F6|done|].
    intros [E _]. destruct (usr_page_fields ap i Hap Hi) as (_ & _ & _ & _ & ? & _). lia.
  - destruct Fp as [Fp0 Fp1]. split; [intros k Hk; by rewrite Hd0, Fp0|].
    intros k Hk. rewrite (space_same d1 m' U1), Up by lia. by apply Fp1.
  - intros f j ? ? Hn Hd' Hf. assert (own f = own0 f) as Ef by by apply F2.
    rewrite U10; [by apply F7|done|done|]. apply Hkeep; congruence.
  - by eapply pool_within_trans.
  - lia.
  - lia.
  - split; [rewrite U2; apply F10|rewrite U3; apply F10].
  - destruct Hch as (E1 & E2 & _). split_and!; [done|congruence|congruence|apply child_taken].
  - intros j Hj Hjt. destruct (decide (j = i)) as [->|Hne].
    + exists g. split; [apply child_translate_new|]. split; [done|]. split; [|done].
      destruct (decide (own0 g = Free)) as [|Hn]; [done|]. pose proof (F2 g Hn). congruence.
    + destruct (F12 j Hj (Hold j Hj Hjt Hne)) as (x & Hx & Hxo & Hx0 & Hxa). exists x.
      rewrite child_translate by done. split; [done|]. split; [|done]. rewrite U8; [done|congruence].
  - assert (Hnew : ∀ j, 0 ≤ j < cap → PagePool.taken apc' j = true → j ≠ i →
      translate (space d1 m) (page j) ≠ Some g).
    { intros j Hj Hjt Hne Hg. destruct (F12 j Hj (Hold j Hj Hjt Hne)) as (x & Hx & Hxo & _). congruence. }
    intros j j' x Hj Hj' Hjt Hjt'. pose proof child_translate_new as Hn.
    destruct (decide (j = i)) as [->|], (decide (j' = i)) as [->|]; [done|..].
    + rewrite Hn, child_translate by done. intros [= <-] Hx. by destruct (Hnew j').
    + rewrite Hn, child_translate by done. intros Hx [= <-]. by destruct (Hnew j).
    + rewrite !child_translate by done. apply F13; try done; by apply Hold.
  - intros j Hj Hjt. rewrite child_taken in Hjt by lia. destruct (decide (j = i)) as [->|Hne].
    { rewrite Htk in Hjt. destruct (Z.ltb_spec i (i + 1)); [done|lia]. }
    rewrite child_translate by done. apply F14; [done|]. destruct (fk_pool _ _ _ _ HF) as (_ & _ & _ & E).
    rewrite E by lia. destruct (PagePool.taken ap j); [|done]. simpl in *. apply Z.ltb_ge in Hjt. apply Z.ltb_ge. lia.
Qed.

Lemma child_same_pages : same_pages i m → same_pages i m'.
Proof.
  intros Hs j x y Hj Hji Hjt Hx Hy w Hw. rewrite child_translate in Hy by lia.
  destruct (fk_mapped _ _ _ _ HF j Hj) as (y' & Hy' & Hyo & _ & Hya).
  { destruct (fk_pool _ _ _ _ HF) as (_ & _ & _ & E). rewrite E, Hjt by lia. by apply Z.ltb_lt. }
  assert (y' = y) as -> by congruence. rewrite (up_words _ _ _ _ _ _ _ Hup); [by apply (Hs j)|done|done|].
  rewrite (up_takes _ _ _ _ _ _ _ Hup) by congruence. congruence.
Qed.

Lemma child_buffer w : 0 ≤ w < 1024 → word m' (fb + 4 * w) = word m (fb + 4 * w).
Proof.
  intros Hw. apply (up_words _ _ _ _ _ _ _ Hup); [done|done|].
  assert (own fb = Other) as E by (rewrite (fk_takes _ _ _ _ HF); [done|congruence]).
  rewrite (up_takes _ _ _ _ _ _ _ Hup); congruence.
Qed.
End child_page.

Lemma alloc_child i own apc m :
  forking i own apc m → 0 ≤ i < cap → PagePool.taken ap i = true →
  0 < PagePool.free_count_ (krnl_pool m) → 0 < PagePool.free_count_ (usr_pool m) → same_pages i m →
  ∃ m' apc' own' g, AllocPageAtAddr_in apc (page i) (space d1 m) = Ok (m', (apc', page i)) ∧ page_dir m' = d1
    ∧ forking (i + 1) own' apc' m' ∧ translate (space d1 m') (page i) = Some g
    ∧ (∀ w, 0 ≤ w < 1024 → word m' (fb + 4 * w) = word m (fb + 4 * w)) ∧ same_pages i m'.
Proof.
  intros HF Hi Htk Hck Hcu Hs. destruct (fk_pool _ _ _ _ HF) as (Hok & Hst & Hcap & Hp).
  assert (Ha : PagePool.page_at apc i = page i) by (unfold page_addr, PagePool.page_at; by rewrite Hst).
  assert (Hfree : PagePool.taken apc i = false) by (rewrite Hp, Htk, Z.ltb_irrefl by lia; done).
  destruct (usr_page_fields ap i Hap Hi) as (P1 & P2 & P3 & P4 & P5 & _).
  destruct (alloc_page_at_ok own d1 m apc i (fk_frames _ _ _ _ HF) (fk_child _ _ _ _ HF) Hok)
    as (apc' & g & m' & own' & HA & Hu & Hok' & Hch & Hup); rewrite ?Ha; try done; [lia|by apply (fk_unmapped _ _ _ _ HF)|].
  rewrite Ha in HA, Hup. exists (with_addr_pool (usr_addr_pool m) m'), apc', own', g. split.
  - unfold AllocPageAtAddr_in. change (Machine.mk (Machine.ram (space d1 m)) _ _ _)
      with (with_addr_pool (Some apc) (space d1 m)). rewrite HA. simpl. by rewrite Hu.
  - split; [apply (up_dir _ _ _ _ _ _ _ Hup)|]. split; [by apply (child_forking i own own' apc apc' m _ g)|].
    split; [by apply (child_translate_new i own own' m _ g)|].
    split; [intros w Hw; by apply (child_buffer i own own' apc m _ g)|].
    by apply (child_same_pages i own own' apc m _ g).
Qed.

(** A page that is not taken. *)
Lemma forking_skip i own apc m :
  forking i own apc m → 0 ≤ i → PagePool.taken ap i = false → same_pages i m →
  forking (i + 1) own apc m ∧ same_pages (i + 1) m.
Proof.
  intros HF Hi Ht Hs. pose proof (taken_below_step ap i Hi) as Hstep. rewrite Ht, Z.add_0_r in Hstep. split.
  - destruct HF as [F1 F2 F3 F4 F5 Fp F6 Fw F7 F8 F9 (F10 & F11 & F12 & F13) F14 F15 F16].
    split; rewrite ?Hstep; try done. split_and!; try done. intros j Hj. rewrite F13 by done.
    destruct (decide (j = i)) as [->|]; [by rewrite Ht|].
    destruct (Z.ltb_spec j i), (Z.ltb_spec j (i + 1)); done || lia.
  - intros j f g Hj Hji Hjt. apply (Hs j f g Hj); [|done]. destruct (decide (j = i)); [congruence|lia].
Qed.

(** It does not matter which directory is loaded. *)
Lemma forking_dir d i own apc m : forking i own apc m → forking i own apc (space d m).
Proof. intros [[] ? [[] ?] [] ? ? ? ? ? ? ? ? ?]. do 2 (split; try done). Qed.

Lemma forking_start apc :
  frames_ok own0 m0 → empty_child own0 d0 d1 ap apc m0 → forking 0 own0 apc m0 ∧ same_pages 0 m0.
Proof.
  intros Hf [E1 E2 (E3 & E4 & E5 & E6) E7]. split; [|intros j f g ? ?; lia].
  assert (T0 : taken_below ap 0 = 0) by done.
  split; rewrite ?T0; try done; try lia.
  - split; [apply Hpar|done].
  - intros a Ha Hk. by apply shares_translate.
  - split_and!; try done. intros j Hj. rewrite E6 by done. destruct (Z.ltb_spec j 0); [lia|]. by rewrite andb_false_r.
  - intros j ? Ht. rewrite E6 in Ht by lia. done.
  - intros j j' g ? ? Ht. rewrite E6 in Ht by lia. done.
  - intros j ? _. by apply E7.
Qed.

Lemma forking_end own apc m :
  shares_kernel d0 d1 m0 → forking cap own apc m → same_pages cap m → memory_copied own d0 d1 ap apc m0 m.
Proof.
  intros Hsh [F1 F2 [F3 F4] F5 F6 [Fp0 Fp1] F7 Fw F8 F9 F10 (F11a & F11b & F11c & F11d) F12 F13 F14] Hs.
  assert (Htk : ∀ i, 0 ≤ i < cap → PagePool.taken apc i = PagePool.taken ap i).
  { intros i Hi. rewrite F11d by lia. destruct (Z.ltb_spec i cap); [by rewrite andb_true_r|lia]. }
  assert (Ha : ∀ i, page_addr apc i = page i) by (intros i; unfold page_addr, PagePool.page_at; by rewrite F11b).
  split; try done.
  - split; [done| |].
    + intros i Hi Ht. destruct (us_mapped _ _ _ _ Hpar i Hi Ht) as (f & Hf & Hfu & Hfal). exists f.
      rewrite F4. split; [done|]. split; [|done]. rewrite F2; [done|congruence].
    + intros i Hi Ht. rewrite F4. by apply (us_unmapped _ _ _ _ Hpar).
  - split; [done| |]; rewrite F11c; intros i Hi Ht; rewrite Ha.
    + destruct (F12 i Hi Ht) as (g & ? & ? & _ & ?). by exists g.
    + by apply F14.
  - intros i w Hi Ht Hw. destruct (us_mapped _ _ _ _ Hpar i Hi Ht) as (f & Hf & Hfu & Hfal).
    destruct (F12 i Hi) as (g & Hg & _ & _ & Hga); [by rewrite Htk|].
    destruct (usr_page_fields ap i Hap Hi) as (P1 & P2 & P3 & _). unfold load.
    rewrite (translate_word _ _ g) by done. rewrite (translate_word (space d0 m0) _ f) by done.
    rewrite (translate_word (space d0 m) _ f) by (done || by rewrite F4). simpl. split; f_equal.
    + by apply (Hs i f g); try done; lia.
    + apply F7; try done; congruence.
  - intros i j g Hi Hj Hti Htj. apply F13; try done; by rewrite Htk.
  - intros k Hk. rewrite Fp1, Fp0 by lia. by apply Hsh.
Qed.
End memory.

(** ** [CopyMemTo] *)

Section system.
Context {F : Type} `{OpenFiles F} `{Thread.Platform} `{Entries}.
Local Abbreviation os := (Process.os (F := F)).

(** The system with another page directory. *)
Definition loaded (d : Z) (s : os) : os :=
  mkOs (Thread.set_cr3 d (krnl s)) (space d (mach s)) (procs s) (last_pid s) (open_files s).

(** The directory of a process is a page of the kernel, here at the frame [d]. *)
Record thread_of (thd proc d : Z) (x : Process.t) (s : os) : Prop := {
  to_thd : ∃ t, Thread.thds (krnl s) !! thd = Some t ∧ Thread.proc_ t = Some proc;
  to_proc : procs s !! proc = Some x ∧ main_thd_ x = Some thd;
  to_dir : krnl_page (page_dir_ x) ∧ translate (mach s) (page_dir_ x) = Some d
}.

Lemma bind_proc {A} a x (k : Process.t → M os A) s Q :
  procs s !! a = Some x → runs (k x) s Q → runs (proc_at a ≫= k) s Q.
Proof. intros E HQ. unfold proc_at. apply bind_assoc, bind_gets. by apply (bind_lift _ x); [rewrite E|]. Qed.
Lemma bind_thd {A} a x (k : Thread.t → M os A) s Q :
  Thread.thds (krnl s) !! a = Some x → runs (k x) s Q → runs (thd_at a ≫= k) s Q.
Proof.
  intros E HQ. unfold thd_at, Thread.get_thd. apply bind_assoc, bind_gets.
  by apply (bind_lift _ x); [rewrite E|].
Qed.
Lemma bind_mach {A} f m (k : unit → M os A) s Q :
  f (mach s) = Ok m → runs (k tt) (with_mach m s) Q → runs (on_mach f ≫= k) s Q.
Proof. intros E HQ. apply runs_bind. exists tt, (with_mach m s). unfold on_mach. by rewrite E. Qed.
Lemma bind_mach_ {A B} (f : Machine.t → res (Machine.t * B)) m b (k : B → M os A) s Q :
  f (mach s) = Ok (m, b) → runs (k b) (with_mach m s) Q → runs (on_mach_ f ≫= k) s Q.
Proof. intros E HQ. apply runs_bind. exists b, (with_mach m s). unfold on_mach_. by rewrite E. Qed.
Lemma bind_ask {A B} (f : Machine.t → res B) b (k : B → M os A) s Q :
  f (mach s) = Ok b → runs (k b) s Q → runs (ask_mach f ≫= k) s Q.
Proof. intros E HQ. apply runs_bind. exists b, s. unfold ask_mach. by rewrite E. Qed.

Lemma runs_LoadPageDir thd proc d x s :
  wf (mach s) → thread_of thd proc d x s → runs (LoadPageDir thd) s (λ _ s', s' = loaded d s).
Proof.
  intros Hwf [(t & Ht & Hp) [Hx _] [_ Hd]]. unfold LoadPageDir. apply (bind_thd _ t); [done|].
  rewrite Hp. apply (bind_proc _ x); [done|].
  apply (bind_ask _ d); [by apply (GetPhyAddr_ok _ _ _ Hwf)|]. by apply runs_modify.
Qed.

Section copy_mem.
Context (own0 : Z → owner) (s0 : os) (this child thd thd' d0 d1 buf fb : Z) (x y : Process.t).
Local Abbreviation m0 := (mach s0).
Local Abbreviation ap := (vr_addrs_ x).
Context (Hthis : thread_of thd this d0 x s0) (Hchild : thread_of thd' child d1 y s0).
Context (Hne : this ≠ child) (Hdir : page_dir m0 = d0) (Hcr3 : Thread.cr3 (krnl s0) = d0).
Context (Hview : Thread.procs (krnl s0) = view <$> procs s0).
Context (Hap : usr_pool_ok ap) (Hpar : usr_space own0 d0 ap m0).
Context (Hbuf : krnl_page buf) (Hfb : translate (space d0 m0) buf = Some fb).
Context (Hfo : own0 fb = Other) (Hfa : fb mod 4096 = 0) (Hdd : d0 ≠ d1).

(** The system while the memory is copied. *)
Definition copying_state (i : Z) (s : os) : Prop :=
  ∃ own apc m, forking own0 m0 d0 d1 fb ap i own apc m ∧ page_dir m = d0 ∧ same_pages m0 d0 d1 ap i m
    ∧ s = mkOs (krnl s0) m (<[child := with_vr_addrs apc y]> (procs s0)) (last_pid s0) (open_files s0).

Lemma view_child apc : view <$> <[child := with_vr_addrs apc y]> (procs s0) = view <$> procs s0.
Proof.
  destruct (to_proc _ _ _ _ _ Hchild) as [Hy _]. rewrite fmap_insert. apply insert_id.
  by rewrite lookup_fmap, Hy.
Qed.

(** Any state of the threads of [s0] that loads directories. *)
Lemma child_thread apc m k :
  (∀ a, plain a → 768 ≤ GetPageDirEntryIdx a → translate m a = translate (space d0 m0) a) →
  Thread.thds k = Thread.thds (krnl s0) →
  let s := mkOs k m (<[child := with_vr_addrs apc y]> (procs s0)) (last_pid s0) (open_files s0) in
  thread_of thd this d0 x s ∧ thread_of thd' child d1 (with_vr_addrs apc y) s.
Proof.
  intros Htr Hk s. destruct Hthis as [T1 [T2 T3] [T4 T5]], Hchild as [C1 [C2 C3] [C4 C5]].
  rewrite <- (space_same d0 m0 Hdir) in T5, C5.
  split; split; try by (cbn; rewrite Hk).
  - cbn. by rewrite lookup_insert_ne.
  - destruct T4 as (? & ? & ? & ? & ?). split; [done|]. cbn. by rewrite Htr.
  - cbn. by rewrite lookup_insert_eq.
  - destruct C4 as (? & ? & ? & ? & ?). split; [done|]. cbn. by rewrite Htr.
Qed.

Context (Hck : taken_below ap (PagePool.capacity ap) ≤ PagePool.free_count_ (krnl_pool m0)).
Context (Hcu : taken_below ap (PagePool.capacity ap) ≤ PagePool.free_count_ (usr_pool m0)).

(** Back in the parent's space. *)
Lemma loaded_back apc :
  Thread.set_cr3 d0 (Thread.set_procs (view <$> <[child := with_vr_addrs apc y]> (procs s0))
    (Thread.set_cr3 d1 (krnl s0))) = krnl s0.
Proof. rewrite view_child, <- Hview, <- Hcr3. by destruct (krnl s0). Qed.

Lemma runs_copy_page i s :
  copying_state i s → 0 ≤ i < PagePool.capacity ap →
  runs (copy_page this child buf i) s (λ _ s', copying_state (i + 1) s').
Proof.
  intros (own & apc & m & HF & Hmd & Hsm & ->) Hi. unfold copy_page.
  destruct (to_proc _ _ _ _ _ Hthis) as [Hx Hxt]. destruct (to_proc _ _ _ _ _ Hchild) as [Hy Hyt].
  apply (bind_proc _ x); [cbn; by rewrite lookup_insert_ne|].
  apply (bind_lift _ (PagePool.taken ap i)); [by apply Bitmap.IsAlloc_ok; [apply Hap|]|].
  destruct (PagePool.taken ap i) eqn:Htk.
  2:{ apply runs_ret. destruct (forking_skip own0 m0 d0 d1 fb ap i own apc m) as [HF' Hs']; try done; [lia|].
      by exists own, apc, m. }
  destruct (usr_page_fields ap i Hap Hi) as (_ & _ & _ & _ & _ & E). cbv zeta.
  unfold VrAddrPool.GetStartAddr. rewrite E.
  destruct (us_mapped _ _ _ _ Hpar i Hi Htk) as (f & Hf & _).
  destruct (copy_out own0 m0 d0 d1 buf fb ap Hap Hpar Hbuf Hfb Hfo Hfa i own apc m f)
    as (m1 & HC1 & Hd1 & HF1 & Hw1 & Hs1); try done.
  apply (bind_mach _ m1); [done|].
  apply (bind_proc _ (with_vr_addrs apc y)); [cbn; by rewrite lookup_insert_eq|].
  apply (bind_lift _ thd'); [cbn; by rewrite Hyt|].
  destruct (fk_parent _ _ _ _ _ _ _ _ _ _ HF1) as [Hsp1 Htr1].
  destruct (child_thread apc m1 (krnl s0)) as [_ HT]; [intros a _ _; by rewrite <- Htr1, space_same|done|].
  assert (Hwf1 : wf m1).
  { rewrite <- (space_same d0 m1 Hd1). by eapply space_wf; [apply HF1|]. }
  eapply runs_step; [by apply (runs_LoadPageDir thd' child d1 (with_vr_addrs apc y))|].
  intros [] ? ->.
  apply (bind_proc _ (with_vr_addrs apc y)); [cbn; by rewrite lookup_insert_eq|].
  pose proof (taken_below_mono ap (i + 1) (PagePool.capacity ap - (i + 1))) as Hmono.
  pose proof (taken_below_step ap i) as Hstep. rewrite Htk in Hstep.
  replace (i + 1 + (PagePool.capacity ap - (i + 1))) with (PagePool.capacity ap) in Hmono by lia.
  pose proof (fk_krnl_count _ _ _ _ _ _ _ _ _ _ HF1). pose proof (fk_usr_count _ _ _ _ _ _ _ _ _ _ HF1).
  destruct (alloc_child own0 m0 d0 d1 fb ap Hap Hfo Hfa Hdd i own apc m1)
    as (m2 & apc' & own' & g & HA & Hd2 & HF2 & Hg & Hw2 & Hs2); try done; [lia|lia|].
  apply (bind_mach_ _ m2 (apc', page_addr ap i)); [exact HA|]. cbn beta iota.
  apply bind_modify.
  destruct (copy_in own0 m0 d0 d1 buf fb ap Hap Hbuf Hfb Hfo Hfa i own' apc' m2 f g)
    as (m3 & HC3 & Hd3 & HF3 & Hs3); try done.
  { intros w Hw. rewrite Hw2 by done. by apply Hw1. }
  apply (bind_mach _ m3); [exact HC3|]. apply (bind_lift _ thd); [by rewrite Hxt|].
  set (s3 := with_mach m3 _).
  assert (Es3 : s3 = mkOs (Thread.set_procs (view <$> <[child := with_vr_addrs apc' y]> (procs s0))
    (Thread.set_cr3 d1 (krnl s0))) m3 (<[child := with_vr_addrs apc' y]> (procs s0)) (last_pid s0) (open_files s0)).
  { unfold s3, with_mach, with_procs, loaded. cbn. by rewrite insert_insert_eq. }
  rewrite Es3. clear s3 Es3.
  destruct (child_thread apc' m3 (Thread.set_procs (view <$> <[child := with_vr_addrs apc' y]> (procs s0))
    (Thread.set_cr3 d1 (krnl s0)))) as [HT3 _]; [|done|].
  { intros a Ha Hk. rewrite <- (space_same d1 m3 Hd3). by apply (fk_krnl _ _ _ _ _ _ _ _ _ _ HF3). }
  assert (Hwf3 : wf m3).
  { rewrite <- (space_same d1 m3 Hd3). eapply space_wf; apply HF3. }
  eapply runs_mono; [by apply (runs_LoadPageDir thd this d0 x)|].
  intros [] ? ->. exists own', apc', (space d0 m3). split; [by apply forking_dir|]. split; [done|]. split; [done|].
  unfold loaded. cbn [krnl mach procs last_pid open_files]. by rewrite loaded_back.
Qed.

(** What [CopyMemTo] leaves behind. *)
Definition copied_state (s : os) : Prop := ∃ own apc m,
  s = mkOs (krnl s0) m (<[child := with_vr_addrs apc y]> (procs s0)) (last_pid s0) (open_files s0)
  ∧ page_dir m = d0 ∧ frames_ok own m ∧ takes own0 own ∧ memory_copied own d0 d1 ap apc m0 m
  ∧ (∀ a, translate (space d0 m) a = translate (space d0 m0) a)
  ∧ (∀ k, 0 ≤ k < 1024 → pde (space d0 m) k = pde (space d0 m0) k)
  ∧ pool_within (krnl_pool m0) (krnl_pool m) ∧ MemInit.krnl_addr_pool (pools m) = MemInit.krnl_addr_pool (pools m0)
  ∧ ∀ f j, f mod 4096 = 0 → 0 ≤ j < 1024 → own0 f ≠ Free → own0 f ≠ Tab d1 → f ≠ fb →
      word m (f + 4 * j) = word m0 (f + 4 * j).

(** [CopyMemTo], with a child whose user memory is empty and enough free
    frames: the child gets the parent's pages at the same addresses, with the
    same words, at frames of its own that were free; the parent's translations
    and pages, the kernel's memory both share and the loaded page directory are
    as before; nothing of the system but the child's pool of addresses changes. *)
Lemma CopyMemTo_ok buf_size :
  page_size ≤ buf_size → frames_ok own0 m0 → empty_child own0 d0 d1 ap (vr_addrs_ y) m0 →
  runs (CopyMemTo this child buf buf_size) s0 (λ _ s', copied_state s').
Proof.
  intros Hsz Hf He. unfold CopyMemTo.
  destruct (to_proc _ _ _ _ _ Hthis) as [Hx Hxt]. destruct (to_proc _ _ _ _ _ Hchild) as [Hy Hyt].
  destruct (to_thd _ _ _ _ _ Hchild) as (t & Ht & Htp). destruct Hbuf as (B1 & _ & _ & _ & B5).
  apply bind_assert.
  { apply andb_true_iff. split; [|by apply Z.leb_le]. destruct (Z.eqb_spec buf 0) as [E|]; [|done].
    rewrite E in B5. by vm_compute in B5. }
  apply (bind_proc _ x); [done|]. apply (bind_proc _ y); [done|]. rewrite Hxt, Hyt.
  apply bind_assert; [done|]. apply (bind_lift _ thd'); [done|]. apply (bind_thd _ t); [done|].
  apply bind_assert; [by apply bool_decide_eq_true_2|].
  destruct (PagePool.capacity_pos ap (proj1 Hap)) as [Hcap _].
  destruct (forking_start own0 m0 d0 d1 fb ap Hpar (vr_addrs_ y) Hf He) as [HF0 HS0].
  assert (Ec : Bitmap.GetCapacity (VrAddrPool.GetBitmap ap) = PagePool.capacity ap).
  { apply Bitmap.cap_u32, PagePool.ok_wf, Hap. }
  rewrite Ec. eapply runs_mono; [apply (runs_for (λ i _ s, copying_state i s))|].
  - exists own0, (vr_addrs_ y), m0. split; [done|]. split; [done|]. split; [done|].
    destruct s0 as [k m ps n fs]. cbn in *. f_equal. symmetry. apply insert_id. rewrite Hy. by destruct y.
  - intros i [] s Hi HI. apply runs_copy_page; [done|lia].
  - intros [] s' (own & apc & m & HF & Hmd & Hsm & ->). rewrite Z.add_0_l, Z2Nat.id in HF, Hsm by lia.
    exists own, apc, m. split; [done|]. split; [done|]. split; [apply HF|]. split; [apply HF|].
    split; [|split; [apply HF|split; [apply HF|split; [apply HF|split; apply HF]]]].
    apply (forking_end own0 m0 d0 d1 fb ap Hap Hpar Hfo); [apply He|done|done].
Qed.
End copy_mem.
End system.
End Copy.
