(* ===== verification/ProcFork.v ===== *)
(** * Forking a process

    [Fork] of src/src/kernel/process/proc.cpp (Proc) makes a process like the
    one that runs: its objects are pages of the kernel's heap, its page directory
    refers to the kernel's tables, its memory is a copy (ProcCopy), its thread
    continues where the parent's does, and its open files are the parent's. *)
From S2P Require Import Prelude UtilBit UtilBitmap IoFileDesc MemPage MemPool MemMap MemPages MemSpace MemHeap ThreadSched ThreadSpec FsBase FsData FsPart FsFile Proc ProcCopy.
Import Page VrAddr Machine Mapping Pages KernelPages Space Process Copy.

Module Fork.

(** ** The kernel's heap and the owners of frames *)

(** The memory under the directory [d]: the kernel's heap is in the kernel's
    part, and every frame it uses is owned. *)
Record world_ok (own : Z → owner) (d : Z) (m : Machine.t) : Prop := {
  wo_dir : page_dir m = d;
  wo_frames : frames_ok own m;
  wo_space : space_ok own d m;
  wo_owned : kpages m;
  wo_krnl : ∀ i, 0 ≤ i < PagePool.capacity (heap_pool m) → 768 ≤ GetPageDirEntryIdx (KernelPages.page m i)
}.

(** Giving several frames. *)
Definition gives (fs : list Z) (o : owner) (own : Z → owner) (g : Z) : owner :=
  if decide (g ∈ fs) then o else own g.

Lemma gives_in fs o own g : g ∈ fs → gives fs o own g = o.
Proof. intros. unfold gives. by destruct (decide (g ∈ fs)). Qed.
Lemma gives_out fs o own g : g ∉ fs → gives fs o own g = own g.
Proof. intros. unfold gives. by destruct (decide (g ∈ fs)). Qed.

Section alloc.
Context (own : Z → owner) (d : Z) (m : Machine.t) (Hw : world_ok own d m).

Lemma heap_table_krnl f : heap_table m f → own f = KrnlTab.
Proof.
  intros (i & Hi & <-). pose proof (wo_owned _ _ _ Hw) as Ho.
  pose proof (kh_plain m (ko_heap m Ho) i Hi) as Hp. pose proof (kh_tables m (ko_heap m Ho) i Hi) as Ht.
  pose proof (wo_krnl _ _ _ Hw i Hi). pose proof (GetPageDirEntryIdx_range (KernelPages.page m i)). unfold plain in Hp.
  rewrite <- (space_same d m (wo_dir _ _ _ Hw)) in Ht. rewrite <- (space_same d m (wo_dir _ _ _ Hw)) at 1.
  apply (so_krnl _ _ _ (wo_space _ _ _ Hw)); [lia|done].
Qed.

(** [AllocPages] on the kernel's heap: the frames it takes go to [o], the words
    of owned frames other than the kernel's page tables stay. *)
Lemma alloc_world count o m' s fs :
  0 < count → o ≠ Free → fresh_pages m m' count s fs → kheap m' →
  (∀ f, f ∈ fs → own f = Free) ∧ takes own (gives fs o own)
  ∧ world_ok (gives fs o own) d m' ∧ pool_within (krnl_pool m) (krnl_pool m')
  ∧ agree own (λ o, o ≠ Free ∧ o ≠ KrnlTab) m m'.
Proof.
  intros Hc Ho' Hfp Hh'. pose proof (wo_owned _ _ _ Hw) as Ho. pose proof (wo_frames _ _ _ Hw) as Hf.
  pose proof (fresh_kpages m m' count s fs Ho Hc Hh' Hfp) as Hown'.
  pose proof Hfp as [_ (Est & Ecap & _ & _) _ (_ & Hff & _) ((R1 & R2 & R3) & Hfree & _) Hpde Hdir _ _ Hwords].
  assert (Hfs : ∀ f, f ∈ fs → own f = Free).
  { intros f Hin. rewrite Forall_forall in Hff. apply (fo_free _ _ Hf). left. by apply Hff. }
  assert (Htk : takes own (gives fs o own)) by (intros f Hn; apply gives_out; intros Hin; by apply Hn, Hfs).
  assert (Hup : usr_pool m' = usr_pool m) by done.
  assert (Hwi : pool_within (krnl_pool m) (krnl_pool m')).
  { split_and!; [done|done|]. intros g Hg. by apply Hfree in Hg as [? _]. }
  split; [done|]. split; [done|]. split; [|split; [done|]].
  - split; [by rewrite Hdir, (wo_dir _ _ _ Hw)| | |done|].
    + split; [apply Hh'|apply Hh'|rewrite Hup; apply Hf| |].
      * rewrite Hup. unfold PagePool.page_at. rewrite R1, R2. apply Hf.
      * intros f Hfr. unfold is_free in Hfr. rewrite Hup in Hfr.
        assert (f ∉ fs) as Hout.
        { intros Hin. destruct Hfr as [Hfr|(j & Hj & _ & E)]; [by apply Hfree in Hfr as [_ ?]|].
          rewrite Forall_forall in Hff. destruct (Hff f Hin) as (k & Hk & _ & E').
          pose proof (fo_regions _ _ Hf). unfold PagePool.page_at, usr_pool in *. lia. }
        rewrite gives_out by done. apply (fo_free _ _ Hf). destruct Hfr as [Hfr|]; [left|by right].
        by apply Hfree in Hfr as [? _].
    + apply (space_pde own d m (wo_space _ _ _ Hw)); [done|]. intros k Hk.
      rewrite (space_same d m (wo_dir _ _ _ Hw)), <- (Hpde k Hk). f_equal. apply space_same.
      by rewrite Hdir, (wo_dir _ _ _ Hw).
    + intros i Hi. rewrite Ecap in Hi. unfold KernelPages.page, PagePool.page_at. rewrite Est.
      by apply (wo_krnl _ _ _ Hw).
  - intros f j Hfa Hj [Hn Hk]. apply Hwords; [done|done| |].
    + intros Hin. by apply Hn, Hfs.
    + intros Ht. by apply Hk, heap_table_krnl.
Qed.
End alloc.

(** There is a run of [n] free pages in the heap. *)
Definition room (n : Z) (m : Machine.t) : Prop :=
  ∃ p, Bitmap.free_run (PagePool.bitmap_ (heap_pool m)) p n.

Lemma room_alloc m m' count s fs n :
  fresh_pages m m' count s fs → 0 < count ≤ n → room n m → room (n - count) m'.
Proof.
  intros [[_ [(Hs0 & Hs1 & _) Hfst]] (_ & Ecap & _ & Etk) _ _ _ _ _ _ _ _] Hc (p & Hp0 & Hp1 & Hp).
  assert (Hsp : s ≤ p).
  { destruct (decide (s ≤ p)); [done|]. exfalso. apply (Hfst p); [lia|]. split_and!; [done|lia|].
    intros j Hj. apply Hp. lia. }
  exists (Z.max p (s + count)). unfold PagePool.capacity, PagePool.taken in *. split_and!; [lia|lia|].
  intros j Hj. rewrite Etk by lia. destruct (Z.leb_spec s j), (Z.ltb_spec j (s + count)); simpl; try lia; apply Hp; lia.
Qed.

Lemma alloc_pages_room own d m count n :
  world_ok own d m → room n m → 0 < count ≤ n → count ≤ PagePool.free_count_ (krnl_pool m) →
  ∃ m' s fs, Pages.AllocPages Kernel count m = Ok (m', KernelPages.page m s) ∧ fresh_pages m m' count s fs ∧ kheap m'.
Proof.
  intros Hw (p & Hp0 & Hp1 & Hp) Hc Hn. pose proof (ko_heap m (wo_owned _ _ _ Hw)) as Hh.
  unfold Pages.AllocPages. destruct (Z.ltb_spec 0 count); [|lia]. simpl.
  destruct (AllocPages_ok m count Hh) as [[_ Hno]|(m' & s & fs & HA & Hfp & Hh')]; [lia| |by exists m', s, fs].
  exfalso. apply (Hno p). split_and!; [done|lia|]. intros j Hj. apply Hp. lia.
Qed.

(** The pages of the heap are pages of the kernel. *)
Lemma heap_page own d m i :
  world_ok own d m → 0 ≤ i < PagePool.capacity (heap_pool m) →
  krnl_page (KernelPages.page m i) ∧ KernelPages.page m i ≠ 0.
Proof.
  intros Hw Hi. pose proof (ko_heap m (wo_owned _ _ _ Hw)) as Hh.
  destruct (page_fields m (kh_pool m Hh) i Hi) as (? & ? & _). pose proof (kh_plain m Hh i Hi).
  pose proof (wo_krnl _ _ _ Hw i Hi). split; [|lia]. split_and!; try done; [lia|div_lia].
Qed.

(** ** What the user's part depends on *)

Lemma usr_agree own own' d m m' :
  space_ok own d m → takes own own' → agree own (λ o, o = Tab d) m m' →
  space_ok own' d m' ∧ (∀ k, 0 ≤ k < 1024 → pde (space d m') k = pde (space d m) k)
  ∧ ∀ a, GetPageDirEntryIdx a < 768 → translate (space d m') a = translate (space d m) a.
Proof.
  intros Hs Ht Ha. pose proof Hs as [(Hd & Hal & Ho) Hself Hu Hpr Hk].
  assert (Hpde : ∀ k, 0 ≤ k < 1024 → pde (space d m') k = pde (space d m) k)
    by (intros k Hk'; by apply (Ha d k)).
  split; [by apply (space_pde own d m Hs)|]. split; [done|]. intros a Hlt.
  pose proof (GetPageDirEntryIdx_range a). unfold translate. cbv zeta. rewrite Hpde by done.
  destruct (PageEntry.IsPresent (pde (space d m) (GetPageDirEntryIdx a))) eqn:Hp; [|done].
  set (k := GetPageDirEntryIdx a) in *.
  assert (E : word (space d m') (PageEntry.GetAddress (pde (space d m) k) + 4 * GetPageTabEntryIdx a)
    = word (space d m) (PageEntry.GetAddress (pde (space d m) k) + 4 * GetPageTabEntryIdx a)); [|by rewrite E].
  apply Ha; [apply PageEntry.GetAddress_aligned|apply GetPageTabEntryIdx_range|]. by apply Hu; [lia|].
Qed.

Lemma usr_space_keep own own' d ap m m' :
  usr_space own d ap m → usr_pool_ok ap → takes own own' → agree own (λ o, o = Tab d) m m' →
  usr_space own' d ap m'.
Proof.
  intros [U1 U2 U3] Hap Ht Ha. destruct (usr_agree own own' d m m' U1 Ht Ha) as (H1 & _ & H2).
  assert (Hlt : ∀ i, 0 ≤ i < PagePool.capacity ap → GetPageDirEntryIdx (page_addr ap i) < 768)
    by (intros i Hi; by apply usr_page_fields).
  split; [done|..]; intros i Hi Htk; rewrite H2 by auto; [|by apply U3].
  destruct (U2 i Hi Htk) as (f & ? & ? & ?). exists f. split; [done|]. split; [|done]. rewrite Ht; [done|congruence].
Qed.

(** ** A new page directory *)

(** A state that translates as [m] does and has the same pages of the heap. *)
Lemma kpages_keep m m' :
  kpages m → wf m' → page_dir m' = page_dir m → (∀ k, 0 ≤ k < 1024 → pde m' k = pde m k) →
  (∀ a, translate m' a = translate m a) → heap_pool m' = heap_pool m →
  pool_within (krnl_pool m) (krnl_pool m') →
  PagePool.page_at (krnl_pool m') (PagePool.capacity (krnl_pool m')) ≤ PagePool.start_addr_ (usr_pool m') →
  kpages m'.
Proof.
  intros [[K1 K2 K3 K4 K5 K6 K7] O2 O3 O4] Hwf Hdir Hpde Htr Hhp (W1 & W2 & W3) Hsrc.
  assert (Hpg : ∀ i, KernelPages.page m' i = KernelPages.page m i) by (intros; unfold KernelPages.page; by rewrite Hhp).
  assert (Hpd : ∀ a, pde m' (GetPageDirEntryIdx a) = pde m (GetPageDirEntryIdx a))
    by (intros; apply Hpde, GetPageDirEntryIdx_range).
  assert (Hsl : ∀ a, slot m' a = slot m a) by (intros; unfold slot; by rewrite Hpd).
  split; [split|..]; rewrite ?Hhp; try done.
  - intros i Hi. rewrite Hpg. by apply K3.
  - intros i Hi. rewrite Hpg, Hpd. by apply K4.
  - intros i j Hi Hj Hne. rewrite !Hpg, !Hsl. by apply K5.
  - intros i Hi Ht. rewrite Hpg, Htr. by apply K6.
  - intros a x Ha Hx Hf. rewrite Htr in Hx. apply (K7 a x Ha Hx). by apply W3.
  - intros i Hi Ht. destruct (O3 i Hi Ht) as (f & Hf & j & Hj & Hjt & Hjf). exists f.
    rewrite Hpg, Htr. split; [done|]. destruct (PagePool.taken (krnl_pool m') j) eqn:E.
    + exists j. unfold PagePool.page_at in *. rewrite W1, W2. done.
    + exfalso. assert (Hfr : free_in (krnl_pool m) f).
      { apply W3. exists j. unfold PagePool.page_at in *. rewrite W1, W2. done. }
      assert (Htf : taken_frame m f) by by exists j. by apply taken_not_free in Htf.
  - intros i f a x Hi Ht Hf Ha Hx E. rewrite Hpg in *. rewrite Htr in Hf, Hx.
    destruct (O4 i f a x Hi Ht Hf Ha Hx E) as (H1 & H2 & H3). split; [by rewrite Hpd|].
    split; [by rewrite Hpd|]. by rewrite !Hsl.
Qed.

(** Writing to frames that are no tables of [d]. *)
Lemma world_write own d m m' :
  world_ok own d m → page_dir m' = d → pools m' = pools m → (∀ a, in_u 32 (word m' a)) →
  agree own (tables d) m m' → world_ok own d m' ∧ ∀ a, translate m' a = translate m a.
Proof.
  intros [Hd Hf Hs Ho Hk] Hd' Hp Hu Ha.
  destruct (tables_agree own d m Hs own m' (takes_refl own) Ha) as (H1 & H2 & H3).
  rewrite (space_same d m Hd) in H2, H3. rewrite (space_same d m' Hd') in H2, H3.
  assert (Ek : krnl_pool m' = krnl_pool m) by (unfold krnl_pool; by rewrite Hp).
  assert (Eu : usr_pool m' = usr_pool m) by (unfold usr_pool; by rewrite Hp).
  assert (Eh : heap_pool m' = heap_pool m) by (unfold heap_pool; by rewrite Hp).
  assert (Hf' : frames_ok own m').
  { destruct Hf. split; rewrite ?Ek, ?Eu; try done. intros f. unfold is_free. rewrite Ek, Eu. apply fo_free0. }
  split; [|done]. split; try done.
  - apply (kpages_keep m); try done; [|by rewrite Hd| |].
    + rewrite <- (space_same d m' Hd'). by apply (space_wf own).
    + rewrite Ek. by split_and!.
    + rewrite Ek, Eu. apply Hf.
  - intros i. rewrite Eh. unfold KernelPages.page. rewrite Eh. apply Hk.
Qed.

Lemma page_dir_window own d m : space_ok own d m → translate (space d m) page_dir_base = Some d.
Proof.
  intros Hs. destruct (so_self _ _ _ Hs) as [Hp Ha]. unfold translate. cbv zeta.
  change (GetPageDirEntryIdx page_dir_base) with 1023. change (GetPageTabEntryIdx page_dir_base) with 1023.
  change (GetOffset page_dir_base) with 0. rewrite Hp, Ha. change (word (space d m) (d + 4 * 1023)) with (pde (space d m) 1023).
  by rewrite Hp, Ha, Z.add_0_r.
Qed.

Lemma new_entry g :
  0 ≤ g < 2 ^ 32 → g mod 4096 = 0 →
  PageEntry.IsPresent (PageEntry.Format g true false true) = true
  ∧ PageEntry.GetAddress (PageEntry.Format g true false true) = g.
Proof.
  intros Hg Ha. pose proof (PageEntry.Format_roundtrip g true false true Hg Ha) as Hv.
  generalize dependent (PageEntry.Format g true false true). intros e Hv.
  injection Hv as E _ _ E'. by split.
Qed.

Section new_dir.
Context (own : Z → owner) (d f dir : Z) (m : Machine.t).
Context (Hw : world_ok own d m) (Hfo : own f = Tab f) (Hne : d ≠ f).
Context (Hdir : krnl_page dir) (Htr : translate m dir = Some f) (Hf : 0 ≤ f < 2 ^ 32 ∧ f mod 4096 = 0).
Context (Hzero : ∀ j, 0 ≤ j < 1024 → word m (f + 4 * j) = 0).

Lemma new_dir_no_table : ¬ tables d (own f).
Proof. rewrite Hfo. intros [[= E]|E]; congruence. Qed.

(** The entries of the kernel's part are copied, the last one is set. *)
Lemma copy_dir_ok :
  ∃ m1 m2, copy_words (dir +w 4 * krnl_page_dir_start) (page_dir_base +w 4 * krnl_page_dir_start) krnl_page_dir_count m = Ok m1
    ∧ GetPhyAddr dir m1 = Ok f
    ∧ store (dir +w 4 * page_dir_self_ref) (PageEntry.Format f true false true) m1 = Ok m2
    ∧ page_dir m2 = d ∧ pools m2 = pools m ∧ usr_addr_pool m2 = usr_addr_pool m
    ∧ (∀ a, in_u 32 (word m2 a))
    ∧ (∀ j, 0 ≤ j < 1024 → word m2 (f + 4 * j) = if j =? 1023 then PageEntry.Format f true false true
         else if 768 <=? j then pde m j else 0)
    ∧ (∀ g j, g mod 4096 = 0 → 0 ≤ j < 1024 → g ≠ f → word m2 (g + 4 * j) = word m (g + 4 * j)).
Proof.
  destruct Hdir as (D1 & D2 & D3 & D4 & D5). pose proof Hw as [Hd Hfr Hs Ho _].
  change krnl_page_dir_start with 768. change krnl_page_dir_count with 255. change page_dir_self_ref with 1023.
  rewrite (u32_small (dir + 4 * 768)) by lia. change (page_dir_base +w 4 * 768) with (page_dir_base + 4 * 768).
  rewrite <- (space_same d m Hd) in Htr. pose proof (proj1 (proj2 (so_dir _ _ _ Hs))) as Hda.
  destruct (copy_words_ok own d m dir page_dir_base f d 768 768 Hfr Hs Htr (page_dir_window own d m Hs))
    with (n := 255) as (m1 & HC & [C1 [C2 C3] C4 C5] & Hf1 & Hs1 & Ht1); try done; try lia.
  { apply new_dir_no_table. }
  rewrite (space_same d m Hd) in HC, C4, C5, Ht1, Htr. cbn in C1, C2, C3.
  assert (Hwf1 : wf m1) by (rewrite <- (space_same d m1 C1); by apply (space_wf own)).
  assert (Htr1 : translate m1 dir = Some f) by by rewrite Ht1.
  exists m1, (set_word (f + 4 * 1023) (PageEntry.Format f true false true) m1). split; [done|].
  split; [by apply (GetPhyAddr_ok m1 dir f)|].
  assert (Hst : translate m1 (dir +w 4 * 1023) = Some (f + 4 * 1023)).
  { rewrite u32_small by lia. by apply translate_word. }
  split; [unfold store; by rewrite Hst|]. split; [done|]. split; [done|]. split; [done|].
  split; [|split].
  - intros a. destruct (decide (f + 4 * 1023 = a)) as [<-|].
    + rewrite word_set_eq. apply PageEntry.SetPresent_range || (unfold PageEntry.Format; apply u32_range).
    + rewrite word_set_ne by done. apply (fo_words _ _ Hf1).
  - intros j Hj. destruct (Z.eqb_spec j 1023) as [->|]; [by rewrite word_set_eq|]. rewrite word_set_ne by lia.
    destruct (Z.leb_spec 768 j).
    + replace j with (768 + (j - 768)) at 1 by lia. rewrite C4 by lia. unfold pde. rewrite Hd. f_equal. lia.
    + rewrite C5; [by apply Hzero|]. intros i Hi. lia.
  - intros g j Hg Hj Hgf. rewrite word_set_ne.
    + apply C5. intros i Hi E. apply frame_word_inj in E as [? _]; try done; try tauto; lia.
    + intros E. apply frame_word_inj in E as [? _]; try done; try tauto; lia.
Qed.

(** The new directory is a space that shares the kernel's part and has nothing
    in the user's. *)
Lemma init_dir_ok :
  ∃ m1 m2, copy_words (dir +w 4 * krnl_page_dir_start) (page_dir_base +w 4 * krnl_page_dir_start) krnl_page_dir_count m = Ok m1
    ∧ GetPhyAddr dir m1 = Ok f
    ∧ store (dir +w 4 * page_dir_self_ref) (PageEntry.Format f true false true) m1 = Ok m2
    ∧ world_ok own d m2 ∧ pools m2 = pools m ∧ usr_addr_pool m2 = usr_addr_pool m
    ∧ (∀ a, translate m2 a = translate m a)
    ∧ (∀ g j, g mod 4096 = 0 → 0 ≤ j < 1024 → g ≠ f → word m2 (g + 4 * j) = word m (g + 4 * j))
    ∧ space_ok own f m2 ∧ shares_kernel d f m2
    ∧ ∀ a, GetPageDirEntryIdx a < 768 → translate (space f m2) a = None.
Proof.
  destruct copy_dir_ok as (m1 & m2 & HC & HG & HS & Hd2 & Hp2 & Hu2 & H32 & Hin & Hout).
  pose proof Hw as [Hd _ Hs _ _].
  destruct (world_write own d m m2 Hw Hd2 Hp2 H32) as [Hw2 Ht2].
  { intros g j Hg Hj Ho. apply Hout; [done|done|]. intros ->. by apply new_dir_no_table. }
  assert (Hpde : ∀ k, 0 ≤ k < 1024 → pde (space f m2) k
    = if k =? 1023 then PageEntry.Format f true false true else if 768 <=? k then pde m k else 0)
    by (intros k Hk; by apply Hin).
  assert (Hsame : ∀ k, 768 ≤ k < 1023 → pde (space f m2) k = pde m k).
  { intros k Hk. rewrite Hpde by lia. destruct (Z.eqb_spec k 1023); [lia|]. by destruct (Z.leb_spec 768 k); [|lia]. }
  assert (Hlow : ∀ k, 0 ≤ k < 768 → PageEntry.IsPresent (pde (space f m2) k) = false).
  { intros k Hk. rewrite Hpde by lia. destruct (Z.eqb_spec k 1023); [lia|]. by destruct (Z.leb_spec 768 k); [lia|]. }
  exists m1, m2. do 8 (split; [done|]). split; [split|split].
  - tauto.
  - rewrite Hpde, Z.eqb_refl by lia. apply new_entry; tauto.
  - intros k Hk Hp. rewrite Hlow in Hp by done. done.
  - intros k k' Hk _ Hp. rewrite Hlow in Hp by done. done.
  - intros k Hk. rewrite Hsame by done. intros Hp. rewrite <- (space_same d m Hd) in *.
    by apply (so_krnl _ _ _ Hs).
  - intros k Hk. rewrite Hsame by done. rewrite <- (space_same d m Hd). symmetry.
    destruct (so_dir _ _ _ Hs) as (_ & Hda & _). apply (Hout d k); done || lia.
  - intros a Ha. apply no_translation. left. apply Hlow. pose proof (GetPageDirEntryIdx_range a). lia.
Qed.
End new_dir.

(** ** The memory while a process is made *)

(** [m'] has pages that [m] has not; what [m] has is the same in [m']. *)
Record extends (own : Z → owner) (m : Machine.t) (own' : Z → owner) (m' : Machine.t) : Prop := {
  ex_takes : takes own own';
  ex_words : agree own (λ o, o ≠ Free ∧ o ≠ KrnlTab) m m';
  ex_usr : usr_pool m' = usr_pool m;
  ex_map : ∀ a x, plain a → translate m a = Some x → translate m' a = Some x;
  ex_pde : ∀ k, 0 ≤ k < 1024 → pde m' k = pde m k
}.

Lemma extends_refl own m : extends own m own m.
Proof. by split. Qed.
Lemma extends_trans own m own1 m1 own2 m2 :
  extends own m own1 m1 → extends own1 m1 own2 m2 → extends own m own2 m2.
Proof.
  intros [A1 A2 A3 A4 A5] [B1 B2 B3 B4 B5]. split.
  - by eapply takes_trans.
  - eapply (agree_trans own own1); [done|by intros o []|done|done].
  - congruence.
  - auto.
  - intros k Hk. by rewrite B5, A5.
Qed.

(** A space that shares the kernel's part of [d] and has an empty user part. *)
Record blank (own : Z → owner) (d d1 : Z) (m : Machine.t) : Prop := {
  bl_space : space_ok own d1 m;
  bl_krnl : shares_kernel d d1 m;
  bl_unmapped : ∀ a, GetPageDirEntryIdx a < 768 → translate (space d1 m) a = None
}.

Lemma blank_extends own m own' m' d d1 :
  page_dir m = d → page_dir m' = d → blank own d d1 m → extends own m own' m' → blank own' d d1 m'.
Proof.
  intros Hd Hd' [B1 B2 B3] [E1 E2 _ _ E5].
  destruct (usr_agree own own' d1 m m' B1 E1) as (H1 & H2 & H3).
  { eapply agree_sub; [|exact E2]. by intros o ->. }
  split; [done| |].
  - intros k Hk. rewrite H2, B2 by lia. rewrite (space_same d m Hd), (space_same d m' Hd'). symmetry. apply E5. lia.
  - intros a Ha. rewrite H3 by done. by apply B3.
Qed.

(** The memory has [n] pages of the heap to give, and [spare] frames more. *)
Record stock (own : Z → owner) (d n spare : Z) (m : Machine.t) : Prop := {
  sk_world : world_ok own d m;
  sk_room : room n m;
  sk_frames : n + spare ≤ PagePool.free_count_ (krnl_pool m)
}.

(** A page of the heap at [a], the frame [f] of its first page, and the owner
    [o] of what was taken. *)
Record got_page (own : Z → owner) (m m' : Machine.t) (a f : Z) : Prop := {
  gp_page : krnl_page a ∧ a ≠ 0;
  gp_new : translate m a = None;
  gp_map : translate m' a = Some f;
  gp_frame : own f = Free ∧ 0 ≤ f < 2 ^ 32 ∧ f mod 4096 = 0;
  gp_zero : ∀ j, 0 ≤ j < 1024 → word m' (f + 4 * j) = 0;
  gp_heap : ∃ i, 0 ≤ i < PagePool.capacity (heap_pool m') ∧ PagePool.taken (heap_pool m') i = true ∧ a = page m' i;
  gp_alone : ∀ b x, plain b → translate m b = Some x → x ≠ f + GetOffset b
}.

Lemma alloc_stock own d n spare m count :
  stock own d n spare m → 0 < count ≤ n → 0 ≤ spare →
  ∃ m' a f fs, Pages.AllocPages Kernel count m = Ok (m', a) ∧ got_page own m m' a f ∧ f ∈ fs
    ∧ ∀ o, o ≠ Free → stock (gives fs o own) d (n - count) spare m' ∧ extends own m (gives fs o own) m'.
Proof.
  intros [Hw Hr Hn] Hc Hsp.
  destruct (alloc_pages_room own d m count n Hw Hr Hc) as (m' & s & fs & HA & Hfp & Hh'); [lia|].
  pose proof (ko_heap m (wo_owned _ _ _ Hw)) as Hh.
  pose proof Hfp as [[Hb [(Hs0 & Hs1 & Hfr) _]] (Est & Ecap & _ & Etk) Hlen (Hnd & Hff & Htf) ((R1 & R2 & R3) & Hfree & Hcnt) Hpde Hdir Hmap Hoth Hwords].
  fold (PagePool.capacity (heap_pool m)) in Hs1.
  destruct fs as [|f fs']; [cbn in Hlen; lia|]. set (fs := f :: fs') in *.
  assert (Hlk : fs !! Z.to_nat 0 = Some f) by done. destruct (Hmap 0 f ltac:(lia) Hlk) as [Hm Hz]. rewrite Z.add_0_r in Hm.
  assert (Hfo : ∀ o, o ≠ Free → _) by (intros o Ho; exact (alloc_world own d m Hw count o m' s fs (proj1 Hc) Ho Hfp Hh')).
  destruct (Hfo Other) as (Hall & _); [done|].
  assert (Hin : f ∈ fs) by by left.
  assert (Hpg : page m' s = page m s) by (unfold page, PagePool.page_at; by rewrite Est).
  assert (Hnone : ∀ k, 0 ≤ k < count → translate m (page m (s + k)) = None).
  { intros k Hk. apply (kh_unmapped m Hh); [lia|]. apply Hfr. lia. }
  exists m', (page m s), f, fs. split; [done|]. split; [split|split; [done|]].
  - by apply (heap_page own d); [|lia].
  - rewrite <- (Z.add_0_r s). apply Hnone. lia.
  - done.
  - split; [by apply Hall|]. rewrite Forall_forall in Hff. destruct (Hff f Hin) as (j & Hj & _ & <-).
    destruct (PagePool.page_addr_ok _ j (fo_krnl _ _ (wo_frames _ _ _ Hw)) Hj) as [_ Hrg].
    split; [lia|by apply PagePool.page_at_aligned, Hw].
  - done.
  - exists s. rewrite Ecap, Hpg. split; [lia|]. split; [|done]. rewrite Etk by lia.
    destruct (Z.leb_spec s s), (Z.ltb_spec s (s + count)); done || lia.
  - intros b x Hb' Hx E. apply (kh_frames m Hh b x Hb' Hx). rewrite Forall_forall in Hff.
    replace (x - GetOffset b) with f by lia. by apply Hff.
  - intros o Ho. destruct (Hfo o Ho) as (_ & Htk & Hw' & _ & Hag). split; split; try done.
    + by eapply room_alloc.
    + lia.
    + intros a x Ha Hx. rewrite Hoth; [done|done|]. intros k Hk Hs.
      rewrite (translate_shares m a _ Hs), (Hnone k Hk) in Hx. done.
Qed.

(** ** Giving the buffer back *)

(** Changing the owner of a frame that is in no space. *)
Lemma space_give own d f o m : space_ok own d m → own f = Other → space_ok (give f o own) d m.
Proof.
  intros [(S1 & S2 & S3) S4 S5 S6 S7] Hf.
  assert (Hg : ∀ g, own g ≠ Other → give f o own g = own g) by (intros g Hg; apply give_ne; congruence).
  split; try done.
  - rewrite Hg; [done|congruence].
  - intros k Hk Hp. destruct (S5 k Hk Hp). rewrite Hg; [done|congruence].
  - intros k Hk Hp. pose proof (S7 k Hk Hp). rewrite Hg; [done|congruence].
Qed.

Lemma usr_space_give own d ap f o m : usr_space own d ap m → own f = Other → usr_space (give f o own) d ap m.
Proof.
  intros [U1 U2 U3] Hf. split; [by apply space_give| |done]. intros i Hi Ht.
  destruct (U2 i Hi Ht) as (g & ? & ? & ?). exists g. split; [done|]. split; [|done].
  rewrite give_ne; [done|congruence].
Qed.

Section free.
Context (own : Z → owner) (d f a i : Z) (m : Machine.t) (Hw : world_ok own d m).
Context (Hi : 0 ≤ i < PagePool.capacity (heap_pool m)) (Ht : PagePool.taken (heap_pool m) i = true).
Context (Ha : a = page m i) (Hf : translate m a = Some f) (Ho : own f = Other).

Lemma other_data : data_frame m f.
Proof.
  pose proof Hw as [W1 W2 W3 W4 _]. destruct W3 as [(D1 & D2 & D3) _ Hu _ Hk].
  destruct (ko_mapped m W4 i Hi Ht) as (f' & Hf' & j & Hj & _ & Hjf). rewrite <- Ha, Hf in Hf'. injection Hf' as <-.
  split; [rewrite <- Hjf; apply PagePool.page_at_aligned, W2|]. split; [rewrite W1; congruence|].
  rewrite (space_same d m W1) in Hu, Hk. intros n Hn Hp E.
  destruct (decide (n < 768)); [destruct (Hu n) as [E' _]; [lia|done|]|pose proof (Hk n ltac:(lia) Hp) as E']; congruence.
Qed.

Lemma free_world :
  ∃ m', Pages.FreePages a 1 m = Ok m' ∧ world_ok (give f Free own) d m'
    ∧ agree own (λ o, o ≠ KrnlTab) m m' ∧ usr_pool m' = usr_pool m
    ∧ (∀ k, 0 ≤ k < 1024 → pde m' k = pde m k)
    ∧ ∀ b, plain b → translate m b ≠ Some (f + GetOffset b) → translate m' b = translate m b.
Proof.
  pose proof (wo_owned _ _ _ Hw) as Hown. pose proof (ko_heap m Hown) as Hh.
  destruct (free_pages_ok m i 1 Hown) as (m' & HF & Hown' & [R1 R2 R3 R4 (R5 & R6 & (R7 & R8 & R9) & R10) R11 R12] & _); try lia.
  { intros j g Hj _ Hg. replace j with i in Hg by lia. rewrite <- Ha, Hf in Hg. injection Hg as <-.
    by apply other_data. }
  { intros j Hj. by replace j with i by lia. }
  rewrite <- Ha in HF. destruct (heap_page own d m i Hw Hi) as [_ Ha0]. rewrite <- Ha in Ha0.
  assert (Hup : usr_pool m' = usr_pool m) by done.
  exists m'. split; [|split; [|split; [|split; [done|split; [done|]]]]].
  - destruct (ko_mapped m Hown i Hi Ht) as (f' & Hf' & j & Hj & _ & Hjf).
    rewrite <- Ha, Hf in Hf'. injection Hf' as <-. unfold Pages.FreePages.
    destruct (Z.eqb_spec a 0); [done|]. simpl.
    rewrite (proj1 (GetPhyAddr_ok m _ _ (kh_wf m Hh) Hf)). simpl.
    unfold MemInit.GetSrcMemPool, MemInit.IsKrnlMem. pose proof (ko_source m Hown).
    destruct (Z.ltb_spec f (PagePool.start_addr_ (MemInit.usr_mem_pool (pools m)))); [done|].
    unfold PagePool.page_at in *. lia.
  - pose proof Hw as [W1 W2 W3 W4 W5]. pose proof (ko_heap m' Hown') as Hh'.
    assert (Hsp : space_ok own d m').
    { apply (space_pde own d m W3); [done|]. intros k Hk. rewrite (space_same d m W1), <- (R10 k Hk).
      f_equal. apply space_same. by rewrite R5. }
    split; [by rewrite R5| |by apply space_give|done|].
    + split; [apply Hh'|apply Hh'|rewrite Hup; apply W2| |].
      * rewrite Hup. unfold PagePool.page_at. rewrite R7, R8. apply W2.
      * intros g Hg. destruct (decide (g = f)) as [->|Hne]; [apply give_eq|]. rewrite give_ne by done.
        unfold is_free in Hg. rewrite Hup in Hg.
        apply (fo_free _ _ W2). destruct Hg as [Hg|Hg]; [left|by right].
        apply R11 in Hg as [|(k & Hk & E)]; [done|]. replace (i + k) with i in E by lia. congruence.
    + destruct R1 as (Est & Ecap & _). rewrite Ecap. intros k Hk. unfold KernelPages.page, PagePool.page_at.
      rewrite Est. by apply W5.
  - intros g j Hg Hj Hk. apply R12; [done|done|]. intros Htab. apply Hk. by apply (heap_table_krnl own d m).
  - intros b Hb Hne. apply R4; [done|]. intros k Hk. replace (i + k) with i by lia. rewrite <- Ha. intros Hs.
    apply Hne. rewrite (translate_shares m b _ Hs), Hf. simpl. f_equal.
    rewrite Ha, (page_offset_0 m i Hh Hi). lia.
Qed.
End free.

(** ** The thread of the child *)

Section threads.
Context `{Thread.Platform}.

(** The control block and the kernel stack of a forked thread: the parent's,
    with the frames its own, and 0 for [eax]. *)
Definition forked_tcb (x : Thread.t) (page : Z) (proc : option Z) : Thread.t :=
  Thread.mk (Thread.name_ x) (page + 4000) Thread.Ready (Thread.priority_ x) (Thread.priority_ x) 0 proc
    (Thread.stack_guard_ x) (Thread.file_descs_ x)
    (<[4016 := Thread.intr_exit_addr]> (<[4052 := 0]> (Thread.words x))).

Definition add_thread (page : Z) (x : Thread.t) (k : Thread.kernel) : Thread.kernel :=
  Thread.ready_PushBack page (Thread.all_PushBack page (Thread.set_thds (<[page := x]> (Thread.thds k)) k)).

Lemma stack_frames page :
  0 ≤ page → page + 4096 ≤ 2 ^ 32 →
  Thread.GetIntrStack page = page + 4020 ∧ Thread.GetSwitchStack page = page + 4000
  ∧ Thread.GetIntrStack page +w Thread.IntrStack_eax = page + 4052
  ∧ Thread.GetSwitchStack page +w Thread.SwitchStack_eip = page + 4016.
Proof.
  intros H0 H1. unfold Thread.GetSwitchStack, Thread.GetIntrStack, Thread.GetKrnlStackBottom,
    Thread.page_size, Thread.sizeof_IntrStack, Thread.sizeof_SwitchStack, Thread.IntrStack_eax, Thread.SwitchStack_eip.
  assert (E : u32 (page + 4096) -w 76 = page + 4020).
  { rewrite u32_sub_l. rewrite u32_small; lia. }
  rewrite E. rewrite !(u32_small (page + 4020 - 20)) by lia. split_and!; rewrite ?u32_small; lia.
Qed.

(** The kernel with the thread [y] at [page]. *)
Definition thread_at (page : Z) (y : Thread.t) (k : Thread.kernel) : Thread.kernel :=
  Thread.set_thds (<[page := y]> (Thread.thds k)) k.

Lemma thread_at_twice page y y' k : Thread.set_thds (<[page := y']> (Thread.thds (thread_at page y k))) (thread_at page y k) = thread_at page y' k.
Proof. unfold thread_at. cbn. by rewrite insert_insert_eq. Qed.

Lemma upd_thread_at page f y k : Thread.upd_thd page f (thread_at page y k) = Ok (thread_at page (f y) k).
Proof.
  rewrite (Sched.upd_thd_ok _ page f y), thread_at_twice; [done|]. apply lookup_insert_eq.
Qed.

Lemma store_thread_at page a j v y k :
  a = page + j → 0 ≤ j → j + 4 ≤ 4096 →
  Thread.store_word page a v (thread_at page y k)
    = Ok (thread_at page (Thread.with_stack (Thread.krnl_stack_ y) (<[j := v]> (Thread.words y)) y) k).
Proof.
  intros -> H0 H1. unfold Thread.store_word, Thread.page_size.
  destruct (Z.leb_spec page (page + j)); [|lia]. destruct (Z.leb_spec (page + j + 4) (page + 4096)); [|lia].
  cbn [andb Assert mbind res_bind]. rewrite upd_thread_at. by replace (page + j - page) with j by lia.
Qed.

(** The control block while the thread is forked. *)
Definition copied_tcb (x : Thread.t) (s : Thread.Status) (stack : Z) (ws : gmap Z Z) : Thread.t :=
  Thread.mk (Thread.name_ x) stack s (Thread.priority_ x) (Thread.priority_ x) 0 (Thread.proc_ x)
    (Thread.stack_guard_ x) (Thread.file_descs_ x) ws.

Lemma with_stack_copied x s a ws a' ws' :
  Thread.with_stack a' ws' (copied_tcb x s a ws) = copied_tcb x s a' ws'.
Proof. done. Qed.

Lemma CopyTo_ok page this x y k :
  Thread.thds k !! this = Some x → this ≠ page →
  Thread.CopyTo this page (thread_at page y k) = Ok (thread_at page (copied_tcb x Thread.Died
    (Thread.GetKrnlStackBottom page -w Thread.sizeof_IntrStack -w Thread.sizeof_StartupStack) (Thread.words x)) k).
Proof.
  intros Hx Hne. unfold Thread.CopyTo.
  assert (E : Thread.get_thd this (thread_at page y k) = Ok x)
    by (unfold Thread.get_thd, thread_at; cbn; by rewrite lookup_insert_ne, Hx).
  rewrite E. cbn [mbind res_bind]. unfold Thread.ResetTicks. rewrite thread_at_twice. by rewrite upd_thread_at.
Qed.

Lemma Fork_ok page this x k :
  Thread.thds k !! this = Some x → this ≠ page → 0 ≤ page → page + 4096 ≤ 2 ^ 32 →
  page ∉ Thread.ready k → page + 8 ∉ Thread.all_thds k →
  Thread.Fork (Some page) this k = Ok (page, add_thread page (forked_tcb x page (Thread.proc_ x)) k).
Proof.
  intros Hx Hne H0 H1 Hr Ha. destruct (stack_frames page H0 H1) as (_ & E2 & E3 & E4).
  unfold Thread.Fork, Thread.alloc_thread. cbn [mbind res_bind]. fold (thread_at page Thread.zero_page k).
  rewrite (CopyTo_ok page this x) by done. cbn [mbind res_bind]. rewrite E3, E4, E2.
  rewrite (store_thread_at page _ 4052), with_stack_copied by lia. cbn [mbind res_bind].
  rewrite (store_thread_at page _ 4016), with_stack_copied by lia. cbn [mbind res_bind].
  rewrite upd_thread_at, with_stack_copied. cbn [mbind res_bind].
  set (y := copied_tcb x Thread.Died (page + 4000) _).
  assert (E : Thread.get_thd page (thread_at page y k) = Ok y)
    by (unfold Thread.get_thd, thread_at; cbn; by rewrite lookup_insert_eq).
  rewrite E. cbn [mbind res_bind]. rewrite bool_decide_eq_true_2 by done. cbn [Assert mbind res_bind].
  unfold Thread.all_Find, Thread.ready_Find. rewrite bool_decide_eq_false_2 by done. cbn [negb Assert mbind res_bind].
  assert (E' : Thread.SetStatus Thread.Ready page (Thread.all_PushBack page (thread_at page y k))
    = Ok (Thread.all_PushBack page (thread_at page (Thread.with_status Thread.Ready y) k))).
  { unfold Thread.SetStatus. rewrite (Sched.upd_thd_ok _ page _ y); [|apply lookup_insert_eq].
    f_equal. unfold Thread.all_PushBack, thread_at. cbn. by rewrite insert_insert_eq. }
  rewrite E'. cbn [mbind res_bind]. rewrite bool_decide_eq_false_2 by done. done.
Qed.
End threads.

(** ** The steps of [Fork] *)

Section system.
Context {F : Type} `{OpenFiles F} `{Thread.Platform} `{Entries}.
Local Abbreviation os := (Process.os (F := F)).

Lemma bind_upd {A} a f x (k : unit → M os A) s Q :
  procs s !! a = Some x → runs (k tt) (with_procs (<[a := f x]> (procs s)) s) Q →
  runs (upd_proc a f ≫= k) s Q.
Proof.
  intros Hx HQ. unfold upd_proc. apply bind_assoc. apply (bind_proc _ x); [done|]. by apply bind_modify.
Qed.
Lemma runs_upd a f x (s : os) (Q : unit → os → Prop) :
  procs s !! a = Some x → Q tt (with_procs (<[a := f x]> (procs s)) s) → runs (upd_proc a f) s Q.
Proof. intros Hx HQ. unfold upd_proc. apply (bind_proc _ x); [done|]. by apply runs_modify. Qed.

(** The system with the threads of [k], the memory [m] and the processes [ps]. *)
Definition sys (k : Thread.kernel) (m : Machine.t) (ps : gmap Z Process.t) (n : Z) (f : F) : os :=
  mkOs (Thread.set_procs (view <$> ps) k) m ps n f.

Context (k : Thread.kernel) (f : F).

Lemma sys_with_procs m ps ps' n : with_procs ps' (sys k m ps n f) = sys k m ps' n f.
Proof. done. Qed.

(** [AllocPages] in the system. *)
Lemma runs_alloc own d n spare m ps pid count Q :
  stock own d n spare m → 0 < count ≤ n → 0 ≤ spare →
  (∀ m' a g fs, got_page own m m' a g → g ∈ fs →
    (∀ o, o ≠ Free → stock (gives fs o own) d (n - count) spare m' ∧ extends own m (gives fs o own) m') →
    Q a (sys k m' ps pid f)) →
  runs (on_mach_ (Pages.AllocPages Kernel count)) (sys k m ps pid f) Q.
Proof.
  intros Hs Hc Hsp HQ. destruct (alloc_stock own d n spare m count Hs Hc Hsp) as (m' & a & g & fs & HA & Hg & Hin & Ho).
  exists a, (sys k m' ps pid f). split; [|by eapply HQ]. unfold on_mach_. cbn [mach sys]. by rewrite HA.
Qed.

Lemma runs_alloc_pages own d n spare m ps pid count Q :
  stock own d n spare m → 0 < count ≤ n → 0 ≤ spare →
  (∀ m' a g fs, got_page own m m' a g → g ∈ fs →
    (∀ o, o ≠ Free → stock (gives fs o own) d (n - count) spare m' ∧ extends own m (gives fs o own) m') →
    Q a (sys k m' ps pid f)) →
  runs (alloc_pages count) (sys k m ps pid f) Q.
Proof.
  intros Hs Hc Hsp HQ. unfold alloc_pages. apply runs_bind. eapply runs_alloc; [done|done|done|].
  intros m' a g fs Hg Hin Ho. destruct (gp_page _ _ _ _ _ Hg) as [_ Hne].
  apply bind_assert; [by destruct (Z.eqb_spec a 0)|]. apply runs_ret. by eapply HQ.
Qed.

(** The pool of addresses of a new process: no page is taken. *)
Definition new_pool : PagePool.t := VrAddrPool.Init image_base (MemInit.zero_bitmap 94199).
Definition new_descs : list MemHeap.desc := (λ i, MemHeap.desc_at i []) <$> seq 0 7.

Lemma new_pool_ok :
  PagePool.ok new_pool ∧ PagePool.start_addr_ new_pool = image_base ∧ PagePool.capacity new_pool = 94199 * 8
  ∧ ∀ j, PagePool.taken new_pool j = false.
Proof.
  assert (E : new_pool = PagePool.mk image_base (94199 * 8) (MemInit.zero_bitmap 94199)).
  { unfold new_pool, VrAddrPool.Init. f_equal. }
  rewrite E. split; [by apply MemInit.fresh_pool_ok|]. split; [done|]. split; [done|].
  intros j. apply MemInit.zero_bitmap_free.
Qed.

Section steps.
Context (own : Z → owner) (d n spare : Z) (m : Machine.t) (ps : gmap Z Process.t) (pid : Z).
Context (Hs : stock own d n spare m) (Hn : 0 < n) (Hsp : 0 ≤ spare).

Lemma runs_alloc_process Q :
  (∀ m' a g fs, got_page own m m' a g →
    stock (gives fs Other own) d (n - 1) spare m' → extends own m (gives fs Other own) m' →
    Q a (sys k m' (<[a := zero_process]> ps) pid f)) →
  runs alloc_process (sys k m ps pid f) Q.
Proof.
  intros HQ. unfold alloc_process. apply runs_bind.
  eapply runs_alloc_pages; [done|lia|done|]. intros m' a g fs Hg _ Ho. destruct (Ho Other) as [Hst Hex]; [done|].
  apply bind_modify, runs_ret. by eapply HQ.
Qed.

Lemma runs_InitMemBlockDescTab a y Q :
  ps !! a = Some y → Q tt (sys k m (<[a := with_descs new_descs y]> ps) pid f) →
  runs (InitMemBlockDescTab a) (sys k m ps pid f) Q.
Proof.
  intros Hy HQ. unfold InitMemBlockDescTab. apply (bind_lift _ new_descs); [apply MemHeap.MemBlockDescTab_Init_eq|].
  by apply (runs_upd _ _ y).
Qed.

Lemma runs_InitVrAddrPool a y Q :
  ps !! a = Some y → 23 ≤ n →
  (∀ m' own', stock own' d (n - 23) spare m' → extends own m own' m' →
    Q tt (sys k m' (<[a := with_vr_addrs new_pool y]> ps) pid f)) →
  runs (InitVrAddrPool a) (sys k m ps pid f) Q.
Proof.
  intros Hy H23 HQ. unfold InitVrAddrPool.
  assert (E : (krnl_base - image_base) / page_size / 8 = 94199) by (vm_compute; reflexivity).
  rewrite E. cbv zeta. change (CalcPageCount 94199) with 23. apply runs_bind.
  eapply runs_alloc_pages; [done|lia|done|]. intros m' b g fs _ _ Ho. destruct (Ho Other) as [Hst Hex]; [done|].
  apply (runs_upd _ _ y); [done|]. by eapply HQ.
Qed.

(** The child's directory is at the frame [g]. *)
Lemma runs_InitPageDir a y Q :
  ps !! a = Some y →
  (∀ m' own' dir g, stock own' d (n - 1) spare m' → extends own m own' m' → blank own' d g m' → g ≠ d → own g = Free →
    krnl_page dir → translate m' dir = Some g →
    Q tt (sys k m' (<[a := with_page_dir dir y]> ps) pid f)) →
  runs (InitPageDir a) (sys k m ps pid f) Q.
Proof.
  intros Hy HQ. unfold InitPageDir. apply runs_bind. eapply runs_alloc; [done|lia|done|].
  intros m' dir g fs [[G1 G2] G3 G4 (G5 & G6 & G7) G8 _ _] Hin Ho.
  destruct (Ho (Tab g)) as [Hst Hex]; [done|]. set (own' := gives fs (Tab g) own) in *.
  pose proof Hst as [Hw Hr Hc].
  assert (Hgd : d ≠ g).
  { intros <-. pose proof (so_dir _ _ _ (wo_space _ _ _ (sk_world _ _ _ _ _ Hs))) as (_ & _ & E). congruence. }
  destruct (init_dir_ok own' d g dir m' Hw (gives_in fs (Tab g) own g Hin) Hgd G1 G4 (conj G6 G7) G8)
    as (m1 & m2 & HC & HG & HS & Hw2 & Hp2 & Hu2 & Ht2 & Hw2' & Hs2 & Hk2 & Hn2).
  apply (bind_upd _ _ y); [done|]. apply bind_assert; [by destruct (Z.eqb_spec dir 0)|].
  apply (bind_mach _ m1); [exact HC|]. apply (bind_ask _ g); [exact HG|].
  exists tt, (sys k m2 (<[a := with_page_dir dir y]> ps) pid f).
  split; [unfold on_mach; cbn [mach with_mach]; by rewrite HS|].
  apply (HQ m2 own' dir g); [split| |split|by apply not_eq_sym|done|done|by rewrite Ht2]; try done.
  - destruct Hr as [p Hp]. exists p. unfold heap_pool. by rewrite Hp2.
  - unfold krnl_pool. by rewrite Hp2.
  - destruct Hex as [E1 E2 E3 E4 E5]. split; [done| | | |].
    + intros h j Hh Hj Hho. rewrite Hw2'; [by apply E2|done|done|]. intros ->. by destruct Hho.
    + rewrite <- E3. unfold usr_pool. by rewrite Hp2.
    + intros b x Hb Hx. rewrite Ht2. by apply E4.
    + intros j Hj. rewrite <- E5 by done. pose proof (wo_dir _ _ _ Hw) as D1. pose proof (wo_dir _ _ _ Hw2) as D2.
      unfold pde. rewrite D1, D2. apply Hw2'; [|done|done]. apply (so_dir _ _ _ (wo_space _ _ _ Hw)).
Qed.

(** The child's thread. *)
Lemma runs_fork_thread thd x Q :
  Thread.thds k !! thd = Some x → (∃ b, translate m thd = Some b) →
  (∀ a, krnl_page a → translate m a = None → a ∉ Thread.ready k ∧ a + 8 ∉ Thread.all_thds k) →
  (∀ m' a g fs, got_page own m m' a g →
    stock (gives fs Other own) d (n - 1) spare m' → extends own m (gives fs Other own) m' →
    Q a (sys (add_thread a (forked_tcb x a (Thread.proc_ x)) k) m' ps pid f)) →
  runs (fork_thread thd) (sys k m ps pid f) Q.
Proof.
  intros Hx [b Hb] Hl HQ. unfold fork_thread. apply runs_bind. eapply runs_alloc; [done|lia|done|].
  intros m' a g fs Hg _ Ho. destruct (Ho Other) as [Hst Hex]; [done|].
  pose proof Hg as [[G1 G2] G3 _ _ _ _ _]. destruct (Hl a G1 G3) as [L1 L2]. destruct G1 as (A1 & A2 & A3 & _).
  exists a, (sys (add_thread a (forked_tcb x a (Thread.proc_ x)) k) m' ps pid f). split; [|by eapply HQ].
  unfold on_krnl_. destruct (Z.eqb_spec a 0); [done|]. cbn [krnl sys].
  rewrite (Fork_ok a thd x); try done. congruence.
Qed.
End steps.

(** [main_thd_->proc_ = child] *)
Lemma runs_set_thread_proc a y c m ps pid (Q : unit → os → Prop) :
  Q tt (sys (add_thread a (forked_tcb y a (Some c)) k) m ps pid f) →
  runs (set_thread_proc a c) (sys (add_thread a (forked_tcb y a (Thread.proc_ y)) k) m ps pid f) Q.
Proof.
  intros HQ. eexists tt, _. split; [|exact HQ]. unfold set_thread_proc, on_krnl, sys.
  cbn [krnl with_krnl]. rewrite (Sched.upd_thd_ok _ a _ (forked_tcb y a (Thread.proc_ y))); [|apply lookup_insert_eq].
  cbn [mbind res_bind]. unfold with_krnl. cbn [mach procs last_pid open_files]. do 2 f_equal. f_equal.
  unfold add_thread, Thread.ready_PushBack, Thread.all_PushBack. cbn. rewrite insert_insert_eq. done.
Qed.
End system.

Section prepare.
Context {F : Type} `{OpenFiles F} `{Thread.Platform} `{Entries}.
Local Abbreviation os := (Process.os (F := F)).
Context (k : Thread.kernel) (f f' : F) (own : Z → owner) (d spare : Z) (m : Machine.t) (ps : gmap Z Process.t) (pid : Z).
Context (this thd : Z) (x : Process.t) (t : Thread.t).
Context (Hs : stock own d 27 spare m) (Hsp : 0 ≤ spare).
Context (Hx : ps !! this = Some x) (Hm : main_thd_ x = Some thd) (Ht : Thread.thds k !! thd = Some t).
Context (Hobj : ∀ a, is_Some (ps !! a) ∨ is_Some (Thread.thds k !! a) → plain a ∧ ∃ b, translate m a = Some b).
Context (Hlists : ∀ a, a ∈ Thread.ready k ∨ a + 8 ∈ Thread.all_thds k → is_Some (Thread.thds k !! a)).
Context (Hfiles : fork_file_descs (drop FileDesc.std_stream_count (file_descs_ x)) f = Ok (tt, f')).

(** The child before it has memory. *)
Definition child_process (dir thd' : Z) : Process.t :=
  Process.mk new_pool new_descs dir (pid +w 1) (pid_ x) (file_descs_ x) (Some thd').

Record prepared (child thd' dir g : Z) (own' : Z → owner) (m' : Machine.t) : Prop := {
  pr_stock : stock own' d 1 spare m';
  pr_extends : extends own m own' m';
  pr_blank : blank own' d g m' ∧ g ≠ d ∧ own g = Free;
  pr_dir : krnl_page dir ∧ translate m' dir = Some g;
  pr_child : krnl_page child ∧ translate m child = None ∧ ∃ b, translate m' child = Some b;
  pr_thread : krnl_page thd' ∧ translate m thd' = None ∧ ∃ b, translate m' thd' = Some b
}.

Lemma object_keeps own' m' a :
  extends own m own' m' → is_Some (ps !! a) ∨ is_Some (Thread.thds k !! a) → ∃ b, translate m' a = Some b.
Proof. intros He Ha. destruct (Hobj a Ha) as (Hp & b & Hb). exists b. by apply (ex_map _ _ _ _ He). Qed.

(** A page that is new is no object. *)
Lemma new_no_object own' m' a :
  extends own m own' m' → translate m' a = None → ps !! a = None ∧ Thread.thds k !! a = None.
Proof.
  intros He Hn. split; apply eq_None_not_Some; intros Ha;
    [destruct (object_keeps own' m' a He (or_introl Ha))|destruct (object_keeps own' m' a He (or_intror Ha))]; congruence.
Qed.

Lemma runs_prepare (K : Z → M os Z) Q :
  (∀ child thd' dir g own' m', prepared child thd' dir g own' m' →
    runs (K child) (sys (add_thread thd' (forked_tcb t thd' (Some child)) k) m'
      (<[child := child_process dir thd']> ps) (pid +w 1) f') Q) →
  runs (child ← alloc_process;
        n ← CreateNewPid;
        upd_proc child (with_pids n (pid_ x));;
        InitMemBlockDescTab child;;
        InitVrAddrPool child;;
        InitPageDir child;;
        thd ← lift (of_option (main_thd_ x));
        thd' ← fork_thread thd;
        upd_proc child (with_main_thd (Some thd'));;
        set_thread_proc thd' child;;
        CopyFileDescTabTo this child;;
        K child) (sys k m ps pid f) Q.
Proof.
  intros HK. apply runs_bind. eapply runs_alloc_process; [done|lia|done|].
  intros m1 child g1 fs1 G1 S1 E1. set (own1 := gives fs1 Other own) in *.
  apply bind_assoc, bind_gets, bind_assoc, bind_modify, bind_ret.
  apply (bind_upd _ _ zero_process); [apply lookup_insert_eq|]. cbn [procs with_last_pid sys].
  rewrite insert_insert_eq.
  match goal with |- runs ?c _ _ =>
    change (runs c (sys k m1 (<[child := with_pids (pid +w 1) (pid_ x) zero_process]> ps) (pid +w 1) f) Q) end.
  apply runs_bind. eapply runs_InitMemBlockDescTab; [apply lookup_insert_eq|]. rewrite insert_insert_eq.
  apply runs_bind. eapply runs_InitVrAddrPool; [exact S1|done|apply lookup_insert_eq|lia|].
  intros m2 own2 S2 E2. rewrite insert_insert_eq.
  apply runs_bind. eapply runs_InitPageDir; [exact S2|lia|done|apply lookup_insert_eq|].
  intros m3 own3 dir g S3 E3 B3 Hg Hgo Hdir Htr. rewrite insert_insert_eq.
  pose proof (extends_trans _ _ _ _ _ _ E1 (extends_trans _ _ _ _ _ _ E2 E3)) as E13.
  apply (bind_lift _ thd); [by rewrite Hm|]. apply runs_bind.
  eapply runs_fork_thread; [exact S3|lia|done|exact Ht|by apply (object_keeps own3); [|right]| |].
  { intros a Ha Hn. destruct (new_no_object own3 m3 a E13 Hn) as [_ Hno].
    split; intros Hin; destruct (Hlists a); eauto; congruence. }
  intros m4 thd' g4 fs4 G4 S4 E4. set (own4 := gives fs4 Other own3) in *.
  pose proof (extends_trans _ _ _ _ _ _ E13 E4) as E14.
  destruct (gp_page _ _ _ _ _ G1) as [P1 _]. destruct (gp_page _ _ _ _ _ G4) as [P4 _].
  destruct (new_no_object own m child (extends_refl own m) (gp_new _ _ _ _ _ G1)) as [Hc _].
  assert (Hct : this ≠ child) by congruence.
  apply (bind_upd _ _ (with_page_dir dir (with_vr_addrs new_pool (with_descs new_descs
    (with_pids (pid +w 1) (pid_ x) zero_process))))); [apply lookup_insert_eq|].
  cbn [procs sys]. rewrite insert_insert_eq. apply runs_bind.
  apply (runs_set_thread_proc k f thd' t child m4 _ (pid +w 1)).
  unfold CopyFileDescTabTo. apply bind_assoc. apply (bind_proc _ x); [cbn [procs sys]; by rewrite lookup_insert_ne|].
  apply bind_assoc. eapply bind_upd; [apply lookup_insert_eq|]. cbn [procs sys]. rewrite insert_insert_eq.
  apply runs_bind. eexists tt, _. split.
  { unfold on_files. cbn [open_files with_procs sys]. by rewrite Hfiles. }
  apply (HK child thd' dir g own4 m4). split.
  - exact S4.
  - exact E14.
  - split; [eapply blank_extends; [apply S3|apply S4|done|done]|]. split; [done|].
    destruct (decide (own g = Free)) as [|Hn]; [done|].
    rewrite (ex_takes _ _ _ _ (extends_trans _ _ _ _ _ _ E1 E2)) in Hgo by done. done.
  - split; [done|]. destruct Hdir as (? & ? & ? & ? & ?). by apply (ex_map _ _ _ _ E4).
  - split; [done|]. split; [apply G1|]. exists g1. destruct P1 as (? & ? & ? & ? & ?).
    apply (ex_map _ _ _ _ E4); [done|]. apply (ex_map _ _ _ _ E3); [done|].
    apply (ex_map _ _ _ _ E2); [done|]. apply G1.
  - split; [done|]. split; [|exists g4; apply G4]. destruct (translate m thd') eqn:E; [|done].
    destruct P4 as (? & ? & ? & ? & ?). pose proof (gp_new _ _ _ _ _ G4) as Hn.
    by rewrite (ex_map _ _ _ _ E13 thd' z) in Hn.
Qed.
End prepare.

(** ** The child's memory *)

(** What a process reads of its user memory depends on its tables and pages. *)
Lemma usr_load own own' d ap m m' i w :
  usr_space own d ap m → usr_pool_ok ap → takes own own' → agree own (λ o, o = Tab d ∨ o = Usr d) m m' →
  0 ≤ i < PagePool.capacity ap → PagePool.taken ap i = true → 0 ≤ w < 1024 →
  load (page_addr ap i + 4 * w) (space d m') = load (page_addr ap i + 4 * w) (space d m).
Proof.
  intros [U1 U2 _] Hap Ht Ha Hi Htk Hw.
  destruct (usr_agree own own' d m m' U1 Ht) as (_ & _ & Htr); [eapply agree_sub; [|exact Ha]; by intros o ->; left|].
  destruct (U2 i Hi Htk) as (f & Hf & Ho & Hal). destruct (usr_page_fields ap i Hap Hi) as (P1 & P2 & P3 & _ & P5 & _).
  unfold load. rewrite (translate_word (space d m) _ f) by done.
  rewrite (translate_word (space d m') _ f) by (done || by rewrite Htr). simpl. f_equal.
  apply Ha; [done|done|]. rewrite Ho. by right.
Qed.

(** The copy is still one when other frames change. *)
Lemma memory_copied_keep own d0 d1 ap apc m0 m m' f :
  usr_pool_ok ap → memory_copied own d0 d1 ap apc m0 m → own f = Other →
  agree own (λ o, ∃ e, o = Tab e ∨ o = Usr e) m m' → memory_copied (give f Free own) d0 d1 ap apc m0 m'.
Proof.
  intros Hap [M1 M2 M3 M4 M5 M6] Hf Ha. pose proof M3 as (P1 & P2 & P3 & P4).
  assert (Hpa : ∀ i, page_addr apc i = page_addr ap i) by (intros; unfold page_addr, PagePool.page_at; by rewrite P2).
  assert (Hapc : usr_pool_ok apc) by (split; [done|rewrite P3, Hpa; apply Hap]).
  assert (Hag : ∀ e, agree own (λ o, o = Tab e ∨ o = Usr e) m m')
    by (intros e; eapply agree_sub; [|exact Ha]; intros o Ho; by exists e).
  assert (Htb : ∀ e, agree own (λ o, o = Tab e) m m')
    by (intros e; eapply agree_sub; [|apply (Hag e)]; intros o Ho; by left).
  destruct (usr_agree own own d0 m m' (us_space _ _ _ _ M1) (takes_refl own) (Htb d0)) as (A1 & A2 & A3).
  destruct (usr_agree own own d1 m m' (us_space _ _ _ _ M2) (takes_refl own) (Htb d1)) as (B1 & B2 & B3).
  assert (Hlt : ∀ i, 0 ≤ i < PagePool.capacity ap → GetPageDirEntryIdx (page_addr ap i) < 768)
    by (intros i Hi; by apply usr_page_fields).
  split; [| |done| | |].
  - apply usr_space_give; [|done]. by apply (usr_space_keep own own d0 ap m).
  - apply usr_space_give; [|done]. by apply (usr_space_keep own own d1 apc m).
  - intros i w Hi Ht Hw. destruct (M4 i w Hi Ht Hw) as [E1 E2]. split.
    + rewrite <- E1, <- !Hpa. apply (usr_load own own d1 apc); rewrite ?P3, ?P4; try done.
    + rewrite <- E2. by apply (usr_load own own d0 ap).
  - intros i j g Hi Hj Hti Htj. rewrite !B3 by auto. by apply M5.
  - intros j Hj. rewrite A2, B2 by lia. by apply M6.
Qed.

(** The parent's words may be those of an earlier memory. *)
Lemma memory_copied_base own0 own d0 d1 ap apc m0 m1 m :
  usr_pool_ok ap → usr_space own0 d0 ap m0 → agree own0 (λ o, o ≠ Free ∧ o ≠ KrnlTab) m0 m1 →
  memory_copied own d0 d1 ap apc m1 m → memory_copied own d0 d1 ap apc m0 m.
Proof.
  intros Hap Hu Ha [M1 M2 M3 M4 M5 M6]. split; try done. intros i w Hi Ht Hw.
  destruct (M4 i w Hi Ht Hw) as [-> ->].
  assert (E : load (page_addr ap i + 4 * w) (space d0 m1) = load (page_addr ap i + 4 * w) (space d0 m0)).
  { apply (usr_load own0 own0 d0 ap); try done. eapply agree_sub; [|exact Ha]. by intros o [->| ->]. }
  by rewrite E.
Qed.

(** The memory after a fork: the child [d1] has a copy of the memory of [d0];
    the frames of the other spaces, and the translations there were, stay. *)
Record forked_memory (own : Z → owner) (d0 d1 : Z) (ap apc : PagePool.t) (m : Machine.t) (own' : Z → owner) (m' : Machine.t) : Prop := {
  fm_world : world_ok own' d0 m';
  fm_takes : takes own own';
  fm_words : agree own (λ o, o ≠ Free ∧ o ≠ KrnlTab ∧ o ≠ Tab d1) m m';
  fm_map : ∀ a x, plain a → translate m a = Some x → translate m' a = Some x;
  fm_copied : memory_copied own' d0 d1 ap apc m m'
}.

Section memory.
Context {F : Type} `{OpenFiles F} `{Thread.Platform} `{Entries}.
Local Abbreviation os := (Process.os (F := F)).
Context (k : Thread.kernel) (f : F) (own0 own : Z → owner) (d g : Z) (m0 m : Machine.t) (ps : gmap Z Process.t) (pid : Z).
Context (this child thd thd' : Z) (x y : Process.t).
Local Abbreviation ap := (vr_addrs_ x).
Local Abbreviation s := (sys k m ps pid f).
Context (Hs : stock own d 1 (taken_below ap (PagePool.capacity ap)) m) (He : extends own0 m0 own m).
Context (Hb : blank own d g m) (Hgd : g ≠ d) (Hg0 : own0 g = Free).
Context (Hthis : thread_of thd this d x s) (Hchild : thread_of thd' child g y s) (Hne : this ≠ child).
Context (Hcr3 : Thread.cr3 k = d) (Hap : usr_pool_ok ap) (Hpar : usr_space own0 d ap m0).
Context (Hst : PagePool.start_addr_ ap = image_base) (Hcap : PagePool.capacity ap = 94199 * 8).
Context (Hy : vr_addrs_ y = new_pool).
Context (Hcu : taken_below ap (PagePool.capacity ap) ≤ PagePool.free_count_ (usr_pool m0)).

Lemma taken_below_nonneg n p : 0 ≤ n → 0 ≤ taken_below p n.
Proof. intros Hn. unfold taken_below. pose proof (PagePool.nfree_range (PagePool.taken p) 0 n). lia. Qed.

(** The threads see the same tables after the buffer was mapped. *)
Lemma thread_extends th p e z own' m' :
  thread_of th p e z s → extends own m own' m' → thread_of th p e z (sys k m' ps pid f).
Proof.
  intros [T1 T2 [T3 T4]] E. split; [done|done|]. split; [done|]. destruct T3 as (? & ? & ? & ? & ?).
  by apply (ex_map _ _ _ _ E).
Qed.

Lemma view_update apc : view <$> <[child := with_vr_addrs apc y]> ps = view <$> ps.
Proof. destruct (to_proc _ _ _ _ _ Hchild) as [Hc _]. rewrite fmap_insert. apply insert_id. rewrite lookup_fmap. cbn in Hc. by rewrite Hc. Qed.

(** The world after the copy. *)
Lemma copied_world own2 m2 own3 m3 apc :
  world_ok own2 d m2 → page_dir m3 = d → frames_ok own3 m3 → memory_copied own3 d g ap apc m2 m3 →
  (∀ a, translate (space d m3) a = translate (space d m2) a) →
  (∀ j, 0 ≤ j < 1024 → pde (space d m3) j = pde (space d m2) j) →
  pool_within (krnl_pool m2) (krnl_pool m3) → heap_pool m3 = heap_pool m2 →
  world_ok own3 d m3 ∧ ∀ a, translate m3 a = translate m2 a.
Proof.
  intros [W1 W2 W3 W4 W5] Hd Hf Hm Ht Hp Hw Hh.
  rewrite (space_same d m3 Hd), (space_same d m2 W1) in Ht, Hp.
  pose proof (us_space _ _ _ _ (mc_parent _ _ _ _ _ _ _ Hm)) as Hsp. split; [|done]. split; try done.
  - apply (kpages_keep m2); try done; [|by rewrite W1|apply Hf].
    rewrite <- (space_same d m3 Hd). by apply (space_wf own3).
  - intros i. rewrite Hh. unfold KernelPages.page. rewrite Hh. apply W5.
Qed.

(** The memory after the buffer was given back. *)
Lemma freed_buffer own2 fb buf m2 own3 m3 apc :
  got_page own m m2 buf fb → own2 fb = Other → extends own m own2 m2 → takes own2 own3 →
  world_ok own3 d m3 → (∀ a, translate m3 a = translate m2 a) → heap_pool m3 = heap_pool m2 →
  memory_copied own3 d g ap apc m2 m3 →
  (∀ h j, h mod 4096 = 0 → 0 ≤ j < 1024 → own2 h ≠ Free → own2 h ≠ Tab g → h ≠ fb →
     word m3 (h + 4 * j) = word m2 (h + 4 * j)) →
  ∃ m4, Pages.FreePages buf 1 m3 = Ok m4 ∧ forked_memory own0 d g ap apc m0 (give fb Free own3) m4
    ∧ ∀ a z, plain a → translate m a = Some z → translate m4 a = Some z.
Proof.
  intros [[G1 G2] G3 G4 (G5 & G6 & G7) G8 (i & Hi & Hit & Hbuf) G9] Hfb E2 Htk Hw3 Htr Hh Hmc Hwords.
  assert (Hf3 : own3 fb = Other) by (rewrite Htk; [done|congruence]).
  destruct (free_world own3 d fb buf i m3) as (m4 & HF & Hw4 & Ha4 & Hu4 & Hp4 & Ht4); rewrite ?Hh, ?Htr; try done.
  { rewrite Hbuf. unfold KernelPages.page. by rewrite Hh. }
  pose proof (extends_trans _ _ _ _ _ _ He E2) as E02. pose proof E02 as [X1 X2 _ X4 _].
  assert (Hfb0 : own0 fb = Free) by (destruct (decide (own0 fb = Free)) as [|Hn]; [done|]; rewrite (ex_takes _ _ _ _ He) in G5 by done; done).
  assert (Hmap : ∀ a z, plain a → translate m a = Some z → translate m4 a = Some z).
  { intros a z Ha Hz. pose proof (ex_map _ _ _ _ E2 a z Ha Hz) as Hz2.
    rewrite Ht4; [by rewrite Htr|done|]. rewrite Htr, Hz2. intros [= E]. by apply (G9 a z Ha Hz). }
  exists m4. split; [done|]. split; [|done]. split; [done| | | |].
  - intros h Hn. rewrite give_ne by congruence. rewrite Htk, X1 by (try rewrite X1; done). done.
  - intros h j Hal Hj (Hn & Hk & Hg'). pose proof (X1 h Hn) as Eh. assert (E3 : own3 h = own0 h) by (rewrite Htk; congruence).
    rewrite Ha4 by congruence. rewrite Hwords by congruence. by apply X2.
  - intros a z Ha Hz. apply Hmap; [done|]. by apply (ex_map _ _ _ _ He).
  - apply (memory_copied_base own0 _ d g ap apc m0 m2); try done.
    apply (memory_copied_keep own3 d g ap apc m2 m3); try done.
    eapply agree_sub; [|exact Ha4]. by intros o (e & [->| ->]).
Qed.

Lemma runs_copy_memory Q :
  (∀ own' m' apc, forked_memory own0 d g ap apc m0 own' m' →
    (∀ a z, plain a → translate m a = Some z → translate m' a = Some z) →
    Q (pid_ y) (sys k m' (<[child := with_vr_addrs apc y]> ps) pid f)) →
  runs (buf ← on_mach_ (Pages.AllocPages Kernel 1);
        CopyMemTo this child buf page_size;;
        on_mach (Pages.FreePages buf 1);;
        y ← proc_at child;
        mret (pid_ y)) s Q.
Proof.
  intros HQ. destruct (PagePool.capacity_pos ap (proj1 Hap)) as [Hc0 _].
  apply runs_bind. eapply runs_alloc; [exact Hs|lia|apply taken_below_nonneg; lia|].
  intros m2 buf fb fs G Hin Ho. destruct (Ho Other) as [[Hw2 _ Hn2] E2]; [done|].
  pose proof (gives_in fs Other own fb Hin) as Hfb. set (own2 := gives fs Other own) in *.
  pose proof G as [[G1 _] _ G4 (_ & _ & G7) _ _ _].
  pose proof (extends_trans _ _ _ _ _ _ He E2) as E02.
  pose proof (blank_extends own m own2 m2 d g (wo_dir _ _ _ (sk_world _ _ _ _ _ Hs)) (wo_dir _ _ _ Hw2) Hb E2) as Hb2.
  pose proof (space_same d m2 (wo_dir _ _ _ Hw2)) as Es.
  assert (Hlow : ∀ i, 0 ≤ i < PagePool.capacity ap → GetPageDirEntryIdx (page_addr ap i) < 768)
    by (intros i Hi; by apply usr_page_fields).
  apply runs_bind. eapply runs_mono.
  - apply (CopyMemTo_ok own2 (sys k m2 ps pid f) this child thd thd' d g buf fb x y); try done.
    + by apply (thread_extends _ _ _ _ own2).
    + by apply (thread_extends _ _ _ _ own2).
    + apply Hw2.
    + apply (usr_space_keep own0 own2 d ap m0); try done; [apply E02|].
      eapply agree_sub; [|apply E02]. by intros o ->.
    + cbn [mach sys]. by rewrite Es.
    + cbn [mach sys]. by rewrite (ex_usr _ _ _ _ E02).
    + apply Hw2.
    + destruct new_pool_ok as (P1 & P2 & P3 & P4). rewrite Hy. split; [apply Hb2|apply Hb2| |].
      * rewrite P2, P3, Hst, Hcap. by split_and!.
      * intros i Hi. by apply Hb2, Hlow.
  - intros [] s3 (own3 & apc & m3 & -> & Hd3 & Hf3 & Ht3 & Hm3 & Htr3 & Hp3 & Hw3 & Hh3 & Hwd3).
    cbn [mach sys krnl procs last_pid open_files] in *.
    destruct (copied_world own2 m2 own3 m3 apc) as [Hwo3 Htr]; try done.
    destruct (freed_buffer own2 fb buf m2 own3 m3 apc) as (m4 & HF & Hfm & Hmap); try done.
    apply (bind_mach _ m4); [exact HF|]. apply (bind_proc _ (with_vr_addrs apc y)); [apply lookup_insert_eq|].
    apply runs_ret. cbn [with_vr_addrs pid_]. specialize (HQ (give fb Free own3) m4 apc Hfm Hmap).
    unfold sys in HQ. by rewrite view_update in HQ.
Qed.
End memory.

(** ** [Fork] *)

Section fork.
Context {F : Type} `{OpenFiles F} `{Thread.Platform} `{Entries}.
Local Abbreviation os := (Process.os (F := F)).

(** A process that can fork: its thread [thd] runs in its space, whose
    directory is at the frame [d]; the objects of processes and threads are in
    pages of the kernel. *)
Record parent_ok (own : Z → owner) (d this thd : Z) (x : Process.t) (t : Thread.t) (s : os) : Prop := {
  pa_intr : Thread.intr_on (krnl s) = false;
  pa_view : Thread.procs (krnl s) = view <$> procs s;
  pa_world : world_ok own d (mach s);
  pa_cr3 : Thread.cr3 (krnl s) = d;
  pa_proc : procs s !! this = Some x ∧ main_thd_ x = Some thd;
  pa_thread : Thread.thds (krnl s) !! thd = Some t ∧ Thread.proc_ t = Some this;
  pa_dir : krnl_page (page_dir_ x) ∧ translate (mach s) (page_dir_ x) = Some d;
  pa_pool : usr_pool_ok (vr_addrs_ x) ∧ PagePool.start_addr_ (vr_addrs_ x) = image_base
    ∧ PagePool.capacity (vr_addrs_ x) = 94199 * 8;
  pa_usr : usr_space own d (vr_addrs_ x) (mach s);
  pa_objects : ∀ a, is_Some (procs s !! a) ∨ is_Some (Thread.thds (krnl s) !! a) →
    plain a ∧ ∃ b, translate (mach s) a = Some b;
  pa_lists : ∀ a, a ∈ Thread.ready (krnl s) ∨ a + 8 ∈ Thread.all_thds (krnl s) → is_Some (Thread.thds (krnl s) !! a)
}.

(** The parent's user pages. *)
Definition page_count (x : Process.t) : Z := taken_below (vr_addrs_ x) (PagePool.capacity (vr_addrs_ x)).

(** The system after a fork: it has the process [child] with the thread [thd'],
    which is ready and behaves as the parent's thread but for its [eax] and its
    process. *)
Definition forked_sys (x : Process.t) (t : Thread.t) (child thd' dir : Z) (apc : PagePool.t) (m' : Machine.t) (f' : F) (s : os) : os :=
  let pid := last_pid s +w 1 in
  sys (add_thread thd' (forked_tcb t thd' (Some child)) (krnl s)) m'
    (<[child := Process.mk apc new_descs dir pid (pid_ x) (file_descs_ x) (Some thd')]> (procs s)) pid f'.

Lemma parent_after own d this thd x t s child thd' dir g apc own' m' f' :
  parent_ok own d this thd x t s → procs s !! child = None → Thread.thds (krnl s) !! thd' = None →
  krnl_page child → krnl_page thd' → (∃ b, translate m' child = Some b) → (∃ b, translate m' thd' = Some b) →
  forked_memory own d g (vr_addrs_ x) apc (mach s) own' m' →
  parent_ok own' d this thd x t (forked_sys x t child thd' dir apc m' f' s).
Proof.
  intros [P1 P2 P3 P4 [P5 P5'] [P6 P6'] [P7 P7'] P8 P9 P10 P11] Hc Ht (_ & _ & _ & Hcp & _) (_ & _ & _ & Htp & _) Hcm Htm [F1 F2 F3 F4 F5].
  assert (Hct : this ≠ child) by congruence. assert (Htt : thd ≠ thd') by congruence.
  split; cbn; try done.
  - by rewrite lookup_insert_ne.
  - by rewrite lookup_insert_ne.
  - split; [done|]. destruct P7 as (? & ? & ? & ? & ?). by apply F4.
  - apply F5.
  - intros a Ha. destruct (decide (a = child)) as [->|Hnc]; [done|].
    destruct (decide (a = thd')) as [->|Hnt]; [done|]. rewrite !lookup_insert_ne in Ha by done.
    destruct (P10 a Ha) as (Hp & b & Hb). split; [done|]. exists b. by apply F4.
  - intros a Ha. destruct (decide (a = thd')) as [->|Hnt]; [rewrite lookup_insert_eq; by eexists|].
    rewrite lookup_insert_ne by done. apply P11. destruct Ha as [Ha|Ha]; [left|right];
      apply elem_of_app in Ha as [|Ha%list_elem_of_singleton]; try done; unfold Thread.tag_of, Thread.sizeof_Tag in Ha; lia.
Qed.

(** C3. [Fork], with the pages of the heap and the frames it takes, returns the
    new process ID. The child is a new object with the parent's ID and open
    files; its directory shares the kernel's part of the address space and maps
    the parent's user pages at the same addresses, with the same contents, in
    frames of their own that were free; its thread is the parent's with 0 in
    [eax], ready at the end of the list. The parent's directory is loaded again,
    its memory and all frames that had an owner are as before, the buffer is
    given back, and the parent can fork again. *)
Theorem Fork_forks own d this thd x t s f' :
  parent_ok own d this thd x t s → room 27 (mach s) →
  27 + page_count x ≤ PagePool.free_count_ (krnl_pool (mach s)) →
  page_count x ≤ PagePool.free_count_ (usr_pool (mach s)) →
  fork_file_descs (drop FileDesc.std_stream_count (file_descs_ x)) (open_files s) = Ok (tt, f') →
  runs (Fork this) s (λ pid s', ∃ child thd' dir g apc own' m',
    pid = last_pid s +w 1 ∧ s' = forked_sys x t child thd' dir apc m' f' s
    ∧ procs s !! child = None ∧ Thread.thds (krnl s) !! thd' = None
    ∧ krnl_page dir ∧ translate m' dir = Some g
    ∧ forked_memory own d g (vr_addrs_ x) apc (mach s) own' m'
    ∧ parent_ok own' d this thd x t s').
Proof.
  intros Hp Hr Hck Hcu Hfs. pose proof Hp as [P1 P2 P3 P4 [P5 P5'] [P6 P6'] [P7 P7'] (P8 & P8s & P8c) P9 P10 P11].
  unfold Fork. apply bind_gets. apply bind_assert; [by rewrite P1|]. apply (bind_proc _ x); [done|].
  destruct (PagePool.capacity_pos (vr_addrs_ x) (proj1 P8)) as [Hc0 _].
  assert (Es : s = sys (krnl s) (mach s) (procs s) (last_pid s) (open_files s)).
  { destruct s as [k m ps n f]. unfold sys. cbn in *. rewrite <- P2. by destruct k. }
  rewrite Es at 1.
  apply (runs_prepare (krnl s) (open_files s) f' own d (page_count x) (mach s) (procs s) (last_pid s) this thd x t)
    with (K := λ child, buf ← on_mach_ (Pages.AllocPages Kernel 1); CopyMemTo this child buf page_size;;
      on_mach (Pages.FreePages buf 1);; y ← proc_at child; mret (pid_ y)); try done.
  { apply taken_below_nonneg. lia. }
  intros child thd' dir g own1 m1 [Q1 Q2 (Q3 & Q3' & Q3f) [Q4 Q4'] (Q5 & Q5n & Q5m) (Q6 & Q6n & Q6m)].
  destruct (new_no_object (krnl s) own (mach s) (procs s) P10 own (mach s) child (extends_refl _ _) Q5n) as [Nc _].
  destruct (new_no_object (krnl s) own (mach s) (procs s) P10 own (mach s) thd' (extends_refl _ _) Q6n) as [_ Nt].
  assert (Hct : this ≠ child) by congruence. assert (Htt : thd ≠ thd') by congruence.
  apply (runs_copy_memory _ f' own own1 d g (mach s) m1 _ (last_pid s +w 1) this child thd thd' x
    (child_process (last_pid s) x dir thd')); try done.
  - split; cbn; [by exists t; rewrite lookup_insert_ne|by rewrite lookup_insert_ne|].
    split; [done|]. destruct P7 as (? & ? & ? & ? & ?). by apply (ex_map _ _ _ _ Q2).
  - split; cbn; [eexists; by rewrite lookup_insert_eq|by rewrite lookup_insert_eq|done].
  - intros own' m' apc Hfm Hmap. exists child, thd', dir, g, apc, own', m'.
    assert (Hm : ∀ a, krnl_page a → (∃ b, translate m1 a = Some b) → ∃ b, translate m' a = Some b)
      by (intros a (_ & _ & _ & Ha & _) [b Hb]; exists b; by apply Hmap).
    split; [done|]. split; [unfold forked_sys, sys; by rewrite insert_insert_eq|]. split; [done|]. split; [done|].
    split; [done|]. split; [destruct Q4 as (_ & _ & _ & ? & _); by apply Hmap|]. split; [done|].
    rewrite insert_insert_eq. apply (parent_after own d this thd x t s child thd' dir g apc own' m' f'); auto.
Qed.
End fork.

(** ** A concrete system

    A process with one page of user memory: its object, its thread and its page
    directory are pages of the kernel's heap. *)

Definition demo_dir : Z := 0x200000.
Definition demo_words : list (Z * Z) :=
  [(0x200000 + 4 * 32, 0x203007); (0x200000 + 4 * 768, 0x101007); (0x200000 + 4 * 1023, 0x200007);
   (0x203000 + 4 * 72, 0x240007);
   (0x101000 + 4 * 256, 0x201007); (0x101000 + 4 * 257, 0x202007); (0x101000 + 4 * 258, 0x200007);
   (0x240000, 42)].
Definition demo_bits (n : Z) : Bitmap.t := Bitmap.mk 8 (Some ([n] ++ replicate 7 0)).
Definition demo_machine : Machine.t :=
  Machine.mk (list_to_map demo_words) demo_dir
    (MemInit.mkPools (PagePool.mk 0x200000 60 (demo_bits 15)) (PagePool.mk 0x240000 63 (demo_bits 1))
      (PagePool.mk 0xC0100000 61 (demo_bits 7))) None.

(** What is mapped: the index of the table, the entry and the frame. *)
Definition demo_maps : list (Z * Z * Z) :=
  [(32, 72, 0x240000); (768, 256, 0x201000); (768, 257, 0x202000); (768, 258, 0x200000)].

Fixpoint look (a : Z) (l : list (Z * Z)) : Z :=
  match l with
  | [] => 0
  | (b, v) :: l' => if a =? b then v else look a l'
  end.

Lemma demo_machine_word a : word demo_machine a = look a demo_words.
Proof.
  unfold word. cbn [ram demo_machine]. induction demo_words as [|[b v] l IH]; [done|]. cbn.
  rewrite lookup_insert. destruct (Z.eqb_spec a b) as [->|]; case_decide; done.
Qed.

Ltac look_cases := unfold demo_words, look; repeat (case_match; to_prop; [|]).

Lemma demo_pde k : 0 ≤ k < 1024 → PageEntry.IsPresent (pde demo_machine k) = true →
  k = 32 ∧ pde demo_machine k = 0x203007 ∨ k = 768 ∧ pde demo_machine k = 0x101007
  ∨ k = 1023 ∧ pde demo_machine k = 0x200007.
Proof.
  intros Hk. unfold pde. change (page_dir demo_machine) with 0x200000. rewrite demo_machine_word.
  look_cases; try (exfalso; lia); [left|right; left|right; right|done]; split; done || lia.
Qed.

Lemma demo_user_tab j :
  0 ≤ j < 1024 → word demo_machine (0x203000 + 4 * j) = if j =? 72 then 0x240007 else 0.
Proof. intros Hj. rewrite demo_machine_word. look_cases; try (exfalso; lia); repeat case_match; to_prop; done || lia. Qed.
Lemma demo_krnl_tab j :
  0 ≤ j < 1024 → word demo_machine (0x101000 + 4 * j)
    = if j =? 256 then 0x201007 else if j =? 257 then 0x202007 else if j =? 258 then 0x200007 else 0.
Proof. intros Hj. rewrite demo_machine_word. look_cases; try (exfalso; lia); repeat case_match; to_prop; done || lia. Qed.

Lemma demo_translates a x :
  plain a → translate demo_machine a = Some x →
  ∃ f, x = f + GetOffset a
    ∧ (GetPageDirEntryIdx a = 32 ∧ GetPageTabEntryIdx a = 72 ∧ f = 0x240000
       ∨ GetPageDirEntryIdx a = 768 ∧ GetPageTabEntryIdx a = 256 ∧ f = 0x201000
       ∨ GetPageDirEntryIdx a = 768 ∧ GetPageTabEntryIdx a = 257 ∧ f = 0x202000
       ∨ GetPageDirEntryIdx a = 768 ∧ GetPageTabEntryIdx a = 258 ∧ f = 0x200000).
Proof.
  intros Ha. unfold plain in Ha. unfold translate. cbv zeta.
  pose proof (GetPageDirEntryIdx_range a). pose proof (GetPageTabEntryIdx_range a).
  destruct (PageEntry.IsPresent (pde demo_machine (GetPageDirEntryIdx a))) eqn:Hp; [|done].
  destruct (demo_pde (GetPageDirEntryIdx a)) as [[Ek ->]|[[Ek ->]|[Ek ->]]]; try done; rewrite Ek.
  - change (PageEntry.GetAddress 0x203007) with 0x203000. rewrite demo_user_tab by done.
    destruct (Z.eqb_spec (GetPageTabEntryIdx a) 72); [|done]. intros [= <-]. exists 0x240000. split; [done|]. by left.
  - change (PageEntry.GetAddress 0x101007) with 0x101000. rewrite demo_krnl_tab by done.
    destruct (Z.eqb_spec (GetPageTabEntryIdx a) 256); [|destruct (Z.eqb_spec (GetPageTabEntryIdx a) 257);
      [|destruct (Z.eqb_spec (GetPageTabEntryIdx a) 258); [|done]]]; intros [= <-]; eexists; (split; [reflexivity|]);
      right; [left|right; left|right; right]; by split_and!.
Qed.

Definition demo_own (f : Z) : owner :=
  if f =? 0x200000 then Tab demo_dir else if f =? 0x203000 then Tab demo_dir
  else if f =? 0x101000 then KrnlTab else if f =? 0x240000 then Usr demo_dir
  else if (f =? 0x201000) || (f =? 0x202000) then Other else Free.

Lemma demo_pools_ok :
  PagePool.ok (krnl_pool demo_machine) ∧ PagePool.ok (usr_pool demo_machine) ∧ PagePool.ok (heap_pool demo_machine).
Proof.
  split_and!; (split; [split; [eexists; split_and!; [done|done|]|done|vm_compute; done]|done|vm_compute; done|done]);
    repeat constructor; done.
Qed.

Lemma demo_krnl_free f : free_in (krnl_pool demo_machine) f → 0x203000 < f < 0x240000.
Proof.
  intros (j & Hj & Ht & <-). change (0 ≤ j < 64) in Hj. change (PagePool.page_at _ j) with (0x200000 + j * 4096).
  assert (4 ≤ j); [|lia]. destruct (decide (j < 4)); [|lia].
  assert (j = 0 ∨ j = 1 ∨ j = 2 ∨ j = 3) as [->|[->|[->| ->]]] by lia; by vm_compute in Ht.
Qed.
Lemma demo_usr_free f : free_in (usr_pool demo_machine) f → 0x240000 < f.
Proof.
  intros (j & Hj & Ht & <-). change (0 ≤ j < 64) in Hj. change (PagePool.page_at _ j) with (0x240000 + j * 4096).
  assert (j ≠ 0); [|lia]. intros ->. by vm_compute in Ht.
Qed.
Lemma demo_free f : is_free demo_machine f → demo_own f = Free.
Proof.
  intros Hf. assert (0x203000 < f ∧ f ≠ 0x240000).
  { destruct Hf as [Hf%demo_krnl_free|Hf%demo_usr_free]; lia. }
  unfold demo_own. repeat case_match; to_prop; try lia; try done.
Qed.

Lemma demo_heap_page i :
  0 ≤ i < 64 → GetPageDirEntryIdx (KernelPages.page demo_machine i) = 768
    ∧ GetPageTabEntryIdx (KernelPages.page demo_machine i) = 256 + i ∧ GetOffset (KernelPages.page demo_machine i) = 0.
Proof.
  intros Hi. change (KernelPages.page demo_machine i) with (0xC0100000 + i * 4096).
  destruct (page_offset (0xC0100000 + i * 4096) 0) as (_ & _ & E); [lia|div_lia|lia|lia|].
  rewrite GetPageDirEntryIdx_eq, GetPageTabEntryIdx_eq by lia. split_and!; [div_lia|div_lia|done].
Qed.

Lemma demo_heap_taken i : 0 ≤ i < 64 → PagePool.taken (heap_pool demo_machine) i = (i <? 3).
Proof.
  intros Hi. destruct (Z.ltb_spec i 3).
  - assert (i = 0 ∨ i = 1 ∨ i = 2) as [->|[->| ->]] by lia; reflexivity.
  - assert (Hall : forallb (λ i, negb (PagePool.taken (heap_pool demo_machine) i)) (seqZ 3 61) = true)
      by (vm_compute; reflexivity).
    rewrite forallb_forall in Hall. apply negb_true_iff, Hall, list_elem_of_In, elem_of_seqZ. lia.
Qed.

Lemma demo_heap_map i :
  0 ≤ i < 64 → translate demo_machine (KernelPages.page demo_machine i)
    = if i =? 0 then Some 0x201000 else if i =? 1 then Some 0x202000 else if i =? 2 then Some 0x200000 else None.
Proof.
  intros Hi. destruct (demo_heap_page i Hi) as (E1 & E2 & E3).
  destruct (Z.eqb_spec i 0) as [->|]; [done|]. destruct (Z.eqb_spec i 1) as [->|]; [done|].
  destruct (Z.eqb_spec i 2) as [->|]; [done|]. destruct (translate _ _) as [x|] eqn:E; [|done].
  apply demo_translates in E as (f & _ & E); [lia|]. unfold plain. lia.
Qed.

Lemma demo_frames : frames_ok demo_own demo_machine.
Proof.
  destruct demo_pools_ok as (P1 & P2 & _). split; [|done|done|vm_compute; discriminate|exact demo_free].
  intros a. rewrite demo_machine_word. look_cases; unfold in_u; lia.
Qed.

Lemma demo_space : space_ok demo_own demo_dir demo_machine.
Proof.
  change (space_ok demo_own demo_dir (space demo_dir demo_machine)).
  split; change (space demo_dir (space demo_dir demo_machine)) with demo_machine.
  - by split_and!.
  - done.
  - intros k Hk Hp. apply demo_pde in Hp as [[-> ->]|[[-> ->]|[-> ->]]]; done || lia.
  - intros k k' Hk Hk' Hp Hp' _. apply demo_pde in Hp as [[-> _]|[[-> _]|[-> _]]]; try lia.
    apply demo_pde in Hp' as [[-> _]|[[-> _]|[-> _]]]; done || lia.
  - intros k Hk Hp. apply demo_pde in Hp as [[-> ->]|[[-> ->]|[-> ->]]]; done || lia.
Qed.

Lemma demo_heap : kheap demo_machine.
Proof.
  assert (Hc : PagePool.capacity (heap_pool demo_machine) = 64) by done.
  assert (Hp : ∀ i, 0 ≤ i < 64 → pde demo_machine (GetPageDirEntryIdx (KernelPages.page demo_machine i)) = 0x101007)
    by (intros i Hi; destruct (demo_heap_page i Hi) as (-> & _); done).
  split; rewrite ?Hc.
  - apply (space_wf demo_own demo_dir demo_machine demo_frames demo_space).
  - apply demo_pools_ok.
  - intros i Hi. unfold plain. destruct (demo_heap_page i Hi) as (-> & _). done.
  - intros i Hi. by rewrite Hp.
  - intros i j Hi Hj Hne. unfold slot. rewrite !Hp by done.
    destruct (demo_heap_page i Hi) as (_ & -> & _), (demo_heap_page j Hj) as (_ & -> & _). lia.
  - intros i Hi Ht. rewrite demo_heap_taken in Ht by done. rewrite demo_heap_map by done. apply Z.ltb_ge in Ht.
    destruct (Z.eqb_spec i 0), (Z.eqb_spec i 1), (Z.eqb_spec i 2); done || lia.
  - intros a x Ha Hx Hf. apply demo_krnl_free in Hf. apply demo_translates in Hx as (f & -> & Hc'); [|done]. lia.
Qed.

Lemma demo_world : world_ok demo_own demo_dir demo_machine.
Proof.
  assert (Hc : PagePool.capacity (heap_pool demo_machine) = 64) by done.
  split; [done|exact demo_frames|exact demo_space| |].
  - split; [exact demo_heap|vm_compute; discriminate|..]; rewrite Hc.
    + intros i Hi Ht. rewrite demo_heap_taken in Ht by done. apply Z.ltb_lt in Ht.
      assert (i = 0 ∨ i = 1 ∨ i = 2) as [->|[->| ->]] by lia.
      * exists 0x201000. split; [done|]. by exists 1.
      * exists 0x202000. split; [done|]. by exists 2.
      * exists 0x200000. split; [done|]. by exists 0.
    + intros i f a x Hi _ Hf Ha Hx E. pose proof (demo_heap_page i Hi) as (E1 & E2 & E3).
      assert (Hip : plain (KernelPages.page demo_machine i)) by (unfold plain; lia).
      apply demo_translates in Hf as (g & -> & Hg); [|done]. apply demo_translates in Hx as (h & -> & Hh); [|done].
      assert (GetPageDirEntryIdx a = GetPageDirEntryIdx (KernelPages.page demo_machine i)
        ∧ GetPageTabEntryIdx a = GetPageTabEntryIdx (KernelPages.page demo_machine i)) as [Q1 Q2] by lia.
      unfold shares_entry, slot. rewrite Q1, Q2, E1. done.
  - rewrite Hc. intros i Hi. destruct (demo_heap_page i Hi) as (-> & _). lia.
Qed.

(** The addresses of the process: the first page is taken. *)
Definition demo_addrs : PagePool.t :=
  match VrAddrPool.AllocPageAtAddr image_base new_pool with Ok (p, _) => p | _ => new_pool end.

Lemma demo_addrs_ok : PagePool.ok demo_addrs ∧ PagePool.changed new_pool demo_addrs 0 1 true.
Proof.
  destruct new_pool_ok as (P1 & P2 & P3 & P4).
  destruct (AllocPageAtAddr_pool new_pool 0 P1) as (p & HP & Hok & Hch); [lia|done|].
  assert (E : PagePool.page_at new_pool 0 = image_base) by (unfold PagePool.page_at; lia).
  unfold demo_addrs. rewrite E in HP. by rewrite HP.
Qed.

Lemma demo_addrs_fields :
  PagePool.start_addr_ demo_addrs = image_base ∧ PagePool.capacity demo_addrs = 94199 * 8
  ∧ taken_below demo_addrs (PagePool.capacity demo_addrs) = 1
  ∧ ∀ i, 0 ≤ i → PagePool.taken demo_addrs i = (i =? 0).
Proof.
  destruct new_pool_ok as (P1 & P2 & P3 & P4). destruct demo_addrs_ok as (Hok & Hst & Hcap & Hn & Ht).
  rewrite Hst, Hcap. split; [done|]. split; [done|]. split.
  - unfold taken_below. rewrite <- Hcap, <- (PagePool.ok_count demo_addrs Hok), Hn, Hcap.
    pose proof (PagePool.ok_count new_pool P1) as E. rewrite (PagePool.nfree_const _ _ _ false) in E; [lia|lia|auto].
  - intros i Hi. rewrite Ht, P4 by exact Hi. clear -Hi. destruct (Z.leb_spec 0 i), (Z.ltb_spec i (0 + 1)), (Z.eqb_spec i 0); done || lia.
Qed.

Lemma demo_usr_pool : usr_pool_ok demo_addrs.
Proof.
  destruct demo_addrs_fields as (E1 & E2 & _). split; [apply demo_addrs_ok|].
  unfold page_addr, PagePool.page_at. rewrite E1, E2. by vm_compute.
Qed.

Lemma demo_usr_space : usr_space demo_own demo_dir demo_addrs demo_machine.
Proof.
  destruct demo_addrs_fields as (E1 & E2 & _ & E4).
  split; [exact demo_space|..]; change (space demo_dir demo_machine) with demo_machine; intros i Hi; rewrite E4 by lia.
  - intros ->%Z.eqb_eq. exists 0x240000. split; [|done]. unfold page_addr, PagePool.page_at. by rewrite E1.
  - intros Hi0%Z.eqb_neq. destruct (translate _ _) as [x|] eqn:E; [|done]. exfalso.
    destruct (usr_page_fields demo_addrs i demo_usr_pool Hi) as (P1 & P2 & P3 & P4 & P5 & _).
    destruct (usr_page_fields demo_addrs 0 demo_usr_pool) as (Q1 & Q2 & Q3 & _); [lia|].
    assert (E0 : page_addr demo_addrs 0 = 0x8048000) by (unfold page_addr, PagePool.page_at; by rewrite E1).
    apply demo_translates in E as (f & _ & [(D1 & D2 & _)|Hk]); [|lia|done].
    apply Hi0, (page_addr_inj demo_addrs), same_page_eq; [lia|lia|exact P2|exact Q2|]. rewrite E0. split; [exact D1|exact D2].
Qed.

#[local] Existing Instance Ram.ram_store.
#[local] Existing Instance Ram.ram_heap.
#[local] Existing Instance Sched.demo_platform.
#[local] Instance demo_entries : Entries := {| StartProcess_addr := 0xC0002000 |}.

Definition demo_process : Process.t :=
  Process.mk demo_addrs new_descs 0xC0102000 1 metric.npos ([0; 1; 2; 0] ++ replicate 4 metric.npos) (Some 0xC0101000).
Definition demo_sys : os (F := FilePart.world Ram.disk Ram.heap) :=
  sys (Thread.mkKernel {[ 0xC0101000 := Sched.demo_thread Thread.Running (Some 0xC0100000) ]} [] [0xC0101008]
         0xC0101000 None (Some 0xC0101000) ∅ false 0 demo_dir 0 0x100000 true true)
    demo_machine {[ 0xC0100000 := demo_process ]} 1 FsFile.demo_files.

Lemma demo_parent :
  parent_ok demo_own demo_dir 0xC0100000 0xC0101000 demo_process
    (Sched.demo_thread Thread.Running (Some 0xC0100000)) demo_sys.
Proof.
  destruct demo_addrs_fields as (E1 & E2 & _ & E4). split.
  - reflexivity.
  - reflexivity.
  - exact demo_world.
  - reflexivity.
  - split; reflexivity.
  - split; reflexivity.
  - split; [|reflexivity]. split_and!; [done|done|done|done|]. by vm_compute.
  - split; [exact demo_usr_pool|]. by split.
  - exact demo_usr_space.
  - intros a [[x Hx]|[x Hx]]; cbn [procs krnl Thread.thds Thread.set_procs demo_sys sys] in Hx;
      apply lookup_singleton_Some in Hx as [<- _]; (split; [done|]); by eexists.
  - intros a [Ha|Ha]; [by apply elem_of_nil in Ha|]. apply list_elem_of_singleton in Ha.
    assert (a = 0xC0101000) as -> by lia. by eexists.
Qed.

(** The files after the fork: the open one has another holder. *)
Definition demo_forked_files : FilePart.world Ram.disk Ram.heap :=
  FilePart.with_nodes {[ 0x2000 := IdxNode.with_open_times 2 FsFile.demo_open ]} FsFile.demo_files.

Lemma Fork_forks_witness :
  runs (Fork 0xC0100000) demo_sys (λ pid s', ∃ child thd' dir g apc own' m',
    pid = 2 ∧ s' = forked_sys demo_process (Sched.demo_thread Thread.Running (Some 0xC0100000)) child thd' dir apc m'
                     demo_forked_files demo_sys
    ∧ procs demo_sys !! child = None ∧ Thread.thds (krnl demo_sys) !! thd' = None
    ∧ krnl_page dir ∧ translate m' dir = Some g
    ∧ forked_memory demo_own demo_dir g demo_addrs apc demo_machine own' m'
    ∧ parent_ok own' demo_dir 0xC0100000 0xC0101000 demo_process
        (Sched.demo_thread Thread.Running (Some 0xC0100000)) s').
Proof.
  apply (Fork_forks demo_own demo_dir 0xC0100000 0xC0101000 demo_process
    (Sched.demo_thread Thread.Running (Some 0xC0100000)) demo_sys demo_forked_files).
  - exact demo_parent.
  - exists 3. split; [done|]. split; [by vm_compute|]. intros j Hj.
    change (PagePool.taken (heap_pool demo_machine) j = false). rewrite demo_heap_taken by lia. apply Z.ltb_ge. lia.
  - unfold page_count. destruct demo_addrs_fields as (_ & _ & E & _). cbn [vr_addrs_ demo_process]. rewrite E.
    by vm_compute.
  - unfold page_count. destruct demo_addrs_fields as (_ & _ & E & _). cbn [vr_addrs_ demo_process]. rewrite E.
    by vm_compute.
  - reflexivity.
Defined.
End Fork.
