(* ===== verification/KrnlHeap.v ===== *)
(** * The heap of the kernel

    The file system of FsBase to FsBoot is proved on the interface [Heap] with the
    laws [HeapLaws]. Here [Allocate] and [Free] of src/src/kernel/memory/pool.cpp
    (MemHeap) on the pages of the kernel (MemPages) implement that interface: a
    heap with enough pages grants the requests it was promised, whatever their
    order and sizes, and keeps the page tables, the pools and the pages that are
    not part of it. *)
From S2P Require Import Prelude UtilBit UtilBitmap MemPage MemPool MemMap MemPages MemHeap FsBase.
Import MemInit.

Module KrnlHeap.
Import KernelPages KernelHeap.

Abbreviation heap := (MemHeap.t Machine.t).

(** [mem::Allocate] and [mem::Free] as a thread of the kernel calls them: its own
    pool is that of the kernel; of the user's pool it gets null when there are too
    few frames, else [GetUsrVrAddrPool] asserts that it belongs to a process. *)
Definition Allocate (type : PoolType) (size : Z) (h : heap) : res (option Z * heap) :=
  match type with
  | Kernel =>
      '(h, a) ← MemHeap.Allocate size h;
      Ok (if a =? 0 then None else Some a, h)
  | User =>
      Assert (0 <? size);;
      if PhyMemPagePool.GetFreeCount (usr_mem_pool (Machine.pools (MemHeap.pages h))) *w Page.page_size <? size
      then Ok (None, h) else Panic
  end.

Definition Free (type : PoolType) (base : Z) (h : heap) : res heap :=
  match type with
  | Kernel => MemHeap.Free base h
  | User => if base =? 0 then Ok h else Fault
  end.

#[export] Instance krnl_heap : Heap heap := {
  default_pool := Kernel;
  allocate := Allocate;
  free := Free
}.

(** The heap [InitMem] leaves: [MemBlockDescTab::Init], no arena. *)
Definition initial (m : Machine.t) : heap :=
  MemHeap.mk m ∅ ((λ k, MemHeap.desc_at k []) <$> seq 0 7).

(** ** Pages by their index *)

Abbreviation cap m := (PagePool.capacity (heap_pool m)).
Abbreviation taken m i := (PagePool.taken (heap_pool m) i).

Lemma page_inj m i j : page m i = page m j → i = j.
Proof. unfold page, PagePool.page_at. lia. Qed.

Lemma owned_taken m i : 0 ≤ i < cap m → kernel_owned m (page m i) → taken m i = true.
Proof. intros Hi (j & _ & Ht & E). by apply page_inj in E as ->. Qed.

(** [m'] is [m] with the pages [s, s + n) taken or given back, and every other page
    in use where it was. *)
Record moved (m m' : Machine.t) (s n : Z) (v : bool) : Prop := {
  mv_start : PagePool.start_addr_ (heap_pool m') = PagePool.start_addr_ (heap_pool m);
  mv_cap : cap m' = cap m;
  mv_run : 0 ≤ s ∧ 0 < n ∧ s + n ≤ cap m;
  mv_was : ∀ j, s ≤ j < s + n → taken m j = negb v;
  mv_taken : ∀ j, 0 ≤ j → taken m' j = if (s <=? j) && (j <? s + n) then v else taken m j;
  mv_count : free_page_count m' = if v then free_page_count m - n else free_page_count m + n;
  mv_other : ∀ i, 0 ≤ i < cap m → taken m i = true → ¬ (s ≤ i < s + n) →
    Machine.translate m' (page m i) = Machine.translate m (page m i)
}.

Lemma moved_page m m' s n v i : moved m m' s n v → page m' i = page m i.
Proof. intros Hm. unfold page, PagePool.page_at. by rewrite (mv_start _ _ _ _ _ Hm). Qed.

Lemma alloc_moved m n m' a :
  kowned m → 0 < n ≤ free_page_count m → alloc_pages n m = Ok (m', a) → a ≠ 0 →
  ∃ s, a = page m s ∧ moved m m' s n true.
Proof.
  intros Ho Hn HA Ha. pose proof (ko_heap m (ko_pages m Ho)) as Hh.
  destruct (AllocPages_ok m n Hh Hn) as [[HN _]|(m1 & s & fs & HS & Hf & _)].
  { assert (Ok (m, 0) = Ok (m', a)) as [= _ E0] by (rewrite <- HN; exact HA). by destruct Ha. }
  assert (Ok (m1, page m s) = Ok (m', a)) as [= -> <-] by (rewrite <- HS; exact HA).
  exists s. split; [done|].
  destruct Hf as [[_ [(Hs0 & Hs1 & Hfr) _]] (Est & Ecap & _ & Etk) _ _ (_ & _ & Hc) _ _ _ Hoth _].
  fold (cap m) in Hs1. split; try done; [lia|].
  intros i Hi Ht Hout. apply Hoth; [by apply (kh_plain m Hh)|]. intros k Hk (_ & _ & E). revert E.
  apply (kh_private m Hh); lia.
Qed.

Lemma free_moved m s n m' :
  kowned m → 0 ≤ s → 0 < n → s + n ≤ cap m → (∀ j, s ≤ j < s + n → taken m j = true) →
  free_pages (page m s) n m = Ok m' → moved m m' s n false.
Proof.
  intros Ho Hs Hn Hle Ht HF. pose proof (ko_heap m (ko_pages m Ho)) as Hh.
  destruct (free_pages_ok m s n (ko_pages m Ho)) as (m1 & HS & _ & [(Est & Ecap & _ & Etk) Hc _ Hoth _ _ _] & _); try done.
  { intros i f Hi Hti Hf. by apply (ko_data m Ho i f); [lia|..]. }
  assert (Ok m1 = Ok m') as [= ->] by (rewrite <- HS; exact HF).
  split; try done. intros i Hi Hti Hout. apply Hoth; [by apply (kh_plain m Hh)|]. intros k Hk (_ & _ & E). revert E.
  apply (kh_private m Hh); lia.
Qed.

(** ** Arenas and their pages *)

Abbreviation spans h := (MemHeap.spans h).

(** An address in the pages of an arena. *)
Definition in_span (h : heap) (x : Z) : Prop := ∃ a k, spans h !! a = Some k ∧ a ≤ x < a + k * 4096.

(** The pages of an arena are taken. *)
Lemma arena_run (h : heap) a k :
  MemHeap.ok h → spans h !! a = Some k →
  ∃ s, a = page (MemHeap.pages h) s ∧ 0 ≤ s ∧ 0 < k ∧ s + k ≤ cap (MemHeap.pages h)
    ∧ ∀ j, s ≤ j < s + k → taken (MemHeap.pages h) j = true.
Proof.
  intros Hok Hk. set (m := MemHeap.pages h). unfold MemHeap.spans in Hk. rewrite lookup_fmap in Hk.
  apply fmap_Some in Hk as (ar & Ha & ->).
  assert (Hown : ∀ i, 0 ≤ i < MemHeap.span ar → kernel_owned m (a + i * 4096)).
  { intros i Hi. unfold MemHeap.span in Hi. destruct ar as [o n []]; cbn in Hi.
    - by apply (MemHeap.ok_large 0 h Hok a o n Ha).
    - replace (a + i * 4096) with a by lia. by apply (MemHeap.ok_arena 0 h Hok a _ Ha). }
  pose proof (MemHeap.span_pos 0 h a ar Hok Ha) as Hp.
  destruct (Hown 0 ltac:(lia)) as (s & Hs & _ & E). exists s. rewrite Z.mul_0_l, Z.add_0_r in E.
  assert (Hat : ∀ i, 0 ≤ i < MemHeap.span ar → s + i < cap m ∧ taken m (s + i) = true).
  { intros i Hi. destruct (Hown i Hi) as (j & Hj & Ht & Ej).
    rewrite E, <- page_plus in Ej. apply page_inj in Ej as ->. split; [lia|done]. }
  split; [done|]. split; [lia|]. split; [done|]. split; [destruct (Hat (MemHeap.span ar - 1)); lia|].
  intros j Hj. destruct (Hat (j - s)) as [_ Ht]; [lia|]. by replace (s + (j - s)) with j in Ht by lia.
Qed.

(** Every arena has a block in use, so there are no more arenas than blocks. *)
Lemma arena_live (h : heap) a ar :
  MemHeap.ok h → MemHeap.arenas h !! a = Some ar → ∃ b sz, MemHeap.live h b sz ∧ MemHeap.GetArena b = a.
Proof.
  intros Hok Ha. destruct (MemHeap.ok_arena 0 h Hok a ar Ha) as (H1 & H2 & H3 & _).
  destruct ar as [o n []].
  - destruct (MemHeap.ok_large 0 h Hok a o n Ha) as (-> & Hn & _). exists (a + 12), (n * 4096 - 12).
    split; [left; by exists a, n|]. unfold MemHeap.GetArena. rewrite VrAddr.GetPageAddr_eq by lia. div_lia.
  - destruct o as [k|]; [|by destruct (MemHeap.ok_kind 0 h Hok a n)].
    destruct (MemHeap.ok_small 0 h Hok a n k Ha) as (d & Hd & Hn & _ & Hlt). specialize (Hlt ltac:(lia)).
    pose proof (MemHeap.desc_lt 0 h k d Hok Hd) as Hk.
    set (B := MemHeap.blocks a k (MemHeap.blocks_per_arena k)).
    destruct (decide (Exists (λ b, b ∉ MemHeap.free_blocks_ d) B)) as [E|E].
    + apply Exists_exists in E as (b & Hb & Hnf). apply MemHeap.elem_of_blocks in Hb as (j & Hj & ->).
      assert (Hsm : MemHeap.small h a k) by (by exists n).
      exists (MemHeap.block_at a k j), (MemHeap.block_size_at k).
      split; [|by apply (MemHeap.small_block 0 h a k j Hok Hsm Hj)].
      right. exists a, k, j. do 3 (split; [done|]). split; [|done]. intros (d' & Hd' & Hf). congruence.
    + exfalso. rewrite <- Forall_Exists_neg in E.
      assert (Hsub : B ⊆+ MemHeap.in_arena a (MemHeap.free_blocks_ d)).
      { apply NoDup_submseteq; [by apply MemHeap.NoDup_blocks|]. intros b Hb. apply list_elem_of_filter. split.
        - apply MemHeap.elem_of_blocks in Hb as (j & Hj & ->). apply MemHeap.block_in_page; done || lia.
        - rewrite Forall_forall in E. by apply dec_stable, E. }
      apply submseteq_length in Hsub. unfold B, MemHeap.blocks in Hsub. rewrite length_fmap, length_seqZ in Hsub. lia.
Qed.

Lemma arenas_le_blocks (h : heap) (live : gmap Z PoolType) :
  MemHeap.ok h → (∀ b, is_Some (live !! b) ↔ ∃ sz, MemHeap.live h b sz) → (size (spans h) ≤ size live)%nat.
Proof.
  intros Hok Hl. unfold MemHeap.spans. rewrite map_size_fmap, <- !size_dom.
  assert (Hsub : elements (dom (MemHeap.arenas h)) ⊆+ MemHeap.GetArena <$> elements (dom live)).
  { apply NoDup_submseteq; [apply NoDup_elements|]. intros a Ha.
    apply elem_of_elements, elem_of_dom in Ha as [ar Ha].
    destruct (arena_live h a ar Hok Ha) as (b & sz & Hb & <-). apply list_elem_of_fmap. exists b. split; [done|].
    apply elem_of_elements, elem_of_dom, Hl. by exists sz. }
  apply submseteq_length in Hsub. rewrite length_fmap in Hsub. exact Hsub.
Qed.

(** ** Free windows *)

(** The pages of the largest request; arenas have no more. *)
Definition window : Z := 77.

Lemma pigeonhole (l : list Z) (n : Z) : Z.of_nat (length l) < n → ∃ w, 0 ≤ w < n ∧ w ∉ l.
Proof.
  intros Hl. destruct (decide (Exists (λ w, w ∉ l) (seqZ 0 n))) as [E|E].
  - apply Exists_exists in E as (w & Hw%elem_of_seqZ & Hn). exists w. split; [lia|done].
  - exfalso. rewrite <- Forall_Exists_neg, Forall_forall in E.
    assert (Hs : seqZ 0 n ⊆+ l).
    { apply NoDup_submseteq; [apply NoDup_seqZ|]. intros w Hw. by apply dec_stable, E. }
    apply submseteq_length in Hs. rewrite length_seqZ in Hs. lia.
Qed.

(** An arena meets at most two of the windows of [window] pages each. *)
Definition windows_of (st : Z) (ak : Z * Z) : list Z :=
  let s := (ak.1 - st) / 4096 in [s / window; (s + ak.2 - 1) / window].

Lemma length_windows st l : length (concat (windows_of st <$> l)) = (2 * length l)%nat.
Proof. induction l as [|x l IH]; [done|]. rewrite fmap_cons. cbn [concat length windows_of app]. lia. Qed.

Lemma window_met s k j : 0 ≤ s → 0 < k ≤ window → s ≤ j < s + k → j / window = s / window ∨ j / window = (s + k - 1) / window.
Proof. unfold window. intros. div_lia. Qed.

(** The pages of the arenas. *)
Definition used (h : heap) : Z := map_fold (λ _ k r, k + r) 0 (spans h).

Lemma used_insert (m : gmap Z Z) a k :
  m !! a = None → map_fold (λ _ k r, k + r) 0 (<[a := k]> m) = k + map_fold (λ _ k r, k + r) 0 m.
Proof. intros Ha. apply map_fold_insert_L; [intros; lia|done]. Qed.

Lemma used_delete (m : gmap Z Z) a k :
  m !! a = Some k → map_fold (λ _ k r, k + r) 0 (delete a m) = map_fold (λ _ k r, k + r) 0 m - k.
Proof.
  intros Ha. rewrite <- (insert_delete_id m a k Ha) at 2.
  rewrite used_insert by apply lookup_delete_eq. lia.
Qed.

Lemma used_le (m : gmap Z Z) :
  (∀ a k, m !! a = Some k → k ≤ window) → map_fold (λ _ k r, k + r) 0 m ≤ window * Z.of_nat (size m).
Proof.
  induction m as [|a k m Ha IH] using map_ind; intros Hm; [by rewrite map_fold_empty, map_size_empty|].
  rewrite used_insert, map_size_insert_None by done.
  pose proof (Hm a k ltac:(by rewrite lookup_insert_eq)).
  assert (map_fold (λ _ k r, k + r) 0 m ≤ window * Z.of_nat (size m)); [|lia].
  apply IH. intros b j Hb. apply (Hm b). rewrite lookup_insert_ne; [done|]. intros ->. congruence.
Qed.

(** ** The laws *)

Section laws.
Context (base frame : Z).

(** [n] more requests can be granted while the blocks in use are [live]. [base] is
    the one page of the kernel that is not of the heap: that of the idle thread,
    at [frame]. Every other page in use is in an arena, no arena is longer than a
    window, and there are windows and frames for as many arenas as there are
    blocks and promises. *)
Record heap_inv (live : gmap Z PoolType) (n : nat) (h : heap) : Prop := {
  hi_ok : MemHeap.ok h;
  hi_live : ∀ b, is_Some (live !! b) ↔ ∃ sz, MemHeap.live h b sz;
  hi_kernel : ∀ b p, live !! b = Some p → p = Kernel;
  hi_span : ∀ a k, spans h !! a = Some k → k ≤ window;
  hi_base : (∃ i, 0 ≤ i < cap (MemHeap.pages h) ∧ taken (MemHeap.pages h) i = true ∧ page (MemHeap.pages h) i = base)
    ∧ ¬ in_span h base ∧ Machine.translate (MemHeap.pages h) base = Some frame;
  hi_pages : ∀ i, 0 ≤ i < cap (MemHeap.pages h) → taken (MemHeap.pages h) i = true →
    page (MemHeap.pages h) i = base ∨ in_span h (page (MemHeap.pages h) i);
  hi_room : let N := Z.of_nat (size live + n) in
    2 * window * N ≤ cap (MemHeap.pages h) ∧ window * N ≤ free_page_count (MemHeap.pages h) + used h
}.

Lemma hi_owned live n h : heap_inv live n h → kowned (MemHeap.pages h).
Proof. intros Hi. apply (MemHeap.ok_pages 0 h (hi_ok _ _ _ Hi)). Qed.

(** There are frames for the largest request, and a window without a page in use. *)
Lemma heap_frames live n h : heap_inv live (S n) h → window ≤ free_page_count (MemHeap.pages h).
Proof.
  intros Hi. pose proof (arenas_le_blocks h live (hi_ok _ _ _ Hi) (hi_live _ _ _ Hi)).
  pose proof (used_le (spans h) (hi_span _ _ _ Hi)). destruct (hi_room _ _ _ Hi) as [_ Hr].
  unfold window, used in *. lia.
Qed.

Lemma heap_window live n h : heap_inv live (S n) h → kernel_room (MemHeap.pages h) window.
Proof.
  intros Hi. set (m := MemHeap.pages h). set (st := PagePool.start_addr_ (heap_pool m)).
  pose proof (arenas_le_blocks h live (hi_ok _ _ _ Hi) (hi_live _ _ _ Hi)) as Hle.
  destruct (hi_room _ _ _ Hi) as [Hr _]. fold m in Hr.
  destruct (pigeonhole ((base - st) / 4096 / window :: concat (windows_of st <$> map_to_list (spans h)))
    (2 * Z.of_nat (size live + S n))) as (w & Hw & Hn).
  { simpl length. rewrite length_windows. rewrite length_map_to_list. lia. }
  apply not_elem_of_cons in Hn as [Hnb Hns]. exists (window * w).
  assert (Hat : ∀ j, page m j = st + j * 4096) by done.
  assert (Hfree : ∀ j, window * w ≤ j < window * w + window → taken m j = false).
  { intros j Hj. destruct (taken m j) eqn:Ht; [exfalso|done]. assert (Hjw : j / window = w) by (unfold window in *; div_lia).
    destruct (hi_pages _ _ _ Hi j) as [E|(a & k & Ha & Hin)]; [unfold window in *; fold m; lia|exact Ht| |].
    - apply Hnb. fold m in E. rewrite Hat in E. rewrite <- E, <- Hjw. f_equal. div_lia.
    - apply Hns. destruct (arena_run h a k (hi_ok _ _ _ Hi) Ha) as (s & Es & Hs & Hk & _). fold m in Es, Hin.
      rewrite Hat in Es, Hin. pose proof (hi_span _ _ _ Hi a k Ha).
      assert (E : windows_of st (a, k) = [s / window; (s + k - 1) / window]).
      { unfold windows_of. cbn [fst snd]. replace ((a - st) / 4096) with s by div_lia. done. }
      apply list_elem_of_In, in_concat. exists (windows_of st (a, k)). split.
      + apply list_elem_of_In, list_elem_of_fmap. exists (a, k). split; [done|]. by apply elem_of_map_to_list.
      + rewrite E. destruct (window_met s k j) as [Ej|Ej]; [done|lia|lia| |]; rewrite <- Hjw, Ej; simpl; auto. }
  assert (Hcap : window * w + window ≤ cap m) by (unfold window in *; lia).
  split; [unfold window; lia|]. split; [exact Hcap|exact Hfree].
Qed.

Lemma room_le m n n' : kernel_room m n → 0 < n' ≤ n → kernel_room m n'.
Proof. intros (s & H1 & H2 & H3) Hn. exists s. split; [done|]. split; [lia|]. intros j Hj. apply H3. lia. Qed.

(** What a request of the file system needs is there. *)
Lemma heap_grants live n h size :
  heap_inv live (S n) h → 0 < size ≤ max_request →
  let k := MemHeap.pages_needed h size in
  0 ≤ k ≤ window ∧ size ≤ free_page_count (MemHeap.pages h) * 4096 ∧ MemHeap.can_allocate h size.
Proof.
  intros Hi Hs k. unfold max_request in Hs. pose proof (heap_frames live n h Hi) as Hf.
  assert (Hk : 0 ≤ k ≤ window).
  { unfold k, MemHeap.pages_needed, MemHeap.max_block_size, MemHeap.sizeof_MemArena, window.
    destruct (Z.ltb_spec 1024 size); [|repeat case_match; lia].
    pose proof (Page.CalcPageCount_spec (size + 12)). lia. }
  split; [done|]. split; [unfold window in *; lia|]. unfold MemHeap.can_allocate. fold k.
  destruct (decide (k = 0)) as [|Hk0]; [by left|right]. split; [lia|].
  apply (room_le _ window); [by apply (heap_window live n)|lia].
Qed.

Lemma in_span_insert h h' a k x :
  spans h !! a = None → spans h' = <[a := k]> (spans h) →
  in_span h' x ↔ in_span h x ∨ a ≤ x < a + k * 4096.
Proof.
  intros Ha E. unfold in_span. rewrite E. split.
  - intros (b & j & [[<- <-]|[_ Hb]]%lookup_insert_Some & Hx); [by right|left; eauto].
  - intros [(b & j & Hb & Hx)|Hx]; [|exists a, k; by rewrite lookup_insert_eq].
    exists b, j. rewrite lookup_insert_ne; [done|]. intros ->. congruence.
Qed.

(** A run of pages is the addresses of its span. *)
Lemma run_in_span m s k i : s ≤ i < s + k ↔ page m s ≤ page m i < page m s + k * 4096.
Proof. unfold page, PagePool.page_at. lia. Qed.

(** New pages for an arena keep the invariant of the pages. *)
Lemma grown_pages live n h h' k (Hi : heap_inv live (S n) h) :
  MemHeap.ok h' → 0 ≤ k ≤ window → k ≤ free_page_count (MemHeap.pages h) → MemHeap.grown h h' k →
  let m := MemHeap.pages h in let m' := MemHeap.pages h' in
  (∀ a j, spans h' !! a = Some j → j ≤ window)
  ∧ ((∃ i, 0 ≤ i < cap m' ∧ taken m' i = true ∧ page m' i = base) ∧ ¬ in_span h' base
     ∧ Machine.translate m' base = Some frame)
  ∧ (∀ i, 0 ≤ i < cap m' → taken m' i = true → page m' i = base ∨ in_span h' (page m' i))
  ∧ cap m' = cap m ∧ free_page_count m' + used h' = free_page_count m + used h.
Proof.
  intros Hok' Hk Hkf Hg m m'. pose proof Hi as [_ _ _ Hsp ((i0 & Hi0 & Ht0 & E0) & Hb & Htr) Hpg _].
  destruct Hg as [(_ & Ep & Es)|(Hk0 & a & HA & Ha0 & Ha & Es)].
  { unfold in_span, used. unfold m, m'. rewrite Ep, Es. split; [done|]. split; [eauto 10|]. by split. }
  destruct (alloc_moved m k m' a (hi_owned _ _ _ Hi) ltac:(fold m in Hkf; lia) HA Ha0) as (s & -> & Hmv).
  pose proof (λ i, moved_page m m' s k true i Hmv) as Hp. pose proof Hmv as [_ Hc [Hs0 [_ Hs1]] Hwas Htk Hcnt Hoth].
  assert (Hspan : ∀ i, in_span h' (page m i) ↔ in_span h (page m i) ∨ s ≤ i < s + k).
  { intros i. rewrite (in_span_insert h h' _ k _ Ha Es). by rewrite <- run_in_span. }
  assert (Hout : ¬ (s ≤ i0 < s + k)) by (intros Hin; apply Hwas in Hin; fold m in Ht0; by rewrite Ht0 in Hin).
  split.
  { intros b j. rewrite Es. intros [[<- <-]|[_ Hbj]]%lookup_insert_Some; [lia|by apply (Hsp b)]. }
  split; [split; [|split]|split; [|split]].
  - exists i0. rewrite Hc, Hp, Htk by lia. split; [done|]. split; [|done]. by case_match.
  - rewrite <- E0. fold m. rewrite Hspan. intros [?|?]; [|done]. apply Hb. by rewrite <- E0.
  - rewrite <- E0. fold m. rewrite Hoth by done. by rewrite <- Htr, <- E0.
  - intros i Hir Ht. rewrite Hp. rewrite Htk in Ht by lia. rewrite Hspan.
    destruct (decide (s ≤ i < s + k)) as [|Hn]; [by right; right|].
    destruct (Hpg i) as [|]; [fold m; lia| |by left|right; by left].
    revert Ht. destruct (Z.leb_spec s i), (Z.ltb_spec i (s + k)); simpl; done || lia.
  - done.
  - unfold used. rewrite Es, used_insert by done. lia.
Qed.

Lemma krnl_allocate live n h p size :
  p = Kernel → heap_inv live (S n) h → 0 < size ≤ max_request →
  ∃ a h', Allocate p size h = Ok (Some a, h') ∧ live !! a = None ∧ heap_inv (<[a := p]> live) n h'.
Proof.
  intros -> Hi Hs. destruct (heap_grants live n h size Hi Hs) as (Hk & Hf & Hcan).
  destruct (MemHeap.Allocate_ok h size (hi_ok _ _ _ Hi) ltac:(unfold max_request in Hs; lia) Hf) as [HA _].
  destruct (HA Hcan) as (h' & b & E & Hok' & Hb0 & Hg & sz & _ & Hn & Hl). exists b, h'.
  assert (Hkf : MemHeap.pages_needed h size ≤ free_page_count (MemHeap.pages h)).
  { pose proof (heap_frames live n h Hi). lia. }
  destruct (grown_pages live n h h' _ Hi Hok' Hk Hkf Hg) as (H1 & H2 & H3 & Hc & Hcnt).
  assert (Hnone : live !! b = None).
  { apply eq_None_not_Some. intros Hs'. apply (hi_live _ _ _ Hi) in Hs' as [sz' Hs']. by apply Hn in Hs'. }
  unfold Allocate. rewrite E, res_bind_ok, (proj2 (Z.eqb_neq _ _)) by done. split; [done|]. split; [done|].
  split; try done.
  - intros c. rewrite lookup_insert. case_decide as Ec.
    + subst c. split; [intros _; exists sz; apply Hl; by right|done].
    + rewrite (hi_live _ _ _ Hi). split; intros [sz' Hs']; exists sz'; [apply Hl; by left|].
      apply Hl in Hs' as [|[-> _]]; done.
  - intros c q [[_ <-]|[_ Hq]]%lookup_insert_Some; [done|by apply (hi_kernel _ _ _ Hi) in Hq].
  - rewrite map_size_insert_None, Hc, Hcnt by done.
    rewrite Nat.add_succ_comm. apply (hi_room _ _ _ Hi).
Qed.

Lemma in_span_delete h h' a k x :
  MemHeap.ok h → spans h !! a = Some k → spans h' = delete a (spans h) →
  in_span h' x → in_span h x.
Proof.
  intros _ Ha E (b & j & Hb & Hx). rewrite E in Hb. apply lookup_delete_Some in Hb as [_ Hb]. by exists b, j.
Qed.

(** Giving the pages of an arena back. *)
Lemma shrunk_pages live n h h' (Hi : heap_inv live n h) :
  MemHeap.ok h' → MemHeap.shrunk h h' →
  let m := MemHeap.pages h in let m' := MemHeap.pages h' in
  (∀ a j, spans h' !! a = Some j → j ≤ window)
  ∧ ((∃ i, 0 ≤ i < cap m' ∧ taken m' i = true ∧ page m' i = base) ∧ ¬ in_span h' base
     ∧ Machine.translate m' base = Some frame)
  ∧ (∀ i, 0 ≤ i < cap m' → taken m' i = true → page m' i = base ∨ in_span h' (page m' i))
  ∧ cap m' = cap m ∧ free_page_count m' + used h' = free_page_count m + used h.
Proof.
  intros Hok' Hg m m'. pose proof Hi as [Hok _ _ Hsp ((i0 & Hi0 & Ht0 & E0) & Hb & Htr) Hpg _].
  destruct Hg as [(Ep & Es)|(a & k & Ha & HF & Es)].
  { unfold in_span, used. unfold m, m'. rewrite Ep, Es. split; [done|]. split; [eauto 10|]. by split. }
  destruct (arena_run h a k Hok Ha) as (s & -> & Hs & Hk & Hs1 & Htk0). fold m in Ha, Hs1, Htk0, Es, HF.
  pose proof (free_moved m s k m' (hi_owned _ _ _ Hi) Hs Hk Hs1 Htk0 HF) as Hmv.
  pose proof (λ i, moved_page m m' s k false i Hmv) as Hp. pose proof Hmv as [_ Hc _ _ Htk Hcnt Hoth].
  assert (Hout : ¬ (s ≤ i0 < s + k)).
  { rewrite (run_in_span m). intros Hin. apply Hb. rewrite <- E0. by exists (page m s), k. }
  split.
  { intros b j. rewrite Es. intros [_ Hbj]%lookup_delete_Some. by apply (Hsp b). }
  split; [split; [|split]|split; [|split]].
  - exists i0. rewrite Hc, Hp, Htk by lia. split; [done|]. split; [|done].
    destruct (Z.leb_spec s i0), (Z.ltb_spec i0 (s + k)); simpl; done || lia.
  - intros Hin. apply Hb. by apply (in_span_delete h h' (page m s) k).
  - rewrite <- E0. fold m. rewrite Hoth by done. by rewrite <- Htr, <- E0.
  - intros i Hir Ht. rewrite Hp. rewrite Htk in Ht by lia.
    assert (Hn : ¬ (s ≤ i < s + k) ∧ taken m i = true).
    { revert Ht. destruct (Z.leb_spec s i), (Z.ltb_spec i (s + k)); simpl; done || (split; [lia|done]). }
    destruct Hn as [Hn Htm]. destruct (Hpg i) as [|(b & j & Hbj & Hin)]; [fold m; lia|done|by left|right].
    exists b, j. split; [|done]. rewrite Es. apply lookup_delete_Some. split; [|done]. intros <-.
    apply Hn, (run_in_span m). fold m in Hin. assert (j = k) as -> by congruence. done.
  - done.
  - unfold used. rewrite Es, (used_delete _ _ _ Ha). lia.
Qed.

Lemma krnl_free live n h p a :
  heap_inv live n h → live !! a = Some p →
  ∃ h', Free p a h = Ok h' ∧ heap_inv (delete a live) (S n) h'.
Proof.
  intros Hi Ha. pose proof (hi_kernel _ _ _ Hi a p Ha) as ->.
  destruct (proj1 (hi_live _ _ _ Hi a)) as [sz Hl]; [by exists Kernel|].
  destruct (MemHeap.heap_Free_ok h a sz (hi_ok _ _ _ Hi) Hl) as (h' & E & Hok' & Hg & Hl'). exists h'. split; [exact E|].
  destruct (shrunk_pages live n h h' Hi Hok' Hg) as (H1 & H2 & H3 & Hc & Hcnt).
  split; try done.
  - intros c. rewrite lookup_delete. case_decide as Ec.
    + subst c. split; [by intros [? ?]|]. intros [sz' Hs']. by apply Hl' in Hs' as [_ ?].
    + rewrite (hi_live _ _ _ Hi). split; intros [sz' Hs']; exists sz'; [by apply Hl'|by apply Hl' in Hs' as [? _]].
  - intros c q [_ Hq]%lookup_delete_Some. by apply (hi_kernel _ _ _ Hi) in Hq.
  - rewrite map_size_delete, Ha, Hc, Hcnt.
    assert (0 < size live)%nat.
    { destruct (size live) eqn:Esz; [|lia]. apply map_size_empty_inv in Esz. by rewrite Esz in Ha. }
    replace (pred (size live) + S n)%nat with (size live + n)%nat by lia. apply (hi_room _ _ _ Hi).
Qed.

#[export] Instance krnl_heap_laws : HeapLaws heap := {
  serves p := p = Kernel;
  serves_kernel := eq_refl;
  serves_default := eq_refl;
  heap_ok := heap_inv;
  allocate_law := krnl_allocate;
  free_law := krnl_free
}.
End laws.

(** ** The heap after [InitMem] and [InitThread]: one page in use *)

Lemma initial_inv base frame m n :
  kowned m →
  (∃ i, 0 ≤ i < cap m ∧ page m i = base ∧ ∀ j, 0 ≤ j < cap m → taken m j = bool_decide (j = i)) →
  Machine.translate m base = Some frame →
  2 * window * Z.of_nat n ≤ cap m → window * Z.of_nat n ≤ free_page_count m →
  heap_inv base frame ∅ n (initial m).
Proof.
  intros Ho (i & Hi & Eb & Ht) Htr Hc Hf.
  assert (Hno : ∀ x, ¬ in_span (initial m) x).
  { intros x (a & k & Ha & _). unfold MemHeap.spans, initial in Ha. cbn in Ha. by rewrite fmap_empty in Ha. }
  split.
  - by apply MemHeap.empty_heap_ok.
  - intros b. rewrite lookup_empty. split; [by intros [? ?]|]. intros [sz [(a & k & Ha & _)|(a & k & j & [q Ha] & _)]].
    all: cbn in Ha; by rewrite lookup_empty in Ha.
  - intros b p Hb. by rewrite lookup_empty in Hb.
  - intros a k Ha. unfold MemHeap.spans, initial in Ha. cbn in Ha. by rewrite fmap_empty in Ha.
  - split; [|by split]. exists i. cbn. rewrite Ht, bool_decide_eq_true_2 by done. done.
  - intros j Hj Hjt. cbn in *. rewrite Ht in Hjt by done. apply bool_decide_eq_true_1 in Hjt as ->. by left.
  - rewrite map_size_empty, Nat.add_0_l. split; [exact Hc|].
    assert (E : used (initial m) = 0).
    { unfold used, MemHeap.spans, initial. cbn [MemHeap.arenas]. by rewrite fmap_empty, map_fold_empty. }
    rewrite E, Z.add_0_r. exact Hf.
Qed.

(** The first page of the kernel, that of the idle thread. *)
Lemma first_page m n :
  kowned m → (∀ i, taken m i = false) → (0 < n)%nat →
  2 * window * Z.of_nat n ≤ cap m → window * Z.of_nat n ≤ free_page_count m - 1 →
  ∃ m' s f, alloc_pages 1 m = Ok (m', page m s) ∧ page m s ≠ 0 ∧ 0 ≤ s < cap m
    ∧ Machine.translate m' (page m s) = Some f ∧ heap_inv (page m s) f ∅ n (initial m').
Proof.
  intros Ho Hfree Hn Hc Hf. pose proof (ko_heap m (ko_pages m Ho)) as Hh. unfold window in Hc, Hf.
  assert (Hroom : kernel_room m 1).
  { exists 0. split; [lia|]. split; [fold (cap m); lia|]. intros i _. apply Hfree. }
  destruct (kernel_alloc_law m 1 Ho ltac:(lia) Hroom) as (m' & a & HA & Ho' & Ha & _).
  destruct (alloc_moved m 1 m' a Ho ltac:(lia) HA ltac:(lia)) as (s & -> & Hmv).
  pose proof (moved_page m m' s 1 true s Hmv) as Hp. pose proof Hmv as [_ Ecap Hrun _ Htk Hcnt _].
  destruct (ko_mapped m' (ko_pages m' Ho') s) as (f & Htr & _); [lia| |].
  { rewrite Htk by lia. by rewrite (proj2 (Z.leb_le s s)), (proj2 (Z.ltb_lt s (s + 1))) by lia. }
  rewrite Hp in Htr. exists m', s, f. split; [done|]. split; [lia|]. split; [lia|]. split; [done|].
  apply initial_inv; [done| |done|by rewrite Ecap|rewrite Hcnt; unfold window; lia].
  exists s. split; [lia|]. split; [done|]. intros j Hj. rewrite Htk, Hfree by lia.
  case_bool_decide; destruct (Z.leb_spec s j), (Z.ltb_spec j (s + 1)); simpl; lia || done.
Qed.
End KrnlHeap.
