(* ===== verification/KrnlSched.v ===== *)
(** * The threads of the kernel while it starts, and after

    When [InitKernel] of src/src/kernel/krnl.cpp enables interrupts there are two
    threads: the code that runs, and the idle thread of
    src/src/kernel/thread/thd.cpp. From then on commands to the disks make the
    main thread wait ([IdeChnl::Block]) and the idle thread run, and the clock
    switches between them. [event] lists what can happen to the scheduler and to
    the semaphore of the channel; a run is a sequence of events, each possible
    where it happens, with the pieces of [Semaphore] (ThreadSync) and the calls of
    the scheduler (ThreadSpec). *)
From S2P Require Import Prelude ThreadSched ThreadSpec ThreadSync.
Import Thread Sched Semaphore.

Module KrnlSched.

(** The main thread waits for a command to complete ([disk_done_.acquire]); it goes
    round the loop of [acquire] again when it was woken up; the handler of the disk
    releases the semaphore; a tick of the clock; one round of the loop of [Idle];
    one round of the loop of [main], or of [Sleep]: a yield of the main thread. *)
Inductive event := EWait | EResume | EDisk | ETick | EIdle | EYield.

(** [binary_semaphore] *)
Definition max_done : Z := 1.

Section events.
Context `{Platform}.

(** A thread that is switched in leaves its own interrupt guard or returns from an
    interrupt, so interrupts are enabled after every event; a handler runs with
    interrupts disabled. *)
Definition run_event (e : event) (y : sys) : res sys :=
  let 'mkSys k s w := y in
  match e with
  | EWait =>
      '(s, k, _) ← Decrease s k;
      Ok (mkSys (set_intr true k) s w)
  | EResume =>
      '(s, k', _) ← Decrease_round s (set_intr false k);
      Ok (mkSys (set_intr true k') s (filter (.≠ curr k) w))
  | EDisk =>
      '(s', k) ← Increase max_done s (set_intr false k);
      Ok (mkSys (set_intr true k) s'
            (if val_ s =? max_done then w else match waiters_ s with [] => w | p :: _ => p :: w end))
  | ETick => k ← run_call (CClock true) k; Ok (mkSys k s w)
  | EIdle => k ← run_call (CBlock Blocked true) k; Ok (mkSys k s w)
  | EYield => k ← run_call (CYield true) k; Ok (mkSys k s w)
  end.

Fixpoint run_events (es : list event) (y : sys) : res sys :=
  match es with
  | [] => Ok y
  | e :: es' => y ← run_event e y; run_events es' y
  end.

(** What can happen: a thread that was woken up is inside [acquire], interrupts
    disabled, and goes round its loop; otherwise each thread runs its own code, and
    the clock and the disk interrupt it. *)
Definition possible (main : Z) (e : event) (y : sys) : bool :=
  if bool_decide (curr (ker y) ∈ woken y) then match e with EResume => true | _ => false end
  else match e with
       | EWait | EYield => curr (ker y) =? main
       | EIdle => negb (curr (ker y) =? main)
       | ETick | EDisk => true
       | EResume => false
       end.

Fixpoint legal (main : Z) (es : list event) (y : sys) : bool :=
  match es with
  | [] => true
  | e :: es' =>
      possible main e y && match run_event e y with Ok y' => legal main es' y' | _ => true end
  end.

(** The main thread runs, and is not in [acquire]. *)
Definition at_main (main : Z) (y : sys) : bool :=
  (curr (ker y) =? main) && negb (bool_decide (curr (ker y) ∈ woken y)).

(** The events from the line that enables interrupts until the main thread has
    done its work. *)
Definition boot_run (main : Z) (es : list event) (y : sys) : bool :=
  legal main es y && match run_events es y with Ok y' => at_main main y' | _ => true end.

Definition count_ticks (es : list event) : Z :=
  Z.of_nat (length (filter (λ e, match e with ETick => true | _ => false end = true) es)).

(** ** The invariant *)

Context (main page : Z) (Hne : main ≠ page).

(** Nothing but the two threads, and the main thread is ready, running or in the
    queue of the semaphore. *)
Record two_threads (y : sys) : Prop := {
  tw_sys : sys_inv max_done y;
  tw_idle : idle (ker y) = Some page;
  tw_only : ∀ p, is_Some (vst (view_of (ker y)) !! p) → p = main ∨ p = page;
  tw_queue : ∀ p, p ∈ waiters_ (sema y) ++ woken y → p = main;
  tw_main : runnable (view_of (ker y)) main ∨ main ∈ waiters_ (sema y);
  tw_intr : intr_on (ker y) = true
}.

Lemma max_done_range : 0 < max_done < 2 ^ 32.
Proof. done. Qed.

(** The scheduler keeps the set of threads. *)
Definition only (v : view) : Prop := ∀ p, is_Some (vst v !! p) → p = main ∨ p = page.

Lemma only_insert v p s : only v → p = main ∨ p = page → only (v_status p s v).
Proof. intros Hv Hp q. cbn. rewrite lookup_insert_is_Some. intros [<-|[_ Hq]]; auto. Qed.

Lemma schedule_only v : inv v → only v → only (spec_schedule v).
Proof.
  intros Hi Hv. destruct (requeue_inv v Hi) as [Hi1 _].
  assert (H1 : only (spec_requeue v)).
  { unfold spec_requeue. case_decide; [|done]. apply (only_insert v); [done|]. apply Hv, (inv_curr _ Hi). }
  assert (Hr : ∀ p, p ∈ vready (spec_requeue v) → p = main ∨ p = page).
  { intros p Hp. apply H1. apply (inv_ready _ Hi1) in Hp. eauto. }
  assert (Hd : default 0 (vidle (spec_requeue v)) = main ∨ default 0 (vidle (spec_requeue v)) = page).
  { destruct (inv_idle _ Hi1) as (i & s & -> & Hs & _). apply H1. eauto. }
  unfold spec_schedule, spec_wake_idle. destruct (vready (spec_requeue v)) as [|p q] eqn:E.
  - unfold spec_unblock, spec_dispatch. cbn.
    apply (only_insert (v_status (default 0 (vidle (spec_requeue v))) Ready (spec_requeue v))); [|done].
    by apply only_insert.
  - unfold spec_dispatch. rewrite E. apply (only_insert (v_ready q (spec_requeue v))); [done|]. apply Hr. left.
Qed.

Lemma block_only v : wf v → only v → only (spec_block Blocked v).
Proof.
  intros [Hi Hr] Hv. apply schedule_only; [by apply inv_leave|].
  apply only_insert; [done|]. apply Hv. eauto.
Qed.

Lemma yield_only v : wf v → only v → only (spec_yield v).
Proof.
  intros [Hi Hr] Hv. apply schedule_only.
  - apply (inv_make_ready _ _ Running); [done..|]. by rewrite Permutation_app_comm.
  - apply (only_insert v); [done|]. apply Hv. eauto.
Qed.

Lemma call_only out c v v' :
  wf v → only v → spec_call out c v = Some v' → (∀ p, c ≠ CUnblock p) → (∀ s e, c = CBlock s e → s = Blocked) → only v'.
Proof.
  intros Hw Hv Hc Hu Hb. destruct c as [s e|e|p|e]; simpl in Hc.
  - rewrite (Hb s e eq_refl) in Hc. injection Hc as <-. by apply block_only.
  - injection Hc as <-. by apply yield_only.
  - by destruct (Hu p).
  - injection Hc as <-. case_match; [|done]. apply schedule_only; [apply Hw|done].
Qed.

#[local] Arguments Decrease : simpl never.
#[local] Arguments Decrease_round : simpl never.
#[local] Arguments Increase : simpl never.

(** What the three calls of the scheduler do. *)
Lemma call_facts c k :
  kernel_ok k → c = CBlock Blocked true ∨ c = CYield true ∨ c = CClock true →
  ∃ k', run_call c k = Ok k' ∧ kernel_ok k' ∧ spec_call (out_of_ticks k) c (view_of k) = Some (view_of k')
    ∧ intr_on k' = true ∧ ticks k' = match c with CClock _ => ticks k +w 1 | _ => ticks k end.
Proof.
  intros Hk Hc. assert (Hv : is_Some (spec_call (out_of_ticks k) c (view_of k))).
  { destruct Hc as [->|[->| ->]]; eauto. }
  destruct Hv as [v Hv]. destruct (run_call_ok c k v Hk Hv) as (k' & Hr & <- & Hk'). exists k'.
  split; [done|]. split; [done|]. split; [done|]. destruct Hc as [->|[->| ->]]; cbn [run_call] in Hr.
  - destruct (Block_ok k Blocked Hk eq_refl) as (k1 & Hb & _ & Hf & _). rewrite Hb in Hr.
    cbn [mbind res_bind] in Hr. injection Hr as <-. split; [done|exact (fr_ticks _ _ Hf)].
  - destruct (Yield_ok k Hk) as (k1 & Hb & _ & Hf & _). rewrite Hb in Hr.
    cbn [mbind res_bind] in Hr. injection Hr as <-. split; [done|exact (fr_ticks _ _ Hf)].
  - pose proof Hk as ([_ Hrun] & _). destruct (get_view _ _ _ Hrun) as (x & Hx & _).
    destruct (ClockIntrHandler_ok (set_intr false k) x Hk eq_refl Hx) as (k1 & E & _ & _ & _ & Ht & _).
    rewrite E in Hr. cbn [mbind res_bind] in Hr. injection Hr as <-. split; [done|exact Ht].
Qed.

Lemma two_threads_intro k s w :
  sys_inv max_done (mkSys k s w) → idle k = Some page → only (view_of k) →
  (∀ p, p ∈ waiters_ s ++ w → p = main) → runnable (view_of k) main ∨ main ∈ waiters_ s →
  two_threads (mkSys (set_intr true k) s w).
Proof.
  intros Hs Hi Ho Hq Hm. split; try done.
  by apply (sys_inv_view max_done k); [|apply kernel_ok_set_intr, (si_kernel _ _ Hs)|].
Qed.

(** A call of the scheduler: the clock, the idle thread or a yield. *)
Lemma call_event k s w c :
  two_threads (mkSys k s w) → curr k ∉ w →
  c = CBlock Blocked true ∧ curr k ≠ main ∨ c = CYield true ∨ c = CClock true →
  ∃ k', run_call c k = Ok k' ∧ two_threads (mkSys k' s w)
    ∧ ticks k' = match c with CClock _ => ticks k +w 1 | _ => ticks k end.
Proof.
  intros Hy Hw Hc. pose proof Hy as [Hs Hi Ho Hq Hm _]. cbn in *. pose proof (si_kernel _ _ Hs) as Hk. cbn in Hk.
  destruct (call_facts c k Hk) as (k' & Hr & Hk' & Hv & Hon & Ht); [tauto|].
  exists k'. split; [done|]. split; [|done].
  assert (Hu : ∀ p, c ≠ CUnblock p) by (intros p ->; destruct Hc as [[? _]|[?|?]]; done).
  assert (Hs' : sys_inv max_done (mkSys k' s w)).
  { apply (step_inv max_done max_done_range (mkSys k s w)); [done|].
    apply (step_other max_done k s w c k'); [done|intros p E; by destruct (Hu p)|by eexists|done]. }
  split; try done; cbn.
  - change (vidle (view_of k') = Some page). by rewrite (spec_call_idle _ _ _ _ Hv).
  - apply (call_only _ c (view_of k)) with (v' := view_of k') in Hv; [done|apply Hk|done|done|].
    intros st e ->. destruct Hc as [[[= -> _] _]|[?|?]]; done.
  - destruct Hm as [Hm|Hm]; [left|by right]. destruct Hc as [[-> Hne']|[->| ->]].
    + by apply (spec_call_runnable _ _ _ _ main Hv Hm), not_eq_sym.
    + destruct (decide (main = curr k)) as [E|Hne']; [|by apply (spec_call_runnable _ _ _ _ main Hv Hm)].
      cbn in Hv. injection Hv as <-. apply schedule_runnable. left. cbn. by rewrite E, lookup_insert_eq.
    + destruct (decide (main = curr k)) as [E|Hne']; [|by apply (spec_call_runnable _ _ _ _ main Hv Hm)].
      cbn in Hv. injection Hv as Hv. rewrite <- Hv. case_match; [by apply schedule_runnable|done].
Qed.

Lemma wait_event k s w :
  two_threads (mkSys k s w) → curr k = main → main ∉ w →
  ∃ y, run_event EWait (mkSys k s w) = Ok y ∧ two_threads y ∧ ticks (ker y) = ticks k.
Proof.
  intros [Hs Hi Ho Hq Hm _] Hc Hw. cbn in *. pose proof (si_kernel _ _ Hs) as Hk. cbn in Hk.
  destruct (Decrease_ok _ max_done_range _ _ _ Hs) as (k' & Hd & Hf & Hk' & Hv).
  cbn [run_event]. rewrite Hd.
  assert (Hst : sys_inv max_done (if val_ s =? 0 then mkSys k' (mk 0 (waiters_ s ++ [curr k])) w
      else mkSys k' (mk (val_ s - 1) (waiters_ s)) w)).
  { apply (step_inv max_done max_done_range (mkSys k s w)); [done|].
    destruct (val_ s =? 0); (eapply step_acquire; [by rewrite Hc|rewrite Hi; congruence|exact Hd]). }
  assert (Hidle : idle k' = Some page) by (by rewrite (fr_idle _ _ Hf)).
  destruct (val_ s =? 0); cbn [mbind res_bind]; eexists; (split; [done|]); (split; [|exact (fr_ticks _ _ Hf)]).
  - apply two_threads_intro; try done; cbn.
    + rewrite Hv. by apply block_only; [apply Hk|].
    + intros p. rewrite <- app_assoc. rewrite !elem_of_app, list_elem_of_singleton.
      intros [Hp|[->|Hp]]; [|done|]; apply Hq; rewrite elem_of_app; auto.
    + right. rewrite elem_of_app, list_elem_of_singleton. by right.
  - apply two_threads_intro; try done; cbn; by rewrite ?Hv.
Qed.

Lemma resume_event k s w :
  two_threads (mkSys k s w) → curr k ∈ w →
  ∃ y, run_event EResume (mkSys k s w) = Ok y ∧ two_threads y ∧ ticks (ker y) = ticks k.
Proof.
  intros [Hs Hi Ho Hq Hm _] Hc. cbn in *.
  assert (Hs0 : sys_inv max_done (mkSys (set_intr false k) s w)).
  { apply (sys_inv_view max_done k); [done|apply kernel_ok_set_intr, (si_kernel _ _ Hs)|done]. }
  destruct (Decrease_round_ok _ max_done_range _ _ _ Hs0) as (k' & Hd & Hv & Hk' & Hf & _).
  pose proof (si_kernel _ _ Hs) as Hk. cbn in Hk.
  assert (Em : curr k = main) by (apply Hq; rewrite elem_of_app; by right).
  cbn [run_event]. rewrite Hd. change (curr (set_intr false k)) with (curr k) in *.
  change (view_of (set_intr false k)) with (view_of k) in Hv.
  assert (Hst : ∀ r, sys_inv max_done
      (if val_ s =? 0 then mkSys k' (mk 0 (waiters_ s ++ [curr k])) (filter (.≠ curr k) w)
       else mkSys (set_intr r k') (mk (val_ s - 1) (waiters_ s)) (filter (.≠ curr k) w))).
  { intros r. apply (step_inv max_done max_done_range (mkSys k s w)); [done|].
    destruct (val_ s =? 0) eqn:E.
    - apply (step_resume max_done k s w _ k' false r); [done|]. exact Hd.
    - apply (step_resume max_done k s w _ k' true r); [done|]. exact Hd. }
  assert (Hidle : idle k' = Some page) by (by rewrite (fr_idle _ _ Hf)).
  assert (Hq' : ∀ p, p ∈ waiters_ s ++ filter (.≠ curr k) w → p = main).
  { intros p. rewrite elem_of_app, list_elem_of_filter. intros [|[_ ?]]; apply Hq; rewrite elem_of_app; auto. }
  destruct (val_ s =? 0) eqn:E; cbn [mbind res_bind]; eexists; (split; [done|]); (split; [|exact (fr_ticks _ _ Hf)]).
  - apply two_threads_intro; try done; cbn.
    + apply (Hst true).
    + rewrite Hv. by apply block_only; [apply Hk|].
    + intros p. rewrite <- app_assoc. rewrite !elem_of_app, list_elem_of_singleton.
      intros [Hp|[->|Hp]]; [|done|]; apply Hq'; rewrite elem_of_app; auto.
    + right. rewrite elem_of_app, list_elem_of_singleton. by right.
  - change (set_intr true k') with (set_intr true (set_intr true k')).
    apply two_threads_intro; try done; cbn.
    + change (only (view_of k')). by rewrite Hv.
    + change (runnable (view_of k') main ∨ main ∈ waiters_ s). by rewrite Hv.
Qed.

Lemma disk_event k s w :
  two_threads (mkSys k s w) → curr k ∉ w →
  ∃ y, run_event EDisk (mkSys k s w) = Ok y ∧ two_threads y ∧ ticks (ker y) = ticks k.
Proof.
  intros [Hs Hi Ho Hq Hm _] Hc. cbn in *.
  assert (Hs0 : sys_inv max_done (mkSys (set_intr false k) s w)).
  { apply (sys_inv_view max_done k); [done|apply kernel_ok_set_intr, (si_kernel _ _ Hs)|done]. }
  destruct (Increase_ok _ max_done_range _ _ _ Hs0) as (k' & Hd & Hv & Hk' & Hf).
  change (view_of (set_intr false k)) with (view_of k) in *.
  cbn [run_event]. rewrite Hd. cbn [mbind res_bind]. eexists. split; [done|].
  split; [|exact (fr_ticks _ _ Hf)].
  assert (Hst : sys_inv max_done (mkSys k' (increased max_done s (view_of k)).1
      (if val_ s =? max_done then w else match waiters_ s with [] => w | p :: _ => p :: w end))).
  { apply (step_inv max_done max_done_range (mkSys (set_intr false k) s w)); [done|].
    by apply step_release. }
  assert (Hidle : idle k' = Some page) by (by rewrite (fr_idle _ _ Hf)).
  unfold increased in *. destruct (val_ s =? max_done); cbn [fst snd] in *.
  { apply two_threads_intro; try done; by rewrite Hv. }
  destruct (waiters_ s) as [|p q] eqn:Ew; cbn [fst snd] in *.
  { apply two_threads_intro; try done; by rewrite Hv. }
  assert (Ep : p = main) by (apply Hq; left). subst p.
  apply two_threads_intro; try done; cbn.
  - rewrite Hv. apply (only_insert (v_ready (main :: vready (view_of k)) (view_of k))); [done|by left].
  - intros p Hp. apply Hq. rewrite elem_of_app, elem_of_cons in Hp.
    cbn. rewrite elem_of_cons, elem_of_app. tauto.
  - left. rewrite Hv. left. cbn. by rewrite lookup_insert_eq.
Qed.

(** Every event that can happen does, and the two threads are as they should be. *)
Lemma event_ok e y :
  two_threads y → possible main e y = true →
  ∃ y', run_event e y = Ok y' ∧ two_threads y'
    ∧ ticks (ker y') = match e with ETick => ticks (ker y) +w 1 | _ => ticks (ker y) end.
Proof.
  destruct y as [k s w]. intros Hy Hp. unfold possible in Hp. cbn [ker woken] in *.
  destruct (bool_decide_reflect (curr k ∈ w)) as [Hc|Hc].
  { destruct e; try done. by apply resume_event. }
  destruct e; to_prop; try done; cbn [run_event].
  - apply wait_event; [done|done|congruence].
  - by apply disk_event.
  - destruct (call_event k s w (CClock true) Hy Hc) as (k' & -> & Hy' & Ht); [auto|]. by eexists.
  - destruct (call_event k s w (CBlock Blocked true) Hy Hc) as (k' & -> & Hy' & Ht); [auto|]. by eexists.
  - destruct (call_event k s w (CYield true) Hy Hc) as (k' & -> & Hy' & Ht); [auto|]. by eexists.
Qed.

Lemma count_ticks_cons e es :
  count_ticks (e :: es) = (match e with ETick => 1 | _ => 0 end) + count_ticks es.
Proof. unfold count_ticks. rewrite filter_cons. destruct e; case_decide; try done; cbn [length]; lia. Qed.

(** A run of events never stops, and counts the ticks of the clock. *)
Lemma run_events_ok es y :
  two_threads y → legal main es y = true → in_u 32 (ticks (ker y)) →
  ∃ y', run_events es y = Ok y' ∧ two_threads y' ∧ ticks (ker y') = u32 (ticks (ker y) + count_ticks es).
Proof.
  revert y. induction es as [|e es IH]; intros y Hy Hl Ht; cbn [legal run_events] in *.
  { exists y. split; [done|]. split; [done|]. rewrite Z.add_0_r. unfold in_u in Ht. by rewrite u32_small. }
  apply andb_true_iff in Hl as [Hp Hl]. destruct (event_ok e y Hy Hp) as (y1 & E & Hy1 & Ht1). rewrite E in Hl |- *.
  rewrite res_bind_ok. rewrite count_ticks_cons.
  destruct (IH y1 Hy1 Hl) as (y' & E' & Hy' & Ht'); [destruct e; rewrite Ht1; by try apply wrap_range|].
  exists y'. split; [done|]. split; [done|]. rewrite Ht', Ht1. destruct e; try done.
  unfold u32, wrap. rewrite Zplus_mod_idemp_l. f_equal. lia.
Qed.

Lemma at_main_true y : at_main main y = true → curr (ker y) = main ∧ curr (ker y) ∉ woken y.
Proof. intros [->%Z.eqb_eq Hw%negb_true_iff%bool_decide_eq_false_1]%andb_true_iff. done. Qed.

(** Where the main thread runs nobody waits and nobody was woken up. *)
Lemma at_main_quiet y : two_threads y → at_main main y = true → waiters_ (sema y) = [] ∧ woken y = [].
Proof.
  intros [Hs _ _ Hq _ _] [Hc Hw]%at_main_true.
  pose proof (si_kernel _ _ Hs) as [[_ Hrun] _].
  split.
  - destruct (waiters_ (sema y)) as [|p q] eqn:E; [done|]. assert (p = main) as -> by (apply Hq; left).
    pose proof (si_waiters _ _ Hs main ltac:(rewrite E; left)) as Hb.
    change (vcurr (view_of (ker y))) with (curr (ker y)) in Hrun. rewrite Hc in Hrun. congruence.
  - destruct (woken y) as [|p q] eqn:E; [done|]. assert (p = main) as -> by (apply Hq; rewrite elem_of_app; right; left).
    destruct Hw. rewrite Hc. left.
Qed.

(** ** The main loop: no more commands to the disks *)

Lemma quiet_event e y y' :
  two_threads y → waiters_ (sema y) = [] → woken y = [] → e ≠ EWait → possible main e y = true →
  run_event e y = Ok y' → waiters_ (sema y') = [] ∧ woken y' = [].
Proof.
  destruct y as [k s w]. cbn [ker sema woken]. intros Hy Hq -> He Hp HR.
  destruct e; cbn [run_event] in HR; try done.
  - pose proof Hy as [Hs _ _ _ _ _].
    assert (Hs0 : sys_inv max_done (mkSys (set_intr false k) s [])).
    { apply (sys_inv_view max_done k); [done|apply kernel_ok_set_intr, (si_kernel _ _ Hs)|done]. }
    destruct (Increase_ok _ max_done_range _ _ _ Hs0) as (k' & Hd & _). rewrite Hd in HR.
    cbn [mbind res_bind] in HR. injection HR as <-. cbn. unfold increased. rewrite Hq.
    destruct (val_ s =? max_done); cbn; auto.
  - apply res_bind_inv in HR as (k' & _ & [= <-]). done.
  - apply res_bind_inv in HR as (k' & _ & [= <-]). done.
  - apply res_bind_inv in HR as (k' & _ & [= <-]). done.
Qed.

Lemma main_loop_ok es y :
  two_threads y → waiters_ (sema y) = [] → woken y = [] → EWait ∉ es → legal main es y = true →
  ∃ y', run_events es y = Ok y' ∧ two_threads y' ∧ runnable (view_of (ker y')) main.
Proof.
  revert y. induction es as [|e es IH]; intros y Hy Hq Hw Hn Hl; cbn [legal run_events] in *.
  { exists y. split; [done|]. split; [done|]. destruct (tw_main _ Hy) as [|Hin]; [done|].
    rewrite Hq in Hin. by apply elem_of_nil in Hin. }
  apply not_elem_of_cons in Hn as [He Hn]. apply andb_true_iff in Hl as [Hp Hl].
  destruct (event_ok e y Hy Hp) as (y1 & E & Hy1 & _). rewrite E in Hl |- *. rewrite res_bind_ok.
  destruct (quiet_event e y y1 Hy Hq Hw (not_eq_sym He) Hp E) as [Hq1 Hw1]. by apply IH.
Qed.

(** ** Every wait can end *)

Lemma requeue_not_running v : vst v !! vcurr v ≠ Some Running → spec_requeue v = v.
Proof. intros Hn. unfold spec_requeue. by rewrite decide_False. Qed.

(** The main thread waits: the idle thread runs. *)
Lemma block_to_idle v :
  wf v → only v → vcurr v = main → vidle v = Some page → vcurr (spec_block Blocked v) = page.
Proof.
  intros [Hi Hr] Ho Hc Hid. unfold spec_block, spec_schedule.
  rewrite requeue_not_running by (cbn; by rewrite lookup_insert_eq).
  unfold spec_wake_idle. cbn [vready v_status]. destruct (vready v) as [|p q] eqn:E.
  - unfold spec_unblock, spec_dispatch. cbn. by rewrite Hid.
  - unfold spec_dispatch. cbn [vready v_status]. rewrite E. cbn.
    assert (Hp : vst v !! p = Some Ready) by (apply (inv_ready _ Hi); rewrite E; left).
    destruct (Ho p ltac:(eauto)) as [->|]; [|done]. rewrite Hc in Hr. congruence.
Qed.

(** A thread that was put first runs when the current one blocks. *)
Lemma block_to_first v p : p ≠ vcurr v → vcurr (spec_block Blocked (spec_unblock p v)) = p.
Proof.
  intros Hp. unfold spec_block, spec_schedule.
  rewrite requeue_not_running by (cbn; by rewrite lookup_insert_eq). done.
Qed.

Definition one_wait : list event := [EWait; EDisk; EIdle; EResume].

(** The main thread waits, the disk is done, the idle thread finds the main thread
    ready, and the main thread goes on. *)
Lemma one_wait_ok y :
  two_threads y → at_main main y = true → val_ (sema y) = 0 →
  ∃ y', run_events one_wait y = Ok y' ∧ legal main one_wait y = true ∧ two_threads y'
    ∧ at_main main y' = true ∧ val_ (sema y') = 0.
Proof.
  destruct y as [k s w]. intros Hy Ha H0. destruct (at_main_quiet _ Hy Ha) as [Hq Hw]. cbn [sema woken] in *.
  subst w. destruct s as [v ws]. cbn [val_ waiters_] in *. subst v ws.
  apply at_main_true in Ha as [Hc _]. cbn [ker] in Hc. set (y := mkSys k (mk 0 []) []) in *.
  pose proof Hy as [Hs Hid Ho _ _ _]. pose proof (si_kernel _ _ Hs) as Hk. cbn in Hk.
  assert (P1 : possible main EWait y = true).
  { unfold possible. rewrite bool_decide_eq_false_2 by apply not_elem_of_nil. by apply Z.eqb_eq. }
  destruct (event_ok EWait y Hy P1) as (y1 & E1 & Hy1 & _).
  destruct (Decrease_ok _ max_done_range _ _ _ Hs) as (k1 & Hd & _ & _ & Hv1).
  cbn in Hv1. unfold y in E1. cbn [run_event] in E1. rewrite Hd in E1. cbn in E1. rewrite Hc in E1. injection E1 as <-.
  assert (C1 : curr k1 = page).
  { change (vcurr (view_of k1) = page). rewrite Hv1. apply block_to_idle; try done; apply Hk. }
  set (y1 := mkSys (set_intr true k1) (mk 0 [main]) []) in *.
  assert (P2 : possible main EDisk y1 = true).
  { unfold possible. by rewrite bool_decide_eq_false_2 by apply not_elem_of_nil. }
  destruct (event_ok EDisk y1 Hy1 P2) as (y2 & E2 & Hy2 & _).
  assert (Hs1 : sys_inv max_done (mkSys (set_intr false (set_intr true k1)) (mk 0 [main]) [])).
  { apply (sys_inv_view max_done (set_intr true k1)); [apply Hy1|apply (si_kernel _ _ (tw_sys _ Hy1))|done]. }
  destruct (Increase_ok _ max_done_range _ _ _ Hs1) as (k2 & Hi & Hv2 & _).
  unfold y1 in E2. cbn [run_event] in E2. rewrite Hi in E2. cbn in E2. injection E2 as <-.
  cbn [increased fst snd] in Hv2. change (view_of (set_intr false (set_intr true k1))) with (view_of k1) in Hv2.
  assert (C2 : curr k2 = page) by (change (vcurr (view_of k2) = page); rewrite Hv2; exact C1).
  set (y2 := mkSys (set_intr true k2) (mk 1 []) [main]) in *.
  assert (P3 : possible main EIdle y2 = true).
  { unfold possible. cbn. rewrite C2. rewrite bool_decide_eq_false_2 by (rewrite list_elem_of_singleton; congruence).
    by rewrite (proj2 (Z.eqb_neq _ _)) by congruence. }
  destruct (event_ok EIdle y2 Hy2 P3) as (y3 & E3 & Hy3 & _).
  destruct (call_facts (CBlock Blocked true) (set_intr true k2) (si_kernel _ _ (tw_sys _ Hy2)) ltac:(auto))
    as (k3 & Hr3 & _ & Hv3 & _).
  unfold y2 in E3. cbn [run_event] in E3. rewrite Hr3 in E3. cbn [mbind res_bind] in E3. injection E3 as <-.
  assert (C3 : curr k3 = main).
  { cbn [spec_call is_blocking] in Hv3. injection Hv3 as Hv3. change (vcurr (view_of k3) = main). rewrite <- Hv3.
    change (view_of (set_intr true k2)) with (view_of k2). rewrite Hv2. apply block_to_first.
    change (vcurr (view_of k1)) with (curr k1). congruence. }
  set (y3 := mkSys k3 (mk 1 []) [main]) in *.
  assert (P4 : possible main EResume y3 = true).
  { unfold possible. cbn. by rewrite bool_decide_eq_true_2 by (rewrite C3; left). }
  destruct (event_ok EResume y3 Hy3 P4) as (y4 & E4 & Hy4 & _).
  pose proof E4 as E4'. unfold y3 in E4'. cbn [run_event] in E4'.
  assert (Er : Decrease_round (mk 1 []) (set_intr false k3) = Ok (mk 0 [], set_intr false k3, true)) by reflexivity.
  rewrite Er in E4'. cbn [mbind res_bind] in E4'. injection E4' as E4'.
  assert (F1 : run_event EWait y = Ok y1) by (unfold y; cbn [run_event]; rewrite Hd; cbn; by rewrite Hc).
  assert (F2 : run_event EDisk y1 = Ok y2) by (unfold y1; cbn [run_event]; by rewrite Hi).
  assert (F3 : run_event EIdle y2 = Ok y3) by (unfold y2; cbn [run_event]; by rewrite Hr3).
  exists y4. unfold one_wait. cbn [run_events legal]. rewrite F1, res_bind_ok, F2, res_bind_ok, F3, res_bind_ok, E4, res_bind_ok.
  rewrite P1, P2, P3, P4. split; [done|]. split; [done|]. split; [done|]. rewrite <- E4'. split; [|done].
  unfold at_main. cbn [ker woken]. change (curr (set_intr true (set_intr false k3))) with (curr k3).
  change (curr (set_intr false k3)) with (curr k3).
  rewrite C3, Z.eqb_refl, filter_cons_False by (intros Hx; by apply Hx). rewrite filter_nil.
  by rewrite bool_decide_eq_false_2 by apply not_elem_of_nil.
Qed.

(** Runs one after the other. *)
Lemma run_events_app es fs y y1 : run_events es y = Ok y1 → run_events (es ++ fs) y = run_events fs y1.
Proof.
  revert y. induction es as [|e es IH]; intros y E; cbn [run_events app] in *; [by injection E as ->|].
  apply res_bind_inv in E as (y2 & -> & E). rewrite res_bind_ok. by apply IH.
Qed.

Lemma legal_app es fs y y1 :
  legal main es y = true → run_events es y = Ok y1 → legal main fs y1 = true → legal main (es ++ fs) y = true.
Proof.
  revert y. induction es as [|e es IH]; intros y Hl E Hf; cbn [run_events legal app] in *; [by injection E as ->|].
  apply andb_true_iff in Hl as [-> Hl]. apply res_bind_inv in E as (y2 & E2 & E). rewrite E2 in *. by apply IH.
Qed.

(** Any number of commands to the disks, one after the other. *)
Definition waits (n : nat) : list event := concat (replicate n one_wait).

Lemma waits_ok n y :
  two_threads y → at_main main y = true → val_ (sema y) = 0 → boot_run main (waits n) y = true.
Proof.
  intros Hy Ha H0. enough (∃ y', run_events (waits n) y = Ok y' ∧ legal main (waits n) y = true ∧ at_main main y' = true)
    as (y' & E & Hl & Ha') by (unfold boot_run; by rewrite Hl, E).
  revert y Hy Ha H0. induction n as [|n IH]; intros y Hy Ha H0; [by exists y|].
  destruct (one_wait_ok y Hy Ha H0) as (y1 & E1 & L1 & Hy1 & Ha1 & H1).
  destruct (IH y1 Hy1 Ha1 H1) as (y' & E & L & Ha'). exists y'.
  change (waits (Datatypes.S n)) with (one_wait ++ waits n).
  split; [by rewrite (run_events_app _ _ _ _ E1)|]. split; [|done]. by apply (legal_app _ _ _ y1).
Qed.

(** Where interrupts are enabled: the main thread runs, and nobody waits. *)
Definition start (k : kernel) : sys := mkSys (set_intr true k) (mk 0 []) [].

Lemma start_ok k :
  kernel_ok k → curr k = main → idle k = Some page → (∀ p, is_Some (thds k !! p) → p = main ∨ p = page) →
  two_threads (start k) ∧ at_main main (start k) = true.
Proof.
  intros Hk Hc Hi Ho. split.
  - apply two_threads_intro; try done.
    + by apply init_inv.
    + intros p [x Hx]. cbn in Hx. rewrite lookup_fmap in Hx. apply fmap_Some in Hx as (t & Ht & _). eauto.
    + intros p Hp. by apply elem_of_nil in Hp.
    + left. right. pose proof Hk as [[_ Hr] _]. change (vcurr (view_of k)) with (curr k) in Hr. by rewrite Hc in Hr.
  - unfold at_main, start. cbn. by rewrite Hc, Z.eqb_refl, bool_decide_eq_false_2 by apply not_elem_of_nil.
Qed.
End events.
End KrnlSched.
