(* ===== verification/KrnlEntry.v ===== *)
(** * Starting the kernel

    [InitKernel] of src/src/kernel/krnl.cpp, which runs the initializers of all
    parts in order. The theorem runs them from what the boot loader leaves to
    the mounted file system: each initializer meets the assertions of the next,
    and establishes the invariant on which the theorems of its part rest. The
    file system allocates from the heap of KrnlHeap, so the memory of the last
    state is the one the first initializers set up with all pages that were
    taken since; the scheduler goes through any of the runs of KrnlSched, with
    the waits for the disks and the ticks of the clock. *)
From Stdlib Require Import Strings.String.
From S2P Require Import Prelude UtilBit UtilBitmap StlString MemPage MemPool MemMap MemPages MemHeap ThreadSched ThreadSpec ThreadSync Desc Intr IntrPic SysCall UtilFormat IoVideo IoPath IoFileDesc IoDisk FsBase IoPart FsData FsFormat FsPart FsInit FsBoot KrnlHeap KrnlSched.

(** ** The memory the loader leaves *)

Module Loaded.
Import Page VrAddr Machine Mapping KernelPages.

(** src/src/boot/loader.asm: the page directory at 1 MB refers to itself through
    its last entry; the tables of the kernel's gigabyte are behind it, in order;
    the first one, which is also that of the addresses from 0 on, maps the first
    megabyte. *)
Record loaded (m : t) : Prop := {
  ld_words : ∀ a, in_u 32 (word m a);
  ld_dir : page_dir m = krnl_page_dir_phy_base;
  ld_self : pde m 1023 = 0x100007;
  ld_low : pde m 0 = 0x101007;
  ld_none : ∀ i, 1 ≤ i < 768 → pde m i = 0;
  ld_krnl : ∀ k, 0 ≤ k < 255 → pde m (768 + k) = 0x101000 + k * 4096 + 7;
  ld_tabs : ∀ n, 0 ≤ n < 256 → word m (0x101000 + 4 * n) = n * 4096 + 7
}.

(** The loader writes the directory and the first 256 entries of the tables. The
    others hold what the memory held before, and [MapToPhyAddr] asserts that they
    are not present: it is the machine that must have its memory cleared when it
    starts. *)
Definition clear_tables (m : t) : Prop :=
  ∀ n, 256 ≤ n < 255 * 1024 → PageEntry.IsPresent (word m (0x101000 + 4 * n)) = false.

Lemma entry_fields f : 0 ≤ f < 2 ^ 20 → PageEntry.GetAddress (f * 4096 + 7) = f * 4096 ∧ PageEntry.IsPresent (f * 4096 + 7) = true.
Proof.
  intros Hf. split; [rewrite PageEntry.GetAddress_eq by lia; div_lia|].
  rewrite PageEntry.IsPresent_bit, Z.bit0_odd. rewrite Z.odd_add, Z.odd_mul. by rewrite andb_false_r.
Qed.

(** The directory entry of an address that the loader's tables serve. *)
Lemma loaded_pde m i :
  loaded m → 0 ≤ i < 1023 → PageEntry.IsPresent (pde m i) = true →
  ∃ k, 0 ≤ k < 255 ∧ (i = 768 + k ∨ i = 0 ∧ k = 0) ∧ PageEntry.GetAddress (pde m i) = 0x101000 + k * 4096.
Proof.
  intros Hl Hi Hp. destruct (decide (i = 0)) as [->|].
  - exists 0. split; [lia|]. split; [by right|]. by rewrite (ld_low m Hl).
  - destruct (decide (i < 768)); [by rewrite (ld_none m Hl) in Hp by lia|].
    exists (i - 768). split; [lia|]. split; [left; lia|]. pose proof (ld_krnl m Hl (i - 768) ltac:(lia)) as E.
    replace (768 + (i - 768)) with i in E by lia. rewrite E. replace (0x101000 + (i - 768) * 4096 + 7) with ((0x101 + (i - 768)) * 4096 + 7) by lia.
    rewrite (proj1 (entry_fields (0x101 + (i - 768)) ltac:(lia))). lia.
Qed.

(** Where the loader's tables map an address: below the first megabyte. *)
Lemma loaded_translate m a x :
  loaded m → clear_tables m → plain a → translate m a = Some x → 0 ≤ x - GetOffset a < 0x100000.
Proof.
  intros Hl Hcl Ha. unfold plain in Ha. pose proof (GetPageDirEntryIdx_range a). pose proof (GetPageTabEntryIdx_range a).
  unfold translate. destruct (PageEntry.IsPresent (pde m (GetPageDirEntryIdx a))) eqn:Hp; [|done].
  destruct (loaded_pde m (GetPageDirEntryIdx a) Hl) as (k & Hk & _ & Ek); [lia|done|]. rewrite Ek.
  replace (0x101000 + k * 4096 + 4 * GetPageTabEntryIdx a)
    with (0x101000 + 4 * (k * 1024 + GetPageTabEntryIdx a)) by lia.
  set (n := k * 1024 + GetPageTabEntryIdx a).
  destruct (Z.lt_ge_cases n 256); [|by rewrite Hcl by lia]. rewrite (ld_tabs m Hl) by lia. assert (0 ≤ n) by lia.
  destruct (entry_fields n ltac:(lia)) as [-> ->]. intros [= <-]. lia.
Qed.

(** The pages of the heap, numbered from the start of the kernel's gigabyte. *)
Lemma heap_page_fields i :
  0 ≤ i < 131073 →
  let a := 0xC0100000 + i * 4096 in
  GetPageDirEntryIdx a = 768 + (256 + i) / 1024 ∧ GetPageTabEntryIdx a = (256 + i) mod 1024.
Proof.
  intros Hi a. unfold a. rewrite GetPageDirEntryIdx_eq, GetPageTabEntryIdx_eq by lia.
  replace (0xC0100000 + i * 4096) with ((786432 + (256 + i)) * 4096) by lia.
  rewrite Z.div_mul by lia. split; [|div_lia].
  change 4194304 with (1024 * 4096). rewrite Z.div_mul_cancel_r by lia. div_lia.
Qed.

Lemma heap_page_slot m i :
  loaded m → 0 ≤ i < 131073 → slot m (0xC0100000 + i * 4096) = 0x101000 + 4 * (256 + i)
  ∧ PageEntry.IsPresent (pde m (GetPageDirEntryIdx (0xC0100000 + i * 4096))) = true.
Proof.
  intros Hl Hi. destruct (heap_page_fields i Hi) as [Ed Et]. unfold slot. rewrite Ed, Et.
  set (k := (256 + i) / 1024). assert (Hk : 0 ≤ k < 255) by (unfold k; div_lia).
  rewrite (ld_krnl m Hl k Hk). replace (0x101000 + k * 4096 + 7) with ((0x101 + k) * 4096 + 7) by lia.
  destruct (entry_fields (0x101 + k) ltac:(lia)) as [-> ->]. split; [|done]. unfold k. div_lia.
Qed.

(** What [InitMem] needs of the memory, and what it makes of the kernel's heap:
    the invariant of MemPages, with all addresses and frames free. *)
Lemma InitMem_kowned m buf total s b :
  loaded m → clear_tables m → 0x210000 ≤ total ≤ 0x20200000 → MemInit.InitMem buf total false = Ok (s, b) →
  kowned (set_pools s m) ∧ PagePool.start_addr_ (MemInit.krnl_addr_pool s) = 0xC0100000
  ∧ (let n := (total - 0x200000) / 4096 / 2 / 8 * 8 in
     PagePool.free_count_ (MemInit.krnl_mem_pool s) = n ∧ PagePool.capacity (MemInit.krnl_addr_pool s) = n
     ∧ 0 < n < 131073)
  ∧ ∀ i, PagePool.taken (MemInit.krnl_addr_pool s) i = false.
Proof.
  intros Hl Hcl Ht HI. destruct (MemInit.InitMem_ok buf total Ht)
    as (s' & E & Hk & Hu & Ha & Hfree & Hks & Hku & Hut & _ & _ & Ehs & Ecap & _ & Ekc & _).
  assert (Hsrc : PagePool.page_at (MemInit.krnl_mem_pool s') (PagePool.capacity (MemInit.krnl_mem_pool s'))
    ≤ PagePool.start_addr_ (MemInit.usr_mem_pool s')) by done.
  rewrite HI in E. simplify_eq.
  set (m1 := set_pools s' m). assert (Hl1 : loaded m1) by by destruct Hl.
  assert (Hcl1 : clear_tables m1) by exact Hcl.
  pose proof (PagePool.capacity_pos _ Hk) as Hcap. pose proof (PagePool.capacity_pos _ Hu) as Hcap'.
  change MemInit.used_mem_size with 0x200000 in Hks. change MemInit.krnl_heap_base with 0xC0100000 in Ehs.
  unfold PagePool.page_at in Hku, Hut. rewrite Hks in Hku.
  assert (Hc : PagePool.capacity (heap_pool m1) < 131073).
  { change (heap_pool m1) with (MemInit.krnl_addr_pool s'). rewrite Ecap. change page_size with 4096 in *. lia. }
  assert (Hpg : ∀ i, page m1 i = 0xC0100000 + i * 4096) by (intros i; unfold page, PagePool.page_at; by rewrite <- Ehs).
  assert (Hnf : ∀ f, f < 0x200000 → not_free m1 f).
  { intros f Hf j Hj _. unfold PagePool.page_at.
    change (krnl_pool m1) with (MemInit.krnl_mem_pool s') in *. lia. }
  assert (Hfc : ∀ p, p ∈ [MemInit.krnl_mem_pool s'; MemInit.usr_mem_pool s'; MemInit.krnl_addr_pool s'] →
    PagePool.free_count_ p = PagePool.capacity p ∧ ∀ i, PagePool.taken p i = false) by done.
  split; [|split; [done|split; [|apply Hfc; right; right; left]]].
  2:{ rewrite (proj1 (Hfc (MemInit.krnl_mem_pool s') ltac:(left))).
      change (heap_pool m1) with (MemInit.krnl_addr_pool s') in Hc. lia. }
  enough (Hh : kheap m1).
  { assert (Hnt : ∀ i, PagePool.taken (heap_pool m1) i = false) by (apply Hfc; right; right; left).
    split; [split; [done|exact Hsrc|..]|]; intros i; intros; rewrite Hnt in *; done. }
  split.
  - split; try done.
    + apply (ld_words m1 Hl1).
    + rewrite (ld_dir m1 Hl1). by vm_compute.
    + rewrite (ld_self m1 Hl1), (ld_dir m1 Hl1). by vm_compute.
    + intros i Hi Hp. destruct (loaded_pde m1 i Hl1 Hi Hp) as (k & Hk' & _ & ->). rewrite (ld_dir m1 Hl1).
      change krnl_page_dir_phy_base with 0x100000. split; [lia|]. apply Hnf. lia.
    + rewrite (ld_dir m1 Hl1). by apply Hnf.
  - done.
  - intros i Hi. unfold plain. rewrite Hpg, (proj1 (heap_page_fields i ltac:(lia))).
    assert ((256 + i) / 1024 < 255) by div_lia. lia.
  - intros i Hi. rewrite Hpg. by apply heap_page_slot; [|lia].
  - intros i j Hi Hj Hne. rewrite !Hpg, (proj1 (heap_page_slot m1 i Hl1 ltac:(lia))),
    (proj1 (heap_page_slot m1 j Hl1 ltac:(lia))). lia.
  - intros i Hi _. rewrite Hpg. apply no_translation. right.
    rewrite (proj1 (heap_page_slot m1 i Hl1 ltac:(lia))). apply Hcl1. lia.
  - intros a x Ha' Hx (j & Hj & _ & Ef). pose proof (loaded_translate m1 a x Hl1 Hcl1 Ha' Hx).
    unfold PagePool.page_at in Ef.
    change (krnl_pool m1) with (MemInit.krnl_mem_pool s') in *. lia.
Qed.
End Loaded.

(** ** The first two threads *)

Module Threads.
Import Thread Sched.

Section threads.
Context `{Platform}.

(** The block of a kernel thread after its initialization. *)
Record new_block (this m : Z) (y : Thread.t) : Prop := {
  nb_stack : krnl_stack_ y = GetKrnlStackBottom this -w sizeof_IntrStack -w sizeof_StartupStack;
  nb_status : status_ y = if m =? this then Running else Died;
  nb_proc : proc_ y = None;
  nb_guard : stack_guard_ y = stack_guard
}.

Lemma KrnlThread_Init_ok v s priority this m x k :
  string_view.shows v s → s ≠ [] → thds k !! this = Some x → length (name_ x) = 17%nat →
  length (file_descs_ x) = 8%nat → main_thd k = Some m → tag_of AllThreads this ∉ all_thds k →
  ∃ y, KrnlThread_Init v priority this k = Ok (all_PushBack this (set_thds (<[this := y]> (thds k)) k))
    ∧ new_block this m y.
Proof.
  intros Hv Hs Hx Hn Hf Hm Hall. unfold KrnlThread_Init, get_thd. rewrite Hx. cbn [of_option]. rewrite res_bind_ok.
  unfold FileDescTab.Init. rewrite bool_decide_eq_true_2 by (rewrite Hf; unfold FileDesc.std_stream_count; lia).
  cbn [Assert]. rewrite !res_bind_ok. set (tab := _ :: _). unfold Init, get_thd. cbn [thds set_thds main_thd].
  rewrite lookup_insert_eq. cbn [of_option]. rewrite res_bind_ok, Hm, bool_decide_eq_true_2 by eauto.
  cbn [Assert of_option]. rewrite !res_bind_ok. unfold init_block.
  rewrite (string_view.shows_empty _ _ Hv), bool_decide_eq_false_2 by done. cbn [negb].
  destruct Hv as [_ Hv]. unfold string_view.data. destruct (string_view.str_ v) as [src|]; [|done].
  cbn [name_ with_file_descs]. rewrite (cstring.strcpy_s_ok _ _ _ _ Hv) by (rewrite Hn; lia). rewrite !res_bind_ok.
  eexists. unfold all_Find. cbn [all_thds set_thds]. rewrite bool_decide_eq_false_2 by done.
  cbn [negb Assert]. rewrite res_bind_ok. rewrite insert_insert_eq. split; [reflexivity|]. by split.
Qed.

(** The top of a fresh stack is in the page of the thread. *)
Lemma startup_stack this :
  0 < this → this + 4096 < 2 ^ 32 → GetKrnlStackBottom this -w sizeof_IntrStack -w sizeof_StartupStack = this + 3988.
Proof.
  intros. unfold GetKrnlStackBottom, sizeof_IntrStack, sizeof_StartupStack.
  change page_size with 4096. rewrite (u32_small (this + 4096)) by lia.
  rewrite (u32_small (this + 4096 - 76)), u32_small by lia. lia.
Qed.

Lemma store_word_ok this off val k x :
  thds k !! this = Some x → 0 < this → this + 4096 < 2 ^ 32 → 0 ≤ off ≤ 104 →
  store_word this ((this + 3988) +w off) val k
  = Ok (set_thds (<[this := with_stack (krnl_stack_ x) (<[3988 + off := val]> (words x)) x]> (thds k)) k).
Proof.
  intros Hx H1 H2 Ho. unfold store_word. rewrite u32_small by lia. change page_size with 4096.
  rewrite Assert_true by lia. rewrite res_bind_ok. unfold upd_thd, get_thd. rewrite Hx. cbn [of_option].
  rewrite res_bind_ok. by replace (this + 3988 + off - this) with (3988 + off) by lia.
Qed.

Lemma Start_ok callback arg this m y k :
  thds k !! this = Some y → new_block this m y → m ≠ this → 0 < this → this + 4096 < 2 ^ 32 →
  tag_of General this ∉ ready k →
  ∃ z, Start callback arg this k = Ok (ready_PushBack this (set_thds (<[this := z]> (thds k)) k))
    ∧ status_ z = Ready ∧ proc_ z = None ∧ stack_guard_ z = stack_guard.
Proof.
  intros Hy [Es Est Ep Eg] Hm H1 H2 Hr. rewrite (startup_stack this) in Es by lia.
  rewrite (proj2 (Z.eqb_neq _ _)) in Est by done.
  unfold Start, get_thd. rewrite Hy. cbn [of_option]. rewrite res_bind_ok, bool_decide_eq_true_2 by done.
  cbn [Assert]. rewrite res_bind_ok, Es.
  do 3 (erewrite store_word_ok; [|first [exact Hy|apply lookup_insert_eq]|lia|lia|
    unfold SwitchStack_eip, StartupStack_callback, StartupStack_arg; lia]; rewrite res_bind_ok).
  unfold SetStatus, upd_thd, get_thd. cbn [thds set_thds]. rewrite lookup_insert_eq. cbn [of_option].
  rewrite !res_bind_ok, !insert_insert_eq. unfold ready_Find. cbn [ready set_thds].
  rewrite bool_decide_eq_false_2 by done. cbn [negb Assert]. rewrite res_bind_ok.
  eexists. split; [reflexivity|]. by cbn.
Qed.

(** The kernel before [InitThread]: it runs on the stack of a page that is no
    thread yet. *)
Record no_threads (main : Z) (x : Thread.t) (k : kernel) : Prop := {
  nt_thds : thds k = {[ main := x ]};
  nt_lists : ready k = [] ∧ all_thds k = [];
  nt_curr : curr k = main;
  nt_none : idle k = None ∧ main_thd k = None ∧ thread_inited k = false;
  nt_page : length (name_ x) = 17%nat ∧ length (file_descs_ x) = 8%nat
}.

(** [InitThread] makes the code that runs the main thread and the idle thread
    ready, and establishes the invariant of the scheduler. *)
Lemma InitThread_ok main x page v1 s1 v2 s2 callback k :
  no_threads main x k → page ≠ main → 0 < page → page + 4096 < 2 ^ 32 →
  string_view.shows v1 s1 → s1 ≠ [] → string_view.shows v2 s2 → s2 ≠ [] →
  ∃ k', InitThread (Some page) v1 v2 callback true k = Ok k' ∧ kernel_ok k'
    ∧ curr k' = main ∧ ready k' = [page] ∧ idle k' = Some page ∧ main_thd k' = Some main
    ∧ (∀ p, is_Some (thds k' !! p) → p = main ∨ p = page)
    ∧ thread_inited k' = true ∧ timer_inited k' = timer_inited k ∧ ticks k' = ticks k ∧ intr_on k' = intr_on k.
Proof.
  intros [Et [Er Ea] Ec (Ei & Em & En) [Hn Hf]] Hne H1 H2 Hv1 Hs1 Hv2 Hs2. unfold InitThread, InitMain.
  rewrite En, Em. cbn [negb Assert]. rewrite !res_bind_ok, bool_decide_eq_true_2 by done. cbn [Assert].
  rewrite res_bind_ok. set (k0 := set_main_thd (Some (curr k)) k). change (curr k0) with (curr k).
  destruct (KrnlThread_Init_ok v1 s1 default_priority (curr k) main x k0) as (y & E1 & [Es1 Est1 Ep1 Eg1]); try done.
  { unfold k0. cbn. by rewrite Et, Ec, lookup_singleton_eq. } { unfold k0. cbn. by rewrite Ec. }
  { unfold k0. cbn. rewrite Ea. apply not_elem_of_nil. }
  rewrite E1, res_bind_ok. rewrite Ec, Z.eqb_refl in Est1.
  set (k1 := all_PushBack (curr k) (set_thds (<[curr k := y]> (thds k0)) k0)).
  unfold InitIdleThread. cbn [idle all_PushBack set_all_thds set_thds k1 k0 set_main_thd]. rewrite Ei.
  rewrite bool_decide_eq_true_2 by done. cbn [Assert]. rewrite res_bind_ok. unfold KrnlThread_Create, alloc_thread.
  rewrite res_bind_ok. cbn iota beta.
  set (k2 := set_thds (<[page := zero_page]> (thds k1)) k1).
  destruct (KrnlThread_Init_ok v2 s2 10 page main zero_page k2) as (z & E2 & Hz); try done.
  { unfold k2. cbn. apply lookup_insert_eq. } { unfold k2, k1, k0. cbn. by rewrite Ec. }
  { unfold k2, k1, k0. cbn. rewrite Ea, Ec. cbn. unfold sizeof_Tag. rewrite list_elem_of_singleton. lia. }
  rewrite E2, res_bind_ok. set (k3 := all_PushBack page _).
  destruct (Start_ok callback 0 page main z k3) as (z' & E3 & Ez1 & Ez2 & Ez3); try done.
  { unfold k3. cbn. apply lookup_insert_eq. } { unfold k3, k2, k1, k0. cbn. rewrite Er. apply not_elem_of_nil. }
  rewrite E3, !res_bind_ok. eexists. split; [reflexivity|].
  assert (Ethds : thds k3 = <[page := z]> {[ main := y ]}).
  { unfold k3, k2, k1, k0. cbn. rewrite Et, Ec, insert_insert_eq. f_equal. apply insert_singleton_eq. }
  assert (Eready : ready k3 = [] ∧ curr k3 = main) by (unfold k3, k2, k1, k0; cbn; by rewrite Er, Ec).
  destruct Eready as [Er3 Ec3]. rewrite Ethds, insert_insert_eq.
  unfold kernel_ok, procs_ok, guards_ok, wf, view_of.
  cbn [thds ready curr idle set_inited set_idle ready_PushBack set_ready set_thds]. rewrite Er3, Ec3.
  assert (Hlk : ∀ p w, <[page := z']> ({[ main := y ]} : gmap Z Thread.t) !! p = Some w → p = page ∧ w = z' ∨ p = main ∧ w = y).
  { intros p w [[-> ->]|[_ [-> ->]%lookup_singleton_Some]]%lookup_insert_Some; eauto. }
  assert (Honly : ∀ p, is_Some ((<[page := z']> ({[ main := y ]} : gmap Z Thread.t)) !! p) → p = main ∨ p = page).
  { intros p [w [[-> _]|[-> _]]%Hlk]; auto. }
  split; [split; [split; [split; cbn|]|split]|clear Hlk; unfold k3, k2, k1, k0; cbn; rewrite Ec; by split_and!].
  - rewrite lookup_fmap, lookup_insert_ne, lookup_singleton_eq by done. by eexists.
  - intros p. rewrite lookup_fmap. intros (w & [[-> ->]|[-> ->]]%Hlk & Ew)%fmap_Some; [congruence|done].
  - intros p. rewrite lookup_fmap, list_elem_of_singleton. split.
    + intros (w & [[-> ->]|[-> ->]]%Hlk & Ew)%fmap_Some; [done|congruence].
    + intros ->. by rewrite lookup_insert_eq; cbn; rewrite Ez1.
  - apply NoDup_singleton.
  - exists page, Ready. rewrite lookup_fmap, lookup_insert_eq. cbn. by rewrite Ez1.
  - cbn [vst vcurr]. rewrite lookup_fmap, lookup_insert_ne, lookup_singleton_eq by done. cbn. by rewrite Est1.
  - intros p w q [[-> ->]|[-> ->]]%Hlk; congruence.
  - by intros p w [[-> ->]|[-> ->]]%Hlk.
Qed.

End threads.
End Threads.

(** ** The kernel *)

Module Entry.
Import InitDisk KrnlSched.
#[local] Existing Instance KrnlHeap.krnl_heap.
Local Abbreviation heap := KrnlHeap.heap.

(** What the loader and the image of the kernel provide: the addresses of the
    entry points and handlers, the tables, the memory, the code that runs as the
    main thread, the channels with their disks, and what the BIOS counted. *)
Record boot {D : Type} := mk_boot {
  entries : list Z; idt_addr : Z; default_handler : Z;
  sys_calls : Tab.fn → Z;
  memory : Machine.t; bitmap_ram : Z → Z; total_mem_size : Z;
  first : Thread.kernel; idle_callback : Z;
  clock_handler : Z; tss_addr : Z; gdt : Desc.DescTab.DescTabSpan; keyboard_handler : Z;
  channels : list (chnl D); bios : Z; disk_handler : Z;
  descs : FileDescTab.t
}.
#[global] Arguments boot : clear implicits.
#[global] Arguments mk_boot {D}.

(** The kernel where [InitKernel] enables interrupts. *)
Record core := mk_core {
  intr : Kernel.state; sc_handlers : list Z; mem : Machine.t; mem_inited : bool;
  threads : Thread.kernel; timer_writes : list (Z * Z); krnl_gdt : Desc.DescTab.DescTabSpan;
  task_reg : Z; handler_tab : IntrHandlerTab.t; output : list Z
}.

(** The kernel when [InitKernel] returns: what was there before, the scheduler
    and the semaphore of the disks after a run, the disks and the file system with
    the heap that they have allocated from. *)
Record system {D : Type} := mk_system {
  started : core; sched : Semaphore.sys; disks : state D heap; file_sys : FilePart.world D heap
}.
#[global] Arguments system : clear implicits.
#[global] Arguments mk_system {D}.

(** The memory of the kernel, with all pages the heap has taken. *)
Definition memory_of {D} (k : system D) : Machine.t := MemHeap.pages (FilePart.dev (file_sys k)).2.

Section entry.
Context {D : Type} `{Store D} `{Identify D} `{Thread.Platform}.

(** [intr::InitIntr], [sc::InitSysCall] and [mem::InitMem], with what they print. *)
Definition InitIntr (b : boot D) (o : list Z) : res (Kernel.state * list Z) :=
  s ← Kernel.InitIntr (entries b) (idt_addr b) (default_handler b);
  o ← Print.PrintlnStr (text "Intel 8259A Programmable Interrupt Controller has been initialized.") o;
  o ← Print.PrintlnStr (text "The interrupt descriptor table has been initialized.") o;
  Ok (s, o).

Definition InitSysCall (b : boot D) (o : list Z) : res (list Z * list Z) :=
  h ← Tab.InitSysCall (sys_calls b) (replicate (Z.to_nat Tab.count) 0);
  o ← Print.PrintlnStr (text "System calls have been initialized.") o;
  Ok (h, o).

Definition InitMem (b : boot D) (o : list Z) : res (Machine.t * bool * list Z) :=
  '(pools, inited) ← MemInit.InitMem (bitmap_ram b) (total_mem_size b) false;
  let l := MemInit.mem_layout (total_mem_size b) in
  o ← Print.PrintlnStr (text "Memory pools have been initialized.") o;
  o ← Print.Printf (tabs 1 "The memory size is 0x{}.") [Format.AUInt (total_mem_size b)] o;
  o ← Print.Printf (tabs 1 "The kernel physical memory addresses start from 0x{}.") [Format.AUInt (MemInit.krnl_mem_base l)] o;
  o ← Print.Printf (tabs 1 "The user physical memory addresses start from 0x{}.") [Format.AUInt (MemInit.usr_mem_base l)] o;
  Ok (Machine.set_pools pools (memory b), inited, o).

(** [tsk::InitThread]; the idle thread's page is from the kernel's pool. *)
Definition InitThread (b : boot D) (mem_inited : bool) (m : Machine.t) : res (Machine.t * Thread.kernel) :=
  '(m, page) ← Pages.AllocPages MemInit.Kernel 1 m;
  k ← Thread.InitThread (if page =? 0 then None else Some page) (text "main") (text "idle") (idle_callback b) mem_inited (first b);
  Ok (m, k).

(** [io::InitTimer] and [io::InitKeyboard], on the shared table of handlers. *)
Definition InitTimer (b : boot D) (k : Thread.kernel) (tab : IntrHandlerTab.t) (o : list Z) :
    res (Thread.kernel * IntrHandlerTab.t * list (Z * Z) * list Z) :=
  '(s, w) ← Timer.InitTimer (Thread.thread_inited k) (clock_handler b) Thread.timer_freq_per_second
    (Timer.mkState (Thread.timer_inited k) (Thread.ticks k) tab);
  o ← Print.PrintStr (string_view.literal (chars "Intel 8253 Programmable Interval Timer has been initialized." ++ [Vga.LF])) o;
  Ok (Thread.set_ticks (Timer.ticks s) (Thread.set_inited (Timer.inited s) (Thread.thread_inited k) k), Timer.tab s, w, o).

Definition InitKeyboard (b : boot D) (tab : IntrHandlerTab.t) (o : list Z) : res (IntrHandlerTab.t * list Z) :=
  tab ← IntrHandlerTab.RegisterIntrHandler tab Numbers.Keyboard (keyboard_handler b);
  o ← Print.PrintStr (string_view.literal (chars "The keyboard has been initialized." ++ [Vga.LF])) o;
  Ok (tab, o).

(** [InitKernel] with interrupts disabled: its first seven calls. *)
Definition InitCore (b : boot D) : res core :=
  '(i, o) ← InitIntr b [];
  '(h, o) ← InitSysCall b o;
  '(m, mem_inited, o) ← InitMem b o;
  '(m, k) ← InitThread b mem_inited m;
  '(k, tab, w, o) ← InitTimer b k (Kernel.tab i) o;
  '(g, tr) ← Desc.Tss.InitTaskStateSeg (Thread.thread_inited k) (tss_addr b) (gdt b);
  o ← Print.PrintlnStr (text "The task state segment has been initialized.") o;
  '(tab, o) ← InitKeyboard b tab o;
  Ok (mk_core i h m mem_inited k w g tr tab o).

(** [EnableIntr]: the interrupt flag of the processor, and the semaphore of the
    channel as it is constructed. *)
Definition EnableIntr (c : core) : Semaphore.sys := KrnlSched.start (threads c).

(** [InitKernel]. From [EnableIntr] on, the main thread initializes the disks and
    the file system while [es] happens to the scheduler: it waits for the disk,
    the idle thread runs, the clock ticks. What the main thread computes does not
    depend on when it runs: the idle thread touches neither the disks nor the
    heap, and a wait of the driver returns when the device is ready (IoDisk). The
    heap is that of KrnlHeap, its table constructed at its first use. *)
Definition InitKernel (b : boot D) (es : list event) : res (system D) :=
  c ← InitCore b;
  descs_ ← MemHeap.MemBlockDescTab_Init;
  let y := EnableIntr c in
  '(_, d) ← InitDisk (bios b) (disk_handler b) (mem_inited c) (Thread.intr_on (Semaphore.ker y))
    (InitDisk.mk (channels b) [] (handler_tab c) (MemHeap.mk (mem c) ∅ descs_) (output c) false);
  fs ← FsInit.InitFileSys (to_system (bios b) (mem_inited c) d) (descs b);
  y ← run_events es y;
  Ok (mk_system c y d fs).

(** [StartupCallback], where a new thread begins: what it does before the call. *)
Definition StartupCallback (callback : Z) (k : Thread.kernel) : res Thread.kernel :=
  Assert (negb (callback =? 0));; Ok (Thread.set_intr true k).

(** [main]: the loop that yields is a further run of events. *)
Definition main_ (b : boot D) (es fs : list event) : res Semaphore.sys :=
  k ← InitKernel b es; run_events fs (sched k).
End entry.

(** ** The kernel starts *)

Section boots.
Context {D : Type} `{Store D} `{Identify D} `{!StoreLaws D} `{!IdentifyLaws D} `{Thread.Platform}.

Lemma println_ok s o : 0 ∉ chars s → Print.PrintlnStr (text s) o = Ok (o ++ chars s ++ [Vga.LF]).
Proof.
  intros Hs. unfold Print.PrintlnStr. rewrite (PrintFacts.PrintStr_ok (text s) (chars s)) by by apply Path.literal_shows.
  rewrite trace_prints, res_bind_ok. unfold PrintChar, trace_out. by rewrite <- app_assoc.
Qed.

Lemma print_literal_ok l o : 0 ∉ l → Print.PrintStr (string_view.literal l) o = Ok (o ++ l).
Proof. intros Hs. rewrite (PrintFacts.PrintStr_ok _ l) by by apply Path.literal_shows. apply trace_prints. Qed.

Lemma printf_uint_ok f n (o : list Z) :
  printable f → 0 ≤ n < 2 ^ 32 → ∃ o', Print.Printf (string_view.literal f) [Format.AUInt n] o = Ok o'.
Proof.
  intros (Hne & Hz & Hl) Hn. pose proof (Path.literal_shows f Hz) as Hv. unfold Print.Printf.
  rewrite (string_view.shows_empty _ f Hv), bool_decide_eq_false_2 by done. cbn [negb Assert]. rewrite res_bind_ok.
  rewrite (PrintFacts.Printf_impl_ok _ [PrintFacts.hex n]) with (s := f);
    [|constructor; [by constructor|constructor]|done|done]. rewrite trace_prints. eauto.
Qed.

Context (b : boot D).

Lemma InitIntr_boots o :
  length (entries b) = 49%nat → Forall (in_u 32) (entries b) →
  ∃ s o', InitIntr b o = Ok (s, o')
    ∧ (∀ i e, entries b !! i = Some e →
        ∃ g, Kernel.idt s !! i = Some g ∧ Kernel.gate_is g e (if decide (i = 48%nat) then Three else Zero))
    ∧ HandlerTabFacts.tab_ok (Kernel.tab s)
    ∧ IntrHandlerTab.handlers (Kernel.tab s) = replicate 49 (default_handler b).
Proof.
  intros Hl He. destruct (Kernel.InitIntr_gates (entries b) (idt_addr b) (default_handler b) Hl He)
    as (s & E & _ & _ & Hg & Ht & Hh & _). unfold InitIntr. rewrite E, res_bind_ok.
  rewrite println_ok, res_bind_ok, println_ok by by apply (bool_decide_unpack _). eauto 8.
Qed.

Lemma InitSysCall_boots o :
  ∃ h o', InitSysCall b o = Ok (h, o') ∧ ∀ t, h !! Z.to_nat (Tab.to_Z t) = Some (sys_calls b (Tab.fn_of t)).
Proof.
  destruct (Tab.InitSysCall_ok (sys_calls b) (replicate (Z.to_nat Tab.count) 0)) as (h & E & _ & Hh & _); [done|].
  unfold InitSysCall. rewrite E, res_bind_ok, println_ok by by apply (bool_decide_unpack _). eauto.
Qed.

(** The pages of the kernel's heap: half of those behind the first 2 megabytes, in
    eights. *)
Definition heap_pages (total : Z) : Z := (total - 0x200000) / 4096 / 2 / 8 * 8.

(** The pools, and the heap of the kernel without a page in use. *)
Lemma InitMem_boots o :
  Loaded.loaded (memory b) → Loaded.clear_tables (memory b) → 0x210000 ≤ total_mem_size b ≤ 0x20200000 →
  ∃ m o', InitMem b o = Ok (m, true, o') ∧ KernelPages.kowned m
    ∧ PagePool.start_addr_ (KernelPages.heap_pool m) = 0xC0100000
    ∧ PagePool.free_count_ (Machine.krnl_pool m) = heap_pages (total_mem_size b)
    ∧ PagePool.capacity (KernelPages.heap_pool m) = heap_pages (total_mem_size b)
    ∧ 0 < heap_pages (total_mem_size b) < 131073
    ∧ ∀ i, PagePool.taken (KernelPages.heap_pool m) i = false.
Proof.
  intros Hl Hcl Ht. destruct (MemInit.InitMem_ok (bitmap_ram b) (total_mem_size b) Ht) as (p & E & _).
  destruct (Loaded.InitMem_kowned _ _ _ _ _ Hl Hcl Ht E) as (Hk & Hs & (Hc & Hcap & Hn) & Hfree).
  unfold InitMem. rewrite E, res_bind_ok, println_ok by by apply (bool_decide_unpack _). rewrite res_bind_ok.
  rewrite (MemInit.mem_layout_eq _ Ht). cbn [MemInit.krnl_mem_base MemInit.usr_mem_base].
  unfold tabs. set (pages := (total_mem_size b - 0x200000) / 4096).
  assert (Hp : 16 ≤ pages ≤ 131072) by (unfold pages; div_lia).
  edestruct (printf_uint_ok (replicate 1 Vga.HT ++ chars "The memory size is 0x{}." ++ [Vga.LF]) (total_mem_size b)) as [o1 E1];
    [by apply (bool_decide_unpack _)|lia|rewrite E1, res_bind_ok].
  edestruct printf_uint_ok as [o2 E2]; [| |rewrite E2, res_bind_ok]; [by apply (bool_decide_unpack _)|lia|].
  edestruct printf_uint_ok as [o3 E3]; [| |rewrite E3, res_bind_ok]; [by apply (bool_decide_unpack _)|div_lia|].
  exists (Machine.set_pools p (memory b)), o3. done.
Qed.

(** The first page of the heap is the idle thread; there is room for [n] requests
    of the largest size. *)
Lemma InitThread_boots m0 main x n :
  KernelPages.kowned m0 → PagePool.start_addr_ (KernelPages.heap_pool m0) = 0xC0100000 →
  PagePool.free_count_ (Machine.krnl_pool m0) = PagePool.capacity (KernelPages.heap_pool m0) →
  PagePool.capacity (KernelPages.heap_pool m0) < 131073 →
  (∀ i, PagePool.taken (KernelPages.heap_pool m0) i = false) →
  (0 < n)%nat → 2 * KrnlHeap.window * Z.of_nat n ≤ PagePool.capacity (KernelPages.heap_pool m0) →
  Threads.no_threads main x (first b) → main < 0xC0100000 →
  ∃ m k page f, InitThread b true m0 = Ok (m, k)
    ∧ KrnlHeap.heap_inv page f ∅ n (KrnlHeap.initial m) ∧ main ≠ page ∧ Sched.kernel_ok k
    ∧ Thread.curr k = main ∧ Thread.idle k = Some page
    ∧ (∀ p, is_Some (Thread.thds k !! p) → p = main ∨ p = page)
    ∧ Thread.thread_inited k = true ∧ Thread.timer_inited k = Thread.timer_inited (first b).
Proof.
  intros Ho Hs Hc Hcap Hfree Hn Hroom Hno Hmain.
  destruct (KrnlHeap.first_page m0 n Ho Hfree Hn Hroom) as (m & s & f & HA & Hne & Hs1 & Htr & Hinv).
  { cbn [MemHeap.free_page_count KernelHeap.kernel_pages]. unfold PhyMemPagePool.GetFreeCount. rewrite Hc.
    unfold KrnlHeap.window in *. lia. }
  unfold InitThread, Pages.AllocPages. change (Assert (0 <? 1)) with (Ok tt). rewrite res_bind_ok.
  change (Pages.alloc_pages MemInit.Kernel 1 m0 = Ok (m, KernelPages.page m0 s)) in HA.
  rewrite HA, res_bind_ok. rewrite (proj2 (Z.eqb_neq _ _)) by done.
  assert (Epg : KernelPages.page m0 s = 0xC0100000 + s * 4096) by (unfold KernelPages.page, PagePool.page_at; by rewrite <- Hs).
  assert (Hlit : ∀ s, 0 ∉ chars s → string_view.shows (text s) (chars s)) by (intros; by apply Path.literal_shows).
  edestruct (Threads.InitThread_ok main x (KernelPages.page m0 s) (text "main") (chars "main") (text "idle") (chars "idle")
    (idle_callback b) (first b) Hno) as (k & Ek & Hok & Ec & _ & Ei & _ & Honly & Et & Eti & _);
    [lia|lia|lia|by apply Hlit, (bool_decide_unpack _)|done|by apply Hlit, (bool_decide_unpack _)|done|].
  rewrite Ek, res_bind_ok. exists m, k, (KernelPages.page m0 s), f. split_and!; try done. lia.
Qed.

(** The clock ticks from 0, and the handler of the clock is the scheduler's. *)
Lemma InitTimer_boots k tab o :
  HandlerTabFacts.tab_ok tab → Thread.thread_inited k = true → Thread.timer_inited k = false →
  ∃ w o', InitTimer b k tab o
    = Ok (Thread.set_ticks 0 (Thread.set_inited true true k),
          IntrHandlerTab.mk (IntrHandlerTab.names tab) (<[32%nat := clock_handler b]> (IntrHandlerTab.handlers tab)), w, o').
Proof.
  intros Ht Hth Hti. pose proof (Timer.InitTimer_ok tab (clock_handler b) Thread.timer_freq_per_second (Thread.ticks k) Ht
    ltac:(done)) as HT. unfold InitTimer. rewrite Hth, Hti.
  destruct (Timer.InitTimer _ _ _ _) as [[s w]| | |]; [|done|done|done].
  destruct HT as (_ & -> & _). rewrite res_bind_ok, print_literal_ok by by apply (bool_decide_unpack _).
  rewrite res_bind_ok. eauto.
Qed.

Lemma InitKeyboard_boots tab o :
  HandlerTabFacts.tab_ok tab →
  ∃ o', InitKeyboard b tab o
    = Ok (IntrHandlerTab.mk (IntrHandlerTab.names tab) (<[33%nat := keyboard_handler b]> (IntrHandlerTab.handlers tab)), o').
Proof.
  intros Ht. unfold InitKeyboard, IntrHandlerTab.RegisterIntrHandler.
  destruct (HandlerTabFacts.RegisterHandler_ok tab 33 (keyboard_handler b) Ht ltac:(lia)) as [E _].
  change (Numbers.to_Z Numbers.Keyboard) with (Z.of_nat 33). rewrite E, res_bind_ok.
  rewrite print_literal_ok by by apply (bool_decide_unpack _). eauto.
Qed.

(** What the loader, the image of the kernel and the disks must provide: entry
    points for all interrupts, a memory with the loader's page tables, cleared
    behind the entries the loader writes, of at most 514 megabytes and with room
    for the requests of the disks and the file system (15 megabytes when [n] is
    0), a running thread below the heap, free slots in the global descriptor
    table, and two disks of which the second has one partition of at least 613
    sectors and no file system. *)
Record bootable (main first_lba count : Z) (x : Thread.t) (kc kd : Z) (st0 st1 : D) (cs : list (chnl D)) (n : nat) :
    Prop := {
  bt_entries : length (entries b) = 49%nat ∧ Forall (in_u 32) (entries b);
  bt_memory : Loaded.loaded (memory b) ∧ Loaded.clear_tables (memory b);
  bt_size : 0x210000 ≤ total_mem_size b ≤ 0x20200000
    ∧ 2 * KrnlHeap.window * Z.of_nat (10 + n) ≤ heap_pages (total_mem_size b);
  bt_first : Threads.no_threads main x (first b) ∧ Thread.timer_inited (first b) = false ∧ main < 0xC0100000;
  bt_gdt : Desc.DescTab.span_ok (gdt b) ∧ in_u 32 (tss_addr b);
  bt_krnl_segs : Desc.DescTab.descs (gdt b) !! 1%nat = Some kc ∧ Desc.DescTab.descs (gdt b) !! 2%nat = Some kd;
  bt_free_slots : Desc.DescTab.descs (gdt b) !! 4%nat = Some 0 ∧ Desc.DescTab.descs (gdt b) !! 5%nat = Some 0
    ∧ Desc.DescTab.descs (gdt b) !! 6%nat = Some 0;
  bt_disks : channels b = mk_chnl IdeChnl.init [blank_drive st0; blank_drive st1] :: cs ∧ bios b = 2;
  bt_stores : store_ok st0 ∧ store_ok st1;
  bt_part : (∀ h : heap, PartScan.disk_layout (st1, h) [(first_lba, count)] [])
    ∧ 0 ≤ first_lba ∧ 613 ≤ count ∧ first_lba + count ≤ 163839;
  bt_no_fs : SuperBlock.IsSignValid (SuperBlock.decode (sector_at st1 (first_lba + 1))) = false
}.

(** The kernel where it enables interrupts: every interrupt has its gate, the
    clock and the keyboard their handlers, the system calls are registered, the
    heap has one page in use, that of the idle thread [page], and room for
    [10 + n] requests, there are two threads, the clock is at 0, and the task
    register describes the task state segment. *)
Record ready_core (main kc kd page f : Z) (n : nat) (c : core) : Prop := {
  rc_gates : ∀ i e, entries b !! i = Some e →
    ∃ g, Kernel.idt (intr c) !! i = Some g ∧ Kernel.gate_is g e (if decide (i = 48%nat) then Three else Zero);
  rc_handlers : HandlerTabFacts.tab_ok (handler_tab c) ∧ IntrHandlerTab.handlers (handler_tab c)
    = <[33%nat := keyboard_handler b]> (<[32%nat := clock_handler b]> (replicate 49 (default_handler b)));
  rc_calls : ∀ t, sc_handlers c !! Z.to_nat (Tab.to_Z t) = Some (sys_calls b (Tab.fn_of t));
  rc_memory : mem_inited c = true ∧ KrnlHeap.heap_inv page f ∅ (10 + n) (KrnlHeap.initial (mem c));
  rc_threads : main ≠ page ∧ Sched.kernel_ok (threads c) ∧ Thread.curr (threads c) = main
    ∧ Thread.idle (threads c) = Some page ∧ ∀ p, is_Some (Thread.thds (threads c) !! p) → p = main ∨ p = page;
  rc_clock : Thread.timer_inited (threads c) = true ∧ Thread.ticks (threads c) = 0;
  rc_tss : task_reg c = 0x20 ∧ ∃ dt dc dd,
    Desc.DescTab.descs (krnl_gdt c) !! 4%nat = Some dt ∧ Desc.DescTab.descs (krnl_gdt c) !! 5%nat = Some dc
    ∧ Desc.DescTab.descs (krnl_gdt c) !! 6%nat = Some dd
    ∧ Desc.SegDesc.seg_of dt = Desc.SegDesc.mkSeg (tss_addr b) 107 1 ∧ Desc.Tss.user_copy kc dc ∧ Desc.Tss.user_copy kd dd
}.

(** The kernel after [InitKernel]: the handler of the disks is registered, the
    memory with all the heap has taken keeps its invariant and the page of the
    idle thread, the main thread runs and there are no others but the idle thread,
    the clock has counted the ticks, the partition is known, and it has an empty
    file system, mounted, its root directory open, its objects on that heap. *)
Record running (main first_lba count page f : Z) (n : nat) (es : list event) (k : system D) : Prop := {
  rn_handlers : IntrHandlerTab.handlers (handlers (disks k))
    = <[46%nat := disk_handler b]> (IntrHandlerTab.handlers (handler_tab (started k)));
  rn_memory : KernelPages.kowned (memory_of k) ∧ Machine.translate (memory_of k) page = Some f;
  rn_threads : two_threads main page (sched k) ∧ at_main main (sched k) = true;
  rn_clock : Thread.ticks (Semaphore.ker (sched k)) = u32 (count_ticks es);
  rn_disks : disk_inited (disks k) = true ∧ parts (disks k) = [(0%nat, 1%nat, PartScan.Prim 0)];
  rn_file_sys : ∃ bits sb, FsFormat.layout first_lba count bits sb
    ∧ FsInit.mounted_empty (HeapLaws0 := KrnlHeap.krnl_heap_laws page f) (descs b) bits sb (5 + n) (file_sys k)
}.

Lemma InitCore_ready main first_lba count x kc kd st0 st1 cs n :
  bootable main first_lba count x kc kd st0 st1 cs n →
  ∃ c page f, InitCore b = Ok c ∧ ready_core main kc kd page f n c.
Proof.
  intros [[Hel Hef] [Hld Hcl] [Htot Hroom] (Hno & Hti & Hmain) [Hgdt Htss] [Hkc Hkd] (H4 & H5 & H6) _ _ _ _].
  unfold InitCore. destruct (InitIntr_boots [] Hel Hef) as (i & o1 & -> & Hgates & Htab & Hhd). rewrite res_bind_ok.
  destruct (InitSysCall_boots o1) as (h & o2 & -> & Hcalls). rewrite res_bind_ok.
  destruct (InitMem_boots o2 Hld Hcl Htot) as (m0 & o3 & -> & Hko & Hps & Hfc & Hcap & Hn & Hfree). rewrite res_bind_ok.
  destruct (InitThread_boots m0 main x (10 + n) Hko Hps ltac:(congruence) ltac:(lia) Hfree ltac:(lia)
    ltac:(by rewrite Hcap) Hno Hmain)
    as (m & k & page & f & -> & Hinv & Hne & Hok & Ecur & Eid & Honly & Eti & Ett). rewrite res_bind_ok.
  destruct (InitTimer_boots k (Kernel.tab i) o3 Htab Eti ltac:(by rewrite Ett)) as (w & o4 & ->). rewrite res_bind_ok.
  destruct (HandlerTabFacts.RegisterHandler_ok (Kernel.tab i) 32 (clock_handler b) Htab ltac:(lia)) as [_ Htab1].
  destruct (Desc.Tss.InitTaskStateSeg_installs (tss_addr b) (gdt b) kc kd Hgdt Htss Hkc Hkd H4 H5 H6)
    as (g & dt & dc & dd & Eg & _ & Edt & Edc & Edd & _ & Hseg & _ & _ & Huc & Hud).
  cbn [Thread.thread_inited Thread.set_ticks Thread.set_inited]. rewrite Eg, res_bind_ok.
  rewrite println_ok, res_bind_ok by by apply (bool_decide_unpack _).
  destruct (HandlerTabFacts.RegisterHandler_ok _ 33 (keyboard_handler b) Htab1 ltac:(lia)) as [_ Htab2].
  destruct (InitKeyboard_boots _ (o4 ++ chars "The task state segment has been initialized." ++ [Vga.LF]) Htab1) as [o6 ->].
  rewrite res_bind_ok. eexists _, page, f. split; [reflexivity|].
  split; cbn [intr sc_handlers mem mem_inited threads handler_tab task_reg krnl_gdt].
  - exact Hgates.
  - split; [exact Htab2|]. cbn. by rewrite Hhd.
  - exact Hcalls.
  - by split.
  - split; [done|]. split; [exact Hok|]. by split_and!.
  - done.
  - eauto 10.
Qed.

(** The disks and the file system, on the heap of the kernel. *)
Lemma InitKernel_disks main first_lba count x kc kd st0 st1 cs n c page f es :
  bootable main first_lba count x kc kd st0 st1 cs n → InitCore b = Ok c → ready_core main kc kd page f n c →
  boot_run main es (EnableIntr c) = true →
  ∃ k, InitKernel b es = Ok k ∧ started k = c ∧ running main first_lba count page f n es k.
Proof.
  intros [_ _ _ _ _ _ _ [Hch Hbios] [Hst0 Hst1] (Hlay & Hs & Hc & Hm) Hsig] HC
    [_ [Htab _] _ [Hmi Hheap] (Hne & Hok & Ecur & Eid & Honly) [_ Ht0] _] Hrun.
  unfold InitKernel. rewrite HC, res_bind_ok, MemHeap.MemBlockDescTab_Init_eq, res_bind_ok, Hch, Hbios, Hmi.
  change (MemHeap.mk (mem c) ∅ _) with (KrnlHeap.initial (mem c)).
  destruct (boot_disks_ok (HeapLaws0 := KrnlHeap.krnl_heap_laws page f) (disk_handler b) ∅ n st0 st1
      (KrnlHeap.initial (mem c)) first_lba count cs (handler_tab c) (output c) (descs b)
      Htab Hst0 (conj Hst1 Hheap) (Hlay _) Hs Hc Hm Hsig)
    as (s' & st0' & st1' & pt & w & bits & sb & E & _ & _ & _ & _ & Eparts & Ehd & Eini & Efs & Hlay' & Hmount).
  change (Thread.intr_on (Semaphore.ker (EnableIntr c))) with true. rewrite E, res_bind_ok, Efs, res_bind_ok.
  destruct (start_ok main page (threads c) Hok Ecur Eid Honly) as [Htw _].
  apply andb_true_iff in Hrun as [Hl Hat]. change (KrnlSched.start (threads c)) with (EnableIntr c) in Htw.
  destruct (run_events_ok main page Hne es (EnableIntr c) Htw Hl) as (y & Ey & Hy & Hticks).
  { change (in_u 32 (Thread.ticks (threads c))). by rewrite Ht0. }
  rewrite Ey in Hat |- *. rewrite res_bind_ok. eexists. split; [reflexivity|]. split; [done|].
  split; cbn [disks started sched file_sys]; try done.
  - destruct (FsInit.me_root _ _ _ _ _ Hmount) as (a & live & _ & [_ Hinv] & _).
    change (KrnlHeap.heap_inv page f live (5 + n) (FilePart.dev w).2) in Hinv.
    split; [by apply (KrnlHeap.hi_owned page f live (5 + n))|]. apply (KrnlHeap.hi_base _ _ _ _ _ Hinv).
  - rewrite Hticks. change (Thread.ticks (Semaphore.ker (EnableIntr c))) with (Thread.ticks (threads c)).
    by rewrite Ht0.
  - eauto.
Qed.

End boots.

(** ** A machine that starts *)

#[local] Existing Instance Ram.ram_store.
#[local] Existing Instance Ram.ram_store_laws.
#[local] Instance boot_platform : Thread.Platform :=
  {| Thread.GetPhyAddr a := a; Thread.StartupCallback_addr := 0xC0003000; Thread.intr_exit_addr := 0xC0003100 |}.

(** The tables of the loader, as the words that are not zero. *)
Definition loader_words : list (Z * Z) :=
  [(0x100000, 0x101007)]
  ++ ((λ k, (0x100000 + 4 * (768 + k), 0x101000 + k * 4096 + 7)) <$> seqZ 0 255)
  ++ [(0x100FFC, 0x100007)]
  ++ ((λ n, (0x101000 + 4 * n, n * 4096 + 7)) <$> seqZ 0 256).
Definition loader_memory : Machine.t :=
  Machine.mk (list_to_map loader_words) 0x100000 Mapping.demo_pools None.

Lemma loader_word_at (f : Z → Z) (v : Z → Z) a n :
  forallb (λ i, Machine.word loader_memory (f i) =? v i) (seqZ a n) = true →
  ∀ i, a ≤ i < a + n → Machine.word loader_memory (f i) = v i.
Proof.
  intros Hall i Hi. rewrite forallb_forall in Hall. apply Z.eqb_eq, Hall, list_elem_of_In, elem_of_seqZ. lia.
Qed.

Lemma loader_word_cases a :
  Machine.word loader_memory a = 0 ∨ (a, Machine.word loader_memory a) ∈ loader_words.
Proof.
  unfold Machine.word, loader_memory. cbn [Machine.ram].
  destruct ((list_to_map loader_words : gmap Z Z) !! a) as [v|] eqn:E; [right|by left].
  by apply elem_of_list_to_map_2.
Qed.

Lemma loader_words_fine : Forall (λ p, in_u 32 p.2 ∧ p.1 < 0x102000) loader_words.
Proof. apply (bool_decide_unpack _). by vm_compute. Qed.

Lemma loader_word_high a : 0x102000 ≤ a → Machine.word loader_memory a = 0.
Proof.
  intros Ha. destruct (loader_word_cases a) as [|Hin]; [done|].
  destruct (proj1 (Forall_forall _ _) loader_words_fine _ Hin) as [_ Hlt]. cbn in Hlt. lia.
Qed.

Lemma loader_loaded : Loaded.loaded loader_memory.
Proof.
  split.
  - intros a. destruct (loader_word_cases a) as [->|Hin]; [done|].
    by destruct (proj1 (Forall_forall _ _) loader_words_fine _ Hin).
  - done.
  - by vm_compute.
  - by vm_compute.
  - intros i Hi. apply (loader_word_at (λ i, 0x100000 + 4 * i) (λ _, 0) 1 767); [by vm_compute|lia].
  - intros k Hk. apply (loader_word_at (λ k, 0x100000 + 4 * (768 + k)) (λ k, 0x101000 + k * 4096 + 7) 0 255); [by vm_compute|lia].
  - intros n Hn. apply (loader_word_at (λ n, 0x101000 + 4 * n) (λ n, n * 4096 + 7) 0 256); [by vm_compute|lia].
Qed.

Lemma loader_clear : Loaded.clear_tables loader_memory.
Proof.
  intros n Hn. destruct (decide (n < 1024)).
  - rewrite (loader_word_at (λ n, 0x101000 + 4 * n) (λ _, 0) 256 768); [done|by vm_compute|lia].
  - by rewrite loader_word_high by lia.
Qed.

Definition demo_first : Thread.kernel :=
  Thread.mkKernel {[ 0xC009E000 := Thread.zero_page ]} [] [] 0xC009E000 None None ∅ false 0 0x100000 0 0x100000 false false.
Definition demo_boot : boot Ram.disk :=
  mk_boot (replicate 49 0xC0001000) 0xC0020000 0xC0001234
    (λ f, match f with Tab.File_Seek => 0xC0005000 | _ => 0xC0006000 end)
    loader_memory (λ _, 255) 0x2000000 demo_first 0xC0002000 0xC0004000 0xC0012340
    (Desc.DescTab.mkSpan 60 ([0; 0x00CF98000000FFFF; 0x00CF92000000FFFF; 0xC0C0920B80000007] ++ replicate 56 0))
    0xC0007000 [mk_chnl IdeChnl.init [blank_drive ∅; blank_drive demo_sdb]] 2 0xC0008000 FsInit.demo_fd.

(** The start of the demonstration: two waits for the disk, with the clock. *)
Definition demo_run : list event := [EWait; ETick; EDisk; EIdle; EResume; EYield; ETick; EWait; EDisk; EIdle; EResume].


(** A run that is possible there. *)
Example demo_run_possible :
  match InitCore demo_boot with Ok c => boot_run 0xC009E000 demo_run (EnableIntr c) | _ => false end = true.
Proof. by vm_compute. Qed.
End Entry.
